(* ===== verification/_CoqProject ===== *)
-Q . S2P
Prelude.v
BTree.v
Codec.v
Crypto.v
BackupArchive.v
BackupArchiveProps.v
BackupArchiveSpec.v
RestoreCutover.v
RestoreCutoverProps.v
InstallationSafety.v
InstallationSafetyProps.v
WitnessChain.v
Supervisor.v
WitnessFile.v
WitnessFileProps.v
SafetySpec.v
Text.v
RunStatus.v
RunDecider.v
RunDeciderSpec.v
AgentRun.v
AgentRunSpec.v
RunReplay.v
RunPorts.v
RunCoordinator.v
RunHandlers.v
RunStore.v
RunConcurrency.v
RunConcurrencyProps.v
RunCoordinatorProps.v
RunSystem.v
WorkQueue.v
WorkQueueProps.v
WorkQueueSpec.v
PgRunStore.v
PgRunStoreProps.v
RunSchedule.v
RunCoordinatorSpec.v
RunWorker.v
RunWorkerSpec.v
ResourceScope.v
Capability.v
CapabilitySpec.v
PolicyEngine.v
ExternalEffects.v
EffectStore.v
RunEventStore.v
EffectServices.v
EffectWorld.v
EffectStoreProps.v
EffectRecoveryProps.v
EffectProps.v
EffectSpec.v
RunRows.v
RunCommitter.v
RunServices.v
RunWorld.v
RunHistory.v
RunRecoverySpec.v
SharedRunTables.v
Interaction.v
Outbox.v
OutboxProps.v
OutboxSpec.v
OutboxDrain.v
MemorySharing.v
MemorySharingSpec.v
Ranking.v
ModelRouting.v
ModelRoutingSpec.v
Retrieval.v
RetrievalSpec.v
ContextPack.v
ContextPackSpec.v
RetrievalService.v
RetrievalServiceSpec.v
ModelStep.v
ModelStepSpec.v
Trust.v
TrustSpec.v
