(* ===== verification/Prelude.v ===== *)
(** * Vestrace: a verification library

    Vestrace is an agent platform in Rust.  This library models the following of its parts,
    from the sources under [src/crates], and proves what makes them correct:

    - the safety core of an installation: which backups may be retired, which database generation
      may be activated after a restore, and the signed, hash-linked journal whose head a durable
      witness holds;
    - the run engine: the life of agent runs and their steps, the coordinator that changes them
      through a versioned store, the PostgreSQL tables behind it, and the work queue, leases,
      handlers and worker that drive runs forward;
    - authority and external effects: who may do what, by grant, delegation and budget, and the
      calls that leave the system, with the recovery of those whose outcome nobody knows;
    - the older event-sourced runs beside the coordinator's: their commands, checkpoints and
      recovery, and the tables both engines share;
    - what runs and requests reach through ports: the governed model step, the transactional
      outbox, sharing memories between workspaces, routing a task to a model, and retrieving
      memories into a context pack.

    ** The safety core

    [Codec] is the length-prefixed canonical encoding and its decoders (the [field] functions and
    [CanonicalDecoder] of [installation_safety.rs], [backup_archive.rs] and [restore_cutover.rs]);
    [Crypto] has SHA-256 and Ed25519 as parameters with the laws the sources rely on, and concrete
    instances for evaluation.  [BTree] is [BTreeMap] as its ordered entries.

    [BackupArchive] is [BackupArchiveStateV1]: sets, checkpoints, restore holds, the retirement
    life cycle, the exact-successor predicates and the canonical bytes.  [BackupArchiveProps] has
    the invariant of reachable archives; [BackupArchiveSpec] states which archives survive encoding,
    that active holds block retirement, that checkpoints form a chain, that erasure is prepared,
    and how the operations and the successor predicates relate.

    [RestoreCutover] is restore roots, freeze points, attempts, activation plans and terminal
    receipts.  [InstallationSafety] is the witness state, signed entries, [accept_signed] with
    every event kind, receipts and the bootstrap record.  [WitnessChain] says what an accepted
    entry guarantees and which journals are accepted; [Supervisor] is the specification side: the
    entries that can be composed with the operations, and those of them that are supervised.  [WitnessFile] is the file witness with the
    I/O faults that can cut its calls.  [SafetySpec] has the theorems: of the composed entries
    exactly the supervised ones are accepted, accepted journals are chains that lose no protected backup, an activation plan is
    used once and only after its target was initialised, the witness is consistent after any fault
    and, while it is open, has one winner per head; two open witnesses of one record can fork.

    ** The run engine

    [Text] and [RunStatus] are strings and the status tables.  [RunDecider] is the event-sourced
    decider and reducer ([decision.rs], [reducer.rs]); [RunDeciderSpec] shows that decided events
    apply, that replayed runs have the shape of their status and that terminal runs are final.

    [AgentRun] is the durable run, its steps, events, checkpoints and work items ([step.rs],
    [event.rs], [checkpoint.rs], [work.rs]); [AgentRunSpec] is the life of runs and steps.
    [RunReplay] replays canonical events.  [RunPorts] has the ports as the operations of an effect
    monad [prog] and the commands; [RunCoordinator] is every method of the coordinator as such a
    program.  [RunStore] is the contract of the store: the class [RunStore] of its operations and
    the class [RunStoreOk] of their laws.  [PgRunStore] implements the operations on tables, with
    the statements and constraints of [postgres/run/store.rs]; [PgRunStoreProps] proves the laws.

    [RunConcurrency] gives programs an interleaving semantics in which calls fail and answers are
    lost, and a precondition calculus for programs under interference; [RunConcurrencyProps] shows
    that safe programs keep the store replayable, [RunCoordinatorProps] that every method is safe,
    [RunSystem] what steps of a system of requests keep.  [RunSchedule] adds the worker's handlers,
    commits of provider results and statements on the queue, and shows that commits carry the work
    they make necessary and that versions only grow, whoever commits.  [RunCoordinatorSpec] states
    the results: runs that only requests changed replay, histories only grow, no update is lost, a
    started run has its work item.

    [WorkQueue] is the queue and the run leases on their rows; [WorkQueueProps] and
    [WorkQueueSpec] have order, mutual exclusion, bounded retries and fencing.  [RunHandlers] is
    the three work handlers, [RunWorker] an iteration of the worker; [RunWorkerSpec] shows that an
    iteration settles its item and that a run ends with the result of its steps, and evaluates the
    worker on runs where handlers and replay disagree.

    ** Authority and external effects

    [ResourceScope] is the scopes grants and requests name ([security/scope.rs]) and their
    containment; [Capability] is grants, requests and decisions, attenuated delegation and the
    hierarchical budget ([security/capability.rs], [delegation.rs]).  [CapabilitySpec] shows that
    a delegated grant never authorises what its root would not but for a revocation, that budgets are conserved, and that
    scopes round trip.  [PolicyEngine] is the decision engines and the table of durable grants.

    [ExternalEffects] is intents, authorization, dispatch, receipts and reconciliations
    ([external_effects.rs]); [EffectStore] is the statements of [external_effect_repository.rs] on
    its tables, the candidate query of recovery included; [RunEventStore] is the optimistic append
    to a run's stream.  [EffectServices] has performing, recovering and delivering as programs
    over their ports, and [EffectWorld] runs any number of them against one database, with calls
    that fail or lose their answers, beside an environment that issues and revokes grants, reports
    workers and extends streams.

    [EffectStoreProps] is the invariant every statement keeps; [EffectRecoveryProps] is what the
    candidate query finds; [EffectProps] is a precondition calculus for the programs and the
    invariant of every reached state.  [EffectSpec] has the theorems: an adapter is called only
    with a stored intent, a stored decision resting on a grant in force and a stored dispatch; a
    lost dispatch is found again; a dispatch is adopted once; an outcome marked as delivered is in
    its run's stream.  It also has what the code does not exclude: outcomes that break the replay
    of a finished run, outcomes that hold back all later ones, and two contradicting outcomes.

    ** Legacy runs and recovery

    The event-sourced engine of [RunDecider] and the coordinator keep their events in the same
    tables.  [RunRows] is the columns of those tables and what each side writes into and reads from
    a row of [run_events]; [RunCommitter] is the commit of a legacy command with its projection
    ([run_command_committer.rs], [projection.rs]), the run repository, and the statements of
    [run_recovery_store.rs]; [RunServices] is executing a command, restoring a run, rebuilding its
    projection, writing and validating checkpoints ([command_service.rs], [recovery.rs]), and the
    startup recovery of the command line with the recovery targets of [trust.rs].  [RunWorld]
    answers the calls of these programs among other programs.

    [RunHistory] shows that histories stay contiguous and are only extended.  [RunRecoverySpec] has
    the theorems: an executed command is recorded with its projection, a restored run is the replay
    of its events, a checkpoint stays valid, a rebuilt projection is current, a sound history is
    restored.  [SharedRunTables] puts the tables of both engines together and evaluates where they
    meet: a stale lease of a coordinator run that makes every startup recovery fail, and an effect
    outcome delivered to a coordinator run after which it accepts no commit.

    ** Ports and services

    [Interaction] has programs over the calls of their ports, run alone, among others, or against
    answers of any kind: an interleaving semantics, a calculus of programs under interference, and
    traces with what a finished run shows.

    [ModelStep] is the executor of a governed step ([run/model_step.rs]) from the recovery of its
    attempt to publication; [ModelStepSpec] shows, for every answer of the ports and every point the
    worker can be cut off at, that the adapter is called at most once and only as it was admitted,
    that a failure is recorded where a receipt can be made, and that a published step was finalized.

    [Outbox] is [outbox.rs], the statements of [outbox_repository.rs] on the table with its checks,
    and the worker's drain; [OutboxProps] is the invariant of its rows and of the programs.
    [OutboxSpec] shows among any workers that only accepted messages are processed, that only
    refused ones are dead-lettered and that messages are kept, and that messages without a handler
    hold back those behind them; [OutboxDrain] what one drain does.

    [MemorySharing] is grants, mounts, policies and disclosures ([enterprise/sharing.rs],
    [provenance.rs]) and reading through a mount ([memory/shared_read.rs]); [MemorySharingSpec]
    characterises the access decision and shows that every disclosure was authorised, that a revoked
    share discloses nothing, and that a read shows exactly the granted revision.

    [Ranking] has IEEE floats, comparison of scores and the stable sort, with the keys that make a
    comparison a total order and the scores that are numbers.  [ModelRouting] is
    [models/routing.rs]; [ModelRoutingSpec] shows that the selected model is admissible and best,
    whatever the order of the candidates, and where the router does not do what it names.

    [Retrieval] is normalisation, the classification boundary, fusion and reranking, [ContextPack]
    the packs and their builder, and [RetrievalService] searching and building a context over ports
    ([retrieval/] of the domain and of the application).  [RetrievalSpec] shows that the boundary
    discloses or reports and that fusion is the ranking by reciprocal ranks; [ContextPackSpec] that a
    pack fits its budget and is complete or full; [RetrievalServiceSpec] that what a search returns,
    and what a context built from it cites, was resolved and admitted, and that nothing is lost in
    silence.

    [Trust] is [trust.rs]: incidents, the trust in a scope and the revalidation runs both wait for,
    classified data with its policies, retention, deletion and export, keys and secrets, and the
    audit chain.  [TrustSpec] shows what a closed incident has been through and where one is
    stranded, that trust comes back only through the registered run, that derivation never lowers
    what a policy asks, what a verified deletion covers, that keys only move forward, that an
    appended audit chain verifies, and that the digest of its last entry fixes all of it.

    ** Conventions

    Machine integers are [Z] with their width written out ([u64_max], [checked_add], [cast_i64]);
    identifiers are the 128-bit numbers of their bytes and timestamps are [Z], in nanoseconds where
    the unit matters; the tables of the run store keep the microseconds of a [TIMESTAMPTZ]
    ([to_timestamptz] of [RunStore]), in the other tables a time stands for the value that is
    stored and compared.  [Result] is
    [result]; errors keep their variants and lose their messages, except where a message is
    stored.  Methods on [&mut self] that may fail return the result and the object they leave.
    The only recursion is structural or over lists, so no fuel is needed; the loops of the sources
    that are modelled run over finite collections, and the interleaving semantics is a relation.

    Parameters stand for code that is not in the repository or is behind a trait object: SHA-256,
    Ed25519, chrono, serde's derived JSON, the text of a UUID, of a time and of an error, the worker's policy
    engine, the model executor, the registered handlers, effect adapters and read-backs, the JSON
    of scalar fields, the resolver of a run's model binding, and the retrievers, hydrators and
    journals behind the ports of a service.  Each law that is assumed of one
    of them is a class with a concrete instance.  SQL statements are atomic functions on tables,
    with the keys and checks of the migrations that they meet; row locks of other transactions are
    an argument.  Floats are the Standard Library's [spec_float] at the width and rounding of [f32]
    and [f64]; the iteration order of a hash map is an argument where it could show.

    ** Not modelled

    The repositories behind a governed step (provider dispatch, results, material keys) and the
    transaction around [commit_provider_result_in], the worker's timers and shutdown, the variants of effect statements
    that join a caller's transaction, the embedding client and the SQL of the retrievers, the other
    aggregates of the domain (approvals, qualification bundles, writing memories, artifacts,
    credentials), the other PostgreSQL repositories, HTTP, CLI and MCP front ends except
    startup recovery, the worker's outbox and the routing request, configuration, and the
    conformance corpus.  They are I/O around third-party services, data without operations of their
    own, or subsystems that the modelled parts do not call. *)

From Stdlib Require Import ZArith Lia String Strings.Byte.
From stdpp Require Import base option numbers strings pretty list.

#[export] Set Warnings "-notation-overridden,-clear-no-such-hyp".

(** ** Results

    Rust's [Result<T, E>].  [Ok] and [Err] keep their names; the error type comes
    first so that [result E] is a monad. *)

Inductive result (E A : Type) : Type :=
| Ok (a : A)
| Err (e : E).

Arguments Ok {E A} a.
Arguments Err {E A} e.

#[export] Instance result_ret E : MRet (result E) := fun A a => Ok a.

#[export] Instance result_bind E : MBind (result E) :=
  fun A B f r => match r with Ok a => f a | Err e => Err e end.

#[export] Instance result_eq_dec E A `{EqDecision E} `{EqDecision A} : EqDecision (result E A).
Proof. solve_decision. Defined.

Definition ok_or {E A} (o : option A) (e : E) : result E A :=
  match o with Some a => Ok a | None => Err e end.

Definition map_err {E F A} (f : E -> F) (r : result E A) : result F A :=
  match r with Ok a => Ok a | Err e => Err (f e) end.

Definition is_ok {E A} (r : result E A) : bool :=
  match r with Ok _ => true | Err _ => false end.

Definition is_some {A} (o : option A) : bool :=
  match o with Some _ => true | None => false end.

Definition is_none {A} (o : option A) : bool := negb (is_some o).

(** Rust's [Option::filter]. *)
Definition opt_filter {A} (p : A -> bool) (o : option A) : option A :=
  match o with Some a => if p a then Some a else None | None => None end.

(** Rust's [Iterator::any] and [Iterator::all] on a finished sequence. *)
Definition any {A} (p : A -> bool) (l : list A) : bool := existsb p l.
Definition all {A} (p : A -> bool) (l : list A) : bool := forallb p l.

(** The boolean of a decidable equality: Rust's derived [PartialEq]. *)
Definition eqb `{EqDecision A} (x y : A) : bool := bool_decide (x = y).

Declare Scope vestrace_scope.
Delimit Scope vestrace_scope with vt.
Infix "==" := eqb (at level 70, no associativity) : vestrace_scope.
Notation "x !== y" := (negb (eqb x y)) (at level 70, no associativity) : vestrace_scope.
Open Scope vestrace_scope.

(** ** Machine integers

    A [w]-bit unsigned integer is a [Z] in range; the ranges are written out. *)

Definition u8_max : Z := 2 ^ 8 - 1.
Definition u16_max : Z := 2 ^ 16 - 1.
Definition u32_max : Z := 2 ^ 32 - 1.
Definition u64_max : Z := 2 ^ 64 - 1.
Definition usize_max : Z := u64_max.
Definition isize_max : Z := 2 ^ 63 - 1.

Definition in_range (m n : Z) : Prop := (0 <= n <= m)%Z.

#[export] Instance in_range_dec m n : Decision (in_range m n).
Proof. unfold in_range. apply _. Defined.

(** [checked_add] of a type with maximum [m]. *)
Definition checked_add (m a b : Z) : option Z :=
  if (a + b <=? m)%Z then Some (a + b)%Z else None.

Definition saturating_add (m a b : Z) : Z := Z.min m (a + b).
Definition saturating_sub (a b : Z) : Z := Z.max 0 (a - b).

(** ** Tactics *)

(** Case split on the conditions and matches of a hypothesis or of the goal, keeping the
    equations and closing the branches whose results differ in constructor. *)
Ltac split_match_in H :=
  match type of H with
  | context [match ?x with _ => _ end] => destruct x eqn:?; try discriminate
  end.

Ltac split_matches_in H := repeat (split_match_in H; simpl in H).

Ltac split_match :=
  match goal with
  | |- context [match ?x with _ => _ end] => destruct x eqn:?
  end.

Ltac bool_hyps :=
  repeat match goal with
  | H : (_ && _)%bool = true |- _ => apply andb_prop in H as [? ?]
  | H : (_ || _)%bool = false |- _ => apply orb_false_elim in H as [? ?]
  | H : negb _ = true |- _ => apply negb_true_iff in H
  | H : negb _ = false |- _ => apply negb_false_iff in H
  | H : eqb _ _ = true |- _ => apply bool_decide_eq_true_1 in H
  | H : eqb _ _ = false |- _ => apply bool_decide_eq_false_1 in H
  | H : (_ <=? _)%Z = true |- _ => apply Z.leb_le in H
  | H : (_ <=? _)%Z = false |- _ => apply Z.leb_gt in H
  | H : (_ <? _)%Z = true |- _ => apply Z.ltb_lt in H
  | H : (_ <? _)%Z = false |- _ => apply Z.ltb_ge in H
  | H : (_ =? _)%Z = true |- _ => apply Z.eqb_eq in H
  | H : (_ =? _)%Z = false |- _ => apply Z.eqb_neq in H
  end.

Create HintDb vestrace.
Create Rewrite HintDb vestrace.

(** ** Shared lemmas *)

Lemma eqb_true `{EqDecision A} (x y : A) : eqb x y = true <-> x = y.
Proof. apply bool_decide_eq_true. Qed.

Lemma eqb_false `{EqDecision A} (x y : A) : eqb x y = false <-> x <> y.
Proof. apply bool_decide_eq_false. Qed.

Lemma eqb_refl `{EqDecision A} (x : A) : eqb x x = true.
Proof. by apply eqb_true. Qed.

Lemma eqb_sym `{EqDecision A} (x y : A) : eqb x y = eqb y x.
Proof. unfold eqb. apply bool_decide_ext. naive_solver. Qed.

Lemma bind_Ok {E A B} (f : A -> result E B) (r : result E A) (b : B) :
  (r ≫= f) = Ok b <-> exists a, r = Ok a /\ f a = Ok b.
Proof. destruct r; simpl; naive_solver. Qed.

Lemma ok_or_Ok {E A} (o : option A) (e : E) (a : A) : ok_or o e = Ok a <-> o = Some a.
Proof. destruct o; simpl; naive_solver. Qed.

Lemma map_err_Ok {E F A} (f : E -> F) (r : result E A) (a : A) :
  map_err f r = Ok a <-> r = Ok a.
Proof. destruct r; simpl; naive_solver. Qed.

Lemma checked_add_Some (m a b c : Z) :
  checked_add m a b = Some c <-> (c = a + b /\ a + b <= m)%Z.
Proof. unfold checked_add. destruct (Z.leb_spec (a + b) m); naive_solver lia. Qed.

Lemma is_some_true {A} (o : option A) : is_some o = true <-> exists a, o = Some a.
Proof. destruct o; naive_solver. Qed.

Lemma is_some_false {A} (o : option A) : is_some o = false <-> o = None.
Proof. destruct o; naive_solver. Qed.

Lemma is_none_true {A} (o : option A) : is_none o = true <-> o = None.
Proof. destruct o; naive_solver. Qed.

Lemma any_false {A} (p : A -> bool) l : any p l = false <-> Forall (fun x => p x = false) l.
Proof.
  unfold any. induction l as [|x l IH]; simpl; [naive_solver|].
  rewrite orb_false_iff, Forall_cons, IH. done.
Qed.

Lemma any_elem {A} (p : A -> bool) l : any p l = true <-> exists x, x ∈ l /\ p x = true.
Proof. unfold any. rewrite existsb_exists. by setoid_rewrite list_elem_of_In. Qed.

#[export] Hint Rewrite @eqb_refl : vestrace.
#[export] Hint Resolve eqb_refl : vestrace.
