(* ===== verification/BTree.v ===== *)
(** * Ordered maps

    Rust's [BTreeMap] with 128-bit keys ([uuid::Uuid] orders as the big-endian number its
    sixteen bytes spell), kept as the sequence of entries in iteration order.  The
    operations are the ones the sources call: [get], [contains_key], [insert],
    modification through [get_mut], [len], [keys] and [values]. *)

From Stdlib Require Import ZArith Lia.
From stdpp Require Import base option numbers sorting list.
From S2P Require Import Prelude.

Definition btree (V : Type) : Type := list (Z * V).

Module BTree.

Section Definitions.
Context {V : Type}.

Fixpoint get (m : btree V) (k : Z) : option V :=
  match m with
  | [] => None
  | (k', v) :: m' => if (k =? k')%Z then Some v else get m' k
  end.

Definition contains_key (m : btree V) (k : Z) : bool := is_some (get m k).

Fixpoint insert (k : Z) (v : V) (m : btree V) : btree V :=
  match m with
  | [] => [(k, v)]
  | (k', v') :: m' =>
      if (k <? k')%Z then (k, v) :: (k', v') :: m'
      else if (k =? k')%Z then (k, v) :: m'
      else (k', v') :: insert k v m'
  end.

(** What a write through [get_mut] leaves in the map. *)
Fixpoint update (k : Z) (f : V -> V) (m : btree V) : btree V :=
  match m with
  | [] => []
  | (k', v') :: m' => if (k =? k')%Z then (k', f v') :: m' else (k', v') :: update k f m'
  end.

Definition len (m : btree V) : Z := Z.of_nat (length m).
Definition keys (m : btree V) : list Z := m.*1.
Definition values (m : btree V) : list V := m.*2.

(** The representation invariant: keys strictly increase along the iteration. *)
Definition ordered (m : btree V) : Prop := StronglySorted Z.lt (keys m).

End Definitions.

Section Lemmas.
Context {V : Type}.
Implicit Types (m : btree V) (k : Z) (v : V).

Lemma ordered_nil : ordered (@nil (Z * V)).
Proof. constructor. Qed.

Lemma ordered_cons k v m :
  ordered ((k, v) :: m) <-> ordered m /\ Forall (fun k' => (k < k')%Z) (keys m).
Proof.
  unfold ordered, keys. simpl. split.
  - intros H. by apply StronglySorted_inv in H.
  - intros [? ?]. by constructor.
Qed.

Lemma get_None_lt k m : Forall (fun k' => (k < k')%Z) (keys m) -> get m k = None.
Proof.
  induction m as [|[k' v'] m IH]; [done|]. intros H. apply Forall_cons in H as [Hlt H].
  simpl in *. destruct (Z.eqb_spec k k'); [lia|auto].
Qed.

Lemma get_insert_eq k v m : get (insert k v m) k = Some v.
Proof.
  induction m as [|[k' v'] m IH]; simpl; [by rewrite Z.eqb_refl|].
  repeat case_match; simpl; rewrite ?Z.eqb_refl; try done.
  destruct (Z.eqb_spec k k'); [congruence|done].
Qed.

Lemma get_insert_ne k k2 v m : k2 <> k -> get (insert k v m) k2 = get m k2.
Proof.
  intros Hne. induction m as [|[k' v'] m IH]; simpl.
  - by destruct (Z.eqb_spec k2 k).
  - repeat case_match; simpl; bool_hyps; subst; repeat case_match; bool_hyps; try done; lia.
Qed.

Lemma keys_insert_Forall (P : Z -> Prop) k v m :
  P k -> Forall P (keys m) -> Forall P (keys (insert k v m)).
Proof.
  intros Hk. induction m as [|[k' v'] m IH]; simpl; intros HF; [by constructor|].
  apply Forall_cons in HF as [? ?]. repeat case_match; simpl; repeat constructor; auto.
Qed.

Lemma ordered_insert k v m : ordered m -> ordered (insert k v m).
Proof.
  induction m as [|[k' v'] m IH]; intros Ho; simpl.
  - rewrite ordered_cons. split; [apply ordered_nil|constructor].
  - apply ordered_cons in Ho as [Ho HF]. repeat case_match; bool_hyps.
    + rewrite ordered_cons. split; [by apply ordered_cons|]. simpl. constructor; [lia|].
      eapply Forall_impl; [done|]. simpl. lia.
    + subst. by apply ordered_cons.
    + apply ordered_cons. split; [by apply IH|]. apply keys_insert_Forall; [lia|done].
Qed.

Lemma keys_update k (f : V -> V) m : keys (update k f m) = keys m.
Proof. induction m as [|[k' v'] m IH]; simpl; [done|]. case_match; simpl; unfold keys in *; congruence. Qed.

Lemma ordered_update k (f : V -> V) m : ordered m -> ordered (update k f m).
Proof. unfold ordered. by rewrite keys_update. Qed.

Lemma length_update k (f : V -> V) m : length (update k f m) = length m.
Proof. induction m as [|[k' v'] m IH]; simpl; [done|]. case_match; simpl; congruence. Qed.

Lemma get_update_eq k (f : V -> V) m : get (update k f m) k = f <$> get m k.
Proof.
  induction m as [|[k' v'] m IH]; simpl; [done|].
  destruct (Z.eqb_spec k k') as [->|]; simpl; [by rewrite Z.eqb_refl|].
  by destruct (Z.eqb_spec k k').
Qed.

Lemma get_update_ne k k2 (f : V -> V) m : k2 <> k -> get (update k f m) k2 = get m k2.
Proof.
  intros Hne. induction m as [|[k' v'] m IH]; simpl; [done|].
  repeat case_match; simpl; repeat case_match; bool_hyps; try done; congruence.
Qed.

Lemma update_ext k (f g : V -> V) m v :
  get m k = Some v -> f v = g v -> update k f m = update k g m.
Proof.
  induction m as [|[k' v'] m IH]; simpl; [done|]. case_match; intros; simplify_eq; [congruence|].
  f_equal. auto.
Qed.

Lemma update_compose k (f g : V -> V) m : update k f (update k g m) = update k (f ∘ g) m.
Proof.
  induction m as [|[k' v'] m IH]; simpl; [done|].
  destruct (k =? k')%Z eqn:E; simpl; rewrite E; [done|]. by rewrite IH.
Qed.

Lemma get_Some_elem k v m : get m k = Some v -> (k, v) ∈ m.
Proof.
  induction m as [|[k' v'] m IH]; simpl; [done|].
  destruct (Z.eqb_spec k k') as [->|]; intros; simplify_eq; [left|right; auto].
Qed.

Lemma elem_get_Some k v m : ordered m -> (k, v) ∈ m -> get m k = Some v.
Proof.
  induction m as [|[k' v'] m IH]; intros Ho Hin; [by apply not_elem_of_nil in Hin|].
  apply ordered_cons in Ho as [Ho HF]. apply elem_of_cons in Hin as [Heq|Hin].
  - simplify_eq. simpl. by rewrite Z.eqb_refl.
  - simpl. destruct (Z.eqb_spec k k') as [->|]; [|auto].
    rewrite Forall_forall in HF. specialize (HF k'). exfalso.
    enough (k' < k')%Z by lia. apply HF. unfold keys.
    change k' with ((k', v).1). by apply list_elem_of_fmap_2.
Qed.

Lemma get_None_keys k m : get m k = None <-> k ∉ keys m.
Proof.
  induction m as [|[k' v'] m IH]; simpl; [split; [intros _; apply not_elem_of_nil|done]|].
  unfold keys in *. simpl. rewrite not_elem_of_cons. destruct (Z.eqb_spec k k'); naive_solver.
Qed.

Lemma length_insert_fresh k v m : get m k = None -> length (insert k v m) = S (length m).
Proof.
  induction m as [|[k' v'] m IH]; simpl; [done|].
  destruct (Z.eqb_spec k k'); [done|]. intros Hg. case_match; simpl; [done|]. by rewrite IH.
Qed.

(** Inserting past the last key appends: how a decoder rebuilds a map from its own encoding. *)
Lemma insert_snoc k v m :
  Forall (fun k' => (k' < k)%Z) (keys m) -> insert k v m = m ++ [(k, v)].
Proof.
  induction m as [|[k' v'] m IH]; simpl; [done|]. intros HF. apply Forall_cons in HF as [? ?].
  destruct (Z.ltb_spec k k'); [lia|]. destruct (Z.eqb_spec k k'); [lia|]. by rewrite IH.
Qed.

Lemma ordered_app_inv (m1 m2 : btree V) :
  ordered (m1 ++ m2) ->
  ordered m1 /\ ordered m2 /\
  Forall (fun k2 => Forall (fun k1 => (k1 < k2)%Z) (keys m1)) (keys m2).
Proof.
  induction m1 as [|[k v] m1 IH]; simpl; intros Ho.
  - split; [apply ordered_nil|]. split; [done|]. by apply Forall_forall; constructor.
  - apply ordered_cons in Ho as [Ho HF]. apply IH in Ho as (H1 & H2 & H3).
    unfold keys in HF. rewrite fmap_app in HF. apply Forall_app in HF as [HF1 HF2].
    split; [by apply ordered_cons|]. split; [done|].
    apply Forall_forall. intros x Hx. simpl. constructor.
    + rewrite Forall_forall in HF2. by apply HF2.
    + rewrite Forall_forall in H3. by apply H3.
Qed.

Lemma Forall_insert (P : Z * V -> Prop) k v m :
  P (k, v) -> Forall P m -> Forall P (insert k v m).
Proof.
  intros Hk. induction m as [|[k' v'] m IH]; simpl; intros HF; [by constructor|].
  apply Forall_cons in HF as [? ?]. repeat case_match; repeat constructor; auto.
Qed.

Lemma Forall_update (P : Z * V -> Prop) k (f : V -> V) m :
  (forall v, P (k, v) -> P (k, f v)) -> Forall P m -> Forall P (update k f m).
Proof.
  intros Hf. induction m as [|[k' v'] m IH]; simpl; intros HF; [by constructor|].
  apply Forall_cons in HF as [? ?]. destruct (Z.eqb_spec k k') as [<-|]; constructor; auto.
Qed.

Lemma Forall_update_get (P : Z * V -> Prop) k (f : V -> V) m v :
  get m k = Some v -> P (k, f v) -> Forall P m -> Forall P (update k f m).
Proof.
  induction m as [|[k' v'] m IH]; simpl; intros Hg Hf HF; [done|].
  apply Forall_cons in HF as [? ?]. destruct (Z.eqb_spec k k') as [<-|]; simplify_eq; constructor; auto.
Qed.

Lemma Forall_get (P : Z * V -> Prop) k v m : Forall P m -> get m k = Some v -> P (k, v).
Proof. intros HF Hg%get_Some_elem. rewrite Forall_forall in HF. auto. Qed.

Lemma NoDup_keys m : ordered m -> NoDup (keys m).
Proof.
  induction m as [|[k v] m IH]; intros Ho; [constructor|].
  apply ordered_cons in Ho as [Ho HF]. constructor; [|by apply IH].
  intros Hin. rewrite Forall_forall in HF. specialize (HF _ Hin). simpl in HF. lia.
Qed.

Lemma get_split k v m : get m k = Some v -> exists m1 m2, m = m1 ++ (k, v) :: m2.
Proof. intros Hg%get_Some_elem. by apply list_elem_of_split in Hg. Qed.

(** A fresh insertion splices one entry in. *)
Lemma insert_split k v m :
  get m k = None -> exists m1 m2, m = m1 ++ m2 /\ insert k v m = m1 ++ (k, v) :: m2.
Proof.
  induction m as [|[k' v'] m IH]; simpl; [by exists [], []|].
  destruct (Z.eqb_spec k k'); [done|]. intros Hg. case_match; [by exists [], ((k', v') :: m)|].
  destruct (IH Hg) as (m1 & m2 & -> & ->). by exists ((k', v') :: m1), m2.
Qed.

(** An ordered map with as many entries as [m] and all of its keys has no others. *)
Lemma same_keys (m m' : btree V) :
  ordered m -> ordered m' -> length m' = length m -> (forall k, k ∈ keys m -> k ∈ keys m') ->
  forall k, k ∈ keys m' -> k ∈ keys m.
Proof.
  intros Ho Ho' Hl Hsub k Hk.
  assert (keys m ⊆+ keys m') as Hs by (apply NoDup_submseteq; [by apply NoDup_keys|done]).
  apply submseteq_length_Permutation in Hs; [by rewrite Hs|].
  unfold keys. rewrite !length_fmap. lia.
Qed.

(** Two ordered maps with the same lookups are the same map. *)
Lemma ordered_ext (m1 m2 : btree V) :
  ordered m1 -> ordered m2 -> (forall k, get m1 k = get m2 k) -> m1 = m2.
Proof.
  revert m2. induction m1 as [|[k1 v1] m1 IH]; intros [|[k2 v2] m2] H1 H2 Hg; try done.
  - specialize (Hg k2). simpl in Hg. by rewrite Z.eqb_refl in Hg.
  - specialize (Hg k1). simpl in Hg. by rewrite Z.eqb_refl in Hg.
  - apply ordered_cons in H1 as [Ho1 HF1]. apply ordered_cons in H2 as [Ho2 HF2].
    assert (k1 = k2) as ->.
    { pose proof (Hg k1) as E1. pose proof (Hg k2) as E2. simpl in E1, E2.
      rewrite Z.eqb_refl in E1, E2. destruct (Z.lt_trichotomy k1 k2) as [Hlt|[->|Hlt]]; [|done|].
      - destruct (Z.eqb_spec k1 k2); [lia|]. rewrite get_None_lt in E1; [done|].
        eapply Forall_impl; [done|]. simpl. lia.
      - destruct (Z.eqb_spec k2 k1); [lia|]. rewrite get_None_lt in E2; [done|].
        eapply Forall_impl; [done|]. simpl. lia. }
    pose proof (Hg k2) as E. simpl in E. rewrite Z.eqb_refl in E. simplify_eq. f_equal.
    apply IH; [done..|]. intros x. destruct (decide (x = k2)) as [->|Hne].
    + by rewrite !get_None_lt.
    + specialize (Hg x). simpl in Hg. by rewrite (proj2 (Z.eqb_neq x k2) Hne) in Hg.
Qed.

End Lemmas.

#[export] Hint Resolve ordered_nil ordered_insert ordered_update : vestrace.

End BTree.
