(* ===== verification/Codec.v ===== *)
(** * Canonical byte encodings

    The length-prefixed encoding shared by [backup_archive.rs], [restore_cutover.rs] and
    [installation_safety.rs]: big-endian integers, [field], [optional_field] and the
    offset-based decoders.  The three sources repeat the same decoder over their own error
    type; here it is written once over any error type with a [Malformed] value.

    [parses rest p enc a] says that the decoder [p], standing before [enc ++ rest], consumes
    exactly [enc] and yields [a]; it composes along [bind], so a round trip is proved field
    by field. *)

From Stdlib Require Import ZArith Lia Strings.Byte.
From stdpp Require Import base option numbers list.
From S2P Require Import Prelude.

Definition bytes : Type := list byte.

#[export] Instance byte_eq_decision : EqDecision byte.
Proof. intros x y. apply Byte.byte_eq_dec. Defined.

(** ** Integers as bytes *)

Definition Z_of_byte (b : byte) : Z := Z.of_N (Byte.to_N b).

(** [value as u8]: the low eight bits. *)
Definition byte_of_Z (z : Z) : byte :=
  match Byte.of_N (Z.to_N (z mod 256)) with Some b => b | None => x00 end.

(** [to_be_bytes] of an [8 * n]-bit unsigned integer. *)
Fixpoint be_bytes (n : nat) (z : Z) : bytes :=
  match n with
  | O => []
  | S n' => byte_of_Z (z / 256 ^ Z.of_nat n') :: be_bytes n' z
  end.

(** [from_be_bytes]. *)
Definition from_be_bytes (l : bytes) : Z :=
  fold_left (fun acc b => (acc * 256 + Z_of_byte b)%Z) l 0%Z.

Definition u8_bytes (z : Z) : bytes := be_bytes 1 z.
Definition u32_bytes (z : Z) : bytes := be_bytes 4 z.
Definition u64_bytes (z : Z) : bytes := be_bytes 8 z.

Definition len (b : bytes) : Z := Z.of_nat (length b).

(** ** Identifiers and digests

    A [uuid::Uuid] is its 128-bit big-endian number; a digest is its 32 bytes. *)

Abbreviation Uuid := Z (only parsing).
Definition uuid_max : Z := 2 ^ 128 - 1.
Definition uuid_bytes (u : Uuid) : bytes := be_bytes 16 u.
Definition valid_uuid (u : Uuid) : Prop := in_range uuid_max u.

Definition Digest : Type := bytes.
Definition valid_digest (d : Digest) : Prop := length d = 32%nat.

#[export] Instance Digest_eq_dec : EqDecision Digest.
Proof. unfold Digest, bytes. solve_decision. Defined.

(** ** Writers *)

Definition field (b : bytes) : bytes := u64_bytes (len b) ++ b.

Definition optional_field (o : option bytes) : bytes :=
  match o with
  | Some b => u8_bytes 1 ++ field b
  | None => u8_bytes 0
  end.

Definition bool_byte (b : bool) : bytes := u8_bytes (if b then 1 else 0).

(** ** The decoder *)

Record Decoder : Type := mkDecoder { d_bytes : bytes; d_offset : N }.

Class HasMalformed (E : Type) : Type := malformed : E.

Definition Dec (E A : Type) : Type := Decoder -> result E (A * Decoder).

#[export] Instance Dec_ret E : MRet (Dec E) := fun A a d => Ok (a, d).

#[export] Instance Dec_bind E : MBind (Dec E) :=
  fun A B f p d => match p d with Ok (a, d') => f a d' | Err e => Err e end.

Definition lift {E A} (r : result E A) : Dec E A :=
  fun d => match r with Ok a => Ok (a, d) | Err e => Err e end.

(** Slice [get(from..to)]. *)
Definition slice (b : bytes) (from to : Z) : option bytes :=
  if (from <=? to)%Z && (to <=? len b)%Z
  then Some (take (Z.to_nat (to - from)) (drop (Z.to_nat from) b))
  else None.

Section Decoders.
Context {E : Type} `{!HasMalformed E}.

Definition decoder_new (b : bytes) : Decoder := mkDecoder b 0.

Definition take_bytes (n : Z) : Dec E bytes :=
  fun d =>
    match checked_add usize_max (Z.of_N (d_offset d)) n with
    | None => Err malformed
    | Some e =>
        match slice (d_bytes d) (Z.of_N (d_offset d)) e with
        | None => Err malformed
        | Some v => Ok (v, mkDecoder (d_bytes d) (Z.to_N e))
        end
    end.

Definition dec_u8 : Dec E Z := b ← take_bytes 1; mret (from_be_bytes b).
Definition dec_u32 : Dec E Z := b ← take_bytes 4; mret (from_be_bytes b).
Definition dec_u64 : Dec E Z := b ← take_bytes 8; mret (from_be_bytes b).

(** [usize::try_from] of a [u64] cannot fail on the 64-bit targets modelled here. *)
Definition dec_usize : Dec E Z := dec_u64.

Definition dec_bool : Dec E bool :=
  n ← dec_u8;
  match n with
  | 0%Z => mret false
  | 1%Z => mret true
  | _ => lift (Err malformed)
  end.

Definition dec_field : Dec E bytes := n ← dec_u64; take_bytes n.

Definition dec_optional_field : Dec E (option bytes) :=
  n ← dec_u8;
  match n with
  | 0%Z => mret None
  | 1%Z => b ← dec_field; mret (Some b)
  | _ => lift (Err malformed)
  end.

(** [try_into] an array of [n] bytes. *)
Definition try_into_array (n : nat) (b : bytes) : result E bytes :=
  if (length b =? n)%nat then Ok b else Err malformed.

Definition dec_fixed (n : nat) : Dec E bytes := b ← dec_field; lift (try_into_array n b).

(** Raw sixteen bytes ([Decoder::uuid]) and length-prefixed ones ([CanonicalDecoder::uuid]). *)
Definition dec_uuid_raw : Dec E Uuid := b ← take_bytes 16; mret (from_be_bytes b).
Definition dec_uuid : Dec E Uuid := b ← dec_fixed 16; mret (from_be_bytes b).

Definition dec_digest_raw : Dec E Digest := take_bytes 32.
Definition dec_digest : Dec E Digest := dec_fixed 32.

Definition dec_domain (expected : bytes) : Dec E unit :=
  b ← dec_field; if b == expected then mret tt else lift (Err malformed).

Definition dec_is_finished : Dec E bool :=
  fun d => Ok ((Z.of_N (d_offset d) =? len (d_bytes d))%Z, d).

Definition dec_finish : Dec E unit :=
  b ← dec_is_finished; if (b : bool) then mret tt else lift (Err malformed).

End Decoders.

(** [for _ in 0..count]: [step] repeated [count] times, stopping at the first error. *)
Fixpoint dec_repeat {E S} (p : positive) (step : S -> Dec E S) (s : S) : Dec E S :=
  match p with
  | xH => step s
  | xO q => dec_repeat q step s ≫= dec_repeat q step
  | xI q => step s ≫= (fun s' => dec_repeat q step s' ≫= dec_repeat q step)
  end.

Definition dec_for {E S} (count : Z) (step : S -> Dec E S) (s : S) : Dec E S :=
  match count with
  | Zpos p => dec_repeat p step s
  | _ => mret s
  end.

(** Decode a whole buffer. *)
Definition run {E A} (p : Dec E A) (b : bytes) : result E A :=
  match p (decoder_new b) with Ok (a, _) => Ok a | Err e => Err e end.

(** A value with a canonical byte form: what the signed records promise about their parts. *)
Class Canonical (E A : Type) : Type := {
  canonical : A -> bytes;
  of_canonical : bytes -> result E A;
  valid : A -> Prop;
  canonical_roundtrip : forall a,
    valid a -> (len (canonical a) <= usize_max)%Z -> of_canonical (canonical a) = Ok a;
}.

(** ** Byte lemmas *)

Lemma Z_of_byte_range b : (0 <= Z_of_byte b < 256)%Z.
Proof. unfold Z_of_byte. pose proof (Byte.to_N_bounded b). lia. Qed.

Lemma byte_of_Z_of_byte b : byte_of_Z (Z_of_byte b) = b.
Proof.
  unfold byte_of_Z. rewrite Z.mod_small by apply Z_of_byte_range.
  unfold Z_of_byte. by rewrite N2Z.id, Byte.of_to_N.
Qed.

Lemma Z_of_byte_of_Z z : Z_of_byte (byte_of_Z z) = (z mod 256)%Z.
Proof.
  unfold byte_of_Z, Z_of_byte. pose proof (Z.mod_pos_bound z 256 ltac:(lia)).
  destruct (Byte.of_N _) eqn:Hb.
  - apply Byte.to_of_N in Hb. rewrite Hb. lia.
  - apply Byte.of_N_None_iff in Hb. lia.
Qed.

Lemma length_be_bytes n z : length (be_bytes n z) = n.
Proof. induction n; simpl; congruence. Qed.

Lemma len_app (a b : bytes) : len (a ++ b) = (len a + len b)%Z.
Proof. unfold len. rewrite length_app. lia. Qed.

Lemma len_nonneg (b : bytes) : (0 <= len b)%Z.
Proof. unfold len. lia. Qed.

Lemma from_be_bytes_acc l acc :
  fold_left (fun acc b => (acc * 256 + Z_of_byte b)%Z) l acc
  = (acc * 256 ^ Z.of_nat (length l) + from_be_bytes l)%Z.
Proof.
  revert acc. unfold from_be_bytes. induction l as [|b l IH]; intros acc; simpl fold_left; [simpl; lia|].
  rewrite IH, (IH (0 * 256 + Z_of_byte b)%Z). simpl length.
  rewrite Nat2Z.inj_succ, Z.pow_succ_r by lia. lia.
Qed.

Lemma from_be_bytes_cons b l :
  from_be_bytes (b :: l) = (Z_of_byte b * 256 ^ Z.of_nat (length l) + from_be_bytes l)%Z.
Proof. unfold from_be_bytes at 1. simpl. by rewrite from_be_bytes_acc. Qed.

Lemma from_be_bytes_range l : (0 <= from_be_bytes l < 256 ^ Z.of_nat (length l))%Z.
Proof.
  induction l as [|b l IH]; [unfold from_be_bytes; simpl; lia|].
  rewrite from_be_bytes_cons. simpl length. rewrite Nat2Z.inj_succ, Z.pow_succ_r by lia.
  pose proof (Z_of_byte_range b). nia.
Qed.

Lemma from_be_bytes_be_bytes_mod n z :
  from_be_bytes (be_bytes n z) = (z mod 256 ^ Z.of_nat n)%Z.
Proof.
  induction n as [|n IH].
  - simpl. rewrite Z.mod_1_r. done.
  - simpl be_bytes. rewrite from_be_bytes_cons, IH, length_be_bytes, Z_of_byte_of_Z.
    rewrite Nat2Z.inj_succ, Z.pow_succ_r, (Z.mul_comm 256) by lia.
    rewrite Z.rem_mul_r by lia. lia.
Qed.

Lemma from_be_bytes_be_bytes n z :
  (0 <= z < 256 ^ Z.of_nat n)%Z -> from_be_bytes (be_bytes n z) = z.
Proof. intros. rewrite from_be_bytes_be_bytes_mod. by apply Z.mod_small. Qed.

Lemma be_bytes_add n z w : be_bytes n (w * 256 ^ Z.of_nat n + z) = be_bytes n z.
Proof.
  revert w z. induction n as [|n IH]; intros w z; [done|]. simpl be_bytes.
  rewrite Nat2Z.inj_succ, Z.pow_succ_r by lia.
  replace (w * (256 * 256 ^ Z.of_nat n) + z)%Z with ((w * 256) * 256 ^ Z.of_nat n + z)%Z by lia.
  rewrite IH. f_equal. rewrite Z.div_add_l by (apply Z.pow_nonzero; lia).
  unfold byte_of_Z. by rewrite Z.add_comm, Z.mod_add.
Qed.

Lemma be_bytes_from_be_bytes l : be_bytes (length l) (from_be_bytes l) = l.
Proof.
  induction l as [|b l IH]; [done|]. simpl. rewrite from_be_bytes_cons, be_bytes_add, IH. f_equal.
  rewrite Z.div_add_l by (apply Z.pow_nonzero; lia).
  rewrite Z.div_small by apply from_be_bytes_range. rewrite Z.add_0_r. apply byte_of_Z_of_byte.
Qed.

(** ** Decoding an encoding *)

Definition pos (b : bytes) : N := N.of_nat (length b).

Definition parses {E A} (rest : bytes) (p : Dec E A) (enc : bytes) (a : A) : Prop :=
  forall pre, (len (pre ++ enc ++ rest) <= usize_max)%Z ->
    p (mkDecoder (pre ++ enc ++ rest) (pos pre))
    = Ok (a, mkDecoder (pre ++ enc ++ rest) (pos pre + pos enc)).

Section Parses.
Context {E : Type} `{!HasMalformed E}.
Implicit Types (rest enc pre : bytes).

Lemma parses_ret {A} rest (a : A) : parses (E:=E) rest (mret a) [] a.
Proof. intros pre _. unfold mret, Dec_ret. cbn. by rewrite N.add_0_r. Qed.

Lemma parses_lift {A} rest (r : result E A) a : r = Ok a -> parses rest (lift r) [] a.
Proof. intros -> pre _. cbn. by rewrite N.add_0_r. Qed.

Lemma parses_bind {A B} rest (p : Dec E A) (f : A -> Dec E B) enc1 enc2 a b :
  parses (enc2 ++ rest) p enc1 a -> parses rest (f a) enc2 b ->
  parses rest (p ≫= f) (enc1 ++ enc2) b.
Proof.
  intros Hp Hf pre Hlen. unfold mbind, Dec_bind.
  rewrite <-(app_assoc enc1) in *. rewrite (Hp pre Hlen).
  specialize (Hf (pre ++ enc1)). rewrite <-(app_assoc pre) in Hf. specialize (Hf Hlen).
  unfold pos in *. rewrite !length_app, !Nat2N.inj_add in *. rewrite Hf. do 3 f_equal. lia.
Qed.

(** The same with no bytes consumed by the continuation, or none by the first decoder. *)
Lemma parses_bind_l {A B} rest (p : Dec E A) (f : A -> Dec E B) enc a b :
  parses rest p enc a -> parses rest (f a) [] b -> parses rest (p ≫= f) enc b.
Proof. intros. rewrite <-(app_nil_r enc). by eapply parses_bind. Qed.

Lemma parses_bind_r {A B} rest (p : Dec E A) (f : A -> Dec E B) enc a b :
  parses (enc ++ rest) p [] a -> parses rest (f a) enc b -> parses rest (p ≫= f) enc b.
Proof. intros. change enc with ([] ++ enc). by eapply parses_bind. Qed.

Lemma parses_take rest enc n :
  n = len enc -> parses rest (take_bytes n) enc enc.
Proof.
  intros -> pre Hlen. rewrite !len_app in Hlen. unfold take_bytes, pos. simpl.
  pose proof (len_nonneg pre). pose proof (len_nonneg enc). pose proof (len_nonneg rest).
  rewrite nat_N_Z. fold (len pre). unfold checked_add.
  destruct (Z.leb_spec (len pre + len enc) usize_max); [|lia].
  unfold slice. rewrite !len_app.
  rewrite (proj2 (Z.leb_le (len pre) (len pre + len enc))) by lia.
  rewrite (proj2 (Z.leb_le (len pre + len enc) _)) by lia. simpl.
  unfold len. do 3 f_equal; [|lia].
  rewrite Nat2Z.id, drop_app_length.
  replace (Z.to_nat _) with (length enc) by lia. by rewrite take_app_length.
Qed.

Lemma parses_be rest n z :
  (0 <= z < 256 ^ Z.of_nat n)%Z ->
  parses rest (b ← take_bytes (Z.of_nat n); mret (from_be_bytes b) : Dec E Z) (be_bytes n z) z.
Proof.
  intros Hz. eapply parses_bind_l.
  - apply parses_take. unfold len. by rewrite length_be_bytes.
  - rewrite from_be_bytes_be_bytes by done. apply parses_ret.
Qed.

Lemma parses_u8 rest z : in_range u8_max z -> parses rest dec_u8 (u8_bytes z) z.
Proof. unfold in_range, u8_max. intros. apply (parses_be rest 1). simpl. lia. Qed.

Lemma parses_u32 rest z : in_range u32_max z -> parses rest dec_u32 (u32_bytes z) z.
Proof. unfold in_range, u32_max. intros. apply (parses_be rest 4). simpl. lia. Qed.

Lemma parses_u64 rest z : in_range u64_max z -> parses rest dec_u64 (u64_bytes z) z.
Proof. unfold in_range, u64_max. intros. apply (parses_be rest 8). simpl. lia. Qed.

Lemma parses_usize rest z : in_range u64_max z -> parses rest dec_usize (u64_bytes z) z.
Proof. apply parses_u64. Qed.

Lemma parses_uuid_raw rest u : valid_uuid u -> parses rest dec_uuid_raw (uuid_bytes u) u.
Proof.
  unfold valid_uuid, in_range, uuid_max. intros. apply (parses_be rest 16).
  change (256 ^ Z.of_nat 16)%Z with (2 ^ 128)%Z. lia.
Qed.

Lemma parses_digest_raw rest d : valid_digest d -> parses rest dec_digest_raw d d.
Proof. unfold valid_digest. intros. apply parses_take. unfold len. lia. Qed.

Lemma parses_bool rest b : parses rest dec_bool (bool_byte b) b.
Proof.
  unfold dec_bool, bool_byte.
  eapply parses_bind_l; [apply parses_u8; destruct b; done|]. destruct b; apply parses_ret.
Qed.

Lemma parses_field rest b : parses rest dec_field (field b) b.
Proof.
  intros pre Hlen. unfold field in *. revert pre Hlen.
  change (parses rest dec_field (u64_bytes (len b) ++ b) b).
  intros pre Hlen.
  assert (in_range u64_max (len b)) as Hr.
  { rewrite !len_app in Hlen. unfold in_range, usize_max in *.
    pose proof (len_nonneg pre). pose proof (len_nonneg rest). pose proof (len_nonneg b).
    pose proof (len_nonneg (u64_bytes (len b))). lia. }
  assert (parses rest dec_field (u64_bytes (len b) ++ b) b) as Hp.
  { unfold dec_field. eapply parses_bind; [by apply parses_u64|by apply parses_take]. }
  by apply Hp.
Qed.

Lemma parses_fixed rest n b : length b = n -> parses rest (dec_fixed n) (field b) b.
Proof.
  intros Hn. unfold dec_fixed. eapply parses_bind_l; [apply parses_field|].
  apply parses_lift. unfold try_into_array. by rewrite (proj2 (Nat.eqb_eq _ _) Hn).
Qed.

Lemma parses_digest rest d : valid_digest d -> parses rest dec_digest (field d) d.
Proof. apply parses_fixed. Qed.

Lemma parses_uuid rest u : valid_uuid u -> parses rest dec_uuid (field (uuid_bytes u)) u.
Proof.
  intros Hu. unfold dec_uuid. eapply parses_bind_l.
  - apply parses_fixed. apply length_be_bytes.
  - unfold uuid_bytes. rewrite from_be_bytes_be_bytes; [apply parses_ret|].
    unfold valid_uuid, in_range, uuid_max in Hu. change (256 ^ Z.of_nat 16)%Z with (2 ^ 128)%Z. lia.
Qed.

Lemma parses_domain rest b : parses rest (dec_domain b) (field b) tt.
Proof.
  unfold dec_domain. eapply parses_bind_l; [apply parses_field|].
  rewrite eqb_refl. apply parses_ret.
Qed.

Lemma parses_optional_field rest o : parses rest dec_optional_field (optional_field o) o.
Proof.
  unfold dec_optional_field, optional_field. destruct o as [b|].
  - eapply parses_bind; [by apply parses_u8|]. cbn.
    eapply parses_bind_l; [apply parses_field|apply parses_ret].
  - eapply parses_bind_l; [by apply parses_u8|]. apply parses_ret.
Qed.

Lemma parses_is_finished_end : parses (E:=E) [] dec_is_finished [] true.
Proof.
  intros pre _. unfold dec_is_finished. simpl. unfold pos, len. rewrite app_nil_r, N.add_0_r, nat_N_Z, Z.eqb_refl. done.
Qed.

Lemma parses_is_finished_more rest : rest <> [] -> parses (E:=E) rest dec_is_finished [] false.
Proof.
  intros Hr pre _. unfold dec_is_finished, pos. simpl.
  rewrite N.add_0_r, len_app, nat_N_Z. fold (len pre).
  replace (_ =? _)%Z with false; [done|]. symmetry. apply Z.eqb_neq.
  destruct rest; [done|]. unfold len. simpl. lia.
Qed.

Lemma parses_finish : parses (E:=E) [] dec_finish [] tt.
Proof. unfold dec_finish. eapply parses_bind_l; [apply parses_is_finished_end|apply parses_ret]. Qed.

Lemma run_parses {A} (p : Dec E A) enc a :
  parses [] p enc a -> (len enc <= usize_max)%Z -> run p enc = Ok a.
Proof.
  intros Hp Hl. unfold run, decoder_new. specialize (Hp []).
  rewrite app_nil_l, app_nil_r in Hp. change (pos []) with 0%N in Hp. by rewrite Hp.
Qed.

(** A nested value: a field whose content is decoded by another decoder. *)
Lemma parses_field_then {A} rest (g : bytes -> result E A) enc a :
  ((len enc <= usize_max)%Z -> g enc = Ok a) ->
  parses rest (b ← dec_field; lift (g b)) (field enc) a.
Proof.
  intros Hg pre Hlen. assert (len enc <= usize_max)%Z as Hl.
  { unfold field in Hlen. rewrite !len_app in Hlen.
    pose proof (len_nonneg pre). pose proof (len_nonneg rest).
    pose proof (len_nonneg (u64_bytes (len enc))). lia. }
  assert (parses rest (b ← dec_field; lift (g b)) (field enc) a) as Hp.
  { eapply parses_bind_l; [apply parses_field|]. apply parses_lift. auto. }
  by apply Hp.
Qed.

Lemma parses_field_bind {A B} rest (g : bytes -> result E A) (k : A -> Dec E B) enc1 enc2 a b :
  ((len enc1 <= usize_max)%Z -> g enc1 = Ok a) -> parses rest (k a) enc2 b ->
  parses rest (c ← dec_field; x ← lift (g c); k x) (field enc1 ++ enc2) b.
Proof.
  intros Hg Hk pre Hlen.
  pose proof (parses_bind rest _ k _ _ _ _ (parses_field_then (enc2 ++ rest) g enc1 a Hg) Hk) as Hp.
  specialize (Hp pre Hlen). rewrite <-Hp. unfold mbind, Dec_bind.
  by destruct (dec_field _) as [[? ?]|].
Qed.

(** A decoder that reads back what it wrote makes the writer injective. *)
Lemma parses_injective {A} (p : Dec E A) enc a1 a2 :
  parses [] p enc a1 -> parses [] p enc a2 -> (len enc <= usize_max)%Z -> a1 = a2.
Proof.
  intros H1 H2 Hl. apply run_parses in H1; [|done]. apply run_parses in H2; [|done]. congruence.
Qed.

(** ** What a successful decode says *)

Lemma dec_bind_Ok {A B} (p : Dec E A) (f : A -> Dec E B) d r :
  (p ≫= f) d = Ok r <-> exists a d', p d = Ok (a, d') /\ f a d' = Ok r.
Proof.
  unfold mbind, Dec_bind. destruct (p d) as [[a d']|e]; [|naive_solver].
  split; [eauto|]. intros (? & ? & ? & ?). by simplify_eq.
Qed.

Lemma lift_Ok {A} (r : result E A) d x : lift r d = Ok x <-> exists a, r = Ok a /\ x = (a, d).
Proof. unfold lift. destruct r; naive_solver. Qed.

Lemma slice_Some b i j v :
  slice b i j = Some v -> (0 <= i)%Z -> len v = (j - i)%Z /\ (i <= j <= len b)%Z.
Proof.
  unfold slice, len. case_match; [|done]. intros ? ?. simplify_eq. bool_hyps.
  rewrite length_take, length_drop. lia.
Qed.

Lemma take_bytes_length n d b d' :
  (0 <= n)%Z -> take_bytes n d = Ok (b, d') -> len b = n.
Proof.
  intros Hn. unfold take_bytes. intros H. repeat case_match; simplify_eq. simpl.
  rewrite checked_add_Some in *. destruct_and?. subst.
  match goal with Hs : slice _ _ _ = Some _ |- _ => apply slice_Some in Hs; lia end.
Qed.

Lemma try_into_array_Ok n b b' : try_into_array (E:=E) n b = Ok b' -> b' = b /\ length b = n.
Proof. unfold try_into_array. case_match; intros; simplify_eq. split; [done|]. by apply Nat.eqb_eq. Qed.

End Parses.

(** ** Loops *)

Section Loops.
Context {E S X : Type}.
Context (step : S -> Dec E S) (f : S -> X -> S) (enc : X -> bytes).

Definition enc_all (xs : list X) : bytes := concat (map enc xs).

(** Each iteration, from the state the earlier ones leave, reads its own item. *)
Fixpoint loop_parses (rest : bytes) (s : S) (xs : list X) : Prop :=
  match xs with
  | [] => True
  | x :: xs' => parses (enc_all xs' ++ rest) (step s) (enc x) (f s x) /\ loop_parses rest (f s x) xs'
  end.

Lemma enc_all_app xs ys : enc_all (xs ++ ys) = enc_all xs ++ enc_all ys.
Proof. unfold enc_all. by rewrite map_app, concat_app. Qed.

Lemma loop_parses_app rest s xs ys :
  loop_parses rest s (xs ++ ys) <->
  loop_parses (enc_all ys ++ rest) s xs /\ loop_parses rest (fold_left f xs s) ys.
Proof.
  revert s. induction xs as [|x xs IH]; intros s; simpl; [naive_solver|].
  rewrite IH, enc_all_app, <-app_assoc. naive_solver.
Qed.

Lemma parses_repeat p rest s xs :
  length xs = Pos.to_nat p -> loop_parses rest s xs ->
  parses rest (dec_repeat p step s) (enc_all xs) (fold_left f xs s).
Proof.
  revert rest s xs. induction p as [q IH|q IH|]; intros rest s xs Hl Hc; simpl.
  - destruct xs as [|x xs]; [simpl in Hl; lia|]. destruct Hc as [Hx Hc].
    unfold enc_all. simpl. eapply parses_bind; [exact Hx|]. fold (enc_all xs).
    rewrite <-(take_drop (Pos.to_nat q) xs) in Hc |- *.
    apply loop_parses_app in Hc as [Hc1 Hc2].
    rewrite enc_all_app, fold_left_app. simpl in Hl.
    eapply parses_bind; apply IH; try done; rewrite ?length_take, ?length_drop; lia.
  - rewrite <-(take_drop (Pos.to_nat q) xs) in Hc |- *.
    apply loop_parses_app in Hc as [Hc1 Hc2]. rewrite enc_all_app, fold_left_app.
    eapply parses_bind; apply IH; try done; rewrite ?length_take, ?length_drop; lia.
  - destruct xs as [|x [|y xs]]; try (simpl in Hl; lia). destruct Hc as [Hx _].
    unfold enc_all. simpl. rewrite app_nil_r. exact Hx.
Qed.

Lemma parses_for rest s xs :
  loop_parses rest s xs ->
  parses rest (dec_for (Z.of_nat (length xs)) step s) (enc_all xs) (fold_left f xs s).
Proof.
  destruct xs as [|x xs]; intros Hc; [apply parses_ret|].
  change (Z.of_nat (length (x :: xs))) with (Zpos (Pos.of_succ_nat (length xs))). simpl dec_for.
  apply parses_repeat; [|done]. by rewrite SuccNat2Pos.id_succ.
Qed.

End Loops.

(** ** What a successful decode guarantees *)

Definition yields {E A} (p : Dec E A) (P : A -> Prop) : Prop :=
  forall d a d', p d = Ok (a, d') -> P a.

Section Yields.
Context {E : Type} `{!HasMalformed E}.

Lemma yields_ret {A} (P : A -> Prop) a : P a -> yields (E:=E) (mret a) P.
Proof. intros HP d a' d'. unfold mret, Dec_ret. naive_solver. Qed.

Lemma yields_lift {A} (r : result E A) (P : A -> Prop) :
  (forall a, r = Ok a -> P a) -> yields (lift r) P.
Proof. intros HP d a d' (? & ? & ?)%lift_Ok. simplify_eq. auto. Qed.

Lemma yields_bind {A B} (p : Dec E A) (f : A -> Dec E B) P Q :
  yields p P -> (forall a, P a -> yields (f a) Q) -> yields (p ≫= f) Q.
Proof. intros Hp Hf d b d' (? & ? & ? & ?)%dec_bind_Ok. eapply Hf; eauto. Qed.

Lemma yields_any {A} (p : Dec E A) : yields p (fun _ => True).
Proof. by intros ???. Qed.

Lemma yields_be n :
  yields (b ← take_bytes (Z.of_nat n); mret (from_be_bytes b) : Dec E Z)
    (fun z => (0 <= z < 256 ^ Z.of_nat n)%Z).
Proof.
  eapply (yields_bind _ _ (fun b => len b = Z.of_nat n)).
  - intros d b d' Hb. by apply take_bytes_length in Hb; [|lia].
  - intros b Hb. apply yields_ret. rewrite <-Hb. apply from_be_bytes_range.
Qed.

Lemma yields_u32 : yields (E:=E) dec_u32 (in_range u32_max).
Proof. intros d z d' H. apply (yields_be 4) in H. unfold in_range, u32_max. simpl in H. lia. Qed.

Lemma yields_u64 : yields (E:=E) dec_u64 (in_range u64_max).
Proof. intros d z d' H. apply (yields_be 8) in H. unfold in_range, u64_max. simpl in H. lia. Qed.

Lemma yields_uuid_raw : yields (E:=E) dec_uuid_raw valid_uuid.
Proof.
  intros d z d' H. apply (yields_be 16) in H. unfold valid_uuid, in_range, uuid_max.
  change (256 ^ Z.of_nat 16)%Z with (2 ^ 128)%Z in H. lia.
Qed.

Lemma yields_digest_raw : yields (E:=E) dec_digest_raw valid_digest.
Proof.
  intros d b d' H. apply take_bytes_length in H; [|lia]. unfold valid_digest. unfold len in H. lia.
Qed.

Lemma yields_fixed n : yields (E:=E) (dec_fixed n) (fun b => length b = n).
Proof.
  unfold dec_fixed. eapply yields_bind; [apply yields_any|]. intros b _.
  apply yields_lift. intros a Ha. by apply try_into_array_Ok in Ha as [-> ?].
Qed.

Lemma yields_digest : yields (E:=E) dec_digest valid_digest.
Proof. apply yields_fixed. Qed.

Lemma yields_uuid : yields (E:=E) dec_uuid valid_uuid.
Proof.
  unfold dec_uuid. eapply yields_bind; [apply yields_fixed|]. intros b Hb. apply yields_ret.
  pose proof (from_be_bytes_range b) as H. rewrite Hb in H.
  change (256 ^ Z.of_nat 16)%Z with (2 ^ 128)%Z in H. unfold valid_uuid, in_range, uuid_max. lia.
Qed.

(** An invariant kept by every iteration holds after the loop. *)
Lemma yields_for {S} (I : S -> Prop) (step : S -> Dec E S) n s :
  (forall s, I s -> yields (step s) I) -> I s -> yields (dec_for n step s) I.
Proof.
  intros Hstep. assert (forall p s, I s -> yields (dec_repeat p step s) I) as Hp.
  { induction p as [q IH|q IH|]; intros t HI; simpl; eauto.
    - eapply yields_bind; [by apply Hstep|]. intros u Hu. eapply yields_bind; [by apply IH|]. apply IH.
    - eapply yields_bind; [by apply IH|]. apply IH. }
  intros HI. destruct n; simpl; try by apply yields_ret. by apply Hp.
Qed.

Lemma run_yields {A} (p : Dec E A) (P : A -> Prop) b a : yields p P -> run p b = Ok a -> P a.
Proof. unfold run. intros Hp H. repeat case_match; simplify_eq. eapply Hp; eauto. Qed.

End Yields.

#[export] Hint Resolve yields_any : vestrace.
#[export] Hint Resolve yields_u32 yields_u64 yields_uuid_raw yields_digest_raw yields_digest
  yields_uuid | 0 : vestrace.

#[export] Hint Resolve parses_ret parses_u8 parses_u32 parses_u64 parses_usize parses_uuid_raw
  parses_digest_raw parses_bool parses_field parses_fixed parses_digest parses_uuid
  parses_domain parses_optional_field parses_finish : vestrace.

(** Walk a decoder and its encoding together, one bind at a time. *)
Ltac parse_step := first
  [ eapply parses_bind; [solve [eauto with vestrace]|]; cbv beta
  | eapply parses_bind_l; [solve [eauto with vestrace]|]; cbv beta ].

Ltac parse_all := repeat parse_step; try solve [eauto with vestrace].

#[global] Arguments be_bytes : simpl never.
#[global] Arguments field : simpl never.
#[global] Arguments uuid_bytes : simpl never.
#[global] Arguments u8_bytes : simpl never.
#[global] Arguments u32_bytes : simpl never.
#[global] Arguments u64_bytes : simpl never.
#[global] Arguments bool_byte : simpl never.
