(* ===== verification/Crypto.v ===== *)
(** * Cryptographic primitives

    [sha2] and [ring] are third-party crates: their functions are parameters, as classes the
    definitions quantify over.  [Sha256Ok] and [Ed25519Ok] are what the sources rely on:
    digests and keys have their fixed widths, and a signature verifies under the public key
    of the pair that made it over the same message.  Nothing is assumed about collisions or
    forgeries. *)

From Stdlib Require Import ZArith Lia Strings.Byte.
From stdpp Require Import base option numbers list.
From S2P Require Import Prelude Codec.

(** [Sha256::digest]. *)
Class Sha256 : Type := sha256 : bytes -> bytes.

Class Sha256Ok `{!Sha256} : Prop := sha256_length : forall b, length (sha256 b) = 32%nat.

(** [SafetyJournalDigest::of]. *)
Definition digest_of `{!Sha256} (b : bytes) : Digest := sha256 b.

(** [ring::signature]: a key pair, its public key, signing and verification. *)
Class Ed25519 : Type := {
  KeyPair : Type;
  public_key : KeyPair -> bytes;
  sign_message : KeyPair -> bytes -> bytes;
  verify_message : bytes -> bytes -> bytes -> bool;
}.

Class Ed25519Ok `{!Ed25519} : Prop := {
  public_key_length : forall k, length (public_key k) = 32%nat;
  signature_length : forall k m, length (sign_message k m) = 64%nat;
  verify_signed : forall k m, verify_message (public_key k) m (sign_message k m) = true;
}.

Lemma digest_of_valid `{!Sha256, !Sha256Ok} b : valid_digest (digest_of b).
Proof. apply sha256_length. Qed.

#[export] Hint Resolve digest_of_valid : vestrace.

(** A concrete digest and a concrete (keyless) signature scheme, for evaluating the model. *)
Module Toy.

#[export] Instance toy_sha256 : Sha256 :=
  fun b => be_bytes 32 (fold_left (fun acc x => (acc * 257 + Z_of_byte x + 1) mod 2 ^ 256)%Z b 7%Z).

#[export] Instance toy_sha256_ok : Sha256Ok.
Proof. intros b. apply length_be_bytes. Qed.

#[export] Instance toy_ed25519 : Ed25519 := {
  KeyPair := Z;
  public_key k := be_bytes 32 k;
  sign_message k m := be_bytes 32 k ++ toy_sha256 m;
  verify_message pk m sg := bool_decide (sg = pk ++ toy_sha256 m);
}.

#[export] Instance toy_ed25519_ok : Ed25519Ok.
Proof.
  split; intros; simpl; try done. by apply bool_decide_eq_true.
Qed.

End Toy.
