(* ===== verification/BackupArchive.v ===== *)
(** * The backup archive state

    [crates/vestrace-domain/src/backup_archive.rs]: the lifecycle of backup sets, their
    checkpoint chains and restore holds, the "exact successor" predicates a witness
    evaluates, and the canonical encoding of the whole state.  The properties are in
    [BackupArchiveProps]. *)

From Stdlib Require Import ZArith Lia String Strings.Byte.
From stdpp Require Import base option numbers list.
From S2P Require Import Prelude BTree Codec Crypto.

Definition ARCHIVE_STATE_VERSION : Z := 3.

(** The bytes of a Rust byte-string literal. *)
Definition byte_string (s : string) : bytes := String.list_byte_of_string s.

Definition CHECKPOINT_DOMAIN : bytes := byte_string "vestrace-wal-archive-checkpoint-v1".

Inductive BackupArchiveError : Type :=
| Malformed
| DuplicateBackupSet
| DuplicateRestoreHold
| UnknownBackupSet
| NotStreaming
| NotRestorable
| BaseCheckpointRequired
| DuplicateBaseCheckpoint
| BaseCheckpointMustBeFirst
| BaseCheckpointAncestryMismatch
| RestoreHoldPresent
| ArchiveHeadMismatch
| InvalidLifecycleTransition
| RestoreHoldAlreadyReleased.

#[export] Instance BackupArchiveError_eq_dec : EqDecision BackupArchiveError.
Proof. solve_decision. Defined.

#[export] Instance BackupArchiveError_malformed : HasMalformed BackupArchiveError := Malformed.

Abbreviation BackupSetId := Uuid (only parsing).
Abbreviation BackupObjectId := Uuid (only parsing).
Abbreviation RestoreHoldId := Uuid (only parsing).
Abbreviation InstallationId := Uuid (only parsing).
Abbreviation DatabaseGenerationId := Uuid (only parsing).

Inductive BackupSetLifecycle : Type :=
| Streaming | Sealing | Sealed | DeletionPrepared | ArchiveKeyErased | Deleted.

#[export] Instance BackupSetLifecycle_eq_dec : EqDecision BackupSetLifecycle.
Proof. solve_decision. Defined.

Definition lifecycle_code (l : BackupSetLifecycle) : Z :=
  match l with
  | Streaming => 0 | Sealing => 1 | Sealed => 2
  | DeletionPrepared => 3 | ArchiveKeyErased => 4 | Deleted => 5
  end.

Definition lifecycle_from_code (v : Z) : result BackupArchiveError BackupSetLifecycle :=
  match v with
  | 0%Z => Ok Streaming
  | 1%Z => Ok Sealing
  | 2%Z => Ok Sealed
  | 3%Z => Ok DeletionPrepared
  | 4%Z => Ok ArchiveKeyErased
  | 5%Z => Ok Deleted
  | _ => Err Malformed
  end.

Inductive ArchiveObjectKind : Type := BaseChunk | WalSegment | TimelineHistory.

#[export] Instance ArchiveObjectKind_eq_dec : EqDecision ArchiveObjectKind.
Proof. solve_decision. Defined.

Definition kind_code (k : ArchiveObjectKind) : Z :=
  match k with BaseChunk => 0 | WalSegment => 1 | TimelineHistory => 2 end.

Definition kind_from_code (v : Z) : result BackupArchiveError ArchiveObjectKind :=
  match v with
  | 0%Z => Ok BaseChunk
  | 1%Z => Ok WalSegment
  | 2%Z => Ok TimelineHistory
  | _ => Err Malformed
  end.

Record ArchiveHead : Type := mkHead { checkpoint_ordinal : Z; head_digest : Digest }.

#[export] Instance ArchiveHead_eq_dec : EqDecision ArchiveHead.
Proof. solve_decision. Defined.

Definition head_genesis (d : Digest) : ArchiveHead := mkHead 0 d.

Record BackupSetIdentity : Type := mkIdentity {
  identity_set_id : BackupSetId;
  identity_installation_id : InstallationId;
  identity_generation_id : DatabaseGenerationId;
}.

#[export] Instance BackupSetIdentity_eq_dec : EqDecision BackupSetIdentity.
Proof. solve_decision. Defined.

Record ArchiveObjectDescriptorInput : Type := mkInput {
  set_id : BackupSetId;
  object_id : BackupObjectId;
  kind : ArchiveObjectKind;
  ordinal : Z;
  timeline : Z;
  start_lsn : Z;
  end_lsn : Z;
  ciphertext_digest : Digest;
  plaintext_digest : Digest;
  object_length : Z;
  predecessor_head_digest : Digest;
}.

#[export] Instance ArchiveObjectDescriptorInput_eq_dec : EqDecision ArchiveObjectDescriptorInput.
Proof. solve_decision. Defined.

Record ArchiveObjectDescriptor : Type := mkDescriptor { to_input : ArchiveObjectDescriptorInput }.

#[export] Instance ArchiveObjectDescriptor_eq_dec : EqDecision ArchiveObjectDescriptor.
Proof. solve_decision. Defined.

Definition descriptor_new (input : ArchiveObjectDescriptorInput)
  : result BackupArchiveError ArchiveObjectDescriptor :=
  if ((ordinal input =? 0) || (timeline input =? 0)
      || (end_lsn input <? start_lsn input) || (object_length input =? 0))%Z
  then Err Malformed
  else Ok (mkDescriptor input).

Definition descriptor_encode (o : ArchiveObjectDescriptor) : bytes :=
  let i := to_input o in
  uuid_bytes (set_id i) ++
  uuid_bytes (object_id i) ++
  u8_bytes (kind_code (kind i)) ++
  u64_bytes (ordinal i) ++
  u32_bytes (timeline i) ++
  u64_bytes (start_lsn i) ++
  u64_bytes (end_lsn i) ++
  ciphertext_digest i ++
  plaintext_digest i ++
  u64_bytes (object_length i) ++
  predecessor_head_digest i.

Definition descriptor_decode : Dec BackupArchiveError ArchiveObjectDescriptor :=
  sid ← dec_uuid_raw;
  oid ← dec_uuid_raw;
  code ← dec_u8;
  k ← lift (kind_from_code code);
  ord ← dec_u64;
  tl ← dec_u32;
  sl ← dec_u64;
  el ← dec_u64;
  cd ← dec_digest_raw;
  pd ← dec_digest_raw;
  ln ← dec_u64;
  pred ← dec_digest_raw;
  lift (descriptor_new (mkInput sid oid k ord tl sl el cd pd ln pred)).

Record ArchiveAppendReservation : Type := mkReservation {
  reservation_set_id : BackupSetId;
  reservation_expected : ArchiveHead;
  reservation_object : ArchiveObjectDescriptor;
}.

(** [expected.checkpoint_ordinal.checked_add(1).is_none_or(|o| object.ordinal() != o)]. *)
Definition ordinal_is_not_next (expected : ArchiveHead) (o : ArchiveObjectDescriptor) : bool :=
  match checked_add u64_max (checkpoint_ordinal expected) 1 with
  | None => true
  | Some n => negb (ordinal (to_input o) =? n)%Z
  end.

Definition reservation_new (set : BackupSetId) (expected : ArchiveHead) (object : ArchiveObjectDescriptor)
  : result BackupArchiveError ArchiveAppendReservation :=
  if (set_id (to_input object) !== set)
     || (predecessor_head_digest (to_input object) !== head_digest expected)
     || ordinal_is_not_next expected object
  then Err ArchiveHeadMismatch
  else Ok (mkReservation set expected object).

Record WalArchiveCheckpoint : Type := mkCheckpoint { checkpoint_object : ArchiveObjectDescriptor }.

#[export] Instance WalArchiveCheckpoint_eq_dec : EqDecision WalArchiveCheckpoint.
Proof. solve_decision. Defined.

Definition checkpoint_from_reservation (r : ArchiveAppendReservation) : WalArchiveCheckpoint :=
  mkCheckpoint (reservation_object r).

Definition checkpoint_canonical_bytes (c : WalArchiveCheckpoint) : bytes :=
  field CHECKPOINT_DOMAIN ++ descriptor_encode (checkpoint_object c).

Definition checkpoint_decode : Dec BackupArchiveError WalArchiveCheckpoint :=
  dec_domain CHECKPOINT_DOMAIN;;
  o ← descriptor_decode;
  mret (mkCheckpoint o).

Definition checkpoint_ord (c : WalArchiveCheckpoint) : Z := ordinal (to_input (checkpoint_object c)).
Definition checkpoint_kind (c : WalArchiveCheckpoint) : ArchiveObjectKind :=
  kind (to_input (checkpoint_object c)).
Definition checkpoint_set (c : WalArchiveCheckpoint) : BackupSetId :=
  set_id (to_input (checkpoint_object c)).

Inductive RestoreHoldReleaseReason : Type :=
| TargetInitializationComplete (receipt : Digest)
| SourceResumePrepared (receipt : Digest)
| RefusedTargetDestroyed (receipt : Digest)
| SalvageInstallationCompleted (receipt : Digest).

#[export] Instance RestoreHoldReleaseReason_eq_dec : EqDecision RestoreHoldReleaseReason.
Proof. solve_decision. Defined.

Definition reason_receipt (r : RestoreHoldReleaseReason) : Digest :=
  match r with
  | TargetInitializationComplete d | SourceResumePrepared d
  | RefusedTargetDestroyed d | SalvageInstallationCompleted d => d
  end.

Definition reason_code (r : RestoreHoldReleaseReason) : Z :=
  match r with
  | TargetInitializationComplete _ => 0
  | SourceResumePrepared _ => 1
  | RefusedTargetDestroyed _ => 2
  | SalvageInstallationCompleted _ => 3
  end.

Definition reason_of_code (k : Z) (receipt : Digest) : result BackupArchiveError RestoreHoldReleaseReason :=
  match k with
  | 0%Z => Ok (TargetInitializationComplete receipt)
  | 1%Z => Ok (SourceResumePrepared receipt)
  | 2%Z => Ok (RefusedTargetDestroyed receipt)
  | 3%Z => Ok (SalvageInstallationCompleted receipt)
  | _ => Err Malformed
  end.

Definition reason_encode (r : RestoreHoldReleaseReason) : bytes :=
  u8_bytes (reason_code r) ++ reason_receipt r.

Definition reason_decode : Dec BackupArchiveError RestoreHoldReleaseReason :=
  k ← dec_u8;
  receipt ← dec_digest_raw;
  lift (reason_of_code k receipt).

Record RestoreHold : Type := mkHold {
  hold_id : RestoreHoldId;
  release_reason : option RestoreHoldReleaseReason;
}.

#[export] Instance RestoreHold_eq_dec : EqDecision RestoreHold.
Proof. solve_decision. Defined.

Definition hold_active (h : RestoreHold) : bool := is_none (release_reason h).

Record BackupSetState : Type := mkSetState {
  identity : BackupSetIdentity;
  lifecycle : BackupSetLifecycle;
  deletion_requested : bool;
  deletion_preparation : option Digest;
  key_erasure_preparation : option Digest;
  head : ArchiveHead;
  checkpoints : list WalArchiveCheckpoint;
  holds : btree RestoreHold;
}.

#[export] Instance BackupSetState_eq_dec : EqDecision BackupSetState.
Proof. solve_decision. Defined.

Record BackupArchiveStateV1 : Type := mkArchive { sets : btree BackupSetState }.

#[export] Instance BackupArchiveStateV1_eq_dec : EqDecision BackupArchiveStateV1.
Proof. solve_decision. Defined.

(** Assignments to one field of a set. *)
Definition set_lifecycle (l : BackupSetLifecycle) (s : BackupSetState) : BackupSetState :=
  mkSetState (identity s) l (deletion_requested s) (deletion_preparation s)
    (key_erasure_preparation s) (head s) (checkpoints s) (holds s).

Definition set_deletion_preparation (p : option Digest) (s : BackupSetState) : BackupSetState :=
  mkSetState (identity s) (lifecycle s) (deletion_requested s) p
    (key_erasure_preparation s) (head s) (checkpoints s) (holds s).

Definition set_key_erasure_preparation (p : option Digest) (s : BackupSetState) : BackupSetState :=
  mkSetState (identity s) (lifecycle s) (deletion_requested s) (deletion_preparation s)
    p (head s) (checkpoints s) (holds s).

Definition set_chain (h : ArchiveHead) (cs : list WalArchiveCheckpoint) (s : BackupSetState) : BackupSetState :=
  mkSetState (identity s) (lifecycle s) (deletion_requested s) (deletion_preparation s)
    (key_erasure_preparation s) h cs (holds s).

Definition set_holds (hs : btree RestoreHold) (s : BackupSetState) : BackupSetState :=
  mkSetState (identity s) (lifecycle s) (deletion_requested s) (deletion_preparation s)
    (key_erasure_preparation s) (head s) (checkpoints s) hs.

Definition update_set (id : BackupSetId) (f : BackupSetState -> BackupSetState)
  (a : BackupArchiveStateV1) : BackupArchiveStateV1 :=
  mkArchive (BTree.update id f (sets a)).

(** ** Operations *)

Definition archive_empty : BackupArchiveStateV1 := mkArchive [].

Definition get_set (a : BackupArchiveStateV1) (set : BackupSetId) : result BackupArchiveError BackupSetState :=
  ok_or (BTree.get (sets a) set) UnknownBackupSet.

Definition start_streaming (a : BackupArchiveStateV1) (ident : BackupSetIdentity) (h : ArchiveHead)
  : result BackupArchiveError BackupArchiveStateV1 :=
  if BTree.contains_key (sets a) (identity_set_id ident) then Err DuplicateBackupSet
  else Ok (mkArchive (BTree.insert (identity_set_id ident)
             (mkSetState ident Streaming false None None h [] []) (sets a))).

Definition archive_set_ids (a : BackupArchiveStateV1) : list BackupSetId := BTree.keys (sets a).

Definition archive_head (a : BackupArchiveStateV1) (set : BackupSetId) : result BackupArchiveError ArchiveHead :=
  s ← get_set a set; Ok (head s).

Definition archive_lifecycle (a : BackupArchiveStateV1) (set : BackupSetId)
  : result BackupArchiveError BackupSetLifecycle :=
  s ← get_set a set; Ok (lifecycle s).

Definition restore_hold_ids (a : BackupArchiveStateV1) (set : BackupSetId)
  : result BackupArchiveError (list RestoreHoldId) :=
  s ← get_set a set; Ok (BTree.keys (holds s)).

Definition deletion_preparation_digest (a : BackupArchiveStateV1) (set : BackupSetId)
  : result BackupArchiveError (option Digest) :=
  s ← get_set a set; Ok (deletion_preparation s).

Definition key_erasure_preparation_digest (a : BackupArchiveStateV1) (set : BackupSetId)
  : result BackupArchiveError (option Digest) :=
  s ← get_set a set; Ok (key_erasure_preparation s).

Definition latest_checkpoint (a : BackupArchiveStateV1) (set : BackupSetId)
  : result BackupArchiveError (option WalArchiveCheckpoint) :=
  s ← get_set a set; Ok (last (checkpoints s)).

Definition backup_set_identity (a : BackupArchiveStateV1) (set : BackupSetId)
  : result BackupArchiveError BackupSetIdentity :=
  s ← get_set a set; Ok (identity s).

Definition has_base_checkpoint (s : BackupSetState) : bool :=
  match checkpoints s with
  | c :: _ => checkpoint_kind c == BaseChunk
  | [] => false
  end.

Definition validate_append_kind (s : BackupSetState) (object : ArchiveObjectDescriptor)
  : result BackupArchiveError unit :=
  match has_base_checkpoint s, kind (to_input object) with
  | false, BaseChunk =>
      if (ordinal (to_input object) =? 1)%Z then Ok tt else Err BaseCheckpointMustBeFirst
  | false, _ => Err BaseCheckpointRequired
  | true, BaseChunk => Err DuplicateBaseCheckpoint
  | true, WalSegment =>
      match checkpoints s with
      | [] => Err BaseCheckpointRequired
      | first :: _ =>
          let base := to_input (checkpoint_object first) in
          let wal := to_input object in
          if negb (timeline wal =? timeline base)%Z || (start_lsn wal <? start_lsn base)%Z
          then Err BaseCheckpointAncestryMismatch
          else Ok tt
      end
  | true, _ => Ok tt
  end.

Definition reserve_append (a : BackupArchiveStateV1) (set : BackupSetId) (expected : ArchiveHead)
  (object : ArchiveObjectDescriptor) : result BackupArchiveError ArchiveAppendReservation :=
  current ← get_set a set;
  if lifecycle current !== Streaming then Err NotStreaming
  else
    _ ← validate_append_kind current object;
    if (head current !== expected)
       || (set_id (to_input object) !== set)
       || (predecessor_head_digest (to_input object) !== head_digest expected)
       || ordinal_is_not_next expected object
    then Err ArchiveHeadMismatch
    else reservation_new set expected object.

Definition any_active_hold (s : BackupSetState) : bool := any hold_active (BTree.values (holds s)).

Definition acquire_restore_hold (a : BackupArchiveStateV1) (set : BackupSetId) (hid : RestoreHoldId)
  : result BackupArchiveError BackupArchiveStateV1 :=
  current ← get_set a set;
  if lifecycle current !== Streaming then Err NotRestorable
  else if negb (has_base_checkpoint current) then Err NotRestorable
  else if BTree.contains_key (holds current) hid then Err DuplicateRestoreHold
  else Ok (update_set set (fun s => set_holds (BTree.insert hid (mkHold hid None) (holds s)) s) a).

Definition release_restore_hold (a : BackupArchiveStateV1) (set : BackupSetId) (hid : RestoreHoldId)
  (reason : RestoreHoldReleaseReason) : result BackupArchiveError BackupArchiveStateV1 :=
  s ← ok_or (BTree.get (sets a) set) UnknownBackupSet;
  hold ← ok_or (BTree.get (holds s) hid) UnknownBackupSet;
  if negb (hold_active hold) then Err RestoreHoldAlreadyReleased
  else Ok (update_set set (fun s =>
             set_holds (BTree.update hid (fun h => mkHold (hold_id h) (Some reason)) (holds s)) s) a).

Definition require_no_active_holds (a : BackupArchiveStateV1) (set : BackupSetId)
  : result BackupArchiveError unit :=
  s ← get_set a set;
  if any_active_hold s then Err RestoreHoldPresent else Ok tt.

Definition transition (a : BackupArchiveStateV1) (set : BackupSetId) (next : BackupSetLifecycle)
  : result BackupArchiveError BackupArchiveStateV1 :=
  _ ← ok_or (BTree.get (sets a) set) UnknownBackupSet;
  Ok (update_set set (set_lifecycle next) a).

Definition transition_from (a : BackupArchiveStateV1) (set : BackupSetId)
  (expected next : BackupSetLifecycle) : result BackupArchiveError BackupArchiveStateV1 :=
  s ← get_set a set;
  if lifecycle s !== expected then Err InvalidLifecycleTransition
  else transition a set next.

Definition begin_sealing (a : BackupArchiveStateV1) (set : BackupSetId)
  : result BackupArchiveError BackupArchiveStateV1 :=
  current ← get_set a set;
  if lifecycle current !== Streaming then Err InvalidLifecycleTransition
  else if negb (has_base_checkpoint current) then Err NotRestorable
  else if any_active_hold current then Err RestoreHoldPresent
  else transition a set Sealing.

Definition commit_sealed (a : BackupArchiveStateV1) (set : BackupSetId)
  : result BackupArchiveError BackupArchiveStateV1 :=
  _ ← require_no_active_holds a set;
  transition_from a set Sealing Sealed.

Definition prepare_deletion (a : BackupArchiveStateV1) (set : BackupSetId) (preparation : Digest)
  : result BackupArchiveError BackupArchiveStateV1 :=
  _ ← require_no_active_holds a set;
  next ← transition_from a set Sealed DeletionPrepared;
  _ ← ok_or (BTree.get (sets next) set) UnknownBackupSet;
  Ok (update_set set (set_deletion_preparation (Some preparation)) next).

Definition record_archive_key_erased (a : BackupArchiveStateV1) (set : BackupSetId)
  : result BackupArchiveError BackupArchiveStateV1 :=
  current ← get_set a set;
  if is_none (key_erasure_preparation current)
     || (key_erasure_preparation current !== deletion_preparation current)
  then Err InvalidLifecycleTransition
  else transition_from a set DeletionPrepared ArchiveKeyErased.

Definition prepare_archive_key_erasure (a : BackupArchiveStateV1) (set : BackupSetId) (preparation : Digest)
  : result BackupArchiveError BackupArchiveStateV1 :=
  current ← get_set a set;
  if (lifecycle current !== DeletionPrepared)
     || (deletion_preparation current !== Some preparation)
     || is_some (key_erasure_preparation current)
  then Err InvalidLifecycleTransition
  else Ok (update_set set (set_key_erasure_preparation (Some preparation)) a).

Definition finalize_deleted (a : BackupArchiveStateV1) (set : BackupSetId)
  : result BackupArchiveError BackupArchiveStateV1 :=
  transition_from a set ArchiveKeyErased Deleted.

(** ** Exact successors

    The loop the successor predicates share: every set of [previous] must still be there,
    and exactly one may differ, by the edge [edge set_id before after]. *)

Fixpoint successor_loop (self : btree BackupSetState)
  (edge : BackupSetId -> BackupSetState -> BackupSetState -> bool)
  (previous : btree BackupSetState) (changed : bool) : bool :=
  match previous with
  | [] => changed
  | (id, before) :: rest =>
      match BTree.get self id with
      | None => false
      | Some after =>
          if after == before then successor_loop self edge rest changed
          else if changed || negb (edge id before after) then false
          else successor_loop self edge rest true
      end
  end.

Definition exact_successor (edge : BackupSetId -> BackupSetState -> BackupSetState -> bool)
  (self previous : BackupArchiveStateV1) : bool :=
  if negb (BTree.len (sets self) =? BTree.len (sets previous))%Z then false
  else successor_loop (sets self) edge (sets previous) false.

(** [self.checkpoints.starts_with(prefix)]. *)
Definition starts_with (l prefix : list WalArchiveCheckpoint) : bool :=
  (length prefix <=? length l)%nat && (take (length prefix) l == prefix).

Fixpoint started_loop (previous : btree BackupSetState) (self : btree BackupSetState) (added : bool) : bool :=
  match self with
  | [] => added
  | (id, after) :: rest =>
      match BTree.get previous id with
      | Some before => if before == after then started_loop previous rest added else false
      | None =>
          if negb added && (lifecycle after == Streaming)
             && negb (deletion_requested after)
             && is_none (deletion_preparation after)
             && is_none (key_erasure_preparation after)
             && (checkpoints after == [])
             && (holds after == [])
             && (checkpoint_ordinal (head after) =? 0)%Z
          then started_loop previous rest true
          else false
      end
  end.

Definition is_exact_started_successor_of (self previous : BackupArchiveStateV1) : bool :=
  if negb (BTree.len (sets self) =? BTree.len (sets previous) + 1)%Z then false
  else started_loop (sets previous) (sets self) false.

Definition hold_edge (_ : BackupSetId) (before after : BackupSetState) : bool :=
  negb ((identity after !== identity before)
        || (lifecycle after !== Streaming)
        || (deletion_requested after !== deletion_requested before)
        || (deletion_preparation after !== deletion_preparation before)
        || (key_erasure_preparation after !== key_erasure_preparation before)
        || (head after !== head before)
        || (checkpoints after !== checkpoints before)
        || negb (has_base_checkpoint before)
        || negb (BTree.len (holds after) =? BTree.len (holds before) + 1)%Z
        || negb (all (fun '(id, h) => BTree.get (holds after) id == Some h) (holds before))
        || negb (any (fun '(id, h) => negb (BTree.contains_key (holds before) id) && hold_active h)
                   (holds after))).

Definition is_exact_hold_successor_of (self previous : BackupArchiveStateV1) : bool :=
  exact_successor hold_edge self previous.

Definition lifecycle_edge (from to : BackupSetLifecycle) (_ : BackupSetId) (before after : BackupSetState) : bool :=
  negb ((lifecycle before !== from)
        || (lifecycle after !== to)
        || (identity after !== identity before)
        || (deletion_requested after !== deletion_requested before)
        || (deletion_preparation after !== deletion_preparation before)
        || (key_erasure_preparation after !== key_erasure_preparation before)
        || (head after !== head before)
        || (checkpoints after !== checkpoints before)
        || (holds after !== holds before)
        || negb (has_base_checkpoint before)).

Definition is_exact_lifecycle_successor_of (self previous : BackupArchiveStateV1)
  (from to : BackupSetLifecycle) : bool :=
  exact_successor (lifecycle_edge from to) self previous.

Definition prepared_deletion_edge (_ : BackupSetId) (before after : BackupSetState) : bool :=
  negb ((lifecycle before !== Sealed)
        || (lifecycle after !== DeletionPrepared)
        || is_some (deletion_preparation before)
        || is_none (deletion_preparation after)
        || is_some (key_erasure_preparation before)
        || is_some (key_erasure_preparation after)
        || (identity after !== identity before)
        || (deletion_requested after !== deletion_requested before)
        || (head after !== head before)
        || (checkpoints after !== checkpoints before)
        || (holds after !== holds before)).

Definition is_exact_prepared_deletion_successor_of (self previous : BackupArchiveStateV1) : bool :=
  exact_successor prepared_deletion_edge self previous.

Definition key_erasure_prepared_edge (_ : BackupSetId) (before after : BackupSetState) : bool :=
  negb ((lifecycle before !== DeletionPrepared)
        || (lifecycle after !== DeletionPrepared)
        || is_some (key_erasure_preparation before)
        || (key_erasure_preparation after !== deletion_preparation before)
        || (identity after !== identity before)
        || (deletion_requested after !== deletion_requested before)
        || (deletion_preparation after !== deletion_preparation before)
        || (head after !== head before)
        || (checkpoints after !== checkpoints before)
        || (holds after !== holds before)).

Definition is_exact_key_erasure_prepared_successor_of (self previous : BackupArchiveStateV1) : bool :=
  exact_successor key_erasure_prepared_edge self previous.

Section Digests.
Context {SHA : Sha256}.

Definition checkpoint_digest (c : WalArchiveCheckpoint) : Digest :=
  digest_of (checkpoint_canonical_bytes c).

Definition commit_checkpoint (a : BackupArchiveStateV1) (r : ArchiveAppendReservation)
  (c : WalArchiveCheckpoint) : result BackupArchiveError BackupArchiveStateV1 :=
  current ← get_set a (reservation_set_id r);
  if (lifecycle current !== Streaming) || (head current !== reservation_expected r)
  then Err ArchiveHeadMismatch
  else if checkpoint_object c !== reservation_object r then Err ArchiveHeadMismatch
  else
    _ ← validate_append_kind current (checkpoint_object c);
    Ok (update_set (reservation_set_id r)
          (fun s => set_chain (mkHead (checkpoint_ord c) (checkpoint_digest c)) (checkpoints s ++ [c]) s) a).

Definition checkpoint_edge (id : BackupSetId) (before after : BackupSetState) : bool :=
  negb ((identity after !== identity before)
        || (lifecycle after !== Streaming)
        || (deletion_requested after !== deletion_requested before)
        || (deletion_preparation after !== deletion_preparation before)
        || (key_erasure_preparation after !== key_erasure_preparation before)
        || (holds after !== holds before)
        || negb (length (checkpoints after) =? length (checkpoints before) + 1)%nat
        || negb (starts_with (checkpoints after) (checkpoints before)))
  && match last (checkpoints after) with
     | None => false
     | Some c =>
         negb ((checkpoint_set c !== id)
               || negb (is_ok (validate_append_kind before (checkpoint_object c)))
               || negb (checkpoint_ord c
                        =? default u64_max (checked_add u64_max (checkpoint_ordinal (head before)) 1))%Z
               || (predecessor_head_digest (to_input (checkpoint_object c)) !== head_digest (head before))
               || (head after !== mkHead (checkpoint_ord c) (checkpoint_digest c)))
     end.

Definition is_exact_checkpoint_successor_of (self previous : BackupArchiveStateV1) : bool :=
  exact_successor checkpoint_edge self previous.

(** ** The canonical encoding *)

Definition opt_digest_bytes (o : option Digest) : bytes :=
  bool_byte (is_some o) ++ default [] o.

Definition hold_bytes (h : RestoreHold) : bytes :=
  uuid_bytes (hold_id h) ++ bool_byte (is_some (release_reason h)) ++
  match release_reason h with Some r => reason_encode r | None => [] end.

Definition set_bytes (s : BackupSetState) : bytes :=
  uuid_bytes (identity_set_id (identity s)) ++
  uuid_bytes (identity_installation_id (identity s)) ++
  uuid_bytes (identity_generation_id (identity s)) ++
  u8_bytes (lifecycle_code (lifecycle s)) ++
  bool_byte (deletion_requested s) ++
  opt_digest_bytes (deletion_preparation s) ++
  opt_digest_bytes (key_erasure_preparation s) ++
  u64_bytes (checkpoint_ordinal (head s)) ++
  head_digest (head s) ++
  u64_bytes (Z.of_nat (length (checkpoints s))) ++
  concat (map (fun c => field (checkpoint_canonical_bytes c)) (checkpoints s)) ++
  u64_bytes (BTree.len (holds s)) ++
  concat (map hold_bytes (BTree.values (holds s))).

Definition archive_canonical_bytes (a : BackupArchiveStateV1) : bytes :=
  u8_bytes ARCHIVE_STATE_VERSION ++
  u64_bytes (BTree.len (sets a)) ++
  concat (map set_bytes (BTree.values (sets a))).

Definition dec_opt_digest : Dec BackupArchiveError (option Digest) :=
  b ← dec_bool;
  if (b : bool) then d ← dec_digest_raw; mret (Some d) else mret None.

(** One iteration of the checkpoint loop; the state is the vector and [previous_ordinal]. *)
Definition dec_checkpoint_step (sid : BackupSetId) (st : list WalArchiveCheckpoint * Z)
  : Dec BackupArchiveError (list WalArchiveCheckpoint * Z) :=
  content ← dec_field;
  c ← lift (run (c ← checkpoint_decode; dec_finish;; mret c) content);
  if (checkpoint_set c !== sid) || (checkpoint_ord c <=? st.2)%Z
  then lift (Err Malformed)
  else mret (st.1 ++ [c], checkpoint_ord c).

(** The consistency checks between a set's fields. *)
Definition check_set (l : BackupSetLifecycle) (dp kp : option Digest) (h : ArchiveHead)
  (cs : list WalArchiveCheckpoint) : result BackupArchiveError unit :=
  let is_base c := checkpoint_kind c == BaseChunk in
  if match cs with
     | first :: rest =>
         (is_base first && negb (checkpoint_ord first =? 1)%Z)
         || any is_base rest
         || (negb (is_base first) && any is_base cs)
     | [] => false
     end
  then Err Malformed
  else if match last cs with
          | Some c => negb (checkpoint_ordinal h =? checkpoint_ord c)%Z
                      || (head_digest h !== checkpoint_digest c)
          | None => false
          end
  then Err Malformed
  else if (cs == []) && negb (checkpoint_ordinal h =? 0)%Z then Err Malformed
  else if xorb (match l with DeletionPrepared | ArchiveKeyErased | Deleted => true | _ => false end)
               (is_some dp)
  then Err Malformed
  else if is_some kp && (kp !== dp) then Err Malformed
  else if (match l with ArchiveKeyErased | Deleted => true | _ => false end) && is_none kp
  then Err Malformed
  else Ok tt.

Definition dec_hold_step (hs : btree RestoreHold) : Dec BackupArchiveError (btree RestoreHold) :=
  hid ← dec_uuid_raw;
  b ← dec_bool;
  reason ← (if (b : bool) then r ← reason_decode; mret (Some r) else mret None);
  if BTree.contains_key hs hid then lift (Err Malformed)
  else mret (BTree.insert hid (mkHold hid reason) hs).

Definition dec_set_step (m : btree BackupSetState) : Dec BackupArchiveError (btree BackupSetState) :=
  sid ← dec_uuid_raw;
  iid ← dec_uuid_raw;
  gid ← dec_uuid_raw;
  code ← dec_u8;
  l ← lift (lifecycle_from_code code);
  dr ← dec_bool;
  dp ← dec_opt_digest;
  kp ← dec_opt_digest;
  ho ← dec_u64;
  hd ← dec_digest_raw;
  n ← dec_usize;
  st ← dec_for n (dec_checkpoint_step sid) ([], 0%Z);
  _ ← lift (check_set l dp kp (mkHead ho hd) st.1);
  k ← dec_usize;
  hs ← dec_for k dec_hold_step [];
  if BTree.contains_key m sid then lift (Err Malformed)
  else mret (BTree.insert sid (mkSetState (mkIdentity sid iid gid) l dr dp kp (mkHead ho hd) st.1 hs) m).

Definition archive_decode : Dec BackupArchiveError BackupArchiveStateV1 :=
  v ← dec_u8;
  if negb (v =? ARCHIVE_STATE_VERSION)%Z then lift (Err Malformed)
  else
    n ← dec_usize;
    m ← dec_for n dec_set_step [];
    dec_finish;;
    mret (mkArchive m).

Definition archive_from_canonical_bytes (b : bytes) : result BackupArchiveError BackupArchiveStateV1 :=
  if b == [] then Ok archive_empty else run archive_decode b.

End Digests.
