(* ===== verification/BackupArchiveProps.v ===== *)
(** * Properties of the backup archive state

    Well-formedness, the round trip of the canonical encoding and soundness of its decoder,
    preservation by every operation, the step relation of the operations with its safety
    invariants, and the relation between operations and the witness's exact-successor
    predicates. *)

From Stdlib Require Import ZArith Lia String Strings.Byte.
From stdpp Require Import base option numbers sorting sets list.
From S2P Require Import Prelude BTree Codec Crypto BackupArchive.

(** ** Well-formed values: machine widths, and what the constructors and the decoder enforce *)

Record input_wf (i : ArchiveObjectDescriptorInput) : Prop := {
  iw_set : valid_uuid (set_id i);
  iw_object : valid_uuid (object_id i);
  iw_ordinal : in_range u64_max (ordinal i);
  iw_timeline : in_range u32_max (timeline i);
  iw_start : in_range u64_max (start_lsn i);
  iw_end : in_range u64_max (end_lsn i);
  iw_cipher : valid_digest (ciphertext_digest i);
  iw_plain : valid_digest (plaintext_digest i);
  iw_length : in_range u64_max (object_length i);
  iw_pred : valid_digest (predecessor_head_digest i);
}.

(** A descriptor only exists through [ArchiveObjectDescriptor::new]. *)
Definition descriptor_wf (o : ArchiveObjectDescriptor) : Prop :=
  input_wf (to_input o) /\ descriptor_new (to_input o) = Ok o.

Definition checkpoint_wf (c : WalArchiveCheckpoint) : Prop := descriptor_wf (checkpoint_object c).

Definition reason_wf (r : RestoreHoldReleaseReason) : Prop := valid_digest (reason_receipt r).

Definition hold_wf (k : RestoreHoldId) (h : RestoreHold) : Prop :=
  k = hold_id h /\ valid_uuid (hold_id h) /\
  match release_reason h with Some r => reason_wf r | None => True end.

Definition opt_digest_wf (o : option Digest) : Prop :=
  match o with Some d => valid_digest d | None => True end.

Fixpoint ordinals_above (n : Z) (cs : list WalArchiveCheckpoint) : Prop :=
  match cs with
  | [] => True
  | c :: cs' => (n < checkpoint_ord c)%Z /\ ordinals_above (checkpoint_ord c) cs'
  end.

Section Wf.
Context {SHA : Sha256}.

Record set_wf (k : BackupSetId) (s : BackupSetState) : Prop := {
  sw_key : k = identity_set_id (identity s);
  sw_set : valid_uuid (identity_set_id (identity s));
  sw_installation : valid_uuid (identity_installation_id (identity s));
  sw_generation : valid_uuid (identity_generation_id (identity s));
  sw_deletion : opt_digest_wf (deletion_preparation s);
  sw_erasure : opt_digest_wf (key_erasure_preparation s);
  sw_ordinal : in_range u64_max (checkpoint_ordinal (head s));
  sw_digest : valid_digest (head_digest (head s));
  sw_checkpoints : Forall checkpoint_wf (checkpoints s);
  sw_sets : Forall (fun c => checkpoint_set c = k) (checkpoints s);
  sw_ordinals : ordinals_above 0 (checkpoints s);
  sw_check : check_set (lifecycle s) (deletion_preparation s) (key_erasure_preparation s)
               (head s) (checkpoints s) = Ok tt;
  sw_holds_ordered : BTree.ordered (holds s);
  sw_holds : Forall (fun '(k, h) => hold_wf k h) (holds s);
}.

Definition archive_wf (a : BackupArchiveStateV1) : Prop :=
  BTree.ordered (sets a) /\ Forall (fun '(k, s) => set_wf k s) (sets a).

End Wf.

(** ** Decoding what was encoded *)

Lemma lifecycle_code_roundtrip l : lifecycle_from_code (lifecycle_code l) = Ok l.
Proof. by destruct l. Qed.

Lemma kind_code_roundtrip k : kind_from_code (kind_code k) = Ok k.
Proof. by destruct k. Qed.

Lemma reason_code_roundtrip r : reason_of_code (reason_code r) (reason_receipt r) = Ok r.
Proof. by destruct r. Qed.

Lemma code_u8 l : in_range u8_max (lifecycle_code l).
Proof. by destruct l. Qed.

Lemma kind_u8 k : in_range u8_max (kind_code k).
Proof. by destruct k. Qed.

Lemma reason_u8 r : in_range u8_max (reason_code r).
Proof. by destruct r. Qed.

#[export] Hint Resolve code_u8 kind_u8 reason_u8 : vestrace.
#[export] Hint Resolve iw_set iw_object iw_ordinal iw_timeline iw_start iw_end iw_cipher iw_plain
  iw_length iw_pred : vestrace.

Lemma parses_descriptor rest o : descriptor_wf o -> parses rest descriptor_decode (descriptor_encode o) o.
Proof.
  intros [Hw Hn]. destruct o as [i]. unfold descriptor_decode, descriptor_encode. simpl to_input in *.
  do 3 parse_step. eapply parses_bind_r; [apply parses_lift, kind_code_roundtrip|].
  do 7 parse_step. eapply parses_bind_l; [solve [eauto with vestrace]|].
  apply parses_lift. by destruct i.
Qed.

Lemma parses_checkpoint rest c :
  checkpoint_wf c -> parses rest checkpoint_decode (checkpoint_canonical_bytes c) c.
Proof.
  intros Hw. unfold checkpoint_decode, checkpoint_canonical_bytes. parse_step.
  eapply parses_bind_l; [by apply parses_descriptor|]. destruct c. apply parses_ret.
Qed.

Lemma parses_reason rest r : reason_wf r -> parses rest reason_decode (reason_encode r) r.
Proof.
  intros Hw. unfold reason_decode, reason_encode. parse_step.
  eapply parses_bind_l; [by apply parses_digest_raw|]. apply parses_lift, reason_code_roundtrip.
Qed.

Lemma parses_opt_digest rest o :
  opt_digest_wf o -> parses rest dec_opt_digest (opt_digest_bytes o) o.
Proof.
  intros Hw. unfold dec_opt_digest, opt_digest_bytes. parse_step. destruct o as [d|]; simpl.
  - eapply parses_bind_l; [by apply parses_digest_raw|apply parses_ret].
  - apply parses_ret.
Qed.

(** Rebuilding a map from the values of an ordered one, in order. *)
Section Rebuild.
Context {E V : Type} (key : V -> Z) (enc : V -> bytes) (step : btree V -> Dec E (btree V)).
Context (P : Z -> V -> Prop) (key_P : forall k v, P k v -> k = key v).

Lemma rebuild_fold (acc m : btree V) :
  Forall (fun '(k, v) => P k v) m -> BTree.ordered (acc ++ m) ->
  fold_left (fun acc v => BTree.insert (key v) v acc) (BTree.values m) acc = acc ++ m.
Proof.
  revert acc. induction m as [|[k v] m IH]; intros acc HF Ho; simpl; [by rewrite app_nil_r|].
  apply Forall_cons in HF as [Hk HF]. apply key_P in Hk as ->.
  pose proof (BTree.ordered_app_inv _ _ Ho) as (_ & _ & Hlt). apply Forall_cons in Hlt as [Hlt _].
  rewrite BTree.insert_snoc by done. rewrite IH; [by rewrite <-app_assoc|done|].
  by rewrite <-app_assoc.
Qed.

Lemma rebuild_loop rest (acc m : btree V) :
  (forall rest acc k v, P k v -> BTree.get acc (key v) = None ->
     parses rest (step acc) (enc v) (BTree.insert (key v) v acc)) ->
  Forall (fun '(k, v) => P k v) m -> BTree.ordered (acc ++ m) ->
  loop_parses step (fun acc v => BTree.insert (key v) v acc) enc rest acc (BTree.values m).
Proof.
  intros Hstep. revert acc. induction m as [|[k v] m IH]; intros acc HF Ho; simpl; [done|].
  apply Forall_cons in HF as [Hk HF]. pose proof (key_P _ _ Hk) as ->.
  pose proof (BTree.ordered_app_inv _ _ Ho) as (_ & _ & Hlt). apply Forall_cons in Hlt as [Hlt _].
  split.
  - eapply Hstep; [done|]. apply BTree.get_None_keys. intros Hin.
    rewrite Forall_forall in Hlt. apply Hlt in Hin. simpl in Hin. lia.
  - rewrite BTree.insert_snoc by done. apply IH; [done|]. by rewrite <-app_assoc.
Qed.

Lemma rebuild_parses rest (m : btree V) :
  (forall rest acc k v, P k v -> BTree.get acc (key v) = None ->
     parses rest (step acc) (enc v) (BTree.insert (key v) v acc)) ->
  Forall (fun '(k, v) => P k v) m -> BTree.ordered m ->
  parses rest (dec_for (BTree.len m) step []) (concat (map enc (BTree.values m))) m.
Proof.
  intros Hstep HF Ho.
  assert (fold_left (fun acc v => BTree.insert (key v) v acc) (BTree.values m) [] = m) as Hfold
    by (by rewrite (rebuild_fold [] m)).
  rewrite <-Hfold at 3.
  replace (BTree.len m) with (Z.of_nat (length (BTree.values m)))
    by (unfold BTree.len, BTree.values; by rewrite length_fmap).
  apply parses_for. by apply rebuild_loop.
Qed.
End Rebuild.

Section Roundtrip.
Context {SHA : Sha256}.

Lemma parses_hold_step rest acc k h :
  hold_wf k h -> BTree.get acc (hold_id h) = None ->
  parses rest (dec_hold_step acc) (hold_bytes h) (BTree.insert (hold_id h) h acc).
Proof.
  intros (_ & Hid & Hr) Hg. unfold dec_hold_step, hold_bytes. do 2 parse_step.
  assert (BTree.contains_key acc (hold_id h) = false) as Hc
    by (unfold BTree.contains_key; by rewrite Hg).
  eapply (parses_bind_l _ _ _ _ (release_reason h)).
  - destruct (release_reason h) as [r|]; simpl; [|apply parses_ret].
    eapply parses_bind_l; [by apply parses_reason|apply parses_ret].
  - rewrite Hc. destruct h. apply parses_ret.
Qed.

Lemma parses_checkpoint_step rest sid cs n c :
  checkpoint_wf c -> checkpoint_set c = sid -> (n < checkpoint_ord c)%Z ->
  parses rest (dec_checkpoint_step sid (cs, n)) (field (checkpoint_canonical_bytes c))
    (cs ++ [c], checkpoint_ord c).
Proof.
  intros Hw Hs Hn. unfold dec_checkpoint_step. rewrite <-(app_nil_r (field _)).
  eapply parses_field_bind.
  - intros Hl. apply run_parses; [|done]. eapply parses_bind_l; [by apply parses_checkpoint|].
    eapply parses_bind_l; [apply parses_finish|]. apply parses_ret.
  - rewrite Hs, eqb_refl, (proj2 (Z.leb_gt _ _)) by done. apply parses_ret.
Qed.

Lemma parses_checkpoints rest sid n cs0 cs :
  Forall checkpoint_wf cs -> Forall (fun c => checkpoint_set c = sid) cs -> ordinals_above n cs ->
  exists m, parses rest (dec_for (Z.of_nat (length cs)) (dec_checkpoint_step sid) (cs0, n))
    (concat (map (fun c => field (checkpoint_canonical_bytes c)) cs)) (cs0 ++ cs, m).
Proof.
  intros Hw Hs Ho.
  set (f := fun (st : list WalArchiveCheckpoint * Z) c => (st.1 ++ [c], checkpoint_ord c)).
  exists (fold_left f cs (cs0, n)).2.
  assert (forall st, fold_left f cs st = (st.1 ++ cs, (fold_left f cs st).2)) as Hf.
  { clear. induction cs as [|c cs IH]; intros [cs0 n]; simpl; [by rewrite app_nil_r|].
    rewrite IH. simpl. by rewrite <-app_assoc. }
  pose proof (Hf (cs0, n)) as Hc. simpl in Hc. rewrite <-Hc. clear Hc. apply parses_for. clear Hf. revert cs0 n Ho.
  induction cs as [|c cs IH]; intros cs0 n Ho; simpl; [done|].
  apply Forall_cons in Hw as [? ?]. apply Forall_cons in Hs as [? ?]. destruct Ho as [? ?].
  split; [by apply parses_checkpoint_step|]. by apply IH.
Qed.

(** Counts written [as u64] are exact when the encoding fits in memory. *)
Lemma length_le_concat {A} (enc : A -> bytes) (l : list A) :
  (forall a, enc a <> []) -> (length l <= length (concat (map enc l)))%nat.
Proof.
  intros He. induction l as [|a l IH]; simpl; [done|]. rewrite length_app.
  specialize (He a). destruct (enc a); [done|]. simpl. lia.
Qed.

Lemma app_not_nil_l {A} (l1 l2 : list A) : l1 <> [] -> l1 ++ l2 <> [].
Proof. by destruct l1. Qed.

Lemma set_bytes_counts s :
  (len (set_bytes s) <= usize_max)%Z ->
  in_range u64_max (Z.of_nat (length (checkpoints s))) /\ in_range u64_max (BTree.len (holds s)).
Proof.
  unfold set_bytes. intros Hl. rewrite !len_app in Hl.
  pose proof (length_le_concat (fun c => field (checkpoint_canonical_bytes c)) (checkpoints s)
    ltac:(intros; by apply app_not_nil_l)) as H1.
  pose proof (length_le_concat hold_bytes (BTree.values (holds s))
    ltac:(intros; by apply app_not_nil_l)) as H2.
  unfold BTree.values in H2. rewrite length_fmap in H2.
  unfold in_range, BTree.len, usize_max in *. fold (BTree.values (holds s)) in H2.
  unfold len in Hl. lia.
Qed.

Lemma parses_set_step rest acc k s :
  set_wf k s -> (len (set_bytes s) <= usize_max)%Z -> BTree.get acc (identity_set_id (identity s)) = None ->
  parses rest (dec_set_step acc) (set_bytes s) (BTree.insert (identity_set_id (identity s)) s acc).
Proof.
  intros Hw Hl Hg. apply set_bytes_counts in Hl as [Hc Hh]. destruct Hw.
  destruct s as [[sid iid gid] l dr dp kp [ho hd] cs hs]. simpl in *. subst k.
  unfold dec_set_step, set_bytes.
  cbn [identity identity_set_id identity_installation_id identity_generation_id lifecycle
    deletion_requested deletion_preparation key_erasure_preparation head checkpoint_ordinal
    head_digest checkpoints holds].
  do 4 parse_step. eapply parses_bind_r; [apply parses_lift, lifecycle_code_roundtrip|].
  parse_step.
  eapply parses_bind; [by apply parses_opt_digest|].
  eapply parses_bind; [by apply parses_opt_digest|].
  do 3 parse_step.
  edestruct (parses_checkpoints (u64_bytes (BTree.len hs) ++ concat (map hold_bytes (BTree.values hs)) ++ rest)
    sid 0 [] cs) as [m Hm]; [done..|].
  eapply parses_bind; [rewrite <-app_assoc; exact Hm|]. cbn [fst snd app].
  eapply parses_bind_r; [by apply parses_lift|].
  parse_step. eapply parses_bind_l.
  - apply (rebuild_parses hold_id hold_bytes dec_hold_step hold_wf); [|apply parses_hold_step|done..].
    by intros ?? [-> _].
  - unfold BTree.contains_key. rewrite Hg. apply parses_ret.
Qed.

Lemma len_concat_elem {A} (enc : A -> bytes) (l : list A) a :
  a ∈ l -> (len (enc a) <= len (concat (map enc l)))%Z.
Proof.
  induction 1 as [a l|a b l _ IH]; simpl; rewrite len_app;
    [pose proof (len_nonneg (concat (map enc l)))|pose proof (len_nonneg (enc b))]; lia.
Qed.

Lemma parses_archive a :
  archive_wf a -> (len (archive_canonical_bytes a) <= usize_max)%Z ->
  parses [] archive_decode (archive_canonical_bytes a) a.
Proof.
  intros [Ho HF] Hl. unfold archive_canonical_bytes in *. rewrite !len_app in Hl.
  pose proof (len_nonneg (u8_bytes ARCHIVE_STATE_VERSION)) as Hl1.
  pose proof (len_nonneg (u64_bytes (BTree.len (sets a)))) as Hl2.
  assert (in_range u64_max (BTree.len (sets a))) as Hr.
  { pose proof (length_le_concat set_bytes (BTree.values (sets a))
      ltac:(intros; by apply app_not_nil_l)) as H1.
    unfold BTree.values in H1 at 1. rewrite length_fmap in H1.
    unfold in_range, BTree.len, usize_max in *. unfold len in Hl at 3. lia. }
  unfold archive_decode. eapply parses_bind; [by apply parses_u8|]. cbv beta.
  rewrite Z.eqb_refl. simpl negb. cbv iota. parse_step.
  eapply parses_bind_l.
  - apply (rebuild_parses (fun s => identity_set_id (identity s)) set_bytes dec_set_step
      (fun k s => set_wf k s /\ (len (set_bytes s) <= usize_max)%Z)); [|..|done].
    + intros k s [Hw _]. apply Hw.
    + intros rest acc k s [Hw Hb] Hg. by eapply parses_set_step.
    + rewrite Forall_forall in HF |- *. intros [k s] Hin. split; [by apply (HF (k, s))|].
      enough (len (set_bytes s) <= len (concat (map set_bytes (BTree.values (sets a)))))%Z by lia.
      apply len_concat_elem. unfold BTree.values.
      change s with ((k, s).2). by apply list_elem_of_fmap_2.
  - eapply parses_bind_l; [apply parses_finish|]. destruct a. apply parses_ret.
Qed.

Lemma archive_bytes_nonempty a : archive_canonical_bytes a <> [].
Proof. done. Qed.

Lemma archive_roundtrip_raw a :
  archive_wf a -> (len (archive_canonical_bytes a) <= usize_max)%Z ->
  archive_from_canonical_bytes (archive_canonical_bytes a) = Ok a.
Proof.
  intros Hw Hl. unfold archive_from_canonical_bytes.
  rewrite (proj2 (eqb_false _ _) (archive_bytes_nonempty a)).
  apply run_parses; [by apply parses_archive|done].
Qed.

End Roundtrip.

(** ** What the decoder accepts *)

Lemma ordinals_above_snoc n cs c :
  ordinals_above n cs -> (default n (checkpoint_ord <$> last cs) < checkpoint_ord c)%Z ->
  ordinals_above n (cs ++ [c]).
Proof.
  revert n. induction cs as [|c' cs IH]; intros n; simpl; [naive_solver|].
  intros [? ?] Hl. split; [done|]. apply IH; [done|].
  destruct cs as [|c2 cs]; [done|]. rewrite last_cons_cons in Hl.
  destruct (last (c2 :: cs)) eqn:Hn; [done|]. by apply last_None in Hn.
Qed.

Section Sound.
Context {SHA : Sha256}.

Lemma yields_descriptor : yields descriptor_decode descriptor_wf.
Proof.
  unfold descriptor_decode.
  repeat (eapply yields_bind; [solve [eauto with vestrace]|]; intros ? ?).
  apply yields_lift. intros o Ho. unfold descriptor_new in Ho.
  split_match_in Ho. simplify_eq. split; [done|]. unfold descriptor_new. simpl in *. by case_match.
Qed.

Lemma yields_checkpoint : yields (c ← checkpoint_decode; dec_finish;; mret c) checkpoint_wf.
Proof.
  eapply (yields_bind _ _ checkpoint_wf).
  - unfold checkpoint_decode. eapply yields_bind; [apply yields_any|]. intros _ _.
    eapply yields_bind; [apply yields_descriptor|]. intros o Ho. by apply yields_ret.
  - intros c Hc. eapply yields_bind; [apply yields_any|]. intros _ _. by apply yields_ret.
Qed.

Lemma yields_opt_digest : yields dec_opt_digest opt_digest_wf.
Proof.
  unfold dec_opt_digest. eapply yields_bind; [apply yields_any|]. intros [] _; [|by apply yields_ret].
  eapply yields_bind; [apply yields_digest_raw|]. intros d Hd. by apply yields_ret.
Qed.

Lemma yields_reason : yields reason_decode reason_wf.
Proof.
  unfold reason_decode. eapply yields_bind; [apply yields_any|]. intros k _.
  eapply yields_bind; [apply yields_digest_raw|]. intros d Hd. apply yields_lift.
  unfold reason_of_code. intros r Hr. repeat case_match; by simplify_eq.
Qed.

Definition checkpoints_ok (sid : BackupSetId) (st : list WalArchiveCheckpoint * Z) : Prop :=
  Forall checkpoint_wf st.1 /\ Forall (fun c => checkpoint_set c = sid) st.1 /\
  ordinals_above 0 st.1 /\ st.2 = default 0%Z (checkpoint_ord <$> last st.1).

Lemma yields_checkpoint_step sid st :
  checkpoints_ok sid st -> yields (dec_checkpoint_step sid st) (checkpoints_ok sid).
Proof.
  intros (H1 & H2 & H3 & H4). unfold dec_checkpoint_step.
  eapply yields_bind; [apply yields_any|]. intros b _.
  eapply (yields_bind _ _ checkpoint_wf).
  { apply yields_lift. intros c Hc. eapply run_yields; [apply yields_checkpoint|done]. }
  intros c Hc. case_match; [apply yields_lift; done|]. bool_hyps. apply yields_ret.
  repeat split; simpl.
  - apply Forall_app. auto.
  - apply Forall_app. auto.
  - apply ordinals_above_snoc; [done|]. by rewrite <-H4.
  - by rewrite last_snoc.
Qed.

Definition holds_ok (hs : btree RestoreHold) : Prop :=
  BTree.ordered hs /\ Forall (fun '(k, h) => hold_wf k h) hs.

Lemma yields_hold_step hs : holds_ok hs -> yields (dec_hold_step hs) holds_ok.
Proof.
  intros [Ho HF]. unfold dec_hold_step.
  eapply yields_bind; [apply yields_uuid_raw|]. intros hid Hid.
  eapply yields_bind; [apply yields_any|]. intros b _.
  eapply (yields_bind _ _ (fun o => match o with Some r => reason_wf r | None => True end)).
  { destruct b; [|by apply yields_ret].
    eapply yields_bind; [apply yields_reason|]. intros r Hr. by apply yields_ret. }
  intros o Hr. destruct (BTree.contains_key hs hid); [by apply yields_lift|]. apply yields_ret.
  split; [by apply BTree.ordered_insert|]. by apply BTree.Forall_insert.
Qed.

Definition sets_ok (m : btree BackupSetState) : Prop := archive_wf (mkArchive m).

Lemma yields_set_step m : sets_ok m -> yields (dec_set_step m) sets_ok.
Proof.
  intros [Ho HF]. unfold dec_set_step.
  do 3 (eapply yields_bind; [apply yields_uuid_raw|]; intros ? ?).
  do 3 (eapply yields_bind; [apply yields_any|]; intros ? _).
  do 2 (eapply yields_bind; [apply yields_opt_digest|]; intros ? ?).
  eapply yields_bind; [apply yields_u64|]; intros ? ?.
  eapply yields_bind; [apply yields_digest_raw|]; intros ? ?.
  eapply yields_bind; [apply yields_any|]; intros ? _.
  eapply yields_bind.
  { apply (yields_for (checkpoints_ok a)); [apply yields_checkpoint_step|]. repeat split; constructor. }
  intros st (? & ? & ? & ?).
  eapply yields_bind; [apply yields_lift; intros ? Hc; exact Hc|]. simpl. intros [] Hc.
  eapply yields_bind; [apply yields_any|]; intros ? _.
  eapply yields_bind.
  { apply (yields_for holds_ok); [apply yields_hold_step|]. split; constructor. }
  intros hs [? ?]. case_match; [by apply yields_lift|]. apply yields_ret.
  split; simpl; [by apply BTree.ordered_insert|]. by apply BTree.Forall_insert.
Qed.

Lemma archive_decode_wf b a : archive_from_canonical_bytes b = Ok a -> archive_wf a.
Proof.
  unfold archive_from_canonical_bytes. case_match.
  { intros ?. simplify_eq. split; constructor. }
  intros Hr. eapply run_yields; [|done]. unfold archive_decode.
  eapply yields_bind; [apply yields_any|]. intros v _. case_match; [by apply yields_lift|].
  eapply yields_bind; [apply yields_any|]. intros n _.
  eapply yields_bind; [apply (yields_for sets_ok); [apply yields_set_step|split; constructor]|].
  intros m Hm. eapply yields_bind; [apply yields_any|]. intros _ _. by apply yields_ret.
Qed.

End Sound.

(** ** The operations as a transition system *)

Inductive ArchiveOp : Type :=
| OpStart | OpCheckpoint | OpHold | OpRelease | OpSealing | OpSealed
| OpDeletionPrepared | OpErasurePrepared | OpKeyErased | OpDeleted.

#[export] Instance ArchiveOp_eq_dec : EqDecision ArchiveOp.
Proof. solve_decision. Defined.

Definition deletion_stage (l : BackupSetLifecycle) : bool :=
  match l with DeletionPrepared | ArchiveKeyErased | Deleted => true | _ => false end.

Definition erased_stage (l : BackupSetLifecycle) : bool :=
  match l with ArchiveKeyErased | Deleted => true | _ => false end.

Definition lifecycle_rank (l : BackupSetLifecycle) : Z := lifecycle_code l.

Section Steps.
Context {SHA : Sha256}.

(** One call of the public interface with well-formed arguments.  A set may start at any
    head; a checkpoint is committed under a reservation made for the same object. *)
Inductive archive_step (a : BackupArchiveStateV1) : ArchiveOp -> BackupSetId -> BackupArchiveStateV1 -> Prop :=
| step_start sid iid gid h a' :
    valid_uuid sid -> valid_uuid iid -> valid_uuid gid -> in_range u64_max (checkpoint_ordinal h) ->
    valid_digest (head_digest h) -> start_streaming a (mkIdentity sid iid gid) h = Ok a' ->
    archive_step a OpStart sid a'
| step_checkpoint set expected object r a' :
    descriptor_wf object -> reservation_new set expected object = Ok r ->
    commit_checkpoint a r (checkpoint_from_reservation r) = Ok a' ->
    archive_step a OpCheckpoint set a'
| step_hold set hid a' :
    valid_uuid hid -> acquire_restore_hold a set hid = Ok a' -> archive_step a OpHold set a'
| step_release set hid reason a' :
    reason_wf reason -> release_restore_hold a set hid reason = Ok a' -> archive_step a OpRelease set a'
| step_sealing set a' : begin_sealing a set = Ok a' -> archive_step a OpSealing set a'
| step_sealed set a' : commit_sealed a set = Ok a' -> archive_step a OpSealed set a'
| step_deletion set d a' :
    valid_digest d -> prepare_deletion a set d = Ok a' -> archive_step a OpDeletionPrepared set a'
| step_erasure set d a' :
    prepare_archive_key_erasure a set d = Ok a' -> archive_step a OpErasurePrepared set a'
| step_key_erased set a' : record_archive_key_erased a set = Ok a' -> archive_step a OpKeyErased set a'
| step_deleted set a' : finalize_deleted a set = Ok a' -> archive_step a OpDeleted set a'.

Inductive archive_reachable : BackupArchiveStateV1 -> Prop :=
| reach_empty : archive_reachable archive_empty
| reach_step a op set a' : archive_reachable a -> archive_step a op set a' -> archive_reachable a'.

(** What one operation does to the set it names: the per-set edge under [archive_step]. *)
Inductive set_edge (set : BackupSetId) (s : BackupSetState) : ArchiveOp -> BackupSetState -> Prop :=
| edge_checkpoint c :
    checkpoint_wf c -> lifecycle s = Streaming -> checkpoint_set c = set ->
    validate_append_kind s (checkpoint_object c) = Ok tt ->
    checkpoint_ord c = (checkpoint_ordinal (head s) + 1)%Z ->
    (checkpoint_ord c <= u64_max)%Z ->
    predecessor_head_digest (to_input (checkpoint_object c)) = head_digest (head s) ->
    set_edge set s OpCheckpoint
      (set_chain (mkHead (checkpoint_ord c) (checkpoint_digest c)) (checkpoints s ++ [c]) s)
| edge_hold hid :
    valid_uuid hid -> lifecycle s = Streaming -> has_base_checkpoint s = true ->
    BTree.get (holds s) hid = None ->
    set_edge set s OpHold (set_holds (BTree.insert hid (mkHold hid None) (holds s)) s)
| edge_release hid h reason :
    reason_wf reason -> BTree.get (holds s) hid = Some h -> release_reason h = None ->
    set_edge set s OpRelease
      (set_holds (BTree.update hid (fun h => mkHold (hold_id h) (Some reason)) (holds s)) s)
| edge_sealing :
    lifecycle s = Streaming -> has_base_checkpoint s = true -> any_active_hold s = false ->
    set_edge set s OpSealing (set_lifecycle Sealing s)
| edge_sealed :
    lifecycle s = Sealing -> any_active_hold s = false -> set_edge set s OpSealed (set_lifecycle Sealed s)
| edge_deletion d :
    valid_digest d -> lifecycle s = Sealed -> any_active_hold s = false ->
    set_edge set s OpDeletionPrepared
      (set_deletion_preparation (Some d) (set_lifecycle DeletionPrepared s))
| edge_erasure d :
    lifecycle s = DeletionPrepared -> deletion_preparation s = Some d -> key_erasure_preparation s = None ->
    set_edge set s OpErasurePrepared (set_key_erasure_preparation (Some d) s)
| edge_key_erased d :
    lifecycle s = DeletionPrepared -> deletion_preparation s = Some d -> key_erasure_preparation s = Some d ->
    set_edge set s OpKeyErased (set_lifecycle ArchiveKeyErased s)
| edge_deleted :
    lifecycle s = ArchiveKeyErased -> set_edge set s OpDeleted (set_lifecycle Deleted s).

Lemma get_set_Ok a set s : get_set a set = Ok s <-> BTree.get (sets a) set = Some s.
Proof. apply ok_or_Ok. Qed.

Lemma transition_from_Ok a set l1 l2 a' :
  transition_from a set l1 l2 = Ok a' <->
  exists s, BTree.get (sets a) set = Some s /\ lifecycle s = l1 /\
    a' = update_set set (set_lifecycle l2) a.
Proof.
  unfold transition_from, transition. rewrite bind_Ok. setoid_rewrite get_set_Ok. split.
  - intros (s & Hs & H). exists s. split_match_in H. bool_hyps. rewrite Hs in H. simpl in H.
    by simplify_eq.
  - intros (s & Hs & Hl & ->). exists s. split; [done|]. rewrite Hl, eqb_refl. simpl. by rewrite Hs.
Qed.

Lemma update_set_ext set f g a s :
  BTree.get (sets a) set = Some s -> f s = g s -> update_set set f a = update_set set g a.
Proof. intros. unfold update_set. f_equal. by eapply BTree.update_ext. Qed.

Lemma require_no_active_holds_Ok a set :
  require_no_active_holds a set = Ok tt <->
  exists s, BTree.get (sets a) set = Some s /\ any_active_hold s = false.
Proof.
  unfold require_no_active_holds. rewrite bind_Ok. setoid_rewrite get_set_Ok.
  split; intros (s & Hs & H); exists s; (split; [done|]); [by split_match_in H|by rewrite H].
Qed.

(** [a'] is [a] with one set moved along an edge. *)
Definition moves (a : BackupArchiveStateV1) (op : ArchiveOp) (set : BackupSetId) (a' : BackupArchiveStateV1) : Prop :=
  exists s s', BTree.get (sets a) set = Some s /\ set_edge set s op s' /\
    a' = update_set set (fun _ => s') a.

Lemma moves_intro a op set s f :
  BTree.get (sets a) set = Some s -> set_edge set s op (f s) -> moves a op set (update_set set f a).
Proof. intros Hg He. exists s, (f s). split; [done|]. split; [done|]. by eapply update_set_ext. Qed.

Lemma commit_checkpoint_moves a set expected object r a' :
  descriptor_wf object -> reservation_new set expected object = Ok r ->
  commit_checkpoint a r (checkpoint_from_reservation r) = Ok a' -> moves a OpCheckpoint set a'.
Proof.
  intros Hw Hr Hc. unfold reservation_new in Hr. split_match_in Hr. simplify_eq. bool_hyps.
  unfold ordinal_is_not_next in *. unfold commit_checkpoint in Hc. simpl in Hc.
  apply bind_Ok in Hc as (s & Hg%get_set_Ok & Hc). repeat split_match_in Hc. bool_hyps.
  apply bind_Ok in Hc as ([] & Hv & Hc). simplify_eq.
  destruct (checked_add _ _ _) eqn:Hn; [|done]. apply checked_add_Some in Hn as [-> ?]. bool_hyps.
  eapply (moves_intro _ _ _ s); [done|].
  apply (edge_checkpoint _ _ (mkCheckpoint object));
    unfold checkpoint_ord, checkpoint_set; simpl; try done; try congruence; lia.
Qed.

Lemma acquire_restore_hold_moves a set hid a' :
  valid_uuid hid -> acquire_restore_hold a set hid = Ok a' -> moves a OpHold set a'.
Proof.
  intros Hw H. unfold acquire_restore_hold in H. apply bind_Ok in H as (s & Hg%get_set_Ok & H).
  repeat split_match_in H. bool_hyps. simplify_eq. eapply moves_intro; [done|].
  apply edge_hold; try done. unfold BTree.contains_key in *. by apply is_some_false.
Qed.

Lemma release_restore_hold_moves a set hid reason a' :
  reason_wf reason -> release_restore_hold a set hid reason = Ok a' -> moves a OpRelease set a'.
Proof.
  intros Hw H. unfold release_restore_hold in H. apply bind_Ok in H as (s & Hg%ok_or_Ok & H).
  apply bind_Ok in H as (h & Hh%ok_or_Ok & H). repeat split_match_in H. bool_hyps. simplify_eq.
  eapply moves_intro; [done|]. eapply edge_release; try done.
  unfold hold_active in *. by apply is_none_true.
Qed.

Lemma begin_sealing_moves a set a' : begin_sealing a set = Ok a' -> moves a OpSealing set a'.
Proof.
  intros H. unfold begin_sealing in H. apply bind_Ok in H as (s & Hg%get_set_Ok & H).
  repeat split_match_in H. bool_hyps. unfold transition in H. rewrite Hg in H. simpl in H. simplify_eq.
  eapply moves_intro; [done|]. by apply edge_sealing.
Qed.

Lemma commit_sealed_moves a set a' : commit_sealed a set = Ok a' -> moves a OpSealed set a'.
Proof.
  intros H. unfold commit_sealed in H.
  apply bind_Ok in H as ([] & (s & Hg & Ha)%require_no_active_holds_Ok & H).
  apply transition_from_Ok in H as (s' & ? & ? & ->). simplify_eq.
  eapply moves_intro; [done|]. by apply edge_sealed.
Qed.

Lemma update_set_compose set f g a : update_set set f (update_set set g a) = update_set set (f ∘ g) a.
Proof. unfold update_set. simpl. by rewrite BTree.update_compose. Qed.

Lemma prepare_deletion_moves a set d a' :
  valid_digest d -> prepare_deletion a set d = Ok a' -> moves a OpDeletionPrepared set a'.
Proof.
  intros Hd H. unfold prepare_deletion in H.
  apply bind_Ok in H as ([] & (s & Hg & Ha)%require_no_active_holds_Ok & H).
  apply bind_Ok in H as (n & (s' & Hg' & Hl & ->)%transition_from_Ok & H). simplify_eq.
  apply bind_Ok in H as (? & _ & H). simplify_eq. rewrite update_set_compose.
  eapply moves_intro; [done|]. by apply edge_deletion.
Qed.

Lemma prepare_archive_key_erasure_moves a set d a' :
  prepare_archive_key_erasure a set d = Ok a' -> moves a OpErasurePrepared set a'.
Proof.
  intros H. unfold prepare_archive_key_erasure in H. apply bind_Ok in H as (s & Hg%get_set_Ok & H).
  repeat split_match_in H. bool_hyps. simplify_eq. eapply moves_intro; [done|].
  apply edge_erasure; try done; by apply is_some_false.
Qed.

Lemma record_archive_key_erased_moves a set a' :
  record_archive_key_erased a set = Ok a' -> moves a OpKeyErased set a'.
Proof.
  intros H. unfold record_archive_key_erased in H. apply bind_Ok in H as (s & Hg%get_set_Ok & H).
  split_match_in H. bool_hyps. apply transition_from_Ok in H as (s' & ? & ? & ->). simplify_eq.
  unfold is_none in *. bool_hyps.
  match goal with Hx : is_some _ = true |- _ => apply is_some_true in Hx as [d Hd] end.
  eapply moves_intro; [done|]. eapply (edge_key_erased _ _ d); congruence.
Qed.

Lemma finalize_deleted_moves a set a' : finalize_deleted a set = Ok a' -> moves a OpDeleted set a'.
Proof.
  intros H. unfold finalize_deleted in H. apply transition_from_Ok in H as (s & ? & ? & ->).
  eapply moves_intro; [done|]. by apply edge_deleted.
Qed.

(** Every operation other than a start changes exactly the named set, along its edge. *)
Lemma archive_step_moves a op set a' : archive_step a op set a' -> op <> OpStart -> moves a op set a'.
Proof.
  intros Hs Hne. destruct Hs; [done|..];
    eauto using commit_checkpoint_moves, acquire_restore_hold_moves, release_restore_hold_moves,
      begin_sealing_moves, commit_sealed_moves, prepare_deletion_moves,
      prepare_archive_key_erasure_moves, record_archive_key_erased_moves, finalize_deleted_moves.
Qed.

End Steps.

(** ** Operations preserve well-formedness *)

Definition base_first (cs : list WalArchiveCheckpoint) : Prop :=
  match cs with
  | [] => True
  | c :: cs' =>
      (checkpoint_kind c = BaseChunk -> checkpoint_ord c = 1%Z) /\
      Forall (fun c => checkpoint_kind c <> BaseChunk) cs'
  end.

Section Preservation.
Context {SHA : Sha256}.

Definition head_matches (h : ArchiveHead) (cs : list WalArchiveCheckpoint) : Prop :=
  match last cs with
  | Some c => checkpoint_ordinal h = checkpoint_ord c /\ head_digest h = checkpoint_digest c
  | None => checkpoint_ordinal h = 0%Z
  end.

Lemma check_set_Ok l dp kp h cs :
  check_set l dp kp h cs = Ok tt <->
  base_first cs /\ head_matches h cs /\ deletion_stage l = is_some dp /\
  (kp = None \/ kp = dp) /\ (erased_stage l = true -> kp <> None).
Proof.
  unfold check_set, base_first, head_matches. split.
  - intros H. repeat (let E := fresh "E" in match type of H with
      (if ?b then _ else _) = _ => destruct b eqn:E; [done|] end). clear H.
    split_and!.
    + destruct cs as [|c cs]; [done|]. apply orb_false_elim in E as [[Ea Eb]%orb_false_elim _].
      apply any_false in Eb.
      split; [intros Hb; rewrite Hb, eqb_refl in Ea; simpl in Ea; by bool_hyps|].
      eapply Forall_impl; [done|]. simpl. intros c' Hc'. by apply eqb_false in Hc'.
    + destruct (last cs) eqn:El; [by bool_hyps|]. apply last_None in El as ->.
      simpl in E1. by bool_hyps.
    + unfold deletion_stage. by destruct l, dp.
    + destruct kp; [|by left]. simpl in E3. bool_hyps. by right.
    + intros He ->. by destruct l.
  - intros (Hb & Hh & Hd & Hk & He).
    replace (match cs with [] => false | first :: rest => _ end) with false.
    2: { destruct cs as [|c cs]; [done|]. destruct Hb as [Hb Hf].
         assert (any (fun c => checkpoint_kind c == BaseChunk) cs = false) as Ha.
         { apply any_false. eapply Forall_impl; [done|]. intros ??. by apply eqb_false. }
         rewrite Ha. unfold any in *. simpl. rewrite Ha.
         destruct (eqb (checkpoint_kind c) BaseChunk) eqn:E; [|done].
         bool_hyps. simpl. by rewrite (Hb E). }
    replace (match last cs with Some _ => _ | None => false end) with false.
    2: { destruct (last cs); [|done]. destruct Hh as [-> ->]. by rewrite Z.eqb_refl, eqb_refl. }
    destruct (eqb cs []) eqn:E; bool_hyps; subst; simpl in *.
    all: destruct l, dp, kp; simpl in *; try done;
      try (destruct Hk as [|Hk]; simplify_eq); rewrite ?eqb_refl; try done;
      try (exfalso; by apply He); try (rewrite Hh; done).
Qed.

(** Checkpoints numbered without gaps, each naming the digest of the one before. *)
Fixpoint linked (n : Z) (d : Digest) (cs : list WalArchiveCheckpoint) : Prop :=
  match cs with
  | [] => True
  | c :: cs' =>
      checkpoint_ord c = (n + 1)%Z /\
      predecessor_head_digest (to_input (checkpoint_object c)) = d /\
      linked (checkpoint_ord c) (checkpoint_digest c) cs'
  end.

(** WAL segments stay on the base backup's timeline and do not start before it. *)
Definition wal_follows (base c : WalArchiveCheckpoint) : Prop :=
  checkpoint_kind c = WalSegment ->
  timeline (to_input (checkpoint_object c)) = timeline (to_input (checkpoint_object base)) /\
  (start_lsn (to_input (checkpoint_object base)) <= start_lsn (to_input (checkpoint_object c)))%Z.

Record set_inv (k : BackupSetId) (s : BackupSetState) : Prop := {
  si_wf : set_wf k s;
  si_chain : exists g, linked 0 g (checkpoints s) /\ (checkpoints s = [] -> head_digest (head s) = g);
  si_base : match checkpoints s with
            | [] => True
            | b :: cs => checkpoint_kind b = BaseChunk /\ Forall (wal_follows b) cs
            end;
  si_quiet : lifecycle s <> Streaming -> any_active_hold s = false /\ has_base_checkpoint s = true;
  si_hold_base : holds s <> [] -> has_base_checkpoint s = true;
}.

Lemma linked_snoc n d cs c :
  linked n d cs ->
  checkpoint_ord c = (default n (checkpoint_ord <$> last cs) + 1)%Z ->
  predecessor_head_digest (to_input (checkpoint_object c)) = default d (checkpoint_digest <$> last cs) ->
  linked n d (cs ++ [c]).
Proof.
  revert n d. induction cs as [|c' cs IH]; intros n d; simpl; [naive_solver|].
  intros (? & ? & ?) Ho Hp. split_and!; try done. apply IH; [done|..].
  all: destruct cs as [|c2 cs]; [done|]; rewrite last_cons_cons in *;
    destruct (last (c2 :: cs)) eqn:Hn; [done|]; by apply last_None in Hn.
Qed.

Lemma head_matches_snoc cs c : head_matches (mkHead (checkpoint_ord c) (checkpoint_digest c)) (cs ++ [c]).
Proof. unfold head_matches. by rewrite last_snoc. Qed.

Lemma head_matches_default h cs :
  head_matches h cs -> checkpoint_ordinal h = default 0%Z (checkpoint_ord <$> last cs).
Proof. unfold head_matches. by destruct (last cs) as [c|]; [intros [? _]|]. Qed.

Lemma validate_append_base s o :
  validate_append_kind s o = Ok tt ->
  (checkpoints s = [] -> kind (to_input o) = BaseChunk /\ ordinal (to_input o) = 1%Z) /\
  (forall b cs, checkpoints s = b :: cs -> checkpoint_kind b = BaseChunk ->
     kind (to_input o) <> BaseChunk /\ wal_follows b (mkCheckpoint o)).
Proof.
  unfold validate_append_kind, has_base_checkpoint, wal_follows, checkpoint_kind. intros H. split.
  - intros E. rewrite E in H. repeat case_match; try done. split; [done|]. by bool_hyps.
  - intros b cs E Hb. rewrite E, Hb, eqb_refl in H. simpl. destruct (kind (to_input o)); try done.
    split; [done|]. intros _. case_match; [done|]. bool_hyps. done.
Qed.

Lemma check_set_mono s l' dp' kp' :
  deletion_stage l' = is_some dp' -> (kp' = None \/ kp' = dp') -> (erased_stage l' = true -> kp' <> None) ->
  check_set (lifecycle s) (deletion_preparation s) (key_erasure_preparation s) (head s) (checkpoints s) = Ok tt ->
  check_set l' dp' kp' (head s) (checkpoints s) = Ok tt.
Proof. intros H1 H2 H3 H. rewrite check_set_Ok in *. naive_solver. Qed.

Lemma set_wf_key_stage k s :
  set_wf k s -> deletion_stage (lifecycle s) = is_some (deletion_preparation s) /\
  (key_erasure_preparation s = None \/ key_erasure_preparation s = deletion_preparation s) /\
  (erased_stage (lifecycle s) = true -> key_erasure_preparation s <> None).
Proof. intros Hw. pose proof (sw_check _ _ Hw) as Hc. rewrite check_set_Ok in Hc. naive_solver. Qed.

(** Assignments that keep chain and holds keep well-formedness when the stages agree. *)
Lemma set_wf_stage k s s' :
  set_wf k s ->
  identity s' = identity s -> head s' = head s -> checkpoints s' = checkpoints s -> holds s' = holds s ->
  opt_digest_wf (deletion_preparation s') -> opt_digest_wf (key_erasure_preparation s') ->
  deletion_stage (lifecycle s') = is_some (deletion_preparation s') ->
  (key_erasure_preparation s' = None \/ key_erasure_preparation s' = deletion_preparation s') ->
  (erased_stage (lifecycle s') = true -> key_erasure_preparation s' <> None) ->
  set_wf k s'.
Proof.
  intros [] Hi Hh Hc Ho ? ? ? ? ?. split; rewrite ?Hi, ?Hh, ?Hc, ?Ho; try done. by eapply check_set_mono.
Qed.

Lemma no_stage_streaming k s :
  set_wf k s -> deletion_stage (lifecycle s) = false ->
  deletion_preparation s = None /\ key_erasure_preparation s = None.
Proof.
  intros Hw Hs. destruct (set_wf_key_stage _ _ Hw) as (H1 & H2 & _). rewrite Hs in H1.
  destruct (deletion_preparation s); [done|]. naive_solver.
Qed.

Lemma any_active_update hid reason m :
  any hold_active (BTree.values m) = false ->
  any hold_active (BTree.values (BTree.update hid (fun h => mkHold (hold_id h) (Some reason)) m)) = false.
Proof.
  unfold BTree.values. rewrite !any_false. induction m as [|[k h] m IH]; simpl; [done|].
  rewrite Forall_cons. intros [Hh Hm]. case_match; simpl; constructor; auto.
Qed.

Context `{!Sha256Ok}.

Lemma edge_checkpoint_wf k s c :
  set_wf k s -> checkpoint_wf c -> lifecycle s = Streaming -> checkpoint_set c = k ->
  validate_append_kind s (checkpoint_object c) = Ok tt ->
  checkpoint_ord c = (checkpoint_ordinal (head s) + 1)%Z -> (checkpoint_ord c <= u64_max)%Z ->
  match checkpoints s with [] => True | b :: _ => checkpoint_kind b = BaseChunk end ->
  set_wf k (set_chain (mkHead (checkpoint_ord c) (checkpoint_digest c)) (checkpoints s ++ [c]) s).
Proof.
  intros Hw Hc Hl Hs Hv Ho Hm Hb. destruct (set_wf_key_stage _ _ Hw) as (Hd & Hk & He).
  pose proof (sw_check _ _ Hw) as Hck. rewrite check_set_Ok in Hck. destruct Hck as (Hbf & Hh & _).
  pose proof (sw_ordinal _ _ Hw) as Hr. unfold in_range in Hr.
  destruct (validate_append_base _ _ Hv) as [Hv1 Hv2].
  destruct Hw. split; simpl; try done.
  - unfold in_range. lia.
  - apply digest_of_valid.
  - apply Forall_app. auto.
  - apply Forall_app. auto.
  - apply ordinals_above_snoc; [done|]. rewrite Ho, (head_matches_default _ _ Hh). lia.
  - rewrite check_set_Ok. split_and!; try done; [|apply head_matches_snoc].
    destruct (checkpoints s) as [|b cs] eqn:Ecs; simpl in *.
    + split; [|constructor]. intros _. by apply Hv1.
    + destruct Hbf as [? ?]. split; [done|]. apply Forall_app. split; [done|].
      constructor; [|constructor]. by apply (Hv2 b cs).
Qed.

Lemma set_edge_wf k s op s' : set_inv k s -> set_edge k s op s' -> set_wf k s'.
Proof.
  intros [Hw Hch Hb Hq Hhb] He. destruct (set_wf_key_stage _ _ Hw) as (Hd & Hk & Her).
  destruct He as [c|hid Hv|hid h reason Hr Hg Hn|Hl|Hl|d Hd' Hl|d Hl Hdp Hkp|d Hl Hdp Hkp|Hl].
  - apply edge_checkpoint_wf; try done. destruct (checkpoints s); [done|]. by destruct Hb.
  - destruct Hw. split; simpl; try done; [by apply BTree.ordered_insert|].
    apply BTree.Forall_insert; [|done]. by split_and!.
  - destruct Hw. split; simpl; try done; [by apply BTree.ordered_update|].
    apply BTree.Forall_update; [|done]. intros h' (-> & ? & _). by split_and!.
  - destruct (no_stage_streaming _ _ Hw) as [E1 E2]; [by rewrite Hl|].
    eapply set_wf_stage; [exact Hw|..]; simpl; rewrite ?E1, ?E2; try done; by left.
  - destruct (no_stage_streaming _ _ Hw) as [E1 E2]; [by rewrite Hl|].
    eapply set_wf_stage; [exact Hw|..]; simpl; rewrite ?E1, ?E2; try done; by left.
  - destruct (no_stage_streaming _ _ Hw) as [E1 E2]; [by rewrite Hl|].
    eapply set_wf_stage; [exact Hw|..]; simpl; rewrite ?E2; try done; by left.
  - pose proof (sw_deletion _ _ Hw) as Hdw.
    eapply set_wf_stage; [exact Hw|..]; simpl; rewrite ?Hdp, ?Hl in *; try done; by right.
  - pose proof (sw_deletion _ _ Hw) as Hdw. rewrite Hdp in Hdw.
    eapply set_wf_stage; [exact Hw|..]; simpl; rewrite ?Hdp, ?Hkp in *; try done; by right.
  - rewrite Hl in *. destruct Hw. eapply set_wf_stage; [split; try done; by rewrite Hl|..]; simpl; done.
Qed.

Lemma set_edge_inv k s op s' : set_inv k s -> set_edge k s op s' -> set_inv k s'.
Proof.
  intros Hi He. pose proof (set_edge_wf _ _ _ _ Hi He) as Hw'. destruct Hi as [Hw Hch Hb Hq Hhb].
  destruct He as [c Hcw Hl Hs Hv Ho Hm Hp|hid Hv Hl Hb' Hg|hid h reason Hr Hg Hn|Hl Hb' Ha|Hl Ha
    |d Hd' Hl Ha|d Hl Hdp Hkp|d Hl Hdp Hkp|Hl]; split; try done; simpl; try (intros _; apply Hq; by rewrite Hl);
    try (by rewrite Hl).
  - destruct Hch as (g & Hlk & Hg). exists g. split; [|by destruct (checkpoints s)].
    pose proof (sw_check _ _ Hw) as Hck. rewrite check_set_Ok in Hck. destruct Hck as (_ & Hh & _).
    apply linked_snoc; [done|by rewrite Ho, (head_matches_default _ _ Hh)|].
    rewrite Hp. unfold head_matches in Hh. destruct (last (checkpoints s)) eqn:El; simpl.
    + by destruct Hh.
    + apply last_None in El. by apply Hg.
  - destruct (validate_append_base _ _ Hv) as [Hv1 Hv2].
    destruct (checkpoints s) as [|b cs] eqn:Ecs; simpl.
    + split; [|constructor]. by apply Hv1.
    + destruct Hb as [Hb Hf]. split; [done|]. apply Forall_app. split; [done|].
      constructor; [|constructor]. destruct (Hv2 b cs eq_refl Hb) as [_ ?]. by destruct c.
  - intros Hh. specialize (Hhb Hh). unfold has_base_checkpoint in *. simpl.
    by destruct (checkpoints s).
  - intros ?. destruct Hq as [Hq1 Hq2]; [done|]. split; [|done]. by apply any_active_update.
  - intros _. apply Hhb. by destruct (holds s).
Qed.

Definition archive_inv (a : BackupArchiveStateV1) : Prop :=
  BTree.ordered (sets a) /\ Forall (fun '(k, s) => set_inv k s) (sets a).

(** A set that was started at a head with a checkpoint behind it: the first checkpoint must be the
    base chunk number one and must follow the head, so nothing can be committed to it. *)
Definition stranded (k : BackupSetId) (s : BackupSetState) : Prop :=
  exists iid gid h, s = mkSetState (mkIdentity k iid gid) Streaming false None None h [] [] /\
    checkpoint_ordinal h <> 0%Z.

(** Every set without checkpoints stands at a genesis head. *)
Definition rooted (a : BackupArchiveStateV1) : Prop :=
  Forall (fun '(_, s) => checkpoints s = [] -> checkpoint_ordinal (head s) = 0%Z) (sets a).

Definition archive_general (a : BackupArchiveStateV1) : Prop :=
  BTree.ordered (sets a) /\ Forall (fun '(k, s) => set_inv k s \/ stranded k s) (sets a).

Lemma stranded_stays k s op s' : stranded k s -> set_edge k s op s' -> False.
Proof.
  intros (iid & gid & h & -> & Hne) He.
  inversion He as [c Hcw Hl Hs Hv Ho|hid Hv Hl Hb|hid x reason Hr Hg| Hl Hb| Hl|d Hd Hl|d Hl|d Hl|Hl]; subst; simpl in *; try done.
  destruct (validate_append_base _ _ Hv) as [Hv1 _]. destruct Hv1 as [_ Hord]; [done|].
  unfold checkpoint_ord in Ho. lia.
Qed.

Lemma set_inv_rooted k s : set_inv k s -> checkpoints s = [] -> checkpoint_ordinal (head s) = 0%Z.
Proof.
  intros [Hw _ _ _ _] E. pose proof (sw_check _ _ Hw) as Hck. rewrite check_set_Ok in Hck. destruct Hck as (_ & Hh & _).
  rewrite E in Hh. done.
Qed.

Lemma fresh_set_inv sid iid gid h :
  valid_uuid sid -> valid_uuid iid -> valid_uuid gid -> in_range u64_max (checkpoint_ordinal h) -> valid_digest (head_digest h) ->
  checkpoint_ordinal h = 0%Z ->
  set_inv sid (mkSetState (mkIdentity sid iid gid) Streaming false None None h [] []).
Proof.
  intros ? ? ? ? ? Hz. split; [split; simpl; try done; try constructor|by exists (head_digest h)|done..].
  rewrite check_set_Ok. unfold head_matches, base_first. simpl. naive_solver.
Qed.

Lemma archive_step_general a op set a' : archive_general a -> archive_step a op set a' -> archive_general a'.
Proof.
  intros [Ho HF] Hs. destruct (decide (op = OpStart)) as [->|Hne].
  - inversion Hs as [sid iid gid h ? ? ? ? ? ? Hst| | | | | | | | |]; subst. unfold start_streaming in Hst.
    split_match_in Hst. simplify_eq. split; simpl; [by apply BTree.ordered_insert|].
    apply BTree.Forall_insert; [|done]. destruct (decide (checkpoint_ordinal h = 0%Z)); [left; by apply fresh_set_inv|right].
    by exists iid, gid, h.
  - apply archive_step_moves in Hs as (s & s' & Hg & He & ->); [|done].
    split; simpl; [by apply BTree.ordered_update|].
    eapply BTree.Forall_update_get; [done| |done]. pose proof (BTree.Forall_get _ _ _ _ HF Hg) as [Hi|Hi].
    + left. by eapply set_edge_inv.
    + exfalso. by eapply stranded_stays.
Qed.

Lemma archive_reachable_general a : archive_reachable a -> archive_general a.
Proof. induction 1 as [|a op set a' _ IH Hs]; [split; constructor|by eapply archive_step_general]. Qed.

Lemma archive_inv_general a : archive_inv a <-> archive_general a /\ rooted a.
Proof.
  unfold archive_inv, archive_general, rooted. split.
  - intros [Ho HF]. split; [split; [done|]|]; (eapply Forall_impl; [exact HF|]); intros [k s] Hi; [by left|by eapply set_inv_rooted].
  - intros [[Ho HF] Hr]. split; [done|]. rewrite Forall_forall in *. intros [k s] Hin.
    specialize (HF _ Hin). specialize (Hr _ Hin). destruct HF as [Hi|(iid & gid & h & -> & Hne)]; [done|]. exfalso. by apply Hne, Hr.
Qed.

Lemma archive_step_inv a op set a' : archive_inv a -> archive_step a op set a' -> rooted a' -> archive_inv a'.
Proof.
  intros [Hg _]%archive_inv_general Hs Hr. apply archive_inv_general. split; [by eapply archive_step_general|done].
Qed.

(** Only starting a set can leave a root behind. *)
Lemma archive_step_rooted a op set a' : archive_inv a -> archive_step a op set a' -> op <> OpStart -> rooted a'.
Proof.
  intros [Ho HF] Hs Hne. apply archive_step_moves in Hs as (s & s' & Hg & He & ->); [|done].
  apply (proj1 (archive_inv_general (update_set set (fun _ => s') a))). split; simpl; [by apply BTree.ordered_update|].
  eapply BTree.Forall_update_get; [done| |done]. eapply set_edge_inv; [|done]. by apply (BTree.Forall_get _ _ _ _ HF Hg).
Qed.

Lemma archive_inv_wf a : archive_inv a -> archive_wf a.
Proof.
  intros [Ho HF]. split; [done|]. eapply Forall_impl; [exact HF|]. intros [k s] Hi. by apply si_wf.
Qed.

Lemma archive_inv_get a set s : archive_inv a -> BTree.get (sets a) set = Some s -> set_inv set s.
Proof. intros [_ HF] Hg. by apply (BTree.Forall_get _ _ _ _ HF Hg). Qed.

Lemma archive_general_get a set s :
  archive_general a -> BTree.get (sets a) set = Some s -> set_inv set s \/ stranded set s.
Proof. intros [_ HF] Hg. by apply (BTree.Forall_get _ _ _ _ HF Hg). Qed.

(** A well-formed archive is rooted. *)
Lemma archive_wf_rooted a : archive_wf a -> rooted a.
Proof.
  intros [_ HF]. eapply Forall_impl; [exact HF|]. intros [k s] Hw E. pose proof (sw_check _ _ Hw) as Hck.
  rewrite check_set_Ok in Hck. destruct Hck as (_ & Hh & _). by rewrite E in Hh.
Qed.

End Preservation.

(** ** Lifecycles only advance *)

(** Two versions of a set: the later one keeps the identity, extends the checkpoint chain,
    never moves the lifecycle back and never forgets a hold. *)
Record set_extends (s s' : BackupSetState) : Prop := {
  se_identity : identity s' = identity s;
  se_rank : (lifecycle_rank (lifecycle s) <= lifecycle_rank (lifecycle s'))%Z;
  se_chain : checkpoints s `prefix_of` checkpoints s';
  se_holds : forall hid h, BTree.get (holds s) hid = Some h ->
    exists h', BTree.get (holds s') hid = Some h' /\ hold_id h' = hold_id h /\
      (hold_active h = false -> h' = h);
}.

Lemma set_extends_refl s : set_extends s s.
Proof. split; [done|lia|done|eauto]. Qed.

Lemma set_extends_trans s1 s2 s3 : set_extends s1 s2 -> set_extends s2 s3 -> set_extends s1 s3.
Proof.
  intros [] []. split; [congruence|lia|by etrans|]. intros hid h Hh.
  destruct (se_holds0 _ _ Hh) as (h2 & H2 & ? & Ha2). destruct (se_holds1 _ _ H2) as (h3 & H3 & ? & Ha3).
  exists h3. split; [done|]. split; [congruence|]. intros Ha. specialize (Ha2 Ha) as ->. auto.
Qed.

Lemma set_extends_same_holds s s' :
  identity s' = identity s -> (lifecycle_rank (lifecycle s) <= lifecycle_rank (lifecycle s'))%Z ->
  checkpoints s `prefix_of` checkpoints s' -> holds s' = holds s -> set_extends s s'.
Proof. intros. split; try done. intros hid h Hh. exists h. split; [congruence|done]. Qed.

Section Advance.
Context {SHA : Sha256}.

Lemma set_edge_extends k s op s' : set_edge k s op s' -> set_extends s s'.
Proof.
  destruct 1 as [c|hid Hv Hl Hb Hg|hid h reason Hr Hg Hn|Hl|Hl|d Hd Hl|d Hl|d Hl|Hl].
  2: { split; simpl; [done|lia|done|]. intros hid' h Hh. exists h. split; [|done].
       rewrite BTree.get_insert_ne; [done|]. congruence. }
  2: { split; simpl; [done|lia|done|]. intros hid' h' Hh. destruct (decide (hid' = hid)) as [->|].
       - exists (mkHold (hold_id h) (Some reason)). rewrite BTree.get_update_eq, Hg. simplify_eq.
         split_and!; try done. unfold hold_active. by rewrite Hn.
       - exists h'. by rewrite BTree.get_update_ne. }
  all: apply set_extends_same_holds; simpl; try done; try (rewrite Hl; simpl; unfold lifecycle_rank; simpl; lia).
  by apply prefix_app_r.
Qed.

Lemma archive_step_extends a op set a' k s :
  archive_step a op set a' -> BTree.get (sets a) k = Some s ->
  exists s', BTree.get (sets a') k = Some s' /\ set_extends s s'.
Proof.
  intros Hs Hk. destruct (decide (op = OpStart)) as [->|Hne].
  - inversion Hs as [sid iid gid h ? ? ? ? ? ? Hst| | | | | | | | |]; subst. unfold start_streaming in Hst.
    split_match_in Hst. simplify_eq. simpl. exists s. split; [|apply set_extends_refl].
    rewrite BTree.get_insert_ne; [done|]. intros ->. simpl in *. unfold BTree.contains_key in *.
    by rewrite Hk in *.
  - apply archive_step_moves in Hs as (s0 & s' & Hg & He & ->); [|done]. simpl.
    destruct (decide (k = set)) as [->|].
    + exists s'. rewrite BTree.get_update_eq, Hg. simplify_eq. split; [done|]. by eapply set_edge_extends.
    + exists s. rewrite BTree.get_update_ne by done. split; [done|apply set_extends_refl].
Qed.

Inductive archive_steps : BackupArchiveStateV1 -> BackupArchiveStateV1 -> Prop :=
| steps_refl a : archive_steps a a
| steps_cons a op set b c : archive_step a op set b -> archive_steps b c -> archive_steps a c.

Lemma archive_steps_extends a b k s :
  archive_steps a b -> BTree.get (sets a) k = Some s ->
  exists s', BTree.get (sets b) k = Some s' /\ set_extends s s'.
Proof.
  intros Hs. revert s. induction Hs as [a|a op set b c Hs _ IH]; intros s Hk.
  - exists s. split; [done|apply set_extends_refl].
  - destruct (archive_step_extends _ _ _ _ _ _ Hs Hk) as (s1 & Hk1 & He1).
    destruct (IH _ Hk1) as (s2 & Hk2 & He2). exists s2. split; [done|by eapply set_extends_trans].
Qed.

End Advance.

(** ** Operations and the witness's successor predicates *)

(** The predicate a witness evaluates for each kind of archive event; releasing a hold has
    none. *)
Definition witness_predicate {SHA : Sha256} (op : ArchiveOp) (self previous : BackupArchiveStateV1) : bool :=
  match op with
  | OpStart => is_exact_started_successor_of self previous
  | OpCheckpoint => is_exact_checkpoint_successor_of self previous
  | OpHold => is_exact_hold_successor_of self previous
  | OpRelease => false
  | OpSealing => is_exact_lifecycle_successor_of self previous Streaming Sealing
  | OpSealed => is_exact_lifecycle_successor_of self previous Sealing Sealed
  | OpDeletionPrepared => is_exact_prepared_deletion_successor_of self previous
  | OpErasurePrepared => is_exact_key_erasure_prepared_successor_of self previous
  | OpKeyErased => is_exact_lifecycle_successor_of self previous DeletionPrepared ArchiveKeyErased
  | OpDeleted => is_exact_lifecycle_successor_of self previous ArchiveKeyErased Deleted
  end.

Section Successors.
Context (edge : BackupSetId -> BackupSetState -> BackupSetState -> bool).

(** The loop accepts exactly the maps that differ from [previous] in one set, along [edge]. *)
Lemma successor_loop_true self prev changed :
  successor_loop self edge prev changed = true <->
  (changed = true /\ Forall (fun '(k, s) => BTree.get self k = Some s) prev) \/
  (changed = false /\ exists p1 k before after p2,
     prev = p1 ++ (k, before) :: p2 /\
     Forall (fun '(k, s) => BTree.get self k = Some s) (p1 ++ p2) /\
     BTree.get self k = Some after /\ after <> before /\ edge k before after = true).
Proof.
  revert changed. induction prev as [|[k s] prev IH]; intros changed; simpl.
  - destruct changed; split; [by left|done|done|].
    intros [[? _]|(_ & p1 & ? & ? & ? & ? & Heq & _)]; [done|]. by destruct p1.
  - destruct (BTree.get self k) as [after|] eqn:Hg.
    2: { split; [done|]. intros [[_ HF]|(_ & p1 & k' & b & a' & p2 & Heq & HF & Hg' & _)].
         - apply Forall_cons in HF as [Hk _]. congruence.
         - destruct p1 as [|[k1 s1] p1]; simplify_eq/=; try congruence.
           apply Forall_cons in HF as [Hk _]. congruence. }
    destruct (eqb after s) eqn:E; bool_hyps.
    + subst. rewrite IH. split.
      * intros [[-> HF]|(-> & p1 & k' & b & a' & p2 & -> & HF & ?)]; [left; by repeat constructor|].
        right. split; [done|]. exists ((k, s) :: p1), k', b, a', p2. split; [done|].
        split; [by constructor|done].
      * intros [[-> HF]|(-> & p1 & k' & b & a' & p2 & Heq & HF & Hg' & Hne & He)].
        -- apply Forall_cons in HF as [_ HF]. by left.
        -- destruct p1 as [|[k1 s1] p1]; simplify_eq/=. right. split; [done|].
           apply Forall_cons in HF as [_ HF]. by exists p1, k', b, a', p2.
    + destruct changed; simpl.
      { split; [done|]. intros [[_ HF]|[? _]]; [|done]. apply Forall_cons in HF as [Hk _]. congruence. }
      destruct (edge k s after) eqn:He; simpl.
      * rewrite IH. split.
        -- intros [[_ HF]|[? _]]; [|done]. right. split; [done|]. by exists [], k, s, after, prev.
        -- intros [[? _]|(_ & p1 & k' & b & a' & p2 & Heq & HF & _)]; [done|]. left. split; [done|].
           destruct p1 as [|[k1 s1] p1]; simplify_eq/=; try done.
           apply Forall_cons in HF as [Hk _]. congruence.
      * split; [done|]. intros [[? _]|(_ & p1 & k' & b & a' & p2 & Heq & HF & Hg' & Hne & He')]; [done|].
        destruct p1 as [|[k1 s1] p1]; simplify_eq/=; try congruence.
        apply Forall_cons in HF as [Hk _]. congruence.
Qed.

Lemma exact_successor_spec self prev :
  BTree.ordered (sets self) -> BTree.ordered (sets prev) ->
  exact_successor edge self prev = true <->
  exists k before after, BTree.get (sets prev) k = Some before /\ after <> before /\
    edge k before after = true /\ self = update_set k (fun _ => after) prev.
Proof.
  intros Hos Hop. unfold exact_successor. split.
  - case_match; [done|]. bool_hyps.
    intros [[? _]|(_ & p1 & k & before & after & p2 & Heq & HF & Hg & Hne & He)]%successor_loop_true; [done|].
    assert (BTree.get (sets prev) k = Some before) as Hgp.
    { apply BTree.elem_get_Some; [done|]. rewrite Heq. set_solver. }
    exists k, before, after. split_and!; try done. destruct self as [self]. unfold update_set. f_equal.
    simpl in *. assert (forall k' s, k' <> k -> BTree.get (sets prev) k' = Some s -> BTree.get self k' = Some s) as Hoth.
    { intros k' s Hk' Hg'. apply BTree.get_Some_elem in Hg'. rewrite Heq in Hg'.
      rewrite Forall_forall in HF. apply (HF (k', s)). set_solver. }
    apply BTree.ordered_ext; [done|by apply BTree.ordered_update|]. intros k'.
    destruct (decide (k' = k)) as [->|Hk']; [by rewrite BTree.get_update_eq, Hgp|].
    rewrite BTree.get_update_ne by done.
    destruct (BTree.get (sets prev) k') as [s|] eqn:Hg'; [by apply Hoth|].
    apply BTree.get_None_keys. apply BTree.get_None_keys in Hg'. contradict Hg'.
    eapply BTree.same_keys; [done| |..|exact Hg']; [done|unfold BTree.len in *; lia|].
    intros x Hx. destruct (decide (BTree.get self x = None)) as [Hn|Hn].
    2: { apply dec_stable. rewrite <-BTree.get_None_keys. done. }
    exfalso. apply (proj1 (BTree.get_None_keys x (sets prev))); [|done].
    destruct (BTree.get (sets prev) x) as [s|] eqn:Hx'; [|done]. destruct (decide (x = k)) as [->|Hxk];
      [congruence|]. rewrite (Hoth _ _ Hxk Hx') in Hn. done.
  - intros (k & before & after & Hg & Hne & He & ->). unfold update_set, BTree.len. simpl.
    rewrite BTree.length_update, Z.eqb_refl. simpl. apply successor_loop_true. right. split; [done|].
    destruct (BTree.get_split _ _ _ Hg) as (p1 & p2 & Heq).
    exists p1, k, before, after, p2. rewrite BTree.get_update_eq, Hg. split_and!; try done.
    apply Forall_forall. intros [k' s] Hin. rewrite BTree.get_update_ne.
    + apply BTree.elem_get_Some; [done|]. rewrite Heq. set_solver.
    + intros ->. apply BTree.NoDup_keys in Hop. rewrite Heq in Hop. unfold BTree.keys in Hop.
      rewrite fmap_app in Hop. simpl in Hop. apply NoDup_app in Hop as (_ & Hd & [Hk _]%NoDup_cons).
      apply elem_of_app in Hin as [Hin|Hin]; apply (list_elem_of_fmap_2 fst) in Hin; simpl in Hin.
      * apply (Hd _ Hin). set_solver.
      * done.
Qed.

End Successors.

Section Witness.
Context {SHA : Sha256}.

(** The edge predicate behind [witness_predicate], for the operations on an existing set. *)
Definition witness_edge (op : ArchiveOp) : BackupSetId -> BackupSetState -> BackupSetState -> bool :=
  match op with
  | OpCheckpoint => checkpoint_edge
  | OpHold => hold_edge
  | OpSealing => lifecycle_edge Streaming Sealing
  | OpSealed => lifecycle_edge Sealing Sealed
  | OpDeletionPrepared => prepared_deletion_edge
  | OpErasurePrepared => key_erasure_prepared_edge
  | OpKeyErased => lifecycle_edge DeletionPrepared ArchiveKeyErased
  | OpDeleted => lifecycle_edge ArchiveKeyErased Deleted
  | OpStart | OpRelease => fun _ _ _ => false
  end.

Lemma witness_predicate_edge op self prev :
  op <> OpStart -> BTree.ordered (sets self) -> BTree.ordered (sets prev) ->
  witness_predicate op self prev = true <->
  exists k before after, BTree.get (sets prev) k = Some before /\ after <> before /\
    witness_edge op k before after = true /\ self = update_set k (fun _ => after) prev.
Proof.
  intros Hne Hos Hop. destruct op; try done; simpl; try (by apply exact_successor_spec).
  split; [done|]. by intros (? & ? & ? & _ & _ & ? & _).
Qed.

Lemma negb_orb_false (b : bool) : b = false -> negb b = true.
Proof. by intros ->. Qed.

Lemma length_snoc_neq {A} (l : list A) x : l ++ [x] <> l.
Proof. intros H. apply (f_equal length) in H. rewrite length_app in H. simpl in H. lia. Qed.

Lemma set_edge_changes k s op s' : set_edge k s op s' -> s' <> s.
Proof.
  destruct 1 as [c|hid Hv Hl Hb Hg|hid h reason Hr Hg Hn|Hl|Hl|d Hd Hl|d Hl Hd Hk|d Hl|Hl]; intros Heq.
  - apply (f_equal checkpoints) in Heq. simpl in Heq. by apply length_snoc_neq in Heq.
  - apply (f_equal (fun s => BTree.get (holds s) hid)) in Heq. simpl in Heq.
    rewrite BTree.get_insert_eq in Heq. congruence.
  - apply (f_equal (fun s => BTree.get (holds s) hid)) in Heq. simpl in Heq.
    rewrite BTree.get_update_eq, Hg in Heq. destruct h. simplify_eq/=.
  - apply (f_equal lifecycle) in Heq. simpl in Heq. congruence.
  - apply (f_equal lifecycle) in Heq. simpl in Heq. congruence.
  - apply (f_equal lifecycle) in Heq. simpl in Heq. congruence.
  - apply (f_equal key_erasure_preparation) in Heq. simpl in Heq. congruence.
  - apply (f_equal lifecycle) in Heq. simpl in Heq. congruence.
  - apply (f_equal lifecycle) in Heq. simpl in Heq. congruence.
Qed.

Lemma starts_with_app l l' : starts_with (l ++ l') l = true.
Proof.
  unfold starts_with. rewrite take_app_length, eqb_refl, andb_true_r, length_app.
  apply Nat.leb_le. lia.
Qed.

Lemma hold_edge_insert k s hid :
  BTree.ordered (holds s) -> lifecycle s = Streaming -> has_base_checkpoint s = true ->
  BTree.get (holds s) hid = None ->
  hold_edge k s (set_holds (BTree.insert hid (mkHold hid None) (holds s)) s) = true.
Proof.
  intros Ho Hl Hb Hg. unfold hold_edge. simpl. rewrite Hl, Hb, !eqb_refl. simpl.
  unfold BTree.len. rewrite BTree.length_insert_fresh by done.
  replace (Z.of_nat (S (length (holds s))) =? _)%Z with true by (symmetry; apply Z.eqb_eq; lia). simpl.
  assert (all (fun '(id, h) => BTree.get (BTree.insert hid (mkHold hid None) (holds s)) id == Some h)
    (holds s) = true) as ->.
  { unfold all. apply forallb_forall. intros [id h] Hin%list_elem_of_In.
    apply BTree.elem_get_Some in Hin; [|done]. apply eqb_true. rewrite BTree.get_insert_ne; [done|].
    congruence. }
  assert (any (fun '(id, h) => negb (BTree.contains_key (holds s) id) && hold_active h)
    (BTree.insert hid (mkHold hid None) (holds s)) = true) as ->; [|done].
  unfold any. apply existsb_exists. exists (hid, mkHold hid None). split.
  - apply list_elem_of_In, BTree.get_Some_elem, BTree.get_insert_eq.
  - unfold BTree.contains_key. by rewrite Hg.
Qed.

Lemma set_edge_witness k s op s' :
  set_inv k s -> set_edge k s op s' -> op <> OpRelease -> witness_edge op k s s' = true.
Proof.
  intros [Hw Hch Hb Hq Hhb] He Hne.
  destruct He as [c Hcw Hl Hs Hv Ho Hm Hp|hid Hv Hl Hb' Hg|hid h reason Hr Hg Hn|Hl Hb' Ha|Hl Ha
    |d Hd' Hl Ha|d Hl Hdp Hkp|d Hl Hdp Hkp|Hl]; simpl; try done.
  - unfold checkpoint_edge. simpl. rewrite Hl, !eqb_refl, starts_with_app, last_snoc, length_app, Nat.eqb_refl.
    simpl. rewrite Hs, Hv, Hp, !eqb_refl. simpl. unfold checked_add.
    rewrite (proj2 (Z.leb_le _ _)) by lia. simpl. by rewrite <-Ho, Z.eqb_refl.
  - apply hold_edge_insert; try done. by apply sw_holds_ordered in Hw.
  - unfold lifecycle_edge. simpl. by rewrite Hl, Hb', !eqb_refl.
  - destruct Hq as [_ Hq]; [by rewrite Hl|]. unfold lifecycle_edge. simpl. by rewrite Hl, Hq, !eqb_refl.
  - destruct (no_stage_streaming _ _ Hw) as [E1 E2]; [by rewrite Hl|].
    unfold prepared_deletion_edge. simpl. by rewrite Hl, E1, E2, !eqb_refl.
  - unfold key_erasure_prepared_edge. simpl. by rewrite Hl, Hdp, Hkp, !eqb_refl.
  - destruct Hq as [_ Hq]; [by rewrite Hl|]. unfold lifecycle_edge. simpl. by rewrite Hl, Hq, !eqb_refl.
  - destruct Hq as [_ Hq]; [by rewrite Hl|]. unfold lifecycle_edge. simpl. by rewrite Hl, Hq, !eqb_refl.
Qed.

Lemma started_loop_same prev l rest added :
  Forall (fun '(k, s) => BTree.get prev k = Some s) l ->
  started_loop prev (l ++ rest) added = started_loop prev rest added.
Proof.
  induction l as [|[k s] l IH]; simpl; [done|]. intros HF. apply Forall_cons in HF as [Hk HF].
  by rewrite Hk, eqb_refl, IH.
Qed.

(** The witness accepts a started set exactly at a genesis head. *)
Lemma start_streaming_witness a ident h a' :
  BTree.ordered (sets a) -> start_streaming a ident h = Ok a' ->
  is_exact_started_successor_of a' a = (checkpoint_ordinal h =? 0)%Z.
Proof.
  intros Ho Hst. unfold start_streaming in Hst. split_match_in Hst. simplify_eq.
  unfold BTree.contains_key in *.
  match goal with Hx : is_some _ = false |- _ => apply is_some_false in Hx as Hg end.
  unfold is_exact_started_successor_of, BTree.len. simpl. rewrite BTree.length_insert_fresh by done.
  replace (_ =? _)%Z with true by (symmetry; apply Z.eqb_eq; lia). simpl.
  destruct (BTree.insert_split _ (mkSetState ident Streaming false None None h [] []) _ Hg)
    as (m1 & m2 & Hm & ->).
  assert (Forall (fun '(k, s) => BTree.get (sets a) k = Some s) (m1 ++ m2)) as HF.
  { rewrite <-Hm. apply Forall_forall. intros [k s] Hin. by apply BTree.elem_get_Some. }
  apply Forall_app in HF as [HF1 HF2]. rewrite started_loop_same by done. simpl. rewrite Hg. simpl.
  destruct (_ =? _)%Z; [|done]. rewrite <-(app_nil_r m2). by rewrite started_loop_same.
Qed.

Lemma start_streaming_rooted a ident h a' :
  archive_inv a -> start_streaming a ident h = Ok a' -> rooted a' <-> checkpoint_ordinal h = 0%Z.
Proof.
  intros [_ Hr]%archive_inv_general Hst. unfold start_streaming in Hst. split_match_in Hst. simplify_eq.
  unfold rooted, BTree.contains_key in *. match goal with Hx : is_some _ = false |- _ => apply is_some_false in Hx as Hg end. simpl.
  destruct (BTree.insert_split _ (mkSetState ident Streaming false None None h [] []) _ Hg) as (m1 & m2 & Hm & ->).
  rewrite Hm, Forall_app in Hr. destruct Hr as [Hr1 Hr2]. rewrite Forall_app, Forall_cons. simpl. naive_solver.
Qed.

(** An operation on an archive that satisfies the invariant passes the predicate of its event. *)
Lemma archive_step_predicate {SHA_ok : Sha256Ok} a a' op set :
  archive_inv a -> archive_step a op set a' -> op <> OpRelease -> witness_predicate op a' a = true <-> rooted a'.
Proof.
  intros Hi Hs Hne. destruct (decide (op = OpStart)) as [->|Hst].
  - inversion Hs as [sid iid gid h ? ? ? ? ? ? H| | | | | | | | |]; subst. rewrite (start_streaming_rooted _ _ _ _ Hi H).
    simpl. rewrite (start_streaming_witness _ _ _ _ (proj1 Hi) H). by rewrite Z.eqb_eq.
  - pose proof (archive_step_rooted _ _ _ _ Hi Hs Hst) as Hr. split; [done|intros _].
    pose proof (archive_step_inv _ _ _ _ Hi Hs Hr) as Hi'.
    apply archive_step_moves in Hs as (s & s' & Hg & He & ->); [|done].
    apply witness_predicate_edge; [done|apply Hi'|apply Hi|]. exists set, s, s'.
    split_and!; try done; [by eapply set_edge_changes|].
    eapply set_edge_witness; try done. by apply (archive_inv_get a).
Qed.

Lemma starts_with_snoc l l' c :
  length l' = length l + 1 -> starts_with l' l = true -> last l' = Some c -> l' = l ++ [c].
Proof.
  unfold starts_with. intros Hlen Hs Hl. bool_hyps. rewrite <-(take_drop (length l) l') in Hl |- *.
  match goal with Hx : take _ _ = _ |- _ => rewrite Hx in * end. f_equal.
  destruct (drop (length l) l') as [|x [|y r]] eqn:Hd; apply (f_equal length) in Hd as Hdl;
    rewrite length_drop in Hdl; simpl in Hdl; try lia.
  rewrite last_snoc in Hl. by simplify_eq.
Qed.

(** The checkpoint edge accepts one appended checkpoint on a set of any lifecycle and
    leaves it streaming. *)
Lemma checkpoint_edge_true k s s' :
  checkpoint_edge k s s' = true <->
  exists c, s' = set_lifecycle Streaming
                   (set_chain (mkHead (checkpoint_ord c) (checkpoint_digest c)) (checkpoints s ++ [c]) s) /\
    checkpoint_set c = k /\ validate_append_kind s (checkpoint_object c) = Ok tt /\
    checkpoint_ord c = default u64_max (checked_add u64_max (checkpoint_ordinal (head s)) 1) /\
    predecessor_head_digest (to_input (checkpoint_object c)) = head_digest (head s).
Proof.
  unfold checkpoint_edge. split.
  - intros [H1 H2]%andb_prop. destruct (last (checkpoints s')) as [c|] eqn:El; [|done].
    apply negb_true_iff in H1, H2. bool_hyps.
    match goal with Hx : (_ =? _)%nat = true |- _ => apply Nat.eqb_eq in Hx as Hlen end.
    exists c. assert (checkpoints s' = checkpoints s ++ [c]) as Hcs by (by apply starts_with_snoc).
    split_and!; try done.
    + unfold set_lifecycle, set_chain. simpl. destruct s'. simpl in *. congruence.
    + by destruct (validate_append_kind s (checkpoint_object c)) as [[]|].
  - intros (c & -> & Hs & Hv & Ho & Hp). simpl.
    rewrite starts_with_app, last_snoc, length_app, Nat.eqb_refl, !eqb_refl, Hs, Hv, Hp, <-Ho, Z.eqb_refl, !eqb_refl.
    done.
Qed.

(** What survives any successor the witness accepts: a set keeps its identity and its holds,
    unreleased, and its checkpoints are a prefix of the later ones. *)
Record set_kept (s s' : BackupSetState) : Prop := {
  sk_identity : identity s' = identity s;
  sk_chain : checkpoints s `prefix_of` checkpoints s';
  sk_holds : forall hid h, BTree.get (holds s) hid = Some h -> BTree.get (holds s') hid = Some h;
}.

Lemma set_kept_refl s : set_kept s s.
Proof. done. Qed.

Lemma set_kept_trans s1 s2 s3 : set_kept s1 s2 -> set_kept s2 s3 -> set_kept s1 s3.
Proof. intros [] []. split; [congruence|by etrans|auto]. Qed.

Lemma set_kept_same s s' :
  identity s' = identity s -> checkpoints s' = checkpoints s -> holds s' = holds s -> set_kept s s'.
Proof. intros ? Hc Hh. split; [done|by rewrite Hc|by rewrite Hh]. Qed.

Lemma witness_edge_kept op k s s' : witness_edge op k s s' = true -> set_kept s s'.
Proof.
  destruct op; simpl; try done; intros Hw.
  - apply checkpoint_edge_true in Hw as (c & -> & _). split; simpl; try done. by apply prefix_app_r.
  - unfold hold_edge in Hw. bool_hyps. split; [done|by replace (checkpoints s') with (checkpoints s)|]. intros hid h Hg.
    match goal with Hx : all _ _ = true |- _ => rename Hx into Hall end.
    unfold all in Hall. rewrite forallb_forall in Hall. apply (eqb_true (A:=option RestoreHold)).
    apply (Hall (hid, h)), list_elem_of_In. by apply BTree.get_Some_elem.
  - unfold lifecycle_edge in Hw. bool_hyps. by apply set_kept_same.
  - unfold lifecycle_edge in Hw. bool_hyps. by apply set_kept_same.
  - unfold prepared_deletion_edge in Hw. bool_hyps. by apply set_kept_same.
  - unfold key_erasure_prepared_edge in Hw. bool_hyps. by apply set_kept_same.
  - unfold lifecycle_edge in Hw. bool_hyps. by apply set_kept_same.
  - unfold lifecycle_edge in Hw. bool_hyps. by apply set_kept_same.
Qed.

Lemma started_loop_true prev self added :
  started_loop prev self added = true ->
  (added = true /\ Forall (fun '(k, s) => BTree.get prev k = Some s) self) \/
  (added = false /\ exists p1 x p2, self = p1 ++ x :: p2 /\
     Forall (fun '(k, s) => BTree.get prev k = Some s) (p1 ++ p2)).
Proof.
  revert added. induction self as [|[k s] self IH]; intros added; simpl.
  - intros ->. by left.
  - destruct (BTree.get prev k) as [before|] eqn:Hg.
    + destruct (before == s) eqn:E; [|done]. bool_hyps. subst.
      intros [[-> HF]|(-> & p1 & x & p2 & -> & HF)]%IH; [left; by repeat constructor|].
      right. split; [done|]. exists ((k, s) :: p1), x, p2. split; [done|]. by constructor.
    + split_match; [|done]. bool_hyps. intros [[_ HF]|[? _]]%IH; [|done]. subst.
      right. split; [done|]. by exists [], (k, s), self.
Qed.

Lemma started_successor_keeps self prev k s :
  BTree.ordered (sets self) -> BTree.ordered (sets prev) ->
  is_exact_started_successor_of self prev = true ->
  BTree.get (sets prev) k = Some s -> BTree.get (sets self) k = Some s.
Proof.
  intros Hos Hop Hst Hg. unfold is_exact_started_successor_of in Hst. split_match_in Hst. bool_hyps.
  apply started_loop_true in Hst as [[? _]|(_ & p1 & x & p2 & Heq & HF)]; [done|].
  assert (NoDup (BTree.keys (p1 ++ p2))) as Hnd.
  { apply BTree.NoDup_keys in Hos. rewrite Heq in Hos. unfold BTree.keys in *.
    rewrite fmap_app in *. simpl in Hos. by apply NoDup_app in Hos as (?&?&[_ ?]%NoDup_cons); apply NoDup_app;
      split_and!; try done; set_solver. }
  assert (BTree.keys (sets prev) ⊆+ BTree.keys (p1 ++ p2)) as Hsub.
  { assert (BTree.keys (p1 ++ p2) ⊆+ BTree.keys (sets prev)) as Hs.
    { apply NoDup_submseteq; [done|]. intros y Hy. unfold BTree.keys in Hy.
      apply list_elem_of_fmap in Hy as ([k' s'] & -> & Hin). rewrite Forall_forall in HF.
      specialize (HF _ Hin). simpl in HF. apply BTree.get_Some_elem in HF.
      unfold BTree.keys. apply list_elem_of_fmap. by exists (k', s'). }
    rewrite (submseteq_length_Permutation _ _ Hs); [done|]. unfold BTree.keys, BTree.len in *.
    rewrite !length_fmap. rewrite Heq in *. rewrite !length_app in *. simpl in *. lia. }
  apply BTree.elem_get_Some; [done|].
  assert (k ∈ BTree.keys (p1 ++ p2)) as Hin.
  { eapply elem_of_submseteq; [|exact Hsub]. apply BTree.get_Some_elem in Hg.
    unfold BTree.keys. apply list_elem_of_fmap. by exists (k, s). }
  unfold BTree.keys in Hin. apply list_elem_of_fmap in Hin as ([k' s'] & -> & Hin). simpl in *.
  rewrite Forall_forall in HF. specialize (HF _ Hin). simpl in HF. simplify_eq. rewrite Heq. set_solver.
Qed.

(** Nothing an archive holds is lost across an event the witness accepts. *)
Lemma witness_predicate_keeps op self prev k s :
  BTree.ordered (sets self) -> BTree.ordered (sets prev) ->
  witness_predicate op self prev = true -> BTree.get (sets prev) k = Some s ->
  exists s', BTree.get (sets self) k = Some s' /\ set_kept s s'.
Proof.
  intros Hos Hop Hw Hg. destruct (decide (op = OpStart)) as [->|Hne].
  { exists s. split; [by eapply started_successor_keeps|apply set_kept_refl]. }
  apply witness_predicate_edge in Hw as (k' & before & after & Hk & _ & He & ->); [|done..].
  simpl. destruct (decide (k = k')) as [->|].
  - exists after. rewrite BTree.get_update_eq, Hk. simplify_eq. split; [done|]. by eapply witness_edge_kept.
  - exists s. rewrite BTree.get_update_ne by done. split; [done|apply set_kept_refl].
Qed.

End Witness.
