(* ===== verification/BackupArchiveSpec.v ===== *)
(** * The backup archive: theorems

    What the archive component promises to its callers and to the witness, proved from the
    lemmas of [BackupArchiveProps].  Each theorem that has hypotheses is followed by an
    instance at a concrete archive. *)

From Stdlib Require Import ZArith Lia String Strings.Byte.
From stdpp Require Import base option numbers sorting sets list.
From S2P Require Import Prelude BTree Codec Crypto BackupArchive BackupArchiveProps.

(** ** A concrete archive *)

Module ArchiveExample.
Import Toy.
Local Open Scope Z_scope.

Definition d0 : Digest := be_bytes 32 11.
Definition d1 : Digest := be_bytes 32 12.

Definition base_object : ArchiveObjectDescriptor :=
  mkDescriptor (mkInput 5 101 BaseChunk 1 1 100 200 d1 d1 4096 d0).

Definition base_checkpoint : WalArchiveCheckpoint := mkCheckpoint base_object.

Definition wal_object : ArchiveObjectDescriptor :=
  mkDescriptor (mkInput 5 102 WalSegment 2 1 200 300 d1 d1 512 (checkpoint_digest base_checkpoint)).

Definition wal_checkpoint : WalArchiveCheckpoint := mkCheckpoint wal_object.

Definition unwrap (r : result BackupArchiveError BackupArchiveStateV1) : BackupArchiveStateV1 :=
  match r with Ok a => a | Err _ => archive_empty end.

Definition commit (a : BackupArchiveStateV1) (h : ArchiveHead) (o : ArchiveObjectDescriptor) : BackupArchiveStateV1 :=
  unwrap (r ← reservation_new 5 h o; commit_checkpoint a r (checkpoint_from_reservation r)).

(** Start, base checkpoint, hold; and the same archive sealed without the hold. *)
Definition started : BackupArchiveStateV1 :=
  unwrap (start_streaming archive_empty (mkIdentity 5 6 7) (head_genesis d0)).
Definition based : BackupArchiveStateV1 := commit started (head_genesis d0) base_object.
Definition held : BackupArchiveStateV1 := unwrap (acquire_restore_hold based 5 9).
Definition released : BackupArchiveStateV1 :=
  unwrap (release_restore_hold held 5 9 (SourceResumePrepared d1)).
Definition sealing : BackupArchiveStateV1 := unwrap (begin_sealing based 5).
Definition sealed : BackupArchiveStateV1 := unwrap (commit_sealed sealing 5).
Definition deletion_prepared : BackupArchiveStateV1 := unwrap (prepare_deletion sealed 5 d1).
Definition erasure_prepared : BackupArchiveStateV1 :=
  unwrap (prepare_archive_key_erasure deletion_prepared 5 d1).
Definition key_erased : BackupArchiveStateV1 := unwrap (record_archive_key_erased erasure_prepared 5).

Lemma base_object_wf : descriptor_wf base_object.
Proof. by repeat split. Qed.

Lemma started_reachable : archive_reachable started.
Proof.
  eapply reach_step; [apply reach_empty|]. by apply (step_start _ 5 6 7 (head_genesis d0)).
Qed.

(** A set that is started at a head with a checkpoint behind it. *)
Definition headless : BackupArchiveStateV1 := unwrap (start_streaming archive_empty (mkIdentity 5 6 7) (mkHead 3 d0)).

Lemma headless_reachable : archive_reachable headless.
Proof. eapply reach_step; [apply reach_empty|]. by apply (step_start _ 5 6 7 (mkHead 3 d0)). Qed.

Lemma based_step : archive_step started OpCheckpoint 5 based.
Proof.
  eapply (step_checkpoint _ _ (head_genesis d0) base_object (mkReservation 5 (head_genesis d0) base_object));
    [apply base_object_wf|by vm_compute..].
Qed.

Lemma based_reachable : archive_reachable based.
Proof. eapply reach_step; [apply started_reachable|apply based_step]. Qed.

Lemma held_step : archive_step based OpHold 5 held.
Proof. apply (step_hold _ _ 9); [done|by vm_compute]. Qed.

Lemma held_reachable : archive_reachable held.
Proof. eapply reach_step; [apply based_reachable|apply held_step]. Qed.

Lemma released_step : archive_step held OpRelease 5 released.
Proof. apply (step_release _ _ 9 (SourceResumePrepared d1)); [done|by vm_compute]. Qed.

Lemma sealed_reachable : archive_reachable sealed.
Proof.
  eapply reach_step; [eapply reach_step; [apply based_reachable|]|].
  - apply (step_sealing _ 5 sealing). by vm_compute.
  - apply (step_sealed _ 5 sealed). by vm_compute.
Qed.

Lemma key_erased_reachable : archive_reachable key_erased.
Proof.
  eapply reach_step; [eapply reach_step; [eapply reach_step; [apply sealed_reachable|]|]|].
  - apply (step_deletion _ 5 d1 deletion_prepared); [done|by vm_compute].
  - apply (step_erasure _ 5 d1 erasure_prepared). by vm_compute.
  - apply (step_key_erased _ 5 key_erased). by vm_compute.
Qed.

(** The one set of the example. *)
Definition set5 (a : BackupArchiveStateV1) : BackupSetState :=
  match get_set a 5 with
  | Ok s => s
  | Err _ => mkSetState (mkIdentity 0 0 0) Streaming false None None (head_genesis []) [] []
  end.

End ArchiveExample.

(** ** Persistence *)

Section Claims.
Context {SHA : Sha256} {SHA_ok : Sha256Ok}.

(** C15.  An archive state that the operations can reach, with sets started at whatever heads, is recovered exactly
    from its canonical bytes if and only if every set that has no checkpoint yet stands at a genesis head (ordinal
    zero), as every set started at one does; reopening durable media then loses nothing and never reports
    [Malformed]. *)
Theorem archive_reachable_roundtrip (a : BackupArchiveStateV1) :
  archive_reachable a -> (len (archive_canonical_bytes a) <= usize_max)%Z ->
  archive_from_canonical_bytes (archive_canonical_bytes a) = Ok a <-> rooted a.
Proof.
  intros Hr Hl. split.
  - intros Hd%archive_decode_wf. by apply archive_wf_rooted.
  - intros Hro. apply archive_roundtrip_raw; [|done]. apply archive_inv_wf, archive_inv_general.
    split; [by apply archive_reachable_general|done].
Qed.

(** C39.  Whatever bytes the decoder accepts, the state it returns is well formed (ordered
    maps, matching identities, increasing ordinals, a head that is the last checkpoint,
    preparations consistent with the lifecycle), and its own canonical bytes decode back to
    it. *)
Theorem archive_decode_sound (b : bytes) (a : BackupArchiveStateV1) :
  archive_from_canonical_bytes b = Ok a ->
  archive_wf a /\
  ((len (archive_canonical_bytes a) <= usize_max)%Z ->
   archive_from_canonical_bytes (archive_canonical_bytes a) = Ok a).
Proof.
  intros Hd. pose proof (archive_decode_wf _ _ Hd) as Hw. split; [done|].
  intros Hl. by apply archive_roundtrip_raw.
Qed.

(** Distinct well-formed archive states never share canonical bytes, so a signature over
    the bytes pins one state. *)
Theorem archive_canonical_injective (a b : BackupArchiveStateV1) :
  archive_wf a -> archive_wf b -> (len (archive_canonical_bytes a) <= usize_max)%Z ->
  archive_canonical_bytes a = archive_canonical_bytes b -> a = b.
Proof.
  intros Ha Hb Hl He. pose proof (archive_roundtrip_raw a Ha Hl) as H1.
  rewrite He in Hl, H1. rewrite (archive_roundtrip_raw b Hb Hl) in H1. congruence.
Qed.

(** ** Safety of reachable archives *)

(** In a reachable archive whose sets started at genesis heads every set's checkpoints are numbered 1, 2, 3, ... with each
    naming the digest of its predecessor back to the genesis digest, the head is the last of
    them, the first and only base chunk comes first, and WAL segments stay on its timeline
    and do not start before it. *)
Theorem archive_chain_integrity (a : BackupArchiveStateV1) (set : BackupSetId) (s : BackupSetState) :
  archive_reachable a -> rooted a -> get_set a set = Ok s ->
  (exists genesis, linked 0 genesis (checkpoints s) /\
     (checkpoints s = [] -> head s = head_genesis genesis)) /\
  head_matches (head s) (checkpoints s) /\ base_first (checkpoints s) /\
  match checkpoints s with
  | [] => True
  | b :: cs => checkpoint_kind b = BaseChunk /\ Forall (wal_follows b) cs
  end.
Proof.
  intros Hr Hro Hg%get_set_Ok.
  pose proof (archive_inv_get _ _ _ (proj2 (archive_inv_general a) (conj (archive_reachable_general _ Hr) Hro)) Hg) as [Hw Hch Hb _ _].
  pose proof (sw_check _ _ Hw) as Hck. rewrite check_set_Ok in Hck. destruct Hck as (Hbf & Hh & _).
  split_and!; try done. destruct Hch as (g & Hlk & Hg0). exists g. split; [done|].
  intros E. specialize (Hg0 E). rewrite E in Hh. unfold head_matches in Hh. simpl in Hh.
  destruct (head s). unfold head_genesis. simpl in *. congruence.
Qed.

(** C3.  While a restore hold on a set is active, the set is still streaming and every step
    towards deletion is refused with [RestoreHoldPresent]. *)
Theorem active_hold_blocks_retirement (a : BackupArchiveStateV1) (set : BackupSetId) (s : BackupSetState)
  (d : Digest) :
  archive_reachable a -> get_set a set = Ok s -> any_active_hold s = true ->
  lifecycle s = Streaming /\
  begin_sealing a set = Err RestoreHoldPresent /\
  commit_sealed a set = Err RestoreHoldPresent /\
  prepare_deletion a set d = Err RestoreHoldPresent.
Proof.
  intros Hr Hg Ha. apply get_set_Ok in Hg as Hg'.
  pose proof (archive_general_get _ _ _ (archive_reachable_general _ Hr) Hg') as [[_ _ _ Hq Hhb]|(iid & gid & h & -> & _)]; [|done].
  assert (lifecycle s = Streaming) as Hl.
  { destruct (decide (lifecycle s = Streaming)) as [|Hn]; [done|]. apply Hq in Hn as [Hn _]. congruence. }
  assert (has_base_checkpoint s = true) as Hb.
  { apply Hhb. intros E. unfold any_active_hold in Ha. by rewrite E in Ha. }
  unfold begin_sealing, commit_sealed, prepare_deletion, require_no_active_holds. rewrite Hg. simpl.
  by rewrite Hl, eqb_refl, Hb, Ha.
Qed.

(** A reachable set whose archive key is erased had its deletion prepared under some
    digest, its key erasure was prepared under the same digest, and no hold was active. *)
Theorem key_erasure_was_prepared (a : BackupArchiveStateV1) (set : BackupSetId) (s : BackupSetState) :
  archive_reachable a -> get_set a set = Ok s -> erased_stage (lifecycle s) = true ->
  exists d, deletion_preparation s = Some d /\ key_erasure_preparation s = Some d /\
    any_active_hold s = false.
Proof.
  intros Hr Hg%get_set_Ok He.
  pose proof (archive_general_get _ _ _ (archive_reachable_general _ Hr) Hg) as [[Hw _ _ Hq _]|(iid & gid & h & -> & _)]; [|done].
  destruct (set_wf_key_stage _ _ Hw) as (_ & Hk & Hn). specialize (Hn He).
  destruct (key_erasure_preparation s) as [d|]; [|done]. destruct Hk as [|Hk]; [done|].
  exists d. split_and!; try done. apply Hq. by destruct (lifecycle s).
Qed.

(** History only grows: along any sequence of operations a set keeps its identity, its
    lifecycle never moves back, its checkpoint list is only extended, and no hold disappears
    or, once released, changes. *)
Theorem archive_history_only_grows (a b : BackupArchiveStateV1) (set : BackupSetId) (s : BackupSetState) :
  archive_steps a b -> get_set a set = Ok s ->
  exists s', get_set b set = Ok s' /\ set_extends s s'.
Proof.
  intros Hs Hg%get_set_Ok. destruct (archive_steps_extends _ _ _ _ Hs Hg) as (s' & Hg' & He).
  exists s'. split; [by apply get_set_Ok|done].
Qed.

(** ** Operations against the witness *)

(** What an operation (other than a hold release) produces from a reachable archive of rooted sets is accepted by the
    exact-successor predicate the witness evaluates for that event, unless it started a set at a head other than a
    genesis head. *)
Theorem archive_step_witnessed (a a' : BackupArchiveStateV1) (op : ArchiveOp) (set : BackupSetId) :
  archive_reachable a -> rooted a -> archive_step a op set a' -> op <> OpRelease ->
  witness_predicate op a' a = true <-> rooted a'.
Proof.
  intros Hr Hro Hs Hne. eapply archive_step_predicate; [|done..].
  apply archive_inv_general. split; [by apply archive_reachable_general|done].
Qed.

Lemma released_holds_length k s s' : set_edge k s OpRelease s' ->
  length (holds s') = length (holds s) /\ holds s' <> holds s /\ checkpoints s' = checkpoints s /\
  lifecycle s' = lifecycle s.
Proof.
  inversion 1 as [|?|hid h reason Hr Hg Hn| | | | | | ]; subst; simpl. split_and!; try done.
  - apply BTree.length_update.
  - intros Heq. apply (f_equal (fun m => BTree.get m hid)) in Heq.
    rewrite BTree.get_update_eq, Hg in Heq. destruct h. simplify_eq/=.
Qed.

Lemma witness_edge_holds op k s s' :
  witness_edge op k s s' = true -> op <> OpHold -> holds s' = holds s.
Proof.
  destruct op; simpl; try done; intros Hw _;
    unfold checkpoint_edge, lifecycle_edge, prepared_deletion_edge, key_erasure_prepared_edge in Hw;
    bool_hyps; done.
Qed.

(** No archive event carries a hold release: for every kind of event the witness rejects
    the state [release_restore_hold] produces. *)
Theorem hold_release_never_witnessed (a a' : BackupArchiveStateV1) (op : ArchiveOp) (set : BackupSetId) :
  archive_general a -> archive_step a OpRelease set a' -> witness_predicate op a' a = false.
Proof.
  intros Hi Hs. pose proof (archive_step_general _ _ _ _ Hi Hs) as Hi'.
  apply archive_step_moves in Hs as (s & s' & Hg & He & Ha'); [|done].
  destruct (decide (op = OpStart)) as [->|Hst].
  { simpl. unfold is_exact_started_successor_of, BTree.len. subst a'. unfold update_set. simpl.
    rewrite BTree.length_update. case_match; [done|]. bool_hyps. lia. }
  apply not_true_iff_false. intros Hp%witness_predicate_edge; [|done|apply Hi'|apply Hi].
  destruct Hp as (k & before & after & Hk & Hne & Hw & Heq).
  assert (BTree.get (sets a') set = Some s') as Hg'.
  { subst a'. unfold update_set. simpl. by rewrite BTree.get_update_eq, Hg. }
  destruct (released_holds_length _ _ _ He) as (Hlen & Hh & _).
  destruct (decide (set = k)) as [->|Hsk].
  - assert (after = s' /\ before = s) as [-> ->].
    { rewrite Heq in Hg'. unfold update_set in Hg'. simpl in Hg'. rewrite BTree.get_update_eq, Hk in Hg'.
      simpl in Hg'. by simplify_eq. }
    destruct (decide (op = OpHold)) as [->|Ho].
    + simpl in Hw. unfold hold_edge, BTree.len in Hw. bool_hyps. lia.
    + apply witness_edge_holds in Hw; done.
  - rewrite Heq in Hg'. unfold update_set in Hg'. simpl in Hg'. rewrite BTree.get_update_ne in Hg' by done.
    rewrite Hg in Hg'. simplify_eq.
Qed.

(** When the set that changed was streaming, a successor the witness accepts for
    [ArchiveCheckpointCommitted] is exactly the result of [commit_checkpoint] under the
    reservation for its last checkpoint. *)
Theorem checkpoint_successor_is_commit (self prev : BackupArchiveStateV1) :
  BTree.ordered (sets self) -> BTree.ordered (sets prev) ->
  is_exact_checkpoint_successor_of self prev = true ->
  (forall set s, get_set prev set = Ok s -> get_set self set <> Ok s ->
     lifecycle s = Streaming /\ (checkpoint_ordinal (head s) < u64_max)%Z) ->
  exists set expected object r,
    reservation_new set expected object = Ok r /\
    commit_checkpoint prev r (checkpoint_from_reservation r) = Ok self.
Proof.
  intros Hos Hop Hx Hstr. apply exact_successor_spec in Hx; [|done..].
  destruct Hx as (k & s & s' & Hg & Hne & He & ->).
  destruct (Hstr k s) as [Hl Hm]; [by apply get_set_Ok| |].
  { rewrite get_set_Ok. unfold update_set. simpl. rewrite BTree.get_update_eq, Hg. simpl. congruence. }
  apply checkpoint_edge_true in He as (c & -> & Hs & Hv & Ho & Hp).
  unfold checked_add in Ho. rewrite (proj2 (Z.leb_le _ _)) in Ho by lia. simpl in Ho.
  exists k, (head s), (checkpoint_object c), (mkReservation k (head s) (checkpoint_object c)). split.
  - unfold reservation_new, ordinal_is_not_next, checked_add. rewrite (proj2 (Z.leb_le _ _)) by lia.
    unfold checkpoint_set, checkpoint_ord in *. by rewrite Hs, Hp, Ho, !eqb_refl, Z.eqb_refl.
  - unfold commit_checkpoint, checkpoint_from_reservation. simpl. rewrite (proj2 (get_set_Ok _ _ _) Hg). simpl.
    rewrite Hl, !eqb_refl. simpl. rewrite Hv. simpl. f_equal. eapply update_set_ext; [done|].
    destruct c. unfold set_lifecycle, set_chain. simpl in *. by rewrite Hl.
Qed.

(** The checkpoint predicate does not ask that the changed set was streaming before: a
    set in any later stage of its lifecycle is accepted back into [Streaming] when a valid
    next checkpoint is appended to it. *)
Theorem checkpoint_successor_reopens (a : BackupArchiveStateV1) (k : BackupSetId) (s : BackupSetState)
  (c : WalArchiveCheckpoint) :
  BTree.ordered (sets a) -> get_set a k = Ok s -> lifecycle s <> Streaming ->
  checkpoint_set c = k -> validate_append_kind s (checkpoint_object c) = Ok tt ->
  checkpoint_ord c = (checkpoint_ordinal (head s) + 1)%Z -> (checkpoint_ord c <= u64_max)%Z ->
  predecessor_head_digest (to_input (checkpoint_object c)) = head_digest (head s) ->
  exists a', is_exact_checkpoint_successor_of a' a = true /\ archive_lifecycle a' k = Ok Streaming.
Proof.
  intros Ho Hg Hl Hs Hv Hord Hm Hp. apply get_set_Ok in Hg.
  set (s' := set_lifecycle Streaming
    (set_chain (mkHead (checkpoint_ord c) (checkpoint_digest c)) (checkpoints s ++ [c]) s)).
  exists (update_set k (fun _ => s') a). split.
  - apply exact_successor_spec; [by apply BTree.ordered_update|done|]. exists k, s, s'. split_and!; try done.
    + intros E. apply (f_equal lifecycle) in E. simpl in E. congruence.
    + apply checkpoint_edge_true. exists c. split_and!; try done.
      unfold checked_add. rewrite (proj2 (Z.leb_le _ _)) by lia. done.
  - unfold archive_lifecycle, get_set, update_set. simpl. by rewrite BTree.get_update_eq, Hg.
Qed.

End Claims.

(** ** The theorems at the concrete archive *)

Section Instances.
Import Toy ArchiveExample.
Local Open Scope Z_scope.

Lemma held_rooted : rooted held.
Proof. repeat constructor. vm_compute. discriminate. Qed.

Lemma archive_reachable_roundtrip_at_held :
  archive_from_canonical_bytes (archive_canonical_bytes held) = Ok held /\
  archive_from_canonical_bytes (archive_canonical_bytes headless) <> Ok headless.
Proof.
  split.
  - apply (archive_reachable_roundtrip held); [apply held_reachable|by vm_compute|apply held_rooted].
  - intros H. apply (archive_reachable_roundtrip headless) in H; [|apply headless_reachable|by vm_compute].
    inversion H as [|? ? Hh _]; subst. specialize (Hh eq_refl). vm_compute in Hh. discriminate.
Defined.

Lemma archive_decode_sound_at_sealed :
  archive_wf sealed /\
  ((len (archive_canonical_bytes sealed) <= usize_max)%Z ->
   archive_from_canonical_bytes (archive_canonical_bytes sealed) = Ok sealed).
Proof. apply (archive_decode_sound (archive_canonical_bytes sealed) sealed). by vm_compute. Defined.

Lemma archive_canonical_injective_at_held : held = held.
Proof.
  apply (archive_canonical_injective held held);
    [apply archive_inv_wf, archive_inv_general, (conj (archive_reachable_general _ held_reachable) held_rooted)..|by vm_compute|reflexivity].
Defined.

Lemma archive_chain_integrity_at_held :
  head_matches (head (set5 held)) (checkpoints (set5 held)) /\ base_first (checkpoints (set5 held)).
Proof.
  pose proof (archive_chain_integrity held 5 (set5 held) held_reachable held_rooted ltac:(by vm_compute)) as H.
  exact (conj (proj1 (proj2 H)) (proj1 (proj2 (proj2 H)))).
Defined.

Lemma active_hold_blocks_retirement_at_held : begin_sealing held 5 = Err RestoreHoldPresent.
Proof.
  apply (active_hold_blocks_retirement held 5 (set5 held) d0);
    [apply held_reachable|by vm_compute|by vm_compute].
Defined.

Lemma key_erasure_was_prepared_at_key_erased :
  exists d, deletion_preparation (set5 key_erased) = Some d /\
    key_erasure_preparation (set5 key_erased) = Some d /\ any_active_hold (set5 key_erased) = false.
Proof.
  apply (key_erasure_was_prepared key_erased 5 (set5 key_erased));
    [apply key_erased_reachable|by vm_compute|by vm_compute].
Defined.

Lemma archive_history_only_grows_at_held :
  exists s', get_set held 5 = Ok s' /\ set_extends (set5 started) s'.
Proof.
  apply (archive_history_only_grows started held 5 (set5 started)); [|by vm_compute].
  eapply steps_cons; [apply based_step|]. eapply steps_cons; [apply held_step|]. apply steps_refl.
Defined.

Lemma archive_step_witnessed_at_hold : witness_predicate OpHold held based = true.
Proof. apply (archive_step_witnessed based held OpHold 5); [apply based_reachable|repeat constructor; vm_compute; discriminate|apply held_step|done|apply held_rooted]. Defined.

Lemma hold_release_never_witnessed_at_held : witness_predicate OpHold released held = false.
Proof. apply (hold_release_never_witnessed held released OpHold 5); [apply archive_reachable_general, held_reachable|apply released_step]. Defined.

Lemma checkpoint_successor_is_commit_at_based :
  exists set expected object r, reservation_new set expected object = Ok r /\
    commit_checkpoint started r (checkpoint_from_reservation r) = Ok based.
Proof.
  apply (checkpoint_successor_is_commit based started);
    [apply (archive_reachable_general based based_reachable)
    |apply (archive_reachable_general started started_reachable)|by vm_compute|].
  intros set s Hg _. assert (s = set5 started) as ->; [|by vm_compute].
  unfold get_set in Hg. simpl in Hg. case_match; simplify_eq/=; done.
Defined.

Lemma checkpoint_successor_reopens_at_sealed :
  exists a', is_exact_checkpoint_successor_of a' sealed = true /\ archive_lifecycle a' 5 = Ok Streaming.
Proof.
  apply (checkpoint_successor_reopens sealed 5 (set5 sealed) wal_checkpoint);
    [apply (archive_reachable_general sealed sealed_reachable)|by vm_compute..].
Defined.

End Instances.
