(* ===== verification/RestoreCutover.v ===== *)
(** * Restore and cutover values

    [crates/vestrace-domain/src/restore_cutover.rs]: the lexical check of restore roots, the
    source freeze point, the one-way progress of a restore attempt, the activation plan and
    the terminal receipt, with their canonical encodings.  Each value is a [Canonical]
    instance: what the witness state, which nests them, relies on. *)

From Stdlib Require Import ZArith Lia String Strings.Byte.
From stdpp Require Import base option numbers list.
From S2P Require Import Prelude Codec Crypto BackupArchive BackupArchiveProps.

Definition RESTORE_ATTEMPT_PROGRESS_DOMAIN : bytes := byte_string "vestrace-restore-attempt-progress-v1".
Definition SOURCE_FREEZE_POINT_DOMAIN : bytes := byte_string "vestrace-source-freeze-point-v1".
Definition TARGET_ACTIVATION_PLAN_DOMAIN : bytes := byte_string "vestrace-target-activation-plan-v1".
Definition RESTORE_TERMINAL_RECEIPT_DOMAIN : bytes := byte_string "vestrace-restore-terminal-receipt-v1".

Inductive RestoreCutoverError : Type :=
| Malformed
| OverlappingRoots
| RelativeRoot
| InvalidFreezePoint
| TargetGenerationMatchesSource
| FreezeGenerationMismatch
| InvalidAttemptTransition.

#[export] Instance RestoreCutoverError_eq_dec : EqDecision RestoreCutoverError.
Proof. solve_decision. Defined.

#[export] Instance RestoreCutoverError_malformed : HasMalformed RestoreCutoverError := Malformed.

Abbreviation RestoreAttemptId := Uuid (only parsing).
Abbreviation RestoreTargetId := Uuid (only parsing).

(** ** Restore roots

    A Unix path as [Path::components] yields it: Windows' [Prefix] component does not occur.
    A segment of a [Normal] component is its bytes. *)

Inductive Component : Type :=
| RootDir
| CurDir
| ParentDir
| Normal (segment : bytes).

#[export] Instance Component_eq_dec : EqDecision Component.
Proof. solve_decision. Defined.

Definition PathBuf : Type := list Component.

(** [Path::is_absolute]: the path has a root. *)
Definition is_absolute (p : PathBuf) : bool :=
  match p with RootDir :: _ => true | _ => false end.

(** [PathBuf::push] of one component: an absolute component replaces the path. *)
Definition path_push (p : PathBuf) (c : Component) : PathBuf :=
  match c with RootDir => [RootDir] | _ => p ++ [c] end.

(** [PathBuf::pop]: truncates to the parent, and does nothing when there is none
    ([Path::parent] is [None] for the root and for the empty path). *)
Definition path_pop (p : PathBuf) : PathBuf :=
  match last p with
  | None | Some RootDir => p
  | Some _ => removelast p
  end.

Definition normalize_step (normalized : PathBuf) (c : Component) : PathBuf :=
  match c with
  | RootDir => path_push normalized RootDir
  | CurDir => normalized
  | ParentDir => path_pop normalized
  | Normal segment => path_push normalized (Normal segment)
  end.

Definition lexical_normalize (p : PathBuf) : PathBuf := fold_left normalize_step p [].

(** [Path::starts_with]: whole components. *)
Fixpoint path_starts_with (p prefix : PathBuf) : bool :=
  match prefix, p with
  | [], _ => true
  | c :: prefix', d :: p' => (c == d) && path_starts_with p' prefix'
  | _ :: _, [] => false
  end.

Record RestoreTargetRoots : Type := mkRoots { source_root : PathBuf; target_root : PathBuf }.

Definition roots_new (source target : PathBuf) : result RestoreCutoverError RestoreTargetRoots :=
  if negb (is_absolute source) || negb (is_absolute target) then Err RelativeRoot else
  let source_root := lexical_normalize source in
  let target_root := lexical_normalize target in
  if path_starts_with source_root target_root || path_starts_with target_root source_root
  then Err OverlappingRoots
  else Ok (mkRoots source_root target_root).

(** ** The freeze point *)

Record SourceFreezePoint : Type := mkFreeze {
  freeze_generation_id : DatabaseGenerationId;
  timeline : Z;
  lsn : Z;
  mutation_watermark : Z;
}.

#[export] Instance SourceFreezePoint_eq_dec : EqDecision SourceFreezePoint.
Proof. solve_decision. Defined.

Definition freeze_new (g : DatabaseGenerationId) (tl ls wm : Z)
    : result RestoreCutoverError SourceFreezePoint :=
  if (tl =? 0)%Z || (ls =? 0)%Z then Err InvalidFreezePoint else Ok (mkFreeze g tl ls wm).

Definition freeze_canonical_bytes (f : SourceFreezePoint) : bytes :=
  field SOURCE_FREEZE_POINT_DOMAIN ++ field (uuid_bytes (freeze_generation_id f)) ++
  u32_bytes (timeline f) ++ u64_bytes (lsn f) ++ u64_bytes (mutation_watermark f).

Definition freeze_decode : Dec RestoreCutoverError SourceFreezePoint :=
  dec_domain SOURCE_FREEZE_POINT_DOMAIN;;
  g ← dec_uuid; tl ← dec_u32; ls ← dec_u64; wm ← dec_u64;
  lift (freeze_new g tl ls wm).

Definition freeze_from_canonical_bytes : bytes -> result RestoreCutoverError SourceFreezePoint :=
  run (v ← freeze_decode; dec_finish;; mret v).

(** ** The terminal receipt *)

Record RestoreTerminalReceipt : Type := mkTerminal {
  rt_attempt_id : RestoreAttemptId;
  rt_target_id : RestoreTargetId;
  rt_release_reason : RestoreHoldReleaseReason;
}.

#[export] Instance RestoreTerminalReceipt_eq_dec : EqDecision RestoreTerminalReceipt.
Proof. solve_decision. Defined.

Definition terminal_canonical_bytes (r : RestoreTerminalReceipt) : bytes :=
  let '(kind, receipt) :=
    match rt_release_reason r with
    | TargetInitializationComplete receipt => (0%Z, receipt)
    | SourceResumePrepared receipt => (1%Z, receipt)
    | RefusedTargetDestroyed receipt => (2%Z, receipt)
    | SalvageInstallationCompleted receipt => (3%Z, receipt)
    end in
  field RESTORE_TERMINAL_RECEIPT_DOMAIN ++ field (uuid_bytes (rt_attempt_id r)) ++
  field (uuid_bytes (rt_target_id r)) ++ u8_bytes kind ++ field receipt.

Definition terminal_from_canonical_bytes : bytes -> result RestoreCutoverError RestoreTerminalReceipt :=
  run (
    dec_domain RESTORE_TERMINAL_RECEIPT_DOMAIN;;
    aid ← dec_uuid; tid ← dec_uuid; kind ← dec_u8; receipt ← dec_digest;
    dec_finish;;
    reason ← lift match kind with
                  | 0%Z => Ok (TargetInitializationComplete receipt)
                  | 1%Z => Ok (SourceResumePrepared receipt)
                  | 2%Z => Ok (RefusedTargetDestroyed receipt)
                  | 3%Z => Ok (SalvageInstallationCompleted receipt)
                  | _ => Err Malformed
                  end;
    mret (mkTerminal aid tid reason)).

(** ** The progress of an attempt *)

Record RestoreAttemptProgress : Type := mkProgress {
  rp_attempt_id : RestoreAttemptId;
  rp_target_id : RestoreTargetId;
  rp_backup_set_id : BackupSetId;
  rp_hold_id : RestoreHoldId;
  rp_source_generation_id : DatabaseGenerationId;
  rp_target_generation_id : DatabaseGenerationId;
  rp_source_freeze : option SourceFreezePoint;
  rp_terminal_receipt : option RestoreTerminalReceipt;
}.

#[export] Instance RestoreAttemptProgress_eq_dec : EqDecision RestoreAttemptProgress.
Proof. solve_decision. Defined.

Definition progress_prepare (aid : RestoreAttemptId) (tid : RestoreTargetId) (sid : BackupSetId)
    (hid : RestoreHoldId) (sg tg : DatabaseGenerationId) : result RestoreCutoverError RestoreAttemptProgress :=
  if sg == tg then Err TargetGenerationMatchesSource
  else Ok (mkProgress aid tid sid hid sg tg None None).

Definition record_source_freeze (p : RestoreAttemptProgress) (f : SourceFreezePoint)
    : result RestoreCutoverError RestoreAttemptProgress :=
  if is_some (rp_source_freeze p) || (freeze_generation_id f !== rp_source_generation_id p)
  then Err InvalidAttemptTransition
  else Ok (mkProgress (rp_attempt_id p) (rp_target_id p) (rp_backup_set_id p) (rp_hold_id p)
    (rp_source_generation_id p) (rp_target_generation_id p) (Some f) (rp_terminal_receipt p)).

Definition record_terminal_receipt (p : RestoreAttemptProgress) (r : RestoreTerminalReceipt)
    : result RestoreCutoverError RestoreAttemptProgress :=
  if is_none (rp_source_freeze p) || is_some (rp_terminal_receipt p)
     || (rt_attempt_id r !== rp_attempt_id p) || (rt_target_id r !== rp_target_id p)
  then Err InvalidAttemptTransition
  else Ok (mkProgress (rp_attempt_id p) (rp_target_id p) (rp_backup_set_id p) (rp_hold_id p)
    (rp_source_generation_id p) (rp_target_generation_id p) (rp_source_freeze p) (Some r)).

Definition progress_canonical_bytes (p : RestoreAttemptProgress) : bytes :=
  field RESTORE_ATTEMPT_PROGRESS_DOMAIN ++ field (uuid_bytes (rp_attempt_id p)) ++
  field (uuid_bytes (rp_target_id p)) ++ field (uuid_bytes (rp_backup_set_id p)) ++
  field (uuid_bytes (rp_hold_id p)) ++ field (uuid_bytes (rp_source_generation_id p)) ++
  field (uuid_bytes (rp_target_generation_id p)) ++
  match rp_source_freeze p with
  | Some f => u8_bytes 1 ++ field (freeze_canonical_bytes f)
  | None => u8_bytes 0
  end ++
  match rp_terminal_receipt p with
  | Some r => u8_bytes 1 ++ field (terminal_canonical_bytes r)
  | None => u8_bytes 0
  end.

Definition progress_from_canonical_bytes : bytes -> result RestoreCutoverError RestoreAttemptProgress :=
  run (
    dec_domain RESTORE_ATTEMPT_PROGRESS_DOMAIN;;
    aid ← dec_uuid; tid ← dec_uuid; sid ← dec_uuid; hid ← dec_uuid; sg ← dec_uuid; tg ← dec_uuid;
    prepared ← lift (progress_prepare aid tid sid hid sg tg);
    k ← dec_u8;
    frozen ← match k with
             | 0%Z => mret prepared
             | 1%Z => b ← dec_field; lift (f ← freeze_from_canonical_bytes b; record_source_freeze prepared f)
             | _ => lift (Err Malformed)
             end;
    k' ← dec_u8;
    value ← match k' with
            | 0%Z => mret frozen
            | 1%Z => b ← dec_field;
                     lift (r ← terminal_from_canonical_bytes b; record_terminal_receipt frozen r)
            | _ => lift (Err Malformed)
            end;
    dec_finish;; mret value).

(** ** The activation plan *)

Record TargetActivationPlan : Type := mkPlan {
  tp_attempt_id : RestoreAttemptId;
  tp_target_id : RestoreTargetId;
  tp_backup_set_id : BackupSetId;
  tp_source_generation_id : DatabaseGenerationId;
  tp_target_generation_id : DatabaseGenerationId;
  tp_source_freeze : SourceFreezePoint;
  tp_archive_head_digest : Digest;
}.

#[export] Instance TargetActivationPlan_eq_dec : EqDecision TargetActivationPlan.
Proof. solve_decision. Defined.

Definition plan_new (aid : RestoreAttemptId) (tid : RestoreTargetId) (sid : BackupSetId)
    (sg tg : DatabaseGenerationId) (f : SourceFreezePoint) (d : Digest)
    : result RestoreCutoverError TargetActivationPlan :=
  if sg == tg then Err TargetGenerationMatchesSource else
  if freeze_generation_id f !== sg then Err FreezeGenerationMismatch else
  Ok (mkPlan aid tid sid sg tg f d).

Definition plan_canonical_bytes (p : TargetActivationPlan) : bytes :=
  field TARGET_ACTIVATION_PLAN_DOMAIN ++ field (uuid_bytes (tp_attempt_id p)) ++
  field (uuid_bytes (tp_target_id p)) ++ field (uuid_bytes (tp_backup_set_id p)) ++
  field (uuid_bytes (tp_source_generation_id p)) ++ field (uuid_bytes (tp_target_generation_id p)) ++
  field (freeze_canonical_bytes (tp_source_freeze p)) ++ field (tp_archive_head_digest p).

Definition plan_digest `{!Sha256} (p : TargetActivationPlan) : Digest :=
  digest_of (plan_canonical_bytes p).

Definition plan_from_canonical_bytes : bytes -> result RestoreCutoverError TargetActivationPlan :=
  run (
    dec_domain TARGET_ACTIVATION_PLAN_DOMAIN;;
    aid ← dec_uuid; tid ← dec_uuid; sid ← dec_uuid; sg ← dec_uuid; tg ← dec_uuid;
    b ← dec_field; f ← lift (freeze_from_canonical_bytes b);
    d ← dec_digest;
    dec_finish;;
    lift (plan_new aid tid sid sg tg f d)).
