(* ===== verification/RestoreCutoverProps.v ===== *)
(** * Restore and cutover: properties

    Normalised roots and their disjointness; what each constructor and decoder guarantees;
    the reachable states of a restore attempt and their round trip. *)

From Stdlib Require Import ZArith Lia String Strings.Byte.
From stdpp Require Import base option numbers list.
From S2P Require Import Prelude Codec Crypto BackupArchive BackupArchiveProps RestoreCutover.

(** ** Roots *)

Definition is_normal (c : Component) : bool := match c with Normal _ => true | _ => false end.

(** The shape of a normalised absolute path. *)
Definition normalized_absolute (p : PathBuf) : Prop :=
  exists segments, p = RootDir :: segments /\ Forall (fun c => is_normal c = true) segments.

Lemma path_starts_with_spec p q : path_starts_with p q = true <-> exists r, p = q ++ r.
Proof.
  revert p. induction q as [|c q IH]; intros [|d p]; simpl; try naive_solver.
  rewrite andb_true_iff, eqb_true, IH. naive_solver.
Qed.

Lemma path_pop_snoc p c : c <> RootDir -> path_pop (p ++ [c]) = p.
Proof. intros. unfold path_pop. rewrite last_snoc, removelast_last. by destruct c. Qed.

Lemma normalize_step_absolute p c : normalized_absolute p -> normalized_absolute (normalize_step p c).
Proof.
  intros (l & -> & Hl). destruct c; simpl.
  - by exists [].
  - by exists l.
  - destruct l as [|c l] using rev_ind; [by exists []|].
    change (RootDir :: l ++ [c]) with ((RootDir :: l) ++ [c]).
    apply Forall_app in Hl as [Hl Hc]. rewrite path_pop_snoc; [by exists l|].
    by inversion Hc; destruct c.
  - exists (l ++ [Normal segment]). split; [done|]. apply Forall_app. split; [done|]. by constructor.
Qed.

Lemma lexical_normalize_absolute p : is_absolute p = true -> normalized_absolute (lexical_normalize p).
Proof.
  destruct p as [|[] p]; try done. intros _. unfold lexical_normalize. simpl.
  assert (normalized_absolute [RootDir]) as H by (by exists []). revert H. generalize [RootDir].
  induction p as [|c p IH]; intros q Hq; simpl; [done|]. apply IH. by apply normalize_step_absolute.
Qed.

Lemma fold_normalize_normals l acc :
  Forall (fun c => is_normal c = true) l -> fold_left normalize_step l acc = acc ++ l.
Proof.
  revert acc. induction l as [|c l IH]; intros acc H; simpl; [by rewrite app_nil_r|].
  apply Forall_cons in H as [Hc Hl]. rewrite IH by done. destruct c; try done. simpl. by rewrite <-app_assoc.
Qed.

Lemma lexical_normalize_fixed p : normalized_absolute p -> lexical_normalize p = p.
Proof.
  intros (l & -> & Hl). unfold lexical_normalize. simpl. by rewrite fold_normalize_normals.
Qed.

(** ** Well-formed values *)

Record freeze_wf (f : SourceFreezePoint) : Prop := {
  fw_gen : valid_uuid (freeze_generation_id f);
  fw_timeline : in_range u32_max (timeline f) /\ timeline f <> 0%Z;
  fw_lsn : in_range u64_max (lsn f) /\ lsn f <> 0%Z;
  fw_watermark : in_range u64_max (mutation_watermark f);
}.

Lemma freeze_new_Ok g tl ls wm f :
  freeze_new g tl ls wm = Ok f <-> tl <> 0%Z /\ ls <> 0%Z /\ f = mkFreeze g tl ls wm.
Proof.
  unfold freeze_new. destruct (Z.eqb_spec tl 0), (Z.eqb_spec ls 0); simpl; naive_solver.
Qed.

Lemma freeze_decode_parses rest f : freeze_wf f -> parses rest freeze_decode (freeze_canonical_bytes f) f.
Proof.
  intros [Hg [Ht Ht0] [Hl Hl0] Hw]. unfold freeze_decode, freeze_canonical_bytes.
  parse_all. apply parses_lift, freeze_new_Ok. by destruct f.
Qed.

Lemma freeze_decode_yields : yields freeze_decode freeze_wf.
Proof.
  unfold freeze_decode. eapply yields_bind; [apply yields_any|]. intros _ _.
  eapply yields_bind; [apply yields_uuid|]. intros g Hg.
  eapply yields_bind; [apply yields_u32|]. intros tl Ht.
  eapply yields_bind; [apply yields_u64|]. intros ls Hl.
  eapply yields_bind; [apply yields_u64|]. intros wm Hw.
  apply yields_lift. intros f (? & ? & ->)%freeze_new_Ok. by constructor.
Qed.

Definition terminal_wf (r : RestoreTerminalReceipt) : Prop :=
  valid_uuid (rt_attempt_id r) /\ valid_uuid (rt_target_id r) /\
  valid_digest (reason_receipt (rt_release_reason r)).

Lemma freeze_roundtrip (x : SourceFreezePoint) :
  freeze_wf x -> (len (freeze_canonical_bytes x) <= usize_max)%Z -> freeze_from_canonical_bytes (freeze_canonical_bytes x) = Ok x.
Proof.
  rename x into f. intros Hf Hl. apply run_parses; [|done]. eapply parses_bind_l; [by apply freeze_decode_parses|].
  parse_all.
Qed.

#[export] Instance freeze_canonical : Canonical RestoreCutoverError SourceFreezePoint := {
  canonical := freeze_canonical_bytes;
  of_canonical := freeze_from_canonical_bytes;
  valid := freeze_wf;
  canonical_roundtrip := freeze_roundtrip;
}.

Lemma terminal_roundtrip (x : RestoreTerminalReceipt) :
  terminal_wf x -> (len (terminal_canonical_bytes x) <= usize_max)%Z -> terminal_from_canonical_bytes (terminal_canonical_bytes x) = Ok x.
Proof.
  destruct x as [a t r]. intros (Ha & Ht & Hr) Hl. apply run_parses; [|done]. unfold terminal_canonical_bytes in *.
  clear Hl. destruct r; cbn [rt_attempt_id rt_target_id rt_release_reason reason_receipt] in *; do 3 parse_step;
    (eapply parses_bind; [apply parses_u8; done|]); parse_all.
Qed.

#[export] Instance terminal_canonical : Canonical RestoreCutoverError RestoreTerminalReceipt := {
  canonical := terminal_canonical_bytes;
  of_canonical := terminal_from_canonical_bytes;
  valid := terminal_wf;
  canonical_roundtrip := terminal_roundtrip;
}.

Lemma freeze_from_sound b f : freeze_from_canonical_bytes b = Ok f -> freeze_wf f.
Proof.
  apply run_yields. eapply yields_bind; [apply freeze_decode_yields|]. intros v Hv.
  eapply yields_bind; [apply yields_any|]. intros _ _. by apply yields_ret.
Qed.

Lemma terminal_from_sound b r : terminal_from_canonical_bytes b = Ok r -> terminal_wf r.
Proof.
  apply run_yields. eapply yields_bind; [apply yields_any|]. intros _ _.
  eapply yields_bind; [apply yields_uuid|]. intros a Ha.
  eapply yields_bind; [apply yields_uuid|]. intros t Ht.
  eapply yields_bind; [apply yields_any|]. intros k _.
  eapply yields_bind; [apply yields_digest|]. intros d Hd.
  eapply yields_bind; [apply yields_any|]. intros _ _.
  eapply (yields_bind _ _ (fun x => valid_digest (reason_receipt x))).
  - apply yields_lift. intros x Hx. repeat case_match; simplify_eq; done.
  - intros x Hx. by apply yields_ret.
Qed.

(** ** Attempts *)

(** The states of one attempt: prepared, then frozen, then terminal. *)
Inductive attempt_reachable : RestoreAttemptProgress -> Prop :=
| attempt_prepared aid tid sid hid sg tg p :
    Forall valid_uuid [aid; tid; sid; hid; sg; tg] ->
    progress_prepare aid tid sid hid sg tg = Ok p -> attempt_reachable p
| attempt_frozen p f p' :
    attempt_reachable p -> freeze_wf f -> record_source_freeze p f = Ok p' -> attempt_reachable p'
| attempt_terminal p r p' :
    attempt_reachable p -> terminal_wf r -> record_terminal_receipt p r = Ok p' -> attempt_reachable p'.

Record progress_wf (p : RestoreAttemptProgress) : Prop := {
  pw_ids : Forall valid_uuid [rp_attempt_id p; rp_target_id p; rp_backup_set_id p; rp_hold_id p;
                              rp_source_generation_id p; rp_target_generation_id p];
  pw_generations : rp_source_generation_id p <> rp_target_generation_id p;
  pw_freeze : forall f, rp_source_freeze p = Some f ->
    freeze_wf f /\ freeze_generation_id f = rp_source_generation_id p;
  pw_terminal : forall r, rp_terminal_receipt p = Some r ->
    terminal_wf r /\ rt_attempt_id r = rp_attempt_id p /\ rt_target_id r = rp_target_id p;
  pw_order : is_some (rp_terminal_receipt p) = true -> is_some (rp_source_freeze p) = true;
}.

Lemma progress_prepare_Ok aid tid sid hid sg tg p :
  progress_prepare aid tid sid hid sg tg = Ok p <->
  sg <> tg /\ p = mkProgress aid tid sid hid sg tg None None.
Proof. unfold progress_prepare. destruct (sg == tg) eqn:E; bool_hyps; naive_solver. Qed.

Lemma record_source_freeze_Ok p f p' :
  record_source_freeze p f = Ok p' <->
  rp_source_freeze p = None /\ freeze_generation_id f = rp_source_generation_id p /\
  p' = mkProgress (rp_attempt_id p) (rp_target_id p) (rp_backup_set_id p) (rp_hold_id p)
    (rp_source_generation_id p) (rp_target_generation_id p) (Some f) (rp_terminal_receipt p).
Proof.
  unfold record_source_freeze. destruct (rp_source_freeze p); simpl; [naive_solver|].
  destruct (_ !== _) eqn:E; bool_hyps; naive_solver.
Qed.

Lemma record_terminal_receipt_Ok p r p' :
  record_terminal_receipt p r = Ok p' <->
  is_some (rp_source_freeze p) = true /\ rp_terminal_receipt p = None /\
  rt_attempt_id r = rp_attempt_id p /\ rt_target_id r = rp_target_id p /\
  p' = mkProgress (rp_attempt_id p) (rp_target_id p) (rp_backup_set_id p) (rp_hold_id p)
    (rp_source_generation_id p) (rp_target_generation_id p) (rp_source_freeze p) (Some r).
Proof.
  unfold record_terminal_receipt, is_none. destruct (rp_source_freeze p); simpl; [|naive_solver].
  destruct (rp_terminal_receipt p); simpl; [naive_solver|].
  destruct (_ !== _) eqn:E1, (rt_target_id r !== _) eqn:E2; simpl; bool_hyps; naive_solver.
Qed.

Lemma attempt_reachable_wf p : attempt_reachable p -> progress_wf p.
Proof.
  induction 1 as [? ? ? ? ? ? p Hu H|p f p' _ IH Hf H|p r p' _ IH Hr H].
  - apply progress_prepare_Ok in H as [? ->]. by split.
  - apply record_source_freeze_Ok in H as (Hn & Hg & ->). destruct IH. constructor; simpl; try done.
    intros ? [= <-]. by split.
  - apply record_terminal_receipt_Ok in H as (Hs & Hn & ? & ? & ->). destruct IH. constructor; simpl; try done.
    intros ? [= <-]. by split_and!.
Qed.

Lemma progress_wf_reachable p : progress_wf p -> attempt_reachable p.
Proof.
  destruct p as [aid tid sid hid sg tg o t]. intros [Hu Hg Hf Ht Ho]. simpl in *.
  assert (attempt_reachable (mkProgress aid tid sid hid sg tg None None)) as H0.
  { eapply attempt_prepared; [done|]. by apply progress_prepare_Ok. }
  assert (attempt_reachable (mkProgress aid tid sid hid sg tg o None)) as H1.
  { destruct o as [f|]; [|done]. destruct (Hf f eq_refl).
    eapply (attempt_frozen _ f); [exact H0|done|]. by apply record_source_freeze_Ok. }
  destruct t as [r|]; [|done]. destruct (Ht r eq_refl) as (? & ? & ?).
  eapply (attempt_terminal _ r); [exact H1|done|]. apply record_terminal_receipt_Ok.
  simpl. split_and!; try done. by apply Ho.
Qed.

Lemma progress_roundtrip (x : RestoreAttemptProgress) :
  attempt_reachable x -> (len (progress_canonical_bytes x) <= usize_max)%Z -> progress_from_canonical_bytes (progress_canonical_bytes x) = Ok x.
Proof.
  rename x into p. intros Hr Hl. apply run_parses; [|done]. apply attempt_reachable_wf in Hr as [Hu Hg Hf Ht Ho].
  destruct p as [aid tid sid hid sg tg o t]. unfold progress_canonical_bytes in *. clear Hl.
  cbn [rp_attempt_id rp_target_id rp_backup_set_id rp_hold_id rp_source_generation_id
    rp_target_generation_id rp_source_freeze rp_terminal_receipt] in *.
  repeat (apply Forall_cons in Hu as [? Hu]).
  do 7 parse_step. eapply parses_bind_r; [by apply parses_lift, progress_prepare_Ok|]. cbv beta.
  assert (forall rest B (k : RestoreAttemptProgress -> Dec RestoreCutoverError B) enc b,
    parses rest (k (mkProgress aid tid sid hid sg tg o None)) enc b ->
    parses rest (n ← dec_u8;
      x ← match n with
          | 0%Z => mret (mkProgress aid tid sid hid sg tg None None)
          | 1%Z => b ← dec_field; lift (f ← freeze_from_canonical_bytes b;
                     record_source_freeze (mkProgress aid tid sid hid sg tg None None) f)
          | _ => lift (Err Malformed)
          end; k x)
      (match o with Some f => u8_bytes 1 ++ field (freeze_canonical_bytes f) | None => u8_bytes 0 end ++ enc) b) as Hfreeze.
  { intros rest B k enc b Hk. destruct o as [f|].
    - rewrite <-app_assoc. eapply parses_bind; [by apply parses_u8|]. cbv beta iota.
      eapply parses_bind; [|exact Hk]. destruct (Hf f eq_refl) as [Hw Hgf].
      apply (parses_field_then _ (fun c => y ← freeze_from_canonical_bytes c; record_source_freeze _ y)).
      intros Hl. rewrite freeze_roundtrip by done. by apply record_source_freeze_Ok.
    - eapply parses_bind; [by apply parses_u8|]. by eapply parses_bind_r; [apply parses_ret|]. }
  apply Hfreeze. clear Hfreeze. destruct t as [r|].
  - eapply parses_bind; [by apply parses_u8|]. cbv beta iota. eapply parses_bind_l; [|parse_all].
    destruct (Ht r eq_refl) as (Hw & ? & ?). 
    apply (parses_field_then _ (fun c => y ← terminal_from_canonical_bytes c; record_terminal_receipt _ y)).
    intros Hl. rewrite terminal_roundtrip by done.
    apply record_terminal_receipt_Ok. simpl. split_and!; try done. by apply Ho.
  - eapply parses_bind_l; [by apply parses_u8|]. cbv beta iota.
    eapply parses_bind_l; [apply parses_ret|]. parse_all.
Qed.

#[export] Instance progress_canonical : Canonical RestoreCutoverError RestoreAttemptProgress := {
  canonical := progress_canonical_bytes;
  of_canonical := progress_from_canonical_bytes;
  valid := attempt_reachable;
  canonical_roundtrip := progress_roundtrip;
}.

Lemma progress_from_sound b p : progress_from_canonical_bytes b = Ok p -> attempt_reachable p.
Proof.
  apply run_yields. eapply yields_bind; [apply yields_any|]. intros _ _.
  do 6 (eapply yields_bind; [apply yields_uuid|]; intros ? ?).
  eapply (yields_bind _ _ attempt_reachable).
  { apply yields_lift. intros q Hq. eapply attempt_prepared; [|exact Hq]. rewrite !Forall_cons. by split_and!. }
  intros q Hq. eapply yields_bind; [apply yields_any|]. intros k _.
  eapply (yields_bind _ _ attempt_reachable).
  { repeat case_match; subst; try (by apply yields_ret); try (by apply yields_lift).
    eapply yields_bind; [apply yields_any|]. intros c _. apply yields_lift.
    intros x (f & Hf & Hx)%bind_Ok. eapply attempt_frozen; eauto using freeze_from_sound. }
  intros x Hx. eapply yields_bind; [apply yields_any|]. intros k' _.
  eapply (yields_bind _ _ attempt_reachable).
  { repeat case_match; subst; try (by apply yields_ret); try (by apply yields_lift).
    eapply yields_bind; [apply yields_any|]. intros c _. apply yields_lift.
    intros y (r & Hr & Hy)%bind_Ok. eapply attempt_terminal; eauto using terminal_from_sound. }
  intros y Hy. eapply yields_bind; [apply yields_any|]. intros _ _. by apply yields_ret.
Qed.

(** ** Plans *)

Record plan_wf (p : TargetActivationPlan) : Prop := {
  plw_ids : Forall valid_uuid [tp_attempt_id p; tp_target_id p; tp_backup_set_id p;
                               tp_source_generation_id p; tp_target_generation_id p];
  plw_generations : tp_source_generation_id p <> tp_target_generation_id p;
  plw_freeze : freeze_wf (tp_source_freeze p);
  plw_freeze_generation : freeze_generation_id (tp_source_freeze p) = tp_source_generation_id p;
  plw_digest : valid_digest (tp_archive_head_digest p);
}.

Lemma plan_new_Ok aid tid sid sg tg f d p :
  plan_new aid tid sid sg tg f d = Ok p <->
  sg <> tg /\ freeze_generation_id f = sg /\ p = mkPlan aid tid sid sg tg f d.
Proof.
  unfold plan_new. destruct (sg == tg) eqn:E; [bool_hyps; naive_solver|].
  destruct (_ !== _) eqn:E'; bool_hyps; naive_solver.
Qed.

Lemma plan_roundtrip (x : TargetActivationPlan) :
  plan_wf x -> (len (plan_canonical_bytes x) <= usize_max)%Z -> plan_from_canonical_bytes (plan_canonical_bytes x) = Ok x.
Proof.
  rename x into p. intros [Hu Hg Hf Hfg Hd] Hl. apply run_parses; [|done]. destruct p as [aid tid sid sg tg f d].
  unfold plan_canonical_bytes in *. clear Hl.
  cbn [tp_attempt_id tp_target_id tp_backup_set_id tp_source_generation_id tp_target_generation_id
    tp_source_freeze tp_archive_head_digest] in *.
  repeat (apply Forall_cons in Hu as [? Hu]).
  do 6 parse_step.
  eapply (parses_field_bind _ freeze_from_canonical_bytes);
    [intros; by apply freeze_roundtrip|].
  parse_step. eapply parses_bind_l; [apply parses_finish|]. apply parses_lift.
  by apply plan_new_Ok.
Qed.

#[export] Instance plan_canonical : Canonical RestoreCutoverError TargetActivationPlan := {
  canonical := plan_canonical_bytes;
  of_canonical := plan_from_canonical_bytes;
  valid := plan_wf;
  canonical_roundtrip := plan_roundtrip;
}.

Lemma plan_from_sound b p : plan_from_canonical_bytes b = Ok p -> plan_wf p.
Proof.
  apply run_yields. eapply yields_bind; [apply yields_any|]. intros _ _.
  do 5 (eapply yields_bind; [apply yields_uuid|]; intros ? ?).
  eapply yields_bind; [apply yields_any|]. intros c _.
  eapply (yields_bind _ _ freeze_wf); [apply yields_lift; eauto using freeze_from_sound|]. intros f Hf.
  eapply yields_bind; [apply yields_digest|]. intros d Hd.
  eapply yields_bind; [apply yields_any|]. intros _ _.
  apply yields_lift. intros q (? & ? & ->)%plan_new_Ok. constructor; cbn; try done. rewrite !Forall_cons. by split_and!.
Qed.
