(* ===== verification/InstallationSafety.v ===== *)
(** * The installation safety journal

    [crates/vestrace-domain/src/installation_safety.rs]: the witness state, the signed journal
    entries, the head that accepts them, the receipts the witness signs, and the create-only
    bootstrap binding.  Hashing and signing are the parameters of [Crypto]. *)

From Stdlib Require Import ZArith Lia String Strings.Byte.
From stdpp Require Import base option numbers list.
From S2P Require Import Prelude BTree Codec Crypto BackupArchive RestoreCutover.

Definition JOURNAL_ENTRY_DOMAIN : bytes := byte_string "vestrace-installation-safety-journal-v1".
Definition WITNESS_RECEIPT_DOMAIN : bytes := byte_string "vestrace-installation-witness-receipt-v1".
Definition BOOTSTRAP_RECORD_DOMAIN : bytes := byte_string "vestrace-installation-safety-bootstrap-v1".
Definition GENESIS_LABEL : bytes := byte_string "vestrace-installation-safety-genesis-v1".

Inductive InstallationSafetyError : Type :=
| Malformed
| InvalidSignature
| IdentityMismatch
| SequenceConflict
| InvalidStateTransition.

#[export] Instance InstallationSafetyError_eq_dec : EqDecision InstallationSafetyError.
Proof. solve_decision. Defined.

#[export] Instance InstallationSafetyError_malformed : HasMalformed InstallationSafetyError := Malformed.

Abbreviation FingerprintKeyId := Uuid (only parsing).
Abbreviation RequestId := Uuid (only parsing).
Definition FingerprintKeyContinuityProof : Type := Digest.
Definition JournalPublicKey : Type := Digest.
Definition WitnessPublicKey : Type := Digest.
Definition Signature : Type := bytes.

(** ** The witness state *)

Record WitnessStateV1 : Type := mkWitness {
  generation_lineage_state : bytes;
  backup_archive_state : BackupArchiveStateV1;
  target_activation_plan : option TargetActivationPlan;
  restore_attempt_progress : option RestoreAttemptProgress;
  target_activation_started : option Digest;
}.

#[export] Instance WitnessStateV1_eq_dec : EqDecision WitnessStateV1.
Proof. solve_decision. Defined.

Definition witness_genesis (g : DatabaseGenerationId) : WitnessStateV1 :=
  mkWitness (uuid_bytes g) archive_empty None None None.

Definition witness_canonical_bytes (w : WitnessStateV1) : bytes :=
  field (generation_lineage_state w) ++
  field (archive_canonical_bytes (backup_archive_state w)) ++
  field [] ++
  optional_field (plan_canonical_bytes <$> target_activation_plan w) ++
  optional_field (progress_canonical_bytes <$> restore_attempt_progress w) ++
  match target_activation_started w with
  | Some d => optional_field (Some d)
  | None => []
  end.

(** [option.map(from).transpose().map_err(|_| Malformed)]. *)
Definition transpose_from {E A} (from : bytes -> result E A) (o : option bytes)
    : result InstallationSafetyError (option A) :=
  match o with
  | None => Ok None
  | Some b => match from b with Ok a => Ok (Some a) | Err _ => Err Malformed end
  end.

Definition witness_decode {SHA : Sha256} : Dec InstallationSafetyError WitnessStateV1 :=
  lineage ← dec_field;
  archive_slot ← dec_field;
  retired_archive_slot ← dec_field;
  op ← dec_optional_field;
  plan ← lift (transpose_from plan_from_canonical_bytes op);
  oq ← dec_optional_field;
  progress ← lift (transpose_from progress_from_canonical_bytes oq);
  fin ← dec_is_finished;
  started ← (if (fin : bool) then mret None
             else o ← dec_optional_field;
                  b ← lift (ok_or o Malformed);
                  d ← lift (try_into_array 32 b);
                  mret (Some d));
  dec_finish;;
  if (len lineage <? 16)%Z || negb (len lineage mod 16 =? 0)%Z then lift (Err Malformed) else
  archive ← lift (
    if (archive_slot == []) && (retired_archive_slot == []) then Ok archive_empty
    else if retired_archive_slot == []
         then map_err (fun _ => Malformed) (archive_from_canonical_bytes archive_slot)
         else Err Malformed);
  mret (mkWitness lineage archive plan progress started).

Definition witness_from_canonical_bytes {SHA : Sha256} : bytes -> result InstallationSafetyError WitnessStateV1 :=
  run witness_decode.

(** Functional updates. *)
Definition with_lineage (l : bytes) (w : WitnessStateV1) : WitnessStateV1 :=
  mkWitness l (backup_archive_state w) (target_activation_plan w) (restore_attempt_progress w)
    (target_activation_started w).

Definition with_backup_archive_state (w : WitnessStateV1) (a : BackupArchiveStateV1) : WitnessStateV1 :=
  mkWitness (generation_lineage_state w) a (target_activation_plan w) (restore_attempt_progress w)
    (target_activation_started w).

Definition with_plan (p : TargetActivationPlan) (w : WitnessStateV1) : WitnessStateV1 :=
  mkWitness (generation_lineage_state w) (backup_archive_state w) (Some p) (restore_attempt_progress w)
    (target_activation_started w).

Definition with_progress (p : RestoreAttemptProgress) (w : WitnessStateV1) : WitnessStateV1 :=
  mkWitness (generation_lineage_state w) (backup_archive_state w) (target_activation_plan w) (Some p)
    (target_activation_started w).

Definition with_started (d : Digest) (w : WitnessStateV1) : WitnessStateV1 :=
  mkWitness (generation_lineage_state w) (backup_archive_state w) (target_activation_plan w)
    (restore_attempt_progress w) (Some d).

Definition register_generation (w : WitnessStateV1) (next_generation : DatabaseGenerationId)
    : result InstallationSafetyError WitnessStateV1 :=
  let lineage := generation_lineage_state w in
  current ← ok_or (slice lineage (saturating_sub (len lineage) 16) (len lineage)) Malformed;
  if negb (len current =? 16)%Z || (current == uuid_bytes next_generation)
  then Err InvalidStateTransition
  else Ok (with_lineage (lineage ++ uuid_bytes next_generation) w).

Definition plan_disagrees (progress : RestoreAttemptProgress) (plan : TargetActivationPlan) : bool :=
  is_some (rp_terminal_receipt progress)
  || (rp_source_freeze progress !== Some (tp_source_freeze plan))
  || (rp_attempt_id progress !== tp_attempt_id plan)
  || (rp_target_id progress !== tp_target_id plan)
  || (rp_backup_set_id progress !== tp_backup_set_id plan)
  || (rp_source_generation_id progress !== tp_source_generation_id plan)
  || (rp_target_generation_id progress !== tp_target_generation_id plan).

Definition with_target_activation_plan (w : WitnessStateV1) (plan : TargetActivationPlan)
    : result InstallationSafetyError WitnessStateV1 :=
  match restore_attempt_progress w with
  | None => Err InvalidStateTransition
  | Some progress =>
      if is_some (target_activation_plan w) || plan_disagrees progress plan
      then Err InvalidStateTransition
      else Ok (with_plan plan w)
  end.

Definition with_restore_attempt_progress (w : WitnessStateV1) (progress : RestoreAttemptProgress)
    : result InstallationSafetyError WitnessStateV1 :=
  if is_some (restore_attempt_progress w) || is_some (rp_source_freeze progress)
     || is_some (rp_terminal_receipt progress)
  then Err InvalidStateTransition
  else Ok (with_progress progress w).

Definition with_source_freeze (w : WitnessStateV1) (f : SourceFreezePoint)
    : result InstallationSafetyError WitnessStateV1 :=
  p ← ok_or (restore_attempt_progress w) InvalidStateTransition;
  p' ← map_err (fun _ => InvalidStateTransition) (record_source_freeze p f);
  Ok (with_progress p' w).

Definition with_restore_terminal_receipt (w : WitnessStateV1) (r : RestoreTerminalReceipt)
    : result InstallationSafetyError WitnessStateV1 :=
  p ← ok_or (restore_attempt_progress w) InvalidStateTransition;
  p' ← map_err (fun _ => InvalidStateTransition) (record_terminal_receipt p r);
  Ok (with_progress p' w).

Definition restore_terminal_receipt (w : WitnessStateV1) : option RestoreTerminalReceipt :=
  p ← restore_attempt_progress w; rp_terminal_receipt p.

(** [matches!(reason, TargetInitializationComplete { .. })]. *)
Definition is_target_initialization (r : RestoreHoldReleaseReason) : bool :=
  match r with TargetInitializationComplete _ => true | _ => false end.

(** ** Exact successors of the restore fields *)

Definition is_exact_target_activation_plan_successor_of (self previous : WitnessStateV1) : bool :=
  (generation_lineage_state self == generation_lineage_state previous)
  && (backup_archive_state self == backup_archive_state previous)
  && is_none (target_activation_plan previous)
  && is_some (target_activation_plan self)
  && (restore_attempt_progress self == restore_attempt_progress previous)
  && (target_activation_started self == target_activation_started previous).

Definition is_exact_restore_terminal_successor_of (self previous : WitnessStateV1) : bool :=
  (generation_lineage_state self == generation_lineage_state previous)
  && (backup_archive_state self == backup_archive_state previous)
  && (target_activation_plan self == target_activation_plan previous)
  && (target_activation_started self == target_activation_started previous)
  && match restore_attempt_progress previous, restore_attempt_progress self with
     | Some p, Some n =>
         is_none (rp_terminal_receipt p)
         && match rp_terminal_receipt n with
            | Some r => match record_terminal_receipt p r with Ok e => e == n | Err _ => false end
            | None => false
            end
     | _, _ => false
     end.

Definition is_exact_restore_attempt_prepared_successor_of (self previous : WitnessStateV1) : bool :=
  (generation_lineage_state self == generation_lineage_state previous)
  && (backup_archive_state self == backup_archive_state previous)
  && (target_activation_plan self == target_activation_plan previous)
  && (target_activation_started self == target_activation_started previous)
  && is_none (restore_attempt_progress previous)
  && match restore_attempt_progress self with
     | Some p => is_none (rp_source_freeze p) && is_none (rp_terminal_receipt p)
     | None => false
     end.

Definition is_exact_source_freeze_successor_of (self previous : WitnessStateV1) : bool :=
  (generation_lineage_state self == generation_lineage_state previous)
  && (backup_archive_state self == backup_archive_state previous)
  && (target_activation_plan self == target_activation_plan previous)
  && (target_activation_started self == target_activation_started previous)
  && match restore_attempt_progress previous, restore_attempt_progress self with
     | Some p, Some n =>
         is_none (rp_source_freeze p)
         && match rp_source_freeze n with
            | Some f =>
                is_none (rp_terminal_receipt n)
                && match record_source_freeze p f with Ok e => e == n | Err _ => false end
            | None => false
            end
     | _, _ => false
     end.

(** ** Events *)

Inductive SafetyEventKind : Type :=
| InstallationInitialized
| GenerationRegistered
| ArchiveCheckpointCommitted
| BackupSetStarted
| ArchiveRestoreHoldAcquired
| ArchiveSealingStarted
| ArchiveSealed
| ManagedBackupDeletionPrepared
| PreparedArchiveKeyErasure
| ArchiveKeyErased
| ManagedBackupDeleted
| TargetActivationPlanned
| RestoreTerminalRecorded
| RestoreAttemptPrepared
| SourceFreezeRecorded
| TargetActivating.

#[export] Instance SafetyEventKind_eq_dec : EqDecision SafetyEventKind.
Proof. solve_decision. Defined.

Definition event_kind_code (k : SafetyEventKind) : Z :=
  match k with
  | InstallationInitialized => 0
  | GenerationRegistered => 1
  | ArchiveCheckpointCommitted => 2
  | BackupSetStarted => 3
  | ArchiveRestoreHoldAcquired => 4
  | ArchiveSealingStarted => 5
  | ArchiveSealed => 6
  | ManagedBackupDeletionPrepared => 7
  | PreparedArchiveKeyErasure => 8
  | ArchiveKeyErased => 9
  | ManagedBackupDeleted => 10
  | TargetActivationPlanned => 11
  | RestoreTerminalRecorded => 12
  | RestoreAttemptPrepared => 13
  | SourceFreezeRecorded => 14
  | TargetActivating => 15
  end.

Definition event_kind_from_code (n : Z) : result InstallationSafetyError SafetyEventKind :=
  match n with
  | 0%Z => Ok InstallationInitialized
  | 1%Z => Ok GenerationRegistered
  | 2%Z => Ok ArchiveCheckpointCommitted
  | 3%Z => Ok BackupSetStarted
  | 4%Z => Ok ArchiveRestoreHoldAcquired
  | 5%Z => Ok ArchiveSealingStarted
  | 6%Z => Ok ArchiveSealed
  | 7%Z => Ok ManagedBackupDeletionPrepared
  | 8%Z => Ok PreparedArchiveKeyErasure
  | 9%Z => Ok ArchiveKeyErased
  | 10%Z => Ok ManagedBackupDeleted
  | 11%Z => Ok TargetActivationPlanned
  | 12%Z => Ok RestoreTerminalRecorded
  | 13%Z => Ok RestoreAttemptPrepared
  | 14%Z => Ok SourceFreezeRecorded
  | 15%Z => Ok TargetActivating
  | _ => Err Malformed
  end.

(** ** Journal entries *)

Record JournalEntryToSign : Type := mkToSign {
  ts_installation_id : InstallationId;
  ts_fingerprint_key_id : FingerprintKeyId;
  ts_continuity_proof : FingerprintKeyContinuityProof;
  ts_request_id : RequestId;
  ts_sequence : Z;
  ts_previous_digest : Digest;
  ts_event_kind : SafetyEventKind;
  ts_generation_id : DatabaseGenerationId;
  ts_activation_epoch : Z;
  ts_state : WitnessStateV1;
}.

(** The ten signed fields, the signer's key and the detached signature. *)
Record SignedJournalEntry : Type := mkEntry {
  entry_body : JournalEntryToSign;
  je_signer_public_key : JournalPublicKey;
  je_signature : Signature;
}.

Definition entry_canonical_bytes (e : SignedJournalEntry) : bytes :=
  let b := entry_body e in
  field JOURNAL_ENTRY_DOMAIN ++
  field (uuid_bytes (ts_installation_id b)) ++
  field (uuid_bytes (ts_fingerprint_key_id b)) ++
  field (ts_continuity_proof b) ++
  field (uuid_bytes (ts_request_id b)) ++
  u64_bytes (ts_sequence b) ++
  field (ts_previous_digest b) ++
  u8_bytes (event_kind_code (ts_event_kind b)) ++
  field (uuid_bytes (ts_generation_id b)) ++
  u64_bytes (ts_activation_epoch b) ++
  field (witness_canonical_bytes (ts_state b)) ++
  field (je_signer_public_key e).

(** Reads the canonical payload; the signature is attached after it. *)
Definition entry_decode {SHA : Sha256} : Dec InstallationSafetyError (JournalEntryToSign * JournalPublicKey) :=
  dec_domain JOURNAL_ENTRY_DOMAIN;;
  iid ← dec_uuid; fid ← dec_uuid; proof ← dec_fixed 32; rid ← dec_uuid;
  seq ← dec_u64; prev ← dec_fixed 32;
  n ← dec_u8; kind ← lift (event_kind_from_code n);
  gid ← dec_uuid; epoch ← dec_u64;
  b ← dec_field; state ← lift (witness_from_canonical_bytes b);
  key ← dec_fixed 32;
  dec_finish;;
  mret (mkToSign iid fid proof rid seq prev kind gid epoch state, key).

(** ** The head *)

Record WitnessHead : Type := mkWitnessHead {
  wh_installation_id : InstallationId;
  wh_fingerprint_key_id : FingerprintKeyId;
  wh_continuity_proof : FingerprintKeyContinuityProof;
  wh_sequence : Z;
  wh_chain_digest : Digest;
  wh_active_generation_id : DatabaseGenerationId;
  wh_activation_epoch : Z;
  wh_state : WitnessStateV1;
  wh_journal_public_key : JournalPublicKey;
}.

Record WitnessAdvance : Type := mkAdvance {
  adv_event_kind : SafetyEventKind;
  adv_generation_id : DatabaseGenerationId;
  adv_activation_epoch : Z;
  adv_signed_entry : SignedJournalEntry;
  adv_next_state : WitnessStateV1;
}.

(** ** The receipt *)

Record WitnessReceipt : Type := mkReceipt {
  wr_installation_id : InstallationId;
  wr_fingerprint_key_id : FingerprintKeyId;
  wr_continuity_proof : FingerprintKeyContinuityProof;
  wr_sequence : Z;
  wr_journal_digest : Digest;
  wr_generation_id : DatabaseGenerationId;
  wr_activation_epoch : Z;
  wr_state : WitnessStateV1;
  wr_witness_public_key : WitnessPublicKey;
  wr_signature : Signature;
}.

Definition receipt_canonical_bytes (r : WitnessReceipt) : bytes :=
  field WITNESS_RECEIPT_DOMAIN ++
  field (uuid_bytes (wr_installation_id r)) ++
  field (uuid_bytes (wr_fingerprint_key_id r)) ++
  field (wr_continuity_proof r) ++
  u64_bytes (wr_sequence r) ++
  field (wr_journal_digest r) ++
  field (uuid_bytes (wr_generation_id r)) ++
  u64_bytes (wr_activation_epoch r) ++
  field (witness_canonical_bytes (wr_state r)) ++
  field (wr_witness_public_key r).

(** Reads the canonical payload into a receipt carrying [signature]. *)
Definition receipt_decode {SHA : Sha256} (signature : Signature) : Dec InstallationSafetyError WitnessReceipt :=
  dec_domain WITNESS_RECEIPT_DOMAIN;;
  iid ← dec_uuid; fid ← dec_uuid; proof ← dec_fixed 32;
  seq ← dec_u64; jd ← dec_fixed 32; gid ← dec_uuid; epoch ← dec_u64;
  b ← dec_field; state ← lift (witness_from_canonical_bytes b);
  key ← dec_fixed 32;
  dec_finish;;
  mret (mkReceipt iid fid proof seq jd gid epoch state key signature).

(** ** The bootstrap binding *)

Record SafetyBootstrapBinding : Type := mkBinding {
  sb_installation_id : InstallationId;
  sb_fingerprint_key_id : FingerprintKeyId;
  sb_continuity_proof : FingerprintKeyContinuityProof;
  sb_journal_public_key : JournalPublicKey;
  sb_witness_public_key : WitnessPublicKey;
}.

Definition binding_canonical_bytes (b : SafetyBootstrapBinding) : bytes :=
  field BOOTSTRAP_RECORD_DOMAIN ++
  field (uuid_bytes (sb_installation_id b)) ++
  field (uuid_bytes (sb_fingerprint_key_id b)) ++
  field (sb_continuity_proof b) ++
  field (sb_journal_public_key b) ++
  field (sb_witness_public_key b).

Definition binding_from_canonical_bytes : bytes -> result InstallationSafetyError SafetyBootstrapBinding :=
  run (
    dec_domain BOOTSTRAP_RECORD_DOMAIN;;
    iid ← dec_uuid; fid ← dec_uuid; proof ← dec_fixed 32; jk ← dec_fixed 32; wk ← dec_fixed 32;
    dec_finish;;
    mret (mkBinding iid fid proof jk wk)).

(** ** Operations that hash or sign *)

Section Signed.
Context {SHA : Sha256} {ED : Ed25519}.

Definition with_target_activation_started (w : WitnessStateV1)
    : result InstallationSafetyError WitnessStateV1 :=
  plan ← ok_or (target_activation_plan w) InvalidStateTransition;
  terminal ← ok_or (restore_terminal_receipt w) InvalidStateTransition;
  if is_some (target_activation_started w)
     || (rt_attempt_id terminal !== tp_attempt_id plan)
     || (rt_target_id terminal !== tp_target_id plan)
     || negb (is_target_initialization (rt_release_reason terminal))
  then Err InvalidStateTransition
  else Ok (with_started (plan_digest plan) w).

Definition is_exact_target_activating_successor_of (self previous : WitnessStateV1) : bool :=
  (generation_lineage_state self == generation_lineage_state previous)
  && (backup_archive_state self == backup_archive_state previous)
  && (target_activation_plan self == target_activation_plan previous)
  && (restore_attempt_progress self == restore_attempt_progress previous)
  && is_none (target_activation_started previous)
  && (target_activation_started self == (plan_digest <$> target_activation_plan previous)).

Definition zero_signature : Signature := repeat x00 64.

Definition entry_sign (signer : KeyPair) (input : JournalEntryToSign) : SignedJournalEntry :=
  let unsigned := mkEntry input (public_key signer) zero_signature in
  mkEntry input (public_key signer) (sign_message signer (entry_canonical_bytes unsigned)).

Definition entry_verify (e : SignedJournalEntry) : result InstallationSafetyError unit :=
  if verify_message (je_signer_public_key e) (entry_canonical_bytes e) (je_signature e)
  then Ok tt else Err InvalidSignature.

Definition entry_from_canonical_bytes_and_signature (b : bytes) (signature : Signature)
    : result InstallationSafetyError SignedJournalEntry :=
  '(body, key) ← run entry_decode b;
  let entry := mkEntry body key signature in
  _ ← entry_verify entry;
  Ok entry.

Definition entry_digest (e : SignedJournalEntry) : Digest := digest_of (entry_canonical_bytes e).

Definition head_of_genesis (iid : InstallationId) (fid : FingerprintKeyId)
    (proof : FingerprintKeyContinuityProof) (gid : DatabaseGenerationId) (key : JournalPublicKey)
    : WitnessHead :=
  mkWitnessHead iid fid proof 0 (digest_of GENESIS_LABEL) gid 0 (witness_genesis gid) key.

(** [entry.generation_id != self.active_generation_id || entry.activation_epoch != ...]. *)
Definition generation_moved (h : WitnessHead) (b : JournalEntryToSign) : bool :=
  (ts_generation_id b !== wh_active_generation_id h)
  || negb (ts_activation_epoch b =? wh_activation_epoch h)%Z.

Definition exact_archive_lifecycle_transition (h : WitnessHead) (b : JournalEntryToSign)
    (from to : BackupSetLifecycle) : bool :=
  (ts_generation_id b == wh_active_generation_id h)
  && (ts_activation_epoch b =? wh_activation_epoch h)%Z
  && is_exact_lifecycle_successor_of (backup_archive_state (ts_state b))
       (backup_archive_state (wh_state h)) from to.

(** The activation guard of [GenerationRegistered], for the pinned plan. *)
Definition activation_not_ready (h : WitnessHead) (b : JournalEntryToSign) (plan : TargetActivationPlan) : bool :=
  negb match restore_terminal_receipt (wh_state h) with
       | Some receipt =>
           (rt_attempt_id receipt == tp_attempt_id plan)
           && (rt_target_id receipt == tp_target_id plan)
           && is_target_initialization (rt_release_reason receipt)
       | None => false
       end
  || (ts_generation_id b !== tp_target_generation_id plan)
  || (target_activation_plan (ts_state b) !== Some plan)
  || (target_activation_started (wh_state h) !== Some (plan_digest plan)).

(** The three [GenerationRegistered] arms, in their order. *)
Definition accept_generation (h : WitnessHead) (b : JournalEntryToSign) : result InstallationSafetyError unit :=
  let w := wh_state h in
  if ts_generation_id b == wh_active_generation_id h then Err InvalidStateTransition else
  next_epoch ← ok_or (checked_add u64_max (wh_activation_epoch h) 1) InvalidStateTransition;
  if negb (ts_activation_epoch b =? next_epoch)%Z then Err InvalidStateTransition else
  registered ← register_generation w (ts_generation_id b);
  if ts_state b !== registered then Err InvalidStateTransition else
  if match restore_attempt_progress w with
     | Some attempt => is_some (rp_source_freeze attempt) && is_none (rp_terminal_receipt attempt)
     | None => false
     end && is_none (target_activation_plan w)
  then Err InvalidStateTransition else
  if match target_activation_plan w with
     | Some plan => activation_not_ready h b plan
     | None => false
     end
  then Err InvalidStateTransition
  else Ok tt.

(** Whether one of the remaining guarded arms rejects the entry. *)
Definition event_rejected (h : WitnessHead) (b : JournalEntryToSign) : bool :=
  let w := wh_state h in
  let n := ts_state b in
  match ts_event_kind b with
  | InstallationInitialized =>
      (n !== w) || (ts_generation_id b !== wh_active_generation_id h)
      || negb (ts_activation_epoch b =? wh_activation_epoch h)%Z
  | GenerationRegistered => false
  | ArchiveCheckpointCommitted =>
      generation_moved h b
      || negb (is_exact_checkpoint_successor_of (backup_archive_state n) (backup_archive_state w))
  | BackupSetStarted =>
      generation_moved h b
      || negb (is_exact_started_successor_of (backup_archive_state n) (backup_archive_state w))
  | ArchiveRestoreHoldAcquired =>
      generation_moved h b
      || negb (is_exact_hold_successor_of (backup_archive_state n) (backup_archive_state w))
  | ArchiveSealingStarted => negb (exact_archive_lifecycle_transition h b Streaming Sealing)
  | ArchiveSealed => negb (exact_archive_lifecycle_transition h b Sealing Sealed)
  | ManagedBackupDeletionPrepared =>
      generation_moved h b
      || negb (is_exact_prepared_deletion_successor_of (backup_archive_state n) (backup_archive_state w))
  | PreparedArchiveKeyErasure =>
      generation_moved h b
      || negb (is_exact_key_erasure_prepared_successor_of (backup_archive_state n) (backup_archive_state w))
  | ArchiveKeyErased =>
      negb (exact_archive_lifecycle_transition h b DeletionPrepared BackupArchive.ArchiveKeyErased)
  | ManagedBackupDeleted =>
      negb (exact_archive_lifecycle_transition h b BackupArchive.ArchiveKeyErased Deleted)
  | TargetActivationPlanned =>
      generation_moved h b || negb (is_exact_target_activation_plan_successor_of n w)
  | RestoreTerminalRecorded =>
      generation_moved h b || negb (is_exact_restore_terminal_successor_of n w)
  | RestoreAttemptPrepared =>
      generation_moved h b || negb (is_exact_restore_attempt_prepared_successor_of n w)
  | SourceFreezeRecorded =>
      generation_moved h b || negb (is_exact_source_freeze_successor_of n w)
  | TargetActivating =>
      generation_moved h b || negb (is_exact_target_activating_successor_of n w)
  end.

Definition accept_signed (h : WitnessHead) (e : SignedJournalEntry)
    : result InstallationSafetyError WitnessAdvance :=
  let b := entry_body e in
  _ ← entry_verify e;
  next ← ok_or (checked_add u64_max (wh_sequence h) 1) SequenceConflict;
  if negb (ts_sequence b =? next)%Z
     || (ts_installation_id b !== wh_installation_id h)
     || (ts_fingerprint_key_id b !== wh_fingerprint_key_id h)
     || (ts_continuity_proof b !== wh_continuity_proof h)
     || (ts_previous_digest b !== wh_chain_digest h)
     || (je_signer_public_key e !== wh_journal_public_key h)
  then Err IdentityMismatch else
  _ ← match ts_event_kind b with
      | GenerationRegistered => accept_generation h b
      | _ => if event_rejected h b then Err InvalidStateTransition else Ok tt
      end;
  Ok (mkAdvance (ts_event_kind b) (ts_generation_id b) (ts_activation_epoch b) e (ts_state b)).

Definition receipt_sign (witness : KeyPair) (h : WitnessHead) (a : WitnessAdvance)
    : result InstallationSafetyError WitnessReceipt :=
  next ← ok_or (checked_add u64_max (wh_sequence h) 1) SequenceConflict;
  let seq := ts_sequence (entry_body (adv_signed_entry a)) in
  if negb (seq =? next)%Z then Err SequenceConflict else
  let receipt sg := mkReceipt (wh_installation_id h) (wh_fingerprint_key_id h) (wh_continuity_proof h)
    seq (entry_digest (adv_signed_entry a)) (adv_generation_id a) (adv_activation_epoch a)
    (adv_next_state a) (public_key witness) sg in
  Ok (receipt (sign_message witness (receipt_canonical_bytes (receipt zero_signature)))).

Definition verify_against (r : WitnessReceipt) (expected : WitnessPublicKey)
    : result InstallationSafetyError unit :=
  if wr_witness_public_key r !== expected then Err IdentityMismatch else
  if verify_message expected (receipt_canonical_bytes r) (wr_signature r)
  then Ok tt else Err InvalidSignature.

Definition receipt_from_canonical_bytes_and_signature (b : bytes) (signature : Signature)
    : result InstallationSafetyError WitnessReceipt :=
  receipt ← run (receipt_decode signature) b;
  _ ← verify_against receipt (wr_witness_public_key receipt);
  Ok receipt.

Definition from_durable_receipt (binding : SafetyBootstrapBinding) (r : WitnessReceipt)
    : result InstallationSafetyError WitnessHead :=
  _ ← verify_against r (sb_witness_public_key binding);
  if (wr_sequence r =? 0)%Z
     || (wr_installation_id r !== sb_installation_id binding)
     || (wr_fingerprint_key_id r !== sb_fingerprint_key_id binding)
     || (wr_continuity_proof r !== sb_continuity_proof binding)
  then Err IdentityMismatch
  else Ok (mkWitnessHead (wr_installation_id r) (wr_fingerprint_key_id r) (wr_continuity_proof r)
    (wr_sequence r) (wr_journal_digest r) (wr_generation_id r) (wr_activation_epoch r)
    (wr_state r) (sb_journal_public_key binding)).

(** ** Enrolment

    The record file is its content, [None] when absent.  A call may be cut at any of its I/O
    steps; [write_all] may leave a prefix behind. *)

Inductive SafetyBootstrapError : Type :=
| BindingMismatch
| Unavailable.

Inductive IoFault : Type :=
| NoFault
| CreateDirFails
| OpenFails
| WriteFails (written : nat)
| SyncFileFails
| SyncDirectoryFails
| ReadFails.


Definition open_or_create (fault : IoFault) (binding : SafetyBootstrapBinding) (file : option bytes)
    : result SafetyBootstrapError Digest * option bytes :=
  let expected := binding_canonical_bytes binding in
  match fault with
  | CreateDirFails | OpenFails => (Err Unavailable, file)
  | _ =>
      match file with
      | None =>
          match fault with
          | WriteFails n => (Err Unavailable, Some (take n expected))
          | SyncFileFails | SyncDirectoryFails => (Err Unavailable, Some expected)
          | _ => (Ok (digest_of expected), Some expected)
          end
      | Some content =>
          match fault with
          | ReadFails => (Err Unavailable, file)
          | _ => if content !== expected then (Err BindingMismatch, file)
                 else (Ok (digest_of expected), file)
          end
      end
  end.

End Signed.

#[export] Instance JournalEntryToSign_eq_dec : EqDecision JournalEntryToSign.
Proof. solve_decision. Defined.

#[export] Instance SignedJournalEntry_eq_dec : EqDecision SignedJournalEntry.
Proof. solve_decision. Defined.

#[export] Instance WitnessHead_eq_dec : EqDecision WitnessHead.
Proof. solve_decision. Defined.

#[export] Instance WitnessReceipt_eq_dec : EqDecision WitnessReceipt.
Proof. solve_decision. Defined.

#[export] Instance SafetyBootstrapBinding_eq_dec : EqDecision SafetyBootstrapBinding.
Proof. solve_decision. Defined.
