(* ===== verification/InstallationSafetyProps.v ===== *)
(** * The installation safety journal: properties

    Well-formed witness states, entries, receipts and bindings and their round trips; what
    acceptance of an entry guarantees; the chain of heads a durable witness goes through. *)

From Stdlib Require Import ZArith Lia String Strings.Byte.
From stdpp Require Import base option numbers list.
From S2P Require Import Prelude BTree Codec Crypto BackupArchive BackupArchiveProps.
From S2P Require Import RestoreCutover RestoreCutoverProps InstallationSafety.

(** ** Well-formed values *)

Definition opt_valid {A} (P : A -> Prop) (o : option A) : Prop := forall a, o = Some a -> P a.

Section Wf.
Context {SHA : Sha256}.

Record witness_wf (w : WitnessStateV1) : Prop := {
  ww_lineage : (16 <= len (generation_lineage_state w))%Z /\ (len (generation_lineage_state w) mod 16 = 0)%Z;
  ww_archive : archive_wf (backup_archive_state w);
  ww_plan : opt_valid plan_wf (target_activation_plan w);
  ww_progress : opt_valid attempt_reachable (restore_attempt_progress w);
  ww_started : opt_valid valid_digest (target_activation_started w);
}.

Record body_wf (b : JournalEntryToSign) : Prop := {
  bw_ids : Forall valid_uuid [ts_installation_id b; ts_fingerprint_key_id b; ts_request_id b; ts_generation_id b];
  bw_digests : Forall valid_digest [ts_continuity_proof b; ts_previous_digest b];
  bw_numbers : in_range u64_max (ts_sequence b) /\ in_range u64_max (ts_activation_epoch b);
  bw_state : witness_wf (ts_state b);
}.

Record receipt_wf (r : WitnessReceipt) : Prop := {
  rw_ids : Forall valid_uuid [wr_installation_id r; wr_fingerprint_key_id r; wr_generation_id r];
  rw_digests : Forall valid_digest [wr_continuity_proof r; wr_journal_digest r; wr_witness_public_key r];
  rw_numbers : in_range u64_max (wr_sequence r) /\ in_range u64_max (wr_activation_epoch r);
  rw_state : witness_wf (wr_state r);
}.

Record binding_wf (b : SafetyBootstrapBinding) : Prop := {
  gw_ids : Forall valid_uuid [sb_installation_id b; sb_fingerprint_key_id b];
  gw_digests : Forall valid_digest [sb_continuity_proof b; sb_journal_public_key b; sb_witness_public_key b];
}.

End Wf.

(** Bound one length by the length of a concatenation. *)
Ltac len_lia :=
  repeat match goal with H : context [len ?x] |- _ =>
    lazymatch goal with _ : (0 <= len x)%Z |- _ => fail | _ => pose proof (len_nonneg x) end end; lia.

Ltac open_forall := repeat match goal with
  | H : Forall _ (_ :: _) |- _ => apply Forall_cons in H as [? H]
  | H : Forall _ [] |- _ => clear H
  end.

(** ** Round trips *)

(** An optional nested value of a [Canonical] type. *)
Lemma parses_optional_nested {E A B} {C : Canonical E A} rest (k : option A -> Dec InstallationSafetyError B)
    (o : option A) enc b :
  opt_valid valid o -> parses rest (k o) enc b ->
  parses rest (c ← dec_optional_field; x ← lift (transpose_from of_canonical c); k x)
    (optional_field (canonical <$> o) ++ enc) b.
Proof.
  intros Hv Hk pre Hlen. destruct o as [a|]; cbn [fmap option_fmap option_map] in *.
  - assert (len (canonical a) <= usize_max)%Z as Hl.
    { unfold optional_field, field in Hlen. rewrite !len_app in Hlen. len_lia. }
    revert pre Hlen. change (parses rest (c ← dec_optional_field; x ← lift (transpose_from of_canonical c); k x)
      (optional_field (Some (canonical a)) ++ enc) b).
    eapply parses_bind; [apply parses_optional_field|]. cbv beta. eapply parses_bind_r; [|exact Hk].
    apply parses_lift. simpl. by rewrite canonical_roundtrip by auto.
  - revert pre Hlen. change (parses rest (c ← dec_optional_field; x ← lift (transpose_from of_canonical c); k x)
      (optional_field None ++ enc) b).
    eapply parses_bind; [apply parses_optional_field|]. cbv beta. eapply parses_bind_r; [|exact Hk].
    by apply parses_lift.
Qed.

Section Roundtrip.
Context {SHA : Sha256}.

Lemma archive_slot_bytes a : archive_wf a -> (len (archive_canonical_bytes a) <= usize_max)%Z ->
  (if (archive_canonical_bytes a == []) && (@nil byte == []) then Ok archive_empty
   else if @nil byte == [] then map_err (fun _ => Malformed) (archive_from_canonical_bytes (archive_canonical_bytes a))
        else Err Malformed) = Ok a.
Proof.
  intros Hw Hl. rewrite (proj2 (eqb_false _ _) (archive_bytes_nonempty a)), eqb_refl. simpl.
  by rewrite archive_roundtrip_raw.
Qed.

(** The fields after the restore attempt: the optional activation marker, then the end. *)
Lemma parses_started {B} (started : option Digest) (k : option Digest -> Dec InstallationSafetyError B) b :
  opt_valid valid_digest started -> parses [] (k started) [] b ->
  parses [] (fin ← dec_is_finished;
    st ← (if (fin : bool) then mret None
          else o ← dec_optional_field; c ← lift (ok_or o Malformed); d ← lift (try_into_array 32 c); mret (Some d));
    dec_finish;; k st)
    match started with Some d => optional_field (Some d) | None => [] end b.
Proof.
  intros Hv Hk. destruct started as [d|].
  - eapply parses_bind_r; [by apply parses_is_finished_more|]. cbv beta iota.
    eapply parses_bind_l; [|eapply parses_bind_l; [apply parses_finish|exact Hk]].
    eapply parses_bind_l; [apply parses_optional_field|]. cbv beta.
    eapply parses_bind_l; [by apply parses_lift|]. cbv beta.
    eapply parses_bind_l; [apply parses_lift|apply parses_ret].
    unfold try_into_array. by rewrite (proj2 (Nat.eqb_eq _ _) (Hv d eq_refl)).
  - eapply parses_bind_l; [apply parses_is_finished_end|]. cbv beta iota.
    eapply parses_bind_l; [apply parses_ret|]. eapply parses_bind_l; [apply parses_finish|exact Hk].
Qed.

Lemma witness_roundtrip (w : WitnessStateV1) :
  witness_wf w -> (len (witness_canonical_bytes w) <= usize_max)%Z ->
  witness_from_canonical_bytes (witness_canonical_bytes w) = Ok w.
Proof.
  intros [[Hl1 Hl2] Ha Hp Hq Hs] Hl. apply run_parses; [|done].
  assert (len (archive_canonical_bytes (backup_archive_state w)) <= usize_max)%Z as Hla.
  { unfold witness_canonical_bytes, field in Hl. rewrite !len_app in Hl.
    len_lia. }
  destruct w as [lineage archive plan progress started]. unfold witness_canonical_bytes in *. clear Hl.
  cbn [generation_lineage_state backup_archive_state target_activation_plan restore_attempt_progress
    target_activation_started] in *.
  unfold witness_decode. do 3 (eapply parses_bind; [apply parses_field|]; cbv beta).
  apply (parses_optional_nested (C:=plan_canonical)); [done|].
  apply (parses_optional_nested (C:=progress_canonical)); [done|].
  apply parses_started; [done|].
  rewrite (proj2 (Z.ltb_ge _ _)) by lia. rewrite (proj2 (Z.eqb_eq _ _)) by lia. cbn [orb negb].
  eapply parses_bind_l; [|apply parses_ret]. apply parses_lift. by apply archive_slot_bytes.
Qed.

#[export] Instance witness_canonical : Canonical InstallationSafetyError WitnessStateV1 := {
  canonical := witness_canonical_bytes;
  of_canonical := witness_from_canonical_bytes;
  valid := witness_wf;
  canonical_roundtrip := witness_roundtrip;
}.

Lemma event_kind_roundtrip k : event_kind_from_code (event_kind_code k) = Ok k.
Proof. by destruct k. Qed.

Lemma event_kind_code_range k : in_range u8_max (event_kind_code k).
Proof. by destruct k. Qed.

Lemma entry_decode_parses e :
  body_wf (entry_body e) -> valid_digest (je_signer_public_key e) ->
  parses [] entry_decode (entry_canonical_bytes e) (entry_body e, je_signer_public_key e).
Proof.
  destruct e as [[iid fid proof rid seq prev kind gid epoch state] key sg].
  intros [Hu Hd [Hs He] Hw] Hk. unfold entry_canonical_bytes, entry_decode.
  cbn [entry_body je_signer_public_key ts_installation_id ts_fingerprint_key_id ts_continuity_proof
    ts_request_id ts_sequence ts_previous_digest ts_event_kind ts_generation_id ts_activation_epoch ts_state] in *.
  open_forall. do 7 parse_step.
  eapply parses_bind; [apply parses_u8, event_kind_code_range|]. cbv beta.
  eapply parses_bind_r; [apply parses_lift, event_kind_roundtrip|]. cbv beta.
  do 2 parse_step.
  eapply (parses_field_bind _ witness_from_canonical_bytes); [intros; by apply witness_roundtrip|].
  parse_all.
Qed.

Lemma receipt_decode_parses r :
  receipt_wf r -> parses [] (receipt_decode (wr_signature r)) (receipt_canonical_bytes r) r.
Proof.
  destruct r as [iid fid proof seq jd gid epoch state key sg]. intros [Hu Hd [Hs He] Hw].
  unfold receipt_canonical_bytes, receipt_decode.
  cbn [wr_installation_id wr_fingerprint_key_id wr_continuity_proof wr_sequence wr_journal_digest
    wr_generation_id wr_activation_epoch wr_state wr_witness_public_key wr_signature] in *.
  open_forall. do 8 parse_step.
  eapply (parses_field_bind _ witness_from_canonical_bytes); [intros; by apply witness_roundtrip|].
  parse_all.
Qed.

Lemma binding_roundtrip b :
  binding_wf b -> binding_from_canonical_bytes (binding_canonical_bytes b) = Ok b.
Proof.
  destruct b as [iid fid proof jk wk]. intros [Hu Hd]. apply run_parses.
  - unfold binding_canonical_bytes.
    cbn [sb_installation_id sb_fingerprint_key_id sb_continuity_proof sb_journal_public_key sb_witness_public_key] in *.
    open_forall. parse_all.
  - cbn [sb_installation_id sb_fingerprint_key_id sb_continuity_proof sb_journal_public_key sb_witness_public_key] in *.
    open_forall. unfold binding_canonical_bytes, field, len, valid_digest in *.
    rewrite !length_app. unfold u64_bytes, uuid_bytes. rewrite !length_be_bytes.
    cbn [sb_installation_id sb_fingerprint_key_id sb_continuity_proof sb_journal_public_key sb_witness_public_key].
    change (length BOOTSTRAP_RECORD_DOMAIN) with 41%nat. unfold usize_max, u64_max. lia.
Qed.

End Roundtrip.

(** ** What a decoded value satisfies *)

Section Sound.
Context {SHA : Sha256}.

Lemma transpose_from_sound {E A} (from : bytes -> result E A) (P : A -> Prop) o o' :
  (forall b a, from b = Ok a -> P a) -> transpose_from from o = Ok o' -> opt_valid P o'.
Proof.
  intros HP. destruct o as [b|]; simpl; [|by intros [= <-] ? ?].
  destruct (from b) as [a|] eqn:E1; [|done]. intros [= <-] ? [= <-]. eauto.
Qed.

Lemma archive_empty_wf : archive_wf archive_empty.
Proof. split; constructor. Qed.

Lemma witness_from_sound b w : witness_from_canonical_bytes b = Ok w -> witness_wf w.
Proof.
  apply run_yields. unfold witness_decode.
  do 4 (eapply yields_bind; [apply yields_any|]; intros ? _).
  eapply yields_bind; [apply yields_lift; intros ? H; exact (transpose_from_sound _ plan_wf _ _ plan_from_sound H)|].
  intros plan Hplan. eapply yields_bind; [apply yields_any|]; intros ? _.
  eapply yields_bind; [apply yields_lift; intros ? H;
    exact (transpose_from_sound _ attempt_reachable _ _ progress_from_sound H)|].
  intros progress Hprogress. eapply yields_bind; [apply yields_any|]; intros fin _.
  eapply (yields_bind _ _ (opt_valid valid_digest)).
  { destruct fin; [by apply yields_ret; intros ? ?|].
    do 2 (eapply yields_bind; [apply yields_any|]; intros ? _).
    eapply (yields_bind _ _ valid_digest); [apply yields_lift; intros d Hd; by apply try_into_array_Ok in Hd as [-> ?]|].
    intros d Hd. apply yields_ret. by intros ? [= <-]. }
  intros started Hstarted. eapply yields_bind; [apply yields_any|]; intros ? _.
  case_match; [by apply yields_lift|]. bool_hyps.
  eapply (yields_bind _ _ archive_wf).
  { apply yields_lift. intros ar Har. repeat case_match; simplify_eq; [apply archive_empty_wf|].
    apply map_err_Ok in Har. by eapply archive_decode_wf. }
  intros ar Har. apply yields_ret. by constructor.
Qed.

Lemma entry_decode_sound b body key :
  run entry_decode b = Ok (body, key) -> body_wf body /\ valid_digest key.
Proof.
  apply (run_yields entry_decode (fun x => body_wf x.1 /\ valid_digest x.2)).
  unfold entry_decode. eapply yields_bind; [apply yields_any|]; intros ? _.
  eapply yields_bind; [apply yields_uuid|]; intros iid Hi.
  eapply yields_bind; [apply yields_uuid|]; intros fid Hf.
  eapply yields_bind; [apply (yields_fixed 32)|]; intros proof Hp.
  eapply yields_bind; [apply yields_uuid|]; intros rid Hr.
  eapply yields_bind; [apply yields_u64|]; intros seq Hs.
  eapply yields_bind; [apply (yields_fixed 32)|]; intros prev Hpv.
  do 2 (eapply yields_bind; [apply yields_any|]; intros ? _).
  eapply yields_bind; [apply yields_uuid|]; intros gid Hg.
  eapply yields_bind; [apply yields_u64|]; intros epoch He.
  eapply yields_bind; [apply yields_any|]; intros c _.
  eapply (yields_bind _ _ witness_wf); [apply yields_lift; eauto using witness_from_sound|]; intros st Hst.
  eapply yields_bind; [apply (yields_fixed 32)|]; intros key' Hk.
  eapply yields_bind; [apply yields_any|]; intros ? _.
  apply yields_ret. split; [|done]. constructor; cbn; rewrite ?Forall_cons; try done; by split_and!.
Qed.

Lemma receipt_decode_sound sg b r : run (receipt_decode sg) b = Ok r -> receipt_wf r /\ wr_signature r = sg.
Proof.
  apply (run_yields (receipt_decode sg) (fun r => receipt_wf r /\ wr_signature r = sg)).
  unfold receipt_decode. eapply yields_bind; [apply yields_any|]; intros ? _.
  eapply yields_bind; [apply yields_uuid|]; intros iid Hi.
  eapply yields_bind; [apply yields_uuid|]; intros fid Hf.
  eapply yields_bind; [apply (yields_fixed 32)|]; intros proof Hp.
  eapply yields_bind; [apply yields_u64|]; intros seq Hs.
  eapply yields_bind; [apply (yields_fixed 32)|]; intros jd Hj.
  eapply yields_bind; [apply yields_uuid|]; intros gid Hg.
  eapply yields_bind; [apply yields_u64|]; intros epoch He.
  eapply yields_bind; [apply yields_any|]; intros c _.
  eapply (yields_bind _ _ witness_wf); [apply yields_lift; eauto using witness_from_sound|]; intros st Hst.
  eapply yields_bind; [apply (yields_fixed 32)|]; intros key' Hk.
  eapply yields_bind; [apply yields_any|]; intros ? _.
  apply yields_ret. split; [|done]. constructor; cbn; rewrite ?Forall_cons; try done; by split_and!.
Qed.

End Sound.
