(* ===== verification/WitnessChain.v ===== *)
(** * Accepted entries and the chain of heads

    What [accept_signed] guarantees about the entry it accepts, which head a durable witness
    holds afterwards, and what is invariant along any journal of accepted entries.  The
    relation [supervised] is the specification side: the entries a supervisor builds with
    the operations of the witness state and of the archive. *)

From Stdlib Require Import ZArith Lia String Strings.Byte.
From stdpp Require Import base option numbers list.
From S2P Require Import Prelude BTree Codec Crypto BackupArchive BackupArchiveProps.
From S2P Require Import RestoreCutover RestoreCutoverProps InstallationSafety.
From S2P Require Import InstallationSafetyProps.

(** The archive operation an event kind reports. *)
Definition archive_op_of (k : SafetyEventKind) : option ArchiveOp :=
  match k with
  | BackupSetStarted => Some OpStart
  | ArchiveCheckpointCommitted => Some OpCheckpoint
  | ArchiveRestoreHoldAcquired => Some OpHold
  | ArchiveSealingStarted => Some OpSealing
  | ArchiveSealed => Some OpSealed
  | ManagedBackupDeletionPrepared => Some OpDeletionPrepared
  | PreparedArchiveKeyErasure => Some OpErasurePrepared
  | ArchiveKeyErased => Some OpKeyErased
  | ManagedBackupDeleted => Some OpDeleted
  | _ => None
  end.

Section Chain.
Context {SHA : Sha256} {ED : Ed25519}.

(** ** Acceptance *)

Definition event_accepted (h : WitnessHead) (b : JournalEntryToSign) : Prop :=
  match ts_event_kind b with
  | GenerationRegistered => accept_generation h b = Ok tt
  | _ => event_rejected h b = false
  end.

Record accepted (h : WitnessHead) (e : SignedJournalEntry) : Prop := {
  acc_signature : entry_verify e = Ok tt;
  acc_sequence : ts_sequence (entry_body e) = (wh_sequence h + 1)%Z;
  acc_sequence_max : (wh_sequence h + 1 <= u64_max)%Z;
  acc_installation : ts_installation_id (entry_body e) = wh_installation_id h;
  acc_fingerprint : ts_fingerprint_key_id (entry_body e) = wh_fingerprint_key_id h;
  acc_continuity : ts_continuity_proof (entry_body e) = wh_continuity_proof h;
  acc_previous : ts_previous_digest (entry_body e) = wh_chain_digest h;
  acc_signer : je_signer_public_key e = wh_journal_public_key h;
  acc_event : event_accepted h (entry_body e);
}.

Definition advance_of (e : SignedJournalEntry) : WitnessAdvance :=
  let b := entry_body e in
  mkAdvance (ts_event_kind b) (ts_generation_id b) (ts_activation_epoch b) e (ts_state b).

Lemma accept_signed_Ok h e adv : accept_signed h e = Ok adv <-> accepted h e /\ adv = advance_of e.
Proof.
  unfold accept_signed, advance_of. cbv zeta. split.
  - intros Ha. apply bind_Ok in Ha as ([] & Hv & Ha). apply bind_Ok in Ha as (next & Hn & Ha).
    apply ok_or_Ok, checked_add_Some in Hn as [-> Hm]. split_match_in Ha. bool_hyps.
    apply bind_Ok in Ha as ([] & He & Ha). simplify_eq. split; [|done]. constructor; try done.
    unfold event_accepted. destruct (ts_event_kind (entry_body e)); try done; by destruct (event_rejected _ _).
  - intros [[Hv Hs Hm Hi Hf Hc Hp Hk He] ->]. rewrite Hv. simpl. unfold checked_add.
    rewrite (proj2 (Z.leb_le _ _) Hm). simpl. rewrite Hs, Z.eqb_refl, Hi, Hf, Hc, Hp, Hk, !eqb_refl. simpl.
    unfold event_accepted in He. destruct (ts_event_kind (entry_body e)); by rewrite He.
Qed.

(** Whether the entry moved the generation. *)
Lemma accepted_generation h e :
  accepted h e ->
  let b := entry_body e in
  if ts_event_kind b == GenerationRegistered
  then ts_generation_id b <> wh_active_generation_id h /\
       ts_activation_epoch b = (wh_activation_epoch h + 1)%Z /\ (wh_activation_epoch h + 1 <= u64_max)%Z /\
       register_generation (wh_state h) (ts_generation_id b) = Ok (ts_state b)
  else ts_generation_id b = wh_active_generation_id h /\ ts_activation_epoch b = wh_activation_epoch h.
Proof.
  intros Ha. pose proof (acc_event _ _ Ha) as He. revert He. clear Ha. cbv zeta. unfold event_accepted, event_rejected.
  destruct (entry_body e) as [iid fid proof rid seq prev kind gid epoch st].
  cbn [ts_event_kind ts_generation_id ts_activation_epoch ts_state].
  destruct kind; intros He; cbn [eqb bool_decide] in *;
    unfold generation_moved, exact_archive_lifecycle_transition in He;
    cbn [ts_event_kind ts_generation_id ts_activation_epoch ts_state] in He;
    try (bool_hyps; done).
  unfold accept_generation in He. cbn [ts_event_kind ts_generation_id ts_activation_epoch ts_state] in He.
  split_match_in He. apply bind_Ok in He as (next & Hn & He). apply ok_or_Ok, checked_add_Some in Hn as [-> Hm].
  split_match_in He. apply bind_Ok in He as (r & Hr & He). split_match_in He. bool_hyps. subst. simpl. done.
Qed.

(** What each event does to the archive. *)
Lemma accepted_archive h e :
  accepted h e ->
  let new := backup_archive_state (ts_state (entry_body e)) in
  let old := backup_archive_state (wh_state h) in
  match archive_op_of (ts_event_kind (entry_body e)) with
  | Some op => witness_predicate op new old = true
  | None => new = old
  end.
Proof.
  intros Ha. pose proof (acc_event _ _ Ha) as He. pose proof (accepted_generation _ _ Ha) as Hg.
  revert He Hg. clear Ha. cbv zeta. unfold event_accepted, event_rejected.
  destruct (entry_body e) as [iid fid proof rid seq prev kind gid epoch st].
  cbn [ts_event_kind ts_generation_id ts_activation_epoch ts_state].
  destruct kind; intros He Hg; cbn [archive_op_of witness_predicate];
    unfold exact_archive_lifecycle_transition, is_exact_target_activation_plan_successor_of,
      is_exact_restore_terminal_successor_of, is_exact_restore_attempt_prepared_successor_of,
      is_exact_source_freeze_successor_of, is_exact_target_activating_successor_of in He;
    cbn [ts_event_kind ts_generation_id ts_activation_epoch ts_state] in He;
    try (bool_hyps; congruence).
  simpl in Hg. destruct Hg as (_ & _ & _ & Hr). unfold register_generation in Hr.
  apply bind_Ok in Hr as (cur & _ & Hr). split_match_in Hr. by simplify_eq.
Qed.

(** ** The next head *)

Definition next_head (h : WitnessHead) (e : SignedJournalEntry) : WitnessHead :=
  let b := entry_body e in
  mkWitnessHead (wh_installation_id h) (wh_fingerprint_key_id h) (wh_continuity_proof h)
    (ts_sequence b) (entry_digest e) (ts_generation_id b) (ts_activation_epoch b) (ts_state b)
    (wh_journal_public_key h).

(** A head of the installation a binding pins, as the holder of [wk] reopens it. *)
Record head_bound (binding : SafetyBootstrapBinding) (wk : KeyPair) (h : WitnessHead) : Prop := {
  hb_installation : wh_installation_id h = sb_installation_id binding;
  hb_fingerprint : wh_fingerprint_key_id h = sb_fingerprint_key_id binding;
  hb_continuity : wh_continuity_proof h = sb_continuity_proof binding;
  hb_journal_key : wh_journal_public_key h = sb_journal_public_key binding;
  hb_witness_key : sb_witness_public_key binding = public_key wk;
  hb_sequence : (0 <= wh_sequence h)%Z;
}.

Lemma next_head_bound binding wk h e :
  head_bound binding wk h -> accepted h e -> head_bound binding wk (next_head h e).
Proof. intros [] []. constructor; simpl; try done. lia. Qed.

Context {ED_ok : Ed25519Ok}.

Definition receipt_of (wk : KeyPair) (h : WitnessHead) (e : SignedJournalEntry) : WitnessReceipt :=
  let b := entry_body e in
  let r sg := mkReceipt (wh_installation_id h) (wh_fingerprint_key_id h) (wh_continuity_proof h)
    (ts_sequence b) (entry_digest e) (ts_generation_id b) (ts_activation_epoch b) (ts_state b)
    (public_key wk) sg in
  r (sign_message wk (receipt_canonical_bytes (r zero_signature))).

Lemma receipt_of_verifies wk h e : verify_against (receipt_of wk h e) (public_key wk) = Ok tt.
Proof. unfold verify_against. simpl. rewrite eqb_refl. simpl. unfold receipt_of. by rewrite verify_signed. Qed.

Lemma receipt_sign_accepted wk h e :
  accepted h e -> receipt_sign wk h (advance_of e) = Ok (receipt_of wk h e).
Proof.
  intros Ha. unfold receipt_sign, advance_of, checked_add. cbv zeta.
  cbn [adv_signed_entry adv_generation_id adv_activation_epoch adv_next_state].
  rewrite (proj2 (Z.leb_le _ _) (acc_sequence_max _ _ Ha)). simpl.
  by rewrite (acc_sequence _ _ Ha), Z.eqb_refl, <-(acc_sequence _ _ Ha).
Qed.

Lemma receipt_reopens binding wk h e :
  head_bound binding wk h -> accepted h e ->
  from_durable_receipt binding (receipt_of wk h e) = Ok (next_head h e).
Proof.
  intros [Hi Hf Hc Hj Hw Hs] Ha. unfold from_durable_receipt. rewrite Hw, receipt_of_verifies. simpl.
  rewrite (acc_sequence _ _ Ha). replace (_ =? 0)%Z with false by (symmetry; apply Z.eqb_neq; lia).
  rewrite Hi, Hf, Hc, !eqb_refl. simpl. unfold next_head. by rewrite Hi, Hf, Hc, Hj, <-(acc_sequence _ _ Ha).
Qed.

(** ** Journals *)

(** The heads a witness goes through while accepting the entries in order. *)
Inductive journal (h : WitnessHead) : list SignedJournalEntry -> WitnessHead -> Prop :=
| journal_nil : journal h [] h
| journal_snoc l h1 e :
    journal h l h1 -> accepted h1 e -> body_wf (entry_body e) -> journal h (l ++ [e]) (next_head h1 e).

(** Each entry carries the digest of the one before it, and the next sequence. *)
Fixpoint hash_linked (digest : Digest) (sequence : Z) (l : list SignedJournalEntry) : Prop :=
  match l with
  | [] => True
  | e :: l' =>
      ts_previous_digest (entry_body e) = digest /\ ts_sequence (entry_body e) = (sequence + 1)%Z /\
      hash_linked (entry_digest e) (sequence + 1) l'
  end.

Definition last_digest (d : Digest) (l : list SignedJournalEntry) : Digest :=
  match last l with Some e => entry_digest e | None => d end.

Lemma hash_linked_snoc d n l e :
  hash_linked d n (l ++ [e]) <->
  hash_linked d n l /\ ts_previous_digest (entry_body e) = last_digest d l /\
  ts_sequence (entry_body e) = (n + Z.of_nat (length l) + 1)%Z.
Proof.
  revert d n. induction l as [|x l IH]; intros d n; simpl.
  - unfold last_digest. simpl. rewrite Z.add_0_r. tauto.
  - rewrite IH. assert (last_digest (entry_digest x) l = last_digest d (x :: l)) as ->.
    { unfold last_digest. rewrite last_cons. by destruct (last l). }
    split; intros Hx; decompose [and] Hx; split_and!; try done; lia.
Qed.

Definition registrations (l : list SignedJournalEntry) : nat :=
  length (filter (fun e => ts_event_kind (entry_body e) = GenerationRegistered) l).

Lemma registrations_snoc l e :
  registrations (l ++ [e]) =
  registrations l + (if ts_event_kind (entry_body e) == GenerationRegistered then 1 else 0).
Proof.
  unfold registrations, eqb. rewrite filter_app, length_app. f_equal.
  rewrite filter_cons, filter_nil. by case_decide; case_bool_decide.
Qed.

Definition same_installation (h h' : WitnessHead) : Prop :=
  wh_installation_id h' = wh_installation_id h /\ wh_fingerprint_key_id h' = wh_fingerprint_key_id h /\
  wh_continuity_proof h' = wh_continuity_proof h /\ wh_journal_public_key h' = wh_journal_public_key h.

Lemma journal_identity h l h' : journal h l h' -> same_installation h h'.
Proof. induction 1; [done|]. unfold same_installation in *. simpl. done. Qed.

Lemma journal_linked h l h' :
  journal h l h' ->
  hash_linked (wh_chain_digest h) (wh_sequence h) l /\
  wh_sequence h' = (wh_sequence h + Z.of_nat (length l))%Z /\
  wh_chain_digest h' = last_digest (wh_chain_digest h) l.
Proof.
  induction 1 as [|l h1 e _ (Hl & Hs & Hd) Ha _]; simpl.
  - rewrite Z.add_0_r. done.
  - split_and!.
    + apply hash_linked_snoc. by rewrite (acc_previous _ _ Ha), (acc_sequence _ _ Ha), Hs, Hd.
    + rewrite (acc_sequence _ _ Ha), Hs, length_app. simpl. lia.
    + unfold last_digest. by rewrite last_snoc.
Qed.

Lemma journal_epoch h l h' :
  journal h l h' ->
  wh_activation_epoch h' = (wh_activation_epoch h + Z.of_nat (registrations l))%Z /\
  (registrations l = 0 -> wh_active_generation_id h' = wh_active_generation_id h).
Proof.
  induction 1 as [|l h1 e _ [IHe IHg] Ha _]; [split; [by rewrite Z.add_0_r|done]|].
  apply accepted_generation in Ha. cbv zeta in Ha. rewrite registrations_snoc. simpl.
  destruct (_ == _); [destruct Ha as (_ & -> & _)|destruct Ha as [-> ->]]; split; auto with lia.
Qed.

Lemma journal_signed h l h' :
  journal h l h' ->
  Forall (fun e => entry_verify e = Ok tt /\ je_signer_public_key e = wh_journal_public_key h) l.
Proof.
  induction 1 as [|l h1 e Hj IH Ha _]; [done|]. apply Forall_app. split; [done|]. constructor; [|done].
  apply journal_identity in Hj as (_ & _ & _ & <-). by destruct Ha.
Qed.

Lemma journal_wf h l h' : witness_wf (wh_state h) -> journal h l h' -> witness_wf (wh_state h').
Proof. intros Hw. induction 1 as [|l h1 e _ _ _ Hb]; [done|]. simpl. apply Hb. Qed.

Lemma journal_keeps h l h' k s :
  witness_wf (wh_state h) -> journal h l h' ->
  BTree.get (sets (backup_archive_state (wh_state h))) k = Some s ->
  exists s', BTree.get (sets (backup_archive_state (wh_state h'))) k = Some s' /\ set_kept s s'.
Proof.
  intros Hw Hj Hg. induction Hj as [|l h1 e Hj (s1 & Hg1 & Hk1) Ha Hb].
  { exists s. split; [done|apply set_kept_refl]. }
  apply accepted_archive in Ha. cbv zeta in Ha. simpl. destruct (archive_op_of _).
  - destruct (ww_archive _ (journal_wf _ _ _ Hw Hj)) as [Ho1 _]. destruct (ww_archive _ (bw_state _ Hb)) as [Ho2 _].
    destruct (witness_predicate_keeps _ _ _ _ _ Ho2 Ho1 Ha Hg1) as (s2 & Hg2 & Hk2).
    exists s2. split; [done|by eapply set_kept_trans].
  - exists s1. by rewrite Ha.
Qed.

End Chain.
