(* ===== verification/Supervisor.v ===== *)
(** * The supervisor's entries

    The specification side of the journal: [composed] relates a head to the event, the
    generation, the epoch and the state a host supervisor can produce with the operations of
    [WitnessStateV1] and of the backup archive, and [supervised] to those of them the rules of the
    installation allow.  Exactly those entries are accepted, and the heads
    reached this way satisfy [head_inv]: the lineage lists the generations in order, a pinned
    plan agrees with the attempt, and the activation marker is the digest of the plan of an
    initialised target. *)

From Stdlib Require Import ZArith Lia String Strings.Byte.
From stdpp Require Import base option numbers list.
From S2P Require Import Prelude BTree Codec Crypto BackupArchive BackupArchiveProps.
From S2P Require Import RestoreCutover RestoreCutoverProps InstallationSafety.
From S2P Require Import InstallationSafetyProps WitnessChain.

Section Supervisor.
Context {SHA : Sha256} {SHA_ok : Sha256Ok}.

(** A generation may be registered: no attempt is frozen and undecided, and a pinned plan
    names this generation and its activation was started. *)
Definition may_register (w : WitnessStateV1) (g : DatabaseGenerationId) : Prop :=
  match target_activation_plan w with
  | Some plan => g = tp_target_generation_id plan /\ target_activation_started w = Some (plan_digest plan)
  | None =>
      match restore_attempt_progress w with
      | Some p => is_some (rp_source_freeze p) = true -> is_some (rp_terminal_receipt p) = true
      | None => True
      end
  end.

Inductive supervised (h : WitnessHead)
    : SafetyEventKind -> DatabaseGenerationId -> Z -> WitnessStateV1 -> Prop :=
| sup_initialize :
    supervised h InstallationInitialized (wh_active_generation_id h) (wh_activation_epoch h) (wh_state h)
| sup_register g w :
    valid_uuid g -> g <> wh_active_generation_id h -> (wh_activation_epoch h + 1 <= u64_max)%Z ->
    may_register (wh_state h) g -> register_generation (wh_state h) g = Ok w ->
    supervised h GenerationRegistered g (wh_activation_epoch h + 1) w
| sup_archive k op set a :
    archive_op_of k = Some op -> archive_step (backup_archive_state (wh_state h)) op set a -> rooted a ->
    supervised h k (wh_active_generation_id h) (wh_activation_epoch h)
      (with_backup_archive_state (wh_state h) a)
| sup_prepare p w :
    attempt_reachable p -> with_restore_attempt_progress (wh_state h) p = Ok w ->
    supervised h RestoreAttemptPrepared (wh_active_generation_id h) (wh_activation_epoch h) w
| sup_freeze f w :
    freeze_wf f -> with_source_freeze (wh_state h) f = Ok w ->
    supervised h SourceFreezeRecorded (wh_active_generation_id h) (wh_activation_epoch h) w
| sup_plan p w :
    plan_wf p -> with_target_activation_plan (wh_state h) p = Ok w ->
    supervised h TargetActivationPlanned (wh_active_generation_id h) (wh_activation_epoch h) w
| sup_terminal r w :
    terminal_wf r -> with_restore_terminal_receipt (wh_state h) r = Ok w ->
    supervised h RestoreTerminalRecorded (wh_active_generation_id h) (wh_activation_epoch h) w
| sup_activating w :
    with_target_activation_started (wh_state h) = Ok w ->
    supervised h TargetActivating (wh_active_generation_id h) (wh_activation_epoch h) w.

(** Whatever the operations can produce, with no regard to what the installation allows: a generation may be registered
    at any time, a set started at any head, and the release of a hold put into any archive event. *)
Inductive composed (h : WitnessHead)
    : SafetyEventKind -> DatabaseGenerationId -> Z -> WitnessStateV1 -> Prop :=
| composed_supervised k g ep w : supervised h k g ep w -> composed h k g ep w
| composed_register g w :
    valid_uuid g -> g <> wh_active_generation_id h -> (wh_activation_epoch h + 1 <= u64_max)%Z ->
    register_generation (wh_state h) g = Ok w ->
    composed h GenerationRegistered g (wh_activation_epoch h + 1) w
| composed_archive k op set a :
    archive_op_of k = Some op -> archive_step (backup_archive_state (wh_state h)) op set a ->
    composed h k (wh_active_generation_id h) (wh_activation_epoch h) (with_backup_archive_state (wh_state h) a)
| composed_release k op set a :
    archive_op_of k = Some op -> archive_step (backup_archive_state (wh_state h)) OpRelease set a ->
    composed h k (wh_active_generation_id h) (wh_activation_epoch h) (with_backup_archive_state (wh_state h) a).

(** ** The invariant *)

Definition generations_bytes (l : list DatabaseGenerationId) : bytes := concat (map uuid_bytes l).

(** The plan and the attempt it activates. *)
Definition plan_of_attempt (plan : TargetActivationPlan) (p : RestoreAttemptProgress) : Prop :=
  rp_attempt_id p = tp_attempt_id plan /\ rp_target_id p = tp_target_id plan /\
  rp_backup_set_id p = tp_backup_set_id plan /\
  rp_source_generation_id p = tp_source_generation_id plan /\
  rp_target_generation_id p = tp_target_generation_id plan /\
  rp_source_freeze p = Some (tp_source_freeze plan).

(** The terminal receipt that lets the plan be activated. *)
Definition initialised_for (plan : TargetActivationPlan) (r : RestoreTerminalReceipt) : Prop :=
  rt_attempt_id r = tp_attempt_id plan /\ rt_target_id r = tp_target_id plan /\
  is_target_initialization (rt_release_reason r) = true.

Record state_inv (w : WitnessStateV1) : Prop := {
  st_archive : archive_inv (backup_archive_state w);
  st_plan_wf : opt_valid plan_wf (target_activation_plan w);
  st_progress : opt_valid attempt_reachable (restore_attempt_progress w);
  st_plan : forall plan, target_activation_plan w = Some plan ->
    exists p, restore_attempt_progress w = Some p /\ plan_of_attempt plan p;
  st_started : forall d, target_activation_started w = Some d ->
    exists plan r, target_activation_plan w = Some plan /\ d = plan_digest plan /\
      restore_terminal_receipt w = Some r /\ initialised_for plan r;
}.

(** [gens] lists the registered generations, the active one last. *)
Record lineage_inv (h : WitnessHead) (gens : list DatabaseGenerationId) : Prop := {
  li_bytes : generation_lineage_state (wh_state h) = generations_bytes gens;
  li_valid : Forall valid_uuid gens;
  li_active : last gens = Some (wh_active_generation_id h);
  li_epoch : Z.of_nat (length gens) = (wh_activation_epoch h + 1)%Z;
}.

Definition head_inv (h : WitnessHead) : Prop :=
  state_inv (wh_state h) /\ exists gens, lineage_inv h gens.

Lemma generations_bytes_app l l' : generations_bytes (l ++ l') = generations_bytes l ++ generations_bytes l'.
Proof. unfold generations_bytes. by rewrite map_app, concat_app. Qed.

Lemma generations_bytes_single g : generations_bytes [g] = uuid_bytes g.
Proof. apply app_nil_r. Qed.

Lemma len_generations_bytes l : len (generations_bytes l) = (16 * Z.of_nat (length l))%Z.
Proof.
  induction l as [|g l IH]; [done|]. change (g :: l) with ([g] ++ l).
  rewrite generations_bytes_app, len_app, IH, generations_bytes_single, length_app. unfold len, uuid_bytes.
  rewrite length_be_bytes. simpl length. lia.
Qed.

Lemma uuid_bytes_inj g g' : valid_uuid g -> valid_uuid g' -> uuid_bytes g = uuid_bytes g' -> g = g'.
Proof.
  unfold valid_uuid, in_range, uuid_max, uuid_bytes. intros H1 H2 H%(f_equal from_be_bytes).
  rewrite !from_be_bytes_be_bytes in H; [done|..]; change (256 ^ Z.of_nat 16)%Z with (2 ^ 128)%Z; lia.
Qed.

Lemma register_generation_Ok w gens active g :
  generation_lineage_state w = generations_bytes gens -> last gens = Some active ->
  Forall valid_uuid gens -> valid_uuid g -> g <> active ->
  register_generation w g = Ok (with_lineage (generations_bytes (gens ++ [g])) w).
Proof.
  intros Hl Hla Hv Hg Hne. apply last_Some in Hla as [l' ->]. apply Forall_app in Hv as [_ Hv].
  apply Forall_cons in Hv as [Hv _]. unfold register_generation. rewrite Hl. cbv zeta.
  rewrite !generations_bytes_app, !generations_bytes_single, !len_app.
  assert (len (uuid_bytes active) = 16%Z) as E by (unfold len, uuid_bytes; by rewrite length_be_bytes).
  rewrite E. pose proof (len_nonneg (generations_bytes l')) as Hn.
  replace (saturating_sub _ 16) with (len (generations_bytes l')) by (unfold saturating_sub; lia).
  unfold slice. rewrite (proj2 (Z.leb_le _ _)) by lia. rewrite len_app, E, (proj2 (Z.leb_le _ _)) by lia. simpl.
  assert (Z.to_nat (len (generations_bytes l')) = length (generations_bytes l')) as -> by (unfold len; lia).
  rewrite drop_app_length.
  replace (Z.to_nat (_ + 16 - _)) with (length (uuid_bytes active)) by (unfold len in *; lia).
  rewrite firstn_all, E. simpl.
  rewrite (proj2 (eqb_false _ _)); [done|]. intros Heq. by apply uuid_bytes_inj in Heq.
Qed.

Lemma genesis_head_inv iid fid proof gid key :
  valid_uuid gid -> head_inv (head_of_genesis iid fid proof gid key).
Proof.
  intros Hg. split.
  - constructor; simpl; try done. split; constructor.
  - exists [gid]. constructor; simpl; try done; by constructor.
Qed.

Lemma head_inv_wf h : head_inv h -> witness_wf (wh_state h).
Proof.
  intros [[Ha Hp Hq Hpl Hst] (gens & [Hb Hv Hl He])]. constructor; try done.
  - rewrite Hb, len_generations_bytes. apply last_Some in Hl as [l' ->]. rewrite length_app. simpl. split; [lia|].
    rewrite Z.mul_comm. apply Z.mod_mul. lia.
  - by apply archive_inv_wf.
  - intros d Hd. destruct (Hst d Hd) as (plan & r & _ & -> & _). apply digest_of_valid.
Qed.

(** ** One operation on the state *)

Lemma with_progress_inv w p :
  state_inv w -> attempt_reachable p ->
  (forall plan, target_activation_plan w = Some plan -> plan_of_attempt plan p) ->
  (forall r, restore_terminal_receipt w = Some r -> rp_terminal_receipt p = Some r) ->
  state_inv (with_progress p w).
Proof.
  intros [Ha Hp Hq Hpl Hst] Hr Hm Ht. constructor; simpl; try done.
  - by intros ? [= <-].
  - intros plan Hplan. exists p. split; [done|]. by apply Hm.
  - intros d Hd. destruct (Hst d Hd) as (plan & r & ? & -> & Hrec & ?). exists plan, r.
    split_and!; try done. unfold restore_terminal_receipt. simpl. by apply Ht.
Qed.

Lemma supervised_state_inv h k g ep w :
  state_inv (wh_state h) -> supervised h k g ep w -> state_inv w.
Proof.
  intros Hi Hs. pose proof Hi as [Ha Hp Hq Hpl Hst]. destruct Hs as
    [|g w Hg Hne He Hm Hr|k op set a Hk Hs Hro|p w Hr Hw|f w Hf Hw|p w Hpw Hw|r w Hr Hw|w Hw]; try done.
  - unfold register_generation in Hr. apply bind_Ok in Hr as (c & _ & Hr). split_match_in Hr. simplify_eq.
    by constructor.
  - constructor; try done. simpl. by eapply archive_step_inv.
  - unfold with_restore_attempt_progress in Hw. split_match_in Hw. bool_hyps. simplify_eq.
    match goal with H : is_some (restore_attempt_progress _) = false |- _ => apply is_some_false in H as Hn end.
    apply with_progress_inv; try done.
    + intros plan Hplan. destruct (Hpl _ Hplan) as (? & ? & _). congruence.
    + intros r. unfold restore_terminal_receipt. by rewrite Hn.
  - unfold with_source_freeze in Hw. apply bind_Ok in Hw as (p & Hp'%ok_or_Ok & Hw).
    apply bind_Ok in Hw as (p' & Hrec%map_err_Ok & [= <-]). pose proof Hrec as Hrec'.
    apply record_source_freeze_Ok in Hrec' as (Hn & _ & Heq). apply with_progress_inv; try done.
    + eapply attempt_frozen; [by apply Hq|done|done].
    + intros plan Hplan. destruct (Hpl _ Hplan) as (? & ? & (_ & _ & _ & _ & _ & ?)). congruence.
    + intros r. unfold restore_terminal_receipt. rewrite Hp'. simpl. by rewrite Heq.
  - unfold with_target_activation_plan in Hw. destruct (restore_attempt_progress (wh_state h)) as [q|] eqn:Hq'; [|done].
    split_match_in Hw. unfold plan_disagrees in *. bool_hyps. simplify_eq. constructor; simpl; try done.
    + by intros ? [= <-].
    + by rewrite Hq'.
    + intros ? [= <-]. by exists q.
    + intros d Hd. destruct (Hst d Hd) as (plan & r & Hplan & _).
      match goal with H : is_some (target_activation_plan _) = false |- _ => apply is_some_false in H end. congruence.
  - unfold with_restore_terminal_receipt in Hw. apply bind_Ok in Hw as (p & Hp'%ok_or_Ok & Hw).
    apply bind_Ok in Hw as (p' & Hrec%map_err_Ok & [= <-]). pose proof Hrec as Hrec'.
    apply record_terminal_receipt_Ok in Hrec' as (_ & Hn & _ & _ & Heq). apply with_progress_inv; try done.
    + eapply attempt_terminal; [by apply Hq|done|done].
    + intros plan Hplan. destruct (Hpl _ Hplan) as (q & ? & Hmatch). assert (q = p) as -> by congruence.
      by rewrite Heq.
    + intros r'. unfold restore_terminal_receipt. rewrite Hp'. simpl. congruence.
  - unfold with_target_activation_started in Hw. apply bind_Ok in Hw as (plan & Hplan%ok_or_Ok & Hw).
    apply bind_Ok in Hw as (t & Ht%ok_or_Ok & Hw). split_match_in Hw. bool_hyps. simplify_eq.
    constructor; simpl; try done. intros ? [= <-]. by exists plan, t.
Qed.

(** ** The lineage *)

Lemma supervised_lineage h k g ep w :
  supervised h k g ep w ->
  (k = GenerationRegistered /\ valid_uuid g /\ g <> wh_active_generation_id h /\
    ep = (wh_activation_epoch h + 1)%Z /\ register_generation (wh_state h) g = Ok w) \/
  (g = wh_active_generation_id h /\ ep = wh_activation_epoch h /\
    generation_lineage_state w = generation_lineage_state (wh_state h)).
Proof.
  intros Hs. destruct Hs as
    [|g w Hg Hne He Hm Hr|k op set a Hk Hs Hro|p w Hr Hw|f w Hf Hw|p w Hpw Hw|r w Hr Hw|w Hw];
    try (by left); right; split_and!; try done.
  - unfold with_restore_attempt_progress in Hw. split_match_in Hw. by simplify_eq.
  - unfold with_source_freeze in Hw. apply bind_Ok in Hw as (? & _ & Hw). apply bind_Ok in Hw as (? & _ & Hw).
    by simplify_eq.
  - unfold with_target_activation_plan in Hw. split_match_in Hw. split_match_in Hw. by simplify_eq.
  - unfold with_restore_terminal_receipt in Hw. apply bind_Ok in Hw as (? & _ & Hw).
    apply bind_Ok in Hw as (? & _ & Hw). by simplify_eq.
  - unfold with_target_activation_started in Hw. apply bind_Ok in Hw as (? & _ & Hw).
    apply bind_Ok in Hw as (? & _ & Hw). split_match_in Hw. by simplify_eq.
Qed.

(** ** Acceptance of a supervised entry *)

Context {ED : Ed25519} {ED_ok : Ed25519Ok}.

(** The body a supervisor signs next on top of [h]. *)
Definition next_body (h : WitnessHead) (rid : RequestId) (k : SafetyEventKind) (g : DatabaseGenerationId)
    (ep : Z) (w : WitnessStateV1) : JournalEntryToSign :=
  mkToSign (wh_installation_id h) (wh_fingerprint_key_id h) (wh_continuity_proof h) rid
    (wh_sequence h + 1) (wh_chain_digest h) k g ep w.

Lemma archive_op_event_accepted h b op :
  archive_op_of (ts_event_kind b) = Some op -> generation_moved h b = false ->
  witness_predicate op (backup_archive_state (ts_state b)) (backup_archive_state (wh_state h)) = true ->
  event_accepted h b.
Proof.
  intros Hk Hg Hp. pose proof Hg as Hg'. unfold generation_moved in Hg'. bool_hyps.
  unfold event_accepted, event_rejected, exact_archive_lifecycle_transition.
  match goal with Hx : ts_generation_id b = _, Hy : ts_activation_epoch b = _ |- _ => rewrite Hx, Hy end.
  rewrite eqb_refl, Z.eqb_refl. destruct (ts_event_kind b); simplify_eq/=; rewrite ?Hg, ?Hp; done.
Qed.

Lemma generation_same_not_moved h b :
  ts_generation_id b = wh_active_generation_id h -> ts_activation_epoch b = wh_activation_epoch h ->
  generation_moved h b = false.
Proof. intros Hg He. unfold generation_moved. by rewrite Hg, He, eqb_refl, Z.eqb_refl. Qed.

Lemma register_accepted h b :
  head_inv h -> valid_uuid (ts_generation_id b) -> ts_generation_id b <> wh_active_generation_id h ->
  (wh_activation_epoch h + 1 <= u64_max)%Z -> ts_activation_epoch b = (wh_activation_epoch h + 1)%Z ->
  may_register (wh_state h) (ts_generation_id b) ->
  register_generation (wh_state h) (ts_generation_id b) = Ok (ts_state b) ->
  accept_generation h b = Ok tt.
Proof.
  intros [[Ha Hp Hq Hpl Hst] _] Hv Hne Hm He Hmay Hr. unfold accept_generation. cbv zeta.
  rewrite (proj2 (eqb_false _ _) Hne). unfold checked_add. rewrite (proj2 (Z.leb_le _ _) Hm). simpl.
  rewrite He, Z.eqb_refl, Hr. simpl. rewrite eqb_refl. simpl. unfold may_register in Hmay.
  assert (target_activation_plan (ts_state b) = target_activation_plan (wh_state h)) as Hpl'.
  { unfold register_generation in Hr. apply bind_Ok in Hr as (c & _ & Hr). split_match_in Hr.
    by injection Hr as <-. }
  destruct (target_activation_plan (wh_state h)) as [plan|] eqn:Eplan; simpl.
  - rewrite andb_false_r. destruct Hmay as [Hg Hs]. destruct (Hst _ Hs) as (plan' & r & ? & _ & Hrec & Hi).
    assert (plan' = plan) as -> by congruence. destruct Hi as (Hi1 & Hi2 & Hi3). unfold activation_not_ready.
    by rewrite Hrec, Hi1, Hi2, Hi3, Hg, Hpl', Hs, !eqb_refl.
  - rewrite andb_true_r. destruct (restore_attempt_progress (wh_state h)) as [p|]; [|done].
    destruct (is_some (rp_source_freeze p)); simpl; [|done]. unfold is_none. by rewrite Hmay.
Qed.

Lemma supervised_event_accepted h rid k g ep w :
  head_inv h -> supervised h k g ep w -> event_accepted h (next_body h rid k g ep w).
Proof.
  intros Hi Hs. destruct Hs as
    [|g w Hg Hne He Hm Hr|k op set a Hk Hs Hro|p w Hr Hw|f w Hf Hw|p w Hpw Hw|r w Hr Hw|w Hw].
  - unfold event_accepted, event_rejected. simpl. by rewrite !eqb_refl, Z.eqb_refl.
  - apply register_accepted; done.
  - apply (archive_op_event_accepted _ _ op); [done|by apply generation_same_not_moved|]. simpl.
    eapply archive_step_predicate; [apply Hi|done| |done]. by destruct k; simplify_eq/=.
  - unfold event_accepted, event_rejected. simpl. rewrite generation_same_not_moved by done. simpl.
    unfold with_restore_attempt_progress in Hw. split_match_in Hw. bool_hyps. simplify_eq.
    unfold is_exact_restore_attempt_prepared_successor_of, is_none. simpl. rewrite !eqb_refl. simpl.
    by repeat match goal with H : is_some _ = false |- _ => rewrite H; clear H end.
  - unfold event_accepted, event_rejected. simpl. rewrite generation_same_not_moved by done. simpl.
    unfold with_source_freeze in Hw. apply bind_Ok in Hw as (p & Hp%ok_or_Ok & Hw).
    apply bind_Ok in Hw as (p' & Hrec%map_err_Ok & [= <-]). pose proof Hrec as Hrec'.
    apply record_source_freeze_Ok in Hrec' as (Hn & _ & Heq).
    unfold is_exact_source_freeze_successor_of. simpl. rewrite !eqb_refl, Hp. simpl.
    unfold is_none at 1. rewrite Hn. simpl. rewrite Heq at 1. simpl.
    assert (rp_terminal_receipt p = None) as Ht.
    { destruct (rp_terminal_receipt p) eqn:Et; [|done]. destruct Hi as [Hi _]. pose proof (st_progress _ Hi _ Hp) as Hreach.
      apply attempt_reachable_wf, pw_order in Hreach; [|by rewrite Et]. by rewrite Hn in Hreach. }
    rewrite Heq at 1. simpl. rewrite Ht. simpl. by rewrite Hrec, eqb_refl.
  - unfold event_accepted, event_rejected. simpl. rewrite generation_same_not_moved by done. simpl.
    unfold with_target_activation_plan in Hw. split_match_in Hw. split_match_in Hw. bool_hyps. simplify_eq.
    unfold is_exact_target_activation_plan_successor_of, is_none. simpl. rewrite !eqb_refl. simpl.
    match goal with H : is_some (target_activation_plan _) = false |- _ => by rewrite H end.
  - unfold event_accepted, event_rejected. simpl. rewrite generation_same_not_moved by done. simpl.
    unfold with_restore_terminal_receipt in Hw. apply bind_Ok in Hw as (p & Hp%ok_or_Ok & Hw).
    apply bind_Ok in Hw as (p' & Hrec%map_err_Ok & [= <-]). pose proof Hrec as Hrec'.
    apply record_terminal_receipt_Ok in Hrec' as (_ & Hn & _ & _ & Heq).
    unfold is_exact_restore_terminal_successor_of. simpl. rewrite !eqb_refl, Hp. simpl.
    unfold is_none. rewrite Hn. simpl. rewrite Heq at 1. simpl. by rewrite Hrec, eqb_refl.
  - unfold event_accepted, event_rejected. simpl. rewrite generation_same_not_moved by done. simpl.
    unfold with_target_activation_started in Hw. apply bind_Ok in Hw as (plan & Hplan%ok_or_Ok & Hw).
    apply bind_Ok in Hw as (t & Ht%ok_or_Ok & Hw). split_match_in Hw. bool_hyps. simplify_eq.
    unfold is_exact_target_activating_successor_of, is_none. simpl. rewrite !eqb_refl, Hplan. simpl.
    match goal with H : is_some (target_activation_started _) = false |- _ => rewrite H end. simpl. by rewrite eqb_refl.
Qed.

(** ** What is accepted of what can be composed *)

Lemma archive_event_predicate h b op :
  archive_op_of (ts_event_kind b) = Some op -> event_accepted h b ->
  witness_predicate op (backup_archive_state (ts_state b)) (backup_archive_state (wh_state h)) = true.
Proof.
  unfold event_accepted, event_rejected, exact_archive_lifecycle_transition. intros Hk He.
  destruct (ts_event_kind b); simplify_eq/=; bool_hyps; done.
Qed.

Lemma register_accepted_may h b : accept_generation h b = Ok tt -> may_register (wh_state h) (ts_generation_id b).
Proof.
  unfold accept_generation, may_register. cbv zeta. intros H. split_match_in H. apply bind_Ok in H as (n & _ & H).
  split_match_in H. apply bind_Ok in H as (w & _ & H). split_match_in H. split_match_in H. split_match_in H.
  destruct (target_activation_plan (wh_state h)) as [plan|]; simpl in *.
  - unfold activation_not_ready in *. bool_hyps. done.
  - destruct (restore_attempt_progress (wh_state h)) as [p|]; [|done]. intros Hf. rewrite Hf in *. simpl in *.
    rewrite andb_true_r in *. unfold is_none in *. by bool_hyps.
Qed.

Lemma entry_sign_verifies k b : entry_verify (entry_sign k b) = Ok tt.
Proof. unfold entry_verify, entry_sign. simpl. by rewrite verify_signed. Qed.

Lemma supervised_accepted_raw h jk rid k g ep w :
  head_inv h -> supervised h k g ep w -> public_key jk = wh_journal_public_key h ->
  (wh_sequence h + 1 <= u64_max)%Z -> accepted h (entry_sign jk (next_body h rid k g ep w)).
Proof.
  intros Hi Hs Hk Hm. constructor; try done; [apply entry_sign_verifies|].
  by apply supervised_event_accepted.
Qed.

Lemma supervised_head_inv h k g ep w e :
  head_inv h -> supervised h k g ep w ->
  ts_generation_id (entry_body e) = g -> ts_activation_epoch (entry_body e) = ep -> ts_state (entry_body e) = w ->
  head_inv (next_head h e).
Proof.
  intros [Hst (gens & [Hb Hv Hl He])] Hs Eg Ee Ew. split; [simpl; rewrite Ew; by eapply supervised_state_inv|].
  destruct (supervised_lineage _ _ _ _ _ Hs) as [(_ & Hg & Hne & -> & Hr)|(-> & -> & Hln)].
  - exists (gens ++ [g]). erewrite register_generation_Ok in Hr by done. injection Hr as <-.
    constructor; simpl; rewrite ?Eg, ?Ee, ?Ew; try done.
    + apply Forall_app. split; [done|]. by constructor.
    + by rewrite last_snoc.
    + rewrite length_app. simpl. lia.
  - exists gens. constructor; simpl; rewrite ?Eg, ?Ee, ?Ew, ?Hln; done.
Qed.

(** The heads an installation reaches under its supervisor. *)
Inductive supervisor_reachable (jk : KeyPair) : WitnessHead -> Prop :=
| supervisor_genesis iid fid proof gid :
    valid_uuid iid -> valid_uuid fid -> valid_digest proof -> valid_uuid gid ->
    supervisor_reachable jk (head_of_genesis iid fid proof gid (public_key jk))
| supervisor_next h rid k g ep w :
    supervisor_reachable jk h -> valid_uuid rid -> supervised h k g ep w -> (wh_sequence h + 1 <= u64_max)%Z ->
    supervisor_reachable jk (next_head h (entry_sign jk (next_body h rid k g ep w))).

(** What the identity fields of a reachable head satisfy. *)
Record head_wf (jk : KeyPair) (h : WitnessHead) : Prop := {
  hw_ids : Forall valid_uuid [wh_installation_id h; wh_fingerprint_key_id h; wh_active_generation_id h];
  hw_digests : Forall valid_digest [wh_continuity_proof h; wh_chain_digest h];
  hw_key : wh_journal_public_key h = public_key jk;
  hw_numbers : in_range u64_max (wh_sequence h) /\ in_range u64_max (wh_activation_epoch h);
}.

Lemma supervised_generation_valid h k g ep w :
  supervised h k g ep w -> in_range u64_max (wh_activation_epoch h) -> valid_uuid (wh_active_generation_id h) ->
  valid_uuid g /\ in_range u64_max ep.
Proof. destruct 1; try done. unfold in_range. intros. split; [done|lia]. Qed.

Lemma supervisor_reachable_inv jk h : supervisor_reachable jk h -> head_wf jk h /\ head_inv h.
Proof.
  induction 1 as [iid fid proof gid Hi Hf Hp Hg|h rid k g ep w _ [[Hids Hds Hk [Hs He]] IH] Hr Hsup Hm].
  - split; [|by apply genesis_head_inv]. constructor; simpl; rewrite ?Forall_cons; try done; split_and!; try done.
    apply digest_of_valid.
  - split; [|by eapply supervised_head_inv]. open_forall.
    destruct (supervised_generation_valid _ _ _ _ _ Hsup He) as [Hg Hep]; [done|].
    constructor; simpl; rewrite ?Forall_cons; try done; split_and!; try done; [apply digest_of_valid|].
    unfold in_range in *. lia.
Qed.

Lemma next_body_wf jk h rid k g ep w :
  head_wf jk h -> head_inv h -> valid_uuid rid -> supervised h k g ep w -> (wh_sequence h + 1 <= u64_max)%Z ->
  body_wf (next_body h rid k g ep w).
Proof.
  intros [Hids Hds Hk [Hs He]] Hi Hr Hsup Hm. open_forall.
  destruct (supervised_generation_valid _ _ _ _ _ Hsup He) as [Hg Hep]; [done|].
  constructor; simpl; rewrite ?Forall_cons; try done.
  - split; [|done]. unfold in_range in *. lia.
  - by apply (head_inv_wf (next_head h (entry_sign jk (next_body h rid k g ep w)))), (supervised_head_inv h k g ep w).
Qed.

End Supervisor.
