(* ===== verification/WitnessFile.v ===== *)
(** * The durable file witness

    [crates/vestrace-infrastructure/src/safety/witness_file.rs]: the CBOR record a witness
    keeps on disk, opening it, and the compare-and-advance that replaces it.  The record file
    is its content, [None] when absent; a call may be cut at its I/O steps. *)

From Stdlib Require Import ZArith Lia String Strings.Byte.
From stdpp Require Import base option numbers list.
From S2P Require Import Prelude BTree Codec Crypto BackupArchive BackupArchiveProps.
From S2P Require Import RestoreCutover RestoreCutoverProps InstallationSafety.
From S2P Require Import InstallationSafetyProps WitnessChain.

Definition WITNESS_RECORD_DOMAIN : bytes := byte_string "vestrace-installation-safety-witness-v1".

(** [WitnessError]; the text of [Unavailable] is not kept. *)
Inductive WitnessError : Type :=
| Conflict
| Invalid (e : InstallationSafetyError)
| Unavailable.

#[export] Instance WitnessError_eq_dec : EqDecision WitnessError.
Proof. solve_decision. Defined.

#[export] Instance WitnessError_malformed : HasMalformed WitnessError := Unavailable.

Record StoredWitnessRecord : Type := mkStored {
  sw_binding : SafetyBootstrapBinding;
  sw_genesis_generation : option DatabaseGenerationId;
  sw_receipt : option WitnessReceipt;
}.

(** ** The record *)

Definition cbor_bytes (b : bytes) : bytes :=
  (if (len b <=? 23)%Z then u8_bytes (Z.lor 64 (len b))
   else if (len b <=? 255)%Z then u8_bytes 88 ++ u8_bytes (len b)
   else if (len b <=? 65535)%Z then u8_bytes 89 ++ be_bytes 2 (len b)
   else u8_bytes 90 ++ u32_bytes (len b)) ++ b.

(** [None] stands for the panic of [expect] on a record with neither part. *)
Definition encode_record (r : StoredWitnessRecord) : option bytes :=
  '(generation, receipt, signature) ←
    match sw_receipt r with
    | Some receipt => Some ([], receipt_canonical_bytes receipt, wr_signature receipt)
    | None => g ← sw_genesis_generation r; Some (uuid_bytes g, [], [])
    end;
  Some (u8_bytes 133 ++ cbor_bytes WITNESS_RECORD_DOMAIN ++
        cbor_bytes (binding_canonical_bytes (sw_binding r)) ++
        cbor_bytes generation ++ cbor_bytes receipt ++ cbor_bytes signature).

Definition dec_cbor_bytes : Dec WitnessError bytes :=
  initial ← dec_u8;
  length ← (if (64 <=? initial)%Z && (initial <=? 87)%Z then mret (Z.land initial 31)
            else if (initial =? 88)%Z then dec_u8
            else if (initial =? 89)%Z then b ← take_bytes 2; mret (from_be_bytes b)
            else if (initial =? 90)%Z then dec_u32
            else lift (Err Unavailable));
  take_bytes length.

Section Witness.
Context {SHA : Sha256} {ED : Ed25519}.

Definition decode_record (b : bytes) : result WitnessError StoredWitnessRecord :=
  '(binding, generation, receipt_payload, signature) ← run (
    tag ← dec_u8;
    if negb (tag =? 133)%Z then lift (Err Unavailable) else
    domain ← dec_cbor_bytes;
    if domain !== WITNESS_RECORD_DOMAIN then lift (Err Unavailable) else
    c ← dec_cbor_bytes;
    binding ← lift (map_err (fun _ => Unavailable) (binding_from_canonical_bytes c));
    generation ← dec_cbor_bytes;
    payload ← dec_cbor_bytes;
    signature ← dec_cbor_bytes;
    dec_finish;;
    mret (binding, generation, payload, signature)) b;
  if (length generation =? 16)%nat && (receipt_payload == []) && (signature == [])
  then Ok (mkStored binding (Some (from_be_bytes generation)) None)
  else if generation == [] then
    if negb (length signature =? 64)%nat then Err Unavailable else
    receipt ← map_err (fun _ => Unavailable)
                (receipt_from_canonical_bytes_and_signature receipt_payload signature);
    Ok (mkStored binding None (Some receipt))
  else Err Unavailable.

(** ** The witness *)

Record FileInstallationSafetyWitness : Type := mkFileWitness {
  fw_binding : SafetyBootstrapBinding;
  fw_signing_key : KeyPair;
  fw_head : WitnessHead;
}.

Definition genesis_of (binding : SafetyBootstrapBinding) (g : DatabaseGenerationId) : WitnessHead :=
  head_of_genesis (sb_installation_id binding) (sb_fingerprint_key_id binding)
    (sb_continuity_proof binding) g (sb_journal_public_key binding).

(** [key] is what [load_signing_key] finds. *)
Definition witness_open (key : option KeyPair) (file : option bytes)
    : result WitnessError FileInstallationSafetyWitness :=
  signing_key ← ok_or key Unavailable;
  record ← ok_or file Unavailable;
  stored ← decode_record record;
  if sb_witness_public_key (sw_binding stored) !== public_key signing_key then Err Unavailable else
  head ← match sw_receipt stored with
         | Some receipt => map_err (fun _ => Unavailable) (from_durable_receipt (sw_binding stored) receipt)
         | None =>
             g ← ok_or (sw_genesis_generation stored) Unavailable;
             Ok (genesis_of (sw_binding stored) g)
         end;
  Ok (mkFileWitness (sw_binding stored) signing_key head).

(** Creates the genesis record when there is none; [fault] cuts the creation. *)
Definition witness_open_or_create (fault : IoFault) (key : option KeyPair) (binding : SafetyBootstrapBinding)
    (generation : DatabaseGenerationId) (file : option bytes)
    : result WitnessError FileInstallationSafetyWitness * option bytes :=
  match witness_open key file with
  | Ok witness =>
      if (fw_binding witness !== binding) || (wh_active_generation_id (fw_head witness) !== generation)
      then (Err Unavailable, file)
      else (Ok witness, file)
  | Err e =>
      if is_none file && (e == Unavailable) then
        match fault, key with
        | CreateDirFails, _ | _, None => (Err Unavailable, file)
        | _, Some signing_key =>
            if sb_witness_public_key binding !== public_key signing_key then (Err Unavailable, file) else
            match encode_record (mkStored binding (Some generation) None) with
            | None => (Err Unavailable, file)
            | Some record =>
                match fault with
                | OpenFails => (Err Unavailable, file)
                | WriteFails n => (Err Unavailable, Some (take n record))
                | SyncFileFails | SyncDirectoryFails => (Err Unavailable, Some record)
                | _ => (Ok (mkFileWitness binding signing_key (genesis_of binding generation)), Some record)
                end
            end
        end
      else (Err e, file)
  end.

(** [replace_record]: the temporary is created, written and synced, then renamed over the
    record, then the directory is synced. *)
Inductive ReplaceFault : Type :=
| ReplaceDone
| TemporaryFails
| DirectorySyncFails.

Definition replace_record (fault : ReplaceFault) (w : FileInstallationSafetyWitness) (receipt : WitnessReceipt)
    (file : option bytes) : result WitnessError unit * option bytes :=
  match fault with
  | TemporaryFails => (Err Unavailable, file)
  | DirectorySyncFails =>
      (Err Unavailable, encode_record (mkStored (fw_binding w) None (Some receipt)))
  | ReplaceDone => (Ok tt, encode_record (mkStored (fw_binding w) None (Some receipt)))
  end.

Definition file_compare_and_advance (fault : ReplaceFault) (expected : WitnessHead) (next : WitnessAdvance)
    (w : FileInstallationSafetyWitness) (file : option bytes)
    : result WitnessError WitnessReceipt * FileInstallationSafetyWitness * option bytes :=
  if fw_head w !== expected then (Err Conflict, w, file) else
  match receipt_sign (fw_signing_key w) (fw_head w) next with
  | Err e => (Err (Invalid e), w, file)
  | Ok receipt =>
      match from_durable_receipt (fw_binding w) receipt with
      | Err e => (Err (Invalid e), w, file)
      | Ok replacement =>
          match replace_record fault w receipt file with
          | (Err e, file') => (Err e, w, file')
          | (Ok _, file') => (Ok receipt, mkFileWitness (fw_binding w) (fw_signing_key w) replacement, file')
          end
      end
  end.

Definition durable_receipt (w : FileInstallationSafetyWitness) (file : option bytes)
    : result WitnessError WitnessReceipt :=
  record ← ok_or file Unavailable;
  stored ← decode_record record;
  if sw_binding stored !== fw_binding w then Err Unavailable else
  ok_or (sw_receipt stored) Unavailable.

End Witness.
