(* ===== verification/WitnessFileProps.v ===== *)
(** * The durable file witness: properties

    The record round trip, and the agreement between the head in memory and the head a
    restart reads back. *)

From Stdlib Require Import ZArith Lia String Strings.Byte.
From stdpp Require Import base option numbers list.
From S2P Require Import Prelude BTree Codec Crypto BackupArchive BackupArchiveProps.
From S2P Require Import RestoreCutover RestoreCutoverProps InstallationSafety.
From S2P Require Import InstallationSafetyProps WitnessChain WitnessFile.

(** ** The record *)

Lemma short_length (n : Z) :
  (0 <= n <= 23)%Z -> (64 <= Z.lor 64 n <= 87)%Z /\ Z.land (Z.lor 64 n) 31 = n.
Proof.
  intros Hn. assert (In n (map Z.of_nat (seq 0 24))) as Hin.
  { apply in_map_iff. exists (Z.to_nat n). split; [lia|]. apply in_seq. lia. }
  simpl in Hin. repeat (destruct Hin as [<-|Hin]; [vm_compute; intuition congruence|]). done.
Qed.

Definition fits_cbor (b : bytes) : Prop := (len b <= u32_max)%Z.

Lemma parses_cbor rest b : fits_cbor b -> parses rest dec_cbor_bytes (cbor_bytes b) b.
Proof.
  unfold fits_cbor, u32_max. intros Hb. pose proof (len_nonneg b) as Hn. unfold cbor_bytes, dec_cbor_bytes.
  destruct (Z.leb_spec (len b) 23) as [H1|H1].
  { destruct (short_length (len b)) as [Hr Hl]; [lia|].
    eapply parses_bind; [apply parses_u8; unfold in_range, u8_max; lia|]. cbv beta.
    rewrite (proj2 (Z.leb_le 64 _)), (proj2 (Z.leb_le _ 87)) by lia. cbn [andb].
    eapply parses_bind_r; [apply parses_ret|]. rewrite Hl. by apply parses_take. }
  destruct (Z.leb_spec (len b) 255) as [H2|H2].
  { rewrite <-app_assoc. eapply parses_bind; [by apply parses_u8|]. cbn.
    eapply parses_bind; [apply parses_u8; unfold in_range, u8_max; lia|]. by apply parses_take. }
  destruct (Z.leb_spec (len b) 65535) as [H3|H3]; rewrite <-app_assoc;
    (eapply parses_bind; [by apply parses_u8|]); cbn.
  - eapply parses_bind; [apply (parses_be _ 2); simpl; lia|]. by apply parses_take.
  - eapply parses_bind; [apply parses_u32; unfold in_range, u32_max; lia|]. by apply parses_take.
Qed.

Section Record.
Context {SHA : Sha256} {ED : Ed25519}.

Lemma len_binding b : binding_wf b -> (len (binding_canonical_bytes b) <= 300)%Z.
Proof.
  destruct b as [iid fid proof jk wk]. intros [Hu Hd]. cbn [sb_installation_id sb_fingerprint_key_id sb_continuity_proof
    sb_journal_public_key sb_witness_public_key] in *. open_forall.
  unfold binding_canonical_bytes, field, len, valid_digest in *. rewrite !length_app.
  unfold u64_bytes, uuid_bytes. rewrite !length_be_bytes.
  cbn [sb_installation_id sb_fingerprint_key_id sb_continuity_proof sb_journal_public_key sb_witness_public_key].
  change (length BOOTSTRAP_RECORD_DOMAIN) with 41%nat. lia.
Qed.

(** The parts of a record as read back. *)
Lemma decode_record_parts binding generation payload signature b :
  binding_wf binding -> fits_cbor generation -> fits_cbor payload -> fits_cbor signature ->
  b = u8_bytes 133 ++ cbor_bytes WITNESS_RECORD_DOMAIN ++ cbor_bytes (binding_canonical_bytes binding) ++
        cbor_bytes generation ++ cbor_bytes payload ++ cbor_bytes signature ->
  (len b <= usize_max)%Z ->
  decode_record b =
    if (length generation =? 16)%nat && (payload == []) && (signature == [])
    then Ok (mkStored binding (Some (from_be_bytes generation)) None)
    else if generation == [] then
      if negb (length signature =? 64)%nat then Err Unavailable else
      receipt ← map_err (fun _ => Unavailable) (receipt_from_canonical_bytes_and_signature payload signature);
      Ok (mkStored binding None (Some receipt))
    else Err Unavailable.
Proof.
  intros Hbw Hg Hp Hs -> Hl. unfold decode_record.
  match goal with |- context [run ?p ?b] => assert (run p b = Ok (binding, generation, payload, signature)) as -> end;
    [|done].
  apply run_parses; [|done]. clear Hl.
  eapply parses_bind; [by apply parses_u8|]. cbn [Z.eqb Pos.eqb negb].
  eapply parses_bind; [by apply parses_cbor|]. cbv beta. rewrite eqb_refl. cbn [negb].
  eapply parses_bind; [apply parses_cbor; unfold fits_cbor, u32_max; pose proof (len_binding _ Hbw); lia|]. cbv beta.
  eapply parses_bind_r; [apply parses_lift; by rewrite binding_roundtrip|]. cbv beta.
  eapply parses_bind; [by apply parses_cbor|]. eapply parses_bind; [by apply parses_cbor|].
  eapply parses_bind_l; [by apply parses_cbor|]. eapply parses_bind_l; [apply parses_finish|apply parses_ret].
Qed.

(** A receipt a record can hold: its payload decodes, its signature verifies. *)
Record receipt_storable (r : WitnessReceipt) : Prop := {
  rs_wf : receipt_wf r;
  rs_signature : length (wr_signature r) = 64%nat;
  rs_verifies : verify_against r (wr_witness_public_key r) = Ok tt;
  rs_fits : fits_cbor (receipt_canonical_bytes r);
}.

Lemma receipt_bytes_roundtrip r :
  receipt_wf r -> verify_against r (wr_witness_public_key r) = Ok tt ->
  (len (receipt_canonical_bytes r) <= usize_max)%Z ->
  receipt_from_canonical_bytes_and_signature (receipt_canonical_bytes r) (wr_signature r) = Ok r.
Proof.
  intros Hw Hv Hl. unfold receipt_from_canonical_bytes_and_signature.
  rewrite (run_parses _ _ r (receipt_decode_parses r Hw) Hl). simpl. by rewrite Hv.
Qed.

Lemma len_cbor b : (len (cbor_bytes b) <= len b + 5)%Z.
Proof.
  unfold cbor_bytes. rewrite len_app. unfold len at 1. repeat case_match; rewrite ?length_app;
    unfold u8_bytes, u32_bytes; rewrite !length_be_bytes; unfold len; lia.
Qed.

Lemma record_receipt_roundtrip binding r b :
  binding_wf binding -> receipt_storable r ->
  encode_record (mkStored binding None (Some r)) = Some b ->
  decode_record b = Ok (mkStored binding None (Some r)).
Proof.
  intros Hb [Hw Hs Hv Hf] He. apply (inj Some) in He. subst b.
  rewrite (decode_record_parts binding [] (receipt_canonical_bytes r) (wr_signature r)); try done.
  - cbn [length Nat.eqb andb]. rewrite Hs, eqb_refl. cbn [Nat.eqb negb].
    rewrite receipt_bytes_roundtrip; try done.
    unfold fits_cbor, u32_max in Hf. unfold usize_max, u64_max. lia.
  - unfold fits_cbor, len, u32_max. rewrite Hs. lia.
  - cbn [sw_binding]. rewrite !len_app. unfold fits_cbor, usize_max, u64_max, u32_max in *. pose proof (len_binding _ Hb).
    pose proof (len_cbor WITNESS_RECORD_DOMAIN). pose proof (len_cbor (binding_canonical_bytes binding)).
    pose proof (len_cbor []). pose proof (len_cbor (receipt_canonical_bytes r)).
    pose proof (len_cbor (wr_signature r)) as H'. unfold len in H' at 2. rewrite Hs in H'.
    change (len WITNESS_RECORD_DOMAIN) with 39%Z in *. change (len (u8_bytes 133)) with 1%Z.
    change (len []) with 0%Z in *. lia.
Qed.

Lemma record_genesis_roundtrip binding g b :
  binding_wf binding -> valid_uuid g ->
  encode_record (mkStored binding (Some g) None) = Some b ->
  decode_record b = Ok (mkStored binding (Some g) None).
Proof.
  intros Hb Hg He. apply (inj Some) in He. subst b.
  rewrite (decode_record_parts binding (uuid_bytes g) [] []); try done.
  - unfold uuid_bytes. rewrite length_be_bytes, eqb_refl. cbn [Nat.eqb andb].
    rewrite from_be_bytes_be_bytes; [done|].
    unfold valid_uuid, in_range, uuid_max in Hg. change (256 ^ Z.of_nat 16)%Z with (2 ^ 128)%Z. lia.
  - cbn [sw_binding]. rewrite !len_app. unfold usize_max, u64_max, u32_max in *. pose proof (len_binding _ Hb).
    pose proof (len_cbor WITNESS_RECORD_DOMAIN). pose proof (len_cbor (binding_canonical_bytes binding)).
    pose proof (len_cbor []). pose proof (len_cbor (uuid_bytes g)) as H'.
    assert (len (uuid_bytes g) = 16%Z) as Hu by (unfold len, uuid_bytes; by rewrite length_be_bytes).
    rewrite Hu in H'.
    change (len WITNESS_RECORD_DOMAIN) with 39%Z in *. change (len (u8_bytes 133)) with 1%Z.
    change (len []) with 0%Z in *. lia.
Qed.

(** ** Agreement of memory and disk *)

Context {SHA_ok : Sha256Ok} {ED_ok : Ed25519Ok}.

(** The state a restart finds is the state in memory. *)
Definition coherent (w : FileInstallationSafetyWitness) (file : option bytes) : Prop :=
  witness_open (Some (fw_signing_key w)) file = Ok w.

(** The record [witness_open_or_create] writes first reopens as the witness it returns. *)
Lemma genesis_coherent binding key g :
  binding_wf binding -> valid_uuid g -> sb_witness_public_key binding = public_key key ->
  coherent (mkFileWitness binding key (genesis_of binding g)) (encode_record (mkStored binding (Some g) None)).
Proof.
  intros Hb Hg Hk. unfold coherent, witness_open. cbn [ok_or mbind result_bind fw_signing_key].
  destruct (encode_record _) as [b|] eqn:He; [|done]. cbn [ok_or mbind result_bind].
  rewrite (record_genesis_roundtrip _ _ _ Hb Hg He). cbn [mbind result_bind sw_binding sw_receipt].
  rewrite Hk, eqb_refl. done.
Qed.

(** What is known of a running witness. *)
Record witness_running (w : FileInstallationSafetyWitness) : Prop := {
  wn_binding : binding_wf (fw_binding w);
  wn_bound : head_bound (fw_binding w) (fw_signing_key w) (fw_head w);
}.

Lemma receipt_of_storable w e :
  witness_running w -> accepted (fw_head w) e -> body_wf (entry_body e) ->
  fits_cbor (receipt_canonical_bytes (receipt_of (fw_signing_key w) (fw_head w) e)) ->
  receipt_storable (receipt_of (fw_signing_key w) (fw_head w) e).
Proof.
  intros [[Hbi Hbd] [Hi Hf Hc Hj Hw Hs]] Ha [Hu Hd [Hn1 Hn2] Hst] Hfit. open_forall. constructor; try done.
  - constructor; simpl; rewrite ?Forall_cons, ?Hi, ?Hf, ?Hc; try done; split_and!; try done;
      [apply digest_of_valid|apply public_key_length].
  - apply signature_length.
  - apply receipt_of_verifies.
Qed.

Definition after (w : FileInstallationSafetyWitness) (e : SignedJournalEntry) : FileInstallationSafetyWitness :=
  mkFileWitness (fw_binding w) (fw_signing_key w) (next_head (fw_head w) e).

Lemma after_running w e : witness_running w -> accepted (fw_head w) e -> witness_running (after w e).
Proof. intros [Hb Hh] Ha. constructor; [done|]. simpl. by apply next_head_bound. Qed.

Lemma reopen_after w e file :
  witness_running w -> accepted (fw_head w) e -> body_wf (entry_body e) ->
  fits_cbor (receipt_canonical_bytes (receipt_of (fw_signing_key w) (fw_head w) e)) ->
  file = encode_record (mkStored (fw_binding w) None (Some (receipt_of (fw_signing_key w) (fw_head w) e))) ->
  coherent (after w e) file.
Proof.
  intros Hr Ha Hb Hfit ->. pose proof (receipt_of_storable _ _ Hr Ha Hb Hfit) as Hst. destruct Hr as [Hbw Hbound].
  unfold coherent, witness_open. cbn [ok_or mbind result_bind fw_signing_key after].
  destruct (encode_record _) as [b|] eqn:He; [|done]. cbn [ok_or mbind result_bind].
  rewrite (record_receipt_roundtrip _ _ _ Hbw Hst He). cbn [mbind result_bind sw_binding sw_receipt].
  rewrite (hb_witness_key _ _ _ Hbound), eqb_refl. cbn [negb].
  by rewrite (receipt_reopens _ _ _ _ Hbound Ha).
Qed.

(** The outcome of a compare-and-advance from the head in memory, per fault. *)
Lemma file_compare_and_advance_accepted fault w file e :
  witness_running w -> accepted (fw_head w) e ->
  let r := receipt_of (fw_signing_key w) (fw_head w) e in
  let new := encode_record (mkStored (fw_binding w) None (Some r)) in
  file_compare_and_advance fault (fw_head w) (advance_of e) w file =
    match fault with
    | ReplaceDone => (Ok r, after w e, new)
    | TemporaryFails => (Err Unavailable, w, file)
    | DirectorySyncFails => (Err Unavailable, w, new)
    end.
Proof.
  intros [Hb Hbound] Ha. unfold file_compare_and_advance. rewrite eqb_refl. cbn [negb].
  rewrite (receipt_sign_accepted _ _ _ Ha), (receipt_reopens _ _ _ _ Hbound Ha). by destruct fault.
Qed.

End Record.
