(* ===== verification/SafetySpec.v ===== *)
(** * Installation safety: theorems

    What the restore values, the journal, its supervisor and the durable witness promise,
    proved from the lemmas of the component files, with an instance of each theorem at a
    concrete installation that restores and activates a second database generation. *)

From Stdlib Require Import ZArith Lia String Strings.Byte.
From stdpp Require Import base option numbers relations list.
From S2P Require Import Prelude BTree Codec Crypto BackupArchive BackupArchiveProps.
From S2P Require Import BackupArchiveSpec RestoreCutover RestoreCutoverProps InstallationSafety.
From S2P Require Import InstallationSafetyProps WitnessChain Supervisor WitnessFile.
From S2P Require Import WitnessFileProps.

(** ** A concrete installation *)

Module SafetyExample.
Import Toy ArchiveExample.
Local Open Scope Z_scope.

Definition jk : KeyPair := (3 : Z).
Definition wk : KeyPair := (4 : Z).
Definition binding : SafetyBootstrapBinding := mkBinding 1 2 d0 (public_key jk) (public_key wk).

Definition signed (h : WitnessHead) (k : SafetyEventKind) (g ep : Z) (w : WitnessStateV1) : SignedJournalEntry :=
  entry_sign jk (next_body h 21 k g ep w).

Definition step (h : WitnessHead) (k : SafetyEventKind) (g ep : Z) (w : WitnessStateV1) : WitnessHead :=
  next_head h (signed h k g ep w).

Definition attempt : RestoreAttemptProgress := mkProgress 31 32 5 9 7 8 None None.
Definition freeze : SourceFreezePoint := mkFreeze 7 1 100 5.
Definition plan : TargetActivationPlan := mkPlan 31 32 5 7 8 freeze d1.
Definition terminal : RestoreTerminalReceipt := mkTerminal 31 32 (TargetInitializationComplete d1).

Definition get (r : result InstallationSafetyError WitnessStateV1) (w : WitnessStateV1) : WitnessStateV1 :=
  match r with Ok w' => w' | Err _ => w end.

Definition h0 : WitnessHead := head_of_genesis 1 2 d0 7 (public_key jk).
Definition w1 : WitnessStateV1 := with_backup_archive_state (wh_state h0) started.
Definition e1 : SignedJournalEntry := signed h0 BackupSetStarted 7 0 w1.
Definition h1 : WitnessHead := next_head h0 e1.
Definition h2 : WitnessHead :=
  step h1 RestoreAttemptPrepared 7 0 (get (with_restore_attempt_progress (wh_state h1) attempt) (wh_state h1)).
Definition h3 : WitnessHead :=
  step h2 SourceFreezeRecorded 7 0 (get (with_source_freeze (wh_state h2) freeze) (wh_state h2)).
Definition h4 : WitnessHead :=
  step h3 TargetActivationPlanned 7 0 (get (with_target_activation_plan (wh_state h3) plan) (wh_state h3)).
Definition h5 : WitnessHead :=
  step h4 RestoreTerminalRecorded 7 0 (get (with_restore_terminal_receipt (wh_state h4) terminal) (wh_state h4)).
Definition h6 : WitnessHead :=
  step h5 TargetActivating 7 0 (get (with_target_activation_started (wh_state h5)) (wh_state h5)).
Definition e7 : SignedJournalEntry :=
  signed h6 GenerationRegistered 8 1 (get (register_generation (wh_state h6) 8) (wh_state h6)).
Definition h7 : WitnessHead := next_head h6 e7.

Lemma attempt_ok : attempt_reachable attempt.
Proof. apply (attempt_prepared 31 32 5 9 7 8); [by repeat constructor|by vm_compute]. Qed.

Lemma h0_reachable : supervisor_reachable jk h0.
Proof. by apply supervisor_genesis. Qed.

Lemma e1_supervised : supervised h0 BackupSetStarted 7 0 w1.
Proof. 
  apply (sup_archive h0 BackupSetStarted OpStart 5); [done|by apply (step_start _ 5 6 7 (head_genesis d0))|].
  repeat constructor.
Qed.

Lemma h1_reachable : supervisor_reachable jk h1.
Proof. apply (supervisor_next jk h0 21); [apply h0_reachable|done|apply e1_supervised|done]. Qed.

Lemma h4_reachable : supervisor_reachable jk h4.
Proof.
  apply (supervisor_next jk h3 21); [|done| |done].
  - apply (supervisor_next jk h2 21); [|done| |done].
    + apply (supervisor_next jk h1 21); [apply h1_reachable|done| |done].
      apply (sup_prepare h1 attempt); [apply attempt_ok|by vm_compute].
    + apply (sup_freeze h2 freeze); [by constructor|by vm_compute].
  - apply (sup_plan h3 plan); [|by vm_compute]. constructor; try done. by repeat constructor.
Qed.

Lemma h6_reachable : supervisor_reachable jk h6.
Proof.
  apply (supervisor_next jk h5 21); [|done| |done].
  - apply (supervisor_next jk h4 21); [apply h4_reachable|done| |done].
    apply (sup_terminal h4 terminal); [done|by vm_compute].
  - apply (sup_activating h5). by vm_compute.
Qed.

Definition witness0 : FileInstallationSafetyWitness := mkFileWitness binding wk h0.
Definition record0 : option bytes := encode_record (mkStored binding (Some 7) None).

Lemma witness0_running : witness_running witness0.
Proof. constructor; [|by constructor]. constructor; simpl; by repeat constructor. Qed.

Lemma e1_accepted : accepted h0 e1.
Proof.
  apply supervised_accepted_raw; [|apply e1_supervised|done|done].
  apply (supervisor_reachable_inv jk h0 h0_reachable).
Qed.

Lemma e1_wf : body_wf (entry_body e1).
Proof.
  destruct (supervisor_reachable_inv jk h0 h0_reachable).
  eapply next_body_wf; [done|done|done|apply e1_supervised|done].
Qed.

End SafetyExample.

Section Claims.
Context {SHA : Sha256} {SHA_ok : Sha256Ok} {ED : Ed25519} {ED_ok : Ed25519Ok}.

(** ** Restore values *)

(** Accepted restore roots are absolute paths without [.] or [..] segments, and no path lies under both of
    them: the target tree never overlaps the source tree lexically. *)
Theorem restore_roots_disjoint (source target : PathBuf) (r : RestoreTargetRoots) :
  roots_new source target = Ok r ->
  normalized_absolute (source_root r) /\ normalized_absolute (target_root r) /\
  forall q, path_starts_with q (source_root r) = true -> path_starts_with q (target_root r) = false.
Proof.
  unfold roots_new. intros H. split_match_in H. bool_hyps. split_match_in H. bool_hyps. simplify_eq. simpl.
  split; [by apply lexical_normalize_absolute|]. split; [by apply lexical_normalize_absolute|].
  intros q [x Hx]%path_starts_with_spec. apply not_true_iff_false. intros [y Hy]%path_starts_with_spec.
  rewrite Hx in Hy. apply app_eq_app in Hy as [z [[Hz _]|[Hz _]]].
  - assert (path_starts_with (lexical_normalize source) (lexical_normalize target) = true); [|congruence].
    apply path_starts_with_spec. by exists z.
  - assert (path_starts_with (lexical_normalize target) (lexical_normalize source) = true); [|congruence].
    apply path_starts_with_spec. by exists z.
Qed.

(** The decoder of a restore attempt accepts only attempts that were prepared, then frozen on their source
    generation, then ended by a receipt of their own, in that order; re-encoding such an attempt and decoding it
    again gives it back. *)
Theorem restore_attempt_decode_sound (b : bytes) (p : RestoreAttemptProgress) :
  progress_from_canonical_bytes b = Ok p ->
  attempt_reachable p /\
  (is_some (rp_terminal_receipt p) = true -> is_some (rp_source_freeze p) = true) /\
  ((len (progress_canonical_bytes p) <= usize_max)%Z ->
    progress_from_canonical_bytes (progress_canonical_bytes p) = Ok p).
Proof.
  intros Hp%progress_from_sound. split_and!; [done|apply attempt_reachable_wf; done|by apply progress_roundtrip].
Qed.

(** ** The supervisor *)



(** At every head a supervised installation reaches: the lineage bytes are the registered generations in
    order, ending in the active one, one more than the activation epoch; a pinned plan belongs to the recorded
    attempt and its freeze point; an activation marker is the digest of the pinned plan, whose target was
    initialised; and the whole state survives encoding. *)
Theorem supervised_state_invariant (jk : KeyPair) (h : WitnessHead) :
  supervisor_reachable jk h ->
  let w := wh_state h in
  (exists gens, generation_lineage_state w = generations_bytes gens /\
     last gens = Some (wh_active_generation_id h) /\ Z.of_nat (length gens) = (wh_activation_epoch h + 1)%Z) /\
  (forall plan, target_activation_plan w = Some plan ->
     exists p, restore_attempt_progress w = Some p /\ plan_of_attempt plan p) /\
  (forall d, target_activation_started w = Some d ->
     exists plan r, target_activation_plan w = Some plan /\ d = plan_digest plan /\
       restore_terminal_receipt w = Some r /\ initialised_for plan r) /\
  ((len (witness_canonical_bytes w) <= usize_max)%Z ->
     witness_from_canonical_bytes (witness_canonical_bytes w) = Ok w).
Proof.
  intros Hr. apply supervisor_reachable_inv in Hr as [_ Hi]. pose proof Hi as [Hst (gens & Hg)]. cbv zeta.
  split; [exists gens; split_and!; apply Hg|]. split; [apply Hst|]. split; [apply Hst|].
  apply witness_roundtrip. by apply head_inv_wf.
Qed.

(** ** Any accepted journal *)

(** Along any journal of accepted entries, whoever signed them: each entry carries the digest of the one
    before and the next sequence number, verifies under the pinned journal key, the identity never changes, the
    activation epoch counts the registrations, and without one the active generation stays. *)
Theorem accepted_journal_is_chain (h h' : WitnessHead) (l : list SignedJournalEntry) :
  journal h l h' ->
  hash_linked (wh_chain_digest h) (wh_sequence h) l /\
  wh_sequence h' = (wh_sequence h + Z.of_nat (length l))%Z /\
  wh_chain_digest h' = last_digest (wh_chain_digest h) l /\
  same_installation h h' /\
  Forall (fun e => entry_verify e = Ok tt /\ je_signer_public_key e = wh_journal_public_key h) l /\
  wh_activation_epoch h' = (wh_activation_epoch h + Z.of_nat (registrations l))%Z /\
  (registrations l = 0 -> wh_active_generation_id h' = wh_active_generation_id h).
Proof.
  intros Hj. destruct (journal_linked _ _ _ Hj) as (? & ? & ?). destruct (journal_epoch _ _ _ Hj).
  split_and!; try done; [by eapply journal_identity|by eapply journal_signed].
Qed.

(** C16.  No accepted journal loses what the archive protects: every backup set stays, with its identity, all its
    checkpoints and every restore hold exactly as it was. *)
Theorem accepted_journal_keeps_archive (h h' : WitnessHead) (l : list SignedJournalEntry) (set : BackupSetId)
    (s : BackupSetState) :
  witness_wf (wh_state h) -> journal h l h' -> get_set (backup_archive_state (wh_state h)) set = Ok s ->
  exists s', get_set (backup_archive_state (wh_state h')) set = Ok s' /\ set_kept s s'.
Proof.
  intros Hw Hj Hg%get_set_Ok. destruct (journal_keeps _ _ _ _ _ Hw Hj Hg) as (s' & Hg' & Hk).
  exists s'. split; [by apply get_set_Ok|done].
Qed.

(** A generation is registered over a pinned activation plan only if the target of that plan reported its
    initialisation, the activation of exactly that plan was started, and the generation is the plan's target; and
    never while an attempt is frozen with neither plan nor terminal receipt. *)
Theorem registration_is_planned_activation (h : WitnessHead) (e : SignedJournalEntry) (a : WitnessAdvance) :
  accept_signed h e = Ok a -> ts_event_kind (entry_body e) = GenerationRegistered ->
  match target_activation_plan (wh_state h) with
  | Some plan =>
      ts_generation_id (entry_body e) = tp_target_generation_id plan /\
      target_activation_started (wh_state h) = Some (plan_digest plan) /\
      exists r, restore_terminal_receipt (wh_state h) = Some r /\ initialised_for plan r
  | None =>
      forall p, restore_attempt_progress (wh_state h) = Some p ->
        is_some (rp_source_freeze p) = true -> is_some (rp_terminal_receipt p) = true
  end.
Proof.
  intros [Ha _]%accept_signed_Ok Hk. pose proof (acc_event _ _ Ha) as He. unfold event_accepted in He. rewrite Hk in He.
  unfold accept_generation in He. cbv zeta in He. split_match_in He. apply bind_Ok in He as (n & _ & He).
  split_match_in He. apply bind_Ok in He as (r & _ & He). split_match_in He.
  destruct (target_activation_plan (wh_state h)) as [plan|].
  - rewrite andb_false_r in He. split_match_in He. unfold activation_not_ready in *. bool_hyps.
    split_and!; try done. destruct (restore_terminal_receipt (wh_state h)) as [t|]; [|done]. bool_hyps.
    exists t. by repeat split.
  - rewrite andb_true_r in He. intros p Hp Hf. rewrite Hp, Hf in He. simpl in He.
    split_match_in He. unfold is_none in *. by bool_hyps.
Qed.

(** An activation plan is used once: when its target is the active generation, no further registration is
    accepted over it. *)
Theorem activated_plan_is_final (h : WitnessHead) (e : SignedJournalEntry) (plan : TargetActivationPlan) :
  target_activation_plan (wh_state h) = Some plan -> wh_active_generation_id h = tp_target_generation_id plan ->
  ts_event_kind (entry_body e) = GenerationRegistered -> is_ok (accept_signed h e) = false.
Proof.
  intros Hp Ht Hk. destruct (accept_signed h e) as [a|] eqn:Ha; [|done]. exfalso.
  apply accept_signed_Ok in Ha as [Ha _]. pose proof (accepted_generation _ _ Ha) as Hg. cbv zeta in Hg.
  rewrite Hk, eqb_refl in Hg. destruct Hg as [Hne _].
  pose proof (acc_event _ _ Ha) as He. unfold event_accepted in He. rewrite Hk in He.
  unfold accept_generation in He. cbv zeta in He. split_match_in He. apply bind_Ok in He as (n & _ & He).
  split_match_in He. apply bind_Ok in He as (r & _ & He). split_match_in He. rewrite Hp in He.
  rewrite andb_false_r in He. split_match_in He. unfold activation_not_ready in *. bool_hyps. congruence.
Qed.

(** An archive event constrains only the archive: whatever lineage, plan, attempt and activation marker the
    signed state carries is accepted along with a valid archive successor, so such an entry can rewrite or
    truncate the ancestry. *)
Theorem archive_event_leaves_rest_unchecked (jk : KeyPair) (h : WitnessHead) (k : SafetyEventKind) (op : ArchiveOp)
    (a : BackupArchiveStateV1) (lineage : bytes) (plan : option TargetActivationPlan)
    (progress : option RestoreAttemptProgress) (started : option Digest) (rid : RequestId) :
  public_key jk = wh_journal_public_key h -> (wh_sequence h < u64_max)%Z ->
  archive_op_of k = Some op -> witness_predicate op a (backup_archive_state (wh_state h)) = true ->
  let e := entry_sign jk (next_body h rid k (wh_active_generation_id h) (wh_activation_epoch h)
             (mkWitness lineage a plan progress started)) in
  accept_signed h e = Ok (advance_of e).
Proof.
  intros Hk Hm Hop Hp. cbv zeta. apply accept_signed_Ok. split; [|done].
  constructor; try done; [apply entry_sign_verifies|simpl; lia|].
  apply (archive_op_event_accepted _ _ op); [done|by apply generation_same_not_moved|done].
Qed.

(** ** The durable witness *)

(** Whatever happens to a compare-and-advance with an accepted entry (success, a failure before the rename, a
    failed directory sync after it), restarting reads back either the head before or the head after, and after a
    success exactly the head in memory. *)
Theorem witness_restart_consistent (fault : ReplaceFault) (w : FileInstallationSafetyWitness) (file : option bytes)
    (e : SignedJournalEntry) :
  witness_running w -> coherent w file -> accepted (fw_head w) e -> body_wf (entry_body e) ->
  fits_cbor (receipt_canonical_bytes (receipt_of (fw_signing_key w) (fw_head w) e)) ->
  let '(outcome, w', file') := file_compare_and_advance fault (fw_head w) (advance_of e) w file in
  (coherent w file' \/ coherent (after w e) file') /\
  (is_ok outcome = true -> w' = after w e /\ coherent w' file').
Proof.
  intros Hr Hc Ha Hb Hf. rewrite (file_compare_and_advance_accepted fault w file e Hr Ha).
  pose proof (reopen_after w e _ Hr Ha Hb Hf eq_refl) as Hn. destruct fault; simpl; (split; [by auto|done]).
Qed.

(** One open witness among others: calls through it, with any outcome of their I/O, and whatever other processes, with
    witnesses of their own on the same directory, make of the record file. *)
Inductive witness_use : FileInstallationSafetyWitness * option bytes -> FileInstallationSafetyWitness * option bytes -> Prop :=
| use_call fault expected next w file o w' file' :
    file_compare_and_advance fault expected next w file = (o, w', file') -> witness_use (w, file) (w', file')
| use_file w file file' : witness_use (w, file) (w, file').

(** A call leaves the witness and answers an error, or moves it on by one and answers a receipt of that sequence. *)
Lemma file_compare_and_advance_sequence fault expected next w file o w' file' :
  file_compare_and_advance fault expected next w file = (o, w', file') ->
  match o with
  | Err _ => w' = w
  | Ok r => expected = fw_head w /\ wr_sequence r = (wh_sequence (fw_head w) + 1)%Z /\ wh_sequence (fw_head w') = wr_sequence r
  end.
Proof.
  unfold file_compare_and_advance. destruct (fw_head w !== expected) eqn:E; [by intros [= <- <- _]|].
  apply negb_false_iff in E. rewrite eqb_true in E.
  destruct (receipt_sign _ _ next) as [r|] eqn:Es; [|by intros [= <- <- _]].
  destruct (from_durable_receipt (fw_binding w) r) as [h|] eqn:Ed; [|by intros [= <- <- _]].
  destruct (replace_record fault w r file) as [[[]|] f]; [|by intros [= <- <- _]]. intros [= <- <- _].
  unfold receipt_sign in Es. apply bind_Ok in Es as (n & Hn%ok_or_Ok & Es). apply checked_add_Some in Hn as [-> _].
  destruct (negb _) eqn:Eq; [done|]. apply negb_false_iff, Z.eqb_eq in Eq. injection Es as <-.
  unfold from_durable_receipt in Ed. apply bind_Ok in Ed as ([] & _ & Ed). destruct (_ || _); [done|]. injection Ed as <-. done.
Qed.

Lemma witness_use_sequence s s' : rtc witness_use s s' -> (wh_sequence (fw_head s.1) <= wh_sequence (fw_head s'.1))%Z.
Proof.
  induction 1 as [s|s s1 s2 Hst _ IH]; [lia|]. etrans; [|exact IH]. destruct Hst as [fault expected next w file o w' file' Hc|]; [|simpl; lia].
  apply file_compare_and_advance_sequence in Hc. destruct o as [r|]; [|by subst]. simpl. lia.
Qed.

(** C13.  Of the clients of one open witness that read the same head only one can advance it: once a call from that head
    was answered with a receipt, then through this witness, whatever calls are made and whatever other processes make
    of the record file in between, every further call from the same head gets [Conflict] and changes nothing, and
    every later receipt has a higher sequence.  (A process with a witness of its own is not held back:
    [two_witnesses_fork].) *)
Theorem witness_single_winner (w w1 w2 : FileInstallationSafetyWitness) (file file1 file2 : option bytes)
    (fault : ReplaceFault) (next : WitnessAdvance) (r : WitnessReceipt) :
  file_compare_and_advance fault (fw_head w) next w file = (Ok r, w1, file1) -> rtc witness_use (w1, file1) (w2, file2) ->
  wr_sequence r = (wh_sequence (fw_head w) + 1)%Z /\
  (forall fault' other, file_compare_and_advance fault' (fw_head w) other w2 file2 = (Err Conflict, w2, file2)) /\
  forall fault' expected other r' w3 file3,
    file_compare_and_advance fault' expected other w2 file2 = (Ok r', w3, file3) -> (wr_sequence r < wr_sequence r')%Z.
Proof.
  intros (_ & Hr & Hw1)%file_compare_and_advance_sequence Hu%witness_use_sequence. simpl in Hu. split; [done|]. split.
  - intros fault' other. unfold file_compare_and_advance. rewrite (proj2 (eqb_false _ _)); [done|].
    intros Heq. rewrite Heq in Hu. lia.
  - intros fault' expected other r' w3 file3 (_ & Hr' & _)%file_compare_and_advance_sequence. lia.
Qed.

(** Two witnesses opened on the same record, as two commands that run at once open them, both advance the same head: each
    issues a receipt of the same sequence, for different entries, and the record keeps only the second. *)
Theorem two_witnesses_fork (w : FileInstallationSafetyWitness) (file : option bytes) (e e' : SignedJournalEntry) :
  witness_open (Some (fw_signing_key w)) file = Ok w ->
  witness_running w -> accepted (fw_head w) e -> accepted (fw_head w) e' -> body_wf (entry_body e') ->
  fits_cbor (receipt_canonical_bytes (receipt_of (fw_signing_key w) (fw_head w) e')) ->
  let '(first, w1, file1) := file_compare_and_advance ReplaceDone (fw_head w) (advance_of e) w file in
  let '(second, w2, file2) := file_compare_and_advance ReplaceDone (fw_head w) (advance_of e') w file1 in
  first = Ok (receipt_of (fw_signing_key w) (fw_head w) e) /\ second = Ok (receipt_of (fw_signing_key w) (fw_head w) e') /\
  wr_sequence (receipt_of (fw_signing_key w) (fw_head w) e) = wr_sequence (receipt_of (fw_signing_key w) (fw_head w) e') /\
  witness_open (Some (fw_signing_key w)) file2 = Ok (after w e').
Proof.
  intros _ Hr Ha Ha' Hb Hf. rewrite (file_compare_and_advance_accepted ReplaceDone w file e Hr Ha). cbv zeta.
  rewrite (file_compare_and_advance_accepted ReplaceDone w _ e' Hr Ha'). split_and!; [done..| |].
  - simpl. by rewrite (acc_sequence _ _ Ha), (acc_sequence _ _ Ha').
  - exact (reopen_after w e' _ Hr Ha' Hb Hf eq_refl).
Qed.

(** A failed directory sync leaves the head in memory behind the record: the receipt on disk is readable, and yet
    another entry for the same sequence is then signed and replaces it. *)
Theorem directory_sync_failure_forks (w : FileInstallationSafetyWitness) (file : option bytes)
    (e e' : SignedJournalEntry) :
  witness_running w -> accepted (fw_head w) e -> accepted (fw_head w) e' -> body_wf (entry_body e) ->
  fits_cbor (receipt_canonical_bytes (receipt_of (fw_signing_key w) (fw_head w) e)) ->
  let '(outcome, w1, file1) := file_compare_and_advance DirectorySyncFails (fw_head w) (advance_of e) w file in
  let '(outcome', w2, file2) := file_compare_and_advance ReplaceDone (fw_head w1) (advance_of e') w1 file1 in
  outcome = Err Unavailable /\
  durable_receipt w1 file1 = Ok (receipt_of (fw_signing_key w) (fw_head w) e) /\
  outcome' = Ok (receipt_of (fw_signing_key w) (fw_head w) e').
Proof.
  intros Hr Ha Ha' Hb Hf. rewrite (file_compare_and_advance_accepted DirectorySyncFails w file e Hr Ha).
  cbv zeta. rewrite (file_compare_and_advance_accepted ReplaceDone w _ e' Hr Ha'). split_and!; try done.
  pose proof (receipt_of_storable _ _ Hr Ha Hb Hf) as Hst. unfold durable_receipt.
  destruct (encode_record _) as [b|] eqn:He; [|done]. cbn [ok_or mbind result_bind].
  rewrite (record_receipt_roundtrip _ _ _ (wn_binding _ Hr) Hst He). cbn [mbind result_bind sw_binding sw_receipt].
  by rewrite eqb_refl.
Qed.

(** ** Enrolment *)

(** The first completed enrolment is final: whatever fault a later call meets, the record file keeps its
    bytes, and a call succeeds only with the enrolled binding. *)
Theorem enrolment_is_final (fault fault' : IoFault) (first later : SafetyBootstrapBinding)
    (before file : option bytes) (d : Digest) :
  binding_wf first -> binding_wf later -> open_or_create fault first before = (Ok d, file) ->
  let '(outcome, file') := open_or_create fault' later file in
  file' = file /\ (is_ok outcome = true -> later = first) /\
  (fault' = NoFault -> later <> first -> outcome = Err BindingMismatch).
Proof.
  intros Hf Hl Hfirst. assert (file = Some (binding_canonical_bytes first)) as ->.
  { unfold open_or_create in Hfirst. destruct fault, before as [c|]; simplify_eq/=; try done;
      split_match_in Hfirst; bool_hyps; by simplify_eq. }
  assert (binding_canonical_bytes first = binding_canonical_bytes later -> later = first) as Hinj.
  { intros E. apply binding_roundtrip in Hf, Hl. rewrite E in Hf. congruence. }
  destruct (eqb (binding_canonical_bytes first) (binding_canonical_bytes later)) eqn:E.
  - rewrite (Hinj (proj1 (eqb_true _ _) E)). unfold open_or_create. destruct fault'; rewrite ?eqb_refl; simpl; done.
  - unfold open_or_create. destruct fault'; rewrite ?E; simpl; done.
Qed.

(** A write that was cut short is never repaired: the binding it was enrolling is refused ever after. *)
Theorem partial_enrolment_is_stuck (binding : SafetyBootstrapBinding) (n : nat) :
  n < length (binding_canonical_bytes binding) ->
  let '(_, file) := open_or_create (WriteFails n) binding None in
  open_or_create NoFault binding file = (Err BindingMismatch, file).
Proof.
  intros Hn. simpl. rewrite (proj2 (eqb_false _ _)); [done|].
  intros H%(f_equal length). rewrite length_take in H. lia.
Qed.

End Claims.

(** ** The theorems at the concrete installation *)

Section Instances.
Import Toy ArchiveExample SafetyExample.
Local Open Scope Z_scope.

Lemma restore_roots_disjoint_at_data :
  path_starts_with [RootDir; Normal [x61]; Normal [x64]] [RootDir; Normal [x62]] = false.
Proof.
  pose proof (restore_roots_disjoint [RootDir; Normal [x61]] [RootDir; Normal [x63]; ParentDir; CurDir; Normal [x62]]
    (mkRoots [RootDir; Normal [x61]] [RootDir; Normal [x62]]) eq_refl) as H.
  exact (proj2 (proj2 H) [RootDir; Normal [x61]; Normal [x64]] eq_refl).
Defined.

Lemma restore_attempt_decode_sound_at_attempt : attempt_reachable attempt.
Proof.
  refine (proj1 (restore_attempt_decode_sound (progress_canonical_bytes attempt) attempt _)). by vm_compute.
Defined.




Lemma supervised_state_invariant_at_planned :
  exists p, restore_attempt_progress (wh_state h4) = Some p /\ plan_of_attempt plan p.
Proof.
  refine (proj1 (proj2 (supervised_state_invariant jk h4 h4_reachable)) plan _). by vm_compute.
Defined.

Lemma accepted_journal_is_chain_at_start :
  hash_linked (wh_chain_digest h0) (wh_sequence h0) [e1] /\ wh_sequence h1 = 1.
Proof.
  pose proof (accepted_journal_is_chain h0 h1 [e1]
    (journal_snoc h0 [] h0 e1 (journal_nil h0) e1_accepted e1_wf)) as H.
  exact (conj (proj1 H) (proj1 (proj2 H))).
Defined.

(** The head after the first entry, with its archive, and the attempt prepared on it. *)
Definition w2 : WitnessStateV1 := get (with_restore_attempt_progress (wh_state h1) attempt) (wh_state h1).
Definition e2 : SignedJournalEntry := signed h1 RestoreAttemptPrepared 7 0 w2.

Lemma e2_supervised : supervised h1 RestoreAttemptPrepared 7 0 w2.
Proof. apply (sup_prepare h1 attempt); [apply attempt_ok|by vm_compute]. Qed.

Lemma e2_journal : journal h1 [e2] h2.
Proof.
  destruct (supervisor_reachable_inv jk h1 h1_reachable) as [Hw Hi].
  apply (journal_snoc h1 [] h1 e2); [apply journal_nil| |].
  - apply supervised_accepted_raw; [done|apply e2_supervised|done|done].
  - eapply next_body_wf; [done|done|done|apply e2_supervised|done].
Qed.

Lemma accepted_journal_keeps_archive_at_attempt :
  exists s', get_set (backup_archive_state (wh_state h2)) 5 = Ok s' /\ set_kept (set5 started) s'.
Proof.
  apply (accepted_journal_keeps_archive h1 h2 [e2] 5 (set5 started));
    [apply head_inv_wf, (supervisor_reachable_inv jk h1 h1_reachable)|apply e2_journal|by vm_compute].
Defined.

Lemma registration_is_planned_activation_at_target :
  ts_generation_id (entry_body e7) = 8 /\
  target_activation_started (wh_state h6) = Some (plan_digest plan) /\
  exists r, restore_terminal_receipt (wh_state h6) = Some r /\ initialised_for plan r.
Proof.
  refine (registration_is_planned_activation h6 e7 (advance_of e7) _ _); [|done]. by vm_compute.
Defined.

Lemma activated_plan_is_final_at_target :
  is_ok (accept_signed h7 (signed h7 GenerationRegistered 9 2 (wh_state h7))) = false.
Proof.
  apply (activated_plan_is_final h7 (signed h7 GenerationRegistered 9 2 (wh_state h7)) plan);
    [by vm_compute|by vm_compute|done].
Defined.

(** The first archive entry, signed with an empty lineage. *)
Definition e1_rootless : SignedJournalEntry :=
  entry_sign jk (next_body h0 21 BackupSetStarted (wh_active_generation_id h0) (wh_activation_epoch h0)
    (mkWitness [] started None None None)).

Lemma archive_event_leaves_rest_unchecked_at_start : accept_signed h0 e1_rootless = Ok (advance_of e1_rootless).
Proof.
  assert (witness_predicate OpStart started (backup_archive_state (wh_state h0)) = true) as Hp by (by vm_compute).
  exact (archive_event_leaves_rest_unchecked jk h0 BackupSetStarted OpStart started [] None None None 21
    eq_refl eq_refl eq_refl Hp).
Defined.

Lemma witness_restart_consistent_at_start :
  let '(outcome, w', file') := file_compare_and_advance ReplaceDone (fw_head witness0) (advance_of e1) witness0 record0 in
  (coherent witness0 file' \/ coherent (after witness0 e1) file') /\
  (is_ok outcome = true -> w' = after witness0 e1 /\ coherent w' file').
Proof.
  assert (coherent witness0 record0) as Hc
    by (by apply (genesis_coherent binding wk 7 (wn_binding _ witness0_running))).
  assert (fits_cbor (receipt_canonical_bytes (receipt_of wk (fw_head witness0) e1))) as Hf by (by vm_compute).
  exact (witness_restart_consistent ReplaceDone witness0 record0 e1 witness0_running Hc e1_accepted e1_wf Hf).
Defined.

(** The record after the first entry. *)
Definition record1 : option bytes :=
  encode_record (mkStored (fw_binding witness0) None (Some (receipt_of (fw_signing_key witness0) (fw_head witness0) e1))).

(** After the first advance another process removes the record. *)
Lemma witness_single_winner_at_start :
  wr_sequence (receipt_of (fw_signing_key witness0) (fw_head witness0) e1) = 1 /\
  file_compare_and_advance ReplaceDone (fw_head witness0) (advance_of e1) (after witness0 e1) None =
  (Err Conflict, after witness0 e1, None).
Proof.
  destruct (witness_single_winner witness0 (after witness0 e1) (after witness0 e1) record0 record1 None ReplaceDone (advance_of e1)
    (receipt_of (fw_signing_key witness0) (fw_head witness0) e1)
    (file_compare_and_advance_accepted ReplaceDone witness0 record0 e1 witness0_running e1_accepted)
    (rtc_once _ _ (use_file (after witness0 e1) record1 None))) as (H1 & H2 & _).
  split; [exact H1|exact (H2 ReplaceDone (advance_of e1))].
Defined.

(** Two commands open the first record: both enter a backup set, under different entry identifiers. *)
Definition e1_again : SignedJournalEntry :=
  entry_sign jk (next_body h0 22 BackupSetStarted 7 0 w1).

Lemma e1_again_wf : body_wf (entry_body e1_again).
Proof.
  destruct (supervisor_reachable_inv jk h0 h0_reachable).
  eapply (next_body_wf jk h0 22); [done|done|done|apply e1_supervised|done].
Qed.

Lemma two_witnesses_fork_at_start :
  let '(first, _, file1) := file_compare_and_advance ReplaceDone (fw_head witness0) (advance_of e1) witness0 record0 in
  let '(second, _, file2) := file_compare_and_advance ReplaceDone (fw_head witness0) (advance_of e1_again) witness0 file1 in
  is_ok first = true /\ is_ok second = true /\ e1 <> e1_again.
Proof.
  assert (coherent witness0 record0) as Hc by (by apply (genesis_coherent binding wk 7 (wn_binding _ witness0_running))).
  assert (accepted (fw_head witness0) e1_again) as Ha
    by (apply (supervised_accepted_raw h0 jk 22); [apply (supervisor_reachable_inv jk h0 h0_reachable)|exact e1_supervised|done|done]).
  pose proof (two_witnesses_fork witness0 record0 e1 e1_again Hc witness0_running e1_accepted Ha) as H.
  destruct (file_compare_and_advance ReplaceDone (fw_head witness0) (advance_of e1) witness0 record0) as [[first wa] file1].
  destruct (file_compare_and_advance ReplaceDone (fw_head witness0) (advance_of e1_again) witness0 file1) as [[second wb] file2].
  destruct H as (-> & -> & _); [|by vm_compute|split; [done|split; [done|]]].
  - exact e1_again_wf.
  - intros [=].
Defined.

Lemma enrolment_is_final_at_binding :
  open_or_create NoFault (mkBinding 1 3 d0 (public_key jk) (public_key wk)) (Some (binding_canonical_bytes binding))
  = (Err BindingMismatch, Some (binding_canonical_bytes binding)).
Proof.
  pose proof (enrolment_is_final NoFault NoFault binding (mkBinding 1 3 d0 (public_key jk) (public_key wk)) None
    (Some (binding_canonical_bytes binding)) (digest_of (binding_canonical_bytes binding))) as H.
  destruct (open_or_create NoFault (mkBinding 1 3 d0 (public_key jk) (public_key wk)) _) as [o f].
  destruct H as (-> & _ & H); [apply (wn_binding _ witness0_running)| |done|].
  - constructor; simpl; by repeat constructor.
  - by rewrite H.
Defined.

End Instances.
