(* ===== verification/Text.v ===== *)
(** * Text

    Rust strings as the run engine uses them: a [String] is the list of its Unicode scalar
    values; [len] counts UTF-8 bytes and [trim] removes leading and trailing characters with
    the White_Space property. *)

From Stdlib Require Import ZArith Lia String Ascii.
From stdpp Require Import base option numbers strings pretty sets list.
From S2P Require Import Prelude.

Definition text : Type := list Z.

#[export] Instance text_eq_dec : EqDecision text.
Proof. unfold text. solve_decision. Defined.

(** A text written as an ASCII literal. *)
Definition text_of (s : string) : text :=
  map (fun c => Z.of_N (Ascii.N_of_ascii c)) (list_ascii_of_string s).

(** [char::is_whitespace]. *)
Definition is_whitespace (c : Z) : bool :=
  ((9 <=? c) && (c <=? 13) || (c =? 32) || (c =? 133) || (c =? 160) || (c =? 5760)
   || (8192 <=? c) && (c <=? 8202) || (c =? 8232) || (c =? 8233) || (c =? 8239)
   || (c =? 8287) || (c =? 12288))%Z.

Fixpoint trim_start (t : text) : text :=
  match t with
  | [] => []
  | c :: t' => if is_whitespace c then trim_start t' else t
  end.

Definition trim (t : text) : text := reverse (trim_start (reverse (trim_start t))).

(** Bytes of one scalar value in UTF-8. *)
Definition utf8_len_char (c : Z) : Z :=
  if (c <? 128)%Z then 1 else if (c <? 2048)%Z then 2 else if (c <? 65536)%Z then 3 else 4.

Definition utf8_len (t : text) : Z := fold_right (fun c n => (utf8_len_char c + n)%Z) 0%Z t.

Definition is_empty (t : text) : bool := match t with [] => true | _ => false end.

(** ** Trimming *)

(** No whitespace at either end. *)
Definition trimmed (t : text) : Prop :=
  (forall c, t !! 0 = Some c -> is_whitespace c = false) /\
  (forall c, last t = Some c -> is_whitespace c = false).

Lemma trim_start_head t c : trim_start t !! 0 = Some c -> is_whitespace c = false.
Proof.
  induction t as [|d t IH]; simpl; [done|]. destruct (is_whitespace d) eqn:E; [done|]. by intros [= <-].
Qed.

Lemma trim_start_suffix t : exists p, t = p ++ trim_start t /\ Forall (fun c => is_whitespace c = true) p.
Proof.
  induction t as [|d t (p & Ht & Hp)]; simpl; [by exists []|].
  destruct (is_whitespace d) eqn:E; [|by exists []]. exists (d :: p). split; [simpl; congruence|by constructor].
Qed.

Lemma trim_start_fixed t : (forall c, t !! 0 = Some c -> is_whitespace c = false) -> trim_start t = t.
Proof. destruct t as [|d t]; simpl; [done|]. intros H. by rewrite (H d eq_refl). Qed.

Lemma trim_trimmed t : trimmed (trim t).
Proof.
  unfold trim. set (u := trim_start t). split.
  - intros c Hc. destruct (trim_start_suffix (reverse u)) as (p & Hr & _).
    apply (f_equal reverse) in Hr. rewrite reverse_involutive, reverse_app in Hr.
    apply (trim_start_head t). fold u. apply (lookup_app_l_Some _ (reverse p)) in Hc. by rewrite <-Hr in Hc.
  - intros c Hc. rewrite last_reverse in Hc. apply (trim_start_head (reverse u)).
    by destruct (trim_start (reverse u)).
Qed.

Lemma trimmed_fixed t : trimmed t -> trim t = t.
Proof.
  intros [Hs He]. unfold trim. rewrite (trim_start_fixed t) by done.
  rewrite trim_start_fixed; [apply reverse_involutive|].
  intros c Hc. apply He. rewrite <-(reverse_involutive t), last_reverse. by destruct (reverse t).
Qed.

Lemma trim_idempotent t : trim (trim t) = trim t.
Proof. apply trimmed_fixed, trim_trimmed. Qed.

(** ** Decimal numbers and separators *)

Lemma text_of_inj s s' : text_of s = text_of s' -> s = s'.
Proof.
  revert s'. induction s as [|c s IH]; intros [|c' s'] H; try done. injection H as Hc H. f_equal; [|by apply IH].
  apply N2Z.inj in Hc. by rewrite <-(ascii_N_embedding c), <-(ascii_N_embedding c'), Hc.
Qed.

(** A decimal digit or the minus sign. *)
Definition decimal_char (c : Z) : Prop := c = 45%Z \/ (48 <= c <= 57)%Z.

Lemma decimal_go_chars (x : N) (s : string) : Forall decimal_char (text_of s) -> Forall decimal_char (text_of (pretty_N_go x s)).
Proof.
  revert s. induction (N.lt_wf_0 x) as [x _ IH]. intros s Hs.
  destruct (N.eq_0_gt_0_cases x) as [->|Hx]; [by rewrite pretty_N_go_0|].
  rewrite pretty_N_go_step by done. apply IH; [by apply N.div_lt|]. simpl. constructor; [|done].
  unfold pretty_N_char. right. by repeat case_match.
Qed.

Lemma decimal_chars (v : Z) : Forall decimal_char (text_of (pretty v)).
Proof.
  unfold pretty, pretty_Z. destruct v as [|p|p].
  - vm_compute. constructor; [by right|constructor].
  - apply decimal_go_chars. constructor.
  - constructor; [by left|]. apply decimal_go_chars. constructor.
Qed.

Lemma decimal_without (c v : Z) : (c < 45 \/ 57 < c)%Z -> c ∉ text_of (pretty v).
Proof. intros Hc Hin. pose proof (proj1 (Forall_forall _ _) (decimal_chars v) c Hin) as [?|?]; lia. Qed.

(** A separator that occurs in neither prefix splits the text in one way. *)
Lemma separated_inj (c : Z) (l l' m m' : text) :
  c ∉ l -> c ∉ l' -> (l ++ c :: m = l' ++ c :: m')%list -> l = l' /\ m = m'.
Proof.
  revert l'. induction l as [|d l IH]; intros [|d' l'] Hl Hl' H; simplify_list_eq; [done|set_solver..|].
  destruct (IH l') as [-> ->]; [set_solver..|done|done].
Qed.
