(* ===== verification/RunStatus.v ===== *)
(** * Run statuses and versions

    [crates/vestrace-domain/src/run/status.rs], [run/mod.rs] and [error.rs]: the status
    enumerations with their string forms and transition tables, and the run version.  Error
    messages are not modelled. *)

From Stdlib Require Import ZArith Lia String.
From stdpp Require Import base option numbers strings sets list.
From S2P Require Import Prelude.

Inductive DomainError : Type :=
| InvalidArgument
| NotFound
| RevisionConflict (expected current : Z)
| PolicyViolation.

#[export] Instance DomainError_eq_dec : EqDecision DomainError.
Proof. solve_decision. Defined.

Local Open Scope string_scope.

(** The value a table of strings assigns to [s]. *)
Fixpoint assoc {A} (table : list (string * A)) (s : string) : option A :=
  match table with
  | [] => None
  | (k, a) :: rest => if String.eqb s k then Some a else assoc rest s
  end.

Module RunExecutionMode.

Inductive t : Type := Autopilot | Supervised | Manual.

#[global] Instance eq_dec : EqDecision t.
Proof. solve_decision. Defined.

Definition mode_as_str (m : t) : string :=
  match m with Autopilot => "autopilot" | Supervised => "supervised" | Manual => "manual" end.

Definition mode_parse (s : string) : option t :=
  assoc [("autopilot", Autopilot); ("supervised", Supervised); ("manual", Manual)] s.

End RunExecutionMode.

Module RunStatus.

Inductive t : Type :=
| Created | Preparing | Running
| WaitingForInput | WaitingForApproval | WaitingForDependency
| Paused | PausedPolicyChanged
| Succeeded | SucceededWithWarnings | Partial | Failed | Cancelled | Expired.

#[global] Instance eq_dec : EqDecision t.
Proof. solve_decision. Defined.

Definition all_statuses : list t :=
  [Created; Preparing; Running; WaitingForInput; WaitingForApproval; WaitingForDependency;
   Paused; PausedPolicyChanged; Succeeded; SucceededWithWarnings; Partial; Failed; Cancelled; Expired].

Definition status_as_str (s : t) : string :=
  match s with
  | Created => "created"
  | Preparing => "preparing"
  | Running => "running"
  | WaitingForInput => "waiting_for_input"
  | WaitingForApproval => "waiting_for_approval"
  | WaitingForDependency => "waiting_for_dependency"
  | Paused => "paused"
  | PausedPolicyChanged => "paused_policy_changed"
  | Succeeded => "succeeded"
  | SucceededWithWarnings => "succeeded_with_warnings"
  | Partial => "partial"
  | Failed => "failed"
  | Cancelled => "cancelled"
  | Expired => "expired"
  end.

Definition status_parse (s : string) : option t :=
  assoc
    [("created", Created); ("preparing", Preparing); ("running", Running);
     ("waiting_for_input", WaitingForInput); ("waiting_for_approval", WaitingForApproval);
     ("waiting_for_dependency", WaitingForDependency); ("paused", Paused);
     ("paused_policy_changed", PausedPolicyChanged); ("succeeded", Succeeded);
     ("succeeded_with_warnings", SucceededWithWarnings); ("partial", Partial);
     ("failed", Failed); ("cancelled", Cancelled); ("expired", Expired)] s.

Definition is_terminal (s : t) : bool :=
  match s with
  | Succeeded | SucceededWithWarnings | Partial | Failed | Cancelled | Expired => true
  | _ => false
  end.

Definition is_active (s : t) : bool := negb (is_terminal s).

Definition can_pause (s : t) : bool :=
  match s with
  | Running | WaitingForInput | WaitingForApproval | WaitingForDependency => true
  | _ => false
  end.

Definition can_resume (s : t) : bool :=
  match s with Paused | PausedPolicyChanged => true | _ => false end.

Definition is_waiting (s : t) : bool :=
  match s with WaitingForInput | WaitingForApproval | WaitingForDependency => true | _ => false end.

(** The [allowed] table of [transition_to]; terminal statuses are refused before it. *)
Definition allowed (s : t) : list t :=
  match s with
  | Created => [Preparing; Cancelled]
  | Preparing => [Running; WaitingForInput; Failed; Cancelled]
  | Running =>
      [WaitingForInput; WaitingForApproval; WaitingForDependency; Paused; PausedPolicyChanged;
       Succeeded; SucceededWithWarnings; Partial; Failed; Cancelled]
  | WaitingForInput => [Running; Paused; Cancelled; Expired]
  | WaitingForApproval => [Running; Paused; Cancelled; Expired]
  | WaitingForDependency => [Running; Paused; Failed; Cancelled; Expired]
  | Paused => [Running; Cancelled; Expired]
  | PausedPolicyChanged => [Running; Cancelled; Expired]
  | Succeeded | SucceededWithWarnings | Partial | Failed | Cancelled | Expired => []
  end.

Definition transition_to (s next : t) : result DomainError unit :=
  if s == next then Ok tt
  else if is_terminal s then Err InvalidArgument
  else if any (eqb next) (allowed s) then Ok tt
  else Err InvalidArgument.

End RunStatus.

Module RunStepStatus.

Inductive t : Type :=
| Pending | Ready | Running | Waiting | Succeeded | Failed | Cancelled | Skipped | Unknown.

#[global] Instance eq_dec : EqDecision t.
Proof. solve_decision. Defined.

Definition step_status_as_str (s : t) : string :=
  match s with
  | Pending => "pending"
  | Ready => "ready"
  | Running => "running"
  | Waiting => "waiting"
  | Succeeded => "succeeded"
  | Failed => "failed"
  | Cancelled => "cancelled"
  | Skipped => "skipped"
  | Unknown => "unknown"
  end.

Definition step_status_parse (s : string) : option t :=
  assoc
    [("pending", Pending); ("ready", Ready); ("running", Running); ("waiting", Waiting);
     ("succeeded", Succeeded); ("failed", Failed); ("cancelled", Cancelled); ("skipped", Skipped);
     ("unknown", Unknown)] s.

Definition step_is_terminal (s : t) : bool :=
  match s with Succeeded | Failed | Cancelled | Skipped => true | _ => false end.

Definition step_is_active (s : t) : bool := negb (step_is_terminal s) && (s !== Unknown).

Definition step_allowed (s : t) : option (list t) :=
  match s with
  | Pending => Some [Ready; Skipped; Cancelled]
  | Ready => Some [Running; Skipped; Cancelled]
  | Running => Some [Waiting; Succeeded; Failed; Cancelled; Unknown]
  | Waiting => Some [Ready; Running; Failed; Cancelled; Unknown]
  | Unknown => Some [Waiting; Succeeded; Failed; Cancelled]
  | Succeeded | Failed | Cancelled | Skipped => None
  end.

Definition step_transition_to (s next : t) : result DomainError unit :=
  if s == next then Ok tt
  else match step_allowed s with
       | None => Err InvalidArgument
       | Some l => if any (eqb next) l then Ok tt else Err InvalidArgument
       end.

End RunStepStatus.

(** ** Versions *)

Abbreviation RunVersion := Z (only parsing).
Definition RunVersion_ZERO : RunVersion := 0%Z.
Definition RunVersion_INITIAL : RunVersion := 1%Z.

Definition version_new (v : Z) : result DomainError RunVersion :=
  if (v =? 0)%Z then Err InvalidArgument else Ok v.

Definition version_next (v : RunVersion) : result DomainError RunVersion :=
  ok_or (checked_add u64_max v 1) InvalidArgument.

Definition version_previous (v : RunVersion) : result DomainError RunVersion :=
  if (v <=? 1)%Z then Err InvalidArgument else Ok (v - 1)%Z.

Abbreviation ResumeCursor := Z (only parsing).
Definition cursor_from_version (v : RunVersion) : ResumeCursor := v.

(** ** Lemmas *)

Lemma version_next_Ok v v' : version_next v = Ok v' <-> v' = (v + 1)%Z /\ (v + 1 <= u64_max)%Z.
Proof. unfold version_next. by rewrite ok_or_Ok, checked_add_Some. Qed.

Lemma version_previous_next v v' : (1 <= v)%Z -> version_next v = Ok v' -> version_previous v' = Ok v.
Proof.
  intros Hv [-> _]%version_next_Ok. unfold version_previous.
  destruct (Z.leb_spec (v + 1) 1); [lia|]. f_equal. lia.
Qed.

Lemma any_eqb {A} `{EqDecision A} (x : A) l : any (eqb x) l = true <-> x ∈ l.
Proof.
  unfold any. rewrite existsb_exists. setoid_rewrite <-list_elem_of_In. setoid_rewrite eqb_true. naive_solver.
Qed.

Lemma transition_to_Ok s n :
  RunStatus.transition_to s n = Ok tt <-> s = n \/ n ∈ RunStatus.allowed s.
Proof.
  unfold RunStatus.transition_to. destruct (s == n) eqn:E; bool_hyps; [naive_solver|].
  destruct (RunStatus.is_terminal s) eqn:Ht.
  { assert (RunStatus.allowed s = []) as -> by (by destruct s). split; [done|]. by intros [?|?%not_elem_of_nil]. }
  destruct (any _ _) eqn:Ha.
  - apply any_eqb in Ha. naive_solver.
  - split; [done|]. intros [?|Hin]; [done|]. pose proof (proj2 (any_eqb n _) Hin). congruence.
Qed.

Lemma all_statuses_complete s : s ∈ RunStatus.all_statuses.
Proof. destruct s; unfold RunStatus.all_statuses; set_solver. Qed.
