(* ===== verification/RunDecider.v ===== *)
(** * The run decider and reducer

    [crates/vestrace-domain/src/run/{command,decision,state,legacy_event,reducer,error}.rs]:
    the event-sourced run.  [decide] turns a command into events, [apply] folds one event into
    the state, [replay] folds a stream.  Texts carried by commands are [text]; the fixed event
    names are strings; the messages of [InvalidCommand] are not modelled. *)

From Stdlib Require Import ZArith Lia String.
From stdpp Require Import base option numbers strings list.
From S2P Require Import Prelude Codec Text RunStatus.

Import RunStatus.

Abbreviation AgentRunId := Uuid (only parsing).
Abbreviation WorkspaceId := Uuid (only parsing).
Abbreviation PrincipalId := Uuid (only parsing).
Abbreviation RunStepId := Uuid (only parsing).
Abbreviation OperationId := Uuid (only parsing).
Abbreviation CorrelationId := Uuid (only parsing).
Abbreviation ApprovalRecordId := Uuid (only parsing).
Abbreviation RunEventId := Uuid (only parsing).
Abbreviation RequestId := Uuid (only parsing).
Abbreviation JobId := Uuid (only parsing).
Abbreviation ExternalEffectId := Uuid (only parsing).
Abbreviation ExternalEffectReceiptId := Uuid (only parsing).
Abbreviation Timestamp := Z (only parsing).

Inductive RunActor : Type :=
| Principal (id : PrincipalId)
| System (component : text).

(** ** Commands *)

Inductive RunCommand : Type :=
| CmdCreate (principal_id : PrincipalId) (title : text)
| CmdPrepare
| CmdStart
| CmdStartStep (step_id : RunStepId) (kind : text) (label : option text)
| CmdCompleteStep (step_id : RunStepId) (output_references : list text)
| CmdFailStep (step_id : RunStepId) (code message : text) (retryable : bool)
| CmdWaitForInput (request_id : RequestId) (prompt : text)
| CmdWaitForApproval (approval_id : ApprovalRecordId)
| CmdWaitForDependency (dependency_run_id : AgentRunId)
| CmdApprove (approver_id : PrincipalId)
| CmdResume
| CmdSucceed (summary : option text)
| CmdSucceedWithWarnings (summary : text) (warnings : list text)
| CmdPartialComplete (summary : text) (remaining_work : list text)
| CmdFail (code message : text) (retryable : bool)
| CmdCancel (reason : option text)
| CmdPause
| CmdExpire.

Record RunCommandEnvelope : Type := mkCommand {
  command_id : OperationId;
  idempotency_key : option text;
  cmd_workspace_id : WorkspaceId;
  cmd_run_id : AgentRunId;
  cmd_actor : RunActor;
  expected_version : RunVersion;
  cmd_correlation_id : CorrelationId;
  issued_at : Timestamp;
  command : RunCommand;
}.

(** ** State *)

Inductive RunCompletion : Type :=
| CompSucceeded (summary : option text)
| CompSucceededWithWarnings (summary : text) (warnings : list text)
| CompPartial (summary : text) (remaining_work : list text)
| CompFailed (code message : text) (retryable : bool)
| CompCancelled (reason : option text)
| CompExpired.

Inductive RunWait : Type :=
| WaitInput (request_id : RequestId) (prompt : text)
| WaitApproval (approval_id : ApprovalRecordId)
| WaitJob (job_id : JobId)
| WaitEvent (event_type : string) (correlation_id : CorrelationId)
| WaitTimer (resume_at : Timestamp).

Record RunStepState : Type := mkStepState {
  ss_id : RunStepId;
  ss_kind : text;
  ss_label : option text;
  ss_status : RunStepStatus.t;
  ss_started_at : Timestamp;
  ss_finished_at : option Timestamp;
}.

Record RunState : Type := mkRunState {
  rs_id : AgentRunId;
  rs_workspace_id : WorkspaceId;
  rs_principal_id : PrincipalId;
  rs_title : text;
  rs_status : RunStatus.t;
  rs_version : RunVersion;
  rs_active_step : option RunStepState;
  rs_wait : option RunWait;
  rs_completion : option RunCompletion;
  rs_created_at : Timestamp;
  rs_started_at : option Timestamp;
  rs_updated_at : Timestamp;
  rs_finished_at : option Timestamp;
}.

(** ** Events *)

Inductive ReconciliationOutcome : Type := Confirmed | NotApplied | Inconclusive | HumanRequired.

Inductive EvidenceStrength : Type :=
| ResponseDigest | MarkerSearch | ContentHash | EtagVersion | OperationStatus
| ExternalResourceReadBack | ProviderIdempotencyLookup.

Inductive LegacyRunEvent : Type :=
| EvCreated (principal_id : PrincipalId) (title : text)
| EvPrepared
| EvStarted
| EvStepStarted (step_id : RunStepId) (kind : text) (label : option text)
| EvStepSucceeded (step_id : RunStepId) (output_references : list text)
| EvStepFailed (step_id : RunStepId) (code message : text) (retryable : bool)
| EvWaitingForInput (request_id : RequestId) (prompt : text)
| EvWaitingForApproval (approval_id : ApprovalRecordId)
| EvWaitingForDependency (dependency_run_id : AgentRunId)
| EvApprovalGranted (approver_id : PrincipalId)
| EvResumed
| EvSucceeded (summary : option text)
| EvSucceededWithWarnings (summary : text) (warnings : list text)
| EvPartialCompleted (summary : text) (remaining_work : list text)
| EvFailed (code message : text) (retryable : bool)
| EvCancelled (reason : option text)
| EvPaused
| EvExpired
| EvExternalEffectSettled (effect_id : ExternalEffectId) (receipt_id : option ExternalEffectReceiptId)
    (outcome : ReconciliationOutcome) (evidence_strength : EvidenceStrength).

Record PendingRunEvent : Type := mkPending {
  pending_event : LegacyRunEvent;
  pending_occurred_at : Timestamp;
}.

Record LegacyRunEventEnvelope : Type := mkEnvelope {
  ev_event_id : RunEventId;
  ev_workspace_id : WorkspaceId;
  ev_run_id : AgentRunId;
  ev_sequence : RunVersion;
  ev_event_type : string;
  ev_event_version : Z;
  ev_actor : RunActor;
  ev_causation_id : OperationId;
  ev_correlation_id : CorrelationId;
  ev_payload : LegacyRunEvent;
  ev_occurred_at : Timestamp;
  ev_recorded_at : Timestamp;
}.

Definition legacy_event_type (e : LegacyRunEvent) : string :=
  match e with
  | EvCreated _ _ => "run.created"
  | EvPrepared => "run.prepared"
  | EvStarted => "run.started"
  | EvStepStarted _ _ _ => "step.started"
  | EvStepSucceeded _ _ => "step.succeeded"
  | EvStepFailed _ _ _ _ => "step.failed"
  | EvWaitingForInput _ _ => "run.waiting_for_input"
  | EvWaitingForApproval _ => "run.waiting_for_approval"
  | EvWaitingForDependency _ => "run.waiting_for_dependency"
  | EvApprovalGranted _ => "run.approval_granted"
  | EvResumed => "run.resumed"
  | EvSucceeded _ => "run.succeeded"
  | EvSucceededWithWarnings _ _ => "run.succeeded_with_warnings"
  | EvPartialCompleted _ _ => "run.partial_completed"
  | EvFailed _ _ _ => "run.failed"
  | EvCancelled _ => "run.cancelled"
  | EvPaused => "run.paused"
  | EvExpired => "run.expired"
  | EvExternalEffectSettled _ _ _ _ => "run.external_effect_settled"
  end.

Definition legacy_event_version (_ : LegacyRunEvent) : Z := 1.

(** ** Errors *)

Inductive RunDecisionError : Type :=
| AlreadyExists
| MissingState
| VersionConflict (expected actual : RunVersion)
| InvalidCommand
| DecideInvalidTransition (status : RunStatus.t).

Inductive RunReduceError : Type :=
| MissingCreatedEvent
| DuplicateCreatedEvent
| VersionOverflow
| SequenceMismatch (expected actual : RunVersion)
| WorkspaceMismatch (expected actual : WorkspaceId)
| RunMismatch (expected actual : AgentRunId)
| EventTypeMismatch (expected actual : string)
| UnsupportedEventVersion (event_type : string) (version : Z)
| EventAfterTerminal (status : RunStatus.t)
| InvalidTransition (status : RunStatus.t).

(** ** Deciding *)

Definition one (e : LegacyRunEvent) (c : RunCommandEnvelope) : list PendingRunEvent :=
  [mkPending e (issued_at c)].

Definition required_text (value : text) : result RunDecisionError text :=
  let value := trim value in
  if is_empty value then Err InvalidCommand else Ok value.

Definition optional_text (value : option text) : option text :=
  opt_filter (fun v => negb (is_empty v)) (trim <$> value).

Definition require_active_step (s : RunState) (requested : RunStepId) : result RunDecisionError unit :=
  active ← ok_or (rs_active_step s) (DecideInvalidTransition (rs_status s));
  if ss_id active !== requested then Err InvalidCommand else Ok tt.

(** The guards shared by the arms: running with no active step, and running. *)
Definition idle (s : RunState) : bool := (rs_status s == Running) && is_none (rs_active_step s).

Definition decide_event (s : RunState) (c : RunCommand) : result RunDecisionError LegacyRunEvent :=
  let otherwise := Err (DecideInvalidTransition (rs_status s)) in
  match c with
  | CmdPrepare => if rs_status s == Created then Ok EvPrepared else otherwise
  | CmdStart => if rs_status s == Preparing then Ok EvStarted else otherwise
  | CmdStartStep step_id kind label =>
      if idle s then k ← required_text kind; Ok (EvStepStarted step_id k (optional_text label)) else otherwise
  | CmdCompleteStep step_id outputs =>
      if rs_status s == Running
      then _ ← require_active_step s step_id; Ok (EvStepSucceeded step_id outputs) else otherwise
  | CmdFailStep step_id code message retryable =>
      if rs_status s == Running
      then _ ← require_active_step s step_id;
           cd ← required_text code; m ← required_text message; Ok (EvStepFailed step_id cd m retryable)
      else otherwise
  | CmdWaitForInput request_id prompt =>
      if idle s then p ← required_text prompt; Ok (EvWaitingForInput request_id p) else otherwise
  | CmdWaitForApproval approval_id => if idle s then Ok (EvWaitingForApproval approval_id) else otherwise
  | CmdWaitForDependency run => if idle s then Ok (EvWaitingForDependency run) else otherwise
  | CmdApprove approver_id =>
      if rs_status s == WaitingForApproval then Ok (EvApprovalGranted approver_id) else otherwise
  | CmdResume => if is_waiting (rs_status s) || can_resume (rs_status s) then Ok EvResumed else otherwise
  | CmdSucceed summary => if idle s then Ok (EvSucceeded (optional_text summary)) else otherwise
  | CmdSucceedWithWarnings summary warnings =>
      if idle s then t ← required_text summary; Ok (EvSucceededWithWarnings t warnings) else otherwise
  | CmdPartialComplete summary remaining =>
      if idle s then t ← required_text summary; Ok (EvPartialCompleted t remaining) else otherwise
  | CmdFail code message retryable =>
      cd ← required_text code; m ← required_text message; Ok (EvFailed cd m retryable)
  | CmdCancel reason => Ok (EvCancelled (optional_text reason))
  | CmdPause => if can_pause (rs_status s) then Ok EvPaused else otherwise
  | CmdExpire => if is_waiting (rs_status s) then Ok EvExpired else otherwise
  | CmdCreate _ _ => Err AlreadyExists
  end.

Definition decide_existing (s : RunState) (c : RunCommandEnvelope) : result RunDecisionError (list PendingRunEvent) :=
  if rs_workspace_id s !== cmd_workspace_id c then Err InvalidCommand else
  if rs_id s !== cmd_run_id c then Err InvalidCommand else
  if is_terminal (rs_status s) then Err (DecideInvalidTransition (rs_status s)) else
  e ← decide_event s (command c);
  Ok (one e c).

Definition decide (state : option RunState) (c : RunCommandEnvelope)
    : result RunDecisionError (list PendingRunEvent) :=
  match command c with
  | CmdCreate principal_id title =>
      if is_some state then Err AlreadyExists else
      if negb (expected_version c =? RunVersion_ZERO)%Z
      then Err (VersionConflict (expected_version c) RunVersion_ZERO) else
      t ← required_text title;
      Ok (one (EvCreated principal_id t) c)
  | _ =>
      let actual := match state with Some s => rs_version s | None => RunVersion_ZERO end in
      if negb (expected_version c =? actual)%Z then Err (VersionConflict (expected_version c) actual) else
      match state with
      | None => Err MissingState
      | Some s => decide_existing s c
      end
  end.

(** ** Reducing *)

Definition validate_envelope (state : option RunState) (e : LegacyRunEventEnvelope) : result RunReduceError unit :=
  let expected_type := legacy_event_type (ev_payload e) in
  if negb (String.eqb (ev_event_type e) expected_type)
  then Err (EventTypeMismatch expected_type (ev_event_type e)) else
  if negb (ev_event_version e =? legacy_event_version (ev_payload e))%Z
  then Err (UnsupportedEventVersion (ev_event_type e) (ev_event_version e)) else
  match state with
  | None =>
      if negb (ev_sequence e =? RunVersion_INITIAL)%Z
      then Err (SequenceMismatch RunVersion_INITIAL (ev_sequence e)) else Ok tt
  | Some s =>
      if rs_workspace_id s !== ev_workspace_id e
      then Err (WorkspaceMismatch (rs_workspace_id s) (ev_workspace_id e)) else
      if rs_id s !== ev_run_id e then Err (RunMismatch (rs_id s) (ev_run_id e)) else
      if is_terminal (rs_status s) then Err (EventAfterTerminal (rs_status s)) else
      expected ← map_err (fun _ => VersionOverflow) (version_next (rs_version s));
      if negb (ev_sequence e =? expected)%Z then Err (SequenceMismatch expected (ev_sequence e)) else Ok tt
  end.

Definition apply_first (e : LegacyRunEventEnvelope) : result RunReduceError RunState :=
  match ev_payload e with
  | EvCreated principal_id title =>
      Ok (mkRunState (ev_run_id e) (ev_workspace_id e) principal_id title Created (ev_sequence e)
            None None None (ev_occurred_at e) None (ev_occurred_at e) None)
  | _ => Err MissingCreatedEvent
  end.

(** Assignments to the mutable state. *)
Definition set_status (st : RunStatus.t) (s : RunState) : RunState :=
  mkRunState (rs_id s) (rs_workspace_id s) (rs_principal_id s) (rs_title s) st (rs_version s)
    (rs_active_step s) (rs_wait s) (rs_completion s) (rs_created_at s) (rs_started_at s) (rs_updated_at s)
    (rs_finished_at s).

Definition set_started_at (at_ : option Timestamp) (s : RunState) : RunState :=
  mkRunState (rs_id s) (rs_workspace_id s) (rs_principal_id s) (rs_title s) (rs_status s) (rs_version s)
    (rs_active_step s) (rs_wait s) (rs_completion s) (rs_created_at s) at_ (rs_updated_at s) (rs_finished_at s).

Definition set_active_step (a : option RunStepState) (s : RunState) : RunState :=
  mkRunState (rs_id s) (rs_workspace_id s) (rs_principal_id s) (rs_title s) (rs_status s) (rs_version s)
    a (rs_wait s) (rs_completion s) (rs_created_at s) (rs_started_at s) (rs_updated_at s) (rs_finished_at s).

Definition set_wait (w : option RunWait) (s : RunState) : RunState :=
  mkRunState (rs_id s) (rs_workspace_id s) (rs_principal_id s) (rs_title s) (rs_status s) (rs_version s)
    (rs_active_step s) w (rs_completion s) (rs_created_at s) (rs_started_at s) (rs_updated_at s) (rs_finished_at s).

Definition set_position (v : RunVersion) (at_ : Timestamp) (s : RunState) : RunState :=
  mkRunState (rs_id s) (rs_workspace_id s) (rs_principal_id s) (rs_title s) (rs_status s) v
    (rs_active_step s) (rs_wait s) (rs_completion s) (rs_created_at s) (rs_started_at s) at_ (rs_finished_at s).

Definition finish (s : RunState) (st : RunStatus.t) (c : RunCompletion) (at_ : Timestamp) : RunState :=
  mkRunState (rs_id s) (rs_workspace_id s) (rs_principal_id s) (rs_title s) st (rs_version s)
    None None (Some c) (rs_created_at s) (rs_started_at s) (rs_updated_at s) (Some at_).

Definition active_step_matches (s : RunState) (id : RunStepId) : bool :=
  match rs_active_step s with Some a => ss_id a == id | None => false end.

(** The match of [apply_existing]: the state before its version and time are stamped. *)
Definition apply_payload (s : RunState) (e : LegacyRunEventEnvelope) : result RunReduceError RunState :=
  let otherwise := Err (InvalidTransition (rs_status s)) in
  let at_ := ev_occurred_at e in
  match ev_payload e with
  | EvCreated _ _ => Err DuplicateCreatedEvent
  | EvPrepared => if rs_status s == Created then Ok (set_status Preparing s) else otherwise
  | EvStarted =>
      if rs_status s == Preparing then Ok (set_started_at (Some at_) (set_status Running s)) else otherwise
  | EvStepStarted step_id kind label =>
      if idle s then Ok (set_active_step (Some (mkStepState step_id kind label RunStepStatus.Running at_ None)) s)
      else otherwise
  | EvStepSucceeded step_id _ =>
      if (rs_status s == Running) && active_step_matches s step_id then Ok (set_active_step None s) else otherwise
  | EvStepFailed step_id _ _ _ =>
      if (rs_status s == Running) && active_step_matches s step_id then Ok (set_active_step None s) else otherwise
  | EvWaitingForInput request_id prompt =>
      if idle s then Ok (set_wait (Some (WaitInput request_id prompt)) (set_status WaitingForInput s)) else otherwise
  | EvWaitingForApproval approval_id =>
      if idle s then Ok (set_wait (Some (WaitApproval approval_id)) (set_status WaitingForApproval s)) else otherwise
  | EvWaitingForDependency run =>
      if idle s then Ok (set_wait (Some (WaitEvent "run.succeeded" run)) (set_status WaitingForDependency s))
      else otherwise
  | EvApprovalGranted _ =>
      if rs_status s == WaitingForApproval then Ok (set_wait None (set_status Running s)) else otherwise
  | EvResumed =>
      if is_waiting (rs_status s) || can_resume (rs_status s) then Ok (set_wait None (set_status Running s))
      else otherwise
  | EvSucceeded summary =>
      if idle s then Ok (finish s Succeeded (CompSucceeded summary) at_) else otherwise
  | EvSucceededWithWarnings summary warnings =>
      if idle s then Ok (finish s SucceededWithWarnings (CompSucceededWithWarnings summary warnings) at_)
      else otherwise
  | EvPartialCompleted summary remaining =>
      if idle s then Ok (finish s Partial (CompPartial summary remaining) at_) else otherwise
  | EvFailed code message retryable => Ok (finish s Failed (CompFailed code message retryable) at_)
  | EvCancelled reason => Ok (finish s Cancelled (CompCancelled reason) at_)
  | EvPaused => if can_pause (rs_status s) then Ok (set_status Paused s) else otherwise
  | EvExpired => if is_waiting (rs_status s) then Ok (finish s Expired CompExpired at_) else otherwise
  | EvExternalEffectSettled _ _ _ _ => Ok s
  end.

Definition apply_existing (s : RunState) (e : LegacyRunEventEnvelope) : result RunReduceError RunState :=
  s' ← apply_payload s e;
  Ok (set_position (ev_sequence e) (ev_occurred_at e) s').

Definition apply (state : option RunState) (e : LegacyRunEventEnvelope) : result RunReduceError RunState :=
  _ ← validate_envelope state e;
  match state with
  | None => apply_first e
  | Some s => apply_existing s e
  end.

Fixpoint replay_from (state : option RunState) (events : list LegacyRunEventEnvelope)
    : result RunReduceError (option RunState) :=
  match events with
  | [] => Ok state
  | e :: rest => s ← apply state e; replay_from (Some s) rest
  end.

Definition replay (events : list LegacyRunEventEnvelope) : result RunReduceError (option RunState) :=
  replay_from None events.
