(* ===== verification/RunDeciderSpec.v ===== *)
(** * The run decider and reducer: theorems

    The shape of every replayed run, the agreement of [decide] with [apply], finality of the
    terminal states, and the relation to the transition table of [RunStatus]. *)

From Stdlib Require Import ZArith Lia String.
From stdpp Require Import base option numbers strings sets list.
From S2P Require Import Prelude Codec Text RunStatus RunDecider.

Import RunStatus.

(** ** The shape of a run *)

Definition completion_status (c : RunCompletion) : RunStatus.t :=
  match c with
  | CompSucceeded _ => Succeeded
  | CompSucceededWithWarnings _ _ => SucceededWithWarnings
  | CompPartial _ _ => Partial
  | CompFailed _ _ _ => Failed
  | CompCancelled _ => Cancelled
  | CompExpired => Expired
  end.

Definition unfinished (s : RunState) : Prop := rs_completion s = None /\ rs_finished_at s = None.

Definition step_running (s : RunState) : Prop :=
  forall a, rs_active_step s = Some a -> ss_status a = RunStepStatus.Running.

Definition was_started (s : RunState) : Prop := exists t, rs_started_at s = Some t.

(** What the optional fields hold in each status. *)
Definition run_shape (s : RunState) : Prop :=
  match rs_status s with
  | Created | Preparing => rs_active_step s = None /\ rs_wait s = None /\ unfinished s
  | Running => rs_wait s = None /\ step_running s /\ unfinished s /\ was_started s
  | WaitingForInput =>
      rs_active_step s = None /\ (exists r p, rs_wait s = Some (WaitInput r p)) /\ unfinished s /\ was_started s
  | WaitingForApproval =>
      rs_active_step s = None /\ (exists a, rs_wait s = Some (WaitApproval a)) /\ unfinished s /\ was_started s
  | WaitingForDependency =>
      rs_active_step s = None /\ (exists r, rs_wait s = Some (WaitEvent "run.succeeded" r)) /\ unfinished s /\
      was_started s
  | Paused => (rs_active_step s = None \/ rs_wait s = None) /\ step_running s /\ unfinished s /\ was_started s
  | PausedPolicyChanged => False
  | Succeeded | SucceededWithWarnings | Partial | Failed | Cancelled | Expired =>
      rs_active_step s = None /\ rs_wait s = None /\
      (exists c, rs_completion s = Some c /\ completion_status c = rs_status s) /\
      (exists t, rs_finished_at s = Some t)
  end.

Lemma idle_true s : idle s = true <-> rs_status s = Running /\ rs_active_step s = None.
Proof. unfold idle. by rewrite andb_true_iff, eqb_true, is_none_true. Qed.

Lemma finish_shape s st c at_ v t :
  completion_status c = st -> is_terminal st = true -> run_shape (set_position v t (finish s st c at_)).
Proof.
  intros Hc Ht. unfold run_shape. simpl. destruct st; try done; split_and!; try done; eauto.
Qed.

(** Case analysis on the guard of an arm. *)
Ltac arm H :=
  match type of H with
  | (if ?b then Ok _ else _) = Ok _ => destruct b eqn:?; [|discriminate H]; injection H as <-
  | Ok _ = Ok _ => injection H as <-
  end.

Lemma apply_payload_shape s e s' v t :
  run_shape s -> is_terminal (rs_status s) = false -> apply_payload s e = Ok s' ->
  run_shape (set_position v t s').
Proof.
  intros Hs Ht H. unfold apply_payload in H. cbv zeta in H.
  destruct (ev_payload e); try discriminate H; arm H; try (by apply finish_shape);
    repeat match goal with
    | Hx : idle s = true |- _ => apply idle_true in Hx as [? ?]
    | Hx : (_ && _)%bool = true |- _ => apply andb_prop in Hx as [? ?]
    | Hx : (rs_status s == _) = true |- _ => apply eqb_true in Hx
    end; unfold run_shape, unfinished, step_running, was_started in *; simpl in *;
    repeat match goal with Hx : rs_status s = _ |- _ => rewrite Hx in * end;
    destruct (rs_status s); try done; destruct_and?; split_and!; try done; naive_solver.
Qed.

(** ** Envelopes *)

Lemma validate_first e : validate_envelope None e = Ok tt -> ev_sequence e = 1%Z.
Proof. unfold validate_envelope. intros H. repeat split_match_in H. by bool_hyps. Qed.

Lemma validate_next s e :
  validate_envelope (Some s) e = Ok tt ->
  ev_sequence e = (rs_version s + 1)%Z /\ is_terminal (rs_status s) = false.
Proof.
  unfold validate_envelope. intros H. do 5 split_match_in H.
  apply bind_Ok in H as (v & Hv%map_err_Ok & H). apply version_next_Ok in Hv as [-> _].
  split_match_in H. by bool_hyps.
Qed.

Lemma apply_first_shape e s : apply None e = Ok s -> run_shape s /\ rs_version s = 1%Z /\ rs_status s = Created.
Proof.
  unfold apply. intros H. apply bind_Ok in H as ([] & Hv%validate_first & H). unfold apply_first in H.
  destruct (ev_payload e); try done. simplify_eq. unfold run_shape. by split_and!.
Qed.

Lemma apply_next_shape s e s' :
  run_shape s -> apply (Some s) e = Ok s' -> run_shape s' /\ rs_version s' = (rs_version s + 1)%Z.
Proof.
  unfold apply. intros Hs H. apply bind_Ok in H as ([] & Hv & H). apply validate_next in Hv as [Hq Ht].
  unfold apply_existing in H. apply bind_Ok in H as (s1 & Hp & H). simplify_eq. split; [|done].
  by eapply apply_payload_shape.
Qed.

(** Streams grow at the end. *)
Lemma replay_from_app st es es' :
  replay_from st (es ++ es') = (s ← replay_from st es; replay_from s es').
Proof.
  revert st. induction es as [|e es IH]; intros st; simpl; [done|].
  unfold mbind, result_bind in *. destruct (apply st e); [apply IH|done].
Qed.

Lemma replay_shape es s :
  replay es = Ok (Some s) -> run_shape s /\ rs_version s = Z.of_nat (length es).
Proof.
  revert s. induction es as [|e es IH] using rev_ind; intros s; [done|].
  unfold replay in *. rewrite replay_from_app. intros H. apply bind_Ok in H as (st & Hst & H). simpl in H.
  apply bind_Ok in H as (s' & Ha & H). simplify_eq. rewrite length_app. simpl. destruct st as [s0|].
  - destruct (IH s0 Hst) as [Hsh Hv]. destruct (apply_next_shape _ _ _ Hsh Ha) as [? ->]. split; [done|]. lia.
  - destruct (apply_first_shape _ _ Ha) as (? & -> & _). split; [done|].
    destruct es as [|e' es]; [done|]. exfalso. clear -Hst. simpl in Hst. apply bind_Ok in Hst as (s1 & _ & Hst).
    revert s1 Hst. induction es as [|e es IH]; intros s1 H; simpl in H; [done|].
    apply bind_Ok in H as (s2 & _ & H). eauto.
Qed.

(** ** Decisions *)

(** [env] records the pending event [p] of command [c] at the next position. *)
Record records (c : RunCommandEnvelope) (p : PendingRunEvent) (env : LegacyRunEventEnvelope) : Prop := {
  rec_payload : ev_payload env = pending_event p;
  rec_time : ev_occurred_at env = pending_occurred_at p;
  rec_workspace : ev_workspace_id env = cmd_workspace_id c;
  rec_run : ev_run_id env = cmd_run_id c;
  rec_sequence : ev_sequence env = (expected_version c + 1)%Z;
  rec_type : ev_event_type env = legacy_event_type (pending_event p);
  rec_event_version : ev_event_version env = legacy_event_version (pending_event p);
}.

Ltac ok_texts := repeat match goal with
  | H : (_ ≫= _) = Ok _ |- _ => apply bind_Ok in H as (? & ? & H)
  end.

Lemma require_active_step_Ok s id x : require_active_step s id = Ok x -> active_step_matches s id = true.
Proof.
  unfold require_active_step, active_step_matches. intros H. apply bind_Ok in H as (a & ->%ok_or_Ok & H).
  by destruct (ss_id a == id).
Qed.

(** An event decided on [s] passes the guard of its arm in the reducer. *)
Lemma decide_event_applies s c e env :
  decide_event s c = Ok e -> ev_payload env = e -> exists s', apply_payload s env = Ok s'.
Proof.
  intros H He. unfold decide_event in H. cbv zeta in H. unfold apply_payload. rewrite He.
  destruct c; try discriminate H; try split_match_in H; ok_texts; injection H as <-; try (by eauto);
    repeat match goal with Hx : ?b = true |- context [if ?b then _ else _] => rewrite Hx end; try (by eauto).
  all: erewrite require_active_step_Ok by eassumption; simpl; eauto.
Qed.

Lemma decide_existing_Ok s c l :
  decide_existing s c = Ok l ->
  rs_workspace_id s = cmd_workspace_id c /\ rs_id s = cmd_run_id c /\ is_terminal (rs_status s) = false /\
  exists e, decide_event s (command c) = Ok e /\ l = one e c.
Proof.
  unfold decide_existing. intros H. do 3 split_match_in H. bool_hyps.
  apply bind_Ok in H as (e & He & H). simplify_eq. split_and!; try done. by exists e.
Qed.

Lemma decide_Ok st c l :
  decide st c = Ok l ->
  match st with
  | None => expected_version c = 0%Z /\
      exists p t, command c = CmdCreate p t /\ l = one (EvCreated p (trim t)) c /\ trim t <> []
  | Some s => expected_version c = rs_version s /\ decide_existing s c = Ok l
  end.
Proof.
  unfold decide. intros H. destruct (command c) eqn:Ec.
  { split_match_in H. split_match_in H. bool_hyps. unfold required_text in H. destruct st; [done|].
    apply bind_Ok in H as (t & Ht & H). split_match_in Ht. simplify_eq. split; [done|]. do 2 eexists.
    split_and!; try done. by destruct (trim title). }
  all: destruct st; cbv zeta in H; split_match_in H; bool_hyps; done.
Qed.

(** ** A concrete run *)

Module RunExample.
Local Open Scope Z_scope.

Definition command_at (v : RunVersion) (c : RunCommand) : RunCommandEnvelope :=
  mkCommand 90 None 2 1 (Principal 3) v 91 (100 + v) c.

(** The envelope that records an event of [command_at v _]. *)
Definition event_at (v : RunVersion) (e : LegacyRunEvent) : LegacyRunEventEnvelope :=
  mkEnvelope 80 2 1 v (legacy_event_type e) 1 (Principal 3) 90 91 e (100 + v - 1) 0.

Definition stream : list LegacyRunEventEnvelope :=
  [event_at 1 (EvCreated 3 (text_of "report")); event_at 2 EvPrepared; event_at 3 EvStarted;
   event_at 4 (EvWaitingForApproval 40)].

Definition state_of (es : list LegacyRunEventEnvelope) : RunState :=
  match replay es with
  | Ok (Some s) => s
  | _ => mkRunState 0 0 0 [] Created 0 None None None 0 None 0 None
  end.

Definition waiting : RunState := state_of stream.
Definition approve : RunCommandEnvelope := command_at 4 (CmdApprove 3).
Definition approved : LegacyRunEventEnvelope := event_at 5 (EvApprovalGranted 3).
Definition cancelled : RunState := state_of (stream ++ [event_at 5 (EvCancelled None)]).

Lemma approved_records : records approve (mkPending (EvApprovalGranted 3) 104) approved.
Proof. by constructor. Qed.

End RunExample.

Section Claims.

(** In a replayed run the optional fields agree with the status: a step is active only while the run runs or
    is paused, a wait of the right kind exists exactly while it waits (or was kept by a pause), a completion and a
    finish time exist exactly in the terminal statuses, and the version is the number of events. *)
Theorem replayed_run_shape (es : list LegacyRunEventEnvelope) (s : RunState) :
  replay es = Ok (Some s) -> run_shape s /\ rs_version s = Z.of_nat (length es).
Proof. apply replay_shape. Qed.

(** C17.  The decider never emits an event the reducer refuses: it decides exactly one event, and recording it at
    the next position always applies, to a run one version later. *)
Theorem decided_event_applies (st : option RunState) (c : RunCommandEnvelope) (l : list PendingRunEvent) :
  decide st c = Ok l -> (expected_version c < u64_max)%Z ->
  exists p, l = [p] /\ forall env, records c p env ->
    exists s', apply st env = Ok s' /\ rs_version s' = (expected_version c + 1)%Z.
Proof.
  intros Hd Hm. apply decide_Ok in Hd. destruct st as [s|].
  - destruct Hd as [Hv Hd]. apply decide_existing_Ok in Hd as (Hw & Hr & Ht & e & He & ->).
    exists (mkPending e (issued_at c)). split; [done|]. intros env [Hp Hot Hew Her Hsq Hty Hvn]. simpl in *.
    destruct (decide_event_applies _ _ _ _ He Hp) as [s' Hs'].
    exists (set_position (ev_sequence env) (ev_occurred_at env) s'). split; [|done].
    unfold apply, validate_envelope, apply_existing. cbv zeta. rewrite Hp, Hty, Hvn, String.eqb_refl, Z.eqb_refl. simpl.
    rewrite Hw, Hr, Hew, Her, !eqb_refl, Ht. simpl. unfold version_next, checked_add. rewrite <-Hv.
    rewrite (proj2 (Z.leb_le _ _)) by lia. simpl. rewrite Hsq, Z.eqb_refl. simpl. by rewrite Hs', <-Hsq.
  - destruct Hd as (Hv & p & t & _ & -> & _). eexists. split; [done|]. intros env [Hp Hot Hew Her Hsq Hty Hvn]. simpl in *.
    eexists. unfold apply, validate_envelope, apply_first. cbv zeta.
    rewrite Hp, Hty, Hvn, String.eqb_refl, Z.eqb_refl. simpl.
    replace (ev_sequence env =? RunVersion_INITIAL)%Z with true
      by (symmetry; apply Z.eqb_eq; unfold RunVersion_INITIAL; lia).
    simpl. done.
Qed.

(** A command takes effect at most once: after the event it decided is applied, the same command is refused,
    with a version conflict or, for a creation, because the run exists. *)
Theorem command_at_most_once (st : option RunState) (c : RunCommandEnvelope) (p : PendingRunEvent)
    (env : LegacyRunEventEnvelope) (s' : RunState) :
  decide st c = Ok [p] -> records c p env -> apply st env = Ok s' ->
  decide (Some s') c = Err AlreadyExists \/
  decide (Some s') c = Err (VersionConflict (expected_version c) (expected_version c + 1)%Z).
Proof.
  intros Hd Hr Ha. apply decide_Ok in Hd.
  assert (rs_version s' = (expected_version c + 1)%Z) as Hv.
  { rewrite <-(rec_sequence _ _ _ Hr). unfold apply in Ha. apply bind_Ok in Ha as ([] & _ & Ha). destruct st.
    - unfold apply_existing in Ha. apply bind_Ok in Ha as (s1 & _ & Ha). by simplify_eq.
    - unfold apply_first in Ha. destruct (ev_payload env); by simplify_eq. }
  unfold decide. destruct (command c); [by left|..]; right; rewrite Hv; cbv zeta;
    by replace (_ =? _)%Z with false by (symmetry; apply Z.eqb_neq; lia).
Qed.

(** Terminal statuses are final: on a terminal run every command is refused and every event is. *)
Theorem terminal_run_is_final (s : RunState) (c : RunCommandEnvelope) (e : LegacyRunEventEnvelope) :
  is_terminal (rs_status s) = true ->
  is_ok (decide (Some s) c) = false /\ is_ok (apply (Some s) e) = false.
Proof.
  intros Ht. split.
  - destruct (decide (Some s) c) eqn:Hd; [|done]. apply decide_Ok in Hd as [_ Hd].
    apply decide_existing_Ok in Hd as (_ & _ & Hn & _). congruence.
  - destruct (apply (Some s) e) eqn:Ha; [|done]. unfold apply in Ha. apply bind_Ok in Ha as ([] & Hv & _).
    apply validate_next in Hv as [_ Hn]. congruence.
Qed.

(** The late settlement of an external effect, documented as valid in every status, is refused on a finished run. *)
Theorem late_settlement_is_refused (s : RunState) (env : LegacyRunEventEnvelope) id receipt outcome evidence :
  is_terminal (rs_status s) = true ->
  ev_payload env = EvExternalEffectSettled id receipt outcome evidence ->
  ev_event_type env = legacy_event_type (ev_payload env) -> ev_event_version env = 1%Z ->
  ev_workspace_id env = rs_workspace_id s -> ev_run_id env = rs_id s ->
  apply (Some s) env = Err (EventAfterTerminal (rs_status s)).
Proof.
  intros Ht Hp Hty Hv Hw Hr. unfold apply, validate_envelope. cbv zeta.
  rewrite Hty, String.eqb_refl, Hv, Hp. simpl. by rewrite Hw, Hr, !eqb_refl, Ht.
Qed.

(** The reducer moves the status along the transition table of [RunStatus], with one exception: a failure is
    applied from every status, also where the table has no edge to [Failed]. *)
Theorem reducer_follows_status_table (s s' : RunState) (e : LegacyRunEventEnvelope) :
  apply (Some s) e = Ok s' ->
  RunStatus.transition_to (rs_status s) (rs_status s') = Ok tt \/
  ((exists code message retryable, ev_payload e = EvFailed code message retryable) /\ rs_status s' = Failed /\
   rs_status s ∈ [Created; WaitingForInput; WaitingForApproval; Paused; PausedPolicyChanged]).
Proof.
  unfold apply. intros H. apply bind_Ok in H as ([] & Hv & H). apply validate_next in Hv as [_ Ht].
  unfold apply_existing in H. apply bind_Ok in H as (s1 & H & H'). simplify_eq. simpl.
  unfold apply_payload in H. cbv zeta in H.
  destruct (ev_payload e); try discriminate H; arm H; simpl;
    repeat match goal with
    | Hx : idle s = true |- _ => apply idle_true in Hx as [? ?]
    | Hx : (_ && _)%bool = true |- _ => apply andb_prop in Hx as [? ?]
    | Hx : (rs_status s == _) = true |- _ => apply eqb_true in Hx
    end; destruct (rs_status s); try done; try (by left);
    right; (split; [by eauto|]); (split; [done|]); set_solver.
Qed.

End Claims.

(** ** The theorems at the concrete run *)

Section Instances.
Import RunExample.
Local Open Scope Z_scope.

Lemma replayed_run_shape_at_waiting : run_shape waiting /\ rs_version waiting = 4.
Proof. apply (replayed_run_shape stream waiting). by vm_compute. Defined.

Lemma decided_event_applies_at_approve :
  exists p, [mkPending (EvApprovalGranted 3) 104] = [p] /\ forall env, records approve p env ->
    exists s', apply (Some waiting) env = Ok s' /\ rs_version s' = 5.
Proof.
  apply (decided_event_applies (Some waiting) approve [mkPending (EvApprovalGranted 3) 104]); by vm_compute.
Defined.

Lemma command_at_most_once_at_approve :
  decide (Some (state_of (stream ++ [approved]))) approve = Err AlreadyExists \/
  decide (Some (state_of (stream ++ [approved]))) approve = Err (VersionConflict 4 5).
Proof.
  apply (command_at_most_once (Some waiting) approve (mkPending (EvApprovalGranted 3) 104) approved);
    [by vm_compute|apply approved_records|by vm_compute].
Defined.

Lemma terminal_run_is_final_at_cancelled :
  is_ok (decide (Some cancelled) (command_at 5 CmdResume)) = false /\
  is_ok (apply (Some cancelled) (event_at 6 EvResumed)) = false.
Proof. apply (terminal_run_is_final cancelled). by vm_compute. Defined.

Lemma reducer_follows_status_table_at_approve :
  RunStatus.transition_to (rs_status waiting) (rs_status (state_of (stream ++ [approved]))) = Ok tt \/
  ((exists code message retryable, ev_payload approved = EvFailed code message retryable) /\
   rs_status (state_of (stream ++ [approved])) = Failed /\
   rs_status waiting ∈ [Created; WaitingForInput; WaitingForApproval; Paused; PausedPolicyChanged]).
Proof.
  apply (reducer_follows_status_table waiting (state_of (stream ++ [approved])) approved). by vm_compute.
Defined.

End Instances.
