(* ===== verification/AgentRun.v ===== *)
(** * Agent runs, steps, events, checkpoints and work items

    [crates/vestrace-domain/src/run/{step,event,checkpoint,work}.rs].  A method on [&mut self]
    returns its result and the value it leaves behind, also when it fails. *)

From Stdlib Require Import ZArith Lia String.
From stdpp Require Import base option numbers strings list.
From S2P Require Import Prelude Codec Text RunStatus RunDecider.

Abbreviation AgentRuntimeSnapshotId := Uuid (only parsing).
Abbreviation PlanRevisionId := Uuid (only parsing).
Abbreviation RunCheckpointId := Uuid (only parsing).
Abbreviation BudgetSnapshotId := Uuid (only parsing).
Abbreviation ResourceUsageSnapshotId := Uuid (only parsing).
Abbreviation RunReferenceId := Uuid (only parsing).
Abbreviation WorkItemId := Uuid (only parsing).
Abbreviation WorkerId := Uuid (only parsing).

Definition MAX_OBJECTIVE_LEN : Z := 32 * 1024.
Definition MAX_FIELD_LEN : Z := 32 * 1024.
Definition MAX_PLAN_REF_LEN : Z := 256.

(** ** Data *)

Record RunFailure : Type := mkFailure { f_code : text; f_message : text; f_retryable : bool }.

#[export] Instance RunFailure_eq_dec : EqDecision RunFailure.
Proof. solve_decision. Defined.

Inductive RunTerminalResult : Type :=
| ResSucceeded (summary : option text)
| ResSucceededWithWarnings (summary : text) (warnings : list text)
| ResPartial (summary : text) (remaining_work : list text)
| ResFailed (code message : text) (retryable : bool)
| ResCancelled (reason : option text)
| ResExpired.

#[export] Instance RunTerminalResult_eq_dec : EqDecision RunTerminalResult.
Proof. solve_decision. Defined.

Definition from_failure (f : RunFailure) : RunTerminalResult :=
  ResFailed (f_code f) (f_message f) (f_retryable f).

Inductive RunActorRef : Type :=
| ActorPrincipal (id : PrincipalId)
| ActorAgentSnapshot (id : AgentRuntimeSnapshotId)
| ActorWorker (id : WorkerId)
| ActorSystem.

#[export] Instance RunActorRef_eq_dec : EqDecision RunActorRef.
Proof. solve_decision. Defined.

Inductive RunReferenceKind : Type :=
| RefContext | RefArtifact | RefApproval | RefModelInvocation | RefToolInvocation | RefSubRun | RefExternal.

#[export] Instance RunReferenceKind_eq_dec : EqDecision RunReferenceKind.
Proof. solve_decision. Defined.

Record RunReference : Type := mkReference { ref_id : RunReferenceId; ref_kind : RunReferenceKind }.

#[export] Instance RunReference_eq_dec : EqDecision RunReference.
Proof. solve_decision. Defined.

Record ParentRunLink : Type := mkParent { parent_run_id : AgentRunId; parent_step_id : RunStepId }.

#[export] Instance ParentRunLink_eq_dec : EqDecision ParentRunLink.
Proof. solve_decision. Defined.

Record NewAgentRun : Type := mkNewRun {
  nr_id : AgentRunId;
  nr_workspace_id : WorkspaceId;
  nr_objective : text;
  nr_coordinator_snapshot_id : AgentRuntimeSnapshotId;
  nr_execution_mode : RunExecutionMode.t;
  nr_parent : option ParentRunLink;
  nr_budget_snapshot_id : option BudgetSnapshotId;
  nr_resource_usage_snapshot_id : option ResourceUsageSnapshotId;
}.

Record AgentRun : Type := mkRun {
  ar_id : AgentRunId;
  ar_workspace_id : WorkspaceId;
  ar_objective : text;
  ar_coordinator_snapshot_id : AgentRuntimeSnapshotId;
  ar_active_plan_revision_id : option PlanRevisionId;
  ar_execution_mode : RunExecutionMode.t;
  ar_status : RunStatus.t;
  ar_current_step_id : option RunStepId;
  ar_checkpoint_id : option RunCheckpointId;
  ar_parent : option ParentRunLink;
  ar_root_run_id : AgentRunId;
  ar_budget_snapshot_id : option BudgetSnapshotId;
  ar_resource_usage_snapshot_id : option ResourceUsageSnapshotId;
  ar_version : RunVersion;
  ar_result : option RunTerminalResult;
  ar_created_at : Timestamp;
  ar_updated_at : Timestamp;
  ar_finished_at : option Timestamp;
}.

#[export] Instance AgentRun_eq_dec : EqDecision AgentRun.
Proof. solve_decision. Defined.

Record RunStatusChange : Type := mkStatusChange {
  sc_from : RunStatus.t;
  sc_to : RunStatus.t;
  sc_new_version : RunVersion;
}.

Record RunPlanChange : Type := mkPlanChange { pc_plan_revision_id : PlanRevisionId; pc_new_version : RunVersion }.

Record RunCurrentStepChange : Type := mkStepChange { cc_step_id : option RunStepId; cc_new_version : RunVersion }.

(** Assignments to fields of a run. *)
Definition run_set_status (st : RunStatus.t) (r : AgentRun) : AgentRun :=
  mkRun (ar_id r) (ar_workspace_id r) (ar_objective r) (ar_coordinator_snapshot_id r)
    (ar_active_plan_revision_id r) (ar_execution_mode r) st (ar_current_step_id r) (ar_checkpoint_id r)
    (ar_parent r) (ar_root_run_id r) (ar_budget_snapshot_id r) (ar_resource_usage_snapshot_id r) (ar_version r)
    (ar_result r) (ar_created_at r) (ar_updated_at r) (ar_finished_at r).

Definition run_set_result (res : option RunTerminalResult) (at_ : option Timestamp) (r : AgentRun) : AgentRun :=
  mkRun (ar_id r) (ar_workspace_id r) (ar_objective r) (ar_coordinator_snapshot_id r)
    (ar_active_plan_revision_id r) (ar_execution_mode r) (ar_status r) (ar_current_step_id r) (ar_checkpoint_id r)
    (ar_parent r) (ar_root_run_id r) (ar_budget_snapshot_id r) (ar_resource_usage_snapshot_id r) (ar_version r)
    res (ar_created_at r) (ar_updated_at r) at_.

Definition run_set_plan (p : option PlanRevisionId) (r : AgentRun) : AgentRun :=
  mkRun (ar_id r) (ar_workspace_id r) (ar_objective r) (ar_coordinator_snapshot_id r)
    p (ar_execution_mode r) (ar_status r) (ar_current_step_id r) (ar_checkpoint_id r)
    (ar_parent r) (ar_root_run_id r) (ar_budget_snapshot_id r) (ar_resource_usage_snapshot_id r) (ar_version r)
    (ar_result r) (ar_created_at r) (ar_updated_at r) (ar_finished_at r).

Definition run_set_current_step (s : option RunStepId) (r : AgentRun) : AgentRun :=
  mkRun (ar_id r) (ar_workspace_id r) (ar_objective r) (ar_coordinator_snapshot_id r)
    (ar_active_plan_revision_id r) (ar_execution_mode r) (ar_status r) s (ar_checkpoint_id r)
    (ar_parent r) (ar_root_run_id r) (ar_budget_snapshot_id r) (ar_resource_usage_snapshot_id r) (ar_version r)
    (ar_result r) (ar_created_at r) (ar_updated_at r) (ar_finished_at r).

Definition run_set_checkpoint (c : option RunCheckpointId) (r : AgentRun) : AgentRun :=
  mkRun (ar_id r) (ar_workspace_id r) (ar_objective r) (ar_coordinator_snapshot_id r)
    (ar_active_plan_revision_id r) (ar_execution_mode r) (ar_status r) (ar_current_step_id r) c
    (ar_parent r) (ar_root_run_id r) (ar_budget_snapshot_id r) (ar_resource_usage_snapshot_id r) (ar_version r)
    (ar_result r) (ar_created_at r) (ar_updated_at r) (ar_finished_at r).

Definition run_set_position (v : RunVersion) (at_ : Timestamp) (r : AgentRun) : AgentRun :=
  mkRun (ar_id r) (ar_workspace_id r) (ar_objective r) (ar_coordinator_snapshot_id r)
    (ar_active_plan_revision_id r) (ar_execution_mode r) (ar_status r) (ar_current_step_id r) (ar_checkpoint_id r)
    (ar_parent r) (ar_root_run_id r) (ar_budget_snapshot_id r) (ar_resource_usage_snapshot_id r) v
    (ar_result r) (ar_created_at r) at_ (ar_finished_at r).

(** ** The run *)

Definition run_create (input : NewAgentRun) (at_ : Timestamp) : result DomainError AgentRun :=
  let objective := trim (nr_objective input) in
  if is_empty objective then Err InvalidArgument else
  if (MAX_OBJECTIVE_LEN <? utf8_len objective)%Z then Err InvalidArgument else
  if match nr_parent input with Some p => parent_run_id p == nr_id input | None => false end
  then Err InvalidArgument else
  Ok (mkRun (nr_id input) (nr_workspace_id input) objective (nr_coordinator_snapshot_id input) None
        (nr_execution_mode input) RunStatus.Created None None (nr_parent input) (nr_id input)
        (nr_budget_snapshot_id input) (nr_resource_usage_snapshot_id input) RunVersion_INITIAL None at_ at_ None).

(** [self.version = self.version.next()?; self.updated_at = at], then the result. *)
Definition bump {A} (r : AgentRun) (at_ : Timestamp) (k : RunVersion -> A) : result DomainError A * AgentRun :=
  match version_next (ar_version r) with
  | Err e => (Err e, r)
  | Ok v => (Ok (k v), run_set_position v at_ r)
  end.

Definition run_transition (r : AgentRun) (expected : RunVersion) (target : RunStatus.t)
    (res : option RunTerminalResult) (at_ : Timestamp) : result DomainError RunStatusChange * AgentRun :=
  if negb (expected =? ar_version r)%Z then (Err (RevisionConflict expected (ar_version r)), r) else
  if RunStatus.is_terminal target && is_none res then (Err InvalidArgument, r) else
  if negb (RunStatus.is_terminal target) && is_some res then (Err InvalidArgument, r) else
  match RunStatus.transition_to (ar_status r) target with
  | Err e => (Err e, r)
  | Ok _ =>
      let r1 := run_set_status target r in
      let r2 := if RunStatus.is_terminal target then run_set_result res (Some at_) r1 else r1 in
      bump r2 at_ (fun v => mkStatusChange (ar_status r) target v)
  end.

Definition run_attach_plan (r : AgentRun) (expected : RunVersion) (plan : PlanRevisionId) (at_ : Timestamp)
    : result DomainError RunPlanChange * AgentRun :=
  if negb (expected =? ar_version r)%Z then (Err (RevisionConflict expected (ar_version r)), r) else
  bump (run_set_plan (Some plan) r) at_ (fun v => mkPlanChange plan v).

Definition run_select_current_step (r : AgentRun) (expected : RunVersion) (step : option RunStepId)
    (at_ : Timestamp) : result DomainError RunCurrentStepChange * AgentRun :=
  if negb (expected =? ar_version r)%Z then (Err (RevisionConflict expected (ar_version r)), r) else
  bump (run_set_current_step step r) at_ (fun v => mkStepChange step v).

(** ** Steps *)

Record NewRunStep : Type := mkNewStep {
  ns_id : RunStepId;
  ns_run_id : AgentRunId;
  ns_plan_step_reference : option text;
  ns_assigned_actor : RunActorRef;
  ns_input_references : list RunReference;
}.

Record RunStep : Type := mkStep {
  st_id : RunStepId;
  st_run_id : AgentRunId;
  st_plan_step_reference : option text;
  st_assigned_actor : RunActorRef;
  st_input_references : list RunReference;
  st_status : RunStepStatus.t;
  st_attempt : Z;
  st_output_references : list RunReference;
  st_error : option RunFailure;
  st_created_at : Timestamp;
  st_started_at : option Timestamp;
  st_finished_at : option Timestamp;
}.

#[export] Instance RunStep_eq_dec : EqDecision RunStep.
Proof. solve_decision. Defined.

(** The fields a step's progress changes. *)
Definition step_set (s : RunStep) (status : RunStepStatus.t) (attempt : Z) (err : option RunFailure)
    (started finished : option Timestamp) : RunStep :=
  mkStep (st_id s) (st_run_id s) (st_plan_step_reference s) (st_assigned_actor s) (st_input_references s)
    status attempt (st_output_references s) err (st_created_at s) started finished.

Definition step_create (input : NewRunStep) (at_ : Timestamp) : result DomainError RunStep :=
  _ ← match ns_plan_step_reference input with
      | Some reference =>
          let trimmed := trim reference in
          if is_empty trimmed then Err InvalidArgument
          else if (MAX_PLAN_REF_LEN <? utf8_len trimmed)%Z then Err InvalidArgument else Ok tt
      | None => Ok tt
      end;
  Ok (mkStep (ns_id input) (ns_run_id input)
        (opt_filter (fun t => negb (is_empty t)) (trim <$> ns_plan_step_reference input))
        (ns_assigned_actor input) (ns_input_references input)
        RunStepStatus.Pending 1 [] None at_ None None).

Definition step_transition_to (s : RunStep) (next : RunStepStatus.t) (at_ : Timestamp)
    : result DomainError unit * RunStep :=
  match RunStepStatus.step_transition_to (st_status s) next with
  | Err e => (Err e, s)
  | Ok _ =>
      let was_terminal := RunStepStatus.step_is_terminal (st_status s) in
      let started := if (next == RunStepStatus.Running) && is_none (st_started_at s)
                     then Some at_ else st_started_at s in
      let finished := if RunStepStatus.step_is_terminal next && negb was_terminal
                      then Some at_ else st_finished_at s in
      let err := if RunStepStatus.step_is_terminal next then None else st_error s in
      (Ok tt, step_set s next (st_attempt s) err started finished)
  end.

Definition step_retry (s : RunStep) (at_ : Timestamp) : result DomainError unit * RunStep :=
  if st_status s !== RunStepStatus.Failed then (Err InvalidArgument, s) else
  match checked_add u32_max (st_attempt s) 1 with
  | None => (Err InvalidArgument, s)
  | Some attempt => (Ok tt, step_set s RunStepStatus.Ready attempt None None None)
  end.

Definition step_fail (s : RunStep) (failure : RunFailure) (at_ : Timestamp) : result DomainError unit * RunStep :=
  let code := trim (f_code failure) in
  let message := trim (f_message failure) in
  if is_empty code then (Err InvalidArgument, s) else
  if (MAX_FIELD_LEN <? utf8_len code)%Z then (Err InvalidArgument, s) else
  if (MAX_FIELD_LEN <? utf8_len message)%Z then (Err InvalidArgument, s) else
  match RunStepStatus.step_transition_to (st_status s) RunStepStatus.Failed with
  | Err e => (Err e, s)
  | Ok _ => (Ok tt, step_set s RunStepStatus.Failed (st_attempt s)
                      (Some (mkFailure code message (f_retryable failure))) (st_started_at s) (Some at_))
  end.

(** ** Events *)

Inductive RunEventPayload : Type :=
| RunCreated (objective : text) (execution_mode : RunExecutionMode.t)
    (coordinator_snapshot_id : AgentRuntimeSnapshotId) (parent : option ParentRunLink)
| RunStatusChanged (from to : RunStatus.t) (res : option RunTerminalResult)
| PlanAttached (previous : option PlanRevisionId) (current : PlanRevisionId)
| StepsAdded (steps : list RunStep)
| StepStatusChanged (step_id : RunStepId) (from to : RunStepStatus.t) (attempt : Z)
| CurrentStepChanged (previous current : option RunStepId)
| CheckpointCreated (checkpoint_id : RunCheckpointId) (resume_cursor : ResumeCursor)
| ApprovalGranted (approver_id : PrincipalId).

Definition payload_event_type (p : RunEventPayload) : string :=
  match p with
  | RunCreated _ _ _ _ => "run.created"
  | RunStatusChanged _ _ _ => "run.status_changed"
  | PlanAttached _ _ => "run.plan_attached"
  | StepsAdded _ => "run.steps_added"
  | StepStatusChanged _ _ _ _ => "run.step_status_changed"
  | CurrentStepChanged _ _ => "run.current_step_changed"
  | CheckpointCreated _ _ => "run.checkpoint_created"
  | ApprovalGranted _ => "run.approval_granted"
  end.

Definition is_creation (p : RunEventPayload) : bool :=
  match p with RunCreated _ _ _ _ => true | _ => false end.

Record RunEvent : Type := mkEvent {
  re_id : RunEventId;
  re_workspace_id : WorkspaceId;
  re_run_id : AgentRunId;
  re_sequence : ResumeCursor;
  re_run_version : RunVersion;
  re_actor : RunActorRef;
  re_payload : RunEventPayload;
  re_correlation_id : CorrelationId;
  re_causation_event_id : option RunEventId;
  re_occurred_at : Timestamp;
}.

(** [RunEvent::with_id]; [RunEvent::new] is it at a fresh identifier. *)
Definition event_with_id (id : RunEventId) (run_id : AgentRunId) (workspace_id : WorkspaceId)
    (run_version : RunVersion) (sequence : ResumeCursor) (actor : RunActorRef) (payload : RunEventPayload)
    (correlation_id : CorrelationId) (causation : option RunEventId) (at_ : Timestamp)
    : result DomainError RunEvent :=
  if negb (sequence =? cursor_from_version run_version)%Z then Err InvalidArgument else
  if is_creation payload && negb (run_version =? RunVersion_INITIAL)%Z then Err InvalidArgument else
  if negb (is_creation payload) && (run_version =? RunVersion_INITIAL)%Z then Err InvalidArgument else
  if match causation with Some c => c == id | None => false end then Err InvalidArgument else
  Ok (mkEvent id workspace_id run_id sequence run_version actor payload correlation_id causation at_).

(** ** Checkpoints *)

Record RunCheckpointPayloadV1 : Type := mkCheckpointPayload {
  completed_steps : list RunStepId;
  ready_steps : list RunStepId;
  pending_work_items : list WorkItemId;
  pending_tool_calls : list RunReferenceId;
  pending_approvals : list RunReferenceId;
  active_subruns : list AgentRunId;
  context_references : list RunReference;
  artifact_references : list RunReference;
  cp_budget_snapshot_id : option BudgetSnapshotId;
}.

Record RunCheckpoint : Type := mkRunCheckpoint {
  cp_id : RunCheckpointId;
  cp_workspace_id : WorkspaceId;
  cp_run_id : AgentRunId;
  cp_run_version : RunVersion;
  cp_active_plan_revision_id : option PlanRevisionId;
  cp_resume_cursor : ResumeCursor;
  cp_payload : RunCheckpointPayloadV1;
  cp_created_at : Timestamp;
}.

(** The two nested loops: no element equals a later one. *)
Fixpoint check_no_duplicates {A} `{EqDecision A} (items : list A) : result DomainError unit :=
  match items with
  | [] => Ok tt
  | x :: rest => if any (eqb x) rest then Err InvalidArgument else check_no_duplicates rest
  end.

Definition validate_payload (p : RunCheckpointPayloadV1) : result DomainError unit :=
  _ ← check_no_duplicates (completed_steps p);
  _ ← check_no_duplicates (ready_steps p);
  _ ← check_no_duplicates (pending_work_items p);
  _ ← check_no_duplicates (pending_tool_calls p);
  _ ← check_no_duplicates (pending_approvals p);
  check_no_duplicates (active_subruns p).

Definition checkpoint_new (id : RunCheckpointId) (ws : WorkspaceId) (run_id : AgentRunId) (v : RunVersion)
    (plan : option PlanRevisionId) (p : RunCheckpointPayloadV1) (at_ : Timestamp)
    : result DomainError RunCheckpoint :=
  _ ← validate_payload p;
  Ok (mkRunCheckpoint id ws run_id v plan (cursor_from_version v) p at_).

(** ** Work items of the domain *)

Module DomainWork.

Inductive WorkItemKind : Type := AdvanceRun | ResumeRun | CreateCheckpoint | ExpireRun | ExecuteStep.
Inductive WorkItemStatus : Type := Ready | Leased | Completed | Failed | Cancelled | DeadLetter.

Local Open Scope string_scope.

Definition kind_as_str (k : WorkItemKind) : string :=
  match k with
  | AdvanceRun => "advance_run"
  | ResumeRun => "resume_run"
  | CreateCheckpoint => "create_checkpoint"
  | ExpireRun => "expire_run"
  | ExecuteStep => "execute_step"
  end.

Definition parse_kind (s : string) : option WorkItemKind :=
  assoc [("advance_run", AdvanceRun); ("resume_run", ResumeRun); ("create_checkpoint", CreateCheckpoint);
         ("expire_run", ExpireRun); ("execute_step", ExecuteStep)] s.

Definition work_status_as_str (s : WorkItemStatus) : string :=
  match s with
  | Ready => "ready"
  | Leased => "leased"
  | Completed => "completed"
  | Failed => "failed"
  | Cancelled => "cancelled"
  | DeadLetter => "dead_letter"
  end.

Definition parse_status (s : string) : option WorkItemStatus :=
  assoc [("ready", Ready); ("leased", Leased); ("completed", Completed); ("failed", Failed);
         ("cancelled", Cancelled); ("dead_letter", DeadLetter)] s.

Inductive RunWorkPayload : Type :=
| PayloadAdvance
| PayloadResume (checkpoint_id : option RunCheckpointId)
| PayloadCreateCheckpoint
| PayloadExpire.

Definition validate_kind_payload_agreement (k : WorkItemKind) (p : RunWorkPayload) : result DomainError unit :=
  match k, p with
  | AdvanceRun, PayloadAdvance
  | ResumeRun, PayloadResume _
  | CreateCheckpoint, PayloadCreateCheckpoint
  | ExpireRun, PayloadExpire
  | ExecuteStep, PayloadAdvance => Ok tt
  | _, _ => Err InvalidArgument
  end.

Record WorkItem : Type := mkWorkItem {
  wi_id : WorkItemId;
  wi_workspace_id : WorkspaceId;
  wi_run_id : AgentRunId;
  wi_step_id : option RunStepId;
  wi_expected_run_version : RunVersion;
  wi_kind : WorkItemKind;
  wi_payload : RunWorkPayload;
  wi_status : WorkItemStatus;
  wi_priority : Z;
  wi_available_at : Timestamp;
  wi_deadline : option Timestamp;
  wi_attempt : Z;
  wi_max_attempts : Z;
  wi_idempotency_key : text;
}.

Definition work_item_new (id : WorkItemId) (ws : WorkspaceId) (run_id : AgentRunId) (step_id : option RunStepId)
    (v : RunVersion) (k : WorkItemKind) (p : RunWorkPayload) (priority : Z) (available_at : Timestamp)
    (deadline : option Timestamp) (max_attempts : Z) (key : text) : result DomainError WorkItem :=
  _ ← validate_kind_payload_agreement k p;
  if is_empty (trim key) then Err InvalidArgument else
  if (max_attempts <? 1)%Z then Err InvalidArgument else
  Ok (mkWorkItem id ws run_id step_id v k p Ready priority available_at deadline 0 max_attempts key).

End DomainWork.
