(* ===== verification/AgentRunSpec.v ===== *)
(** * Lives of runs and steps

    What holds of every run and every step that the operations of
    [crates/vestrace-domain/src/run/step.rs] lead to, in any order and with any arguments. *)

From Stdlib Require Import ZArith Lia String.
From stdpp Require Import base option numbers strings list.
From S2P Require Import Prelude Codec Text RunStatus RunDecider AgentRun.

(** ** Runs *)

Inductive RunOp : Type :=
| OpTransition (expected : RunVersion) (target : RunStatus.t) (res : option RunTerminalResult) (at_ : Timestamp)
| OpAttachPlan (expected : RunVersion) (plan : PlanRevisionId) (at_ : Timestamp)
| OpSelectStep (expected : RunVersion) (step : option RunStepId) (at_ : Timestamp).

(** Whether the operation succeeded, and the run it leaves. *)
Definition run_op (op : RunOp) (r : AgentRun) : bool * AgentRun :=
  match op with
  | OpTransition expected target res at_ => let '(x, r') := run_transition r expected target res at_ in (is_ok x, r')
  | OpAttachPlan expected plan at_ => let '(x, r') := run_attach_plan r expected plan at_ in (is_ok x, r')
  | OpSelectStep expected step at_ => let '(x, r') := run_select_current_step r expected step at_ in (is_ok x, r')
  end.

Inductive run_reachable : AgentRun -> Prop :=
| run_created input at_ r : run_create input at_ = Ok r -> run_reachable r
| run_changed r op : run_reachable r -> run_reachable (run_op op r).2.

(** A result and a finishing time exist exactly in the terminal statuses. *)
Record run_lifecycle (r : AgentRun) : Prop := {
  rl_result : is_some (ar_result r) = RunStatus.is_terminal (ar_status r);
  rl_finished : is_some (ar_finished_at r) = RunStatus.is_terminal (ar_status r);
  rl_version : (1 <= ar_version r <= u64_max)%Z;
  rl_objective : trimmed (ar_objective r) /\ ar_objective r <> [] /\ (utf8_len (ar_objective r) <= MAX_OBJECTIVE_LEN)%Z;
}.

Lemma bump_cases {A} (r : AgentRun) at_ (k : RunVersion -> A) :
  bump r at_ k = (Ok (k (ar_version r + 1)%Z), run_set_position (ar_version r + 1)%Z at_ r) /\
    (ar_version r + 1 <= u64_max)%Z \/
  (exists e, bump r at_ k = (Err e, r)) /\ (u64_max < ar_version r + 1)%Z.
Proof.
  unfold bump, version_next, checked_add. destruct (Z.leb_spec (ar_version r + 1) u64_max); simpl; [by left|].
  right. split; [by eexists|done].
Qed.

Lemma run_create_lifecycle input at_ r : run_create input at_ = Ok r -> run_lifecycle r /\ ar_version r = 1%Z.
Proof.
  unfold run_create. cbv zeta. destruct (is_empty _) eqn:He; [done|]. destruct (Z.ltb_spec MAX_OBJECTIVE_LEN (utf8_len (trim (nr_objective input)))); [done|].
  destruct (match nr_parent input with Some _ => _ | None => _ end); [done|]. intros [= <-]. split; [|done].
  constructor; simpl; try done. split_and!; [apply trim_trimmed|by destruct (trim _)|done].
Qed.

(** One operation: a success advances the version by one; a failure changes nothing, unless the
    version cannot be advanced. *)
Lemma run_op_cases op r :
  run_lifecycle r ->
  (let '(ok, r') := run_op op r in
   if ok then run_lifecycle r' /\ ar_version r' = (ar_version r + 1)%Z
   else r' = r \/ run_lifecycle r' /\ ar_version r = u64_max /\ ar_version r' = ar_version r) /\
  (RunStatus.is_terminal (ar_status r) = true -> ar_status (run_op op r).2 = ar_status r).
Proof.
  intros [Hres Hfin Hv Ho]. destruct op as [ex target res at_|ex plan at_|ex step at_]; simpl.
  - unfold run_transition. destruct (negb _); [split; [by left|done]|].
    destruct (RunStatus.is_terminal target) eqn:Ht, res as [res|]; simpl; try (split; [by left|done]);
      (destruct (RunStatus.transition_to (ar_status r) target) eqn:Hto; simpl; [|split; [by left|done]]).
    all: assert (RunStatus.is_terminal (ar_status r) = true -> target = ar_status r) as Hsame
      by (intros Hterm; unfold RunStatus.transition_to in Hto;
          destruct (ar_status r == target) eqn:E; [by rewrite eqb_true in E|by rewrite Hterm in Hto]).
    all: match goal with |- context [bump ?x ?a ?k] => destruct (bump_cases x a k) as [[-> Hb]|[[e ->] Hb]] end;
      simpl in *; (split; [|exact Hsame]).
    + split; [|done]. constructor; simpl; try done; lia.
    + right. split; [|lia]. by constructor.
    + assert (RunStatus.is_terminal (ar_status r) = false) as Hn.
      { destruct (RunStatus.is_terminal (ar_status r)) eqn:E; [|done]. rewrite (Hsame eq_refl) in Ht. congruence. }
      split; [|done]. constructor; simpl; try done; [congruence|congruence|lia].
    + assert (RunStatus.is_terminal (ar_status r) = false) as Hn.
      { destruct (RunStatus.is_terminal (ar_status r)) eqn:E; [|done]. rewrite (Hsame eq_refl) in Ht. congruence. }
      right. split; [|lia]. constructor; simpl; try done; congruence.
  - unfold run_attach_plan. destruct (negb _); [split; [by left|done]|].
    match goal with |- context [bump ?x ?a ?k] => destruct (bump_cases x a k) as [[-> Hb]|[[e ->] Hb]] end; simpl in *.
    + split; [|done]. split; [|done]. constructor; simpl; try done; lia.
    + split; [|done]. right. split; [|lia]. by constructor.
  - unfold run_select_current_step. destruct (negb _); [split; [by left|done]|].
    match goal with |- context [bump ?x ?a ?k] => destruct (bump_cases x a k) as [[-> Hb]|[[e ->] Hb]] end; simpl in *.
    + split; [|done]. split; [|done]. constructor; simpl; try done; lia.
    + split; [|done]. right. split; [|lia]. by constructor.
Qed.

Lemma run_reachable_lifecycle r : run_reachable r -> run_lifecycle r.
Proof.
  induction 1 as [input at_ r Hc|r op Hr IH]; [by eapply run_create_lifecycle|].
  destruct (run_op_cases op r IH) as [Hop _]. destruct (run_op op r) as [[] r']; simpl; [by apply Hop|].
  destruct Hop as [->|[? _]]; done.
Qed.

(** ** Steps *)

Inductive StepOp : Type :=
| OpStepTransition (next : RunStepStatus.t) (at_ : Timestamp)
| OpStepRetry (at_ : Timestamp)
| OpStepFail (failure : RunFailure) (at_ : Timestamp).

Definition step_op (op : StepOp) (s : RunStep) : bool * RunStep :=
  match op with
  | OpStepTransition next at_ => let '(x, s') := step_transition_to s next at_ in (is_ok x, s')
  | OpStepRetry at_ => let '(x, s') := step_retry s at_ in (is_ok x, s')
  | OpStepFail failure at_ => let '(x, s') := step_fail s failure at_ in (is_ok x, s')
  end.

Inductive step_reachable : RunStep -> Prop :=
| step_created input at_ s : step_create input at_ = Ok s -> step_reachable s
| step_changed s op : step_reachable s -> step_reachable (step_op op s).2.

(** The statuses a step reaches only by running. *)
Definition has_run (s : RunStepStatus.t) : bool :=
  match s with
  | RunStepStatus.Running | RunStepStatus.Waiting | RunStepStatus.Succeeded | RunStepStatus.Failed
  | RunStepStatus.Unknown => true
  | _ => false
  end.

Record step_lifecycle (s : RunStep) : Prop := {
  sl_finished : is_some (st_finished_at s) = RunStepStatus.step_is_terminal (st_status s);
  sl_error : is_some (st_error s) = true -> st_status s = RunStepStatus.Failed;
  sl_started : has_run (st_status s) = true -> is_some (st_started_at s) = true;
  sl_attempt : (1 <= st_attempt s <= u32_max)%Z;
}.

Lemma step_status_edge s next :
  RunStepStatus.step_transition_to s next = Ok tt ->
  s = next \/ RunStepStatus.step_is_terminal s = false /\
    (has_run next = true -> next = RunStepStatus.Running \/ has_run s = true).
Proof.
  unfold RunStepStatus.step_transition_to. destruct (s == next) eqn:E; [left; by rewrite eqb_true in E|].
  intros H. right. destruct s, next; try done; simpl in *; (split; [done|]); auto.
Qed.

Lemma step_op_lifecycle op s : step_lifecycle s -> step_lifecycle (step_op op s).2.
Proof.
  intros Hs. pose proof Hs as [Hf He Hst Ha]. destruct op as [next at_|at_|failure at_]; simpl.
  - unfold step_transition_to. destruct (RunStepStatus.step_transition_to (st_status s) next) as [[]|] eqn:E; [|done].
    apply step_status_edge in E as [Heq|[Ht Hrun]]; simpl.
    + constructor; simpl; [| |destruct (_ && _) eqn:Eb; [done|by rewrite <-Heq]|done].
      * rewrite <-Heq. by rewrite andb_negb_r.
      * rewrite <-Heq. destruct (RunStepStatus.step_is_terminal (st_status s)) eqn:Et; [done|]. auto.
    + rewrite Ht in Hf |- *. rewrite andb_true_r. constructor; simpl; [| | |done].
      * by destruct (RunStepStatus.step_is_terminal next).
      * destruct (RunStepStatus.step_is_terminal next); [done|]. intros Hsome. rewrite (He Hsome) in Ht. done.
      * intros Hn. destruct (st_started_at s) eqn:Es; simpl; [by rewrite andb_false_r|].
        destruct (Hrun Hn) as [->|Hr]; [done|]. by apply Hst in Hr.
  - unfold step_retry. destruct (_ !== _); [done|]. unfold checked_add.
    destruct (Z.leb_spec (st_attempt s + 1) u32_max); [|done]. simpl. constructor; simpl; try done. lia.
  - unfold step_fail. cbv zeta. destruct (is_empty _); [done|]. destruct (_ <? _)%Z; [done|]. destruct (_ <? _)%Z; [done|].
    destruct (RunStepStatus.step_transition_to (st_status s) RunStepStatus.Failed) as [[]|] eqn:E; [|done]. simpl.
    constructor; simpl; try done. intros _. apply step_status_edge in E as [Heq|[_ Hr]]; apply Hst; [by rewrite Heq|].
    by destruct (Hr eq_refl).
Qed.

Lemma step_reachable_lifecycle s : step_reachable s -> step_lifecycle s.
Proof.
  induction 1 as [input at_ s Hc|s op Hs IH]; [|by apply step_op_lifecycle].
  unfold step_create in Hc. apply bind_Ok in Hc as ([] & _ & Hc). injection Hc as <-. by constructor.
Qed.

(** ** Claims *)

(** In every life of a run: a result and a finishing time exist exactly while its status is terminal, the
    objective is trimmed, not empty and within its limit, a successful operation advances the version by one, a
    terminal status never changes, and a failed operation changes nothing unless the version is exhausted. *)
Theorem run_lifecycle_holds (r : AgentRun) (op : RunOp) :
  run_reachable r ->
  run_lifecycle r /\
  (RunStatus.is_terminal (ar_status r) = true -> ar_status (run_op op r).2 = ar_status r) /\
  let '(ok, r') := run_op op r in
  if ok then ar_version r' = (ar_version r + 1)%Z else r' = r \/ ar_version r = u64_max.
Proof.
  intros Hr%run_reachable_lifecycle. destruct (run_op_cases op r Hr) as [Hop Hterm]. split_and!; [done..|].
  destruct (run_op op r) as [[] r']; naive_solver.
Qed.

(** In every life of a step: a finishing time exists exactly while its status is terminal, a failure is recorded
    only on a failed step, a step that ran has a starting time, and its attempt is a positive [u32]. *)
Theorem step_lifecycle_holds (s : RunStep) : step_reachable s -> step_lifecycle s.
Proof. apply step_reachable_lifecycle. Qed.

(** ** The theorems at a concrete run *)

Module LifecycleExample.
Local Open Scope Z_scope.

Definition input : NewAgentRun :=
  mkNewRun 100 10 (text_of " summarise ") 4 RunExecutionMode.Manual None None None.
Definition run0 : AgentRun :=
  mkRun 100 10 (text_of "summarise") 4 None RunExecutionMode.Manual RunStatus.Created None None None 100 None None 1 None
    5 5 None.
Definition cancel0 : RunOp := OpTransition 1 RunStatus.Cancelled (Some (ResCancelled None)) 6.
Definition run1 : AgentRun := (run_op cancel0 run0).2.

Definition step0 : RunStep := mkStep 900 100 None ActorSystem [] RunStepStatus.Pending 1 [] None 5 None None.
Definition step1 : RunStep :=
  (step_op (OpStepFail (mkFailure (text_of "timeout") [] true) 8)
    (step_op (OpStepTransition RunStepStatus.Running 7) (step_op (OpStepTransition RunStepStatus.Ready 6) step0).2).2).2.

End LifecycleExample.

Section Instances.
Import LifecycleExample.
Local Open Scope Z_scope.

Lemma run_lifecycle_holds_at_cancelled :
  run_lifecycle run1 /\
  (RunStatus.is_terminal (ar_status run1) = true -> ar_status (run_op cancel0 run1).2 = ar_status run1) /\
  let '(ok, r') := run_op cancel0 run1 in if ok then ar_version r' = ar_version run1 + 1 else r' = run1 \/ ar_version run1 = u64_max.
Proof. apply (run_lifecycle_holds run1 cancel0). apply run_changed, (run_created input 5). reflexivity. Defined.

Lemma step_lifecycle_holds_at_failed : step_lifecycle step1.
Proof.
  apply (step_lifecycle_holds step1). do 3 apply step_changed.
  apply (step_created (mkNewStep 900 100 None ActorSystem []) 5). reflexivity.
Defined.

End Instances.
