(* ===== verification/RunReplay.v ===== *)
(** * Replaying a run's canonical events

    [crates/vestrace-application/src/run/replay.rs] and [error.rs]: the projection a stream of
    [RunEvent]s determines.  [known_steps] is a finite map by step identifier; a failing replay
    drops the projection, so only the error is returned. *)

From Stdlib Require Import ZArith Lia String.
From stdpp Require Import base option numbers strings gmap list.
From S2P Require Import Prelude Codec Text RunStatus RunDecider AgentRun.

Inductive ApplicationError : Type :=
| AppDomain (e : DomainError)
| AppConflict
| AppPolicy
| AppUnavailable
| AppStorage
| AppInternal
| AppInvalidConfiguration.

#[export] Instance ApplicationError_eq_dec : EqDecision ApplicationError.
Proof. solve_decision. Defined.

(** [?] on a domain result inside an application function. *)
Definition from_domain {A} (r : result DomainError A) : result ApplicationError A := map_err AppDomain r.

Abbreviation invalid := (Err (AppDomain InvalidArgument)).

Record RunProjection : Type := mkProjection {
  pj_run_id : AgentRunId;
  pj_workspace_id : WorkspaceId;
  pj_status : RunStatus.t;
  pj_version : RunVersion;
  pj_objective : text;
  pj_execution_mode : RunExecutionMode.t;
  pj_coordinator_snapshot_id : AgentRuntimeSnapshotId;
  pj_parent : option ParentRunLink;
  pj_root_run_id : AgentRunId;
  pj_active_plan_revision_id : option PlanRevisionId;
  pj_current_step_id : option RunStepId;
  pj_checkpoint_id : option RunCheckpointId;
  pj_known_steps : gmap Z RunStep;
  pj_result : option RunTerminalResult;
  pj_created_at : Timestamp;
  pj_updated_at : Timestamp;
  pj_finished_at : option Timestamp;
}.

(** Assignments to the fields replay changes. *)
Definition pj_set (p : RunProjection) (status : RunStatus.t) (res : option RunTerminalResult)
    (finished : option Timestamp) (plan : option PlanRevisionId) (step : option RunStepId)
    (cp : option RunCheckpointId) (steps : gmap Z RunStep) : RunProjection :=
  mkProjection (pj_run_id p) (pj_workspace_id p) status (pj_version p) (pj_objective p) (pj_execution_mode p)
    (pj_coordinator_snapshot_id p) (pj_parent p) (pj_root_run_id p) plan step cp steps res
    (pj_created_at p) (pj_updated_at p) finished.

Definition pj_set_status st res fin p :=
  pj_set p st res fin (pj_active_plan_revision_id p) (pj_current_step_id p) (pj_checkpoint_id p) (pj_known_steps p).
Definition pj_set_plan plan p :=
  pj_set p (pj_status p) (pj_result p) (pj_finished_at p) plan (pj_current_step_id p) (pj_checkpoint_id p)
    (pj_known_steps p).
Definition pj_set_current_step step p :=
  pj_set p (pj_status p) (pj_result p) (pj_finished_at p) (pj_active_plan_revision_id p) step
    (pj_checkpoint_id p) (pj_known_steps p).
Definition pj_set_checkpoint cp p :=
  pj_set p (pj_status p) (pj_result p) (pj_finished_at p) (pj_active_plan_revision_id p) (pj_current_step_id p)
    cp (pj_known_steps p).
Definition pj_set_steps steps p :=
  pj_set p (pj_status p) (pj_result p) (pj_finished_at p) (pj_active_plan_revision_id p) (pj_current_step_id p)
    (pj_checkpoint_id p) steps.

Definition pj_set_position (v : RunVersion) (at_ : Timestamp) (p : RunProjection) : RunProjection :=
  mkProjection (pj_run_id p) (pj_workspace_id p) (pj_status p) v (pj_objective p) (pj_execution_mode p)
    (pj_coordinator_snapshot_id p) (pj_parent p) (pj_root_run_id p) (pj_active_plan_revision_id p)
    (pj_current_step_id p) (pj_checkpoint_id p) (pj_known_steps p) (pj_result p) (pj_created_at p) at_
    (pj_finished_at p).

(** The loop over [steps] of a [StepsAdded] event. *)
Fixpoint add_known_steps (steps : list RunStep) (m : gmap Z RunStep) : result ApplicationError (gmap Z RunStep) :=
  match steps with
  | [] => Ok m
  | s :: rest =>
      if is_some (m !! st_id s) then invalid else add_known_steps rest (<[st_id s := s]> m)
  end.

(** The step after a [StepStatusChanged] event at [at_]. *)
Definition replay_step (s : RunStep) (to : RunStepStatus.t) (attempt : Z) (at_ : Timestamp) : RunStep :=
  step_set s to attempt (st_error s)
    (if (to == RunStepStatus.Running) && is_none (st_started_at s) then Some at_ else st_started_at s)
    (if RunStepStatus.step_is_terminal to then Some at_ else st_finished_at s).

Definition apply_event (p : RunProjection) (e : RunEvent) : result ApplicationError RunProjection :=
  match re_payload e with
  | RunCreated _ _ _ _ => invalid
  | RunStatusChanged from to res =>
      if pj_status p !== from then invalid else
      _ ← from_domain (RunStatus.transition_to from to);
      Ok (if RunStatus.is_terminal to then pj_set_status to res (Some (re_occurred_at e)) p
          else pj_set_status to (pj_result p) (pj_finished_at p) p)
  | PlanAttached previous current =>
      if pj_active_plan_revision_id p !== previous then invalid else Ok (pj_set_plan (Some current) p)
  | StepsAdded steps =>
      m ← add_known_steps steps (pj_known_steps p);
      Ok (pj_set_steps m p)
  | StepStatusChanged step_id from to attempt =>
      s ← ok_or (pj_known_steps p !! step_id) (AppDomain InvalidArgument);
      if st_status s !== from then invalid else
      _ ← from_domain (RunStepStatus.step_transition_to from to);
      Ok (pj_set_steps (<[step_id := replay_step s to attempt (re_occurred_at e)]> (pj_known_steps p)) p)
  | CurrentStepChanged previous current =>
      if pj_current_step_id p !== previous then invalid else Ok (pj_set_current_step current p)
  | CheckpointCreated checkpoint_id _ => Ok (pj_set_checkpoint (Some checkpoint_id) p)
  | ApprovalGranted _ => Ok p
  end.

(** The loop of [replay_run]: [run_id] and [workspace_id] of the first event, the projection and
    the expected version so far. *)
Fixpoint replay_loop (run_id : AgentRunId) (ws : WorkspaceId) (p : RunProjection) (expected : RunVersion)
    (events : list RunEvent) : result ApplicationError RunProjection :=
  match events with
  | [] => Ok p
  | e :: rest =>
      if re_run_id e !== run_id then invalid else
      if re_workspace_id e !== ws then invalid else
      if negb (re_run_version e =? expected)%Z then invalid else
      p' ← apply_event p e;
      next ← from_domain (version_next expected);
      replay_loop run_id ws (pj_set_position (re_run_version e) (re_occurred_at e) p') next rest
  end.

Definition replay_run (events : list RunEvent) : result ApplicationError RunProjection :=
  match events with
  | [] => invalid
  | first :: rest =>
      match re_payload first with
      | RunCreated objective mode coordinator parent =>
          if negb (re_run_version first =? RunVersion_INITIAL)%Z then invalid else
          let p := mkProjection (re_run_id first) (re_workspace_id first) RunStatus.Created (re_run_version first)
                     objective mode coordinator parent (re_run_id first) None None None ∅ None
                     (re_occurred_at first) (re_occurred_at first) None in
          expected ← from_domain (version_next RunVersion_INITIAL);
          replay_loop (re_run_id first) (re_workspace_id first) p expected rest
      | _ => invalid
      end
  end.

(** ** Lemmas *)

(** One more event at the end of the stream is one more application: replay is incremental. *)
Definition replay_next (p : RunProjection) (e : RunEvent) : result ApplicationError RunProjection :=
  if re_run_id e !== pj_run_id p then invalid else
  if re_workspace_id e !== pj_workspace_id p then invalid else
  expected ← from_domain (version_next (pj_version p));
  if negb (re_run_version e =? expected)%Z then invalid else
  p' ← apply_event p e;
  _ ← from_domain (version_next expected);
  Ok (pj_set_position (re_run_version e) (re_occurred_at e) p').

Lemma apply_event_identity p e p' :
  apply_event p e = Ok p' ->
  pj_run_id p' = pj_run_id p /\ pj_workspace_id p' = pj_workspace_id p /\ pj_version p' = pj_version p.
Proof.
  unfold apply_event. destruct (re_payload e); intros H;
    repeat first [ discriminate H
                 | match type of H with (if ?b then _ else _) = _ => destruct b end
                 | apply bind_Ok in H as (? & ? & H) ].
  all: injection H as <-; try done. by split_match.
Qed.

Lemma from_domain_Ok {A} (r : result DomainError A) a : from_domain r = Ok a <-> r = Ok a.
Proof. apply map_err_Ok. Qed.

Lemma replay_loop_snoc p expected l e :
  version_next (pj_version p) = Ok expected ->
  replay_loop (pj_run_id p) (pj_workspace_id p) p expected (l ++ [e]) =
  (p' ← replay_loop (pj_run_id p) (pj_workspace_id p) p expected l; replay_next p' e).
Proof.
  revert p expected. induction l as [|d l IH]; intros p expected Hv; cbn [replay_loop app].
  - unfold replay_next. simpl. rewrite Hv. simpl.
    repeat (case_match; try done).
  - destruct (_ !== _); [done|]. destruct (_ !== _); [done|]. destruct (negb _) eqn:En; [done|].
    destruct (apply_event p d) as [q|] eqn:Ha; [|done]. simpl. pose proof (apply_event_identity _ _ _ Ha) as (Hr & Hw & _).
    destruct (version_next expected) as [next|] eqn:Hn; [|done]. simpl. bool_hyps.
    rewrite <-Hr, <-Hw. apply (IH (pj_set_position _ _ q)). simpl. congruence.
Qed.

Lemma replay_run_snoc l e :
  l <> [] -> replay_run (l ++ [e]) = (p ← replay_run l; replay_next p e).
Proof.
  intros Hl. destruct l as [|d l]; [done|]. simpl. destruct (re_payload d); try done.
  destruct (negb _) eqn:En; [done|]. bool_hyps. rewrite En.
  apply (replay_loop_snoc (mkProjection _ _ _ _ _ _ _ _ _ _ _ _ _ _ _ _ _)). done.
Qed.

(** The version of a projection is the number of events it was replayed from. *)
Lemma replay_run_version l p : replay_run l = Ok p -> pj_version p = Z.of_nat (length l).
Proof.
  revert p. induction l as [|e l IH] using rev_ind; intros p Hp; [done|].
  destruct (base.decide (l = [])) as [->|Hl].
  - simpl in Hp. destruct (re_payload e); try done. destruct (negb _) eqn:En; [done|]. bool_hyps.
    injection Hp as <-. done.
  - rewrite replay_run_snoc in Hp by done. apply bind_Ok in Hp as (q & Hq & Hp). apply IH in Hq.
    unfold replay_next in Hp. destruct (_ !== _); [done|]. destruct (_ !== _); [done|].
    apply bind_Ok in Hp as (v & Hv & Hp). destruct (negb _) eqn:En; [done|]. bool_hyps.
    apply bind_Ok in Hp as (q' & _ & Hp). apply bind_Ok in Hp as (v' & _ & Hp). injection Hp as <-. simpl.
    apply from_domain_Ok, version_next_Ok in Hv. rewrite length_app. simpl. lia.
Qed.
