(* ===== verification/RunPorts.v ===== *)
(** * The ports of the run engine

    [crates/vestrace-application/src/run/{ports,commands}.rs] and [context.rs]: the records the
    coordinator exchanges with its ports, and the ports themselves.

    A coordinator method is a [prog]: a tree of port calls.  Each call is atomic; between two
    calls of one method any other caller may run.  [RunStore] is the contract of the store
    behind the calls; the clock and the identifier source answer with any value. *)

From Stdlib Require Import ZArith Lia String.
From stdpp Require Import base option numbers strings pretty gmap list.
From S2P Require Import Prelude Codec Text RunStatus RunDecider AgentRun RunReplay.

(** ** Records *)

Record RequestContext : Type := mkContext {
  rc_request_id : RequestId;
  rc_correlation_id : CorrelationId;
  rc_workspace_id : WorkspaceId;
  rc_principal_id : PrincipalId;
}.

Record RunSnapshot : Type := mkSnapshot {
  sn_run : AgentRun;
  sn_steps : list RunStep;
  sn_checkpoint : option RunCheckpoint;
}.

Inductive WorkItemKind : Type :=
| KindAdvanceRun
| KindResumeRun
| KindExecuteStep (step_id : RunStepId).

#[export] Instance WorkItemKind_eq_dec : EqDecision WorkItemKind.
Proof. solve_decision. Defined.

Record WorkItem : Type := mkItem {
  it_id : WorkItemId;
  it_run_id : AgentRunId;
  it_kind : WorkItemKind;
  it_expected_run_version : RunVersion;
  it_available_at : Timestamp;
  it_idempotency_key : text;
  it_attempt : Z;
}.

#[export] Instance WorkItem_eq_dec : EqDecision WorkItem.
Proof. solve_decision. Defined.

Record CommitRun : Type := mkCommit {
  cm_run : AgentRun;
  cm_event : RunEvent;
  cm_new_steps : list RunStep;
  cm_checkpoint : option RunCheckpoint;
  cm_work_items : list WorkItem;
}.

(** ** Commands *)

Definition MAX_CONFIDENTIAL_RUN_INPUT_BYTES : Z := 32768.

(** [ConfidentialRunInput::parse]: the accepted text itself. *)
Definition confidential_parse (value : text) : result ApplicationError text :=
  if is_empty (trim value) then invalid else
  if (MAX_CONFIDENTIAL_RUN_INPUT_BYTES <? utf8_len value)%Z then invalid else Ok value.

Inductive NewRunStepInput : Type :=
| InputNone
| InputConfidential (value : text).

Record NewRunStepDto : Type := mkStepDto {
  dto_id : RunStepId;
  dto_plan_step_reference : option text;
  dto_assigned_actor : RunActorRef;
  dto_input_references : list RunReference;
  dto_input : NewRunStepInput;
}.

Record CreateRun : Type := mkCreateRun {
  cr_correlation_id : option CorrelationId;
  cr_objective : text;
  cr_coordinator_snapshot_id : AgentRuntimeSnapshotId;
  cr_execution_mode : RunExecutionMode.t;
  cr_parent : option ParentRunLink;
  cr_idempotency_key : text;
}.

Record TransitionRun : Type := mkTransitionRun {
  tr_correlation_id : option CorrelationId;
  tr_run_id : AgentRunId;
  tr_expected_version : RunVersion;
  tr_target : RunStatus.t;
  tr_result : option RunTerminalResult;
  tr_actor : RunActorRef;
  tr_causation_event_id : option RunEventId;
  tr_idempotency_key : text;
}.

Record AddRunSteps : Type := mkAddSteps {
  as_correlation_id : option CorrelationId;
  as_run_id : AgentRunId;
  as_expected_version : RunVersion;
  as_steps : list NewRunStepDto;
  as_actor : RunActorRef;
  as_idempotency_key : text;
}.

Record TransitionRunStep : Type := mkTransitionStep {
  ts_run_id : AgentRunId;
  ts_step_id : RunStepId;
  ts_expected_version : RunVersion;
  ts_target : RunStepStatus.t;
  ts_failure : option RunFailure;
  ts_actor : RunActorRef;
  ts_idempotency_key : text;
}.

Record CreateCheckpoint : Type := mkCreateCheckpoint {
  cc_run_id : AgentRunId;
  cc_expected_version : RunVersion;
  cc_payload : RunCheckpointPayloadV1;
  cc_actor : RunActorRef;
  cc_idempotency_key : text;
}.

Record PauseRun : Type := mkPauseRun {
  pr_correlation_id : option CorrelationId;
  pr_run_id : AgentRunId;
  pr_expected_version : RunVersion;
  pr_actor : RunActorRef;
  pr_idempotency_key : text;
}.

Record ResumeRun : Type := mkResumeRun {
  rr_correlation_id : option CorrelationId;
  rr_run_id : AgentRunId;
  rr_expected_version : RunVersion;
  rr_actor : RunActorRef;
  rr_idempotency_key : text;
}.

Record ApproveRun : Type := mkApproveRun {
  ap_correlation_id : option CorrelationId;
  ap_run_id : AgentRunId;
  ap_expected_version : RunVersion;
  ap_approver_id : PrincipalId;
  ap_actor : RunActorRef;
  ap_idempotency_key : text;
}.

Record CancelRun : Type := mkCancelRun {
  cn_correlation_id : option CorrelationId;
  cn_run_id : AgentRunId;
  cn_expected_version : RunVersion;
  cn_reason : option text;
  cn_actor : RunActorRef;
  cn_idempotency_key : text;
}.

(** ** Programs over the ports *)

Inductive prog (A : Type) : Type :=
| Ret (a : A)
| Now (k : Timestamp -> prog A)
| NewId (k : Uuid -> prog A)
| ReadRun (ctx : RequestContext) (id : AgentRunId) (k : result ApplicationError (option AgentRun) -> prog A)
| ReadSteps (ctx : RequestContext) (id : AgentRunId) (k : result ApplicationError (list RunStep) -> prog A)
| ReadCheckpoint (ctx : RequestContext) (id : AgentRunId)
    (k : result ApplicationError (option RunCheckpoint) -> prog A)
| Create (ctx : RequestContext) (c : CommitRun) (k : result ApplicationError unit -> prog A)
| Commit (ctx : RequestContext) (c : CommitRun) (k : result ApplicationError RunSnapshot -> prog A)
| CancelForRun (ctx : RequestContext) (id : AgentRunId) (at_ : Timestamp) (k : result ApplicationError Z -> prog A).

Arguments Ret {A} a.
Arguments Now {A} k.
Arguments NewId {A} k.
Arguments ReadRun {A} ctx id k.
Arguments ReadSteps {A} ctx id k.
Arguments ReadCheckpoint {A} ctx id k.
Arguments Create {A} ctx c k.
Arguments Commit {A} ctx c k.
Arguments CancelForRun {A} ctx id at_ k.

Fixpoint prog_bind {A B} (f : A -> prog B) (p : prog A) : prog B :=
  match p with
  | Ret a => f a
  | Now k => Now (fun x => prog_bind f (k x))
  | NewId k => NewId (fun x => prog_bind f (k x))
  | ReadRun ctx id k => ReadRun ctx id (fun x => prog_bind f (k x))
  | ReadSteps ctx id k => ReadSteps ctx id (fun x => prog_bind f (k x))
  | ReadCheckpoint ctx id k => ReadCheckpoint ctx id (fun x => prog_bind f (k x))
  | Create ctx c k => Create ctx c (fun x => prog_bind f (k x))
  | Commit ctx c k => Commit ctx c (fun x => prog_bind f (k x))
  | CancelForRun ctx id a k => CancelForRun ctx id a (fun x => prog_bind f (k x))
  end.

(** A method that may fail: [async fn ... -> Result<A, ApplicationError>]. *)
Definition M (A : Type) : Type := prog (result ApplicationError A).

#[export] Instance M_ret : MRet M := fun A a => Ret (Ok a).
#[export] Instance M_bind : MBind M :=
  fun A B f p => prog_bind (fun r => match r with Ok a => f a | Err e => Ret (Err e) end) p.

Definition pure {A} (r : result ApplicationError A) : M A := Ret r.
Definition domain {A} (r : result DomainError A) : M A := Ret (from_domain r).

Definition clock_now : M Timestamp := Now (fun t => Ret (Ok t)).
Definition new_id : M Uuid := NewId (fun u => Ret (Ok u)).

(** [correlation_id.unwrap_or_default()]: the default mints an identifier. *)
Definition unwrap_or_new (o : option Uuid) : M Uuid :=
  match o with Some u => Ret (Ok u) | None => new_id end.

(** [RunStorePort::load]: the run, then its steps, then its latest checkpoint.  The contract
    promises no common snapshot of the three, so they are separate calls. *)
Definition load (ctx : RequestContext) (id : AgentRunId) : M (option RunSnapshot) :=
  run ← (ReadRun ctx id Ret : M _);
  match run with
  | None => mret None
  | Some run =>
      steps ← (ReadSteps ctx id Ret : M _);
      cp ← (ReadCheckpoint ctx id Ret : M _);
      mret (Some (mkSnapshot run steps cp))
  end.

(** [RunStorePort::create]: the transaction, then a load of what it stored. *)
Definition store_create (ctx : RequestContext) (c : CommitRun) : M RunSnapshot :=
  _ ← (Create ctx c Ret : M _);
  loaded ← load ctx (ar_id (cm_run c));
  pure (ok_or loaded AppStorage).

(** [RunStorePort::commit]. *)
Definition store_commit (ctx : RequestContext) (c : CommitRun) : M RunSnapshot := Commit ctx c Ret.

(** [WorkQueuePort::cancel_for_run]. *)
Definition cancel_for_run (ctx : RequestContext) (id : AgentRunId) (at_ : Timestamp) : M Z :=
  CancelForRun ctx id at_ Ret.

(** [Display] of a [uuid::Uuid]. *)
Class UuidText : Type := uuid_text : Uuid -> text.

(** The hyphenated form: thirty-six characters that determine the identifier. *)
Class UuidTextOk `{!UuidText} : Prop := {
  uuid_text_length : forall u, length (uuid_text u) = 36%nat;
  uuid_text_inj : forall u v, uuid_text u = uuid_text v -> u = v;
}.

Definition deterministic_idempotency_key `{!UuidText} (run_id : AgentRunId) (v : RunVersion) (action : text) : text :=
  text_of "run:" ++ uuid_text run_id ++ text_of ":version:" ++ text_of (pretty v) ++ text_of ":action:" ++ action.
