(* ===== verification/RunCoordinator.v ===== *)
(** * The run coordinator

    [crates/vestrace-application/src/run/coordinator.rs]: every method as a program over the
    ports.  Identifiers minted by [::new()] and the clock are port calls, in source order. *)

From Stdlib Require Import ZArith Lia String.
From stdpp Require Import base option numbers strings gmap list.
From S2P Require Import Prelude Codec Text RunStatus RunDecider AgentRun RunReplay RunPorts.

Section Coordinator.
Context `{!UuidText}.

(** [RunEvent::new] with the sequence at the run version. *)
Definition event_new (ctx : RequestContext) (run_id : AgentRunId) (v : RunVersion) (actor : RunActorRef)
    (payload : RunEventPayload) (correlation : CorrelationId) (causation : option RunEventId) (at_ : Timestamp)
    : M RunEvent :=
  id ← new_id;
  domain (event_with_id id run_id (rc_workspace_id ctx) v (cursor_from_version v) actor payload correlation
            causation at_).

(** The load every method on an existing run starts with, and its version check. *)
Definition load_run (ctx : RequestContext) (id : AgentRunId) : M RunSnapshot :=
  loaded ← load ctx id;
  pure (ok_or loaded (AppDomain NotFound)).

Definition load_at (ctx : RequestContext) (id : AgentRunId) (expected : RunVersion) : M RunSnapshot :=
  snapshot ← load_run ctx id;
  if negb (ar_version (sn_run snapshot) =? expected)%Z
  then pure (Err (AppDomain (RevisionConflict expected (ar_version (sn_run snapshot)))))
  else mret snapshot.

(** [WorkItem { id: WorkItemId::new(), ..., attempt: 1 }]. *)
Definition work_item (run_id : AgentRunId) (kind : WorkItemKind) (v : RunVersion) (at_ : Timestamp) (action : text)
    : M WorkItem :=
  id ← new_id;
  mret (mkItem id run_id kind v at_ (deterministic_idempotency_key run_id v action) 1).

Definition create_run (ctx : RequestContext) (cmd : CreateRun) : M RunSnapshot :=
  at_ ← clock_now;
  run_id ← new_id;
  run ← domain (run_create (mkNewRun run_id (rc_workspace_id ctx) (cr_objective cmd)
                  (cr_coordinator_snapshot_id cmd) (cr_execution_mode cmd) (cr_parent cmd) None None) at_);
  correlation ← unwrap_or_new (cr_correlation_id cmd);
  event ← event_new ctx run_id RunVersion_INITIAL (ActorPrincipal (rc_principal_id ctx))
            (RunCreated (cr_objective cmd) (cr_execution_mode cmd) (ar_coordinator_snapshot_id run) (ar_parent run))
            correlation None at_;
  advance ← work_item run_id KindAdvanceRun RunVersion_INITIAL at_ (text_of "advance");
  store_create ctx (mkCommit run event [] None [advance]).

Definition transition_run_with (ctx : RequestContext) (cmd : TransitionRun) (extra : list WorkItem)
    : M RunSnapshot :=
  at_ ← clock_now;
  snapshot ← load_at ctx (tr_run_id cmd) (tr_expected_version cmd);
  let before := sn_run snapshot in
  let '(change, run) := run_transition before (tr_expected_version cmd) (tr_target cmd) (tr_result cmd) at_ in
  _ ← domain change;
  next_version ← domain (version_next (tr_expected_version cmd));
  correlation ← unwrap_or_new (tr_correlation_id cmd);
  event ← event_new ctx (tr_run_id cmd) next_version (tr_actor cmd)
            (RunStatusChanged (ar_status before) (tr_target cmd) (tr_result cmd))
            correlation (tr_causation_event_id cmd) at_;
  work_items ← (if (tr_target cmd == RunStatus.Running) && (ar_status before !== RunStatus.Running)
                then item ← work_item (tr_run_id cmd) KindAdvanceRun next_version at_ (text_of "advance");
                     mret (extra ++ [item])
                else mret extra);
  _ ← (if RunStatus.is_terminal (tr_target cmd) then cancel_for_run ctx (tr_run_id cmd) at_ else mret 0%Z);
  store_commit ctx (mkCommit run event [] None work_items).

Definition transition_run (ctx : RequestContext) (cmd : TransitionRun) : M RunSnapshot :=
  transition_run_with ctx cmd [].

(** The step of one [NewRunStepDto]. *)
Definition step_of_dto (run_id : AgentRunId) (at_ : Timestamp) (dto : NewRunStepDto)
    : result ApplicationError RunStep :=
  let legacy_coordinator_input :=
    match dto_assigned_actor dto with ActorAgentSnapshot _ => false | _ => true end
    && match dto_input dto with InputNone => true | InputConfidential _ => false end in
  if negb legacy_coordinator_input then Err AppUnavailable else
  from_domain (step_create (mkNewStep (dto_id dto) run_id (dto_plan_step_reference dto) (dto_assigned_actor dto)
                              (dto_input_references dto)) at_).

(** [Vec::is_empty]. *)
Definition is_nil {A} (l : list A) : bool := match l with [] => true | _ => false end.

(** [iter().map(f).collect::<Result<Vec<_>, _>>()]: the first error stops. *)
Fixpoint collect {E A B} (f : A -> result E B) (l : list A) : result E (list B) :=
  match l with
  | [] => Ok []
  | a :: l' => b ← f a; bs ← collect f l'; Ok (b :: bs)
  end.

(** The work items of the steps that wait for no input. *)
Fixpoint step_work_items (run_id : AgentRunId) (v : RunVersion) (at_ : Timestamp) (steps : list RunStep)
    : M (list WorkItem) :=
  match steps with
  | [] => mret []
  | step :: rest =>
      if negb (is_nil (st_input_references step)) then step_work_items run_id v at_ rest else
      item ← work_item run_id (KindExecuteStep (st_id step)) v at_ (text_of "step:" ++ uuid_text (st_id step));
      items ← step_work_items run_id v at_ rest;
      mret (item :: items)
  end.

Definition add_steps (ctx : RequestContext) (cmd : AddRunSteps) : M RunSnapshot :=
  at_ ← clock_now;
  snapshot ← load_at ctx (as_run_id cmd) (as_expected_version cmd);
  next_version ← domain (version_next (as_expected_version cmd));
  steps ← pure (collect (step_of_dto (as_run_id cmd) at_) (as_steps cmd));
  correlation ← unwrap_or_new (as_correlation_id cmd);
  event ← event_new ctx (as_run_id cmd) next_version (as_actor cmd) (StepsAdded steps) correlation None at_;
  let run := run_set_position next_version at_ (sn_run snapshot) in
  work_items ← step_work_items (as_run_id cmd) next_version at_ steps;
  store_commit ctx (mkCommit run event steps None work_items).

Definition find_step (steps : list RunStep) (id : RunStepId) : option RunStep :=
  List.find (fun s => st_id s == id) steps.

Definition transition_step (ctx : RequestContext) (cmd : TransitionRunStep) : M RunSnapshot :=
  at_ ← clock_now;
  snapshot ← load_at ctx (ts_run_id cmd) (ts_expected_version cmd);
  step ← pure (ok_or (find_step (sn_steps snapshot) (ts_step_id cmd)) (AppDomain NotFound));
  let '(changed, step') :=
    match ts_failure cmd with
    | Some failure => step_fail step failure at_
    | None => step_transition_to step (ts_target cmd) at_
    end in
  _ ← domain changed;
  next_version ← domain (version_next (ts_expected_version cmd));
  correlation ← new_id;
  event ← event_new ctx (ts_run_id cmd) next_version (ts_actor cmd)
            (StepStatusChanged (ts_step_id cmd) (st_status step) (st_status step') (st_attempt step'))
            correlation None at_;
  let run := run_set_position next_version at_ (sn_run snapshot) in
  store_commit ctx (mkCommit run event [step'] None []).

Definition create_checkpoint (ctx : RequestContext) (cmd : CreateCheckpoint) : M RunSnapshot :=
  at_ ← clock_now;
  snapshot ← load_at ctx (cc_run_id cmd) (cc_expected_version cmd);
  next_version ← domain (version_next (cc_expected_version cmd));
  checkpoint_id ← new_id;
  checkpoint ← domain (checkpoint_new checkpoint_id (rc_workspace_id ctx) (cc_run_id cmd) next_version
                         (ar_active_plan_revision_id (sn_run snapshot)) (cc_payload cmd) at_);
  correlation ← new_id;
  event ← event_new ctx (cc_run_id cmd) next_version (cc_actor cmd)
            (CheckpointCreated checkpoint_id (cursor_from_version next_version)) correlation None at_;
  let run := run_set_position next_version at_ (run_set_checkpoint (Some checkpoint_id) (sn_run snapshot)) in
  store_commit ctx (mkCommit run event [] (Some checkpoint) []).

Definition pause_run (ctx : RequestContext) (cmd : PauseRun) : M RunSnapshot :=
  transition_run ctx (mkTransitionRun (pr_correlation_id cmd) (pr_run_id cmd) (pr_expected_version cmd)
    RunStatus.Paused None (pr_actor cmd) None (pr_idempotency_key cmd)).

Definition resume_run (ctx : RequestContext) (cmd : ResumeRun) : M RunSnapshot :=
  next_version ← domain (version_next (rr_expected_version cmd));
  id ← new_id;
  at_ ← clock_now;
  let resume_item := mkItem id (rr_run_id cmd) KindResumeRun next_version at_
    (deterministic_idempotency_key (rr_run_id cmd) next_version (text_of "resume")) 1 in
  transition_run_with ctx (mkTransitionRun (rr_correlation_id cmd) (rr_run_id cmd) (rr_expected_version cmd)
    RunStatus.Running None (rr_actor cmd) None (rr_idempotency_key cmd)) [resume_item].

Definition approve_run (ctx : RequestContext) (cmd : ApproveRun) : M RunSnapshot :=
  snapshot ← load_run ctx (ap_run_id cmd);
  if ar_status (sn_run snapshot) !== RunStatus.WaitingForApproval then pure invalid else
  approved ← transition_run ctx (mkTransitionRun (ap_correlation_id cmd) (ap_run_id cmd) (ap_expected_version cmd)
               RunStatus.Running None (ap_actor cmd) None (ap_idempotency_key cmd));
  at_ ← clock_now;
  next_version ← domain (version_next (ar_version (sn_run approved)));
  correlation ← unwrap_or_new (ap_correlation_id cmd);
  event ← event_new ctx (ap_run_id cmd) next_version (ap_actor cmd) (ApprovalGranted (ap_approver_id cmd))
            correlation None at_;
  store_commit ctx (mkCommit (run_set_position next_version at_ (sn_run approved)) event [] None []).

Definition cancel_run (ctx : RequestContext) (cmd : CancelRun) : M RunSnapshot :=
  transition_run ctx (mkTransitionRun (cn_correlation_id cmd) (cn_run_id cmd) (cn_expected_version cmd)
    RunStatus.Cancelled (Some (ResCancelled (cn_reason cmd))) (cn_actor cmd) None (cn_idempotency_key cmd)).

End Coordinator.
