(* ===== verification/RunHandlers.v ===== *)
(** * The handlers of run work

    [crates/vestrace-application/src/run/handlers/{advance_run,execute_step,resume_run}.rs]: what
    the worker runs for each kind of work item, as programs over the same ports as the
    coordinator's methods.  The executor of an agent step ([StepModelExecutor], a trait object) is
    a parameter: a program that answers an outcome.  The text of an error is a parameter too. *)

From Stdlib Require Import ZArith Lia String.
From stdpp Require Import base option numbers strings gmap list.
From S2P Require Import Prelude Codec Text RunStatus RunDecider AgentRun RunReplay RunPorts RunCoordinator.

(** [Display] of an [ApplicationError]. *)
Class ErrorText : Type := error_text : ApplicationError -> text.

(** Timestamps count nanoseconds. *)
Definition seconds (n : Z) : Z := (n * 10 ^ 9)%Z.

Inductive RunWorkOutcome : Type :=
| Completed
| Retry (available_at : Timestamp) (error : RunFailure)
| DeadLetter (error : RunFailure)
| NoopStaleVersion.

Inductive StepModelOutcome : Type :=
| Published
| Denied (authorization_id : Uuid)
| Contended (retry_after_seconds : option Z)
| RecoveredUnknown.

Section Handlers.
Context {UT : UuidText} {ET : ErrorText}.

(** [RunEvent::new] by the system, with a new correlation. *)
Definition system_event (ctx : RequestContext) (run_id : AgentRunId) (v : RunVersion) (payload : RunEventPayload)
    (at_ : Timestamp) : M RunEvent :=
  correlation ← new_id;
  event_new ctx run_id v ActorSystem payload correlation None at_.

Definition advance_item (run_id : AgentRunId) (v : RunVersion) (at_ : Timestamp) : M WorkItem :=
  work_item run_id KindAdvanceRun v at_ (text_of "advance").

Fixpoint execute_items (run_id : AgentRunId) (v : RunVersion) (at_ : Timestamp) (ids : list RunStepId)
    : M (list WorkItem) :=
  match ids with
  | [] => mret []
  | id :: rest =>
      item ← work_item run_id (KindExecuteStep id) v at_ (text_of "step:" ++ uuid_text id);
      items ← execute_items run_id v at_ rest;
      mret (item :: items)
  end.

(** Whether an agent is responsible for the step. *)
Definition is_agent_step (actor : RunActorRef) : bool :=
  match actor with ActorAgentSnapshot _ => true | _ => false end.

(** ** Advancing a run *)

Definition pending_ready (steps : list RunStep) : list RunStepId :=
  map st_id (List.filter (fun s => negb (is_agent_step (st_assigned_actor s)) && is_nil (st_input_references s)
                                   && (st_status s == RunStepStatus.Pending)) steps).

Definition all_steps_terminal (steps : list RunStep) : bool :=
  negb (is_nil steps) && all (fun s => RunStepStatus.step_is_terminal (st_status s)) steps.

(** A status change by the system in one commit. *)
Definition prepare_run (ctx : RequestContext) (snapshot : RunSnapshot) (item : WorkItem) (nv : RunVersion)
    (at_ : Timestamp) : M RunWorkOutcome :=
  let from := ar_status (sn_run snapshot) in
  let '(change, run) := run_transition (sn_run snapshot) (it_expected_run_version item) RunStatus.Preparing None at_ in
  _ ← domain change;
  let run := run_set_position nv at_ run in
  event ← system_event ctx (ar_id run) nv (RunStatusChanged from RunStatus.Preparing None) at_;
  advance ← advance_item (ar_id run) nv at_;
  _ ← store_commit ctx (mkCommit run event [] None [advance]);
  mret Completed.

(** The status and the result a run ends with. *)
Definition final_result (steps : list RunStep) : RunStatus.t * RunTerminalResult :=
  let any_failed := any (fun s => st_status s == RunStepStatus.Failed) steps in
  let all_succeeded := all (fun s => st_status s == RunStepStatus.Succeeded) steps in
  if all_succeeded then (RunStatus.Succeeded, ResSucceeded None)
  else if any_failed
  then (RunStatus.Failed, ResFailed (text_of "step_failure") (text_of "one or more steps failed") false)
  else (RunStatus.Partial, ResPartial (text_of "some steps did not complete successfully") []).

Definition finalize_run (ctx : RequestContext) (snapshot : RunSnapshot) (item : WorkItem) (nv : RunVersion)
    (at_ : Timestamp) : M RunWorkOutcome :=
  let '(target, res) := final_result (sn_steps snapshot) in
  let from := ar_status (sn_run snapshot) in
  let '(change, run) := run_transition (sn_run snapshot) (it_expected_run_version item) target (Some res) at_ in
  _ ← domain change;
  let run := run_set_position nv at_ run in
  event ← system_event ctx (ar_id run) nv (RunStatusChanged from target (Some res)) at_;
  _ ← store_commit ctx (mkCommit run event [] None []);
  _ ← cancel_for_run ctx (ar_id (sn_run snapshot)) at_;
  mret Completed.

Definition start_run (ctx : RequestContext) (snapshot : RunSnapshot) (item : WorkItem) (nv : RunVersion)
    (at_ : Timestamp) : M RunWorkOutcome :=
  let from := ar_status (sn_run snapshot) in
  let '(change, run) := run_transition (sn_run snapshot) (it_expected_run_version item) RunStatus.Running None at_ in
  _ ← domain change;
  let run := run_set_position nv at_ run in
  event ← system_event ctx (ar_id run) nv (RunStatusChanged from RunStatus.Running None) at_;
  if all_steps_terminal (sn_steps snapshot) then finalize_run ctx snapshot item nv at_ else
  items ← execute_items (ar_id run) nv at_ (pending_ready (sn_steps snapshot));
  advance ← advance_item (ar_id run) nv at_;
  _ ← store_commit ctx (mkCommit run event [] None (items ++ [advance]));
  mret Completed.

Definition advance_running_run (ctx : RequestContext) (snapshot : RunSnapshot) (item : WorkItem) (nv : RunVersion)
    (at_ : Timestamp) : M RunWorkOutcome :=
  let run := sn_run snapshot in
  if all_steps_terminal (sn_steps snapshot) then finalize_run ctx snapshot item nv at_ else
  if is_nil (pending_ready (sn_steps snapshot)) then mret Completed else
  items ← execute_items (ar_id run) nv at_ (pending_ready (sn_steps snapshot));
  event ← system_event ctx (ar_id run) nv
            (CurrentStepChanged (ar_current_step_id run) (head (pending_ready (sn_steps snapshot)))) at_;
  _ ← store_commit ctx (mkCommit (run_set_position nv at_ run) event [] None items);
  mret Completed.

Definition handle_advance (ctx : RequestContext) (snapshot : RunSnapshot) (item : WorkItem) : M RunWorkOutcome :=
  at_ ← clock_now;
  nv ← domain (version_next (it_expected_run_version item));
  match ar_status (sn_run snapshot) with
  | RunStatus.Created => prepare_run ctx snapshot item nv at_
  | RunStatus.Preparing => start_run ctx snapshot item nv at_
  | RunStatus.Running => advance_running_run ctx snapshot item nv at_
  | _ => mret Completed
  end.

(** ** Resuming a run *)

Definition handle_resume (ctx : RequestContext) (snapshot : RunSnapshot) (item : WorkItem) : M RunWorkOutcome :=
  if negb (RunStatus.can_resume (ar_status (sn_run snapshot))) then mret Completed else
  at_ ← clock_now;
  nv ← domain (version_next (it_expected_run_version item));
  let from := ar_status (sn_run snapshot) in
  let '(change, run) := run_transition (sn_run snapshot) (it_expected_run_version item) RunStatus.Running None at_ in
  _ ← domain change;
  let run := run_set_position nv at_ run in
  event ← system_event ctx (ar_id (sn_run snapshot)) nv (RunStatusChanged from RunStatus.Running None) at_;
  advance ← advance_item (ar_id (sn_run snapshot)) nv at_;
  _ ← store_commit ctx (mkCommit run event [] None [advance]);
  mret Completed.

(** ** Executing a step *)

Definition CONTENDED_DISPATCH_RETRY_SECONDS : Z := 5.

(** [step.status = ...] with its times, as the handler writes them. *)
Definition step_put (s : RunStep) (status : RunStepStatus.t) (err : option RunFailure)
    (started finished : option Timestamp) : RunStep :=
  step_set s status (st_attempt s) err started finished.

(** The commit that ends a step: [complete_step] and [fail_step]. *)
Definition end_step (ctx : RequestContext) (run : AgentRun) (step : RunStep) (status : RunStepStatus.t)
    (err : option RunFailure) : M RunWorkOutcome :=
  at_ ← clock_now;
  v ← domain (version_next (ar_version run));
  let ended := step_put step status err (st_started_at step) (Some at_) in
  event ← system_event ctx (ar_id run) v (StepStatusChanged (st_id step) (st_status step) status (st_attempt step)) at_;
  advance ← advance_item (ar_id run) v at_;
  _ ← store_commit ctx (mkCommit (run_set_position v at_ run) event [ended] None [advance]);
  mret Completed.

Definition complete_step (ctx : RequestContext) (run : AgentRun) (step : RunStep) : M RunWorkOutcome :=
  end_step ctx run step RunStepStatus.Succeeded (st_error step).

Definition fail_step (ctx : RequestContext) (run : AgentRun) (step : RunStep) (failure : RunFailure)
    : M RunWorkOutcome :=
  end_step ctx run step RunStepStatus.Failed (Some failure).

Definition contended_failure : RunFailure :=
  mkFailure (text_of "provider_dispatch_contended")
    (text_of "this step's provider dispatch could not be admitted yet; nothing was called and it will be attempted again")
    true.

Definition unconfigured_failure : RunFailure :=
  mkFailure (text_of "model_executor_unconfigured")
    (text_of "the step is assigned to an agent but no model executor is configured, so it was not performed") false.

(** What the handler makes of the executor's answer. *)
Definition settle_model_step (ctx : RequestContext) (run : AgentRun) (step : RunStep) (at_ : Timestamp)
    (outcome : result ApplicationError StepModelOutcome) : M RunWorkOutcome :=
  match outcome with
  | Ok Published => mret Completed
  | Ok (Denied id) =>
      fail_step ctx run step
        (mkFailure (text_of "provider_dispatch_denied")
           (text_of "policy refused this step's provider dispatch; the decision is recorded as " ++ uuid_text id) false)
  | Ok (Contended retry_after) =>
      mret (Retry (at_ + seconds (match retry_after with Some n => n | None => CONTENDED_DISPATCH_RETRY_SECONDS end))%Z
              contended_failure)
  | Ok RecoveredUnknown =>
      fail_step ctx run step
        (mkFailure (text_of "provider_dispatch_unknown")
           (text_of ("a provider dispatch for this step left the process and its outcome could not be established; "
                     +:+ "it was adopted as unknown and will not be called again")) false)
  | Err e =>
      fail_step ctx run step
        (mkFailure (text_of "model_invocation_failed") (error_text e)
           (match e with AppUnavailable => true | _ => false end))
  end.

Definition handle_execute (executor : option (RequestContext -> AgentRunId -> RunStepId -> M StepModelOutcome))
    (ctx : RequestContext) (snapshot : RunSnapshot) (item : WorkItem) : M RunWorkOutcome :=
  match it_kind item with
  | KindExecuteStep step_id =>
      step ← pure (ok_or (find_step (sn_steps snapshot) step_id) AppInternal);
      if RunStepStatus.step_is_terminal (st_status step) then mret Completed else
      at_ ← clock_now;
      v ← domain (version_next (it_expected_run_version item));
      let running := step_put step RunStepStatus.Running (st_error step) (Some at_) (st_finished_at step) in
      let run := run_set_current_step (Some step_id) (run_set_position v at_ (sn_run snapshot)) in
      event ← system_event ctx (ar_id run) v
                (StepStatusChanged step_id (st_status step) RunStepStatus.Running (st_attempt running)) at_;
      advance ← advance_item (ar_id run) v at_;
      _ ← store_commit ctx (mkCommit run event [running] None [advance]);
      if negb (is_agent_step (st_assigned_actor running)) then complete_step ctx run running else
      match executor with
      | None => fail_step ctx run running unconfigured_failure
      | Some execute =>
          prog_bind (settle_model_step ctx run running at_) (execute ctx (ar_id run) (st_id running))
      end
  | _ => mret Completed
  end.

End Handlers.
