(* ===== verification/RunStore.v ===== *)
(** * The contract of the run store

    [RunStorePort] and [WorkQueuePort::cancel_for_run] of
    [crates/vestrace-application/src/run/ports.rs]: what the coordinator relies on.  [RunStore]
    is the operations, [RunStoreOk] their laws.  A transaction that fails leaves the store as it
    was, so [sp_create] and [sp_commit] return the new store or an error. *)

From Stdlib Require Import ZArith Lia String.
From stdpp Require Import base option numbers strings gmap list.
From S2P Require Import Prelude Codec Text RunStatus RunDecider AgentRun RunReplay RunPorts.

Class RunStore (S : Type) : Type := {
  sp_empty : S;
  sp_run : S -> WorkspaceId -> AgentRunId -> result ApplicationError (option AgentRun);
  sp_steps : S -> WorkspaceId -> AgentRunId -> result ApplicationError (list RunStep);
  sp_checkpoint : S -> WorkspaceId -> AgentRunId -> result ApplicationError (option RunCheckpoint);
  sp_events : S -> WorkspaceId -> AgentRunId -> list RunEvent;
  sp_create : S -> RequestContext -> CommitRun -> result ApplicationError S;
  sp_commit : S -> RequestContext -> CommitRun -> result ApplicationError S;
  sp_cancel : S -> RequestContext -> AgentRunId -> Timestamp -> Z * S;
}.

(** The steps of a run by identifier; the first of two entries with one identifier counts. *)
Definition steps_map (l : list RunStep) : gmap Z RunStep :=
  foldr (fun s m => <[st_id s := s]> m) ∅ l.

(** What a [TIMESTAMPTZ] column keeps of a [DateTime<Utc>], both in nanoseconds: the driver sends the
    whole microseconds since the start of the year 2000, rounded towards it. *)
Definition PG_EPOCH : Z := 946684800 * 10 ^ 9.
Definition to_timestamptz (t : Timestamp) : Timestamp := (PG_EPOCH + 1000 * Z.quot (t - PG_EPOCH) 1000)%Z.

Lemma to_timestamptz_idemp t : to_timestamptz (to_timestamptz t) = to_timestamptz t.
Proof.
  unfold to_timestamptz. generalize (Z.quot (t - PG_EPOCH) 1000). intros q.
  replace (PG_EPOCH + 1000 * q - PG_EPOCH)%Z with (q * 1000)%Z by lia. by rewrite Z.quot_mul.
Qed.

(** A column that is read back and written again. *)
Lemma to_timestamptz_again (o : option Timestamp) : to_timestamptz <$> (to_timestamptz <$> o) = to_timestamptz <$> o.
Proof. destruct o as [t|]; simpl; [|done]. by rewrite to_timestamptz_idemp. Qed.

(** What a commit changes of a stored run: the other fields keep their stored value. *)
Definition run_merge (old new : AgentRun) : AgentRun :=
  mkRun (ar_id old) (ar_workspace_id old) (ar_objective old) (ar_coordinator_snapshot_id old)
    (ar_active_plan_revision_id new) (ar_execution_mode old) (ar_status new) (ar_current_step_id new)
    (ar_checkpoint_id new) (ar_parent old) (ar_root_run_id old) (ar_budget_snapshot_id old)
    (ar_resource_usage_snapshot_id old) (ar_version new) (ar_result new) (ar_created_at old)
    (to_timestamptz (ar_updated_at new)) (to_timestamptz <$> ar_finished_at new).

(** What is stored of a new run. *)
Definition run_inserted (r : AgentRun) : AgentRun :=
  mkRun (ar_id r) (ar_workspace_id r) (ar_objective r) (ar_coordinator_snapshot_id r) None (ar_execution_mode r)
    (ar_status r) None None (ar_parent r) (ar_root_run_id r) None None (ar_version r) None
    (to_timestamptz (ar_created_at r)) (to_timestamptz (ar_created_at r)) None.

(** A step as its row keeps it. *)
Definition step_stored (s : RunStep) : RunStep :=
  mkStep (st_id s) (st_run_id s) (st_plan_step_reference s) (st_assigned_actor s) (st_input_references s)
    (st_status s) (st_attempt s) (st_output_references s) (st_error s) (to_timestamptz (st_created_at s))
    (to_timestamptz <$> st_started_at s) (to_timestamptz <$> st_finished_at s).

(** An event as its row keeps it: [occurred_at] is a column, the times in the payload are text, and
    an event that no event caused names itself as its cause. *)
Definition event_stored (e : RunEvent) : RunEvent :=
  mkEvent (re_id e) (re_workspace_id e) (re_run_id e) (re_sequence e) (re_run_version e) (re_actor e) (re_payload e)
    (re_correlation_id e) (Some (match re_causation_event_id e with Some id => id | None => re_id e end))
    (to_timestamptz (re_occurred_at e)).

(** An upsert of a step: a stored step keeps its origin and takes the new progress. *)
Definition step_merge (old new : RunStep) : RunStep :=
  mkStep (st_id old) (st_run_id old) (st_plan_step_reference old) (st_assigned_actor old) (st_input_references old)
    (st_status new) (st_attempt new) (st_output_references new) (st_error new) (st_created_at old)
    (to_timestamptz <$> st_started_at new) (to_timestamptz <$> st_finished_at new).

Definition upsert (m : gmap Z RunStep) (s : RunStep) : gmap Z RunStep :=
  <[st_id s := match m !! st_id s with Some old => step_merge old s | None => step_stored s end]> m.

Definition upsert_all (l : list RunStep) (m : gmap Z RunStep) : gmap Z RunStep := foldl upsert m l.

Definition i64_max : Z := 2 ^ 63 - 1.

(** The workspace and the identifier a context and a commit address. *)
Definition key_of (ctx : RequestContext) (id : AgentRunId) : Z * Z := (rc_workspace_id ctx, id).

Section Views.
Context {St : Type} `{!RunStore St}.

(** The run and steps stored under a key. *)
Definition stored (s : St) (k : Z * Z) : option (AgentRun * gmap Z RunStep) :=
  match sp_run s k.1 k.2, sp_steps s k.1 k.2 with
  | Ok (Some r), Ok l => Some (r, steps_map l)
  | _, _ => None
  end.

Definition stored_steps (s : St) (k : Z * Z) : gmap Z RunStep :=
  match sp_steps s k.1 k.2 with Ok l => steps_map l | Err _ => ∅ end.

Definition events (s : St) (k : Z * Z) : list RunEvent := sp_events s k.1 k.2.

(** A step of the commit is a stored step of its run, or a new one that names the run. *)
Definition owns_steps (s : St) (k : Z * Z) (c : CommitRun) : Prop :=
  forall st, st ∈ cm_new_steps c ->
    (st_run_id st = k.2 \/ is_Some (stored_steps s k !! st_id st)) /\
    forall k', k' <> k -> stored_steps s k' !! st_id st = None.

(** The snapshot a committed transaction returns. *)
Definition snapshot_of (s : St) (k : Z * Z) : result ApplicationError RunSnapshot :=
  run ← sp_run s k.1 k.2;
  run ← ok_or run AppStorage;
  steps ← sp_steps s k.1 k.2;
  cp ← sp_checkpoint s k.1 k.2;
  Ok (mkSnapshot run steps cp).

End Views.

Class RunStoreOk (St : Type) `{RunStore St} : Type := {
  (** The stores that operations on an empty store lead to. *)
  sp_wf : St -> Prop;
  sp_empty_wf : sp_wf sp_empty;
  sp_empty_ok k : stored sp_empty k = None /\ stored_steps sp_empty k = ∅ /\ events sp_empty k = [];
  sp_create_wf s ctx c s' : sp_wf s -> sp_create s ctx c = Ok s' ->
    owns_steps s (key_of ctx (ar_id (cm_run c))) c -> sp_wf s';
  sp_commit_wf s ctx c s' : sp_wf s -> sp_commit s ctx c = Ok s' ->
    owns_steps s (key_of ctx (ar_id (cm_run c))) c -> sp_wf s';
  sp_cancel_wf s ctx id at_ : sp_wf s -> sp_wf (sp_cancel s ctx id at_).2;

  sp_run_total s (k : Z * Z) : sp_wf s -> exists o, sp_run s k.1 k.2 = Ok o;
  sp_steps_total s (k : Z * Z) : sp_wf s -> exists l, sp_steps s k.1 k.2 = Ok l;
  sp_run_key s (k : Z * Z) r : sp_wf s -> sp_run s k.1 k.2 = Ok (Some r) ->
    ar_workspace_id r = k.1 /\ ar_id r = k.2 /\ (1 <= ar_version r <= i64_max)%Z;
  (** A step belongs to one run, and to a run that is stored. *)
  sp_steps_one_run s (k k' : Z * Z) sid : sp_wf s -> k <> k' ->
    stored_steps s k !! sid = None \/ stored_steps s k' !! sid = None;
  sp_steps_stored s (k : Z * Z) : sp_wf s -> sp_run s k.1 k.2 = Ok None -> stored_steps s k = ∅;

  sp_create_ok s ctx c s' (k := key_of ctx (ar_id (cm_run c))) :
    sp_wf s -> sp_create s ctx c = Ok s' -> ar_workspace_id (cm_run c) = rc_workspace_id ctx ->
    re_workspace_id (cm_event c) = rc_workspace_id ctx -> re_run_id (cm_event c) = ar_id (cm_run c) ->
    owns_steps s k c ->
    stored s k = None /\
    stored s' k = Some (run_inserted (cm_run c), upsert_all (cm_new_steps c) ∅) /\
    events s' k = events s k ++ [event_stored (cm_event c)] /\
    (forall k', k' <> k -> stored s' k' = stored s k' /\ events s' k' = events s k');
  (** A commit applies only to the version before its own. *)
  sp_commit_cas s ctx c s' : sp_wf s -> sp_commit s ctx c = Ok s' ->
    exists r steps, stored s (key_of ctx (ar_id (cm_run c))) = Some (r, steps) /\
      version_previous (ar_version (cm_run c)) = Ok (ar_version r);
  sp_commit_ok s ctx c s' (k := key_of ctx (ar_id (cm_run c))) :
    sp_wf s -> sp_commit s ctx c = Ok s' ->
    re_workspace_id (cm_event c) = rc_workspace_id ctx -> re_run_id (cm_event c) = ar_id (cm_run c) ->
    owns_steps s k c ->
    exists r steps, stored s k = Some (r, steps) /\
      stored s' k = Some (run_merge r (cm_run c), upsert_all (cm_new_steps c) steps) /\
      events s' k = events s k ++ [event_stored (cm_event c)] /\
      (forall k', k' <> k -> stored s' k' = stored s k' /\ events s' k' = events s k');
  (** An accepted commit can be read back. *)
  sp_commit_snapshot s ctx c s' : sp_wf s -> sp_commit s ctx c = Ok s' ->
    exists snap, snapshot_of s' (key_of ctx (ar_id (cm_run c))) = Ok snap;
  sp_cancel_ok s ctx id at_ k : sp_wf s ->
    stored (sp_cancel s ctx id at_).2 k = stored s k /\ events (sp_cancel s ctx id at_).2 k = events s k;
}.
