(* ===== verification/RunConcurrency.v ===== *)
(** * Concurrent callers of the run store

    Any number of requests run against one store; their port calls interleave.  A call may fail
    with a storage error before it takes effect, and an effective [create] or [commit] may lose
    its answer.  A caller that stops is one that takes no further step.

    [wp] is a precondition calculus for one program under interference: what a program has read
    stays known through a history of the versions every run has had, and a commit must extend
    the version it was computed from. *)

From Stdlib Require Import ZArith Lia String.
From stdpp Require Import base option numbers strings gmap list.
From S2P Require Import Prelude Codec Text RunStatus RunDecider AgentRun RunReplay RunPorts.
From S2P Require Import RunStore.

(** ** Steps of one caller *)

Section Steps.
Context {St : Type} `{!RunStore St}.

Inductive call_step {A : Type} : St -> prog A -> St -> prog A -> Prop :=
| call_now s k t : call_step s (Now k) s (k t)
| call_new_id s k u : call_step s (NewId k) s (k u)
| call_read_run s ctx id k : call_step s (ReadRun ctx id k) s (k (sp_run s (rc_workspace_id ctx) id))
| call_read_steps s ctx id k : call_step s (ReadSteps ctx id k) s (k (sp_steps s (rc_workspace_id ctx) id))
| call_read_checkpoint s ctx id k :
    call_step s (ReadCheckpoint ctx id k) s (k (sp_checkpoint s (rc_workspace_id ctx) id))
| call_create s ctx c k s' : sp_create s ctx c = Ok s' -> call_step s (Create ctx c k) s' (k (Ok tt))
| call_create_err s ctx c k e : sp_create s ctx c = Err e -> call_step s (Create ctx c k) s (k (Err e))
| call_create_lost s ctx c k s' : sp_create s ctx c = Ok s' -> call_step s (Create ctx c k) s' (k (Err AppStorage))
| call_commit s ctx c k s' snap : sp_commit s ctx c = Ok s' ->
    snapshot_of s' (key_of ctx (ar_id (cm_run c))) = Ok snap -> call_step s (Commit ctx c k) s' (k (Ok snap))
| call_commit_err s ctx c k e : sp_commit s ctx c = Err e -> call_step s (Commit ctx c k) s (k (Err e))
| call_commit_lost s ctx c k s' : sp_commit s ctx c = Ok s' -> call_step s (Commit ctx c k) s' (k (Err AppStorage))
| call_cancel s ctx id at_ k :
    call_step s (CancelForRun ctx id at_ k) (sp_cancel s ctx id at_).2 (k (Ok (sp_cancel s ctx id at_).1))
(** A storage failure that leaves the store as it was. *)
| fault_read_run s ctx id k : call_step s (ReadRun ctx id k) s (k (Err AppStorage))
| fault_read_steps s ctx id k : call_step s (ReadSteps ctx id k) s (k (Err AppStorage))
| fault_read_checkpoint s ctx id k : call_step s (ReadCheckpoint ctx id k) s (k (Err AppStorage))
| fault_create s ctx c k : call_step s (Create ctx c k) s (k (Err AppStorage))
| fault_commit s ctx c k : call_step s (Commit ctx c k) s (k (Err AppStorage))
| fault_cancel s ctx id at_ k : call_step s (CancelForRun ctx id at_ k) s (k (Err AppStorage)).

(** One caller alone: the clock answers [t], identifiers count from [n], and the commits that
    [faults] marks fail before they take effect. *)
Fixpoint exec {A : Type} (faults : list bool) (t : Timestamp) (n : Z) (s : St) (p : prog A) : A * Z * St :=
  match p with
  | Ret a => (a, n, s)
  | Now k => exec faults t n s (k t)
  | NewId k => exec faults t (n + 1) s (k n)
  | ReadRun ctx id k => exec faults t n s (k (sp_run s (rc_workspace_id ctx) id))
  | ReadSteps ctx id k => exec faults t n s (k (sp_steps s (rc_workspace_id ctx) id))
  | ReadCheckpoint ctx id k => exec faults t n s (k (sp_checkpoint s (rc_workspace_id ctx) id))
  | Create ctx c k =>
      match sp_create s ctx c with
      | Ok s' => exec faults t n s' (k (Ok tt))
      | Err e => exec faults t n s (k (Err e))
      end
  | Commit ctx c k =>
      match faults with
      | true :: faults' => exec faults' t n s (k (Err AppStorage))
      | _ =>
          match sp_commit s ctx c with
          | Ok s' =>
              match snapshot_of s' (key_of ctx (ar_id (cm_run c))) with
              | Ok snap => exec (tail faults) t n s' (k (Ok snap))
              | Err _ => exec (tail faults) t n s' (k (Err AppStorage))
              end
          | Err e => exec (tail faults) t n s (k (Err e))
          end
      end
  | CancelForRun ctx id at_ k => exec faults t n (sp_cancel s ctx id at_).2 (k (Ok (sp_cancel s ctx id at_).1))
  end.

(** A caller's run alone is a sequence of its steps. *)
Lemma exec_steps {A : Type} faults t n s (p : prog A) a n' s' :
  exec faults t n s p = (a, n', s') -> rtc (fun x y => call_step x.1 x.2 y.1 y.2) (s, p) (s', Ret a).
Proof.
  assert (Hcons : forall s1 (p1 : prog A) s2 p2 s3 p3, call_step s1 p1 s2 p2 ->
    rtc (fun x y : St * prog A => call_step x.1 x.2 y.1 y.2) (s2, p2) (s3, p3) ->
    rtc (fun x y : St * prog A => call_step x.1 x.2 y.1 y.2) (s1, p1) (s3, p3)).
  { intros s1 p1 s2 p2 s3 p3 H1 H2. eapply rtc_l; [|exact H2]. done. }
  revert faults n s. induction p; intros faults n s H0; simpl in H0.
  - injection H0 as <- <- <-. constructor.
  - eapply Hcons; [constructor|eauto].
  - eapply Hcons; [constructor|eauto].
  - eapply Hcons; [constructor|eauto].
  - eapply Hcons; [constructor|eauto].
  - eapply Hcons; [constructor|eauto].
  - destruct (sp_create s ctx c) eqn:E; (eapply Hcons; [by constructor|eauto]).
  - destruct faults as [|[] faults]; [|eapply Hcons; [by apply fault_commit|eauto]|];
      (destruct (sp_commit s ctx c) eqn:E; [|eapply Hcons; [by constructor|eauto]];
       destruct (snapshot_of _ _) eqn:E'; (eapply Hcons; [|eauto]; [by econstructor || by eapply call_commit_lost])).
  - eapply Hcons; [constructor|eauto].
Qed.

(** A caller up to the first call that changes the store. *)
Fixpoint to_write {A : Type} (t : Timestamp) (n : Z) (s : St) (p : prog A) : prog A :=
  match p with
  | Now k => to_write t n s (k t)
  | NewId k => to_write t (n + 1) s (k n)
  | ReadRun ctx id k => to_write t n s (k (sp_run s (rc_workspace_id ctx) id))
  | ReadSteps ctx id k => to_write t n s (k (sp_steps s (rc_workspace_id ctx) id))
  | ReadCheckpoint ctx id k => to_write t n s (k (sp_checkpoint s (rc_workspace_id ctx) id))
  | _ => p
  end.

Lemma to_write_steps {A : Type} t n s (p : prog A) :
  rtc (fun x y => call_step x.1 x.2 y.1 y.2) (s, p) (s, to_write t n s p).
Proof.
  revert n. induction p; intros n; simpl; try done; (eapply rtc_l; [|eauto]; simpl; constructor).
Qed.

End Steps.

(** ** What replay preserves *)

(** A replayed step and the stored one: replay does not know the failure, takes the time the step
    was created at from the text of the event, to the nanosecond, and a repeated terminal status
    gives the replayed step a later finishing time. *)
Record step_agrees (a b : RunStep) : Prop := {
  sa_id : st_id a = st_id b;
  sa_run_id : st_run_id a = st_run_id b;
  sa_reference : st_plan_step_reference a = st_plan_step_reference b;
  sa_actor : st_assigned_actor a = st_assigned_actor b;
  sa_inputs : st_input_references a = st_input_references b;
  sa_status : st_status a = st_status b;
  sa_attempt : st_attempt a = st_attempt b;
  sa_outputs : st_output_references a = st_output_references b;
  sa_created : to_timestamptz (st_created_at a) = st_created_at b;
  sa_started : st_started_at a = st_started_at b;
  sa_started_whole : to_timestamptz <$> st_started_at b = st_started_at b;
  sa_finished : is_some (st_finished_at a) = RunStepStatus.step_is_terminal (st_status a);
  sa_finished' : is_some (st_finished_at b) = RunStepStatus.step_is_terminal (st_status b);
}.

Definition steps_agree (m m' : gmap Z RunStep) : Prop :=
  forall id, match m !! id, m' !! id with
             | Some a, Some b => step_agrees a b
             | None, None => True
             | _, _ => False
             end.

(** The projection of a run's events and the stored run. *)
Record agrees (p : RunProjection) (r : AgentRun) (steps : gmap Z RunStep) : Prop := {
  ag_run_id : pj_run_id p = ar_id r;
  ag_workspace_id : pj_workspace_id p = ar_workspace_id r;
  ag_status : pj_status p = ar_status r;
  ag_version : pj_version p = ar_version r;
  ag_objective : trim (pj_objective p) = ar_objective r;
  ag_mode : pj_execution_mode p = ar_execution_mode r;
  ag_coordinator : pj_coordinator_snapshot_id p = ar_coordinator_snapshot_id r;
  ag_parent : pj_parent p = ar_parent r;
  ag_root : pj_root_run_id p = ar_root_run_id r;
  ag_plan : pj_active_plan_revision_id p = ar_active_plan_revision_id r;
  ag_current_step : pj_current_step_id p = ar_current_step_id r;
  ag_checkpoint : pj_checkpoint_id p = ar_checkpoint_id r;
  ag_result : pj_result p = ar_result r;
  ag_created : pj_created_at p = ar_created_at r;
  ag_updated : pj_updated_at p = ar_updated_at r;
  ag_finished : pj_finished_at p = ar_finished_at r;
  ag_finished_whole : to_timestamptz <$> ar_finished_at r = ar_finished_at r;
  ag_steps : steps_agree (pj_known_steps p) steps;
}.

(** ** Programs under interference *)

(** The run and steps every run had at each of its versions. *)
Abbreviation history := (gmap (Z * Z * Z) (AgentRun * gmap Z RunStep)).

Definition version_at (H : history) (k : Z * Z) (v : Z) : option (AgentRun * gmap Z RunStep) := H !! (k, v).

Definition record_at (k : Z * Z) (v : Z) (x : AgentRun * gmap Z RunStep) (H : history) : history :=
  <[(k, v) := x]> H.

Definition known_run (H : history) (k : Z * Z) (r : AgentRun) : Prop :=
  ar_workspace_id r = k.1 /\ ar_id r = k.2 /\ (1 <= ar_version r)%Z /\ exists steps, version_at H k (ar_version r) = Some (r, steps).

Definition read_run_ok (H : history) (k : Z * Z) (x : result ApplicationError (option AgentRun)) : Prop :=
  match x with Ok (Some r) => known_run H k r | _ => True end.

Definition read_steps_ok (H : history) (k : Z * Z) (x : result ApplicationError (list RunStep)) : Prop :=
  match x with
  | Ok l => forall v, is_Some (version_at H k v) ->
      exists v' r', (v <= v')%Z /\ version_at H k v' = Some (r', steps_map l)
  | Err _ => True
  end.

Definition commit_ok (H : history) (k : Z * Z) (x : result ApplicationError RunSnapshot) : Prop :=
  match x with Ok snap => known_run H k (sn_run snap) | Err _ => True end.

(** The creation event determines the run that is inserted with it. *)
Definition creates (ctx : RequestContext) (c : CommitRun) : Prop :=
  ar_workspace_id (cm_run c) = rc_workspace_id ctx /\
  re_workspace_id (cm_event c) = rc_workspace_id ctx /\ re_run_id (cm_event c) = ar_id (cm_run c) /\
  cm_new_steps c = [] /\
  exists p, replay_run [event_stored (cm_event c)] = Ok p /\ agrees p (run_inserted (cm_run c)) ∅.

(** The commit's event takes a projection of the old run to one of the new run. *)
Definition derives (own : gset Z) (r : AgentRun) (steps : gmap Z RunStep) (c : CommitRun) : Prop :=
  (forall st, st ∈ cm_new_steps c ->
     (st_id st ∈ own /\ st_run_id st = ar_id (cm_run c)) \/ is_Some (steps !! st_id st)) /\
  ((forall sid, sid ∈ own -> steps !! sid = None) ->
   (ar_version (cm_run c) <= i64_max)%Z ->
   forall p, agrees p r steps ->
     exists p', replay_next p (event_stored (cm_event c)) = Ok p' /\
       agrees p' (run_merge r (cm_run c)) (upsert_all (cm_new_steps c) steps)).

Definition valid_commit (own : gset Z) (H : history) (ctx : RequestContext) (c : CommitRun) : Prop :=
  let k := key_of ctx (ar_id (cm_run c)) in
  re_workspace_id (cm_event c) = rc_workspace_id ctx /\ re_run_id (cm_event c) = ar_id (cm_run c) /\
  exists v, version_previous (ar_version (cm_run c)) = Ok v /\
    ((exists v', (v < v')%Z /\ is_Some (version_at H k v')) \/
     exists r steps, version_at H k v = Some (r, steps) /\ derives own r steps c).

(** [own] are the step identifiers reserved for the program. *)
Fixpoint wp {A : Type} (own : gset Z) (H : history) (p : prog A) (Q : gset Z -> history -> A -> Prop) : Prop :=
  match p with
  | Ret a => Q own H a
  | Now k | NewId k => forall x, wp own H (k x) Q
  | ReadRun ctx id k =>
      forall H' x, H ⊆ H' -> read_run_ok H' (key_of ctx id) x -> wp own H' (k x) Q
  | ReadSteps ctx id k =>
      forall H' x, H ⊆ H' -> read_steps_ok H' (key_of ctx id) x -> wp own H' (k x) Q
  | ReadCheckpoint ctx id k => forall x, wp own H (k x) Q
  | Create ctx c k => creates ctx c /\ forall H' x, H ⊆ H' -> wp own H' (k x) Q
  | Commit ctx c k =>
      valid_commit own H ctx c /\
      forall H' x, H ⊆ H' -> commit_ok H' (key_of ctx (ar_id (cm_run c))) x -> wp ∅ H' (k x) Q
  | CancelForRun ctx id at_ k => forall x, wp own H (k x) Q
  end.

Definition safe {A : Type} (own : gset Z) (H : history) (p : prog A) : Prop := wp own H p (fun _ _ _ => True).

Implicit Types (H : history) (own : gset Z).

Lemma wp_bind {A B : Type} own H (p : prog A) (f : A -> prog B) Q :
  wp own H p (fun own' H' a => wp own' H' (f a) Q) -> wp own H (prog_bind f p) Q.
Proof. revert own H. induction p; simpl; naive_solver. Qed.

Lemma wp_mono {A : Type} own H (p : prog A) (Q Q' : gset Z -> history -> A -> Prop) :
  (forall own' H' (a : A), H ⊆ H' -> Q own' H' a -> Q' own' H' a) -> wp own H p Q -> wp own H p Q'.
Proof.
  revert own H. induction p as [a|k IH|k IH|ctx id k IH|ctx id k IH|ctx id k IH|ctx c k IH|ctx c k IH|ctx id t k IH];
    simpl; intros own H HQ.
  - by apply HQ.
  - intros Hw x. eapply IH; eauto.
  - intros Hw x. eapply IH; eauto.
  - intros Hw H' x Hs Hr. eapply IH; [|by apply Hw]. intros. apply HQ; [by etrans|done].
  - intros Hw H' x Hs Hr. eapply IH; [|by apply Hw]. intros. apply HQ; [by etrans|done].
  - intros Hw x. eapply IH; eauto.
  - intros [Hc Hw]. split; [done|]. intros H' x Hs. eapply IH; [|by apply Hw]. intros. apply HQ; [by etrans|done].
  - intros [Hc Hw]. split; [done|]. intros H' x Hs Hr. eapply IH; [|by apply Hw].
    intros. apply HQ; [by etrans|done].
  - intros Hw x. eapply IH; eauto.
Qed.

Lemma version_at_extend H H' k v x : H ⊆ H' -> version_at H k v = Some x -> version_at H' k v = Some x.
Proof. intros Hs Hx. by eapply lookup_weaken. Qed.

Lemma valid_commit_extend own H H' ctx c : H ⊆ H' -> valid_commit own H ctx c -> valid_commit own H' ctx c.
Proof.
  intros Hs (Hw & Hi & v & Hv & [(v' & Hlt & [x Hx])|(r & steps & Hr & Hd)]); split_and!; try done; exists v;
    (split; [done|]).
  - left. exists v'. split; [done|]. exists x. by eapply version_at_extend.
  - right. exists r, steps. split; [by eapply version_at_extend|done].
Qed.

(** Other callers only extend the history. *)
Lemma safe_extend {A : Type} own H H' (p : prog A) : H ⊆ H' -> safe own H p -> safe own H' p.
Proof.
  unfold safe. revert own H.
  induction p as [a|k IH|k IH|ctx id k IH|ctx id k IH|ctx id k IH|ctx c k IH|ctx c k IH|ctx id t k IH];
    simpl; intros own H Hs Hw; try done; eauto.
  - intros H'' x Hs' Hr. apply Hw; [by etrans|done].
  - intros H'' x Hs' Hr. apply Hw; [by etrans|done].
  - destruct Hw as [Hc Hw]. split; [done|]. intros H'' x Hs'. apply Hw. by etrans.
  - destruct Hw as [Hc Hw]. split; [by eapply valid_commit_extend|]. intros H'' x Hs' Hr. apply Hw; [by etrans|done].
Qed.
