(* ===== verification/RunConcurrencyProps.v ===== *)
(** * Interleaved callers keep the store replayable

    One step of a safe program on a well-formed store: the history grows, the stored run and the
    projection of its events still agree, and the rest of the program is safe. *)

From Stdlib Require Import ZArith Lia String.
From stdpp Require Import base option numbers strings gmap list.
From S2P Require Import Prelude Codec Text RunStatus RunDecider AgentRun RunReplay RunPorts.
From S2P Require Import RunStore RunConcurrency.

Section Invariant.
Context {St : Type} `{!RunStore St, !RunStoreOk St}.
Implicit Types (s : St) (k : Z * Z) (H : history).

(** The history holds what is stored now, and nothing newer. *)
Definition hist_ok s H : Prop :=
  (forall k r st, stored s k = Some (r, st) -> version_at H k (ar_version r) = Some (r, st)) /\
  (forall k v x, version_at H k v = Some x -> exists r st, stored s k = Some (r, st) /\ (v <= ar_version r)%Z).

(** Every stored run is what its events replay to. *)
Definition coherent s : Prop :=
  forall k, match stored s k with
            | Some (r, st) => exists p, replay_run (events s k) = Ok p /\ agrees p r st
            | None => events s k = []
            end.

Definition unused (own : gset Z) s : Prop := forall sid k, sid ∈ own -> stored_steps s k !! sid = None.

Record sound s H : Prop := { so_wf : sp_wf s; so_hist : hist_ok s H; so_coherent : coherent s }.

(** ** Stored runs *)

Lemma stored_steps_stored s k :
  sp_wf s -> stored_steps s k = match stored s k with Some (_, st) => st | None => ∅ end.
Proof.
  intros Hwf. destruct (sp_run_total s k Hwf) as [[r|] Hr]; destruct (sp_steps_total s k Hwf) as [l Hl];
    unfold stored; rewrite Hr, ?Hl.
  - unfold stored_steps. by rewrite Hl.
  - by apply sp_steps_stored.
Qed.

Lemma stored_read s k r st :
  sp_wf s -> stored s k = Some (r, st) ->
  sp_run s k.1 k.2 = Ok (Some r) /\ ar_workspace_id r = k.1 /\ ar_id r = k.2 /\ (1 <= ar_version r <= i64_max)%Z.
Proof.
  intros Hwf Hs. assert (sp_run s k.1 k.2 = Ok (Some r)) as Hr.
  { unfold stored in Hs. destruct (sp_run s k.1 k.2) as [[?|]|]; [|done..]. destruct (sp_steps s k.1 k.2); naive_solver. }
  split; [done|]. by apply (sp_run_key s).
Qed.

Lemma read_stored s k r :
  sp_wf s -> sp_run s k.1 k.2 = Ok (Some r) -> exists st, stored s k = Some (r, st).
Proof. intros Hwf Hr. destruct (sp_steps_total s k Hwf) as [l Hl]. unfold stored. rewrite Hr, Hl. eauto. Qed.

Lemma known_stored s H k r st :
  sp_wf s -> hist_ok s H -> stored s k = Some (r, st) -> known_run H k r.
Proof. intros Hwf [Hh _] Hs. destruct (stored_read s k r st Hwf Hs) as (_ & ? & ? & ? & _). split_and!; eauto. Qed.

Lemma read_run_fact s H k : sp_wf s -> hist_ok s H -> read_run_ok H k (sp_run s k.1 k.2).
Proof.
  intros Hwf Hh. destruct (sp_run s k.1 k.2) as [[r|]|] eqn:Hr; simpl; [|done..].
  destruct (read_stored s k r Hwf Hr) as [st Hs]. by eapply known_stored.
Qed.

Lemma read_steps_fact s H k : sp_wf s -> hist_ok s H -> read_steps_ok H k (sp_steps s k.1 k.2).
Proof.
  intros Hwf [Hh Hn]. destruct (sp_steps s k.1 k.2) as [l|] eqn:Hl; simpl; [|done].
  intros v [x Hx]. destruct (Hn _ _ _ Hx) as (r & st & Hs & Hle). exists (ar_version r), r. split; [done|].
  assert (st = steps_map l) as <-; [|by apply Hh].
  unfold stored in Hs. rewrite Hl in Hs. split_matches_in Hs. naive_solver.
Qed.

(** ** Steps that change the store *)

(** [k] moves to a new version of its run; the rest is unchanged. *)
Definition moves s s' k (r : AgentRun) (st : gmap Z RunStep) : Prop :=
  stored s' k = Some (r, st) /\
  (forall r0 st0, stored s k = Some (r0, st0) -> (ar_version r0 < ar_version r)%Z) /\
  (forall k', k' <> k -> stored s' k' = stored s k' /\ events s' k' = events s k').

Lemma version_at_record k v x H : version_at (record_at k v x H) k v = Some x.
Proof. apply lookup_insert_eq. Qed.

Lemma version_at_record_ne k v x H k' v' :
  k' <> k \/ v' <> v -> version_at (record_at k v x H) k' v' = version_at H k' v'.
Proof. intros Hne. unfold version_at, record_at. rewrite lookup_insert_ne; [done|]. naive_solver. Qed.

Lemma hist_moves s H s' k r st :
  hist_ok s H -> moves s s' k r st ->
  H ⊆ record_at k (ar_version r) (r, st) H /\ hist_ok s' (record_at k (ar_version r) (r, st) H).
Proof.
  intros [Hh Hn] (Hs & Hlt & Hframe). split.
  - apply insert_subseteq. apply eq_None_not_Some. intros [x Hx].
    destruct (Hn _ _ _ Hx) as (r0 & st0 & Hs0 & Hle). specialize (Hlt _ _ Hs0). lia.
  - split.
    + intros k' r' st' Hs'. destruct (base.decide (k' = k)) as [->|Hne].
      * assert (r' = r /\ st' = st) as [-> ->] by naive_solver. apply version_at_record.
      * destruct (Hframe k' Hne) as [Hf _]. rewrite Hf in Hs'.
        rewrite version_at_record_ne by naive_solver. by apply Hh.
    + intros k' v x Hx. destruct (base.decide (k' = k)) as [->|Hne].
      * exists r, st. split; [done|]. destruct (base.decide (v = ar_version r)) as [->|Hv]; [lia|].
        rewrite version_at_record_ne in Hx by naive_solver.
        destruct (Hn _ _ _ Hx) as (r0 & st0 & Hs0 & Hle). specialize (Hlt _ _ Hs0). lia.
      * rewrite version_at_record_ne in Hx by naive_solver. destruct (Hframe k' Hne) as [Hf _]. rewrite Hf. by eapply Hn.
Qed.

Lemma coherent_moves s s' k r st :
  coherent s -> moves s s' k r st ->
  (exists p, replay_run (events s' k) = Ok p /\ agrees p r st) -> coherent s'.
Proof.
  intros Hc (Hs & _ & Hframe) Hp k'. destruct (base.decide (k' = k)) as [->|Hne]; [by rewrite Hs|].
  destruct (Hframe k' Hne) as [-> ->]. apply Hc.
Qed.

(** The steps stored after a move are those of before and those of [st]. *)
Lemma stored_steps_moves s s' k r st k' :
  sp_wf s -> sp_wf s' -> moves s s' k r st ->
  stored_steps s' k' = if base.decide (k' = k) then st else stored_steps s k'.
Proof.
  intros Hwf Hwf' (Hs & _ & Hframe). rewrite !stored_steps_stored by done.
  destruct (base.decide (k' = k)) as [->|Hne]; [by rewrite Hs|]. by destruct (Hframe k' Hne) as [-> _].
Qed.

Lemma upsert_all_lookup_None l m id :
  upsert_all l m !! id = None <-> m !! id = None /\ id ∉ (st_id <$> l).
Proof.
  unfold upsert_all. revert m. induction l as [|a l IH]; intros m; simpl; [set_solver|].
  rewrite IH. unfold upsert. rewrite lookup_insert_None. set_solver.
Qed.

Lemma create_moves s ctx c s' H :
  sound s H -> creates ctx c -> sp_create s ctx c = Ok s' ->
  exists r, sp_wf s' /\ moves s s' (key_of ctx (ar_id (cm_run c))) r ∅ /\ coherent s'.
Proof.
  intros [Hwf Hh Hc] (Hw & He & Hi & Hn & p & Hp & Ha) Hok.
  assert (Hown : owns_steps s (key_of ctx (ar_id (cm_run c))) c).
  { intros st Hin. rewrite Hn in Hin. set_solver. }
  assert (Hwf' := sp_create_wf _ _ _ _ Hwf Hok Hown).
  destruct (sp_create_ok s ctx c s') as (H0 & H1 & Hev & Hframe); try done.
  rewrite Hn in H1. simpl in H1. set (k := key_of _ _) in *.
  assert (moves s s' k (run_inserted (cm_run c)) ∅) as Hm by (split_and!; [done|naive_solver|done]).
  exists (run_inserted (cm_run c)). split_and!; [done..|]. apply (coherent_moves _ _ _ _ _ Hc Hm).
  specialize (Hc k). rewrite H0 in Hc. rewrite Hev, Hc. eauto.
Qed.

(** A valid commit that the store accepts was computed from what is stored. *)
Lemma commit_current s ctx c s' H own :
  sound s H -> unused own s -> valid_commit own H ctx c -> sp_commit s ctx c = Ok s' ->
  let k := key_of ctx (ar_id (cm_run c)) in
  exists r st, stored s k = Some (r, st) /\ stored_steps s k = st /\
    version_previous (ar_version (cm_run c)) = Ok (ar_version r) /\ derives own r st c /\ owns_steps s k c.
Proof.
  intros [Hwf Hh Hc] Hu (Hw & Hi & v & Hv & Hcase) Hok k.
  destruct (sp_commit_cas _ _ _ _ Hwf Hok) as (r0 & st0 & Hs0 & Hv0). fold k in Hs0.
  assert (v = ar_version r0) as -> by congruence.
  destruct Hcase as [(v' & Hlt & [x Hx])|(r & st & Hr & Hids & Hd)].
  { destruct (proj2 Hh _ _ _ Hx) as (r1 & st1 & Hs1 & Hle). fold k in Hs1. assert (r1 = r0) as -> by congruence. lia. }
  assert (r = r0 /\ st = st0) as [-> ->].
  { fold k in Hr. rewrite (proj1 Hh _ _ _ Hs0) in Hr. naive_solver. }
  assert (Hst : stored_steps s k = st0) by (rewrite stored_steps_stored by done; by rewrite Hs0).
  exists r0, st0. split_and!; try done. intros st Hin. destruct (Hids st Hin) as [[Ho Hrun]|Ha].
  - split; [by left|]. intros k' _. by apply Hu.
  - split; [right; by rewrite Hst|]. intros k' Hne.
    destruct (sp_steps_one_run s k' k (st_id st) Hwf Hne) as [?|Hnone]; [done|].
    rewrite Hst in Hnone. rewrite Hnone in Ha. by destruct Ha.
Qed.

Lemma commit_moves s ctx c s' H own :
  sound s H -> unused own s -> valid_commit own H ctx c -> sp_commit s ctx c = Ok s' ->
  exists r st, let k := key_of ctx (ar_id (cm_run c)) in
    sp_wf s' /\ moves s s' k r st /\ coherent s' /\
    (forall sid, is_Some (st !! sid) -> sid ∈ own \/ is_Some (stored_steps s k !! sid)).
Proof.
  intros Hs Hu Hvc Hok. destruct (commit_current _ _ _ _ _ _ Hs Hu Hvc Hok) as (r & st & Hst & Hss & Hv & [Hids Hd] & Hown).
  destruct Hs as [Hwf _ Hc], Hvc as (Hw & Hi & _). set (k := key_of ctx (ar_id (cm_run c))) in *.
  assert (Hwf' := sp_commit_wf _ _ _ _ Hwf Hok Hown).
  destruct (sp_commit_ok s ctx c s') as (r1 & st1 & Hs1 & Hs' & Hev & Hframe); try done.
  fold k in Hs1, Hs', Hev, Hframe. assert (r1 = r /\ st1 = st) as [-> ->] by naive_solver.
  destruct (stored_read _ _ _ _ Hwf Hst) as (_ & _ & _ & Hb).
  destruct (stored_read _ _ _ _ Hwf' Hs') as (_ & _ & _ & Hb'). cbn [run_merge ar_version] in Hb'.
  assert (moves s s' k (run_merge r (cm_run c)) (upsert_all (cm_new_steps c) st)) as Hm.
  { split_and!; [done| |done]. intros r2 st2 Hs2. assert (r2 = r) as -> by congruence. cbn.
    unfold version_previous in Hv. destruct (Z.leb_spec (ar_version (cm_run c)) 1); [done|]. injection Hv. lia. }
  exists (run_merge r (cm_run c)), (upsert_all (cm_new_steps c) st). simpl. split_and!; [done|done| |].
  - apply (coherent_moves _ _ _ _ _ Hc Hm). specialize (Hc k). rewrite Hst in Hc. destruct Hc as (p & Hp & Ha).
    destruct Hd with p as (p' & Hp' & Ha'); [|lia|done|].
    { intros sid Hsid. rewrite <-Hss. by apply Hu. }
    exists p'. split; [|done]. rewrite Hev, replay_run_snoc; [by rewrite Hp|]. intros He. by rewrite He in Hp.
  - intros sid Hsid. rewrite Hss. destruct (st !! sid) eqn:E; [by right|].
    apply not_eq_None_Some in Hsid. rewrite upsert_all_lookup_None in Hsid.
    destruct (base.decide (sid ∈ st_id <$> cm_new_steps c)) as [Hin|]; [|tauto].
    apply list_elem_of_fmap in Hin as (a & -> & Hin). destruct (Hids a Hin) as [[? _]|[? ?]]; [by left|congruence].
Qed.

(** ** One step of a safe program *)

(** What a step of one program leaves: its identifiers and the rest of it. *)
Definition step_result {A} (own : gset Z) H s (s' : St) (p' : prog A) : Prop :=
  exists own' H', own' ⊆ own /\ H ⊆ H' /\ sound s' H' /\ unused own' s' /\ safe own' H' p' /\
    forall sid k, is_Some (stored_steps s' k !! sid) -> sid ∈ own \/ exists k', is_Some (stored_steps s k' !! sid).

Lemma step_unchanged {A} own H s (p' : prog A) :
  sound s H -> unused own s -> safe own H p' -> step_result own H s s p'.
Proof. intros. exists own, H. split_and!; try done. eauto. Qed.

Lemma moves_result {A} own own' H s s' k r st (p' : prog A) :
  sound s H -> sp_wf s' -> coherent s' -> moves s s' k r st -> own' ⊆ own ->
  (forall sid, is_Some (st !! sid) -> sid ∈ own \/ is_Some (stored_steps s k !! sid)) ->
  unused own' s -> (forall sid, sid ∈ own' -> st !! sid = None) ->
  (forall H', H ⊆ H' -> hist_ok s' H' -> safe own' H' p') ->
  step_result own H s s' p'.
Proof.
  intros [Hwf Hh Hc] Hwf' Hc' Hm Hsub Hids Hu Hst Hsafe.
  destruct (hist_moves s H s' k r st Hh Hm) as [Hext Hh']. eexists own', _. split_and!; try done.
  - intros sid k' Hin. rewrite (stored_steps_moves s s' k r st k') by done. case_decide; auto.
  - by apply Hsafe.
  - intros sid k' Hin. rewrite (stored_steps_moves s s' k r st k') in Hin by done.
    case_decide; [destruct (Hids sid Hin)|]; eauto.
Qed.

Lemma snapshot_fact s H k snap :
  sp_wf s -> hist_ok s H -> snapshot_of s k = Ok snap -> known_run H k (sn_run snap).
Proof.
  intros Hwf Hh Hs. unfold snapshot_of in Hs. apply bind_Ok in Hs as (o & Ho & Hs).
  apply bind_Ok in Hs as (r & Hr & Hs). apply ok_or_Ok in Hr as ->.
  apply bind_Ok in Hs as (l & _ & Hs). apply bind_Ok in Hs as (cp & _ & Hs). injection Hs as <-. simpl.
  destruct (read_stored s k r Hwf Ho) as [st Hst]. by eapply known_stored.
Qed.

Lemma create_result {A} own H s ctx c s' (p' : prog A) :
  sound s H -> unused own s -> creates ctx c -> sp_create s ctx c = Ok s' ->
  (forall H', H ⊆ H' -> safe own H' p') -> step_result own H s s' p'.
Proof.
  intros Hs Hu Hc Hok Hsafe. destruct (create_moves s ctx c s' H Hs Hc Hok) as (r & Hwf' & Hm & Hc').
  eapply (moves_result own own); try done; auto. intros sid. rewrite lookup_empty. by intros [].
Qed.

Lemma commit_result {A} own H s ctx c s' (p' : prog A) :
  sound s H -> unused own s -> valid_commit own H ctx c -> sp_commit s ctx c = Ok s' ->
  (forall H', H ⊆ H' -> sp_wf s' -> hist_ok s' H' -> safe ∅ H' p') -> step_result own H s s' p'.
Proof.
  intros Hs Hu Hc Hok Hsafe. destruct (commit_moves s ctx c s' H own Hs Hu Hc Hok) as (r & st & Hwf' & Hm & Hc' & Hids).
  eapply (moves_result own ∅); try done. auto.
Qed.

Lemma cancel_result {A} own H s ctx id at_ (p' : prog A) :
  sound s H -> unused own s -> safe own H p' -> step_result own H s (sp_cancel s ctx id at_).2 p'.
Proof.
  intros [Hwf [Hh Hn] Hc] Hu Hsafe. set (s' := (sp_cancel s ctx id at_).2).
  assert (Hwf' : sp_wf s') by by apply sp_cancel_wf.
  assert (Hsame : forall k, stored s' k = stored s k /\ events s' k = events s k) by (intros k; by apply sp_cancel_ok).
  assert (Hst : forall k, stored_steps s' k = stored_steps s k).
  { intros k. rewrite !stored_steps_stored by done. by destruct (Hsame k) as [-> _]. }
  exists own, H. split_and!; try done.
  - split; [done| |].
    + split; intros k *; destruct (Hsame k) as [-> _]; eauto.
    + intros k. destruct (Hsame k) as [-> ->]. apply Hc.
  - intros sid k Hin. rewrite Hst. by apply Hu.
  - intros sid k Hin. rewrite Hst in Hin. eauto.
Qed.

Lemma call_step_result {A} own H s (p : prog A) s' p' :
  sound s H -> unused own s -> safe own H p -> call_step s p s' p' -> step_result own H s s' p'.
Proof.
  intros Hs Hu Hp Hstep. pose proof Hs as [Hwf Hh Hc].
  destruct Hstep; unfold safe in Hp; simpl in Hp; try (apply step_unchanged; [done..|by apply Hp]).
  - apply step_unchanged; [done..|]. apply Hp; [done|]. by apply (read_run_fact s H (_, _)).
  - apply step_unchanged; [done..|]. apply Hp; [done|]. by apply (read_steps_fact s H (_, _)).
  - destruct Hp as [Hcr Hk]. eapply create_result; eauto. intros H' Hext. by apply Hk.
  - destruct Hp as [Hcr Hk]. eapply create_result; eauto. intros H' Hext. by apply Hk.
  - destruct Hp as [Hv Hk]. eapply commit_result; eauto. intros H' Hext Hwf' Hh'. apply Hk; [done|].
    by apply (snapshot_fact s').
  - destruct Hp as [Hv Hk]. exists ∅, H. split_and!; try done; [by apply Hk|eauto].
  - destruct Hp as [Hv Hk]. eapply commit_result; eauto. intros H' Hext Hwf' Hh'. by apply Hk.
  - apply cancel_result; [done..|]. by apply Hp.
  - destruct Hp as [Hv Hk]. exists ∅, H. split_and!; try done; [by apply Hk|eauto].
Qed.

(** ** Pools of programs *)

(** Every program of the pool is safe with identifiers of its own; [used] holds the identifiers
    ever reserved. *)
Definition pool_sound {A} s (used : gset Z) (pool : list (prog A)) : Prop :=
  exists H (owns : list (gset Z)), sound s H /\
    Forall2 (fun own p => safe own H p) owns pool /\
    (forall own, own ∈ owns -> unused own s /\ own ⊆ used) /\
    (forall i j o o', i <> j -> owns !! i = Some o -> owns !! j = Some o' -> o ## o') /\
    (forall sid k, is_Some (stored_steps s k !! sid) -> sid ∈ used).

Lemma pool_sound_init {A} : pool_sound (A := A) sp_empty ∅ [].
Proof.
  exists ∅, []. assert (He := fun k => sp_empty_ok (St := St) k). split_and!; try done.
  - split; [apply sp_empty_wf| |].
    + split; [|intros ???; unfold version_at; by rewrite lookup_empty].
      intros k r st Hs. destruct (He k) as (Hn & _ & _). congruence.
    + intros k. by destruct (He k) as (-> & _ & ->).
  - intros own Hin. by apply not_elem_of_nil in Hin.
  - intros sid k [x Hx]. destruct (He k) as (_ & Hn & _). rewrite Hn in Hx. by rewrite lookup_empty in Hx.
Qed.

Lemma pool_sound_spawn {A} s used pool (own : gset Z) (p : prog A) :
  pool_sound s used pool -> own ## used -> (forall H, safe own H p) -> pool_sound s (used ∪ own) (pool ++ [p]).
Proof.
  intros (H & owns & Hs & Hsafe & Hown & Hdis & Hused) Hnew Hp. exists H, (owns ++ [own]). split_and!; [done|..].
  - apply Forall2_app; [done|]. by constructor.
  - intros o Ho. apply elem_of_app in Ho as [Ho|Ho]; [apply Hown in Ho; set_solver|].
    apply list_elem_of_singleton in Ho as ->. split; [|set_solver].
    intros sid k Hin. apply eq_None_not_Some. intros Hsome%Hused. set_solver.
  - assert (Hl : forall i o, owns !! i = Some o -> o ## own).
    { intros i o Ho%list_elem_of_lookup_2%Hown. set_solver. }
    assert (Hsnoc : forall i o, (owns ++ [own]) !! i = Some o -> owns !! i = Some o \/ i = length owns /\ o = own).
    { intros i o [Ho|[? Ho]]%lookup_app_Some; [by left|]. right. apply list_lookup_singleton_Some in Ho as [? <-].
      split; [lia|done]. }
    intros i j o o' Hne [Ho|[-> ->]]%Hsnoc [Ho'|[-> ->]]%Hsnoc; eauto; [symmetry; eauto|done].
  - intros sid k Hin%Hused. set_solver.
Qed.

Lemma pool_sound_step {A} s used (pool : list (prog A)) i p s' p' :
  pool_sound s used pool -> pool !! i = Some p -> call_step s p s' p' -> pool_sound s' used (<[i := p']> pool).
Proof.
  intros (H & owns & Hs & Hsafe & Hown & Hdis & Hused) Hi Hstep.
  destruct (Forall2_lookup_r _ _ _ _ _ Hsafe Hi) as (own & Ho & Hp).
  assert (Hoi : own ∈ owns) by by eapply list_elem_of_lookup_2. destruct (Hown own Hoi) as [Hu Hsub].
  destruct (call_step_result own H s p s' p' Hs Hu Hp Hstep) as (own' & H' & Hs1 & Hext & Hs' & Hu' & Hp' & Hids).
  exists H', (<[i := own']> owns). split_and!; [done|..].
  - apply Forall2_insert; [|done]. eapply Forall2_impl; [done|]. intros. by eapply safe_extend.
  - intros o Ho'. apply list_elem_of_lookup in Ho' as [j Hj]. apply list_lookup_insert_Some in Hj as [(<- & <- & _)|[Hne Hj]].
    { split; [done|set_solver]. }
    assert (o ∈ owns) as [Huo Hso]%Hown by by eapply list_elem_of_lookup_2. split; [|done].
    intros sid k Hin. apply eq_None_not_Some. intros [Hin'|[k' Hk']]%Hids.
    + assert (own ## o) by by eapply (Hdis i j). set_solver.
    + rewrite Huo in Hk' by done. by destruct Hk'.
  - intros a b o o' Hne Ha Hb.
    apply list_lookup_insert_Some in Ha as [(<- & <- & _)|[? Ha]];
      apply list_lookup_insert_Some in Hb as [(<- & <- & _)|[? Hb]]; [done|..].
    + assert (own ## o') by by eapply (Hdis i b). set_solver.
    + assert (own ## o) by by eapply (Hdis i a). set_solver.
    + by eapply (Hdis a b).
  - intros sid k [Hin|[k' Hk']]%Hids; [set_solver|by eapply Hused].
Qed.

End Invariant.
