(* ===== verification/RunCoordinatorProps.v ===== *)
(** * The coordinator's methods are safe under interference

    Each method of [RunCoordinator] commits only what its event replays to from the version it
    read, so by [pool_sound_step] any interleaving keeps the store replayable. *)

From Stdlib Require Import ZArith Lia String.
From stdpp Require Import base option numbers strings gmap list.
From S2P Require Import Prelude Codec Text RunStatus RunDecider AgentRun RunReplay RunPorts.
From S2P Require Import RunCoordinator RunStore RunConcurrency RunConcurrencyProps.

(** ** Events extend a projection *)

Lemma event_with_id_Ok id rid ws v seq actor pl corr caus at_ e :
  event_with_id id rid ws v seq actor pl corr caus at_ = Ok e ->
  e = mkEvent id ws rid seq v actor pl corr caus at_ /\ (is_creation pl = false -> v <> RunVersion_INITIAL).
Proof.
  unfold event_with_id. intros H.
  repeat match type of H with (if ?b then _ else _) = _ => destruct b eqn:?; [discriminate H|] end.
  injection H as <-. split; [done|]. intros Hc -> . rewrite Hc in *. bool_hyps. done.
Qed.

(** The event of a commit at the version after [r]'s, on a projection of [r]. *)
Lemma replay_next_Ok p r steps e q :
  agrees p r steps -> re_run_id e = ar_id r -> re_workspace_id e = ar_workspace_id r ->
  version_next (ar_version r) = Ok (re_run_version e) -> (re_run_version e <= i64_max)%Z ->
  apply_event p e = Ok q ->
  replay_next p e = Ok (pj_set_position (re_run_version e) (re_occurred_at e) q).
Proof.
  intros Ha Hr Hw Hv Hb Hq. unfold replay_next.
  rewrite Hr, Hw, (ag_run_id _ _ _ Ha), (ag_workspace_id _ _ _ Ha), (ag_version _ _ _ Ha), Hv, !eqb_refl. simpl.
  rewrite Z.eqb_refl. simpl. rewrite Hq. simpl.
  destruct (version_next (re_run_version e)) as [|] eqn:E; [done|].
  exfalso. unfold version_next, ok_or, checked_add in E. destruct (Z.leb_spec (re_run_version e + 1) u64_max); [done|].
  unfold i64_max, u64_max in *. lia.
Qed.

(** A commit that only moves the run forward, apart from what [apply_event] does. *)
Lemma agrees_position p r steps v at_ :
  agrees p r steps ->
  agrees (pj_set_position v (to_timestamptz at_) p) (run_merge r (run_set_position v at_ r)) steps.
Proof. intros []. constructor; simpl; try done; [congruence|apply to_timestamptz_again]. Qed.

(** ** Status changes *)

Lemma run_transition_Ok r v target res at_ ch r' :
  run_transition r v target res at_ = (Ok ch, r') ->
  v = ar_version r /\ RunStatus.transition_to (ar_status r) target = Ok tt /\
  exists nv, version_next v = Ok nv /\
    r' = run_set_position nv at_
           (if RunStatus.is_terminal target then run_set_result res (Some at_) (run_set_status target r)
            else run_set_status target r).
Proof.
  unfold run_transition, bump. intros H.
  repeat match type of H with (if ?b then _ else _) = _ => destruct b eqn:?; [discriminate H|] end.
  destruct (RunStatus.transition_to _ _) as [[]|] eqn:Ht; [|done]. bool_hyps. subst v.
  assert (Hver : ar_version (if RunStatus.is_terminal target
      then run_set_result res (Some at_) (run_set_status target r) else run_set_status target r) = ar_version r)
    by by destruct (RunStatus.is_terminal target).
  rewrite Hver in H. destruct (version_next (ar_version r)) as [nv|] eqn:Hn; [|done]. injection H as _ <-. eauto.
Qed.

Lemma derives_intro own r steps c :
  re_run_id (cm_event c) = ar_id r -> re_workspace_id (cm_event c) = ar_workspace_id r ->
  version_next (ar_version r) = Ok (re_run_version (cm_event c)) ->
  ar_version (cm_run c) = re_run_version (cm_event c) ->
  (forall st, st ∈ cm_new_steps c ->
     (st_id st ∈ own /\ st_run_id st = ar_id (cm_run c)) \/ is_Some (steps !! st_id st)) ->
  (forall p, (forall sid, sid ∈ own -> steps !! sid = None) -> agrees p r steps ->
     exists q, apply_event p (event_stored (cm_event c)) = Ok q /\
       agrees (pj_set_position (re_run_version (cm_event c)) (to_timestamptz (re_occurred_at (cm_event c))) q)
         (run_merge r (cm_run c)) (upsert_all (cm_new_steps c) steps)) ->
  derives own r steps c.
Proof.
  intros Hr Hw Hv Hver Hids Hq. split; [done|]. intros Hfresh Hb p Ha. destruct (Hq p Hfresh Ha) as (q & Hap & Haq).
  exists (pj_set_position (re_run_version (cm_event c)) (to_timestamptz (re_occurred_at (cm_event c))) q).
  split; [|done]. eapply (replay_next_Ok p r steps (event_stored (cm_event c))); try done. simpl. congruence.
Qed.

Lemma derives_status own r steps v target res at_ ch r' nv e id actor corr caus items :
  run_transition r v target res at_ = (Ok ch, r') -> version_next v = Ok nv ->
  event_with_id id (ar_id r) (ar_workspace_id r) nv (cursor_from_version nv) actor
    (RunStatusChanged (ar_status r) target res) corr caus at_ = Ok e ->
  derives own r steps (mkCommit r' e [] None items).
Proof.
  intros (-> & Ht & nv' & Hn' & ->)%run_transition_Ok Hn [-> _]%event_with_id_Ok.
  assert (nv' = nv) as -> by congruence. apply derives_intro; try done; [set_solver|].
  intros p _ Ha. unfold apply_event. cbn [cm_event event_stored re_payload re_occurred_at].
  rewrite (ag_status _ _ _ Ha), eqb_refl. simpl. rewrite Ht. simpl. eexists. split; [done|].
  destruct Ha. destruct (RunStatus.is_terminal target); constructor; simpl; try done; try congruence.
  all: by rewrite ?to_timestamptz_idemp, ?to_timestamptz_again.
Qed.

(** ** Step changes *)

Lemma is_some_fmap {A B} (f : A -> B) (o : option A) : is_some (f <$> o) = is_some o.
Proof. by destruct o. Qed.

Lemma steps_agree_lookup m m' id : steps_agree m m' -> is_Some (m !! id) <-> is_Some (m' !! id).
Proof.
  intros H. specialize (H id). destruct (m !! id), (m' !! id); try done; split; intros; eauto; naive_solver.
Qed.

Lemma steps_agree_insert m m' id a b :
  steps_agree m m' -> step_agrees a b -> steps_agree (<[id := a]> m) (<[id := b]> m').
Proof.
  intros H Hab id'. destruct (base.decide (id' = id)) as [->|Hne]; [by rewrite !lookup_insert_eq|].
  rewrite !lookup_insert_ne by done. apply H.
Qed.

(** A step as [RunStep::create] makes it. *)
Definition pending (s : RunStep) : Prop :=
  st_status s = RunStepStatus.Pending /\ st_started_at s = None /\ st_finished_at s = None.

Lemma pending_agrees s : pending s -> step_agrees s (step_stored s).
Proof. intros (Hs & Hb & Hf). constructor; simpl; try done; by rewrite ?Hs, ?Hb, ?Hf. Qed.

Lemma add_known_steps_agree l m m' :
  steps_agree m m' -> Forall pending l -> NoDup (st_id <$> l) -> (forall s, s ∈ l -> m' !! st_id s = None) ->
  exists q, add_known_steps l m = Ok q /\ steps_agree q (upsert_all l m').
Proof.
  revert m m'. induction l as [|s l IH]; intros m m' Ha Hp Hd Hn; simpl; [by exists m|].
  apply Forall_cons in Hp as [Hp Hl]. simpl in Hd. apply NoDup_cons in Hd as [Hs Hd].
  assert (Hm' : m' !! st_id s = None) by (apply Hn; set_solver).
  assert (Hm : m !! st_id s = None).
  { apply eq_None_not_Some. rewrite (steps_agree_lookup m m'), Hm' by done. by intros []. }
  rewrite Hm. simpl. unfold upsert at 1. rewrite Hm'. apply IH; try done.
  - apply steps_agree_insert; [done|by apply pending_agrees].
  - intros s' Hin. rewrite lookup_insert_ne; [apply Hn; set_solver|]. intros Heq. apply Hs. rewrite Heq.
    apply list_elem_of_fmap. eauto.
Qed.

Lemma step_of_dto_Ok rid at_ d s :
  step_of_dto rid at_ d = Ok s -> st_id s = dto_id d /\ pending s /\ st_run_id s = rid.
Proof.
  unfold step_of_dto, from_domain. intros H. destruct (negb _); [done|]. apply map_err_Ok in H.
  unfold step_create in H. apply bind_Ok in H as (_ & _ & H). by injection H as <-.
Qed.

Lemma collect_Ok {E A B} (f : A -> result E B) l l' :
  collect f l = Ok l' -> Forall2 (fun a b => f a = Ok b) l l'.
Proof.
  revert l'. induction l as [|a l IH]; simpl; intros l' H; [by injection H as <-|].
  apply bind_Ok in H as (b & Hb & H). apply bind_Ok in H as (bs & Hbs & H). injection H as <-. constructor; auto.
Qed.

Lemma collect_steps rid at_ dtos steps :
  collect (step_of_dto rid at_) dtos = Ok steps -> 
  st_id <$> steps = dto_id <$> dtos /\ Forall pending steps /\ forall s, s ∈ steps -> st_run_id s = rid.
Proof.
  intros H%collect_Ok. induction H as [|d s dtos steps Hd _ (IH1 & IH2 & IH3)]; [split_and!; [done..|set_solver]|].
  apply step_of_dto_Ok in Hd as (Hid & Hp & Hrun). rewrite !fmap_cons, Hid, IH1.
  split_and!; [done|by constructor|set_solver].
Qed.

Lemma derives_add_steps own r steps at_ nv e id actor corr dtos added items :
  version_next (ar_version r) = Ok nv -> collect (step_of_dto (ar_id r) at_) dtos = Ok added ->
  NoDup (dto_id <$> dtos) -> own = list_to_set (dto_id <$> dtos) ->
  event_with_id id (ar_id r) (ar_workspace_id r) nv (cursor_from_version nv) actor (StepsAdded added) corr None at_
    = Ok e ->
  derives own r steps (mkCommit (run_set_position nv at_ r) e added None items).
Proof.
  intros Hn (Hids & Hp & Hrun)%collect_steps Hd -> [-> _]%event_with_id_Ok.
  assert (Hown : forall s, s ∈ added -> st_id s ∈ (list_to_set (dto_id <$> dtos) : gset Z)).
  { intros s Hin. apply elem_of_list_to_set. rewrite <-Hids. apply list_elem_of_fmap. eauto. }
  apply derives_intro; try done; [left; split; [by apply Hown|by apply Hrun]|].
  intros p Hfresh Ha. unfold apply_event. cbn [cm_event event_stored re_payload re_occurred_at].
  destruct (add_known_steps_agree added (pj_known_steps p) steps) as (q & Hq & Haq);
    [apply Ha|done|by rewrite Hids|by intros s Hin; apply Hfresh, Hown|].
  rewrite Hq. simpl. eexists. split; [done|]. apply (agrees_position _ _ _ nv at_) in Ha. destruct Ha. by constructor.
Qed.

(** The step [RunStep::fail] or [RunStep::transition_to] leaves, as replay computes it. *)
Definition step_changed (step step' : RunStep) (at_ : Timestamp) : Prop :=
  RunStepStatus.step_transition_to (st_status step) (st_status step') = Ok tt /\
  st_id step' = st_id step /\
  forall a, step_agrees a step ->
    step_agrees (replay_step a (st_status step') (st_attempt step') (to_timestamptz at_)) (step_merge step step').

Lemma step_transition_changed step next at_ step' :
  step_transition_to step next at_ = (Ok tt, step') -> step_changed step step' at_.
Proof.
  unfold step_transition_to. destruct (RunStepStatus.step_transition_to _ _) as [[]|] eqn:Ht; [|done].
  intros [= <-]. split_and!; [done..|]. intros a Ha. destruct Ha as [????????? Hs Hw Hf Hf'].
  constructor; simpl; try done.
  - rewrite Hs. destruct (_ && _); [done|]. by rewrite Hw.
  - apply to_timestamptz_again.
  - destruct (RunStepStatus.step_is_terminal next) eqn:En; [done|]. rewrite Hf. simpl in *.
    unfold RunStepStatus.step_transition_to in Ht. destruct (_ == next) eqn:E; bool_hyps; [congruence|].
    replace (st_status a) with (st_status step) by done. by destruct (st_status step).
  - rewrite is_some_fmap. destruct (RunStepStatus.step_is_terminal next) eqn:En; simpl.
    + destruct (RunStepStatus.step_is_terminal (st_status step)) eqn:Eo; simpl; [|done]. by rewrite Hf'.
    + rewrite Hf'. unfold RunStepStatus.step_transition_to in Ht. destruct (_ == next) eqn:E; bool_hyps; [congruence|].
      by destruct (st_status step).
Qed.

Lemma step_fail_changed step failure at_ step' :
  step_fail step failure at_ = (Ok tt, step') -> step_changed step step' at_.
Proof.
  unfold step_fail. intros H.
  repeat match type of H with (if ?b then _ else _) = _ => destruct b eqn:?; [discriminate H|] end.
  destruct (RunStepStatus.step_transition_to _ _) as [[]|] eqn:Ht; [|done]. injection H as <-.
  split_and!; [done..|]. intros a []. constructor; simpl; try done; [congruence|apply to_timestamptz_again].
Qed.

Lemma derives_step own r steps at_ nv e id actor corr sid step step' items :
  version_next (ar_version r) = Ok nv -> steps !! sid = Some step -> st_id step = sid ->
  step_changed step step' at_ ->
  event_with_id id (ar_id r) (ar_workspace_id r) nv (cursor_from_version nv) actor
    (StepStatusChanged sid (st_status step) (st_status step') (st_attempt step')) corr None at_ = Ok e ->
  derives own r steps (mkCommit (run_set_position nv at_ r) e [step'] None items).
Proof.
  intros Hn Hs Hid (Ht & Hm & Hag) [-> _]%event_with_id_Ok.
  assert (Hid' : st_id step' = sid) by congruence.
  apply derives_intro; try done.
  { intros st ->%list_elem_of_singleton. right. rewrite Hid', Hs. eauto. }
  intros p _ Ha. pose proof (ag_steps _ _ _ Ha sid) as Hsid. rewrite Hs in Hsid.
  destruct (pj_known_steps p !! sid) as [a|] eqn:Ea; [|done].
  unfold apply_event. cbn [cm_event event_stored re_payload re_occurred_at]. rewrite Ea. simpl.
  rewrite (sa_status _ _ Hsid), eqb_refl. simpl. rewrite Ht. simpl. eexists. split; [done|].
  simpl. unfold upsert. rewrite Hid', Hs.
  assert (Hst := steps_agree_insert _ _ sid _ _ (ag_steps _ _ _ Ha) (Hag a Hsid)).
  apply (agrees_position _ _ _ nv at_) in Ha. destruct Ha. by constructor.
Qed.

(** ** Checkpoints and approvals *)

Lemma derives_checkpoint own r steps at_ nv e id actor corr cp cursor cpo :
  version_next (ar_version r) = Ok nv ->
  event_with_id id (ar_id r) (ar_workspace_id r) nv (cursor_from_version nv) actor
    (CheckpointCreated cp cursor) corr None at_ = Ok e ->
  derives own r steps (mkCommit (run_set_position nv at_ (run_set_checkpoint (Some cp) r)) e [] cpo []).
Proof.
  intros Hn [-> _]%event_with_id_Ok. apply derives_intro; try done; [set_solver|].
  intros p _ Ha. eexists. split; [done|]. apply (agrees_position _ _ _ nv at_) in Ha. destruct Ha. by constructor.
Qed.

Lemma derives_approval own r steps at_ nv e id actor corr approver :
  version_next (ar_version r) = Ok nv ->
  event_with_id id (ar_id r) (ar_workspace_id r) nv (cursor_from_version nv) actor
    (ApprovalGranted approver) corr None at_ = Ok e ->
  derives own r steps (mkCommit (run_set_position nv at_ r) e [] None []).
Proof.
  intros Hn [-> _]%event_with_id_Ok. apply derives_intro; try done; [set_solver|].
  intros p _ Ha. exists p. split; [done|]. by apply agrees_position.
Qed.

(** ** Creation *)

Lemma creates_run ctx run_id obj coord mode parent at_ r id corr e items :
  run_create (mkNewRun run_id (rc_workspace_id ctx) obj coord mode parent None None) at_ = Ok r ->
  event_with_id id run_id (rc_workspace_id ctx) RunVersion_INITIAL (cursor_from_version RunVersion_INITIAL)
    (ActorPrincipal (rc_principal_id ctx)) (RunCreated obj mode (ar_coordinator_snapshot_id r) (ar_parent r))
    corr None at_ = Ok e ->
  creates ctx (mkCommit r e [] None items).
Proof.
  unfold run_create. cbn [nr_objective nr_parent nr_id]. intros H [-> _]%event_with_id_Ok.
  repeat match type of H with (if ?b then _ else _) = _ => destruct b; [discriminate H|] end.
  injection H as <-. split_and!; try done. eexists. split; [done|]. by constructor.
Qed.

(** ** Rules for the parts of a method

    A postcondition is [stable] when it accepts every error: a method that fails commits no
    more. *)

Definition stable {A} (Q : gset Z -> history -> result ApplicationError A -> Prop) : Prop :=
  forall own H e, Q own H (Err e).

Section Rules.
Context {A B : Type} (own : gset Z) (H : history) (Q : gset Z -> history -> result ApplicationError B -> Prop).
Hypothesis HQ : stable Q.
Implicit Types (f : A -> M B).

Lemma wp_M (p : M A) f :
  wp own H p (fun own' H' r => match r with Ok a => wp own' H' (f a) Q | Err _ => True end) ->
  wp own H (p ≫= f) Q.
Proof.
  intros Hp. apply wp_bind. eapply wp_mono; [|exact Hp]. intros own' H' [a|e] _ Hr; [done|]. apply HQ.
Qed.

Lemma wp_pure (r : result ApplicationError A) f :
  (forall a, r = Ok a -> wp own H (f a) Q) -> wp own H (pure r ≫= f) Q.
Proof. intros Hf. apply wp_M. simpl. destruct r; eauto. Qed.

Lemma wp_domain (r : result DomainError A) f :
  (forall a, r = Ok a -> wp own H (f a) Q) -> wp own H (domain r ≫= f) Q.
Proof. intros Hf. apply wp_M. simpl. destruct r; simpl; eauto. Qed.

End Rules.

Section MoreRules.
Context {B : Type} {UT : UuidText} (own : gset Z) (H : history)
  (Q : gset Z -> history -> result ApplicationError B -> Prop) (HQ : stable Q).

Lemma wp_clock (f : Timestamp -> M B) : (forall t, wp own H (f t) Q) -> wp own H (clock_now ≫= f) Q.
Proof. intros Hf. apply wp_M; [done|]. simpl. eauto. Qed.

Lemma wp_new_id (f : Uuid -> M B) : (forall u, wp own H (f u) Q) -> wp own H (new_id ≫= f) Q.
Proof. intros Hf. apply wp_M; [done|]. simpl. eauto. Qed.

Lemma wp_unwrap_or_new o (f : Uuid -> M B) : (forall u, wp own H (f u) Q) -> wp own H (unwrap_or_new o ≫= f) Q.
Proof. intros Hf. apply wp_M; [done|]. destruct o; simpl; eauto. Qed.

Lemma wp_event ctx rid v actor pl corr caus at_ (f : RunEvent -> M B) :
  (forall id e, event_with_id id rid (rc_workspace_id ctx) v (cursor_from_version v) actor pl corr caus at_ = Ok e ->
     wp own H (f e) Q) ->
  wp own H (event_new ctx rid v actor pl corr caus at_ ≫= f) Q.
Proof.
  intros Hf. apply wp_M; [done|]. intros id. unfold domain, from_domain. simpl.
  destruct (event_with_id _ _ _ _ _ _ _ _ _ _) eqn:E; simpl; eauto.
Qed.

Lemma wp_work_item rid kind v at_ action (f : WorkItem -> M B) :
  (forall i, wp own H (f i) Q) -> wp own H (work_item rid kind v at_ action ≫= f) Q.
Proof. intros Hf. apply wp_M; [done|]. simpl. eauto. Qed.

Lemma wp_step_work_items rid v at_ steps (f : list WorkItem -> M B) :
  (forall l, wp own H (f l) Q) -> wp own H (step_work_items rid v at_ steps ≫= f) Q.
Proof.
  intros Hf. apply wp_M; [done|].
  cut (forall R, (forall l, R own H (Ok l)) -> wp own H (step_work_items rid v at_ steps) R); [by intros Hc; apply Hc|].
  induction steps as [|s steps IH]; intros R HR; simpl; [apply HR|].
  destruct (negb _); [by apply IH|]. intros id. apply wp_bind. simpl. apply wp_bind, IH. intros l. apply HR.
Qed.

End MoreRules.

(** ** Loads and commits *)

(** What a loaded snapshot tells: the run is a past version, the steps those of that version or
    of a later one. *)
Definition known_snapshot (H : history) (k : Z * Z) (snap : RunSnapshot) : Prop :=
  known_run H k (sn_run snap) /\
  exists v r, (ar_version (sn_run snap) <= v)%Z /\ version_at H k v = Some (r, steps_map (sn_steps snap)).

Section Access.
Context {B : Type} (own : gset Z) (H : history)
  (Q : gset Z -> history -> result ApplicationError B -> Prop) (HQ : stable Q).

Lemma known_run_extend (H1 H2 : history) k r : H1 ⊆ H2 -> known_run H1 k r -> known_run H2 k r.
Proof. intros Hs (? & ? & ? & st & Hv). split_and!; try done. exists st. by eapply version_at_extend. Qed.

Lemma wp_load (ctx : RequestContext) (id : AgentRunId) (R : gset Z -> history -> result ApplicationError (option RunSnapshot) -> Prop) :
  stable R -> (forall H', H ⊆ H' -> R own H' (Ok None)) ->
  (forall H' snap, H ⊆ H' -> known_snapshot H' (key_of ctx id) snap -> R own H' (Ok (Some snap))) ->
  wp own H (load ctx id) R.
Proof.
  intros HR Hnone Hsome. unfold load. apply wp_bind. intros H1 [[r|]|e] Hs1 Hr1; simpl; [|by apply Hnone|apply HR].
  intros H2 [l|e] Hs2 Hl; simpl; [|apply HR]. intros [cp|e]; simpl; [|apply HR].
  apply Hsome; [by etrans|]. assert (Hk : known_run H2 (key_of ctx id) r) by by eapply known_run_extend.
  split; [done|]. destruct Hk as (_ & _ & _ & st & Hv). destruct (Hl (ar_version r)) as (v' & r' & ? & ?); eauto.
Qed.

Lemma wp_load_run (ctx : RequestContext) (id : AgentRunId) (f : RunSnapshot -> M B) :
  (forall H' snap, H ⊆ H' -> known_snapshot H' (key_of ctx id) snap -> wp own H' (f snap) Q) ->
  wp own H (load_run ctx id ≫= f) Q.
Proof.
  intros Hf. apply wp_M; [done|]. apply wp_bind. apply wp_load; simpl; [done..|]. eauto.
Qed.

Lemma wp_load_at (ctx : RequestContext) (id : AgentRunId) (v : RunVersion) (f : RunSnapshot -> M B) :
  (forall H' snap, H ⊆ H' -> known_snapshot H' (key_of ctx id) snap -> ar_version (sn_run snap) = v ->
     wp own H' (f snap) Q) ->
  wp own H (load_at ctx id v ≫= f) Q.
Proof.
  intros Hf. apply wp_M; [done|]. unfold load_at. apply wp_bind. unfold load_run. apply wp_bind.
  apply wp_load; [intros ???; done|by intros|]. intros H' snap Hs Hk. simpl.
  destruct (negb _) eqn:E; simpl; [done|]. bool_hyps. eauto.
Qed.

End Access.

(** The commit of a method that loaded [snap] and derives its commit from it. *)
Lemma valid_commit_of (own : gset Z) (H : history) ctx c snap :
  let k := key_of ctx (ar_id (cm_run c)) in
  known_snapshot H k snap ->
  version_next (ar_version (sn_run snap)) = Ok (ar_version (cm_run c)) ->
  re_workspace_id (cm_event c) = rc_workspace_id ctx -> re_run_id (cm_event c) = ar_id (cm_run c) ->
  derives own (sn_run snap) (steps_map (sn_steps snap)) c ->
  valid_commit own H ctx c.
Proof.
  intros k ((_ & _ & Hpos & st & Hst) & v' & r' & Hle & Hv') Hn Hw Hi Hd. split_and!; [done..|].
  exists (ar_version (sn_run snap)). split; [by eapply version_previous_next|]. fold k.
  destruct (base.decide (v' = ar_version (sn_run snap))) as [->|Hne].
  - right. exists (sn_run snap), st. split; [done|]. by assert (st = steps_map (sn_steps snap)) as -> by congruence.
  - left. exists v'. split; [lia|eauto].
Qed.

(** A commit from a known run alone, whatever its steps are. *)
Lemma valid_commit_run (own : gset Z) (H : history) ctx c r :
  let k := key_of ctx (ar_id (cm_run c)) in
  known_run H k r -> version_next (ar_version r) = Ok (ar_version (cm_run c)) ->
  re_workspace_id (cm_event c) = rc_workspace_id ctx -> re_run_id (cm_event c) = ar_id (cm_run c) ->
  (forall steps, derives own r steps c) -> valid_commit own H ctx c.
Proof.
  intros k (_ & _ & Hpos & st & Hst) Hn Hw Hi Hd. split_and!; [done..|].
  exists (ar_version r). split; [by eapply version_previous_next|]. right. eauto.
Qed.

Lemma find_step_map l id step :
  find_step l id = Some step -> steps_map l !! id = Some step /\ st_id step = id.
Proof.
  unfold find_step. induction l as [|s l IH]; simpl; [done|]. destruct (st_id s == id) eqn:E; bool_hyps.
  - intros [= <-]. subst. by rewrite lookup_insert_eq.
  - intros Hf. rewrite lookup_insert_ne by done. auto.
Qed.

(** ** The methods *)

Section Methods.
Context {UT : UuidText} (own : gset Z) (H : history) (ctx : RequestContext).
Implicit Types (Q : gset Z -> history -> result ApplicationError RunSnapshot -> Prop).

(** The end of a method: the commit of an event that the loaded snapshot derives. *)
Lemma wp_commit_event Q H1 snap rid nv e id actor pl corr caus at_ c :
  stable Q -> H ⊆ H1 -> known_snapshot H1 (key_of ctx rid) snap ->
  version_next (ar_version (sn_run snap)) = Ok nv ->
  event_with_id id rid (rc_workspace_id ctx) nv (cursor_from_version nv) actor pl corr caus at_ = Ok e ->
  cm_event c = e -> ar_id (cm_run c) = ar_id (sn_run snap) -> ar_version (cm_run c) = nv ->
  (rid = ar_id (sn_run snap) -> rc_workspace_id ctx = ar_workspace_id (sn_run snap) ->
     derives own (sn_run snap) (steps_map (sn_steps snap)) c) ->
  (forall H' snap', H ⊆ H' -> known_run H' (key_of ctx rid) (sn_run snap') -> Q ∅ H' (Ok snap')) ->
  wp own H1 (store_commit ctx c) Q.
Proof.
  intros HQ Hs Hk Hn [He _]%event_with_id_Ok <- Hid Hver Hd Hok.
  pose proof (proj1 Hk) as (Hkw & Hki & _). cbn [key_of fst snd] in Hkw, Hki. split.
  - apply (valid_commit_of own H1 ctx c snap); rewrite ?He; cbn [re_workspace_id re_run_id]; try congruence.
    by apply Hd.
  - rewrite Hid, Hki. intros H2 [snap'|] Hs2 Hc; [|apply HQ]. apply Hok; [by etrans|done].
Qed.

Lemma wp_transition_run_with cmd extra Q :
  stable Q ->
  (forall H' snap, H ⊆ H' -> known_run H' (key_of ctx (tr_run_id cmd)) (sn_run snap) -> Q ∅ H' (Ok snap)) ->
  wp own H (transition_run_with ctx cmd extra) Q.
Proof.
  intros HQ Hok. unfold transition_run_with. apply wp_clock; [done|]. intros at_.
  apply wp_load_at; [done|]. intros H1 snap Hs Hk <-.
  destruct (run_transition _ _ _ _ _) as [change run] eqn:Ht. apply wp_domain; [done|]. intros ch ->.
  apply wp_domain; [done|]. intros nv Hn. apply wp_unwrap_or_new; [done|]. intros corr.
  apply wp_event; [done|]. intros id e He.
  assert (Hrun : ar_id run = ar_id (sn_run snap) /\ ar_version run = nv).
  { pose proof (run_transition_Ok _ _ _ _ _ _ _ Ht) as (_ & _ & nv' & Hn' & ->). assert (nv' = nv) as -> by congruence.
    by destruct (RunStatus.is_terminal _). }
  assert (Hcommit : forall items, wp own H1 (store_commit ctx (mkCommit run e [] None items)) Q).
  { intros items. eapply wp_commit_event; try done; [apply Hrun..|].
    intros Hid Hws. rewrite Hid, Hws in He. by eapply derives_status. }
  destruct (_ && _).
  - apply wp_M; [done|]. intros i. simpl. destruct (RunStatus.is_terminal _); [|apply Hcommit].
    intros [|]; simpl; [apply Hcommit|apply HQ].
  - apply wp_M; [done|]. simpl. destruct (RunStatus.is_terminal _); [|apply Hcommit].
    intros [|]; simpl; [apply Hcommit|apply HQ].
Qed.

Lemma safe_create_run cmd : safe own H (create_run ctx cmd).
Proof.
  unfold safe, create_run. apply wp_clock; [done|]. intros at_. apply wp_new_id; [done|]. intros run_id.
  apply wp_domain; [done|]. intros run Hrun. apply wp_unwrap_or_new; [done|]. intros corr.
  apply wp_event; [done|]. intros id e He. apply wp_work_item; [done|]. intros item.
  apply wp_M; [done|]. split; [by eapply creates_run|]. intros H1 [[]|] Hs; [|done].
  apply wp_M; [done|]. by apply wp_load.
Qed.

Lemma safe_transition_run_with cmd extra : safe own H (transition_run_with ctx cmd extra).
Proof. by apply wp_transition_run_with. Qed.

Lemma safe_resume_run cmd : safe own H (resume_run ctx cmd).
Proof.
  unfold safe, resume_run. apply wp_domain; [done|]. intros nv _. apply wp_new_id; [done|]. intros id.
  apply wp_clock; [done|]. intros at_. by apply wp_transition_run_with.
Qed.

Lemma safe_create_checkpoint cmd : safe own H (create_checkpoint ctx cmd).
Proof.
  unfold safe, create_checkpoint. apply wp_clock; [done|]. intros at_. apply wp_load_at; [done|].
  intros H1 snap Hs Hk <-. apply wp_domain; [done|]. intros nv Hn. apply wp_new_id; [done|]. intros cp.
  apply wp_domain; [done|]. intros checkpoint _. apply wp_new_id; [done|]. intros corr.
  apply wp_event; [done|]. intros id e He. eapply wp_commit_event; try done.
  intros Hid Hws. rewrite Hid, Hws in He. by eapply derives_checkpoint.
Qed.

Lemma safe_transition_step cmd : safe own H (transition_step ctx cmd).
Proof.
  unfold safe, transition_step. apply wp_clock; [done|]. intros at_. apply wp_load_at; [done|].
  intros H1 snap Hs Hk <-. apply wp_pure; [done|]. intros step Hstep%ok_or_Ok.
  assert (Hfind : steps_map (sn_steps snap) !! ts_step_id cmd = Some step /\ st_id step = ts_step_id cmd)
    by by apply find_step_map.
  destruct (match ts_failure cmd with Some _ => _ | None => _ end) as [changed step'] eqn:Hch.
  apply wp_domain; [done|]. intros [] ->.
  assert (Hc : step_changed step step' at_).
  { destruct (ts_failure cmd); [by eapply step_fail_changed|by eapply step_transition_changed]. }
  apply wp_domain; [done|]. intros nv Hn. apply wp_new_id; [done|]. intros corr.
  apply wp_event; [done|]. intros id e He. eapply wp_commit_event; try done.
  intros Hid Hws. rewrite Hid, Hws in He. destruct Hfind. by eapply derives_step.
Qed.

End Methods.

Lemma safe_approve_run {UT : UuidText} (own : gset Z) (H : history) ctx cmd : safe own H (approve_run ctx cmd).
Proof.
  unfold safe, approve_run. apply wp_load_run; [done|]. intros H1 snap Hs Hk.
  destruct (_ !== _); [done|]. apply wp_M; [done|]. apply wp_transition_run_with; [by intros ???|].
  intros H2 approved Hs2 Hk2. apply wp_clock; [done|]. intros at_. apply wp_domain; [done|]. intros nv Hn.
  apply wp_unwrap_or_new; [done|]. intros corr. apply wp_event; [done|]. intros id e He. split; [|done].
  pose proof Hk2 as (Hkw & Hki & _). cbn [key_of fst snd tr_run_id] in Hk2, Hkw, Hki.
  pose proof He as [He' _]%event_with_id_Ok. cbn [cm_run cm_event cm_new_steps].
  apply (valid_commit_run _ _ _ _ (sn_run approved)); rewrite ?He';
    cbn [cm_run cm_event ar_id ar_version run_set_position re_workspace_id re_run_id]; try done.
  - by rewrite Hki.
  - intros steps. rewrite <-Hki, <-Hkw in He. rewrite <-He'. by eapply derives_approval.
Qed.

(** The identifiers a command brings for its steps are its own. *)
Definition dto_ids (cmd : AddRunSteps) : list Z := dto_id <$> as_steps cmd.

Lemma safe_add_steps {UT : UuidText} (H : history) ctx cmd :
  NoDup (dto_ids cmd) -> safe (list_to_set (dto_ids cmd)) H (add_steps ctx cmd).
Proof.
  intros Hd. unfold safe, add_steps. apply wp_clock; [done|]. intros at_. apply wp_load_at; [done|].
  intros H1 snap Hs Hk <-. apply wp_domain; [done|]. intros nv Hn. apply wp_pure; [done|]. intros steps Hst.
  apply wp_unwrap_or_new; [done|]. intros corr. apply wp_event; [done|]. intros id e He.
  apply wp_step_work_items; [done|]. intros items. eapply wp_commit_event; try done.
  intros Hid Hws. rewrite Hid, Hws in He. rewrite Hid in Hst. by eapply derives_add_steps.
Qed.

(** ** Requests *)

Inductive Request : Type :=
| ReqCreate (cmd : CreateRun)
| ReqTransition (cmd : TransitionRun)
| ReqAddSteps (cmd : AddRunSteps)
| ReqTransitionStep (cmd : TransitionRunStep)
| ReqCheckpoint (cmd : CreateCheckpoint)
| ReqPause (cmd : PauseRun)
| ReqResume (cmd : ResumeRun)
| ReqApprove (cmd : ApproveRun)
| ReqCancel (cmd : CancelRun).

Definition program {UT : UuidText} (ctx : RequestContext) (r : Request) : M RunSnapshot :=
  match r with
  | ReqCreate cmd => create_run ctx cmd
  | ReqTransition cmd => transition_run ctx cmd
  | ReqAddSteps cmd => add_steps ctx cmd
  | ReqTransitionStep cmd => transition_step ctx cmd
  | ReqCheckpoint cmd => create_checkpoint ctx cmd
  | ReqPause cmd => pause_run ctx cmd
  | ReqResume cmd => resume_run ctx cmd
  | ReqApprove cmd => approve_run ctx cmd
  | ReqCancel cmd => cancel_run ctx cmd
  end.

(** The step identifiers a request introduces. *)
Definition step_ids (r : Request) : list Z :=
  match r with ReqAddSteps cmd => dto_ids cmd | _ => [] end.

Lemma safe_program {UT : UuidText} (H : history) ctx r :
  NoDup (step_ids r) -> safe (list_to_set (step_ids r)) H (program ctx r).
Proof.
  destruct r; intros Hd; simpl.
  - apply safe_create_run.
  - apply safe_transition_run_with.
  - by apply safe_add_steps.
  - apply safe_transition_step.
  - apply safe_create_checkpoint.
  - apply safe_transition_run_with.
  - apply safe_resume_run.
  - apply safe_approve_run.
  - apply safe_transition_run_with.
Qed.

(** The stores that requests lead to: identifiers of new steps are fresh, requests start at any
    time, and any one of them takes the next step. *)
Inductive reachable {UT : UuidText} `{!RunStore St} : St -> gset Z -> list (M RunSnapshot) -> Prop :=
| reach_empty : reachable sp_empty ∅ []
| reach_request s used pool ctx r :
    reachable s used pool -> NoDup (step_ids r) -> list_to_set (step_ids r) ## used ->
    reachable s (used ∪ list_to_set (step_ids r)) (pool ++ [program ctx r])
| reach_step s used pool i p s' p' :
    reachable s used pool -> pool !! i = Some p -> call_step s p s' p' -> reachable s' used (<[i := p']> pool).

Lemma reachable_sound {UT : UuidText} `{!RunStore St, !RunStoreOk St} (s : St) used pool :
  reachable s used pool -> pool_sound s used pool.
Proof.
  induction 1 as [|s used pool ctx r Hr IH Hd Hf|s used pool i p s' p' Hr IH Hi Hc].
  - apply pool_sound_init.
  - apply pool_sound_spawn; [done..|]. intros H. by apply safe_program.
  - by eapply pool_sound_step.
Qed.
