(* ===== verification/RunSystem.v ===== *)
(** * Concurrent requests as a system

    Requests of the coordinator start at any time and their port calls interleave: one
    [system_step] starts a request or lets one request make its next call.  What a step leaves of
    every stored run: the version counts the events, events are only appended, and the fields a
    run is created with never change. *)

From Stdlib Require Import ZArith Lia String.
From stdpp Require Import base option numbers strings gmap list.
From S2P Require Import Prelude Codec Text RunStatus RunDecider AgentRun RunReplay RunPorts RunStore.
From S2P Require Import RunConcurrency RunConcurrencyProps RunCoordinator RunCoordinatorProps.

Section System.
Context {UT : UuidText} {St : Type} `{!RunStore St}.

(** The store, the step identifiers reserved so far and the requests under way. *)
Abbreviation system := (St * gset Z * list (M RunSnapshot))%type.

Inductive system_step : system -> system -> Prop :=
| system_request s used pool ctx r :
    NoDup (step_ids r) -> list_to_set (step_ids r) ## used ->
    system_step (s, used, pool) (s, used ∪ list_to_set (step_ids r), pool ++ [program ctx r])
| system_call s used (pool : list (M RunSnapshot)) i p s' p' :
    pool !! i = Some p -> call_step s p s' p' -> system_step (s, used, pool) (s', used, <[i := p']> pool).

Definition reached (x : system) : Prop := reachable x.1.1 x.1.2 x.2.

Lemma reached_step (x y : system) : reached x -> system_step x y -> reached y.
Proof.
  intros Hx Hs. destruct Hs as [s used pool ctx r|s used pool i p s' p' Hi Hc]; unfold reached in *; simpl in *.
  - by apply reach_request.
  - by eapply reach_step.
Qed.

Lemma reached_steps (x y : system) : reached x -> rtc system_step x y -> reached y.
Proof. intros Hx Hr. induction Hr as [|x y z Hs Hr IH]; [done|]. apply IH. by eapply reached_step. Qed.

Lemma call_steps_system s used (pool : list (M RunSnapshot)) i p s' p' :
  pool !! i = Some p -> rtc (fun x y => call_step x.1 x.2 y.1 y.2) (s, p) (s', p') ->
  rtc system_step (s, used, pool) (s', used, <[i := p']> pool).
Proof.
  intros Hi Hr. remember (s, p) as x eqn:Hx. remember (s', p') as y eqn:Hy. revert pool s p Hi Hx.
  induction Hr as [x|x y z Hs Hr IH]; intros pool s p Hi ->.
  - injection Hy as <- <-. by rewrite list_insert_id.
  - destruct y as [s1 p1]. eapply rtc_l; [by eapply system_call|].
    pose proof (IH Hy (<[i := p1]> pool) s1 p1) as Hrest. rewrite list_insert_insert_eq in Hrest.
    apply Hrest; [|done]. apply list_lookup_insert_eq. by eapply lookup_lt_Some.
Qed.

(** A request that starts and makes some of its calls with no other in between. *)
Lemma request_calls s used (pool : list (M RunSnapshot)) ctx r s' p' :
  NoDup (step_ids r) -> list_to_set (step_ids r) ## used ->
  rtc (fun x y => call_step x.1 x.2 y.1 y.2) (s, program ctx r) (s', p') ->
  rtc system_step (s, used, pool) (s', used ∪ list_to_set (step_ids r), pool ++ [p']).
Proof.
  intros Hd Hf Hc. eapply rtc_l; [by apply (system_request _ _ _ ctx)|].
  replace (pool ++ [p']) with (<[length pool := p']> (pool ++ [program ctx r])).
  - eapply call_steps_system; [|exact Hc]. rewrite lookup_app_r by done. by rewrite Nat.sub_diag.
  - rewrite insert_app_r_alt by done. by rewrite Nat.sub_diag.
Qed.

(** A request run alone from start to end. *)
Lemma exec_system faults t n s used (pool : list (M RunSnapshot)) ctx r a n' s' :
  NoDup (step_ids r) -> list_to_set (step_ids r) ## used -> exec faults t n s (program ctx r) = (a, n', s') ->
  rtc system_step (s, used, pool) (s', used ∪ list_to_set (step_ids r), pool ++ [Ret a]).
Proof. intros Hd Hf He. apply (request_calls _ _ _ ctx); [done..|]. by eapply exec_steps. Qed.

(** Requests one after the other, each with the faults its commits meet and the time it runs at. *)
Definition call : Type := list bool * Timestamp * RequestContext * Request.

Fixpoint exec_all (n : Z) (s : St) (l : list call) : list (result ApplicationError RunSnapshot) * St :=
  match l with
  | [] => ([], s)
  | (faults, t, ctx, r) :: rest =>
      let '(a, n', s') := exec faults t n s (program ctx r) in
      let '(answers, s'') := exec_all n' s' rest in (a :: answers, s'')
  end.

Definition call_ids (l : list call) : list Z := l ≫= fun x => step_ids x.2.

Lemma exec_all_system n s used (pool : list (M RunSnapshot)) l answers s' :
  NoDup (call_ids l) -> list_to_set (call_ids l) ## used -> exec_all n s l = (answers, s') ->
  exists used', rtc system_step (s, used, pool) (s', used', pool ++ (Ret <$> answers)).
Proof.
  revert n s used pool answers. induction l as [|[[[faults t] ctx] r] l IH]; intros n s used pool answers Hd Hf He.
  { injection He as <- <-. exists used. simpl. by rewrite app_nil_r. }
  cbn [exec_all] in He. destruct (exec faults t n s (program ctx r)) as [[a n1] s1] eqn:E1.
  destruct (exec_all n1 s1 l) as [answers1 s2] eqn:E2. injection He as <- <-.
  unfold call_ids in Hd, Hf. cbn [mbind list_bind snd] in Hd, Hf. rewrite list_to_set_app in Hf.
  apply NoDup_app in Hd as (Hd1 & Hdis & Hd2).
  destruct (IH n1 s1 (used ∪ list_to_set (step_ids r)) (pool ++ [Ret a]) answers1) as [used' Hr]; [done| |done|].
  { intros x Hx. assert (Hx' := Hx). apply elem_of_list_to_set in Hx'. specialize (Hdis x). set_solver. }
  exists used'. rewrite <-app_assoc in Hr. etrans; [|exact Hr]. eapply exec_system; [done|set_solver|done].
Qed.

(** From the empty store. *)
Lemma exec_all_reached n l answers s' :
  NoDup (call_ids l) -> exec_all n sp_empty l = (answers, s') ->
  exists used, reached (s', used, Ret <$> answers).
Proof.
  intros Hd He. destruct (exec_all_system n sp_empty ∅ [] l answers s') as [used Hr]; [done|set_solver|done|].
  exists used. eapply reached_steps; [|exact Hr]. apply reach_empty.
Qed.

(** The fields a run is created with. *)
Record same_origin (r r' : AgentRun) : Prop := {
  so_id : ar_id r' = ar_id r;
  so_workspace : ar_workspace_id r' = ar_workspace_id r;
  so_objective : ar_objective r' = ar_objective r;
  so_mode : ar_execution_mode r' = ar_execution_mode r;
  so_coordinator : ar_coordinator_snapshot_id r' = ar_coordinator_snapshot_id r;
  so_parent : ar_parent r' = ar_parent r;
  so_root : ar_root_run_id r' = ar_root_run_id r;
  so_created : ar_created_at r' = ar_created_at r;
}.

(** Every stored run is still stored, later in its history. *)
Definition grows (s s' : St) : Prop :=
  forall k r st, stored s k = Some (r, st) -> exists r' st' l, stored s' k = Some (r', st') /\
    events s' k = events s k ++ l /\ ar_version r' = (ar_version r + Z.of_nat (length l))%Z /\ same_origin r r'.

#[export] Instance same_origin_preorder : PreOrder same_origin.
Proof. split; [by intros r; constructor|]. intros r1 r2 r3 [] []. constructor; congruence. Qed.

#[export] Instance grows_preorder : PreOrder grows.
Proof.
  split.
  - intros s k r st Hs. exists r, st, []. rewrite app_nil_r. split_and!; [done..|simpl; lia|done].
  - intros s1 s2 s3 H12 H23 k r st Hs. destruct (H12 _ _ _ Hs) as (r2 & st2 & l2 & Hs2 & He2 & Hv2 & Ho2).
    destruct (H23 _ _ _ Hs2) as (r3 & st3 & l3 & Hs3 & He3 & Hv3 & Ho3). exists r3, st3, (l2 ++ l3).
    split_and!; [done|by rewrite He3, He2, app_assoc|rewrite length_app; lia|by etrans].
Qed.

Lemma grows_same (s s' : St) :
  (forall k, stored s' k = stored s k /\ events s' k = events s k) -> grows s s'.
Proof.
  intros Hsame k r st Hs. exists r, st, []. destruct (Hsame k) as [-> ->]. rewrite app_nil_r.
  split_and!; [done..|simpl; lia|done].
Qed.

End System.

Section Growth.
Context {UT : UuidText} {St : Type} `{!RunStore St, !RunStoreOk St}.
Implicit Types (s : St) (H : history).

(** What an accepted commit of a safe program does to its run. *)
Lemma commit_effect s ctx c s' H own :
  sound s H -> unused own s -> valid_commit own H ctx c -> sp_commit s ctx c = Ok s' ->
  let k := key_of ctx (ar_id (cm_run c)) in
  exists r st, stored s k = Some (r, st) /\ ar_version (cm_run c) = (ar_version r + 1)%Z /\
    stored s' k = Some (run_merge r (cm_run c), upsert_all (cm_new_steps c) st) /\
    events s' k = events s k ++ [event_stored (cm_event c)] /\
    (forall k', k' <> k -> stored s' k' = stored s k' /\ events s' k' = events s k').
Proof.
  intros Hs Hu Hvc Hok k. destruct (commit_current _ _ _ _ _ _ Hs Hu Hvc Hok) as (r & st & Hst & _ & Hv & _ & Hown).
  destruct Hs as [Hwf _ _], Hvc as (Hw & Hi & _).
  destruct (sp_commit_ok s ctx c s') as (r1 & st1 & Hs1 & Hs' & Hev & Hframe); try done.
  fold k in Hst, Hs1, Hs', Hev, Hframe. assert (r1 = r /\ st1 = st) as [-> ->] by naive_solver.
  exists r, st. split_and!; try done. unfold version_previous in Hv.
  destruct (Z.leb_spec (ar_version (cm_run c)) 1); [done|]. injection Hv. lia.
Qed.

Lemma commit_grows s ctx c s' H own :
  sound s H -> unused own s -> valid_commit own H ctx c -> sp_commit s ctx c = Ok s' -> grows s s'.
Proof.
  intros Hs Hu Hvc Hok. destruct (commit_effect _ _ _ _ _ _ Hs Hu Hvc Hok) as (r & st & Hst & Hv & Hs' & Hev & Hframe).
  set (k := key_of _ _) in *. intros k' r0 st0 Hk'. destruct (base.decide (k' = k)) as [->|Hne].
  - assert (r0 = r /\ st0 = st) as [-> ->] by naive_solver. do 2 eexists. exists [event_stored (cm_event c)].
    split_and!; [done..| |by constructor]. simpl. lia.
  - destruct (Hframe k' Hne) as [-> ->]. exists r0, st0, []. rewrite app_nil_r. split_and!; [done..|simpl; lia|done].
Qed.

Lemma create_grows s ctx c s' H :
  sound s H -> creates ctx c -> sp_create s ctx c = Ok s' -> grows s s'.
Proof.
  intros [Hwf _ _] (Hw & He & Hi & Hn & _) Hok.
  destruct (sp_create_ok s ctx c s') as (H0 & _ & _ & Hframe); try done.
  { intros st Hin. rewrite Hn in Hin. set_solver. }
  intros k' r0 st0 Hk'. set (k := key_of _ _) in *. destruct (base.decide (k' = k)) as [->|Hne]; [congruence|].
  destruct (Hframe k' Hne) as [-> ->]. exists r0, st0, []. rewrite app_nil_r. split_and!; [done..|simpl; lia|done].
Qed.

Lemma call_grows {A} s (p : prog A) s' p' H own :
  sound s H -> unused own s -> safe own H p -> call_step s p s' p' -> grows s s'.
Proof.
  intros Hs Hu Hp Hc. destruct Hc; unfold safe in Hp; simpl in Hp; try reflexivity;
    try (destruct Hp as [Hp _]; first [by eapply create_grows | by eapply commit_grows]).
  apply grows_same. intros k'. apply sp_cancel_ok, (so_wf _ _ Hs).
Qed.

(** ** The system *)

Lemma system_grows (x y : St * gset Z * list (M RunSnapshot)) :
  reached x -> rtc system_step x y -> grows x.1.1 y.1.1.
Proof.
  intros Hx Hr. induction Hr as [x|x y z Hs Hr IH]; [done|]. etrans; [|by apply IH; eapply reached_step].
  apply reachable_sound in Hx as (H & owns & Hsound & Hsafe & Hown & _).
  destruct Hs as [s used pool ctx r|s used pool i p s' p' Hi Hc]; simpl in *; [done|].
  destruct (Forall2_lookup_r _ _ _ _ _ Hsafe Hi) as (own & Ho & Hp).
  eapply call_grows; try done. by apply Hown; eapply list_elem_of_lookup_2.
Qed.

(** The request at the head of an accepted commit is safe, so the commit has its effect. *)
Lemma reached_commit (x : St * gset Z * list (M RunSnapshot)) i ctx c k s' :
  reached x -> x.2 !! i = Some (Commit ctx c k) -> sp_commit x.1.1 ctx c = Ok s' ->
  exists r st, stored x.1.1 (key_of ctx (ar_id (cm_run c))) = Some (r, st) /\
    ar_version (cm_run c) = (ar_version r + 1)%Z /\
    stored s' (key_of ctx (ar_id (cm_run c))) = Some (run_merge r (cm_run c), upsert_all (cm_new_steps c) st) /\
    events s' (key_of ctx (ar_id (cm_run c))) = events x.1.1 (key_of ctx (ar_id (cm_run c))) ++ [event_stored (cm_event c)].
Proof.
  intros Hx Hi Hok. apply reachable_sound in Hx as (H & owns & Hsound & Hsafe & Hown & _).
  destruct (Forall2_lookup_r _ _ _ _ _ Hsafe Hi) as (own & Ho & Hp). destruct Hp as [Hp _].
  assert (unused own x.1.1) as Hu by by apply Hown; eapply list_elem_of_lookup_2.
  destruct (commit_effect _ _ _ _ _ _ Hsound Hu Hp Hok) as (r & st & ?). exists r, st. naive_solver.
Qed.

End Growth.
