(* ===== verification/WorkQueue.v ===== *)
(** * The work queue and the run lease in PostgreSQL

    [crates/vestrace-infrastructure/src/postgres/run/{work_queue,lease}.rs]: the statements on
    [run_work_items] and [run_leases] as functions on the rows.  [workspace_id] of a statement is
    that of the request context, which row-level security repeats.  A statement is atomic.  The
    times a statement takes stand for the whole microseconds PostgreSQL stores and compares. *)

From Stdlib Require Import ZArith Lia String.
From stdpp Require Import base option numbers strings gmap list.
From S2P Require Import Prelude Codec Text RunStatus RunDecider AgentRun RunReplay RunPorts.

Definition i32_max : Z := 2 ^ 31 - 1.

(** [v as i64] of a [u64] and [v as i32] of a [u32]: two's complement.  The minimum only fixes
    the value for arguments that are not of the type. *)
Definition cast_i64 (v : Z) : Z := if (v <=? isize_max)%Z then v else Z.min (-1) (v - 2 ^ 64).
Definition cast_i32 (v : Z) : Z := if (v <=? i32_max)%Z then v else Z.min (-1) (v - 2 ^ 32).

(** [u64::try_from] and [u32::try_from] of a signed column. *)
Definition try_unsigned (v : Z) : result ApplicationError Z :=
  if (v <? 0)%Z then Err AppStorage else Ok v.

(** ** Work items *)

Record WorkItemRow : Type := mkWorkRow {
  wr_id : WorkItemId;
  wr_workspace_id : WorkspaceId;
  wr_run_id : AgentRunId;
  wr_step_id : option RunStepId;
  wr_kind : string;
  wr_status : string;
  wr_expected_run_version : Z;
  wr_priority : Z;
  wr_available_at : Timestamp;
  wr_attempt : Z;
  wr_max_attempts : Z;
  wr_idempotency_key : text;
  wr_lease_owner : option WorkerId;
  wr_lease_until : option Timestamp;
  wr_last_error : option RunFailure;
  wr_created_at : Timestamp;
}.

Local Open Scope string_scope.

(** [TryFrom<WorkItemRow> for WorkItem]. *)
Definition item_of_row (r : WorkItemRow) : result ApplicationError WorkItem :=
  kind ← (if String.eqb (wr_kind r) "advance_run" then Ok KindAdvanceRun
          else if String.eqb (wr_kind r) "resume_run" then Ok KindResumeRun
          else if String.eqb (wr_kind r) "execute_step" then
            step ← ok_or (wr_step_id r) AppStorage; Ok (KindExecuteStep step)
          else Err AppStorage);
  version_num ← try_unsigned (wr_expected_run_version r);
  version ← map_err (fun _ => AppStorage) (version_new version_num);
  Ok (mkItem (wr_id r) (wr_run_id r) kind version (wr_available_at r) (wr_idempotency_key r)
        (if (wr_attempt r <? 0)%Z then 0 else wr_attempt r)%Z).

Definition kind_columns (k : WorkItemKind) : string * option RunStepId :=
  match k with
  | KindAdvanceRun => ("advance_run", None)
  | KindResumeRun => ("resume_run", None)
  | KindExecuteStep step => ("execute_step", Some step)
  end.

(** The row [insert_work_item] writes; [now] is the transaction's time. *)
Definition row_of_item (ws : WorkspaceId) (now : Timestamp) (i : WorkItem) : WorkItemRow :=
  let '(kind, step) := kind_columns (it_kind i) in
  mkWorkRow (it_id i) ws (it_run_id i) step kind "ready" (cast_i64 (it_expected_run_version i)) 0
    (it_available_at i) (cast_i32 (it_attempt i)) 3 (it_idempotency_key i) None None None now.

(** The primary key, the unique key of a workspace and the check constraints. *)
Definition insert_work_item (ws : WorkspaceId) (now : Timestamp) (rows : list WorkItemRow) (i : WorkItem)
    : result ApplicationError (list WorkItemRow) :=
  let row := row_of_item ws now i in
  if any (fun r => (wr_id r == it_id i)
                   || (wr_workspace_id r == ws) && (wr_idempotency_key r == it_idempotency_key i)) rows
  then Err AppStorage
  else if (wr_attempt row <? 0)%Z || is_empty (it_idempotency_key i) then Err AppStorage
  else Ok (rows ++ [row])%list.

Definition set_lease (r : WorkItemRow) (status : string) (available_at : Timestamp) (attempt : Z)
    (owner : option WorkerId) (until : option Timestamp) (error : option RunFailure) : WorkItemRow :=
  mkWorkRow (wr_id r) (wr_workspace_id r) (wr_run_id r) (wr_step_id r) (wr_kind r) status
    (wr_expected_run_version r) (wr_priority r) available_at attempt (wr_max_attempts r) (wr_idempotency_key r)
    owner until error (wr_created_at r).

(** The [WHERE] of [next_item]: ready, or leased by a lease that has expired. *)
Definition leasable (ws : WorkspaceId) (now : Timestamp) (r : WorkItemRow) : bool :=
  (wr_workspace_id r == ws) && (wr_available_at r <=? now)%Z &&
  (String.eqb (wr_status r) "ready"
   || String.eqb (wr_status r) "leased"
      && match wr_lease_until r with Some u => (u <=? now)%Z | None => false end).

(** [ORDER BY priority DESC, available_at, created_at, id]. *)
Definition before (a b : WorkItemRow) : bool :=
  if negb (wr_priority a =? wr_priority b)%Z then (wr_priority b <? wr_priority a)%Z else
  if negb (wr_available_at a =? wr_available_at b)%Z then (wr_available_at a <? wr_available_at b)%Z else
  if negb (wr_created_at a =? wr_created_at b)%Z then (wr_created_at a <? wr_created_at b)%Z else
  (wr_id a <? wr_id b)%Z.

(** The first row of the order that satisfies [p]. *)
Fixpoint first_row (p : WorkItemRow -> bool) (rows : list WorkItemRow) : option WorkItemRow :=
  match rows with
  | [] => None
  | r :: rest =>
      match first_row p rest with
      | None => if p r then Some r else None
      | Some b => if p r && before r b then Some r else Some b
      end
  end.

Definition update_row (id : WorkItemId) (f : WorkItemRow -> WorkItemRow) (rows : list WorkItemRow)
    : list WorkItemRow :=
  map (fun r => if wr_id r == id then f r else r) rows.

(** [locked] are the rows other transactions hold: [FOR UPDATE SKIP LOCKED]. *)
Definition lease_next (locked : WorkItemId -> bool) (ws : WorkspaceId) (worker : WorkerId)
    (now lease_until : Timestamp) (rows : list WorkItemRow)
    : result ApplicationError (option WorkItem) * list WorkItemRow :=
  match first_row (fun r => leasable ws now r && negb (locked (wr_id r))) rows with
  | None => (Ok None, rows)
  | Some r =>
      if (i32_max <? wr_attempt r + 1)%Z then (Err AppStorage, rows) else
      let leased := set_lease r "leased" (wr_available_at r) (wr_attempt r + 1) (Some worker) (Some lease_until)
                      (wr_last_error r) in
      let rows' := update_row (wr_id r) (fun _ => leased) rows in
      (match item_of_row leased with Ok i => Ok (Some i) | Err e => Err e end, rows')
  end.

(** An [UPDATE] of the rows that satisfy [p]: the number of rows and the table. *)
Definition update_where (p : WorkItemRow -> bool) (f : WorkItemRow -> WorkItemRow) (rows : list WorkItemRow)
    : Z * list WorkItemRow :=
  (Z.of_nat (length (filter (fun r => Is_true (p r)) rows)), map (fun r => if p r then f r else r) rows).

Definition held (ws : WorkspaceId) (i : WorkItem) (r : WorkItemRow) : bool :=
  (wr_id r == it_id i) && (wr_workspace_id r == ws) && String.eqb (wr_status r) "leased".

(** [rows_affected() == 0] is a conflict. *)
Definition affected (x : Z * list WorkItemRow) : result ApplicationError unit * list WorkItemRow :=
  if (x.1 =? 0)%Z then (Err AppConflict, x.2) else (Ok tt, x.2).

Definition complete (ws : WorkspaceId) (i : WorkItem) (rows : list WorkItemRow)
    : result ApplicationError unit * list WorkItemRow :=
  affected (update_where (held ws i)
    (fun r => set_lease r "completed" (wr_available_at r) (wr_attempt r) None None (wr_last_error r)) rows).

Definition retry (ws : WorkspaceId) (i : WorkItem) (available_at : Timestamp) (error : RunFailure)
    (rows : list WorkItemRow) : result ApplicationError unit * list WorkItemRow :=
  affected (update_where (held ws i)
    (fun r => set_lease r (if (wr_max_attempts r <=? wr_attempt r)%Z then "dead_letter" else "ready")
                available_at (wr_attempt r) None None (Some error)) rows).

Definition cancel_rows (ws : WorkspaceId) (run_id : AgentRunId) (at_ : Timestamp) (rows : list WorkItemRow)
    : Z * list WorkItemRow :=
  update_where
    (fun r => (wr_run_id r == run_id) && (wr_workspace_id r == ws) &&
       (String.eqb (wr_status r) "ready"
        || String.eqb (wr_status r) "leased"
           && match wr_lease_until r with Some u => (u <? at_)%Z | None => false end))
    (fun r => set_lease r "cancelled" (wr_available_at r) (wr_attempt r) None None (wr_last_error r)) rows.

Definition dead_letter (ws : WorkspaceId) (i : WorkItem) (error : RunFailure) (rows : list WorkItemRow)
    : result ApplicationError unit * list WorkItemRow :=
  affected (update_where
    (fun r => (wr_id r == it_id i) && (wr_workspace_id r == ws) && (wr_idempotency_key r == it_idempotency_key i))
    (fun r => set_lease r "dead_letter" (wr_available_at r) (wr_attempt r) None None (Some error)) rows).

(** ** Run leases *)

Record RunLease : Type := mkLease {
  rl_run_id : AgentRunId;
  rl_worker_id : WorkerId;
  rl_generation : Z;
  rl_acquired_at : Timestamp;
  rl_heartbeat_at : Timestamp;
  rl_lease_until : Timestamp;
}.

Record AcquireRunLease : Type := mkAcquire {
  al_run_id : AgentRunId;
  al_worker_id : WorkerId;
  al_now : Timestamp;
  al_lease_until : Timestamp;
}.

(** A row of [run_leases]; the key is [run_id]. *)
Record LeaseRow : Type := mkLeaseRow {
  lr_workspace_id : WorkspaceId;
  lr_worker_id : WorkerId;
  lr_generation : Z;
  lr_acquired_at : Timestamp;
  lr_heartbeat_at : Timestamp;
  lr_lease_until : Timestamp;
}.

Definition lease_of_row (run_id : AgentRunId) (worker : WorkerId) (r : LeaseRow) : RunLease :=
  mkLease run_id worker (lr_generation r) (lr_acquired_at r) (lr_heartbeat_at r) (lr_lease_until r).

(** [INSERT ... ON CONFLICT (run_id) DO UPDATE ... WHERE lease_until < now AND workspace_id = ws].
    A conflicting row of another workspace is a row-level security violation. *)
Definition acquire (ws : WorkspaceId) (req : AcquireRunLease) (leases : gmap Z LeaseRow)
    : result ApplicationError RunLease * gmap Z LeaseRow :=
  let grant g :=
    let row := mkLeaseRow ws (al_worker_id req) g (al_now req) (al_now req) (al_lease_until req) in
    (Ok (lease_of_row (al_run_id req) (al_worker_id req) row), <[al_run_id req := row]> leases) in
  match leases !! al_run_id req with
  | None => grant 1%Z
  | Some row =>
      if lr_workspace_id row !== ws then (Err AppStorage, leases) else
      if negb (lr_lease_until row <? al_now req)%Z then (Err AppConflict, leases) else
      if (isize_max <? lr_generation row + 1)%Z then (Err AppStorage, leases) else
      grant (lr_generation row + 1)%Z
  end.

(** Whether the row is the one [lease] names. *)
Definition names_row (ws : WorkspaceId) (lease : RunLease) (r : LeaseRow) : bool :=
  (lr_workspace_id r == ws) && (lr_worker_id r == rl_worker_id lease)
  && (lr_generation r =? cast_i64 (rl_generation lease))%Z.

(** The statement's current time is the heartbeat time the caller's lease carries. *)
Definition heartbeat (ws : WorkspaceId) (lease : RunLease) (extend_until : Timestamp) (leases : gmap Z LeaseRow)
    : result ApplicationError RunLease * gmap Z LeaseRow :=
  match leases !! rl_run_id lease with
  | Some r =>
      if names_row ws lease r && (rl_heartbeat_at lease <? lr_lease_until r)%Z then
        let row := mkLeaseRow (lr_workspace_id r) (lr_worker_id r) (lr_generation r) (lr_acquired_at r)
                     (rl_heartbeat_at lease) extend_until in
        (Ok (lease_of_row (rl_run_id lease) (rl_worker_id lease) row), <[rl_run_id lease := row]> leases)
      else (Err AppConflict, leases)
  | None => (Err AppConflict, leases)
  end.

Definition release (ws : WorkspaceId) (lease : RunLease) (leases : gmap Z LeaseRow)
    : result ApplicationError unit * gmap Z LeaseRow :=
  match leases !! rl_run_id lease with
  | Some r => if names_row ws lease r then (Ok tt, delete (rl_run_id lease) leases) else (Err AppConflict, leases)
  | None => (Err AppConflict, leases)
  end.
