(* ===== verification/WorkQueueProps.v ===== *)
(** * Queue and lease operations in sequence

    The statements on [run_work_items] and [run_leases] as operations of any client, and what a
    leased item or a granted lease keeps while other clients operate. *)

From Stdlib Require Import ZArith Lia String.
From stdpp Require Import base option numbers strings gmap list.
From S2P Require Import Prelude Codec Text RunStatus RunDecider AgentRun RunReplay RunPorts WorkQueue.

(** ** The order of the queue *)

(** [before] is total on rows with distinct identifiers and transitive. *)
Lemma before_cases a b :
  before a b = true <->
  (wr_priority b < wr_priority a)%Z \/ wr_priority a = wr_priority b /\
  ((wr_available_at a < wr_available_at b)%Z \/ wr_available_at a = wr_available_at b /\
   ((wr_created_at a < wr_created_at b)%Z \/ wr_created_at a = wr_created_at b /\ (wr_id a < wr_id b)%Z)).
Proof.
  unfold before. destruct (Z.eqb_spec (wr_priority a) (wr_priority b)); simpl; [|rewrite Z.ltb_lt; lia].
  destruct (Z.eqb_spec (wr_available_at a) (wr_available_at b)); simpl; [|rewrite Z.ltb_lt; lia].
  destruct (Z.eqb_spec (wr_created_at a) (wr_created_at b)); simpl; rewrite Z.ltb_lt; lia.
Qed.

Lemma before_total a b : wr_id a <> wr_id b -> before a b = false -> before b a = true.
Proof. intros Hne Hf. apply not_true_iff_false in Hf. rewrite before_cases in Hf |- *. lia. Qed.

Lemma before_trans a b c : before a b = true -> before b c = true -> before a c = true.
Proof. rewrite !before_cases. lia. Qed.

Lemma first_row_None p rows : first_row p rows = None <-> forall r, r ∈ rows -> p r = false.
Proof.
  induction rows as [|r rows IH]; simpl; [set_solver|]. destruct (first_row p rows) as [b|].
  - split; [by destruct (p r && before r b)|]. intros H. exfalso. apply proj2 in IH. discriminate IH. set_solver.
  - destruct (p r) eqn:Hp; split; try done.
    + intros H. specialize (H r). rewrite Hp in H. set_solver.
    + intros _ r' [->|Hin]%elem_of_cons; [done|]. by apply IH.
Qed.

(** The row [first_row] picks satisfies the predicate and comes before every other that does. *)
Lemma first_row_Some p rows b :
  NoDup (wr_id <$> rows) -> first_row p rows = Some b ->
  b ∈ rows /\ p b = true /\ forall r, r ∈ rows -> p r = true -> r = b \/ before b r = true.
Proof.
  revert b. induction rows as [|r rows IH]; intros b Hd Hf; simpl in Hf; [done|].
  apply NoDup_cons in Hd as [Hr Hd]. destruct (first_row p rows) as [b'|] eqn:E.
  - destruct (IH b' Hd eq_refl) as (Hin & Hp & Hmin). assert (wr_id r <> wr_id b').
    { intros Heq. apply Hr. rewrite Heq. by apply list_elem_of_fmap_2. }
    destruct (p r && before r b') eqn:Hb; injection Hf as <-.
    + apply andb_prop in Hb as [Hpr Hb]. split_and!; [set_solver|done|].
      intros r' [->|Hr']%elem_of_cons Hpr'; [by left|]. right.
      destruct (Hmin r' Hr' Hpr') as [->|Hlt]; [done|by eapply before_trans].
    + split_and!; [set_solver|done|]. intros r' [->|Hr']%elem_of_cons Hpr'; [|by apply Hmin].
      right. rewrite Hpr' in Hb. by apply before_total.
  - destruct (p r) eqn:Hp; [|done]. injection Hf as <-. split_and!; [set_solver|done|].
    intros r' [->|Hr']%elem_of_cons Hpr'; [by left|]. apply (first_row_None p rows) with (r := r') in E; [congruence|done].
Qed.

(** ** Operations of any client *)

Inductive QueueOp : Type :=
| OpInsert (now : Timestamp) (i : WorkItem)
| OpLease (locked : WorkItemId -> bool) (worker : WorkerId) (now lease_until : Timestamp)
| OpComplete (i : WorkItem)
| OpRetry (i : WorkItem) (available_at : Timestamp) (error : RunFailure)
| OpCancel (run_id : AgentRunId) (at_ : Timestamp)
| OpDeadLetter (i : WorkItem) (error : RunFailure).

(** The rows after an operation of workspace [ws], and the item it leased. *)
Definition queue_op (ws : WorkspaceId) (op : QueueOp) (rows : list WorkItemRow)
    : option WorkItem * list WorkItemRow :=
  match op with
  | OpInsert now i => (None, match insert_work_item ws now rows i with Ok rows' => rows' | Err _ => rows end)
  | OpLease locked worker now lease_until =>
      let '(r, rows') := lease_next locked ws worker now lease_until rows in
      (match r with Ok o => o | Err _ => None end, rows')
  | OpComplete i => (None, (complete ws i rows).2)
  | OpRetry i available_at error => (None, (retry ws i available_at error rows).2)
  | OpCancel run_id at_ => (None, (cancel_rows ws run_id at_ rows).2)
  | OpDeadLetter i error => (None, (dead_letter ws i error rows).2)
  end.

(** The operation neither settles the item nor comes after [u]. *)
Definition leaves_item (id : WorkItemId) (u : Timestamp) (op : QueueOp) : Prop :=
  match op with
  | OpInsert _ _ => True
  | OpLease _ _ now _ => (now < u)%Z
  | OpComplete i | OpRetry i _ _ | OpDeadLetter i _ => it_id i <> id
  | OpCancel _ at_ => (at_ <= u)%Z
  end.

Lemma affected_rows x : (affected x).2 = x.2.
Proof. unfold affected. by destruct (_ =? _)%Z. Qed.

Lemma update_where_ids p f rows :
  (forall r, wr_id (f r) = wr_id r) -> wr_id <$> (update_where p f rows).2 = wr_id <$> rows.
Proof.
  intros Hf. unfold update_where. simpl. induction rows as [|r rows IH]; simpl; [done|].
  f_equal; [by destruct (p r)|exact IH].
Qed.

Lemma update_where_in p f rows r : r ∈ rows -> p r = false -> r ∈ (update_where p f rows).2.
Proof.
  intros Hin Hp. unfold update_where. simpl. apply list_elem_of_fmap. exists r. by rewrite Hp.
Qed.

Lemma update_row_ids id f rows :
  (forall r, r ∈ rows -> wr_id r = id -> wr_id (f r) = id) -> wr_id <$> update_row id f rows = wr_id <$> rows.
Proof.
  intros Hf. unfold update_row. induction rows as [|r rows IH]; simpl; [done|].
  f_equal; [|apply IH; set_solver]. destruct (wr_id r == id) eqn:E; [|done]. rewrite eqb_true in E.
  rewrite E. apply Hf; [set_solver|done].
Qed.

(** What [lease_next] does when a row is eligible. *)
Lemma lease_next_Some locked ws worker now until rows i rows' :
  NoDup (wr_id <$> rows) -> lease_next locked ws worker now until rows = (Ok (Some i), rows') ->
  exists r, r ∈ rows /\ leasable ws now r = true /\ locked (wr_id r) = false /\
    (forall r', r' ∈ rows -> leasable ws now r' = true -> locked (wr_id r') = false -> r' = r \/ before r r' = true) /\
    it_id i = wr_id r /\ it_run_id i = wr_run_id r /\
    rows' = update_row (wr_id r) (fun _ => set_lease r "leased" (wr_available_at r) (wr_attempt r + 1)
                                    (Some worker) (Some until) (wr_last_error r)) rows /\
    item_of_row (set_lease r "leased" (wr_available_at r) (wr_attempt r + 1) (Some worker) (Some until)
                   (wr_last_error r)) = Ok i.
Proof.
  intros Hd. unfold lease_next. destruct (first_row _ rows) as [r|] eqn:E; [|done].
  destruct (_ <? _)%Z; [done|]. intros H.
  destruct (item_of_row _) as [i'|] eqn:Hi; [|done]. injection H as <- <-.
  apply first_row_Some in E as (Hin & Hp & Hmin); [|done]. apply andb_prop in Hp as [Hl Hk]. apply negb_true_iff in Hk.
  exists r. split_and!; try done.
  - intros r' Hr' Hl' Hk'. apply Hmin; [done|]. by rewrite Hl', Hk'.
  - unfold item_of_row in Hi. apply bind_Ok in Hi as (? & _ & Hi). apply bind_Ok in Hi as (? & _ & Hi).
    apply bind_Ok in Hi as (? & _ & Hi). by injection Hi as <-.
  - unfold item_of_row in Hi. apply bind_Ok in Hi as (? & _ & Hi). apply bind_Ok in Hi as (? & _ & Hi).
    apply bind_Ok in Hi as (? & _ & Hi). by injection Hi as <-.
Qed.

(** ** What operations keep *)

Lemma lease_next_ids locked ws worker now until rows :
  wr_id <$> (lease_next locked ws worker now until rows).2 = wr_id <$> rows.
Proof.
  unfold lease_next. destruct (first_row _ rows) as [r|]; [|done]. destruct (_ <? _)%Z; [done|].
  by apply update_row_ids.
Qed.

Lemma insert_work_item_rows ws now rows i rows' :
  insert_work_item ws now rows i = Ok rows' ->
  rows' = rows ++ [row_of_item ws now i] /\ (it_id i ∉ (wr_id <$> rows)) /\
  forall r, r ∈ rows -> wr_workspace_id r = ws -> wr_idempotency_key r <> it_idempotency_key i.
Proof.
  unfold insert_work_item. cbv zeta. destruct (any _ _) eqn:E; [done|]. destruct (_ || _); [done|].
  intros H. injection H as <-. split; [done|].
  assert (Hr : forall r, r ∈ rows -> ((wr_id r == it_id i) || (wr_workspace_id r == ws)
      && (wr_idempotency_key r == it_idempotency_key i)) = false).
  { intros r Hin. destruct (_ || _) eqn:Eb; [|done]. rewrite <-E. symmetry. apply existsb_exists.
    exists r. split; [by apply list_elem_of_In|done]. }
  split.
  - intros (r & Heq & Hin)%list_elem_of_fmap. specialize (Hr r Hin). rewrite (proj2 (eqb_true _ _)) in Hr; done.
  - intros r Hin Hws Hk. specialize (Hr r Hin). apply orb_false_iff in Hr as [_ Hr].
    by rewrite (proj2 (eqb_true _ _) Hws), (proj2 (eqb_true _ _) Hk) in Hr.
Qed.

Lemma row_of_item_id ws now i : wr_id (row_of_item ws now i) = it_id i.
Proof. unfold row_of_item. by destruct (kind_columns _). Qed.

Lemma queue_op_NoDup ws op rows : NoDup (wr_id <$> rows) -> NoDup (wr_id <$> (queue_op ws op rows).2).
Proof.
  intros Hd. destruct op as [now i|locked worker now u|i|i at_ e|run at_|i e]; cbn [queue_op snd].
  - destruct (insert_work_item _ _ _ _) as [rows'|] eqn:E; [|done].
    apply insert_work_item_rows in E as (-> & Hn & _). rewrite fmap_app, NoDup_app. split_and!; [done| |].
    + intros x Hx. simpl. rewrite row_of_item_id. set_solver.
    + apply NoDup_singleton.
  - pose proof (lease_next_ids locked ws worker now u rows) as H. destruct (lease_next _ _ _ _ _ _). simpl in *. by rewrite H.
  - unfold complete. by rewrite affected_rows, update_where_ids.
  - unfold retry. by rewrite affected_rows, update_where_ids.
  - unfold cancel_rows. by rewrite update_where_ids.
  - unfold dead_letter. by rewrite affected_rows, update_where_ids.
Qed.

(** A row that is leased until [u]. *)
Definition leased_until (r : WorkItemRow) (u : Timestamp) : Prop :=
  wr_status r = "leased"%string /\ wr_lease_until r = Some u.

Lemma not_leasable ws now r u : leased_until r u -> (now < u)%Z -> leasable ws now r = false.
Proof.
  intros [Hs Hu] Hlt. unfold leasable. rewrite Hs, Hu. simpl.
  rewrite (proj2 (Z.leb_gt u now)) by lia. by rewrite !andb_false_r.
Qed.

Lemma NoDup_id_eq rows r r' : NoDup (wr_id <$> rows) -> r ∈ rows -> r' ∈ rows -> wr_id r = wr_id r' -> r = r'.
Proof.
  intros Hd [i Hi]%list_elem_of_lookup [j Hj]%list_elem_of_lookup Heq.
  assert (i = j) as ->; [|congruence].
  apply (NoDup_lookup (wr_id <$> rows) i j (wr_id r)); [done|rewrite list_lookup_fmap, Hi; done|].
  rewrite list_lookup_fmap, Hj. simpl. congruence.
Qed.

(** An operation that leaves an item leased until [u] does not return it. *)
Lemma queue_op_keeps ws op rows r u :
  NoDup (wr_id <$> rows) -> r ∈ rows -> leased_until r u -> leaves_item (wr_id r) u op ->
  r ∈ (queue_op ws op rows).2 /\ forall i, (queue_op ws op rows).1 = Some i -> it_id i <> wr_id r.
Proof.
  intros Hd Hin Hu Hop. destruct op as [now i|locked worker now u'|i|i at_ e|run at_|i e]; simpl in *.
  - split; [|done]. destruct (insert_work_item _ _ _ _) eqn:E; [|done].
    apply insert_work_item_rows in E as (-> & _). set_solver.
  - destruct (lease_next locked ws worker now u' rows) as [res rows'] eqn:E. simpl.
    assert (Hpick : forall r', first_row (fun r => leasable ws now r && negb (locked (wr_id r))) rows = Some r' ->
      wr_id r' <> wr_id r).
    { intros r' (Hin' & Hp & _)%first_row_Some Heq; [|done].
      assert (r' = r) as -> by by eapply NoDup_id_eq. by rewrite (not_leasable ws now r u) in Hp. }
    unfold lease_next in E. destruct (first_row _ rows) as [r'|]; [|by injection E as <- <-].
    specialize (Hpick r' eq_refl). destruct (_ <? _)%Z; [by injection E as <- <-|]. injection E as <- <-. split.
    + unfold update_row. apply list_elem_of_fmap. exists r. split; [|done].
      rewrite (proj2 (eqb_false _ _)); [done|congruence].
    + intros i Hi. destruct (item_of_row _) as [i'|] eqn:Ei; [|done]. injection Hi as <-.
      unfold item_of_row in Ei. apply bind_Ok in Ei as (? & _ & Ei). apply bind_Ok in Ei as (? & _ & Ei).
      apply bind_Ok in Ei as (? & _ & Ei). injection Ei as <-. simpl. congruence.
  - split; [|done]. unfold complete. rewrite affected_rows. apply update_where_in; [done|].
    unfold held. rewrite (proj2 (eqb_false _ _)); [done|congruence].
  - split; [|done]. unfold retry. rewrite affected_rows. apply update_where_in; [done|].
    unfold held. rewrite (proj2 (eqb_false _ _)); [done|congruence].
  - split; [|done]. unfold cancel_rows. apply update_where_in; [done|]. destruct Hu as [Hs Hl]. rewrite Hs, Hl. simpl.
    rewrite (proj2 (Z.ltb_ge u at_)) by lia. by rewrite !andb_false_r.
  - split; [|done]. unfold dead_letter. rewrite affected_rows. apply update_where_in; [done|].
    rewrite (proj2 (eqb_false _ _)); [done|congruence].
Qed.

(** ** Lease operations of any client *)

Inductive LeaseOp : Type :=
| OpAcquire (req : AcquireRunLease)
| OpHeartbeat (lease : RunLease) (extend_until : Timestamp)
| OpRelease (lease : RunLease).

Definition lease_op (ws : WorkspaceId) (op : LeaseOp) (leases : gmap Z LeaseRow)
    : option RunLease * gmap Z LeaseRow :=
  match op with
  | OpAcquire req =>
      let '(r, leases') := acquire ws req leases in (match r with Ok l => Some l | Err _ => None end, leases')
  | OpHeartbeat lease extend_until =>
      let '(r, leases') := heartbeat ws lease extend_until leases in
      (match r with Ok l => Some l | Err _ => None end, leases')
  | OpRelease lease => (None, (release ws lease leases).2)
  end.

(** The operation is not by the holder of row [r] of [run_id], and no acquisition comes after its end. *)
Definition leaves_lease (run_id : AgentRunId) (r : LeaseRow) (op : LeaseOp) : Prop :=
  match op with
  | OpAcquire req => al_run_id req = run_id -> (al_now req <= lr_lease_until r)%Z
  | OpHeartbeat lease _ | OpRelease lease =>
      rl_run_id lease = run_id -> rl_worker_id lease <> lr_worker_id r \/ cast_i64 (rl_generation lease) <> lr_generation r
  end.

Lemma names_row_other ws lease r :
  rl_worker_id lease <> lr_worker_id r \/ cast_i64 (rl_generation lease) <> lr_generation r ->
  names_row ws lease r = false.
Proof.
  intros [Hw|Hg]; unfold names_row.
  - rewrite (proj2 (eqb_false (lr_worker_id r) _)) by congruence. by rewrite andb_false_r.
  - rewrite (proj2 (Z.eqb_neq (lr_generation r) _)) by congruence. by rewrite andb_false_r.
Qed.

Lemma lease_op_keeps ws op leases run_id r :
  leases !! run_id = Some r -> leaves_lease run_id r op ->
  (lease_op ws op leases).2 !! run_id = Some r /\
  forall l, (lease_op ws op leases).1 = Some l -> rl_run_id l <> run_id.
Proof.
  intros Hr Hop. destruct op as [req|lease u|lease]; simpl in *.
  - unfold acquire. destruct (base.decide (al_run_id req = run_id)) as [<-|Hne].
    + rewrite Hr. destruct (_ !== _); [done|].
      by rewrite (proj2 (Z.ltb_ge (lr_lease_until r) (al_now req)) (Hop eq_refl)).
    + repeat case_match; simplify_eq/=; split; try done; try (by rewrite lookup_insert_ne); by intros ? [= <-].
  - unfold heartbeat. destruct (base.decide (rl_run_id lease = run_id)) as [<-|Hne].
    + rewrite Hr, names_row_other by auto. done.
    + repeat case_match; simplify_eq/=; split; try done; try (by rewrite lookup_insert_ne); by intros ? [= <-].
  - unfold release. destruct (base.decide (rl_run_id lease = run_id)) as [<-|Hne].
    + rewrite Hr, names_row_other by auto. done.
    + split; [|done]. repeat case_match; simpl; try done. by rewrite lookup_delete_ne.
Qed.

(** A granted lease is in the table, with the next generation. *)
Lemma acquire_Ok ws req leases l leases' :
  acquire ws req leases = (Ok l, leases') ->
  leases' !! al_run_id req =
    Some (mkLeaseRow ws (al_worker_id req) (rl_generation l) (al_now req) (al_now req) (al_lease_until req)) /\
  l = mkLease (al_run_id req) (al_worker_id req) (rl_generation l) (al_now req) (al_now req) (al_lease_until req) /\
  match leases !! al_run_id req with
  | None => rl_generation l = 1%Z
  | Some r => (lr_lease_until r < al_now req)%Z /\ lr_workspace_id r = ws /\
              rl_generation l = (lr_generation r + 1)%Z /\ (rl_generation l <= isize_max)%Z
  end.
Proof.
  unfold acquire. destruct (leases !! al_run_id req) as [r|] eqn:E.
  - destruct (_ !== _) eqn:Ew; [done|]. destruct (Z.ltb_spec (lr_lease_until r) (al_now req)); [|done]. simpl.
    destruct (Z.ltb_spec isize_max (lr_generation r + 1)); [done|]. intros [= <- <-].
    apply negb_false_iff in Ew. rewrite eqb_true in Ew. split_and!; try done. by rewrite lookup_insert_eq.
  - intros [= <- <-]. split_and!; try done. by rewrite lookup_insert_eq.
Qed.
