(* ===== verification/WorkQueueSpec.v ===== *)
(** * What the work queue and the run leases guarantee *)

From Stdlib Require Import ZArith Lia String.
From stdpp Require Import base option numbers strings gmap list.
From S2P Require Import Prelude Codec Text RunStatus RunDecider AgentRun RunReplay RunPorts WorkQueue.
From S2P Require Import WorkQueueProps.

(** A sequence of operations: the items they leased and the rows they leave. *)
Fixpoint queue_run (ws : WorkspaceId) (ops : list QueueOp) (rows : list WorkItemRow)
    : list WorkItem * list WorkItemRow :=
  match ops with
  | [] => ([], rows)
  | op :: rest =>
      let '(o, rows1) := queue_op ws op rows in
      let '(items, rows2) := queue_run ws rest rows1 in
      (match o with Some i => i :: items | None => items end, rows2)
  end.

Fixpoint lease_run (ws : WorkspaceId) (ops : list LeaseOp) (leases : gmap Z LeaseRow)
    : list RunLease * gmap Z LeaseRow :=
  match ops with
  | [] => ([], leases)
  | op :: rest =>
      let '(o, leases1) := lease_op ws op leases in
      let '(granted, leases2) := lease_run ws rest leases1 in
      (match o with Some l => l :: granted | None => granted end, leases2)
  end.

Lemma queue_run_keeps ws ops rows r u :
  NoDup (wr_id <$> rows) -> r ∈ rows -> leased_until r u -> Forall (leaves_item (wr_id r) u) ops ->
  r ∈ (queue_run ws ops rows).2 /\ Forall (fun i => it_id i <> wr_id r) (queue_run ws ops rows).1.
Proof.
  intros Hd Hin Hu Hops. revert rows Hd Hin. induction Hops as [|op ops Hop Hops IH]; intros rows Hd Hin; [done|].
  destruct (queue_op_keeps ws op rows r u Hd Hin Hu Hop) as [Hin' Hne].
  assert (Hd' := queue_op_NoDup ws op rows Hd). cbn [queue_run]. destruct (queue_op ws op rows) as [o rows1].
  specialize (IH rows1 Hd' Hin'). destruct (queue_run ws ops rows1) as [items rows2]. destruct IH as [IH1 IH2].
  split; [done|]. destruct o; simpl in *; [constructor; auto|done].
Qed.

Lemma lease_run_keeps ws ops leases run_id r :
  leases !! run_id = Some r -> Forall (leaves_lease run_id r) ops ->
  (lease_run ws ops leases).2 !! run_id = Some r /\ Forall (fun l => rl_run_id l <> run_id) (lease_run ws ops leases).1.
Proof.
  intros Hr Hops. revert leases Hr. induction Hops as [|op ops Hop Hops IH]; intros leases Hr; [done|].
  destruct (lease_op_keeps ws op leases run_id r Hr Hop) as [Hr' Hne]. cbn [lease_run].
  destruct (lease_op ws op leases) as [o leases1]. specialize (IH leases1 Hr').
  destruct (lease_run ws ops leases1) as [granted leases2]. destruct IH as [IH1 IH2].
  split; [done|]. destruct o; simpl in *; [constructor; auto|done].
Qed.

(** A leased item's row. *)
Lemma lease_next_row locked ws worker now until rows i rows' :
  NoDup (wr_id <$> rows) -> lease_next locked ws worker now until rows = (Ok (Some i), rows') ->
  exists r r', r ∈ rows /\ wr_id r = it_id i /\ leasable ws now r = true /\
    r' = set_lease r "leased" (wr_available_at r) (wr_attempt r + 1) (Some worker) (Some until) (wr_last_error r) /\
    r' ∈ rows' /\ NoDup (wr_id <$> rows').
Proof.
  intros Hd H. assert (Hids := lease_next_ids locked ws worker now until rows). rewrite H in Hids. simpl in Hids.
  apply lease_next_Some in H as (r & Hin & Hl & _ & _ & Hid & _ & -> & _); [|done].
  do 2 eexists. split_and!; [exact Hin|done|done|done| |by rewrite Hids].
  apply list_elem_of_fmap. exists r. by rewrite eqb_refl.
Qed.

(** ** Retries *)

(** The item is leased and handed back [n] times; in between the clients of the queue do what they like with the
    other items. *)
Inductive retried (ws : WorkspaceId) (id : WorkItemId) : nat -> list WorkItemRow -> list WorkItemRow -> Prop :=
| retried_0 rows : retried ws id 0 rows rows
| retried_S n rows locked worker now until i rows1 available_at error rows2 rows3 :
    lease_next locked ws worker now until rows = (Ok (Some i), rows1) -> it_id i = id ->
    retry ws i available_at error rows1 = (Ok tt, rows2) -> retried ws id n rows2 rows3 ->
    retried ws id (S n) rows rows3
| retried_other n rows op rows3 :
    (forall r, r ∈ rows -> wr_id r = id -> r ∈ (queue_op ws op rows).2) ->
    retried ws id n (queue_op ws op rows).2 rows3 -> retried ws id n rows rows3.

Lemma retry_round ws rows locked worker now until i rows1 available_at error rows2 :
  NoDup (wr_id <$> rows) -> lease_next locked ws worker now until rows = (Ok (Some i), rows1) ->
  (retry ws i available_at error rows1).2 = rows2 ->
  exists r r2, r ∈ rows /\ r2 ∈ rows2 /\ wr_id r = it_id i /\ wr_id r2 = it_id i /\
    wr_max_attempts r2 = wr_max_attempts r /\ wr_attempt r2 = (wr_attempt r + 1)%Z /\
    (wr_status r = "ready"%string \/ wr_status r = "leased"%string) /\
    wr_status r2 = (if (wr_max_attempts r <=? wr_attempt r + 1)%Z then "dead_letter" else "ready")%string /\
    NoDup (wr_id <$> rows2).
Proof.
  intros Hd Hl <-. destruct (lease_next_row _ _ _ _ _ _ _ _ Hd Hl) as (r & r1 & Hin & Hid & Hla & -> & Hin1 & Hd1).
  unfold retry. rewrite affected_rows. exists r. eexists.
  split_and!; [done|apply list_elem_of_fmap_2, Hin1|done|..|by rewrite update_where_ids].
  all: unfold leasable in Hla; apply andb_prop in Hla as [[Hws _]%andb_prop Hst];
    unfold held; simpl; rewrite ?Hid, ?eqb_refl, ?Hws; simpl; try done.
  apply orb_true_iff in Hst as [Hst|[Hst _]%andb_prop]; apply String.eqb_eq in Hst; auto.
Qed.

(** The status of an item that was handed back [n] times. *)
Definition retried_status (r : WorkItemRow) (n : nat) : string :=
  match n with
  | O => wr_status r
  | S _ => if (wr_max_attempts r <=? wr_attempt r + Z.of_nat n)%Z then "dead_letter" else "ready"
  end.

Lemma retried_row ws id n rows rows' r :
  retried ws id n rows rows' -> NoDup (wr_id <$> rows) -> r ∈ rows -> wr_id r = id ->
  (wr_status r <> "ready"%string /\ wr_status r <> "leased"%string -> n = 0%nat) /\
  (Z.of_nat n <= Z.max 1 (wr_max_attempts r - wr_attempt r))%Z /\
  exists r', r' ∈ rows' /\ wr_id r' = id /\ wr_attempt r' = (wr_attempt r + Z.of_nat n)%Z /\
    wr_status r' = retried_status r n.
Proof.
  intros Hr. revert r.
  induction Hr as [rows|n rows locked worker now until i rows1 at_ e rows2 rows3 Hl Hi Ht Hr IH|n rows op rows3 Hop Hr IH];
    intros r Hd Hin Hid.
  - split_and!; [done|lia|]. exists r. split_and!; [done|done|lia|done].
  - destruct (retry_round ws rows locked worker now until i rows1 at_ e rows2 Hd Hl) as
      (r0 & r2 & Hr0 & Hr2 & Hid0 & Hid2 & Hm & Ha & Hs0 & Hs2 & Hd2); [by rewrite Ht|].
    assert (r0 = r) as -> by (apply (NoDup_id_eq rows r0 r Hd Hr0 Hin); congruence).
    destruct (IH r2 Hd2 Hr2 ltac:(congruence)) as (IH1 & IH2 & r' & Hr' & Hid' & Ha' & Hs').
    split; [naive_solver|]. rewrite Ha in Ha'. unfold retried_status in *. rewrite Hm, Ha, Hs2 in Hs'. split.
    + destruct (Z.leb_spec (wr_max_attempts r) (wr_attempt r + 1)); [|lia]. rewrite IH1 by (rewrite Hs2; done). lia.
    + exists r'. split_and!; [done|done|lia|]. rewrite Hs'.
      replace (wr_attempt r + Z.of_nat (S n))%Z with (wr_attempt r + 1 + Z.of_nat n)%Z by lia.
      destruct n; [by rewrite Z.add_0_r|done].
  - apply (IH r); [by apply queue_op_NoDup|by apply Hop|done].
Qed.

Section Claims.
Implicit Types (rows : list WorkItemRow) (leases : gmap Z LeaseRow).

(** The queue hands out its first item: [lease_next] leases an eligible row that no other transaction holds and
    that precedes every other such row by priority, availability, age and identifier, counts one more attempt in it
    and changes no other row; it returns nothing only if there is no such row. *)
Theorem lease_next_is_first locked ws worker now until rows o rows' :
  NoDup (wr_id <$> rows) -> lease_next locked ws worker now until rows = (Ok o, rows') ->
  let eligible r := leasable ws now r && negb (locked (wr_id r)) in
  match o with
  | None => rows' = rows /\ forall r, r ∈ rows -> eligible r = false
  | Some i => exists r, r ∈ rows /\ eligible r = true /\ it_id i = wr_id r /\
      (forall r', r' ∈ rows -> eligible r' = true -> r' = r \/ before r r' = true) /\
      forall r', r' ∈ rows' <-> (r' ∈ rows /\ r' <> r) \/
        r' = set_lease r "leased" (wr_available_at r) (wr_attempt r + 1) (Some worker) (Some until) (wr_last_error r)
  end.
Proof.
  intros Hd H eligible. destruct o as [i|].
  - apply lease_next_Some in H as (r & Hin & Hl & Hk & Hmin & Hid & _ & -> & _); [|done]. exists r.
    split_and!; [done|unfold eligible; by rewrite Hl, Hk|done|..].
    + intros r' Hr' [Hl' Hk']%andb_prop. apply negb_true_iff in Hk'. by apply Hmin.
    + intros r'. unfold update_row. rewrite list_elem_of_fmap. split.
      * intros (x & -> & Hx). destruct (wr_id x == wr_id r) eqn:E; [by right|left]. split; [done|].
        intros ->. by rewrite eqb_refl in E.
      * intros [[Hr' Hne]| ->]; [|exists r; by rewrite eqb_refl]. exists r'. split; [|done].
        destruct (wr_id r' == wr_id r) eqn:E; [|done]. rewrite eqb_true in E.
        exfalso. apply Hne. by eapply NoDup_id_eq.
  - unfold lease_next in H. destruct (first_row _ rows) as [r|] eqn:E.
    + destruct (_ <? _)%Z; [done|]. by destruct (item_of_row _).
    + injection H as <-. split; [done|]. by apply first_row_None.
Qed.

(** C8.  A leased item is worked on by one worker: until its lease ends, whatever the clients of the queue do (other
    than settling that item), no operation hands it out again and its row keeps its owner. *)
Theorem leased_item_is_exclusive locked ws worker now until rows i rows' ops :
  NoDup (wr_id <$> rows) -> lease_next locked ws worker now until rows = (Ok (Some i), rows') ->
  Forall (leaves_item (it_id i) until) ops ->
  Forall (fun i' => it_id i' <> it_id i) (queue_run ws ops rows').1 /\
  exists r, r ∈ (queue_run ws ops rows').2 /\ wr_id r = it_id i /\ wr_status r = "leased"%string /\
    wr_lease_owner r = Some worker /\ wr_lease_until r = Some until.
Proof.
  intros Hd Hl Hops. destruct (lease_next_row _ _ _ _ _ _ _ _ Hd Hl) as (r & r' & _ & Hid & _ & Hr' & Hin & Hd').
  assert (wr_id r' = it_id i) as Hid' by by rewrite Hr'. rewrite <-Hid' in Hops.
  destruct (queue_run_keeps ws ops rows' r' until Hd' Hin) as [H1 H2]; [by rewrite Hr'|done|].
  rewrite Hid' in H2. split; [done|]. exists r'. split_and!; [done..|by rewrite Hr'|by rewrite Hr'|by rewrite Hr'].
Qed.

(** C40.  Retrying ends in the dead letters: an item that is leased and handed back [n] times, whatever is done
    with the other items in between, has been leased at most [max_attempts] minus its attempts so far times (at
    least once), its row counts the [n] attempts, and after the last of them it is a dead letter exactly when its
    attempts have reached [max_attempts], ready again otherwise. *)
Theorem retries_are_bounded ws id n rows rows' r :
  retried ws id n rows rows' -> NoDup (wr_id <$> rows) -> r ∈ rows -> wr_id r = id ->
  (Z.of_nat n <= Z.max 1 (wr_max_attempts r - wr_attempt r))%Z /\
  exists r', r' ∈ rows' /\ wr_id r' = id /\ wr_attempt r' = (wr_attempt r + Z.of_nat n)%Z /\
    (n <> 0%nat -> wr_status r' =
       (if (wr_max_attempts r <=? wr_attempt r + Z.of_nat n)%Z then "dead_letter" else "ready")%string).
Proof.
  intros Hr Hd Hin Hid. destruct (retried_row ws id n rows rows' r Hr Hd Hin Hid) as (_ & ? & r' & ? & ? & ? & Hs).
  split; [done|]. exists r'. split_and!; [done..|]. by destruct n.
Qed.

(** Completion is not tied to the lease: when a lease ended and another worker took the item, the first worker's
    [complete] is still accepted and takes the item from the second. *)
Theorem stale_completion_accepted locked locked' ws w w' now until now' until' rows i rows1 i' rows2 :
  NoDup (wr_id <$> rows) -> lease_next locked ws w now until rows = (Ok (Some i), rows1) ->
  lease_next locked' ws w' now' until' rows1 = (Ok (Some i'), rows2) -> it_id i' = it_id i ->
  (complete ws i rows2).1 = Ok tt /\
  forall r, r ∈ (complete ws i rows2).2 -> wr_id r = it_id i -> wr_status r = "completed"%string.
Proof.
  intros Hd H1 H2 Hid. destruct (lease_next_row _ _ _ _ _ _ _ _ Hd H1) as (_ & _ & _ & _ & _ & _ & _ & Hd1).
  destruct (lease_next_row _ _ _ _ _ _ _ _ Hd1 H2) as (r & r' & Hin & Hr & Hl & Hr' & Hin' & Hd2).
  assert (Hh : held ws i r' = true).
  { unfold held, leasable in *. apply andb_prop in Hl as [[Hws _]%andb_prop _]. rewrite Hr'. simpl.
    by rewrite Hr, Hid, eqb_refl, Hws. }
  unfold complete. rewrite affected_rows. split.
  - unfold affected, update_where. simpl. destruct (Z.eqb_spec (Z.of_nat (length (filter (fun r => Is_true (held ws i r)) rows2))) 0) as [Hz|]; [|done].
    assert (r' ∈ filter (fun r => Is_true (held ws i r)) rows2) as Hf by (apply list_elem_of_filter; by rewrite Hh).
    destruct (filter _ rows2); [by apply not_elem_of_nil in Hf|]. simpl in Hz. lia.
  - intros x (y & -> & Hy)%list_elem_of_fmap Hx. destruct (held ws i y) eqn:E; [done|].
    assert (y = r') as -> by (apply (NoDup_id_eq rows2 y r' Hd2 Hy Hin'); rewrite Hr'; simpl; congruence). congruence.
Qed.

(** C18.  One worker holds a run: while a granted lease has not ended, whatever other workers do with leases, none is
    granted this run, and the holder can extend its lease. *)
Theorem lease_is_exclusive ws req leases l leases' ops extend_until :
  acquire ws req leases = (Ok l, leases') -> (al_now req < al_lease_until req)%Z ->
  (forall row, leases' !! al_run_id req = Some row -> Forall (leaves_lease (al_run_id req) row) ops) ->
  Forall (fun l' => rl_run_id l' <> al_run_id req) (lease_run ws ops leases').1 /\
  is_ok (heartbeat ws l extend_until (lease_run ws ops leases').2).1 = true.
Proof.
  intros Ha Ht Hops. destruct (acquire_Ok _ _ _ _ _ Ha) as (Hrow & Hl & Hg). specialize (Hops _ Hrow).
  destruct (lease_run_keeps ws ops leases' _ _ Hrow Hops) as [H1 H2]. split; [done|].
  assert (cast_i64 (rl_generation l) = rl_generation l) as Hc.
  { unfold cast_i64. destruct (Z.leb_spec (rl_generation l) isize_max) as [|Hbig]; [done|].
    destruct (leases !! al_run_id req); [lia|]. rewrite Hg in Hbig. done. }
  rewrite Hl in Hc. simpl in Hc. rewrite Hl. unfold heartbeat. simpl. rewrite H1. unfold names_row. simpl.
  rewrite !eqb_refl, Hc, Z.eqb_refl, (proj2 (Z.ltb_lt _ _)) by done. done.
Qed.

(** A lost lease is fenced: once a lease ended and its run was acquired again, heartbeats and releases with the
    old lease are refused and change nothing. *)
Theorem superseded_lease_is_fenced ws req l leases leases1 req' l' leases2 extend_until :
  acquire ws req leases = (Ok l, leases1) -> al_run_id req' = al_run_id req ->
  acquire ws req' leases1 = (Ok l', leases2) ->
  heartbeat ws l extend_until leases2 = (Err AppConflict, leases2) /\ release ws l leases2 = (Err AppConflict, leases2).
Proof.
  intros H1 Hid H2. destruct (acquire_Ok _ _ _ _ _ H1) as (Hr1 & Hl & Hg1).
  destruct (acquire_Ok _ _ _ _ _ H2) as (Hr2 & _ & Hg2). rewrite Hid in Hr2, Hg2. rewrite Hr1 in Hg2. simpl in Hg2.
  assert (names_row ws l (mkLeaseRow ws (al_worker_id req') (rl_generation l') (al_now req') (al_now req') (al_lease_until req')) = false) as Hn.
  { apply names_row_other. right. simpl. unfold cast_i64. destruct (Z.leb_spec (rl_generation l) isize_max); lia. }
  rewrite Hl. unfold heartbeat, release. simpl. rewrite Hr2. rewrite Hl in Hn. by rewrite Hn.
Qed.

End Claims.

(** ** The theorems at a concrete queue *)

Module QueueExample.
Local Open Scope Z_scope.

Definition item (id v : Z) : WorkItem := mkItem id 100 KindAdvanceRun v 5 (text_of "key" ++ [id])%list 1.
Definition rows0 : list WorkItemRow := [row_of_item 10 4 (item 2 1); row_of_item 10 3 (item 1 2)].
Definition free : WorkItemId -> bool := fun _ => false.

(** A lease by worker 7 until 20, and by worker 8 after it ended. *)
Definition leased : list WorkItemRow := (lease_next free 10 7 6 20 rows0).2.
Definition taken_over : list WorkItemRow := (lease_next free 10 8 20 40 leased).2.
Definition first : WorkItem := mkItem 1 100 KindAdvanceRun 2 5 (text_of "key" ++ [1])%list 2.

Definition busy : RunFailure := mkFailure (text_of "lease_busy") [] true.
Definition returned : list WorkItemRow := (retry 10 first 4 busy leased).2.
Definition leased_again : list WorkItemRow := (lease_next free 10 7 8 20 returned).2.
Definition second : WorkItem := mkItem 1 100 KindAdvanceRun 2 4 (text_of "key" ++ [1])%list 3.
Definition dead : list WorkItemRow := (retry 10 second 4 busy leased_again).2.

Definition request (worker now until : Z) : AcquireRunLease := mkAcquire 100 worker now until.
Definition lease1 : RunLease := mkLease 100 7 1 6 6 20.
Definition leases1 : gmap Z LeaseRow := (acquire 10 (request 7 6 20) ∅).2.
Definition leases2 : gmap Z LeaseRow := (acquire 10 (request 8 21 40) leases1).2.

End QueueExample.

Section Instances.
Import QueueExample.
Local Open Scope Z_scope.

Lemma rows0_NoDup : NoDup (wr_id <$> rows0).
Proof. apply (bool_decide_unpack _). by vm_compute. Qed.

Lemma lease_next_is_first_at_rows0 :
  exists r, r ∈ rows0 /\ leasable 10 6 r && negb (free (wr_id r)) = true /\ 1 = wr_id r /\
    (forall r', r' ∈ rows0 -> leasable 10 6 r' && negb (free (wr_id r')) = true -> r' = r \/ before r r' = true) /\
    forall r', r' ∈ leased <-> (r' ∈ rows0 /\ r' <> r) \/
      r' = set_lease r "leased" (wr_available_at r) (wr_attempt r + 1) (Some 7) (Some 20) (wr_last_error r).
Proof. exact (lease_next_is_first free 10 7 6 20 rows0 (Some first) leased rows0_NoDup eq_refl). Defined.

Lemma leased_item_is_exclusive_at_rows0 :
  Forall (fun i' => it_id i' <> 1) (queue_run 10 [OpLease free 8 19 30; OpCancel 100 20; OpLease free 9 19 30] leased).1 /\
  exists r, r ∈ (queue_run 10 [OpLease free 8 19 30; OpCancel 100 20; OpLease free 9 19 30] leased).2 /\
    wr_id r = 1 /\ wr_status r = "leased"%string /\ wr_lease_owner r = Some 7 /\ wr_lease_until r = Some 20.
Proof.
  apply (leased_item_is_exclusive free 10 7 6 20 rows0 first leased); [apply rows0_NoDup|reflexivity|].
  repeat constructor; simpl; lia.
Defined.

Lemma retries_are_bounded_at_rows0 :
  Z.of_nat 2 <= Z.max 1 (3 - 1) /\
  exists r', r' ∈ dead /\ wr_id r' = 1 /\ wr_attempt r' = 3 /\ (2%nat <> 0%nat -> wr_status r' = "dead_letter"%string).
Proof.
  apply (retries_are_bounded 10 1 2 rows0 dead (row_of_item 10 3 (item 1 2)));
    [|apply rows0_NoDup|apply (list_elem_of_lookup_2 _ 1); reflexivity|reflexivity].
  apply (retried_S 10 1 1 rows0 free 7 6 20 first leased 4 busy returned dead); [reflexivity..|].
  apply (retried_S 10 1 0 returned free 7 8 20 second leased_again 4 busy dead dead); [reflexivity..|apply retried_0].
Defined.

Lemma stale_completion_accepted_at_rows0 :
  (complete 10 first taken_over).1 = Ok tt /\
  forall r, r ∈ (complete 10 first taken_over).2 -> wr_id r = 1 -> wr_status r = "completed"%string.
Proof.
  exact (stale_completion_accepted free free 10 7 8 6 20 20 40 rows0 first leased
    (mkItem 1 100 KindAdvanceRun 2 5 (text_of "key" ++ [1])%list 3) taken_over rows0_NoDup eq_refl eq_refl eq_refl).
Defined.

Lemma lease_is_exclusive_at_run :
  Forall (fun l' => rl_run_id l' <> 100) (lease_run 10 [OpAcquire (request 8 20 30); OpRelease (mkLease 100 8 1 6 6 20)] leases1).1 /\
  is_ok (heartbeat 10 lease1 40
    (lease_run 10 [OpAcquire (request 8 20 30); OpRelease (mkLease 100 8 1 6 6 20)] leases1).2).1 = true.
Proof.
  apply (lease_is_exclusive 10 (request 7 6 20) ∅ lease1 leases1); [reflexivity|reflexivity|].
  intros row Hrow. vm_compute in Hrow. injection Hrow as <-. repeat constructor; simpl; lia.
Defined.

Lemma superseded_lease_is_fenced_at_run :
  heartbeat 10 lease1 50 leases2 = (Err AppConflict, leases2) /\ release 10 lease1 leases2 = (Err AppConflict, leases2).
Proof.
  exact (superseded_lease_is_fenced 10 (request 7 6 20) lease1 ∅ leases1 (request 8 21 40) (mkLease 100 8 2 21 21 40)
    leases2 50 eq_refl eq_refl eq_refl).
Defined.

(** Generations restart: after a release and a new acquisition by the same worker, the released lease names the
    new row again, so its heartbeat is accepted. *)
Theorem released_generation_is_reused :
  let leases' := (acquire 10 (request 7 30 60) (release 10 lease1 leases1).2).2 in
  is_ok (release 10 lease1 leases1).1 = true /\ is_ok (heartbeat 10 lease1 90 leases').1 = true.
Proof. by vm_compute. Qed.

End Instances.
