(* ===== verification/PgRunStore.v ===== *)
(** * The run store in PostgreSQL

    [crates/vestrace-infrastructure/src/postgres/run/store.rs]: the statements of the store as
    functions on tables, with the key, reference and check constraints of the migrations that the
    statements meet.  A time is written as [to_timestamptz] of it, whole microseconds, and read back
    as it stands in the row; what is serialised keeps its nanoseconds.  JSON columns hold [serde_json] values; [Serde] stands for the derived
    serialisation, whose law is that reading gives back what was written. *)

From Stdlib Require Import ZArith Lia String.
From stdpp Require Import base option numbers strings gmap sorting list.
From S2P Require Import Prelude Codec Crypto Text RunStatus RunDecider AgentRun RunReplay.
From S2P Require Import RunPorts RunCoordinator RunStore WorkQueue.

(** [serde_json::to_value] and [from_value] at one type. *)
Class Serde (J A : Type) : Type := { to_value : A -> J; from_value : J -> option A }.
Class SerdeOk (J A : Type) `{!Serde J A} : Prop := from_to_value : forall a : A, from_value (to_value a) = Some a.

Section Tables.
Context {J : Type}.

Record AgentRunRow : Type := mkRunRow {
  rw_id : AgentRunId;
  rw_workspace_id : WorkspaceId;
  rw_objective : text;
  rw_coordinator_snapshot_id : AgentRuntimeSnapshotId;
  rw_active_plan_revision_id : option PlanRevisionId;
  rw_execution_mode : string;
  rw_status : string;
  rw_current_step_id : option RunStepId;
  rw_checkpoint_id : option RunCheckpointId;
  rw_parent_run_id : option AgentRunId;
  rw_parent_step_id : option RunStepId;
  rw_root_run_id : option AgentRunId;
  rw_budget_snapshot_id : option BudgetSnapshotId;
  rw_resource_usage_snapshot_id : option ResourceUsageSnapshotId;
  rw_run_version : Z;
  rw_result : option J;
  rw_created_at : Timestamp;
  rw_updated_at : Timestamp;
  rw_finished_at : option Timestamp;
}.

Record RunStepRow : Type := mkStepRow {
  sw_id : RunStepId;
  sw_workspace_id : WorkspaceId;
  sw_run_id : AgentRunId;
  sw_plan_step_reference : option text;
  sw_assigned_actor : J;
  sw_input_references : J;
  sw_status : string;
  sw_attempt : Z;
  sw_output_references : J;
  sw_error : option J;
  sw_created_at : Timestamp;
  sw_started_at : option Timestamp;
  sw_finished_at : option Timestamp;
}.

Record RunCheckpointRow : Type := mkCheckpointRow { cw_state : J; cw_created_at : Timestamp }.

(** The tables, by their keys.  [t_events] keeps the order of insertion; a row is the workspace
    and the event.  [t_now] is what [NOW()] answers. *)
Record Tables : Type := mkTables {
  t_runs : gmap Z AgentRunRow;
  t_steps : gmap Z RunStepRow;
  t_events : list (Z * RunEvent);
  t_checkpoints : gmap (Z * Z * Z) RunCheckpointRow;
  t_streams : gmap (Z * Z) Z;
  t_work : list WorkItemRow;
  t_now : Timestamp;
}.

End Tables.
Arguments AgentRunRow J : clear implicits.
Arguments RunStepRow J : clear implicits.
Arguments RunCheckpointRow J : clear implicits.
Arguments Tables J : clear implicits.

Section Store.
Context {J : Type} {SHA : Sha256}
  {SR : Serde J RunTerminalResult} {SA : Serde J RunActorRef} {SL : Serde J (list RunReference)}
  {SF : Serde J RunFailure} {SC : Serde J RunCheckpointPayloadV1}.

(** ** Rows and values *)

Definition parse_status (s : string) : result ApplicationError RunStatus.t :=
  ok_or (RunStatus.status_parse s) AppStorage.

Definition parse_execution_mode (s : string) : result ApplicationError RunExecutionMode.t :=
  ok_or (RunExecutionMode.mode_parse s) AppStorage.

Definition parse_step_status (s : string) : result ApplicationError RunStepStatus.t :=
  ok_or (RunStepStatus.step_status_parse s) AppStorage.

(** [value.map(serde_json::from_value).transpose()]. *)
Definition from_optional {A} `{!Serde J A} (o : option J) : result ApplicationError (option A) :=
  match o with
  | None => Ok None
  | Some j => a ← ok_or (from_value j) AppStorage; Ok (Some a)
  end.

(** [TryFrom<AgentRunRow> for AgentRun]. *)
Definition run_of_row (row : AgentRunRow J) : result ApplicationError AgentRun :=
  status ← parse_status (rw_status row);
  mode ← parse_execution_mode (rw_execution_mode row);
  run_version ← try_unsigned (rw_run_version row);
  version ← map_err (fun _ => AppStorage) (version_new run_version);
  res ← from_optional (rw_result row);
  Ok (mkRun (rw_id row) (rw_workspace_id row) (rw_objective row) (rw_coordinator_snapshot_id row)
        (rw_active_plan_revision_id row) mode status (rw_current_step_id row) (rw_checkpoint_id row)
        (match rw_parent_run_id row, rw_parent_step_id row with
         | Some p, Some q => Some (mkParent p q)
         | _, _ => None
         end)
        (match rw_root_run_id row with Some r => r | None => rw_id row end)
        (rw_budget_snapshot_id row) (rw_resource_usage_snapshot_id row) version res
        (rw_created_at row) (rw_updated_at row) (rw_finished_at row)).

(** [TryFrom<RunStepRow> for RunStep]. *)
Definition step_of_row (row : RunStepRow J) : result ApplicationError RunStep :=
  status ← parse_step_status (sw_status row);
  attempt ← try_unsigned (sw_attempt row);
  actor ← ok_or (from_value (sw_assigned_actor row)) AppStorage;
  inputs ← ok_or (from_value (sw_input_references row)) AppStorage;
  outputs ← ok_or (from_value (sw_output_references row)) AppStorage;
  error ← from_optional (sw_error row);
  Ok (mkStep (sw_id row) (sw_run_id row) (sw_plan_step_reference row) actor inputs status attempt outputs error
        (sw_created_at row) (sw_started_at row) (sw_finished_at row)).

(** The first sixteen bytes of the hash of the run identifier and the sequence. *)
Definition checkpoint_identity (run_id : AgentRunId) (sequence : Z) : Uuid :=
  from_be_bytes (take 16 (sha256 (uuid_bytes run_id ++ be_bytes 8 (sequence mod 2 ^ 64)))).

(** [TryFrom<RunCheckpointRow> for RunCheckpoint]. *)
Definition checkpoint_of_row (k : Z * Z) (sequence : Z) (row : RunCheckpointRow J)
    : result ApplicationError RunCheckpoint :=
  n ← try_unsigned sequence;
  version ← map_err (fun _ => AppStorage) (version_new n);
  payload ← ok_or (from_value (cw_state row)) AppStorage;
  Ok (mkRunCheckpoint (checkpoint_identity k.2 sequence) k.1 k.2 version None (cursor_from_version version)
        payload (cw_created_at row)).

(** ** Reading *)

(** [SELECT ... FROM agent_runs WHERE workspace_id = $1 AND id = $2]. *)
Definition select_run (t : Tables J) (ws : WorkspaceId) (id : AgentRunId) : result ApplicationError (option AgentRun) :=
  match t_runs t !! id with
  | Some row => if rw_workspace_id row == ws then r ← run_of_row row; Ok (Some r) else Ok None
  | None => Ok None
  end.

Definition created_le (a b : RunStepRow J) : Prop := (sw_created_at a <= sw_created_at b)%Z.

#[export] Instance created_le_dec a b : Decision (created_le a b).
Proof. unfold created_le. apply _. Defined.

Definition of_run (ws : WorkspaceId) (id : AgentRunId) (r : RunStepRow J) : bool :=
  (sw_workspace_id r == ws) && (sw_run_id r == id).

(** [SELECT ... FROM run_steps WHERE run_id = $1 ORDER BY created_at]. *)
Definition select_steps (t : Tables J) (ws : WorkspaceId) (id : AgentRunId) : result ApplicationError (list RunStep) :=
  collect step_of_row
    (merge_sort created_le (List.filter (of_run ws id) (snd <$> map_to_list (t_steps t)))).

(** [SELECT ... FROM run_checkpoints WHERE run_id = $1 ORDER BY sequence DESC LIMIT 1]. *)
Definition select_checkpoint (t : Tables J) (ws : WorkspaceId) (id : AgentRunId)
    : result ApplicationError (option RunCheckpoint) :=
  let newest :=
    fold_left (fun best x =>
      let '((ws', id', sequence), row) := x in
      if (ws' == ws) && (id' == id) && match best with Some (n, _) => (n <? sequence)%Z | None => true end
      then Some (sequence, row) else best) (map_to_list (t_checkpoints t)) None in
  match newest with
  | None => Ok None
  | Some (sequence, row) => c ← checkpoint_of_row (ws, id) sequence row; Ok (Some c)
  end.

Definition select_events (t : Tables J) (ws : WorkspaceId) (id : AgentRunId) : list RunEvent :=
  snd <$> List.filter (fun x => (x.1 == ws) && (re_run_id x.2 == id)) (t_events t).

(** ** Writing *)

(** The check constraints on a run's status and finishing time. *)
Definition run_row_ok (status : RunStatus.t) (version : Z) (finished : option Timestamp) : bool :=
  (1 <=? version)%Z && eqb (RunStatus.is_terminal status) (is_some finished).

(** [UPDATE agent_runs SET ... WHERE workspace_id AND id AND run_version = expected]. *)
Definition update_run (t : Tables J) (ws : WorkspaceId) (run : AgentRun) (expected : RunVersion)
    : result ApplicationError (Tables J) :=
  row ← ok_or (opt_filter (fun row => (rw_workspace_id row == ws) && (rw_run_version row =? cast_i64 expected)%Z)
                 (t_runs t !! ar_id run)) AppConflict;
  if negb (run_row_ok (ar_status run) (cast_i64 (ar_version run)) (ar_finished_at run)) then Err AppStorage else
  let row' := mkRunRow (rw_id row) (rw_workspace_id row) (rw_objective row) (rw_coordinator_snapshot_id row)
    (ar_active_plan_revision_id run) (rw_execution_mode row) (RunStatus.status_as_str (ar_status run))
    (ar_current_step_id run) (ar_checkpoint_id run) (rw_parent_run_id row) (rw_parent_step_id row)
    (rw_root_run_id row) (rw_budget_snapshot_id row) (rw_resource_usage_snapshot_id row)
    (cast_i64 (ar_version run)) (to_value <$> ar_result run) (rw_created_at row)
    (to_timestamptz (ar_updated_at run)) (to_timestamptz <$> ar_finished_at run) in
  Ok (mkTables (<[ar_id run := row']> (t_runs t)) (t_steps t) (t_events t) (t_checkpoints t) (t_streams t)
        (t_work t) (t_now t)).

(** The parent a new run names exists and owns the named step. *)
Definition parent_ok (t : Tables J) (parent : option ParentRunLink) : bool :=
  match parent with
  | None => true
  | Some p =>
      is_some (t_runs t !! parent_run_id p) &&
      match t_steps t !! parent_step_id p with
      | Some s => sw_run_id s == parent_run_id p
      | None => false
      end
  end.

(** [INSERT INTO agent_runs]. *)
Definition insert_run (t : Tables J) (ws : WorkspaceId) (run : AgentRun) : result ApplicationError (Tables J) :=
  if is_some (t_runs t !! ar_id run) then Err AppStorage else
  if negb (run_row_ok (ar_status run) (cast_i64 (ar_version run)) None) then Err AppStorage else
  if negb (parent_ok t (ar_parent run)) then Err AppStorage else
  if negb ((ar_root_run_id run == ar_id run) || is_some (t_runs t !! ar_root_run_id run)) then Err AppStorage else
  let row := mkRunRow (ar_id run) ws (ar_objective run) (ar_coordinator_snapshot_id run) None
    (RunExecutionMode.mode_as_str (ar_execution_mode run)) (RunStatus.status_as_str (ar_status run)) None None
    (parent_run_id <$> ar_parent run) (parent_step_id <$> ar_parent run) (Some (ar_root_run_id run)) None None
    (cast_i64 (ar_version run)) None (to_timestamptz (ar_created_at run)) (to_timestamptz (ar_created_at run)) None in
  Ok (mkTables (<[ar_id run := row]> (t_runs t)) (t_steps t) (t_events t) (t_checkpoints t) (t_streams t)
        (t_work t) (t_now t)).

Definition advance_stream (t : Tables J) (ws : WorkspaceId) (run_id : AgentRunId) (v : RunVersion) : Tables J :=
  mkTables (t_runs t) (t_steps t) (t_events t) (t_checkpoints t) (<[(ws, run_id) := cast_i64 v]> (t_streams t))
    (t_work t) (t_now t).

(** [INSERT INTO run_events]: one event per run and sequence. *)
Definition append_event (t : Tables J) (ws : WorkspaceId) (e : RunEvent) : result ApplicationError (Tables J) :=
  if any (fun x => (re_id x.2 == re_id e)
                   || (x.1 == ws) && (re_run_id x.2 == re_run_id e) && (re_sequence x.2 =? re_sequence e)%Z)
       (t_events t)
  then Err AppStorage else
  if (cast_i64 (re_sequence e) <? 1)%Z || negb (re_sequence e =? re_run_version e)%Z then Err AppStorage else
  Ok (mkTables (t_runs t) (t_steps t) (t_events t ++ [(ws, event_stored e)]) (t_checkpoints t) (t_streams t) (t_work t) (t_now t)).

(** The columns [insert_step] binds. *)
Definition row_of_step (ws : WorkspaceId) (s : RunStep) : RunStepRow J :=
  mkStepRow (st_id s) ws (st_run_id s) (st_plan_step_reference s) (to_value (st_assigned_actor s))
    (to_value (st_input_references s)) (RunStepStatus.step_status_as_str (st_status s)) (cast_i32 (st_attempt s))
    (to_value (st_output_references s)) (to_value <$> st_error s) (to_timestamptz (st_created_at s))
    (to_timestamptz <$> st_started_at s) (to_timestamptz <$> st_finished_at s).

(** [DO UPDATE SET]: what a stored step takes from the new row. *)
Definition step_row_update (old new : RunStepRow J) : RunStepRow J :=
  mkStepRow (sw_id old) (sw_workspace_id old) (sw_run_id old) (sw_plan_step_reference old) (sw_assigned_actor old)
    (sw_input_references old) (sw_status new) (sw_attempt new) (sw_output_references new) (sw_error new)
    (sw_created_at old) (sw_started_at new) (sw_finished_at new).

(** [INSERT INTO run_steps ... ON CONFLICT (id) DO UPDATE].  The step's run exists; a stored step
    of another workspace is a row-level security violation. *)
Definition insert_step (t : Tables J) (ws : WorkspaceId) (s : RunStep) : result ApplicationError (Tables J) :=
  let row := row_of_step ws s in
  if (sw_attempt row <? 0)%Z then Err AppStorage else
  if RunStepStatus.step_is_terminal (st_status s) && is_none (st_finished_at s) then Err AppStorage else
  row' ← match t_steps t !! st_id s with
         | Some old => if sw_workspace_id old !== ws then Err AppStorage else Ok (step_row_update old row)
         | None =>
             match t_runs t !! st_run_id s with
             | Some r => Ok row
             | None => Err AppStorage
             end
         end;
  Ok (mkTables (t_runs t) (<[st_id s := row']> (t_steps t)) (t_events t) (t_checkpoints t) (t_streams t) (t_work t)
        (t_now t)).

(** [INSERT INTO run_checkpoints ... ON CONFLICT DO NOTHING]. *)
Definition insert_checkpoint (t : Tables J) (ws : WorkspaceId) (c : RunCheckpoint) : result ApplicationError (Tables J) :=
  let key := (ws, cp_run_id c, cast_i64 (cp_run_version c)) in
  if (cast_i64 (cp_run_version c) <? 1)%Z then Err AppStorage else
  Ok (match t_checkpoints t !! key with
      | Some _ => t
      | None =>
          mkTables (t_runs t) (t_steps t) (t_events t)
            (<[key := mkCheckpointRow (to_value (cp_payload c)) (to_timestamptz (cp_created_at c))]> (t_checkpoints t))
            (t_streams t) (t_work t) (t_now t)
      end).

Definition with_work (t : Tables J) (rows : list WorkItemRow) : Tables J :=
  mkTables (t_runs t) (t_steps t) (t_events t) (t_checkpoints t) (t_streams t) rows (t_now t).

(** [for x in l { f(x)?; }]. *)
Fixpoint for_each {S A : Type} (f : S -> A -> result ApplicationError S) (s : S) (l : list A)
    : result ApplicationError S :=
  match l with
  | [] => Ok s
  | a :: l' => s' ← f s a; for_each f s' l'
  end.

(** The statements [create] and [commit] share, after the run's row is written. *)
Definition write_commit (t : Tables J) (ws : WorkspaceId) (c : CommitRun) : result ApplicationError (Tables J) :=
  let t1 := advance_stream t ws (ar_id (cm_run c)) (re_run_version (cm_event c)) in
  t2 ← append_event t1 ws (cm_event c);
  t3 ← for_each (fun t s => insert_step t ws s) t2 (cm_new_steps c);
  t4 ← match cm_checkpoint c with Some cp => insert_checkpoint t3 ws cp | None => Ok t3 end;
  for_each (fun t i => rows ← insert_work_item ws (t_now t) (t_work t) i; Ok (with_work t rows)) t4 (cm_work_items c).

Definition pg_load (t : Tables J) (ws : WorkspaceId) (id : AgentRunId) : result ApplicationError (option RunSnapshot) :=
  run ← select_run t ws id;
  match run with
  | None => Ok None
  | Some run =>
      steps ← select_steps t ws id;
      cp ← select_checkpoint t ws id;
      Ok (Some (mkSnapshot run steps cp))
  end.

Definition pg_create (t : Tables J) (ctx : RequestContext) (c : CommitRun) : result ApplicationError (Tables J) :=
  t1 ← insert_run t (rc_workspace_id ctx) (cm_run c);
  write_commit t1 (rc_workspace_id ctx) c.

(** The load at the end is in the transaction: when it fails, nothing is committed. *)
Definition pg_commit (t : Tables J) (ctx : RequestContext) (c : CommitRun) : result ApplicationError (Tables J) :=
  expected ← map_err (fun _ => AppStorage) (version_previous (ar_version (cm_run c)));
  t1 ← update_run t (rc_workspace_id ctx) (cm_run c) expected;
  t2 ← write_commit t1 (rc_workspace_id ctx) c;
  loaded ← pg_load t2 (rc_workspace_id ctx) (ar_id (cm_run c));
  _ ← ok_or loaded AppStorage;
  Ok t2.

Definition pg_cancel (t : Tables J) (ctx : RequestContext) (id : AgentRunId) (at_ : Timestamp) : Z * Tables J :=
  let '(n, rows) := cancel_rows (rc_workspace_id ctx) id at_ (t_work t) in (n, with_work t rows).

Definition pg_empty : Tables J := mkTables ∅ ∅ [] ∅ ∅ [] 0.

#[export] Instance PgRunStore : RunStore (Tables J) := {
  sp_empty := pg_empty;
  sp_run := select_run;
  sp_steps := select_steps;
  sp_checkpoint := select_checkpoint;
  sp_events := select_events;
  sp_create := pg_create;
  sp_commit := pg_commit;
  sp_cancel := pg_cancel;
}.

(** ** The result of a provider call *)

Record CommitProviderResultRun : Type := mkProviderResult {
  pv_run_id : AgentRunId;
  pv_step_id : RunStepId;
  pv_expected_run_version : Z;
  pv_artifact_id : Uuid;
  pv_artifact_revision_id : Uuid;
  pv_model_execution_id : Uuid;
  pv_work_item_id : WorkItemId;
  pv_occurred_at : Timestamp;
}.

(** [UPDATE run_steps SET status='succeeded' ... AND status='running']; [output] is the JSON array
    with the artifact. *)
Definition update_result_step (t : Tables J) (ws : WorkspaceId) (c : CommitProviderResultRun) (output : J)
    : result ApplicationError (Tables J) :=
  row ← ok_or (opt_filter (fun s => of_run ws (pv_run_id c) s && String.eqb (sw_status s) "running")
                 (t_steps t !! pv_step_id c)) AppConflict;
  let row' := mkStepRow (sw_id row) (sw_workspace_id row) (sw_run_id row) (sw_plan_step_reference row)
    (sw_assigned_actor row) (sw_input_references row) "succeeded"%string (sw_attempt row) output (sw_error row)
    (sw_created_at row) (sw_started_at row) (Some (to_timestamptz (pv_occurred_at c))) in
  Ok (mkTables (t_runs t) (<[pv_step_id c := row']> (t_steps t)) (t_events t) (t_checkpoints t) (t_streams t)
        (t_work t) (t_now t)).

(** [i64::try_from] of a [u64]. *)
Definition try_i64 (v : Z) : result ApplicationError Z := if (v <=? isize_max)%Z then Ok v else Err AppConflict.

(** [UPDATE agent_runs SET run_version ... AND status='running' AND run_version = expected]. *)
Definition update_result_run (t : Tables J) (ws : WorkspaceId) (c : CommitProviderResultRun) (new_version : Z)
    : result ApplicationError (Tables J) :=
  expected ← try_i64 (pv_expected_run_version c);
  version ← try_i64 new_version;
  row ← ok_or (opt_filter (fun r => (rw_workspace_id r == ws) && String.eqb (rw_status r) "running"
                                    && (rw_run_version r =? expected)%Z) (t_runs t !! pv_run_id c)) AppConflict;
  let row' := mkRunRow (rw_id row) (rw_workspace_id row) (rw_objective row) (rw_coordinator_snapshot_id row)
    (rw_active_plan_revision_id row) (rw_execution_mode row) (rw_status row) (rw_current_step_id row)
    (rw_checkpoint_id row) (rw_parent_run_id row) (rw_parent_step_id row) (rw_root_run_id row)
    (rw_budget_snapshot_id row) (rw_resource_usage_snapshot_id row) version (rw_result row) (rw_created_at row)
    (to_timestamptz (pv_occurred_at c)) (rw_finished_at row) in
  Ok (mkTables (<[pv_run_id c := row']> (t_runs t)) (t_steps t) (t_events t) (t_checkpoints t) (t_streams t)
        (t_work t) (t_now t)).

(** The item that advances the run, which names the step too. *)
Definition result_item {UT : UuidText} (c : CommitProviderResultRun) (v : RunVersion) : WorkItem :=
  mkItem (pv_work_item_id c) (pv_run_id c) KindAdvanceRun v (pv_occurred_at c)
    (text_of "provider-result:" ++ uuid_text (pv_run_id c) ++ text_of ":" ++ uuid_text (pv_artifact_revision_id c)) 0.

Definition with_step (step : RunStepId) (r : WorkItemRow) : WorkItemRow :=
  mkWorkRow (wr_id r) (wr_workspace_id r) (wr_run_id r) (Some step) (wr_kind r) (wr_status r)
    (wr_expected_run_version r) (wr_priority r) (wr_available_at r) (wr_attempt r) (wr_max_attempts r)
    (wr_idempotency_key r) (wr_lease_owner r) (wr_lease_until r) (wr_last_error r) (wr_created_at r).

(** [event_id] and [correlation] are minted, [output] is the JSON value of the step's output. *)
Definition pg_commit_provider_result {UT : UuidText} (output : J) (event_id correlation : Uuid) (t : Tables J)
    (ctx : RequestContext) (c : CommitProviderResultRun) : result ApplicationError (Tables J) :=
  let ws := rc_workspace_id ctx in
  new_version ← ok_or (checked_add u64_max (pv_expected_run_version c) 1) AppConflict;
  t1 ← update_result_step t ws c output;
  t2 ← update_result_run t1 ws c new_version;
  version ← map_err (fun _ => AppConflict) (version_new new_version);
  event ← from_domain (event_with_id event_id (pv_run_id c) ws version (cursor_from_version version) ActorSystem
            (StepStatusChanged (pv_step_id c) RunStepStatus.Running RunStepStatus.Succeeded 1) correlation None
            (pv_occurred_at c));
  t3 ← append_event (advance_stream t2 ws (pv_run_id c) version) ws event;
  rows ← insert_work_item ws (t_now t3) (t_work t3) (result_item c version);
  let t4 := with_work t3 (update_row (pv_work_item_id c) (with_step (pv_step_id c)) rows) in
  loaded ← pg_load t4 ws (pv_run_id c);
  _ ← ok_or loaded AppStorage;
  Ok t4.

End Store.
