(* ===== verification/PgRunStoreProps.v ===== *)
(** * The tables implement the run store

    Rows read back what was written, the stored steps of a run are its rows, and the statements
    of [create] and [commit] satisfy the laws of [RunStoreOk]. *)

From Stdlib Require Import ZArith Lia String.
From stdpp Require Import base option numbers strings gmap sorting list.
From S2P Require Import Prelude Codec Crypto Text RunStatus RunDecider AgentRun RunReplay.
From S2P Require Import RunPorts RunCoordinator RunStore RunConcurrencyProps.
From S2P Require Import RunCoordinatorProps WorkQueue PgRunStore.

(** ** Codes and casts *)

Lemma status_roundtrip s : RunStatus.status_parse (RunStatus.status_as_str s) = Some s.
Proof. by destruct s. Qed.

Lemma mode_roundtrip m : RunExecutionMode.mode_parse (RunExecutionMode.mode_as_str m) = Some m.
Proof. by destruct m. Qed.

Lemma step_status_roundtrip s : RunStepStatus.step_status_parse (RunStepStatus.step_status_as_str s) = Some s.
Proof. by destruct s. Qed.

Lemma cast_i64_nonneg v : (0 <= cast_i64 v)%Z -> cast_i64 v = v.
Proof. unfold cast_i64. destruct (v <=? isize_max)%Z; [done|lia]. Qed.

Lemma cast_i64_bound v : (cast_i64 v <= i64_max)%Z.
Proof. unfold cast_i64, i64_max, isize_max. destruct (Z.leb_spec v (2 ^ 63 - 1)); lia. Qed.

Lemma cast_i32_nonneg v : (0 <= cast_i32 v)%Z -> cast_i32 v = v.
Proof. unfold cast_i32. destruct (v <=? i32_max)%Z; [done|lia]. Qed.

Lemma try_unsigned_Ok v n : try_unsigned v = Ok n <-> n = v /\ (0 <= v)%Z.
Proof. unfold try_unsigned. destruct (Z.ltb_spec v 0); naive_solver lia. Qed.

(** A version column that passed its check reads back. *)
Lemma version_column v :
  (1 <= v)%Z -> (n ← try_unsigned v; map_err (fun _ => AppStorage) (version_new n)) = Ok v.
Proof.
  intros Hv. unfold try_unsigned. destruct (Z.ltb_spec v 0); [lia|]. simpl. unfold version_new.
  destruct (Z.eqb_spec v 0); [lia|done].
Qed.

(** ** Lists of steps *)

Lemma steps_map_lookup l id st :
  NoDup (st_id <$> l) -> steps_map l !! id = Some st <-> st ∈ l /\ st_id st = id.
Proof.
  induction l as [|a l IH]; [simpl; rewrite lookup_empty; set_solver|].
  rewrite fmap_cons, NoDup_cons. intros [Ha Hd]. simpl. rewrite lookup_insert_Some, IH by done. rewrite elem_of_cons.
  split; [naive_solver|]. intros [[->|Hin] <-]; [by left|]. right. split; [|done]. intros Heq. apply Ha. rewrite Heq.
  apply list_elem_of_fmap. eauto.
Qed.

Lemma collect_total {E A B} (f : A -> result E B) l :
  (forall a, a ∈ l -> exists b, f a = Ok b) -> exists l', collect f l = Ok l'.
Proof.
  induction l as [|a l IH]; intros Hf; simpl; [eauto|].
  destruct (Hf a) as [b ->]; [set_solver|]. destruct IH as [l' ->]; [intros; apply Hf; set_solver|]. simpl. eauto.
Qed.

Section Laws.
Context {J : Type} {SHA : Sha256}
  {SR : Serde J RunTerminalResult} {SA : Serde J RunActorRef} {SL : Serde J (list RunReference)}
  {SF : Serde J RunFailure} {SC : Serde J RunCheckpointPayloadV1}
  {SRok : SerdeOk J RunTerminalResult} {SAok : SerdeOk J RunActorRef} {SLok : SerdeOk J (list RunReference)}
  {SFok : SerdeOk J RunFailure}.
Implicit Types (t : Tables J) (k : Z * Z).

Lemma from_optional_to {A} `{!Serde J A, !SerdeOk J A} (o : option A) : from_optional (to_value <$> o) = Ok o.
Proof. destruct o as [a|]; simpl; [|done]. by rewrite from_to_value. Qed.

(** ** Step rows *)

Lemma step_row_roundtrip ws s :
  (0 <= cast_i32 (st_attempt s))%Z -> step_of_row (row_of_step ws s) = Ok (step_stored s).
Proof.
  intros Hb. pose proof (cast_i32_nonneg _ Hb) as Hc. unfold step_of_row, parse_step_status. simpl.
  rewrite step_status_roundtrip. simpl. rewrite Hc in *. unfold try_unsigned.
  destruct (Z.ltb_spec (st_attempt s) 0); [lia|]. simpl. rewrite !from_to_value. simpl.
  by rewrite from_optional_to.
Qed.

Lemma step_of_row_fixed row st :
  step_of_row row = Ok st ->
  st_id st = sw_id row /\ st_run_id st = sw_run_id row /\ st_plan_step_reference st = sw_plan_step_reference row /\
  from_value (sw_assigned_actor row) = Some (st_assigned_actor st) /\
  from_value (sw_input_references row) = Some (st_input_references st) /\ st_created_at st = sw_created_at row.
Proof.
  unfold step_of_row. intros H.
  repeat (apply bind_Ok in H as (? & ? & H)). injection H as <-. simpl. by rewrite !ok_or_Ok in *.
Qed.

Lemma step_row_update_roundtrip ws old o s :
  step_of_row old = Ok o -> (0 <= cast_i32 (st_attempt s))%Z ->
  step_of_row (step_row_update old (row_of_step ws s)) = Ok (step_merge o s).
Proof.
  intros (Hi & Hr & Hp & Ha & Hin & Hc)%step_of_row_fixed Hb. pose proof (cast_i32_nonneg _ Hb) as Hcast.
  unfold step_of_row, parse_step_status. simpl. rewrite step_status_roundtrip. simpl. rewrite Hcast in *.
  unfold try_unsigned. destruct (Z.ltb_spec (st_attempt s) 0); [lia|]. simpl. rewrite Ha, Hin. simpl.
  rewrite from_to_value. simpl. rewrite from_optional_to. simpl. unfold step_merge. congruence.
Qed.

(** ** Well-formed tables *)

Definition decode_step (row : RunStepRow J) : option RunStep :=
  match step_of_row row with Ok st => Some st | Err _ => None end.

Record tables_wf t : Prop := {
  tw_runs id row : t_runs t !! id = Some row ->
    rw_id row = id /\ (1 <= rw_run_version row <= i64_max)%Z /\ exists r, run_of_row row = Ok r;
  tw_steps id row : t_steps t !! id = Some row ->
    sw_id row = id /\ (exists st, step_of_row row = Ok st) /\
    exists run, t_runs t !! sw_run_id row = Some run /\ rw_workspace_id run = sw_workspace_id row;
}.

Lemma run_of_row_fixed row r :
  run_of_row row = Ok r ->
  ar_id r = rw_id row /\ ar_workspace_id r = rw_workspace_id row /\ ar_version r = rw_run_version row /\
  ar_objective r = rw_objective row /\ ar_coordinator_snapshot_id r = rw_coordinator_snapshot_id row /\
  RunExecutionMode.mode_parse (rw_execution_mode row) = Some (ar_execution_mode r) /\
  ar_created_at r = rw_created_at row.
Proof.
  unfold run_of_row. intros H. apply bind_Ok in H as (st & _ & H). apply bind_Ok in H as (m & Hm & H).
  apply bind_Ok in H as (n & Hn & H). apply bind_Ok in H as (v & Hv & H). apply bind_Ok in H as (res & _ & H).
  injection H as <-. simpl. apply try_unsigned_Ok in Hn as [-> _]. apply map_err_Ok in Hv.
  unfold version_new in Hv. destruct (_ =? _)%Z; [done|]. injection Hv as <-. by apply ok_or_Ok in Hm.
Qed.

Lemma run_of_row_identity row r :
  run_of_row row = Ok r -> ar_id r = rw_id row /\ ar_workspace_id r = rw_workspace_id row /\ ar_version r = rw_run_version row.
Proof. intros H%run_of_row_fixed. naive_solver. Qed.

(** ** The steps of a run *)

Definition run_rows t ws id : list (RunStepRow J) :=
  merge_sort created_le (List.filter (of_run ws id) (snd <$> map_to_list (t_steps t))).

Lemma run_rows_elem t ws id row :
  tables_wf t -> row ∈ run_rows t ws id <-> t_steps t !! sw_id row = Some row /\ of_run ws id row = true.
Proof.
  intros Hwf. unfold run_rows. rewrite merge_sort_Permutation, list_elem_of_In, filter_In, <-list_elem_of_In.
  rewrite list_elem_of_fmap. split.
  - intros [([sid row'] & -> & Hin) Hof]. apply elem_of_map_to_list in Hin. simpl in *.
    destruct (tw_steps t Hwf _ _ Hin) as (-> & _). done.
  - intros [Hl Hof]. split; [|done]. exists (sw_id row, row). split; [done|]. by apply elem_of_map_to_list.
Qed.

Lemma run_rows_NoDup t ws id : tables_wf t -> NoDup (sw_id <$> run_rows t ws id).
Proof.
  intros Hwf. unfold run_rows.
  assert (NoDup (sw_id <$> (snd <$> map_to_list (t_steps t)))) as Hd.
  { rewrite <-list_fmap_compose. replace (sw_id ∘ snd <$> map_to_list (t_steps t)) with (fst <$> map_to_list (t_steps t));
      [apply NoDup_fst_map_to_list|]. apply list_fmap_ext. intros i [sid row] Hi. simpl.
    apply list_elem_of_lookup_2, elem_of_map_to_list in Hi. by destruct (tw_steps t Hwf _ _ Hi) as (-> & _). }
  eapply NoDup_Permutation_proper; [apply fmap_Permutation, merge_sort_Permutation|].
  revert Hd. generalize (snd <$> map_to_list (t_steps t)). intros l. induction l as [|a l IH]; simpl; [done|].
  intros [Ha Hd]%NoDup_cons. destruct (of_run ws id a); simpl; [|auto]. constructor; [|auto].
  intros Hin. apply Ha. apply list_elem_of_fmap in Hin as (b & -> & Hb). apply list_elem_of_fmap. exists b.
  split; [done|]. apply list_elem_of_In. apply list_elem_of_In, filter_In in Hb. tauto.
Qed.

Lemma select_steps_Ok t ws id : tables_wf t ->
  exists l, select_steps t ws id = Ok l /\ NoDup (st_id <$> l) /\
    forall st, st ∈ l <-> exists row, t_steps t !! st_id st = Some row /\ of_run ws id row = true /\ step_of_row row = Ok st.
Proof.
  intros Hwf. unfold select_steps. fold (run_rows t ws id).
  destruct (collect_total step_of_row (run_rows t ws id)) as [l Hl].
  { intros row [Hrow _]%run_rows_elem; [|done]. by destruct (tw_steps t Hwf _ _ Hrow) as (_ & ? & _). }
  exists l. pose proof (collect_Ok _ _ _ Hl) as H2. split_and!; [done| |].
  - replace (st_id <$> l) with (sw_id <$> run_rows t ws id); [by apply run_rows_NoDup|].
    clear Hl. induction H2 as [|row st rows l Hrow _ IH]; [done|]. rewrite !fmap_cons, IH. f_equal.
    symmetry. apply step_of_row_fixed in Hrow. naive_solver.
  - intros st. split.
    + intros [i Hi]%list_elem_of_lookup. destruct (Forall2_lookup_r _ _ _ _ _ H2 Hi) as (row & Hrow & Hst).
      apply list_elem_of_lookup_2, run_rows_elem in Hrow as [Hl' Hof]; [|done].
      exists row. split_and!; try done. apply step_of_row_fixed in Hst as (-> & _). done.
    + intros (row & Hl' & Hof & Hst). assert (row ∈ run_rows t ws id) as [i Hi]%list_elem_of_lookup.
      { apply run_rows_elem; [done|]. by apply step_of_row_fixed in Hst as (<- & _). }
      destruct (Forall2_lookup_l _ _ _ _ _ H2 Hi) as (st' & Hst' & Heq). assert (st' = st) as -> by congruence.
      by eapply list_elem_of_lookup_2.
Qed.

(** The stored steps of a run are its rows. *)
Lemma stored_steps_row t k sid : tables_wf t ->
  stored_steps t k !! sid =
  match t_steps t !! sid with
  | Some row => if of_run k.1 k.2 row then decode_step row else None
  | None => None
  end.
Proof.
  intros Hwf. unfold stored_steps. simpl. destruct (select_steps_Ok t k.1 k.2 Hwf) as (l & -> & Hd & Hl).
  apply option_eq. intros st. rewrite steps_map_lookup, Hl by done. split.
  - intros [(row & Hrow & Hof & Hst) <-]. rewrite Hrow, Hof. unfold decode_step. by rewrite Hst.
  - destruct (t_steps t !! sid) as [row|] eqn:Hrow; [|done]. destruct (of_run _ _ _) eqn:Hof; [|done].
    unfold decode_step. destruct (step_of_row row) as [st'|] eqn:Hst; [|done]. intros [= ->].
    assert (st_id st = sid) as Hid.
    { apply step_of_row_fixed in Hst as (-> & _). by destruct (tw_steps t Hwf _ _ Hrow) as (-> & _). }
    split; [|done]. exists row. by rewrite Hid.
Qed.

(** ** Statements on one run *)

(** The run [k] is stored in its workspace. *)
Definition has_run t k : Prop := exists row, t_runs t !! k.2 = Some row /\ rw_workspace_id row = k.1.

(** A step that may be written for [k]. *)
Definition writable t k (s : RunStep) : Prop :=
  (st_run_id s = k.2 \/ is_Some (stored_steps t k !! st_id s)) /\
  forall k', k' <> k -> stored_steps t k' !! st_id s = None.

(** What the statements after the run's row leave unchanged, and what they do to [k]'s steps. *)
Record steps_written t t' k (l : list RunStep) : Prop := {
  sw_wf : tables_wf t';
  sw_runs : t_runs t' = t_runs t;
  sw_events : t_events t' = t_events t;
  sw_mine : stored_steps t' k = upsert_all l (stored_steps t k);
  sw_others k' : k' <> k -> stored_steps t' k' = stored_steps t k';
}.

Lemma stored_row t id row st :
  tables_wf t -> t_steps t !! id = Some row -> step_of_row row = Ok st ->
  stored_steps t (sw_workspace_id row, sw_run_id row) !! id = Some st.
Proof.
  intros Hwf Hrow Hst. rewrite stored_steps_row, Hrow by done. unfold of_run. simpl. rewrite !eqb_refl. simpl.
  unfold decode_step. by rewrite Hst.
Qed.

(** Writing one decodable row of [k]. *)
Lemma put_row t k id row st :
  tables_wf t -> has_run t k -> of_run k.1 k.2 row = true -> sw_id row = id -> step_of_row row = Ok st ->
  (forall k', k' <> k -> stored_steps t k' !! id = None) ->
  let t' := mkTables (t_runs t) (<[id := row]> (t_steps t)) (t_events t) (t_checkpoints t) (t_streams t) (t_work t) (t_now t) in
  tables_wf t' /\ stored_steps t' k = <[id := st]> (stored_steps t k) /\
  forall k', k' <> k -> stored_steps t' k' = stored_steps t k'.
Proof.
  intros Hwf (run & Hrun & Hws) Hof Hid Hst Hother t'. unfold of_run in Hof. bool_hyps.
  assert (Hwf' : tables_wf t').
  { split; [apply Hwf|]. intros id' row'. simpl. rewrite lookup_insert_Some. intros [[<- <-]|[_ Hrow']];
      [|by apply (tw_steps t Hwf)]. split_and!; [done|eauto|]. exists run. split; congruence. }
  split_and!; [done| |].
  - apply map_eq. intros i. rewrite stored_steps_row by done. simpl.
    destruct (base.decide (i = id)) as [->|Hne].
    + rewrite !lookup_insert_eq. unfold of_run, decode_step. rewrite Hst.
      replace (sw_workspace_id row) with (k.1) by done. replace (sw_run_id row) with (k.2) by done. by rewrite !eqb_refl.
    + rewrite !lookup_insert_ne by done. by rewrite stored_steps_row.
  - intros k' Hk'. apply map_eq. intros i. rewrite stored_steps_row by done. simpl.
    destruct (base.decide (i = id)) as [->|Hne].
    + rewrite lookup_insert_eq, (Hother k' Hk'). destruct (of_run k'.1 k'.2 row) eqn:E; [|done].
      unfold of_run in E. bool_hyps. exfalso. apply Hk'. destruct k, k'; simpl in *; congruence.
    + rewrite lookup_insert_ne by done. by rewrite stored_steps_row.
Qed.

Lemma insert_step_written t k s t' :
  tables_wf t -> has_run t k -> writable t k s -> insert_step t k.1 s = Ok t' -> steps_written t t' k [s].
Proof.
  intros Hwf Hrun [Hmine Hother] H. unfold insert_step in H. cbn [sw_attempt row_of_step] in H.
  destruct (_ <? 0)%Z eqn:Ha; [done|]. bool_hyps. destruct (_ && _); [done|].
  apply bind_Ok in H as (row & Hrow & [= <-]).
  assert (Hput : exists st, of_run k.1 k.2 row = true /\ sw_id row = st_id s /\ step_of_row row = Ok st /\
            st = match stored_steps t k !! st_id s with Some old => step_merge old s | None => step_stored s end).
  { destruct (t_steps t !! st_id s) as [old|] eqn:Hold.
    - destruct (_ !== _) eqn:Hws; [done|]. injection Hrow as <-. bool_hyps.
      destruct (tw_steps t Hwf _ _ Hold) as (Hid & (o & Ho) & _).
      pose proof (stored_row t _ _ _ Hwf Hold Ho) as Hst.
      assert ((sw_workspace_id old, sw_run_id old) = k) as Hk.
      { destruct (base.decide ((sw_workspace_id old, sw_run_id old) = k)) as [|Hne]; [done|].
        rewrite (Hother _ Hne) in Hst. done. }
      exists (step_merge o s). split_and!; [|done|by apply step_row_update_roundtrip|].
      + unfold of_run. simpl. rewrite <-Hk. simpl. by rewrite !eqb_refl.
      + rewrite <-Hk, Hst. done.
    - destruct (t_runs t !! st_run_id s) as [r|] eqn:Hr; [|done]. injection Hrow as <-.
      assert (Hnone : stored_steps t k !! st_id s = None) by (rewrite stored_steps_row, Hold by done; done).
      rewrite Hnone in Hmine. destruct Hmine as [Hmine|[? ?]]; [|done].
      exists (step_stored s). split_and!; [|done|by apply step_row_roundtrip|by rewrite Hnone].
      unfold of_run. simpl. by rewrite Hmine, !eqb_refl. }
  destruct Hput as (st & Hof & Hid & Hst & ->).
  destruct (put_row t k (st_id s) row _ Hwf Hrun Hof Hid Hst Hother) as (Hwf' & Hs & Ho). by split.
Qed.

Lemma steps_written_cons t t1 t' k s l :
  steps_written t t1 k [s] -> steps_written t1 t' k l -> steps_written t t' k (s :: l).
Proof.
  intros [W1 R1 E1 M1 O1] [W2 R2 E2 M2 O2]. split; [done|congruence|congruence| |].
  - rewrite M2, M1. done.
  - intros k' Hk'. by rewrite O2, O1.
Qed.

Lemma insert_steps_written t k l t' :
  tables_wf t -> has_run t k -> (forall s, s ∈ l -> writable t k s) ->
  for_each (fun t s => insert_step t k.1 s) t l = Ok t' -> steps_written t t' k l.
Proof.
  revert t. induction l as [|s l IH]; intros t Hwf Hrun Hw H; simpl in H; [injection H as <-; by split|].
  apply bind_Ok in H as (t1 & H1 & H). assert (Hs := insert_step_written t k s t1 Hwf Hrun (Hw s ltac:(set_solver)) H1).
  eapply steps_written_cons; [done|]. destruct Hs as [W1 R1 E1 M1 O1]. apply IH; [done| | |done].
  - destruct Hrun as (row & ? & ?). exists row. by rewrite R1.
  - intros s' Hin. destruct (Hw s') as [Hm Ho]; [set_solver|]. split.
    + destruct Hm as [|Hm]; [by left|]. right. rewrite M1. apply not_eq_None_Some in Hm.
      apply not_eq_None_Some. rewrite (upsert_all_lookup_None). tauto.
    + intros k' Hk'. rewrite O1 by done. by apply Ho.
Qed.

(** Statements that touch neither runs, steps nor events. *)
Lemma stored_steps_same t t' k : t_steps t' = t_steps t -> stored_steps t' k = stored_steps t k.
Proof. intros Hs. unfold stored_steps. simpl. unfold select_steps. by rewrite Hs. Qed.

Lemma tables_wf_same t t' : t_runs t' = t_runs t -> t_steps t' = t_steps t -> tables_wf t -> tables_wf t'.
Proof. intros Hr Hs [W1 W2]. split; rewrite Hr, ?Hs; eauto. Qed.

Lemma insert_items_same ws t l t' :
  for_each (fun t i => rows ← insert_work_item ws (t_now t) (t_work t) i; Ok (with_work t rows)) t l = Ok t' ->
  t_runs t' = t_runs t /\ t_steps t' = t_steps t /\ t_events t' = t_events t.
Proof.
  revert t. induction l as [|i l IH]; intros t H; simpl in H; [by injection H as <-|].
  apply bind_Ok in H as (t1 & H1 & H). apply bind_Ok in H1 as (rows & _ & [= <-]). by apply IH in H.
Qed.

Lemma insert_checkpoint_same t ws cp t' :
  insert_checkpoint t ws cp = Ok t' -> t_runs t' = t_runs t /\ t_steps t' = t_steps t /\ t_events t' = t_events t.
Proof.
  unfold insert_checkpoint. intros H. destruct (_ <? 1)%Z; [done|]. injection H as <-. by destruct (_ !! _).
Qed.

Lemma insert_step_runs t ws s t' : insert_step t ws s = Ok t' -> t_runs t' = t_runs t.
Proof.
  unfold insert_step. cbv zeta. intros H.
  repeat match type of H with (if ?b then _ else _) = _ => destruct b; [done|] end.
  apply bind_Ok in H as (row & _ & H). by injection H as <-.
Qed.

Lemma write_commit_runs t ws c t' : write_commit t ws c = Ok t' -> t_runs t' = t_runs t.
Proof.
  unfold write_commit. cbv zeta. intros (t2 & H2 & (t3 & H3 & (t4 & H4 & H)%bind_Ok)%bind_Ok)%bind_Ok.
  apply insert_items_same in H as (-> & _). transitivity (t_runs t3).
  { destruct (cm_checkpoint c); [by apply insert_checkpoint_same in H4 as (-> & _)|by injection H4 as ->]. }
  transitivity (t_runs t2).
  - revert t2 H2 H3. generalize (cm_new_steps c). intros l t2 _. revert t2.
    induction l as [|s l IH]; intros t2; cbn [for_each]; [by intros [= ->]|].
    intros (t5 & H5%insert_step_runs & H%IH)%bind_Ok. congruence.
  - unfold append_event in H2. destruct (any _ _); [done|]. destruct (_ || _); [done|]. by injection H2 as <-.
Qed.

Lemma write_commit_written t k c t' :
  tables_wf t -> has_run t k -> (forall s, s ∈ cm_new_steps c -> writable t k s) ->
  write_commit t k.1 c = Ok t' ->
  tables_wf t' /\ t_runs t' = t_runs t /\ t_events t' = t_events t ++ [(k.1, event_stored (cm_event c))] /\
  stored_steps t' k = upsert_all (cm_new_steps c) (stored_steps t k) /\
  forall k', k' <> k -> stored_steps t' k' = stored_steps t k'.
Proof.
  intros Hwf Hrun Hw H. unfold write_commit in H. apply bind_Ok in H as (t2 & H2 & H).
  apply bind_Ok in H as (t3 & H3 & H). apply bind_Ok in H as (t4 & H4 & H).
  assert (E2 : t_runs t2 = t_runs t /\ t_steps t2 = t_steps t /\ t_events t2 = t_events t ++ [(k.1, event_stored (cm_event c))]).
  { unfold append_event in H2. destruct (any _ _); [done|]. destruct (_ || _); [done|]. by injection H2 as <-. }
  destruct E2 as (R2 & S2 & E2).
  assert (Hwr : steps_written t2 t3 k (cm_new_steps c)).
  { eapply insert_steps_written; [by eapply tables_wf_same| | |done].
    - destruct Hrun as (row & ? & ?). exists row. by rewrite R2.
    - intros s Hin. destruct (Hw s Hin) as [Hm Ho]. split; [by rewrite (stored_steps_same t)|].
      intros k' Hk'. rewrite (stored_steps_same t) by done. by apply Ho. }
  destruct Hwr as [W3 R3 E3 M3 O3].
  assert (E4 : t_runs t4 = t_runs t3 /\ t_steps t4 = t_steps t3 /\ t_events t4 = t_events t3).
  { destruct (cm_checkpoint c); [by eapply insert_checkpoint_same|by injection H4 as <-]. }
  destruct E4 as (R4 & S4 & E4). apply insert_items_same in H as (R5 & S5 & E5).
  assert (S53 : t_steps t' = t_steps t3) by congruence.
  split_and!; [|congruence|congruence| |].
  - eapply (tables_wf_same t3); [congruence|done|done].
  - rewrite (stored_steps_same t3 t'), M3, (stored_steps_same t t2) by done. done.
  - intros k' Hk'. rewrite (stored_steps_same t3 t'), O3, (stored_steps_same t t2) by done. done.
Qed.

(** ** Run rows *)

Lemma stored_row_run t k : tables_wf t ->
  stored t k = match t_runs t !! k.2 with
               | Some row => if rw_workspace_id row == k.1
                             then match run_of_row row with Ok r => Some (r, stored_steps t k) | Err _ => None end
                             else None
               | None => None
               end.
Proof.
  intros Hwf. unfold stored, stored_steps. simpl. unfold select_run.
  destruct (select_steps_Ok t k.1 k.2 Hwf) as (l & -> & _).
  destruct (t_runs t !! k.2) as [row|]; [|done]. destruct (_ == _); [|done]. by destruct (run_of_row row).
Qed.

Definition put_run t id (row : AgentRunRow J) : Tables J :=
  mkTables (<[id := row]> (t_runs t)) (t_steps t) (t_events t) (t_checkpoints t) (t_streams t) (t_work t) (t_now t).

(** A decodable row of [k] in place of none or of a row of the same workspace. *)
Lemma put_run_wf t k row r :
  tables_wf t -> rw_id row = k.2 -> rw_workspace_id row = k.1 -> run_of_row row = Ok r -> (1 <= rw_run_version row <= i64_max)%Z ->
  (forall old, t_runs t !! k.2 = Some old -> rw_workspace_id old = k.1) ->
  tables_wf (put_run t k.2 row) /\ has_run (put_run t k.2 row) k /\
  (forall k', stored_steps (put_run t k.2 row) k' = stored_steps t k') /\
  stored (put_run t k.2 row) k = Some (r, stored_steps t k) /\
  forall k', k' <> k -> stored (put_run t k.2 row) k' = stored t k'.
Proof.
  intros Hwf Hid Hws Hr Hv Hold. set (t' := put_run t k.2 row).
  assert (Hwf' : tables_wf t').
  { split.
    - intros id row'. simpl. rewrite lookup_insert_Some. intros [[<- <-]|[_ H]]; [eauto|by apply Hwf].
    - intros id s Hs. destruct (tw_steps t Hwf id s Hs) as (H1 & H2 & run & Hrun & Hrw). split_and!; [done..|].
      simpl. destruct (base.decide (sw_run_id s = k.2)) as [Heq|Hne].
      + exists row. rewrite Heq, lookup_insert_eq. split; [done|]. rewrite Hws, <-Hrw. symmetry. apply Hold. congruence.
      + exists run. by rewrite lookup_insert_ne. }
  assert (Hss : forall k', stored_steps t' k' = stored_steps t k') by (intros; by apply stored_steps_same).
  split_and!; [done| |done| |].
  - exists row. simpl. by rewrite lookup_insert_eq.
  - rewrite stored_row_run by done. simpl. rewrite lookup_insert_eq, Hws, eqb_refl, Hr, Hss. done.
  - intros k' Hk'. rewrite !stored_row_run, Hss by done. simpl.
    destruct (base.decide (k'.2 = k.2)) as [Heq|Hne]; [|by rewrite lookup_insert_ne].
    assert (k'.1 <> k.1) as Hne by (destruct k, k'; simpl in *; congruence).
    rewrite Heq, lookup_insert_eq, Hws. rewrite (proj2 (eqb_false k.1 k'.1)) by done.
    destruct (t_runs t !! k.2) as [old|] eqn:Ho; [|done]. rewrite (Hold old eq_refl).
    by rewrite (proj2 (eqb_false k.1 k'.1)).
Qed.

Lemma version_decode v : (1 <= v)%Z -> try_unsigned v = Ok v /\ version_new v = Ok v.
Proof.
  intros Hv. unfold try_unsigned, version_new. destruct (Z.ltb_spec v 0); [lia|]. destruct (Z.eqb_spec v 0); [lia|done].
Qed.

Lemma update_run_row t ws run expected t1 :
  tables_wf t -> update_run t ws run expected = Ok t1 -> (1 <= expected)%Z ->
  exists old r row, t_runs t !! ar_id run = Some old /\ rw_workspace_id old = ws /\ run_of_row old = Ok r /\
    ar_version r = expected /\ t1 = put_run t (ar_id run) row /\ rw_id row = ar_id run /\ rw_workspace_id row = ws /\
    run_of_row row = Ok (run_merge r run) /\ (1 <= rw_run_version row <= i64_max)%Z.
Proof.
  intros Hwf H Hexp. unfold update_run in H. apply bind_Ok in H as (old & Hold & H).
  apply ok_or_Ok in Hold. unfold opt_filter in Hold. destruct (t_runs t !! ar_id run) as [old'|] eqn:Hrow; [|done].
  destruct (_ && _) eqn:Hcond in Hold; [|done]. injection Hold as ->. bool_hyps.
  destruct (negb _) eqn:Hok; [done|]. unfold run_row_ok in Hok. bool_hyps.
  destruct (tw_runs t Hwf _ _ Hrow) as (Hid & Hver & r & Hr).
  injection H as <-. pose proof (cast_i64_bound (ar_version run)) as Hbound.
  eexists old, r, _. split_and!; [done|done|done| |reflexivity|done|done| |done|done].
  - destruct (run_of_row_identity _ _ Hr) as (_ & _ & Hrv). rewrite Hrv.
    match goal with He : rw_run_version old = _ |- _ => rewrite He in Hver |- * end. apply cast_i64_nonneg. lia.
  - simpl. unfold run_of_row, parse_status, parse_execution_mode. simpl. rewrite status_roundtrip. simpl.
    unfold run_of_row in Hr. apply bind_Ok in Hr as (st & _ & Hr). apply bind_Ok in Hr as (m & Hm & Hr).
    apply bind_Ok in Hr as (n & _ & Hr). apply bind_Ok in Hr as (v & _ & Hr). apply bind_Ok in Hr as (res & _ & Hr).
    injection Hr as <-. unfold parse_execution_mode in Hm. rewrite Hm. simpl.
    destruct (version_decode (cast_i64 (ar_version run))) as [-> Hvn]; [lia|]. simpl. rewrite Hvn. simpl.
    rewrite from_optional_to. simpl. unfold run_merge. simpl. rewrite (cast_i64_nonneg (ar_version run)) by lia. done.
Qed.

Lemma insert_run_row t ws run t1 :
  tables_wf t -> insert_run t ws run = Ok t1 ->
  exists row, t_runs t !! ar_id run = None /\ t1 = put_run t (ar_id run) row /\ rw_id row = ar_id run /\
    rw_workspace_id row = ws /\ (1 <= rw_run_version row <= i64_max)%Z /\
    exists r, run_of_row row = Ok r /\ (ar_workspace_id run = ws -> r = run_inserted run).
Proof.
  intros Hwf H. unfold insert_run in H. destruct (is_some _) eqn:Hsome; [done|]. apply is_some_false in Hsome.
  destruct (negb _) eqn:Hok in H; [done|]. destruct (negb _) in H; [done|]. destruct (negb _) in H; [done|].
  unfold run_row_ok in Hok. bool_hyps. injection H as <-.
  pose proof (cast_i64_bound (ar_version run)) as Hbound.
  eexists. split_and!; [done|reflexivity|done|done|done|done|].
  unfold run_of_row, parse_status, parse_execution_mode. simpl. rewrite status_roundtrip. simpl.
  rewrite mode_roundtrip. simpl. destruct (version_decode (cast_i64 (ar_version run))) as [-> Hvn]; [lia|]. simpl.
  rewrite Hvn. simpl. eexists. split; [done|]. intros <-. unfold run_inserted.
  rewrite (cast_i64_nonneg (ar_version run)) by lia. by destruct run as [? ? ? ? ? ? ? ? ? [[]|]].
Qed.

(** ** The laws *)

Lemma select_events_app t t' ws e k :
  t_events t' = t_events t ++ [(ws, e)] ->
  events t' k = events t k ++ (if (ws == k.1) && (re_run_id e == k.2) then [e] else []).
Proof.
  intros He. unfold events. simpl. unfold select_events. rewrite He, List.filter_app, fmap_app. f_equal. simpl.
  by destruct (_ && _).
Qed.

Lemma events_written t t' ws id e :
  t_events t' = t_events t ++ [(ws, e)] -> re_run_id e = id ->
  events t' (ws, id) = events t (ws, id) ++ [e] /\ forall k', k' <> (ws, id) -> events t' k' = events t k'.
Proof.
  intros He Hid. split.
  - rewrite (select_events_app t t' ws e) by done. simpl. by rewrite Hid, !eqb_refl.
  - intros [ws' id'] Hne. rewrite (select_events_app t t' ws e) by done. simpl. destruct (_ && _) eqn:E; [|apply app_nil_r].
    bool_hyps. naive_solver.
Qed.

(** The write of a run's row followed by the statements of a commit. *)
Lemma written_after_run t k row r c t' :
  tables_wf t -> ar_id (cm_run c) = k.2 -> rw_id row = k.2 -> rw_workspace_id row = k.1 -> run_of_row row = Ok r ->
  (1 <= rw_run_version row <= i64_max)%Z -> (forall old, t_runs t !! k.2 = Some old -> rw_workspace_id old = k.1) ->
  owns_steps t k c -> write_commit (put_run t k.2 row) k.1 c = Ok t' ->
  tables_wf t' /\ stored t' k = Some (r, upsert_all (cm_new_steps c) (stored_steps t k)) /\
  t_events t' = t_events t ++ [(k.1, event_stored (cm_event c))] /\ forall k', k' <> k -> stored t' k' = stored t k'.
Proof.
  intros Hwf Hk Hid Hws Hr Hv Hold Hown H.
  destruct (put_run_wf t k row r Hwf Hid Hws Hr Hv Hold) as (Hwf1 & Hrun1 & Hss1 & Hst1 & Ho1).
  destruct (write_commit_written _ k c t' Hwf1 Hrun1) as (Hwf' & Hr' & He' & Hs' & Hss'); [|done|].
  { intros s Hin. destruct (Hown s Hin) as [Hm Ho]. unfold writable. rewrite Hss1. split; [done|].
    intros k' Hne. rewrite Hss1. by apply Ho. }
  split_and!; [done| |done|].
  - rewrite stored_row_run, Hr' by done. simpl. rewrite lookup_insert_eq, Hws, eqb_refl, Hr, Hs', Hss1. done.
  - intros k' Hne. rewrite <-Ho1 by done. rewrite !stored_row_run, Hr' by done. by rewrite Hss'.
Qed.

Lemma pg_create_ok t ctx c t' (k := key_of ctx (ar_id (cm_run c))) :
  tables_wf t -> pg_create t ctx c = Ok t' -> owns_steps t k c ->
  tables_wf t' /\ stored t k = None /\ t_events t' = t_events t ++ [(k.1, event_stored (cm_event c))] /\
  (ar_workspace_id (cm_run c) = rc_workspace_id ctx ->
   stored t' k = Some (run_inserted (cm_run c), upsert_all (cm_new_steps c) ∅)) /\
  forall k', k' <> k -> stored t' k' = stored t k'.
Proof.
  intros Hwf H Hown. unfold pg_create in H. apply bind_Ok in H as (t1 & H1 & H).
  destruct (insert_run_row _ _ _ _ Hwf H1) as (row & Hnone & -> & Hid & Hws & Hv & r & Hr & Hins).
  destruct (written_after_run t k row r c t') as (Hwf' & Hst & Hev & Ho); try done.
  { intros old Hold. simpl in Hold. congruence. }
  assert (Hempty : stored_steps t k = ∅).
  { apply map_eq. intros i. rewrite lookup_empty, stored_steps_row by done.
    destruct (t_steps t !! i) as [s|] eqn:Hs; [|done]. destruct (of_run _ _ s) eqn:Hof; [|done].
    destruct (tw_steps t Hwf _ _ Hs) as (_ & _ & run & Hrun & _). unfold of_run in Hof. bool_hyps. simpl in *. congruence. }
  split_and!; [done| |done| |done].
  - rewrite stored_row_run by done. simpl. by rewrite Hnone.
  - intros Hw. rewrite Hst, Hempty. by rewrite (Hins Hw).
Qed.

Lemma version_previous_Ok v v' : version_previous v = Ok v' -> (1 <= v')%Z /\ v = (v' + 1)%Z.
Proof. unfold version_previous. destruct (Z.leb_spec v 1); [done|]. intros [= <-]. lia. Qed.

Lemma pg_commit_run t ctx c t' (k := key_of ctx (ar_id (cm_run c))) :
  tables_wf t -> pg_commit t ctx c = Ok t' ->
  exists old r row, t_runs t !! k.2 = Some old /\ rw_workspace_id old = k.1 /\ run_of_row old = Ok r /\
    version_previous (ar_version (cm_run c)) = Ok (ar_version r) /\ rw_id row = k.2 /\ rw_workspace_id row = k.1 /\
    run_of_row row = Ok (run_merge r (cm_run c)) /\ (1 <= rw_run_version row <= i64_max)%Z /\
    write_commit (put_run t k.2 row) k.1 c = Ok t'.
Proof.
  intros Hwf H. unfold pg_commit in H. apply bind_Ok in H as (expected & Hexp & H). apply map_err_Ok in Hexp.
  apply bind_Ok in H as (t1 & H1 & H). apply bind_Ok in H as (t2 & H2 & H).
  apply bind_Ok in H as (loaded & _ & H). apply bind_Ok in H as (snap & _ & [= ->]).
  destruct (version_previous_Ok _ _ Hexp) as [Hpos _].
  destruct (update_run_row _ _ _ _ _ Hwf H1 Hpos) as (old & r & row & Hold & Hws & Hr & Hver & -> & Hid & Hw & Hr' & Hv).
  exists old, r, row. split_and!; try done; try apply Hv. congruence.
Qed.

Lemma pg_commit_stored t ctx c t' (k := key_of ctx (ar_id (cm_run c))) :
  tables_wf t -> pg_commit t ctx c = Ok t' ->
  exists r, stored t k = Some (r, stored_steps t k) /\ version_previous (ar_version (cm_run c)) = Ok (ar_version r) /\
    (owns_steps t k c -> tables_wf t' /\ t_events t' = t_events t ++ [(k.1, event_stored (cm_event c))] /\
       stored t' k = Some (run_merge r (cm_run c), upsert_all (cm_new_steps c) (stored_steps t k)) /\
       forall k', k' <> k -> stored t' k' = stored t k').
Proof.
  intros Hwf H. destruct (pg_commit_run _ _ _ _ Hwf H) as (old & r & row & Hold & Hws & Hr & Hver & Hid & Hw & Hr' & Hv & Hwr).
  fold k in Hold, Hws, Hid, Hw, Hwr. exists r. split_and!; [|done|].
  - rewrite stored_row_run by done. by rewrite Hold, Hws, eqb_refl, Hr.
  - intros Hown. destruct (written_after_run t k row (run_merge r (cm_run c)) c t') as (W & S & E & O); try done.
    intros old' Hold'. congruence.
Qed.

Lemma of_run_key ws id ws' id' (row : RunStepRow J) :
  of_run ws id row = true -> of_run ws' id' row = true -> (ws, id) = (ws', id').
Proof. unfold of_run. intros H1 H2. bool_hyps. congruence. Qed.

#[export] Instance PgRunStoreOk : RunStoreOk (Tables J).
Proof.
  refine {| sp_wf := tables_wf |}; simpl.
  - split; simpl; intros ??; by rewrite lookup_empty.
  - intros k. assert (tables_wf pg_empty) as Hwf by (split; simpl; intros ??; by rewrite lookup_empty).
    split_and!; [rewrite stored_row_run by done; done| |done].
    apply map_eq. intros i. rewrite lookup_empty, stored_steps_row by done. done.
  - intros t ctx c t' Hwf Hok Hown. by destruct (pg_create_ok _ _ _ _ Hwf Hok Hown).
  - intros t ctx c t' Hwf Hok Hown. destruct (pg_commit_stored _ _ _ _ Hwf Hok) as (r & _ & _ & Hr). by destruct (Hr Hown).
  - intros t ctx id at_ Hwf. by apply (tables_wf_same t).
  - intros t k Hwf. unfold select_run. destruct (t_runs t !! k.2) as [row|] eqn:Hrow; [|eauto].
    destruct (tw_runs t Hwf _ _ Hrow) as (_ & _ & r & ->). destruct (_ == _); simpl; eauto.
  - intros t k Hwf. destruct (select_steps_Ok t k.1 k.2 Hwf) as (l & ? & _). eauto.
  - intros t k r Hwf. unfold select_run. destruct (t_runs t !! k.2) as [row|] eqn:Hrow; [|done].
    destruct (_ == _) eqn:Hw; [|done]. bool_hyps. destruct (tw_runs t Hwf _ _ Hrow) as (Hid & Hv & r' & Hr').
    rewrite Hr'. intros [= ->]. destruct (run_of_row_identity _ _ Hr') as (-> & -> & ->). done.
  - intros t k k' sid Hwf Hne. rewrite !stored_steps_row by done. destruct (t_steps t !! sid) as [row|]; [|by left].
    destruct (of_run k.1 k.2 row) eqn:E; [|by left]. destruct (of_run k'.1 k'.2 row) eqn:E'; [|by right].
    destruct k, k'. by pose proof (of_run_key _ _ _ _ _ E E').
  - intros t k Hwf Hnone. apply map_eq. intros i. rewrite lookup_empty, stored_steps_row by done.
    destruct (t_steps t !! i) as [s|] eqn:Hs; [|done]. destruct (of_run _ _ s) eqn:Hof; [|done].
    destruct (tw_steps t Hwf _ _ Hs) as (_ & _ & run & Hrun & Hrw). unfold of_run in Hof. bool_hyps.
    unfold select_run in Hnone. replace k.2 with (sw_run_id s) in Hnone by done. rewrite Hrun in Hnone.
    rewrite (proj2 (eqb_true (rw_workspace_id run) k.1)) in Hnone by congruence.
    destruct (tw_runs t Hwf _ _ Hrun) as (_ & _ & r & Hr). by rewrite Hr in Hnone.
  - intros t ctx c t' Hwf Hok Hw Hew Hei Hown. destruct (pg_create_ok _ _ _ _ Hwf Hok Hown) as (_ & Hn & He & Hs & Ho).
    destruct (events_written _ _ _ _ _ He Hei) as [E1 E2]. split_and!; [done|by apply Hs|done|].
    intros k' Hk'. split; [by apply Ho|by apply E2].
  - intros t ctx c t' Hwf Hok. destruct (pg_commit_stored _ _ _ _ Hwf Hok) as (r & Hs & Hv & _). eauto.
  - intros t ctx c t' Hwf Hok Hew Hei Hown. destruct (pg_commit_stored _ _ _ _ Hwf Hok) as (r & Hs & Hv & Hr).
    destruct (Hr Hown) as (_ & He & Hst & Ho). destruct (events_written _ _ _ _ _ He Hei) as [E1 E2].
    eexists r, _. split_and!; [done..|]. intros k' Hk'. split; [by apply Ho|by apply E2].
  - intros t ctx c t' _ Hok. unfold pg_commit in Hok.
    apply bind_Ok in Hok as (v & _ & Hok). apply bind_Ok in Hok as (t1 & _ & Hok).
    apply bind_Ok in Hok as (t2 & _ & Hok). apply bind_Ok in Hok as (loaded & Hl & Hok).
    apply bind_Ok in Hok as (snap & Hsnap & [= <-]). apply ok_or_Ok in Hsnap as ->. exists snap.
    unfold pg_load in Hl. unfold snapshot_of. simpl. destruct (select_run _ _ _) as [[r|]|]; [|done..]. simpl in *.
    destruct (select_steps _ _ _); [|done]. simpl in *. destruct (select_checkpoint _ _ _); [|done]. simpl in *. congruence.
  - done.
Qed.

End Laws.
