(* ===== verification/RunSchedule.v ===== *)
(** * Work scheduled with the transition that needs it

    A run that is created or that starts running has an [advance_run] work item: the coordinator
    and the worker's handlers put it into the commit of the event, and the store writes both or
    neither.  [writes] states what holds of every [create] and [commit] a program makes, whatever
    its ports answer.  [work_step] is the system of both kinds of program and of the statements of
    the queue; [store_step] is every statement on the tables, whoever makes it. *)

From Stdlib Require Import ZArith Lia String.
From stdpp Require Import base option numbers strings gmap list.
From S2P Require Import Prelude Codec Crypto Text RunStatus RunDecider AgentRun RunReplay RunPorts RunStore.
From S2P Require Import RunConcurrency RunConcurrencyProps RunCoordinator RunCoordinatorProps RunSystem RunHandlers.
From S2P Require Import WorkQueue WorkQueueProps PgRunStore PgRunStoreProps.

(** ** What a program writes *)

Section Writes.
Context (P : CommitRun -> Prop).

Fixpoint writes {A : Type} (p : prog A) (Q : A -> Prop) : Prop :=
  match p with
  | Ret a => Q a
  | Now k => forall x, writes (k x) Q
  | NewId k => forall x, writes (k x) Q
  | ReadRun _ _ k => forall x, writes (k x) Q
  | ReadSteps _ _ k => forall x, writes (k x) Q
  | ReadCheckpoint _ _ k => forall x, writes (k x) Q
  | Create _ c k => P c /\ forall x, writes (k x) Q
  | Commit _ c k => P c /\ forall x, writes (k x) Q
  | CancelForRun _ _ _ k => forall x, writes (k x) Q
  end.

Lemma writes_bind {A B} (p : prog A) (f : A -> prog B) Q :
  writes p (fun a => writes (f a) Q) -> writes (prog_bind f p) Q.
Proof. induction p; simpl; naive_solver. Qed.

Lemma writes_mono {A} (p : prog A) (Q Q' : A -> Prop) : (forall a, Q a -> Q' a) -> writes p Q -> writes p Q'.
Proof. intros HQ. induction p; simpl; naive_solver. Qed.

Lemma writes_call {St : Type} `{!RunStore St} {A} (s : St) (p : prog A) s' p' Q :
  call_step s p s' p' -> writes p Q -> writes p' Q.
Proof. by destruct 1; simpl; naive_solver. Qed.

(** A method that ends in any way. *)
Abbreviation fine := (fun _ => True).

Lemma writes_M {A B} (p : M A) (f : A -> M B) :
  writes p (fun r => forall a, r = Ok a -> writes (f a) fine) -> writes (p ≫= f) fine.
Proof.
  intros Hp. apply writes_bind. revert Hp. generalize p. clear p. intros p.
  induction p as [[a|e]| | | | | | | |]; simpl; naive_solver.
Qed.

Lemma writes_domain {A B} (r : result DomainError A) (f : A -> M B) :
  (forall a, r = Ok a -> writes (f a) fine) -> writes (domain r ≫= f) fine.
Proof. intros Hf. apply writes_M. simpl. intros a Ha%from_domain_Ok. by apply Hf. Qed.

Lemma writes_pure {A B} (r : result ApplicationError A) (f : A -> M B) :
  (forall a, writes (f a) fine) -> writes (pure r ≫= f) fine.
Proof. intros Hf. apply writes_M. simpl. auto. Qed.

Lemma writes_clock {B} (f : Timestamp -> M B) : (forall t, writes (f t) fine) -> writes (clock_now ≫= f) fine.
Proof. intros Hf. apply writes_M. simpl. naive_solver. Qed.

Lemma writes_new_id {B} (f : Uuid -> M B) : (forall u, writes (f u) fine) -> writes (new_id ≫= f) fine.
Proof. intros Hf. apply writes_M. simpl. naive_solver. Qed.

Lemma writes_unwrap_or_new {B} o (f : Uuid -> M B) :
  (forall u, writes (f u) fine) -> writes (unwrap_or_new o ≫= f) fine.
Proof. intros Hf. apply writes_M. destruct o; simpl; naive_solver. Qed.

Lemma writes_load ctx id (Q : result ApplicationError (option RunSnapshot) -> Prop) :
  (forall r, Q r) -> writes (load ctx id) Q.
Proof. intros HQ. simpl. intros [[run|]|]; simpl; try done. intros [steps|]; simpl; [|done]. intros [cp|]; simpl; done. Qed.

Lemma writes_load_run {B} ctx id (f : RunSnapshot -> M B) :
  (forall s, writes (f s) fine) -> writes (load_run ctx id ≫= f) fine.
Proof.
  intros Hf. apply writes_M. unfold load_run. apply writes_bind, writes_load. intros [o|e]; simpl; naive_solver.
Qed.

Lemma writes_load_at {B} ctx id v (f : RunSnapshot -> M B) :
  (forall s, ar_version (sn_run s) = v -> writes (f s) fine) -> writes (load_at ctx id v ≫= f) fine.
Proof.
  intros Hf. apply writes_M. unfold load_at, load_run. apply writes_bind, writes_bind, writes_load.
  intros [o|e]; simpl; [|done]. destruct (ok_or o _) as [snap|]; simpl; [|done].
  destruct (Z.eqb_spec (ar_version (sn_run snap)) v); simpl; naive_solver.
Qed.

Context {UT : UuidText}.

Lemma writes_event {B} ctx rid v actor pl corr caus at_ (f : RunEvent -> M B) :
  (forall e, re_run_id e = rid -> re_run_version e = v -> re_payload e = pl -> writes (f e) fine) ->
  writes (event_new ctx rid v actor pl corr caus at_ ≫= f) fine.
Proof.
  intros Hf. apply writes_M. unfold event_new. simpl. intros id e He%from_domain_Ok.
  apply event_with_id_Ok in He as [-> _]. by apply Hf.
Qed.

Lemma writes_work_item {B} rid k v at_ act (f : WorkItem -> M B) :
  (forall i, it_kind i = k -> it_run_id i = rid -> it_expected_run_version i = v -> writes (f i) fine) ->
  writes (work_item rid k v at_ act ≫= f) fine.
Proof. intros Hf. apply writes_M. simpl. intros id i Hi. injection Hi as <-. by apply Hf. Qed.

Lemma writes_step_items rid v at_ steps : writes (step_work_items rid v at_ steps) fine.
Proof.
  induction steps as [|s steps IH]; simpl; [done|]. destruct (negb _); [done|].
  apply writes_work_item. intros item _ _ _. apply writes_M, (writes_mono _ fine); [|done]. by intros r _ items ->.
Qed.

End Writes.

(** ** Commits that schedule *)

(** The events after which a run has work to do. *)
Definition starts_work (p : RunEventPayload) : bool :=
  match p with
  | RunCreated _ _ _ _ => true
  | RunStatusChanged from to _ => (to == RunStatus.Running) && (from !== RunStatus.Running)
  | _ => false
  end.

Definition schedules (c : CommitRun) : Prop :=
  starts_work (re_payload (cm_event c)) = true ->
  exists i, i ∈ cm_work_items c /\ it_kind i = KindAdvanceRun /\ it_run_id i = re_run_id (cm_event c) /\
    it_expected_run_version i = re_run_version (cm_event c).

Abbreviation scheduling p := (writes schedules p (fun _ => True)).

Section Methods.
Context {UT : UuidText}.

Lemma idle_commit ctx c : starts_work (re_payload (cm_event c)) = false -> scheduling (store_commit ctx c).
Proof. intros Hs. split; [|done]. intros Ht. congruence. Qed.

Lemma scheduling_create ctx cmd : scheduling (create_run ctx cmd).
Proof.
  apply writes_clock. intros at_. apply writes_new_id. intros run_id. apply writes_domain. intros run Hrun.
  apply writes_unwrap_or_new. intros corr. apply writes_event. intros e Hr Hv Hp.
  apply writes_work_item. intros i Hk Hi Hiv. split.
  - intros _. exists i. simpl. split_and!; try congruence. set_solver.
  - intros [[]|]; simpl; [|done]. intros [[?|]|]; simpl; try done. intros [?|]; simpl; [|done]. intros [?|]; done.
Qed.

Lemma scheduling_transition ctx cmd extra : scheduling (transition_run_with ctx cmd extra).
Proof.
  apply writes_clock. intros at_. apply writes_load_at. intros snap Hv. cbv zeta.
  destruct (run_transition _ _ _ _ _) as [change run]. apply writes_domain. intros ch _.
  apply writes_domain. intros nv Hn. apply writes_unwrap_or_new. intros corr. apply writes_event. intros e Hr Hev Hp.
  assert (Hend : forall l, (starts_work (re_payload e) = true -> exists i, i ∈ l /\ it_kind i = KindAdvanceRun /\
      it_run_id i = re_run_id e /\ it_expected_run_version i = re_run_version e) ->
    scheduling (_ ← (if RunStatus.is_terminal (tr_target cmd) then cancel_for_run ctx (tr_run_id cmd) at_ else mret 0%Z);
                store_commit ctx (mkCommit run e [] None l))).
  { intros l Hl. apply writes_M. destruct (RunStatus.is_terminal _); simpl; naive_solver. }
  assert (Hst : starts_work (re_payload e) = (tr_target cmd == RunStatus.Running) && (ar_status (sn_run snap) !== RunStatus.Running))
    by by rewrite Hp.
  destruct (_ && _).
  - apply writes_M. simpl. intros id l Hl. injection Hl as <-. apply Hend.
    intros _. eexists. split; [apply elem_of_app; right; by apply list_elem_of_singleton|]. simpl. split_and!; congruence.
  - apply (Hend extra). rewrite Hst. done.
Qed.

Lemma scheduling_add_steps ctx cmd : scheduling (add_steps ctx cmd).
Proof.
  apply writes_clock. intros at_. apply writes_load_at. intros snap Hv. apply writes_domain. intros nv Hn.
  apply writes_pure. intros steps. apply writes_unwrap_or_new. intros corr. apply writes_event. intros e Hr Hev Hp.
  apply writes_M, (writes_mono _ _ (fun _ => True)); [|apply writes_step_items]. intros r _ l ->.
  apply idle_commit. simpl. by rewrite Hp.
Qed.

Lemma scheduling_transition_step ctx cmd : scheduling (transition_step ctx cmd).
Proof.
  apply writes_clock. intros at_. apply writes_load_at. intros snap Hv. apply writes_pure. intros step. cbv zeta.
  destruct (match ts_failure cmd with Some _ => _ | None => _ end) as [changed step'].
  apply writes_domain. intros [] _. apply writes_domain. intros nv Hn. apply writes_new_id. intros corr.
  apply writes_event. intros e Hr Hev Hp. apply idle_commit. simpl. by rewrite Hp.
Qed.

Lemma scheduling_checkpoint ctx cmd : scheduling (create_checkpoint ctx cmd).
Proof.
  apply writes_clock. intros at_. apply writes_load_at. intros snap Hv. apply writes_domain. intros nv Hn.
  apply writes_new_id. intros id. apply writes_domain. intros cp _. apply writes_new_id. intros corr.
  apply writes_event. intros e Hr Hev Hp. apply idle_commit. simpl. by rewrite Hp.
Qed.

Lemma scheduling_approve ctx cmd : scheduling (approve_run ctx cmd).
Proof.
  apply writes_load_run. intros snap. destruct (_ !== _); [done|]. apply writes_M.
  apply (writes_mono _ _ (fun _ => True)); [|apply scheduling_transition]. intros r _ approved ->.
  apply writes_clock. intros at_. apply writes_domain. intros nv Hn. apply writes_unwrap_or_new. intros corr.
  apply writes_event. intros e Hr Hev Hp. apply idle_commit. simpl. by rewrite Hp.
Qed.

Lemma scheduling_resume ctx cmd : scheduling (resume_run ctx cmd).
Proof.
  apply writes_domain. intros nv _. apply writes_new_id. intros id. apply writes_clock. intros at_.
  apply scheduling_transition.
Qed.

Lemma scheduling_program ctx r : scheduling (program ctx r).
Proof.
  destruct r; unfold program, pause_run, cancel_run, transition_run; auto using scheduling_create, scheduling_transition, scheduling_add_steps,
    scheduling_transition_step, scheduling_checkpoint, scheduling_approve, scheduling_resume.
Qed.

(** ** The handlers *)

Context {ET : ErrorText}.

Lemma writes_system_event {B} ctx rid v pl at_ (f : RunEvent -> M B) :
  (forall e, re_run_id e = rid -> re_run_version e = v -> re_payload e = pl -> scheduling (f e)) ->
  scheduling (system_event ctx rid v pl at_ ≫= f).
Proof. intros Hf. intros corr. by apply (writes_event schedules ctx rid v). Qed.

Lemma writes_execute_items {B} rid v at_ ids (f : list WorkItem -> M B) :
  (forall l, scheduling (f l)) -> scheduling (execute_items rid v at_ ids ≫= f).
Proof.
  intros Hf. apply writes_M, (writes_mono _ _ (fun _ => True)); [naive_solver|].
  induction ids as [|id ids IH]; [done|]. apply writes_work_item. intros item _ _ _.
  apply writes_M, (writes_mono _ _ (fun _ => True)); [|done]. by intros r _ items ->.
Qed.

(** The commit at the end of a handler that puts the advance item into it. *)
Lemma writes_advancing ctx (run : AgentRun) e nv at_ new cp (items : list WorkItem) (f : M RunWorkOutcome) :
  re_run_id e = ar_id run -> re_run_version e = nv -> scheduling f ->
  scheduling (advance ← advance_item (ar_id run) nv at_;
              _ ← store_commit ctx (mkCommit run e new cp (items ++ [advance])); f).
Proof.
  intros Hr Hv Hf. apply writes_work_item. intros i Hk Hi Hiv. split; [|intros [?|]; done].
  intros _. exists i. simpl. split_and!; [set_solver|congruence..].
Qed.

Lemma scheduling_finalize ctx snap item nv at_ : scheduling (finalize_run ctx snap item nv at_).
Proof.
  unfold finalize_run. destruct (final_result _) as [target res] eqn:Hf.
  destruct (run_transition _ _ _ _ _) as [change run]. apply writes_domain. intros ch _.
  apply writes_system_event. intros e Hr Hv Hp. apply writes_M.
  assert (Hidle : starts_work (re_payload e) = false).
  { rewrite Hp. unfold final_result in Hf. repeat case_match; by injection Hf as <- <-. }
  split; [intros Hs; simpl in Hs; congruence|]. intros [snap'|]; simpl; [|done]. intros _ _ [n|]; done.
Qed.

Lemma scheduling_advance ctx snap item : scheduling (handle_advance ctx snap item).
Proof.
  apply writes_clock. intros at_. apply writes_domain. intros nv Hn. destruct (ar_status (sn_run snap)) eqn:Hst; try done.
  - unfold prepare_run. destruct (run_transition _ _ _ _ _) as [change run]. apply writes_domain. intros ch _.
    apply writes_system_event. intros e Hr Hv Hp. by apply (writes_advancing ctx _ e nv at_ [] None []).
  - unfold start_run. destruct (run_transition _ _ _ _ _) as [change run]. apply writes_domain. intros ch _.
    apply writes_system_event. intros e Hr Hv Hp. destruct (all_steps_terminal _); [apply scheduling_finalize|].
    apply writes_execute_items. intros items. by apply (writes_advancing ctx _ e nv at_ [] None items).
  - unfold advance_running_run. destruct (all_steps_terminal _); [apply scheduling_finalize|].
    destruct (is_nil _); [done|]. apply writes_execute_items. intros items. apply writes_system_event.
    intros e Hr Hv Hp. split; [intros Hs; simpl in Hs; by rewrite Hp in Hs|]. intros [?|]; done.
Qed.

Lemma scheduling_handle_resume ctx snap item : scheduling (handle_resume ctx snap item).
Proof.
  unfold handle_resume. destruct (negb _); [done|]. apply writes_clock. intros at_. apply writes_domain. intros nv Hn.
  destruct (run_transition _ _ _ _ _) as [change run] eqn:Ht. apply writes_domain. intros ch ->.
  apply run_transition_Ok in Ht as (_ & _ & nv' & _ & ->).
  apply writes_system_event. intros e Hr Hv Hp.
  by apply (writes_advancing ctx (run_set_position nv at_ (run_set_position nv' at_ (run_set_status RunStatus.Running (sn_run snap)))) e nv at_ [] None []).
Qed.

Lemma scheduling_end_step ctx run step status err : scheduling (end_step ctx run step status err).
Proof.
  apply writes_clock. intros at_. apply writes_domain. intros nv Hn. apply writes_system_event. intros e Hr Hv Hp.
  by apply (writes_advancing ctx (run_set_position nv at_ run) e nv at_ _ None []).
Qed.

Lemma scheduling_execute executor ctx snap item :
  (forall x, executor = Some x -> forall c id s, scheduling (x c id s)) ->
  scheduling (handle_execute executor ctx snap item).
Proof.
  intros Hex. unfold handle_execute. destruct (it_kind item) as [| |sid]; try done. apply writes_pure. intros step.
  destruct (RunStepStatus.step_is_terminal _); [done|]. apply writes_clock. intros at_. apply writes_domain. intros nv Hn.
  apply writes_system_event. intros e Hr Hv Hp. apply (writes_advancing ctx _ e nv at_ _ None []); [done..|].
  cbv zeta. unfold complete_step, fail_step. destruct (negb _); [exact (scheduling_end_step _ _ _ _ _)|].
  destruct executor as [x|]; [|exact (scheduling_end_step _ _ _ _ _)].
  apply writes_bind, (writes_mono _ _ (fun _ => True)); [|by apply Hex].
  intros [[]|err] _; unfold settle_model_step, fail_step; try done; exact (scheduling_end_step _ _ _ _ _).
Qed.

End Methods.

(** ** The work items a transaction writes *)

Section Stored.
Context {UT : UuidText} {J : Type} {SHA : Sha256}
  {SR : Serde J RunTerminalResult} {SA : Serde J RunActorRef} {SL : Serde J (list RunReference)}
  {SF : Serde J RunFailure} {SC : Serde J RunCheckpointPayloadV1}.
Implicit Types (t : Tables J).

Lemma insert_steps_frame ws t l t' :
  for_each (fun t s => insert_step t ws s) t l = Ok t' ->
  t_work t' = t_work t /\ t_events t' = t_events t /\ t_now t' = t_now t.
Proof.
  revert t. induction l as [|s l IH]; intros t Hf; simpl in Hf; [by injection Hf as <-|].
  apply bind_Ok in Hf as (t1 & H1 & Hf). destruct (IH _ Hf) as (-> & -> & ->). unfold insert_step in H1. cbv zeta in H1.
  repeat match type of H1 with (if ?b then _ else _) = _ => destruct b; [done|] end.
  apply bind_Ok in H1 as (row & _ & H1). by injection H1 as <-.
Qed.

Lemma insert_items_rows ws t l t' :
  for_each (fun t i => rows ← insert_work_item ws (t_now t) (t_work t) i; Ok (with_work t rows)) t l = Ok t' ->
  t_work t' = t_work t ++ map (row_of_item ws (t_now t)) l /\ t_events t' = t_events t.
Proof.
  revert t. induction l as [|i l IH]; intros t Hf; simpl in Hf; [injection Hf as <-; by rewrite app_nil_r|].
  apply bind_Ok in Hf as (t1 & H1 & Hf). apply bind_Ok in H1 as (rows & Hi & H1). injection H1 as <-.
  destruct (IH _ Hf) as [-> ->]. simpl. unfold insert_work_item in Hi. cbv zeta in Hi.
  destruct (any _ _); [done|]. destruct (_ || _); [done|]. injection Hi as <-. by rewrite <-app_assoc.
Qed.

Lemma write_commit_rows t ws c t' :
  write_commit t ws c = Ok t' ->
  t_work t' = t_work t ++ map (row_of_item ws (t_now t)) (cm_work_items c) /\
  t_events t' = t_events t ++ [(ws, event_stored (cm_event c))] /\
  cast_i64 (re_run_version (cm_event c)) = re_run_version (cm_event c).
Proof.
  unfold write_commit. intros H. apply bind_Ok in H as (t2 & H2 & H). apply bind_Ok in H as (t3 & H3 & H).
  apply bind_Ok in H as (t4 & H4 & H). apply insert_items_rows in H as [-> ->].
  assert (t_work t4 = t_work t3 /\ t_events t4 = t_events t3 /\ t_now t4 = t_now t3) as (-> & -> & ->).
  { destruct (cm_checkpoint c); [|by injection H4 as <-]. unfold insert_checkpoint in H4. cbv zeta in H4.
    destruct (_ <? _)%Z; [done|]. injection H4 as <-. by destruct (t_checkpoints t3 !! _). }
  apply insert_steps_frame in H3 as (-> & -> & ->). unfold append_event in H2. destruct (any _ _); [done|].
  destruct (_ || _) eqn:Hb; [done|]. injection H2 as <-. simpl. split_and!; [done..|].
  apply orb_false_iff in Hb as [Hb He]. apply negb_false_iff, Z.eqb_eq in He. rewrite <-He.
  apply Z.ltb_ge in Hb. unfold cast_i64 in *. destruct (Z.leb_spec (re_sequence (cm_event c)) isize_max); [done|lia].
Qed.

(** ** The statements on the tables, whoever makes them *)

Lemma insert_run_frame t ws run t1 :
  insert_run t ws run = Ok t1 ->
  t_work t1 = t_work t /\ t_events t1 = t_events t /\ t_now t1 = t_now t /\ t_runs t !! ar_id run = None /\
  exists row, t_runs t1 = <[ar_id run := row]> (t_runs t).
Proof.
  unfold insert_run. cbv zeta. intros H. destruct (is_some _) eqn:Hs; [done|]. apply is_some_false in Hs.
  repeat match type of H with (if ?b then _ else _) = _ => destruct b; [done|] end. injection H as <-. eauto 10.
Qed.

Lemma update_run_frame t ws run expected t1 :
  update_run t ws run expected = Ok t1 ->
  t_work t1 = t_work t /\ t_events t1 = t_events t /\ t_now t1 = t_now t /\
  exists row row', t_runs t !! ar_id run = Some row /\ rw_workspace_id row = ws /\
    rw_run_version row = cast_i64 expected /\ t_runs t1 = <[ar_id run := row']> (t_runs t) /\
    rw_workspace_id row' = ws /\ rw_run_version row' = cast_i64 (ar_version run) /\ (1 <= cast_i64 (ar_version run))%Z.
Proof.
  unfold update_run. intros H. apply bind_Ok in H as (row & Hrow & H). apply ok_or_Ok in Hrow. unfold opt_filter in Hrow.
  destruct (t_runs t !! ar_id run) as [row0|]; [|done]. destruct (_ && _) eqn:Hc in Hrow; [|done].
  injection Hrow as ->. bool_hyps. destruct (negb _) eqn:Hok; [done|]. unfold run_row_ok in Hok. bool_hyps.
  injection H as <-. split_and!; [done..|]. do 2 eexists. split_and!; try done.
Qed.

Lemma pg_commit_parts t ctx c t' :
  pg_commit t ctx c = Ok t' -> exists expected t1, version_previous (ar_version (cm_run c)) = Ok expected /\
    update_run t (rc_workspace_id ctx) (cm_run c) expected = Ok t1 /\ write_commit t1 (rc_workspace_id ctx) c = Ok t'.
Proof.
  unfold pg_commit. intros H. apply bind_Ok in H as (v & Hv & H). apply map_err_Ok in Hv. apply bind_Ok in H as (t1 & H1 & H).
  apply bind_Ok in H as (t2 & H2 & H). apply bind_Ok in H as (l & _ & H). apply bind_Ok in H as (snap & _ & H).
  injection H as <-. eauto.
Qed.

(** The transaction that commits a provider's result: the run one version on, one event that is no
    start, and one work item. *)
Lemma result_frame output event_id corr t ctx c t' (ws := rc_workspace_id ctx) :
  pg_commit_provider_result output event_id corr t ctx c = Ok t' ->
  (exists row row', t_runs t !! pv_run_id c = Some row /\ t_runs t' = <[pv_run_id c := row']> (t_runs t) /\
     rw_run_version row' = (rw_run_version row + 1)%Z) /\
  (exists e, t_events t' = t_events t ++ [(ws, e)] /\ starts_work (re_payload e) = false /\ ~ ((ws, e) ∈ t_events t)) /\
  exists i, it_id i ∉ (wr_id <$> t_work t) /\
    t_work t' = t_work t ++ [with_step (pv_step_id c) (row_of_item ws (t_now t) i)].
Proof.
  unfold pg_commit_provider_result. cbv zeta. fold ws. intros H. apply bind_Ok in H as (n & Hn & H). apply ok_or_Ok in Hn.
  apply bind_Ok in H as (t1 & H1 & H). apply bind_Ok in H as (t2 & H2 & H). apply bind_Ok in H as (v & _ & H).
  apply bind_Ok in H as (e & He & H). apply from_domain_Ok, event_with_id_Ok in He as [-> _].
  apply bind_Ok in H as (t3 & H3 & H). apply bind_Ok in H as (rows & Hr & H). apply bind_Ok in H as (l & _ & H).
  apply bind_Ok in H as (s & _ & H). injection H as <-.
  unfold update_result_step in H1. apply bind_Ok in H1 as (sr & _ & H1). injection H1 as <-.
  unfold update_result_run in H2. apply bind_Ok in H2 as (x & Hx & H2). apply bind_Ok in H2 as (y & Hy & H2).
  apply bind_Ok in H2 as (row & Hrow & H2). apply ok_or_Ok in Hrow. unfold opt_filter in Hrow. simpl in Hrow.
  destruct (t_runs t !! pv_run_id c) as [row0|] eqn:Hruns; [|done]. destruct (_ && _ && _) eqn:Hb in Hrow; [|done].
  injection Hrow as ->. bool_hyps. injection H2 as <-. unfold append_event in H3. simpl in H3.
  destruct (any _ _) eqn:Ha; [done|]. destruct (_ || _); [done|]. injection H3 as <-. simpl in *.
  apply insert_work_item_rows in Hr as (-> & Hid & _). simpl in Hid. split_and!.
  - eexists _, _. split_and!; [done..|]. simpl. unfold try_i64 in Hx, Hy. destruct (_ <=? _)%Z in Hx; [|done].
    destruct (_ <=? _)%Z in Hy; [|done]. injection Hx as <-. injection Hy as <-. unfold checked_add in Hn.
    destruct (_ <=? _)%Z; [|done]. injection Hn as <-. lia.
  - eexists. split_and!; [done..|]. intros Hin. apply any_false in Ha. rewrite Forall_forall in Ha.
    specialize (Ha _ Hin). simpl in Ha. by rewrite eqb_refl in Ha.
  - exists (result_item c v). split; [done|]. unfold update_row. rewrite map_app. f_equal.
    + rewrite <-(map_id (t_work t)) at 2. apply map_ext_in. intros r Hin. destruct (_ == _) eqn:E; [|done].
      rewrite eqb_true in E. exfalso. apply Hid. rewrite <-E. by apply list_elem_of_fmap_2, list_elem_of_In.
    + simpl. by rewrite eqb_refl.
Qed.

(** Any transaction of the store by any caller, any change of the work items and the passing of time. *)
Inductive store_step : Tables J -> Tables J -> Prop :=
| stmt_create t ctx c t' : pg_create t ctx c = Ok t' -> store_step t t'
| stmt_commit t ctx c t' : pg_commit t ctx c = Ok t' -> store_step t t'
| stmt_result t output event_id corr ctx c t' :
    pg_commit_provider_result output event_id corr t ctx c = Ok t' -> store_step t t'
| stmt_work t rows : store_step t (with_work t rows)
| stmt_time t now :
    store_step t (mkTables (t_runs t) (t_steps t) (t_events t) (t_checkpoints t) (t_streams t) (t_work t) now).

(** The run is stored, at that version or a later one. *)
Definition run_at_least (id : AgentRunId) (n : Z) t : Prop :=
  exists row, t_runs t !! id = Some row /\ (n <= rw_run_version row)%Z.

Lemma commit_version t ctx c t' :
  pg_commit t ctx c = Ok t' ->
  exists row row', t_runs t !! ar_id (cm_run c) = Some row /\ t_runs t' = <[ar_id (cm_run c) := row']> (t_runs t) /\
    rw_run_version row' = ar_version (cm_run c) /\ ar_version (cm_run c) = (rw_run_version row + 1)%Z.
Proof.
  intros (v & t1 & Hv & H1 & H2)%pg_commit_parts. apply version_previous_Ok in Hv as [Hpos Hver].
  apply update_run_frame in H1 as (_ & _ & _ & row & row' & Hrow & _ & Hold & Hr1 & _ & Hnew & Hge).
  apply write_commit_runs in H2. exists row, row'. rewrite H2. split_and!; try done.
  - rewrite Hnew. apply cast_i64_nonneg. lia.
  - rewrite Hold, Hver. assert (cast_i64 (ar_version (cm_run c)) = ar_version (cm_run c)) as He by (apply cast_i64_nonneg; lia).
    pose proof (cast_i64_bound (ar_version (cm_run c))). unfold cast_i64 at 1. unfold i64_max, isize_max in *.
    destruct (Z.leb_spec v (2 ^ 63 - 1)); lia.
Qed.

Lemma store_step_version id n t t' : store_step t t' -> run_at_least id n t -> run_at_least id n t'.
Proof.
  intros Hs (row & Hrow & Hn). destruct Hs as [t ctx c t' H|t ctx c t' H|t output ev corr ctx c t' H|t rows|t now];
    try by exists row.
  - apply bind_Ok in H as (t1 & (_ & _ & _ & Hnone & row' & Hr)%insert_run_frame & H%write_commit_runs).
    exists row. split; [|done]. rewrite H, Hr, lookup_insert_ne; [done|]. congruence.
  - destruct (commit_version _ _ _ _ H) as (old & new & Hold & Hr & Hnew & Hv). unfold run_at_least. rewrite Hr.
    destruct (base.decide (id = ar_id (cm_run c))) as [->|Hne].
    + exists new. rewrite lookup_insert_eq. split; [done|]. assert (old = row) as -> by congruence. lia.
    + exists row. by rewrite lookup_insert_ne.
  - apply result_frame in H as [(old & new & Hold & Hr & Hv) _]. unfold run_at_least. rewrite Hr.
    destruct (base.decide (id = pv_run_id c)) as [->|Hne].
    + exists new. rewrite lookup_insert_eq. split; [done|]. assert (old = row) as -> by congruence. lia.
    + exists row. by rewrite lookup_insert_ne.
Qed.

Lemma store_steps_version id n t t' : rtc store_step t t' -> run_at_least id n t -> run_at_least id n t'.
Proof. induction 1 as [|? ? ? Hs _ IH]; eauto using store_step_version. Qed.

(** A commit of a version that is stored already. *)
Lemma commit_of_old_version t ctx c n :
  run_at_least (ar_id (cm_run c)) n t -> (ar_version (cm_run c) <= n)%Z -> (n <= i64_max)%Z ->
  pg_commit t ctx c = Err (if (ar_version (cm_run c) <=? 1)%Z then AppStorage else AppConflict).
Proof.
  intros (row & Hrow & Hn) Hv Hb. unfold pg_commit, version_previous.
  destruct (Z.leb_spec (ar_version (cm_run c)) 1); [done|]. simpl. unfold update_run. rewrite Hrow. simpl.
  assert (cast_i64 (ar_version (cm_run c) - 1) = ar_version (cm_run c) - 1)%Z as ->.
  { unfold cast_i64, i64_max, isize_max in *. destruct (Z.leb_spec (ar_version (cm_run c) - 1) (2 ^ 63 - 1)); lia. }
  destruct (Z.eqb_spec (rw_run_version row) (ar_version (cm_run c) - 1)); [lia|]. by rewrite andb_false_r.
Qed.

(** ** Every start has its work item *)

(** What the statements of the queue leave of a work item. *)
Record same_item (r r' : WorkItemRow) : Prop := {
  si_id : wr_id r' = wr_id r;
  si_workspace : wr_workspace_id r' = wr_workspace_id r;
  si_run : wr_run_id r' = wr_run_id r;
  si_step : wr_step_id r' = wr_step_id r;
  si_kind : wr_kind r' = wr_kind r;
  si_version : wr_expected_run_version r' = wr_expected_run_version r;
  si_key : wr_idempotency_key r' = wr_idempotency_key r;
  si_max : wr_max_attempts r' = wr_max_attempts r;
}.

#[export] Instance same_item_preorder : PreOrder same_item.
Proof. split; [by intros r; constructor|]. intros r1 r2 r3 [] []. constructor; congruence. Qed.

(** Every work item is still there, the same item. *)
Definition keeps (rows rows' : list WorkItemRow) : Prop :=
  forall r, r ∈ rows -> exists r', r' ∈ rows' /\ same_item r r'.

#[export] Instance keeps_preorder : PreOrder keeps.
Proof.
  split; [by intros rows r Hr; exists r|]. intros a b c Hab Hbc r Hr. destruct (Hab r Hr) as (r1 & H1 & S1).
  destruct (Hbc r1 H1) as (r2 & H2 & S2). exists r2. split; [done|by etrans].
Qed.

Lemma keeps_app rows l : keeps rows (rows ++ l).
Proof. intros r Hr. exists r. split; [|done]. apply elem_of_app. by left. Qed.

Lemma keeps_map (f : WorkItemRow -> WorkItemRow) rows : (forall r, r ∈ rows -> same_item r (f r)) -> keeps rows (map f rows).
Proof. intros Hf r Hr. exists (f r). split; [by apply list_elem_of_fmap_2|auto]. Qed.

Lemma keeps_where (p : WorkItemRow -> bool) f rows :
  (forall r, same_item r (f r)) -> keeps rows (update_where p f rows).2.
Proof. intros Hf. apply keeps_map. intros r _. by destruct (p r). Qed.

Lemma queue_op_same ws op rows : NoDup (wr_id <$> rows) -> keeps rows (queue_op ws op rows).2.
Proof.
  intros Hd. destruct op as [now i|locked worker now u|i|i at_ e|run at_|i e]; cbn [queue_op snd].
  - destruct (insert_work_item _ _ _ _) eqn:E; [|done]. apply insert_work_item_rows in E as (-> & _). apply keeps_app.
  - unfold lease_next. destruct (first_row _ rows) as [r0|] eqn:Hf; [|done]. destruct (_ <? _)%Z; [done|].
    apply first_row_Some in Hf as (Hin & _); [|done]. simpl. apply keeps_map. intros r Hr.
    destruct (wr_id r == wr_id r0) eqn:He; [|done]. rewrite eqb_true in He.
    assert (r = r0) as -> by by eapply NoDup_id_eq. by constructor.
  - unfold complete. rewrite affected_rows. by apply keeps_where.
  - unfold retry. rewrite affected_rows. by apply keeps_where.
  - by apply keeps_where.
  - unfold dead_letter. rewrite affected_rows. by apply keeps_where.
Qed.

(** ** Identifiers of work items stay distinct *)

Abbreviation distinct t := (NoDup (wr_id <$> t_work t)).

Lemma insert_items_distinct ws t l t' :
  for_each (fun t i => rows ← insert_work_item ws (t_now t) (t_work t) i; Ok (with_work t rows)) t l = Ok t' ->
  distinct t -> distinct t'.
Proof.
  revert t. induction l as [|i l IH]; intros t Hf Hd; simpl in Hf; [by injection Hf as <-|].
  apply bind_Ok in Hf as (t1 & H1 & Hf). apply bind_Ok in H1 as (rows & Hi & H1). injection H1 as <-.
  apply (IH _ Hf). pose proof (queue_op_NoDup ws (OpInsert (t_now t) i) (t_work t) Hd) as Hq.
  cbn [queue_op snd] in Hq. by rewrite Hi in Hq.
Qed.

Lemma write_commit_distinct t ws c t' : write_commit t ws c = Ok t' -> distinct t -> distinct t'.
Proof.
  unfold write_commit. intros H Hd. apply bind_Ok in H as (t2 & H2 & H). apply bind_Ok in H as (t3 & H3 & H).
  apply bind_Ok in H as (t4 & H4 & H). apply (insert_items_distinct _ _ _ _ H).
  assert (t_work t4 = t_work t3) as ->.
  { destruct (cm_checkpoint c); [|by injection H4 as <-]. unfold insert_checkpoint in H4. cbv zeta in H4.
    destruct (_ <? _)%Z; [done|]. injection H4 as <-. by destruct (t_checkpoints t3 !! _). }
  apply insert_steps_frame in H3 as (-> & _). unfold append_event in H2. destruct (any _ _); [done|].
  destruct (_ || _); [done|]. by injection H2 as <-.
Qed.

Lemma call_distinct {A} t (p : prog A) t' p' : call_step t p t' p' -> distinct t -> distinct t'.
Proof.
  assert (Hcreate : forall ctx c t1, pg_create t ctx c = Ok t1 -> distinct t -> distinct t1).
  { intros ctx c t1 H Hd. apply bind_Ok in H as (t2 & (Hw & _)%insert_run_frame & H).
    apply (write_commit_distinct _ _ _ _ H). by rewrite Hw. }
  assert (Hcommit : forall ctx c t1, pg_commit t ctx c = Ok t1 -> distinct t -> distinct t1).
  { intros ctx c t1 (v & t2 & _ & (Hw & _)%update_run_frame & H)%pg_commit_parts Hd.
    apply (write_commit_distinct _ _ _ _ H). by rewrite Hw. }
  intros Hc Hd. destruct Hc; try done;
    try match goal with E : _ = Ok _ |- _ => first [exact (Hcreate _ _ _ E Hd) | exact (Hcommit _ _ _ E Hd)] end.
  exact (queue_op_NoDup (rc_workspace_id ctx) (OpCancel id at_) _ Hd).
Qed.

(** The [advance_run] item of a stored event. *)
Definition advances (ws : WorkspaceId) (e : RunEvent) (row : WorkItemRow) : Prop :=
  wr_workspace_id row = ws /\ wr_run_id row = re_run_id e /\ wr_kind row = "advance_run"%string /\
  wr_expected_run_version row = re_run_version e.

(** What one step does to the events and the work items. *)
Record work_effect t t' : Prop := {
  we_keeps : keeps (t_work t) (t_work t');
  we_events ws e : (ws, e) ∈ t_events t' -> (ws, e) ∈ t_events t \/
    (~ ((ws, e) ∈ t_events t) /\ (starts_work (re_payload e) = true ->
       exists row, row ∈ t_work t' /\ advances ws e row /\ wr_status row = "ready"%string));
}.

Lemma write_effect t t1 ws c t' :
  t_work t1 = t_work t -> t_events t1 = t_events t -> schedules c -> write_commit t1 ws c = Ok t' -> work_effect t t'.
Proof.
  intros Hw He Hc H. pose proof (write_commit_rows _ _ _ _ H) as (Hw' & He' & Hcast). split.
  - rewrite Hw', Hw. apply keeps_app.
  - intros ws' e Hin. rewrite He', He in Hin. apply elem_of_app in Hin as [Hin|Hin]; [by left|].
    apply list_elem_of_singleton in Hin. injection Hin as -> ->. right. split.
    + unfold write_commit in H. apply bind_Ok in H as (t2 & H2 & _). unfold append_event in H2.
      destruct (any _ _) eqn:Ha; [done|]. simpl in Ha. rewrite He in Ha. intros Hin.
      apply any_false in Ha. rewrite Forall_forall in Ha. specialize (Ha _ Hin). simpl in Ha. by rewrite eqb_refl in Ha.
    + intros Hst. destruct (Hc Hst) as (i & Hi & Hk & Hr & Hv). exists (row_of_item ws (t_now t1) i).
      rewrite Hw'. split; [apply elem_of_app; right; by apply list_elem_of_fmap_2|].
      unfold advances, row_of_item. rewrite Hk. simpl. rewrite Hv, Hcast. split_and!; by auto.
Qed.

Lemma same_effect t t' : t_events t' = t_events t -> keeps (t_work t) (t_work t') -> work_effect t t'.
Proof. intros He Hk. split; [done|]. intros ws e. rewrite He. by left. Qed.

Lemma call_effect {A} t (p : prog A) t' p' :
  writes schedules p (fun _ => True) -> call_step t p t' p' -> work_effect t t'.
Proof.
  assert (Hcreate : forall ctx c t1, schedules c -> pg_create t ctx c = Ok t1 -> work_effect t t1).
  { intros ctx c t1 Hc H. apply bind_Ok in H as (t2 & (Hw & He & _)%insert_run_frame & H). by eapply write_effect. }
  assert (Hcommit : forall ctx c t1, schedules c -> pg_commit t ctx c = Ok t1 -> work_effect t t1).
  { intros ctx c t1 Hc (v & t2 & _ & (Hw & He & _)%update_run_frame & H)%pg_commit_parts. by eapply write_effect. }
  intros Hp Hc. destruct Hc; try (by apply same_effect); try (destruct Hp as [Hp _];
    match goal with E : _ = Ok _ |- _ => first [exact (Hcreate _ _ _ Hp E) | exact (Hcommit _ _ _ Hp E)] end).
  apply same_effect; [done|]. by apply keeps_where.
Qed.

Lemma result_effect output ev corr t ctx c t' :
  pg_commit_provider_result output ev corr t ctx c = Ok t' -> distinct t -> distinct t' /\ work_effect t t'.
Proof.
  intros (_ & (e & He & Hst & Hnew) & i & Hid & Hw)%result_frame Hd. rewrite Hw. split.
  - rewrite fmap_app, NoDup_app. split_and!; [done| |apply NoDup_singleton].
    intros x Hx. simpl. rewrite row_of_item_id. set_solver.
  - split; [rewrite Hw; apply keeps_app|]. intros ws' e' Hin. rewrite He in Hin.
    apply elem_of_app in Hin as [Hin|Hin]; [by left|]. apply list_elem_of_singleton in Hin. injection Hin as -> ->.
    right. split; [done|]. intros Hs. congruence.
Qed.

End Stored.

(** ** Requests, handlers and the queue as one system *)

Section Work.
Context {UT : UuidText} {ET : ErrorText} {J : Type} {SHA : Sha256}
  {SR : Serde J RunTerminalResult} {SA : Serde J RunActorRef} {SL : Serde J (list RunReference)}
  {SF : Serde J RunFailure} {SC : Serde J RunCheckpointPayloadV1}.
Context (executor : option (RequestContext -> AgentRunId -> RunStepId -> M StepModelOutcome)).
Implicit Types (t : Tables J).

(** The handler the worker runs for an item. *)
Definition handler (ctx : RequestContext) (snapshot : RunSnapshot) (item : WorkItem) : M RunWorkOutcome :=
  match it_kind item with
  | KindAdvanceRun => handle_advance ctx snapshot item
  | KindResumeRun => handle_resume ctx snapshot item
  | KindExecuteStep _ => handle_execute executor ctx snapshot item
  end.

Inductive task : Type :=
| Requested (p : M RunSnapshot)
| Handling (p : M RunWorkOutcome).

Inductive task_step : Tables J -> task -> Tables J -> task -> Prop :=
| task_request t p t' p' : call_step t p t' p' -> task_step t (Requested p) t' (Requested p')
| task_handler t p t' p' : call_step t p t' p' -> task_step t (Handling p) t' (Handling p').

(** Requests of the coordinator and handlers of the worker start at any time, a handler with any
    item and any snapshot; one of them makes its next call, a provider's result is committed, a
    statement changes the work items, or time passes. *)
Inductive work_step : Tables J * list task -> Tables J * list task -> Prop :=
| work_request t pool ctx r : work_step (t, pool) (t, pool ++ [Requested (program ctx r)])
| work_handler t pool ctx snapshot item : work_step (t, pool) (t, pool ++ [Handling (handler ctx snapshot item)])
| work_call t (pool : list task) i p t' p' :
    pool !! i = Some p -> task_step t p t' p' -> work_step (t, pool) (t', <[i := p']> pool)
| work_result t pool output event_id corr ctx c t' :
    pg_commit_provider_result output event_id corr t ctx c = Ok t' -> work_step (t, pool) (t', pool)
| work_queue t pool ws op : work_step (t, pool) (with_work t (queue_op ws op (t_work t)).2, pool)
| work_time t pool now :
    work_step (t, pool)
      (mkTables (t_runs t) (t_steps t) (t_events t) (t_checkpoints t) (t_streams t) (t_work t) now, pool).

Definition worked (x : Tables J * list task) : Prop := rtc work_step (pg_empty, []) x.

(** The executor of a step creates no run and starts none. *)
Definition starts_no_run : Prop :=
  forall x ctx run step, executor = Some x ->
  writes (fun c => starts_work (re_payload (cm_event c)) = false) (x ctx run step) (fun _ => True).

Context (Hex : starts_no_run).

Definition task_schedules (k : task) : Prop :=
  match k with Requested p => scheduling p | Handling p => scheduling p end.

Lemma scheduling_handler ctx snapshot item : scheduling (handler ctx snapshot item).
Proof.
  unfold handler. destruct (it_kind item); [apply scheduling_advance|apply scheduling_handle_resume|].
  apply scheduling_execute. intros x Hx c id s. pose proof (Hex x c id s Hx) as Hw. revert Hw. clear.
  induction (x c id s); simpl; try naive_solver; intros [Hc Hk]; (split; [intros Hs; congruence|eauto]).
Qed.

(** What holds of the system: every program schedules, and identifiers of work items are distinct. *)
Definition work_ok (x : Tables J * list task) : Prop := Forall task_schedules x.2 /\ NoDup (wr_id <$> t_work x.1).

Lemma work_step_ok x y : work_step x y -> work_ok x -> work_ok y /\ work_effect x.1 y.1.
Proof.
  destruct 1 as [t pool ctx r|t pool ctx snap item|t pool i p t' p' Hi Hs|t pool output ev corr ctx c t' H|t pool ws op|t pool now];
    intros [Hp Hd]; simpl in Hp, Hd.
  - split; [split; [|done]|by apply same_effect]. apply Forall_app. split; [done|]. constructor; [|done].
    apply scheduling_program.
  - split; [split; [|done]|by apply same_effect]. apply Forall_app. split; [done|]. constructor; [|done].
    apply scheduling_handler.
  - pose proof (Forall_lookup_1 _ _ _ _ Hp Hi) as Hw. split; [split|].
    + apply Forall_insert; [done|]. destruct Hs; by eapply writes_call.
    + destruct Hs; by eapply call_distinct.
    + destruct Hs; by eapply call_effect.
  - destruct (result_effect _ _ _ _ _ _ _ H Hd). by split.
  - split; [split; [done|by apply queue_op_NoDup]|]. apply same_effect; [done|]. by apply queue_op_same.
  - split; [done|]. by apply same_effect.
Qed.

Lemma work_steps_ok x y : rtc work_step x y -> work_ok x -> work_ok y /\ keeps (t_work x.1) (t_work y.1).
Proof.
  induction 1 as [x|x y z Hs Hr IH]; intros Hx; [done|]. destruct (work_step_ok _ _ Hs Hx) as [Hy [Hk _]].
  destruct (IH Hy) as [Hz Hk']. split; [done|by etrans].
Qed.

Lemma work_init : work_ok (pg_empty, []).
Proof. split; [done|constructor]. Qed.

(** Requests alone are a part of the system. *)
Lemma reachable_worked t used pool : reachable t used pool -> worked (t, Requested <$> pool).
Proof.
  induction 1 as [|t used pool ctx r Hr IH Hd Hf|t used pool i p t' p' Hr IH Hi Hc]; [exact (rtc_refl _ _)| |].
  - rewrite fmap_app. eapply rtc_r; [exact IH|apply work_request].
  - rewrite list_fmap_insert. eapply rtc_r; [exact IH|]. eapply work_call; [rewrite list_lookup_fmap; exact (f_equal (fmap Requested) Hi)|].
    by constructor.
Qed.

(** The step that stored an event that starts work stored its item too, ready. *)
Lemma worked_origin x ws e :
  worked x -> (ws, e) ∈ t_events x.1 -> starts_work (re_payload e) = true ->
  exists x0 x1 row, worked x0 /\ work_step x0 x1 /\ rtc work_step x1 x /\ ~ ((ws, e) ∈ t_events x0.1) /\
    (ws, e) ∈ t_events x1.1 /\ row ∈ t_work x1.1 /\ advances ws e row /\ wr_status row = "ready"%string.
Proof.
  revert x. refine (rtc_ind_r _ _ _ _); [intros Hin; by apply not_elem_of_nil in Hin|].
  intros x y Hx Hs IH Hin Hst. destruct (work_step_ok _ _ Hs (proj1 (work_steps_ok _ _ Hx work_init))) as [_ [_ He]].
  destruct (He _ _ Hin) as [Hold|[Hnew Hrow]].
  - destruct (IH Hold Hst) as (x0 & x1 & row & H0 & H1 & Hr & ?). exists x0, x1, row. split_and!; try done; try naive_solver.
    by eapply rtc_r.
  - destruct (Hrow Hst) as (row & ? & ? & ?). exists x, y, row. by split_and!.
Qed.

End Work.
