(* ===== verification/RunCoordinatorSpec.v ===== *)
(** * What concurrent requests guarantee

    The theorems on the run coordinator and its store.  Those on histories are proved against the
    contract [RunStoreOk]; [PgRunStoreOk] discharges it for the PostgreSQL store, on which the
    theorems on commits and scheduling and all instances are stated. *)

From Stdlib Require Import ZArith Lia String Ascii.
From stdpp Require Import base option numbers strings pretty gmap list.
From S2P Require Import Prelude Codec Crypto Text RunStatus RunDecider AgentRun RunReplay RunPorts RunStore.
From S2P Require Import RunConcurrency RunConcurrencyProps RunCoordinator RunCoordinatorProps RunSystem.
From S2P Require Import WorkQueue WorkQueueProps PgRunStore PgRunStoreProps RunHandlers RunSchedule.

(** ** A concrete store and its requests *)

Module CoordinatorExample.
Import Toy.

(** JSON values as the values they were made from. *)
Inductive Json : Type :=
| JResult (r : RunTerminalResult)
| JActor (a : RunActorRef)
| JReferences (l : list RunReference)
| JFailure (f : RunFailure)
| JCheckpoint (p : RunCheckpointPayloadV1).

#[export] Instance serde_result : Serde Json RunTerminalResult :=
  {| to_value := JResult; from_value j := match j with JResult r => Some r | _ => None end |}.
#[export] Instance serde_actor : Serde Json RunActorRef :=
  {| to_value := JActor; from_value j := match j with JActor a => Some a | _ => None end |}.
#[export] Instance serde_references : Serde Json (list RunReference) :=
  {| to_value := JReferences; from_value j := match j with JReferences l => Some l | _ => None end |}.
#[export] Instance serde_failure : Serde Json RunFailure :=
  {| to_value := JFailure; from_value j := match j with JFailure f => Some f | _ => None end |}.
#[export] Instance serde_checkpoint : Serde Json RunCheckpointPayloadV1 :=
  {| to_value := JCheckpoint; from_value j := match j with JCheckpoint p => Some p | _ => None end |}.

#[export] Instance serde_result_ok : SerdeOk Json RunTerminalResult.
Proof. done. Qed.
#[export] Instance serde_actor_ok : SerdeOk Json RunActorRef.
Proof. done. Qed.
#[export] Instance serde_references_ok : SerdeOk Json (list RunReference).
Proof. done. Qed.
#[export] Instance serde_failure_ok : SerdeOk Json RunFailure.
Proof. done. Qed.
#[export] Instance serde_checkpoint_ok : SerdeOk Json RunCheckpointPayloadV1.
Proof. done. Qed.

(** Thirty-six characters, the first of which is the identifier. *)
#[export] Instance uuid_text_example : UuidText := fun u => u :: repeat 45%Z 35.
#[export] Instance uuid_text_example_ok : UuidTextOk.
Proof. split; [done|]. intros u v Huv. by injection Huv. Qed.

#[export] Instance error_text_example : ErrorText := fun _ => text_of "error".

Abbreviation store := (Tables Json).
Local Open Scope Z_scope.

Definition ctx : RequestContext := mkContext 1 2 10 3.
Definition run_key : Z * Z := (10, 100).

Definition create : Request :=
  ReqCreate (mkCreateRun None (text_of " summarise the report ") 4 RunExecutionMode.Supervised None (text_of "k")).
Definition move (v : Z) (to : RunStatus.t) : Request :=
  ReqTransition (mkTransitionRun None 100 v to None (ActorPrincipal 3) None (text_of "k")).
Definition add (v : Z) : Request :=
  ReqAddSteps (mkAddSteps None 100 v
    [mkStepDto 900 (Some (text_of "draft")) (ActorPrincipal 3) [] InputNone;
     mkStepDto 901 None ActorSystem [] InputNone] (ActorPrincipal 3) (text_of "k")).
Definition step_to (v : Z) (to : RunStepStatus.t) : Request :=
  ReqTransitionStep (mkTransitionStep 100 900 v to None (ActorPrincipal 3) (text_of "k")).
Definition approve (v : Z) : Request := ReqApprove (mkApproveRun None 100 v 3 (ActorPrincipal 3) (text_of "k")).
Definition cancel (v : Z) : Request :=
  ReqCancel (mkCancelRun None 100 v None (ActorPrincipal 3) (text_of "k")).

Definition alone (t : Z) (r : Request) : call := ([], t, ctx, r).

(** A run with two steps that waits for an approval. *)
Definition to_approval : list call :=
  [alone 10 create; alone 11 (move 1 RunStatus.Preparing); alone 12 (add 2); alone 13 (move 3 RunStatus.Running);
   alone 14 (step_to 4 RunStepStatus.Ready); alone 15 (move 5 RunStatus.WaitingForApproval)].

Definition after (l : list call) : list (result ApplicationError RunSnapshot) * store := exec_all 100 sp_empty l.

Lemma after_reached l :
  bool_decide (NoDup (call_ids l)) = true -> exists used, reached ((after l).2, used, Ret <$> (after l).1).
Proof.
  intros Hd%bool_decide_eq_true. apply (exec_all_reached 100 l (after l).1 (after l).2 Hd).
  unfold after. by destruct (exec_all 100 sp_empty l).
Qed.

End CoordinatorExample.

(** ** Histories *)

Section Claims.
Context {UT : UuidText} {St : Type} `{!RunStore St, !RunStoreOk St}.
Implicit Types (x y : St * gset Z * list (M RunSnapshot)).

(** C1.  However requests of the coordinator interleave, fail or lose their answers, as long as the identifiers of
    the steps they add are never used twice, every stored run is what its stored events replay to: the version is the
    number of events, and the projection agrees with the run and its steps in everything but this: the objective is
    stored trimmed, a step's creation time is replayed to the nanosecond and stored to the microsecond, and replay
    knows no step's failure and of its finishing time only whether there is one.  The worker's handlers are not among the requests:
    [worked_run_does_not_replay] shows what they write. *)
Theorem stored_run_replays x k r st :
  reached x -> stored x.1.1 k = Some (r, st) ->
  exists p, replay_run (events x.1.1 k) = Ok p /\ agrees p r st /\ ar_version r = Z.of_nat (length (events x.1.1 k)).
Proof.
  intros Hx Hs. apply reachable_sound in Hx as (H & owns & [_ _ Hc] & _). specialize (Hc k). rewrite Hs in Hc.
  destruct Hc as (p & Hp & Ha). exists p. split_and!; [done..|].
  by rewrite <-(ag_version _ _ _ Ha), (replay_run_version _ _ Hp).
Qed.

(** Histories only grow: whatever requests do from a reached system, a stored run stays stored with the fields
    it was created with, its events are extended, and its version counts the events added. *)
Theorem run_history_only_grows x y k r st :
  reached x -> rtc system_step x y -> stored x.1.1 k = Some (r, st) ->
  exists r' st' l, stored y.1.1 k = Some (r', st') /\ events y.1.1 k = events x.1.1 k ++ l /\
    ar_version r' = (ar_version r + Z.of_nat (length l))%Z /\ same_origin r r'.
Proof. intros Hx Hr. by apply system_grows. Qed.

End Claims.

(** ** Commits and scheduling *)

Section Tables.
Context {UT : UuidText} {ET : ErrorText} {J : Type} {SHA : Sha256}
  {SR : Serde J RunTerminalResult} {SA : Serde J RunActorRef} {SL : Serde J (list RunReference)}
  {SF : Serde J RunFailure} {SC : Serde J RunCheckpointPayloadV1}.
Implicit Types (t : Tables J).

(** C9.  No update is lost: once the store accepted a commit of one version of a run, from whatever state of the
    tables, it refuses every commit of that version or an earlier one of the run, in any workspace, whatever any caller
    creates, commits, commits as a provider's result or does to the work items through the store in between: a
    conflict, or a storage error for the first version, which has none before it. *)
Theorem one_commit_per_version t t' t2 ctx ctx' c c' :
  pg_commit t ctx c = Ok t' -> rtc store_step t' t2 ->
  ar_id (cm_run c') = ar_id (cm_run c) -> (ar_version (cm_run c') <= ar_version (cm_run c))%Z ->
  pg_commit t2 ctx' c' = Err (if (ar_version (cm_run c') <=? 1)%Z then AppStorage else AppConflict).
Proof.
  intros Hok Hr Hid Hv. pose proof (commit_version _ _ _ _ Hok) as (row & row' & _ & Hruns & Hnew & _).
  apply pg_commit_parts in Hok as (v & t1 & _ & (_ & _ & _ & _ & _ & _ & _ & _ & _ & _ & _ & Hge)%update_run_frame & _).
  pose proof (cast_i64_bound (ar_version (cm_run c))) as Hb. rewrite cast_i64_nonneg in Hb by lia.
  apply (commit_of_old_version _ _ _ (ar_version (cm_run c))); [|done|done]. rewrite Hid.
  apply (store_steps_version _ _ _ _ Hr). exists row'. rewrite Hruns, lookup_insert_eq. split; [done|lia].
Qed.

(** C38.  No crash separates a run from its work: however requests of the coordinator, handlers of the worker,
    commits of provider results and statements on the queue interleave, fail or lose their answers, as long as the executor of agent steps itself
    creates and starts no run, whenever an event that creates a run or starts it running is stored, the one step that
    stored it stored the item that advances the run at that version too, ready, and that item is still there: leasing,
    settling and cancelling leave its identity, run, kind, version, key and number of attempts allowed as they were. *)
Theorem started_run_is_scheduled executor (z : Tables J * list task) ws e :
  starts_no_run executor -> worked executor z -> (ws, e) ∈ t_events z.1 -> starts_work (re_payload e) = true ->
  exists x y row row', worked executor x /\ work_step executor x y /\ rtc (work_step executor) y z /\
    ~ ((ws, e) ∈ t_events x.1) /\ (ws, e) ∈ t_events y.1 /\
    row ∈ t_work y.1 /\ advances ws e row /\ wr_status row = "ready"%string /\
    row' ∈ t_work z.1 /\ same_item row row'.
Proof.
  intros Hex Hz Hin Hst. destruct (worked_origin _ Hex _ _ _ Hz Hin Hst) as (x & y & row & Hx & Hs & Hr & Ho & Hn & Hrow & Ha & Hready).
  destruct (work_step_ok _ Hex _ _ Hs (proj1 (work_steps_ok _ Hex _ _ Hx work_init))) as [Hy _].
  destruct (proj2 (work_steps_ok _ Hex _ _ Hr Hy) row Hrow) as (row' & ? & ?). exists x, y, row, row'. by split_and!.
Qed.

End Tables.

(** ** Idempotency keys *)

(** Idempotency keys are unambiguous: two work items share a key only if they are for the same run, the same
    version and the same action. *)
Theorem idempotency_key_injective {UT : UuidText} {UTO : UuidTextOk} (run run' : AgentRunId) (v v' : RunVersion)
    (action action' : text) :
  deterministic_idempotency_key run v action = deterministic_idempotency_key run' v' action' ->
  run = run' /\ v = v' /\ action = action'.
Proof.
  unfold deterministic_idempotency_key. intros H. apply app_inv_head in H.
  apply app_inj_1 in H as [Hr H]; [|by rewrite !uuid_text_length]. apply uuid_text_inj in Hr. apply app_inv_head in H.
  apply separated_inj in H as [Hv Ha]; [|by apply decimal_without; right..]. apply text_of_inj, (inj pretty) in Hv.
  by injection Ha.
Qed.

(** ** What a failure between two calls leaves *)

Section Instances.
Import Toy CoordinatorExample.
Local Open Scope Z_scope.

(** An approval can take effect and leave no record: the second commit of [approve_run] fails after the first
    one, the run is running, and its events name no approver. *)
Theorem approval_event_can_be_lost :
  exists x : store * gset Z * list (M RunSnapshot), reached x /\ (exists e, last x.2 = Some (Ret (Err e))) /\
    (ar_status ∘ fst) <$> stored x.1.1 run_key = Some RunStatus.Running /\
    Forall (fun e => match re_payload e with ApprovalGranted _ => False | _ => True end) (events x.1.1 run_key).
Proof.
  destruct (after_reached (to_approval ++ [([false; true], 20, ctx, approve 6)])) as [used Hx]; [by vm_compute|].
  eexists. split; [exact Hx|]. split; [eexists; by vm_compute|]. split; [by vm_compute|].
  vm_compute. repeat constructor.
Qed.

(** A cancellation that fails can strand a run: its work items are cancelled before the commit, so when the
    commit fails the run is still running and no work item of it is ready. *)
Theorem failed_cancellation_strands_run :
  exists x : store * gset Z * list (M RunSnapshot), reached x /\ (exists e, last x.2 = Some (Ret (Err e))) /\
    (ar_status ∘ fst) <$> stored x.1.1 run_key = Some RunStatus.Running /\
    Forall (fun row => wr_status row = "cancelled"%string) (t_work x.1.1).
Proof.
  destruct (after_reached (take 4 to_approval ++ [([true], 20, ctx, cancel 4)])) as [used Hx]; [by vm_compute|].
  eexists. split; [exact Hx|]. split; [eexists; by vm_compute|]. split; [by vm_compute|].
  vm_compute. repeat constructor.
Qed.

(** ** The theorems at the concrete store *)

Definition waiting : store := (after to_approval).2.

Definition approved : store := (exec [] 20 1000 waiting (program ctx (approve 6))).2.

Definition stored_at (s : store) : AgentRun * gmap Z RunStep :=
  match stored s run_key with Some x => x | None => (mkRun 0 0 [] 0 None RunExecutionMode.Manual RunStatus.Created
    None None None 0 None None 0 None 0 0 None, ∅) end.

Lemma stored_run_replays_at_waiting :
  exists p, replay_run (events waiting run_key) = Ok p /\ agrees p (stored_at waiting).1 (stored_at waiting).2 /\
    ar_version (stored_at waiting).1 = Z.of_nat (length (events waiting run_key)).
Proof.
  destruct (after_reached to_approval) as [used Hx]; [by vm_compute|].
  apply (stored_run_replays (waiting, used, Ret <$> (after to_approval).1) run_key); [exact Hx|by vm_compute].
Defined.

Lemma run_history_only_grows_at_approval :
  exists r' st' l, stored approved run_key = Some (r', st') /\ events approved run_key = events waiting run_key ++ l /\
    ar_version r' = (ar_version (stored_at waiting).1 + Z.of_nat (length l))%Z /\
    same_origin (stored_at waiting).1 r'.
Proof.
  destruct (after_reached to_approval) as [used Hx]; [by vm_compute|].
  set (x := (waiting, used, Ret <$> (after to_approval).1)).
  destruct (exec [] 20 1000 waiting (program ctx (approve 6))) as [[a n] s] eqn:E.
  assert (approved = s) as Hs by (unfold approved; by rewrite E).
  apply (run_history_only_grows x (approved, used ∪ ∅, x.2 ++ [Ret a]) run_key _ (stored_at waiting).2); [exact Hx| |by vm_compute].
  rewrite Hs. by eapply (exec_system [] 20 1000 waiting used x.2 ctx (approve 6)); [constructor| |].
Defined.

(** Two requests that loaded version 6 and are about to commit. *)
Definition resuming : M RunSnapshot := to_write 20 1000 waiting (program ctx (move 6 RunStatus.Running)).
Definition pausing : M RunSnapshot := to_write 21 2000 waiting (program ctx (move 6 RunStatus.Paused)).

Definition commit_of (p : M RunSnapshot) : CommitRun :=
  match p with
  | Commit _ c _ => c
  | _ => mkCommit (stored_at waiting).1 (mkEvent 0 0 0 0 0 ActorSystem (ApprovalGranted 0) 0 None 0) [] None []
  end.

Definition resumed : store := match pg_commit waiting ctx (commit_of resuming) with Ok s => s | Err _ => waiting end.

Lemma resumed_accepted : pg_commit waiting ctx (commit_of resuming) = Ok resumed.
Proof. by vm_compute. Qed.

Lemma same_version :
  ar_id (cm_run (commit_of pausing)) = ar_id (cm_run (commit_of resuming)) /\
  ar_version (cm_run (commit_of pausing)) <= ar_version (cm_run (commit_of resuming)).
Proof. by vm_compute. Qed.

(** The work of the run is cancelled and a later commit is accepted before the second request commits. *)
Definition withdrawn : store := (pg_cancel resumed ctx 100 21).2.
Definition parking : M RunSnapshot := to_write 22 3000 withdrawn (program ctx (move 7 RunStatus.Paused)).
Definition parked : store := match pg_commit withdrawn ctx (commit_of parking) with Ok s => s | Err _ => withdrawn end.

Lemma parked_accepted : pg_commit withdrawn ctx (commit_of parking) = Ok parked.
Proof. by vm_compute. Qed.

Lemma resumed_parked : rtc store_step resumed parked.
Proof.
  eapply rtc_l; [exact (stmt_work resumed (t_work withdrawn))|].
  apply rtc_once, (stmt_commit withdrawn ctx (commit_of parking)), parked_accepted.
Qed.

Lemma one_commit_per_version_at_pause : pg_commit parked ctx (commit_of pausing) = Err AppConflict.
Proof.
  exact (one_commit_per_version waiting resumed parked ctx ctx (commit_of resuming) (commit_of pausing)
    resumed_accepted resumed_parked (proj1 same_version) (proj2 same_version)).
Defined.

(** The event that started the run. *)
Definition started : RunEvent :=
  match t_events waiting !! 3%nat with Some (_, e) => e | None => cm_event (commit_of resuming) end.

Lemma started_starts : starts_work (re_payload started) = true.
Proof. by vm_compute. Qed.

(** An executor that publishes every step, and a worker that leased the first item. *)
Definition publishing : option (RequestContext -> AgentRunId -> RunStepId -> M StepModelOutcome) :=
  Some (fun _ _ _ => Ret (Ok Published)).

Lemma publishing_starts_no_run : starts_no_run publishing.
Proof. intros x c run step [= <-]. done. Qed.

Definition taken : store :=
  with_work waiting (queue_op 10 (OpLease (fun _ => false) 6 30 40) (t_work waiting)).2.

Lemma taken_worked : exists pool, worked publishing (taken, pool).
Proof.
  destruct (after_reached to_approval) as [used Hx]; [by vm_compute|]. unfold reached in Hx. cbn [fst snd] in Hx.
  fold waiting in Hx. apply (reachable_worked publishing) in Hx. eexists. eapply rtc_r; [exact Hx|]. apply work_queue.
Qed.

Lemma started_taken (pool : list task) : (10, started) ∈ t_events (taken, pool).1.
Proof. apply (list_elem_of_lookup_2 _ 3). by vm_compute. Qed.

Lemma started_run_is_scheduled_at_waiting :
  exists z x y row row', z.1 = taken /\ worked publishing x /\ work_step publishing x y /\
    rtc (work_step publishing) y z /\ ~ ((10, started) ∈ t_events x.1) /\ (10, started) ∈ t_events y.1 /\
    row ∈ t_work y.1 /\ advances 10 started row /\ wr_status row = "ready"%string /\
    row' ∈ t_work z.1 /\ same_item row row'.
Proof.
  destruct taken_worked as [pool Hz]. exists (taken, pool).
  destruct (started_run_is_scheduled publishing (taken, pool) 10 started publishing_starts_no_run Hz
    (started_taken pool) started_starts) as (x & y & row & row' & H).
  exists x, y, row, row'. split; [reflexivity|exact H].
Defined.

Lemma idempotency_key_injective_at_seven :
  7 = 7 /\ 12 = 12 /\ text_of "advance" = text_of "advance".
Proof. apply (idempotency_key_injective 7 7 12 12 (text_of "advance") (text_of "advance")). reflexivity. Defined.

End Instances.
