(* ===== verification/RunWorker.v ===== *)
(** * The run worker

    [crates/vestrace-application/src/run/worker.rs] on the PostgreSQL tables: one iteration leases
    an item, asks for authorization and processes the item.  The policy engine behind the
    authorization boundary and the registered handlers are trait objects, hence parameters. *)

From Stdlib Require Import ZArith Lia String.
From stdpp Require Import base option numbers strings gmap list.
From S2P Require Import Prelude Codec Crypto Text RunStatus RunDecider AgentRun RunReplay RunPorts RunStore.
From S2P Require Import RunConcurrency RunCoordinator WorkQueue PgRunStore RunHandlers.

Inductive WorkItemKindDiscriminant : Type := DiscAdvanceRun | DiscResumeRun | DiscExecuteStep.

Definition discriminant (k : WorkItemKind) : WorkItemKindDiscriminant :=
  match k with
  | KindAdvanceRun => DiscAdvanceRun
  | KindResumeRun => DiscResumeRun
  | KindExecuteStep _ => DiscExecuteStep
  end.

Record RunWorkerConfig : Type := mkConfig { wc_worker_id : WorkerId; wc_lease_ttl : Z; wc_max_concurrency : Z }.

Definition config_validate (c : RunWorkerConfig) : result ApplicationError unit :=
  if negb (wc_max_concurrency c =? 1)%Z then Err AppInvalidConfiguration else Ok tt.

Definition retry_delay (attempt : Z) : Z :=
  if (attempt <=? 1)%Z then seconds 1
  else if (attempt =? 2)%Z then seconds 5
  else if (attempt =? 3)%Z then seconds 30
  else seconds 60.

Definition is_retryable (e : ApplicationError) : bool :=
  match e with AppStorage => true | _ => false end.

(** [chrono::Duration::from_std]: a duration is at most [i64::MAX] milliseconds. *)
Definition duration_from_std (nanoseconds : Z) : result ApplicationError Z :=
  if (nanoseconds <=? isize_max * 10 ^ 6)%Z then Ok nanoseconds else Err AppInternal.

Section Worker.
Context {ET : ErrorText} {J : Type} {SHA : Sha256}
  {SR : Serde J RunTerminalResult} {SA : Serde J RunActorRef} {SL : Serde J (list RunReference)}
  {SF : Serde J RunFailure} {SC : Serde J RunCheckpointPayloadV1}.

(** The tables of the runs and of their leases; [db_ids] is the next identifier that is minted. *)
Record Db : Type := mkDb { db_tables : Tables J; db_leases : gmap Z LeaseRow; db_ids : Z }.

Definition with_rows (d : Db) (rows : list WorkItemRow) : Db :=
  mkDb (with_work (db_tables d) rows) (db_leases d) (db_ids d).

(** A statement on the queue: its answer and the database after it. *)
Definition on_queue {A} (d : Db) (x : result ApplicationError A * list WorkItemRow) : result ApplicationError A * Db :=
  (x.1, with_rows d x.2).

Definition rows (d : Db) : list WorkItemRow := t_work (db_tables d).

(** What the policy engine decides on a request of the worker: [None] allows, [Some] is the reason
    it does not, and an error comes with its message. *)
Context (authorize : RequestContext -> WorkItem -> result (ApplicationError * text) (option text)).
Context (registry : WorkItemKindDiscriminant ->
  option (RequestContext -> RunSnapshot -> WorkItem -> RunLease -> M RunWorkOutcome)).
Context (config : RunWorkerConfig).

(** [AuthorizationBoundary::require]: a decision that does not allow is a policy error. *)
Definition require (ctx : RequestContext) (item : WorkItem) : result (ApplicationError * text) unit :=
  denied ← authorize ctx item;
  match denied with
  | None => Ok tt
  | Some reason => Err (AppPolicy, text_of "authorization denied: " ++ reason)
  end.

Definition failure (code message : string) (retryable : bool) : RunFailure :=
  mkFailure (text_of code) (text_of message) retryable.

(** The last [match] of [process_item]: what the handler's answer does to the item. *)
Definition settle (ctx : RequestContext) (item : WorkItem) (now : Timestamp)
    (outcome : result ApplicationError RunWorkOutcome) (d : Db) : result ApplicationError unit * Db :=
  let ws := rc_workspace_id ctx in
  match outcome with
  | Ok Completed | Ok NoopStaleVersion => on_queue d (complete ws item (rows d))
  | Ok (Retry available_at error) => on_queue d (retry ws item available_at error (rows d))
  | Ok (DeadLetter error) => on_queue d (dead_letter ws item error (rows d))
  | Err AppConflict =>
      on_queue d (retry ws item (now + retry_delay (it_attempt item))%Z
        (failure "stale_lease" "lease was lost during handler execution" true) (rows d))
  | Err e =>
      let f := mkFailure (text_of "handler_error") (error_text e) (is_retryable e) in
      if is_retryable e
      then on_queue d (retry ws item (now + retry_delay (it_attempt item))%Z f (rows d))
      else on_queue d (dead_letter ws item f (rows d))
  end.

(** [handler_now] is the clock while the handler runs. *)
Definition process_item (now handler_now : Timestamp) (ctx : RequestContext) (item : WorkItem) (d : Db)
    : result ApplicationError unit * Db :=
  let ws := rc_workspace_id ctx in
  match pg_load (db_tables d) ws (it_run_id item) with
  | Err e => (Err e, d)
  | Ok None =>
      on_queue d (dead_letter ws item (failure "run_not_found" "run does not exist" false) (rows d))
  | Ok (Some snapshot) =>
      if negb (ar_version (sn_run snapshot) =? it_expected_run_version item)%Z then
        let '(r, d') := on_queue d (complete ws item (rows d)) in
        (match r with Err AppConflict => Ok tt | _ => r end, d')
      else if RunStatus.is_terminal (ar_status (sn_run snapshot)) || (ar_status (sn_run snapshot) == RunStatus.Paused)
      then (Ok tt, with_rows d (cancel_rows ws (it_run_id item) now (rows d)).2)
      else
      match duration_from_std (wc_lease_ttl config) with
      | Err e => (Err e, d)
      | Ok ttl =>
          let '(r, leases) := acquire ws (mkAcquire (it_run_id item) (wc_worker_id config) now (now + ttl)%Z) (db_leases d) in
          match r with
          | Err AppConflict =>
              on_queue d (retry ws item (now + retry_delay (it_attempt item))%Z
                (failure "lease_busy" "run lease held by another worker" true) (rows d))
          | Err e => (Err e, d)
          | Ok lease =>
              let d1 := mkDb (db_tables d) leases (db_ids d) in
              let released d' := mkDb (db_tables d') (release ws lease (db_leases d')).2 (db_ids d') in
              let '(r, d2) :=
                match registry (discriminant (it_kind item)) with
                | None =>
                    on_queue d1 (dead_letter ws item
                      (failure "no_handler" "no handler registered for this work item kind" false) (rows d1))
                | Some handler =>
                    let '(outcome, n, t) := exec [] handler_now (db_ids d1) (db_tables d1) (handler ctx snapshot item lease) in
                    settle ctx item now outcome (mkDb t leases n)
                end in
              match r with
              | Err e => (Err e, d2)
              | Ok _ => (Ok tt, released d2)
              end
          end
      end
  end.

(** One iteration; [true] when an item was leased.  [locked] are rows other transactions hold. *)
Definition run_once (locked : WorkItemId -> bool) (now now' handler_now : Timestamp) (ctx : RequestContext) (d : Db)
    : result ApplicationError bool * Db :=
  match duration_from_std (wc_lease_ttl config) with
  | Err e => (Err e, d)
  | Ok ttl =>
      let '(r, d1) := on_queue d (lease_next locked (rc_workspace_id ctx) (wc_worker_id config) now (now + ttl)%Z (rows d)) in
      match r with
      | Err e => (Err e, d1)
      | Ok None => (Ok false, d1)
      | Ok (Some item) =>
          match require ctx item with
          | Ok _ =>
              let '(r, d2) := process_item now' handler_now ctx item d1 in
              (match r with Ok _ => Ok true | Err e => Err e end, d2)
          | Err (AppPolicy, message) =>
              let '(r, d2) := on_queue d1 (dead_letter (rc_workspace_id ctx) item
                (mkFailure (text_of "authorization_denied") message false) (rows d1)) in
              (match r with Ok _ => Ok true | Err e => Err e end, d2)
          | Err (e, _) => (Err e, d1)
          end
      end
  end.

End Worker.
Arguments Db J : clear implicits.
