(* ===== verification/RunWorkerSpec.v ===== *)
(** * What the worker guarantees

    Every iteration settles the item it took, with one exception; a run whose steps ended ends
    with the result of its steps; and what the handlers write that replay does not accept. *)

From Stdlib Require Import ZArith Lia String.
From stdpp Require Import base option numbers strings gmap list.
From S2P Require Import Prelude Codec Crypto Text RunStatus RunDecider AgentRun RunReplay RunPorts RunStore.
From S2P Require Import RunConcurrency RunConcurrencyProps RunCoordinator RunCoordinatorProps RunSystem.
From S2P Require Import WorkQueue WorkQueueProps PgRunStore PgRunStoreProps RunSchedule RunHandlers RunWorker.
From S2P Require Import RunCoordinatorSpec.

(** ** Settled items *)

(** The item is leased to some worker. *)
Definition item_leased (ws : WorkspaceId) (id : WorkItemId) (l : list WorkItemRow) : Prop :=
  exists r, r ∈ l /\ wr_id r = id /\ wr_workspace_id r = ws /\ wr_status r = "leased"%string.

Lemma held_iff ws i r :
  held ws i r = true <-> wr_id r = it_id i /\ wr_workspace_id r = ws /\ wr_status r = "leased"%string.
Proof. unfold held. rewrite !andb_true_iff, !eqb_true, String.eqb_eq. tauto. Qed.

Lemma update_held_settles ws i f l :
  (forall r, wr_status (f r) <> "leased"%string) -> ~ item_leased ws (it_id i) (update_where (held ws i) f l).2.
Proof.
  intros Hf (r & Hr & Hid & Hws & Hs). apply list_elem_of_fmap in Hr as (r0 & -> & _).
  destruct (held ws i r0) eqn:E; [by apply (Hf r0)|]. rewrite (proj2 (held_iff ws i r0)) in E; done.
Qed.

Lemma complete_settles ws i l : ~ item_leased ws (it_id i) (complete ws i l).2.
Proof. unfold complete. rewrite affected_rows. by apply update_held_settles. Qed.

Lemma retry_settles ws i at_ e l : ~ item_leased ws (it_id i) (retry ws i at_ e l).2.
Proof. unfold retry. rewrite affected_rows. apply update_held_settles. intros r. simpl. by destruct (_ <=? _)%Z. Qed.

Lemma dead_letter_settles ws i e l :
  NoDup (wr_id <$> l) -> (dead_letter ws i e l).1 = Ok tt -> ~ item_leased ws (it_id i) (dead_letter ws i e l).2.
Proof.
  intros Hd. unfold dead_letter. rewrite affected_rows. set (p := fun r : WorkItemRow => _). set (f := fun r : WorkItemRow => _).
  intros Hok (r & Hr & Hid & Hws & Hs). apply list_elem_of_fmap in Hr as (r0 & -> & Hr0).
  destruct (p r0) eqn:E; [done|]. unfold affected, update_where in Hok. simpl in Hok.
  destruct (filter (fun r => Is_true (p r)) l) as [|x l'] eqn:Ef; [done|].
  assert (x ∈ filter (fun r => Is_true (p r)) l) as Hx by (rewrite Ef; set_solver).
  apply list_elem_of_filter in Hx as [Hp Hx]. apply Is_true_true in Hp.
  assert (x = r0) as ->; [|congruence]. apply (NoDup_id_eq l); [done..|]. unfold p in Hp.
  apply andb_prop in Hp as [[Hp _]%andb_prop _]. rewrite eqb_true in Hp. congruence.
Qed.

(** ** Identifiers of work items stay distinct *)

Section Rows.
Context {J : Type} {SHA : Sha256}
  {SR : Serde J RunTerminalResult} {SA : Serde J RunActorRef} {SL : Serde J (list RunReference)}
  {SF : Serde J RunFailure} {SC : Serde J RunCheckpointPayloadV1}.
Implicit Types (t : Tables J).

Abbreviation distinct t := (NoDup (wr_id <$> t_work t)).

Lemma exec_distinct {A} faults tm n t (p : prog A) a n' t' :
  exec faults tm n t p = (a, n', t') -> distinct t -> distinct t'.
Proof.
  intros He%exec_steps. remember (t, p) as x eqn:Hx. remember (t', Ret a) as y eqn:Hy. revert t p Hx.
  induction He as [x|x [t1 p1] z Hs Hr IH]; intros t p ->; [by injection Hy as -> _|].
  intros Hd. apply (IH Hy t1 p1 eq_refl). by eapply call_distinct.
Qed.

End Rows.

(** ** Claims *)

Section Worker.
Context {ET : ErrorText} {J : Type} {SHA : Sha256}
  {SR : Serde J RunTerminalResult} {SA : Serde J RunActorRef} {SL : Serde J (list RunReference)}
  {SF : Serde J RunFailure} {SC : Serde J RunCheckpointPayloadV1}.
Context (registry : WorkItemKindDiscriminant ->
  option (RequestContext -> RunSnapshot -> WorkItem -> RunLease -> M RunWorkOutcome)).
Context (config : RunWorkerConfig).
Implicit Types (d : Db J).

Lemma settle_settles ctx item now outcome d d' :
  NoDup (wr_id <$> rows d) -> settle ctx item now outcome d = (Ok tt, d') ->
  ~ item_leased (rc_workspace_id ctx) (it_id item) (rows d').
Proof.
  intros Hd H. unfold settle, on_queue in H. cbv zeta in H.
  destruct outcome as [[| | |]|[]]; simpl in H; injection H as Hok <-; unfold rows; simpl;
    first [apply complete_settles | apply retry_settles | by apply dead_letter_settles].
Qed.

(** C30.  An iteration that succeeds has settled its item, whatever the handler did or answered: the item is completed,
    ready to be retried or dead-lettered, and no longer leased; unless its run is paused or has ended. *)
Theorem processed_item_is_settled now handler_now ctx item d d' :
  NoDup (wr_id <$> rows d) -> process_item registry config now handler_now ctx item d = (Ok tt, d') ->
  ~ item_leased (rc_workspace_id ctx) (it_id item) (rows d') \/
  exists snapshot, pg_load (db_tables d) (rc_workspace_id ctx) (it_run_id item) = Ok (Some snapshot) /\
    (RunStatus.is_terminal (ar_status (sn_run snapshot)) = true \/ ar_status (sn_run snapshot) = RunStatus.Paused).
Proof.
  intros Hd H. unfold process_item in H. cbv zeta in H. destruct (pg_load _ _ _) as [[snapshot|]|]; [| |done].
  - destruct (negb _).
    { left. simpl in H. injection H as _ <-. apply complete_settles. }
    destruct (_ || _) eqn:Hend.
    { right. exists snapshot. split; [done|]. apply orb_true_iff in Hend as [?|Hp]; [by left|right].
      by rewrite eqb_true in Hp. }
    left. destruct (duration_from_std _) as [ttl|]; [|done]. destruct (acquire _ _ _) as [[lease|[]] leases]; try done.
    + destruct (registry _) as [handler|].
      * destruct (exec _ _ _ _ _) as [[outcome n] t] eqn:He.
        destruct (settle ctx item now outcome _) as [[[]|] d2] eqn:Es; [|done]. injection H as <-.
        refine (settle_settles _ _ _ _ _ _ _ Es). apply (exec_distinct _ _ _ _ _ _ _ _ He Hd).
      * unfold on_queue in H. destruct (dead_letter _ _ _ _) as [[[]|] l] eqn:Ed; [|done]. simpl in H. injection H as <-.
        unfold rows in *. simpl in *. pose proof (dead_letter_settles (rc_workspace_id ctx) item
          (failure "no_handler" "no handler registered for this work item kind" false) (t_work (db_tables d)) Hd) as Hs.
        rewrite Ed in Hs. by apply Hs.
    + unfold on_queue in H. injection H as _ <-. apply retry_settles.
  - left. unfold on_queue in H. injection H as Hok <-. by apply dead_letter_settles.
Qed.

(** The exception: when the run is paused or has ended, the iteration succeeds and leaves the item leased, to be
    handed out again when the lease ends. *)
Theorem paused_item_stays_leased now handler_now ctx item d snapshot r u :
  pg_load (db_tables d) (rc_workspace_id ctx) (it_run_id item) = Ok (Some snapshot) ->
  ar_version (sn_run snapshot) = it_expected_run_version item ->
  RunStatus.is_terminal (ar_status (sn_run snapshot)) = true \/ ar_status (sn_run snapshot) = RunStatus.Paused ->
  r ∈ rows d -> leased_until r u -> (now <= u)%Z ->
  exists d', process_item registry config now handler_now ctx item d = (Ok tt, d') /\ r ∈ rows d'.
Proof.
  intros Hl Hv Hend Hin [Hs Hu] Hle. unfold process_item. cbv zeta. rewrite Hl, Hv, Z.eqb_refl. simpl.
  assert ((RunStatus.is_terminal (ar_status (sn_run snapshot)) || (ar_status (sn_run snapshot) == RunStatus.Paused)) = true) as ->.
  { destruct Hend as [->| ->]; [done|]. by rewrite eqb_refl, orb_true_r. }
  eexists. split; [done|]. apply update_where_in; [done|]. rewrite Hs, Hu. simpl.
  rewrite (proj2 (Z.ltb_ge u now)) by lia. by rewrite !andb_false_r.
Qed.

End Worker.

(** ** The end of a run *)

Section Advance.
Context {UT : UuidText} {St : Type} `{!RunStore St, !RunStoreOk St}.

Lemma final_result_terminal steps : RunStatus.is_terminal (final_result steps).1 = true.
Proof. unfold final_result. cbv zeta. by repeat case_match. Qed.

(** When every step of a running run has ended, advancing the run ends it: the stored run has the status and the
    result of its steps (succeeded if all did, failed if one failed, partial otherwise) and a finishing time. *)
Theorem finished_steps_end_run tm n (s s' : St) ctx snapshot item st n' o (k := key_of ctx (ar_id (sn_run snapshot))) :
  sp_wf s -> stored s k = Some (sn_run snapshot, st) -> ar_status (sn_run snapshot) = RunStatus.Running ->
  all_steps_terminal (sn_steps snapshot) = true ->
  exec [] tm n s (handle_advance ctx snapshot item) = (Ok o, n', s') ->
  o = Completed /\ exists r', stored s' k = Some (r', st) /\
    (ar_status r', ar_result r') = ((final_result (sn_steps snapshot)).1, Some (final_result (sn_steps snapshot)).2) /\
    ar_finished_at r' = Some (to_timestamptz tm) /\ ar_version r' = (ar_version (sn_run snapshot) + 1)%Z.
Proof.
  intros Hwf Hs Hr Hall He. unfold handle_advance in He. cbn in He.
  destruct (version_next _) as [nv|] eqn:Hnv; [|done]. cbn in He. rewrite Hr in He. unfold advance_running_run in He.
  rewrite Hall in He. unfold finalize_run in He. pose proof (final_result_terminal (sn_steps snapshot)) as Hterm.
  destruct (final_result (sn_steps snapshot)) as [target res]. simpl in Hterm.
  destruct (run_transition _ _ _ _ _) as [[change|] run] eqn:Ht; [|done]. cbn in He.
  apply run_transition_Ok in Ht as (Hev & _ & nv' & Hnv' & ->). rewrite Hterm in He.
  destruct (event_with_id _ _ _ _ _ _ _ _ _ _) as [e|] eqn:Ee; [|done]. cbn in He.
  assert (nv' = nv) as -> by congruence. apply event_with_id_Ok in Ee as [-> _]. simpl in He.
  match type of He with context [sp_commit s ctx ?c] => set (cm := c) in He end.
  destruct (sp_commit s ctx cm) as [s1|] eqn:Hc; [|done]. destruct (snapshot_of _ _); [|done]. injection He as <- <- <-.
  assert (Hown : owns_steps s (key_of ctx (ar_id (cm_run cm))) cm) by (intros x Hx; simpl in Hx; set_solver).
  assert (Hwf1 := sp_commit_wf _ _ _ _ Hwf Hc Hown).
  destruct (sp_commit_ok s ctx cm s1 Hwf Hc) as (r & st0 & Hs0 & Hs1 & _); try done.
  split; [done|]. destruct (sp_cancel_ok s1 ctx (ar_id (sn_run snapshot)) tm k Hwf1) as [-> _]. fold k in Hs0, Hs1.
  change (key_of ctx (ar_id (cm_run cm))) with k in *. rewrite Hs in Hs0. injection Hs0 as <- <-.
  eexists. split; [exact Hs1|]. simpl. split_and!; try done. rewrite Hev in Hnv. apply version_next_Ok in Hnv. lia.
Qed.

End Advance.

(** ** A concrete worker *)

Module WorkerExample.
Import Toy CoordinatorExample.
Local Open Scope Z_scope.

Definition registered (executor : option (RequestContext -> AgentRunId -> RunStepId -> M StepModelOutcome))
    (k : WorkItemKindDiscriminant) : option (RequestContext -> RunSnapshot -> WorkItem -> RunLease -> M RunWorkOutcome) :=
  match k with
  | DiscAdvanceRun => Some (fun ctx snapshot item _ => handle_advance ctx snapshot item)
  | DiscResumeRun => Some (fun ctx snapshot item _ => handle_resume ctx snapshot item)
  | DiscExecuteStep => Some (fun ctx snapshot item _ => handle_execute executor ctx snapshot item)
  end.

Definition config : RunWorkerConfig := mkConfig 7 (seconds 30) 1.
Definition allow : RequestContext -> WorkItem -> result (ApplicationError * text) (option text) := fun _ _ => Ok None.

(** The worker's iterations at the given times. *)
Fixpoint iterate (times : list Z) (d : Db Json) : list (result ApplicationError bool) * Db Json :=
  match times with
  | [] => ([], d)
  | t :: rest =>
      let '(r, d1) := run_once allow (registered None) config (fun _ => false) t t t ctx d in
      let '(l, d2) := iterate rest d1 in (r :: l, d2)
  end.

(** A run with one step that a principal is responsible for, prepared but not started. *)
Definition one_step : Request :=
  ReqAddSteps (mkAddSteps None 100 1
    [mkStepDto 900 (Some (text_of "draft")) (ActorPrincipal 3) [] InputNone] (ActorPrincipal 3) (text_of "k")).

Definition initial : Db Json :=
  mkDb (after [alone 10 create; alone 11 one_step]).2 ∅ 5000.

(** A leased item of [initial]. *)
Definition leased : Db Json :=
  with_rows initial (lease_next (fun _ => false) 10 7 20 (20 + seconds 30) (rows initial)).2.
Definition item_of (d : Db Json) (n : nat) : WorkItem :=
  match (r ← ok_or (rows d !! n) AppStorage; item_of_row r) with
  | Ok i => i
  | Err _ => mkItem 0 0 KindAdvanceRun 0 0 [] 0
  end.

(** Steps that are added to a paused run. *)
Definition paused : Db Json :=
  let t := (after [alone 10 create; alone 11 (move 1 RunStatus.Preparing); alone 12 (move 2 RunStatus.Running);
                   alone 13 (move 3 RunStatus.Paused); alone 14 (add 4)]).2 in
  mkDb (with_work t (lease_next (fun _ => false) 10 7 20 50 (List.filter (fun r => wr_expected_run_version r =? 5) (t_work t))).2)
    ∅ 5000.
Definition snapshot_at (d : Db Json) : RunSnapshot :=
  match pg_load (db_tables d) 10 100 with
  | Ok (Some s) => s
  | _ => mkSnapshot (mkRun 0 0 [] 0 None RunExecutionMode.Manual RunStatus.Created
      None None None 0 None None 0 None 0 0 None) [] None
  end.

(** A running run whose two steps were cancelled. *)
Definition cancel_step (v id : Z) : Request :=
  ReqTransitionStep (mkTransitionStep 100 id v RunStepStatus.Cancelled None (ActorPrincipal 3) (text_of "k")).
Definition cancelled_steps : list call :=
  [alone 10 create; alone 11 (move 1 RunStatus.Preparing); alone 12 (add 2); alone 13 (move 3 RunStatus.Running);
   alone 14 (cancel_step 4 900); alone 15 (cancel_step 5 901)].
Definition ended : Db Json := mkDb (after cancelled_steps).2 ∅ 5000.

End WorkerExample.

Section Instances.
Import Toy CoordinatorExample WorkerExample.
Local Open Scope Z_scope.

(** What the worker writes does not replay: the handler moves a pending step to running, which the step's
    transition table refuses, so the events of a run it worked on are rejected although the run is stored. *)
Theorem worked_run_does_not_replay :
  let d := (iterate [20; 21] initial).2 in
  (exists r st, stored (db_tables d) run_key = Some (r, st)) /\ is_ok (replay_run (events (db_tables initial) run_key)) = true /\
  is_ok (replay_run (events (db_tables d) run_key)) = false.
Proof. split; [by vm_compute; eauto|by vm_compute]. Qed.

(** A step added before its run started strands the run: its work item is executed at once, starting the run then
    tries to end it, which is no transition from preparing, and the item is dead-lettered; the queue is drained and
    the run stays in preparation. *)
Theorem early_step_strands_run :
  let d := (iterate [20; 21; 22; 23; 24; 25] initial).2 in
  (ar_status ∘ fst) <$> stored (db_tables d) run_key = Some RunStatus.Preparing /\
  Forall (fun r => wr_status r = "completed"%string \/ wr_status r = "dead_letter"%string) (rows d).
Proof. split; [by vm_compute|]. apply (bool_decide_unpack _). by vm_compute. Qed.

Lemma leased_distinct : NoDup (wr_id <$> rows leased).
Proof. apply (bool_decide_unpack _). by vm_compute. Qed.

Lemma leased_processed :
  process_item (registered None) config 20 20 ctx (item_of leased 0) leased =
  (Ok tt, (process_item (registered None) config 20 20 ctx (item_of leased 0) leased).2).
Proof. by vm_compute. Qed.

Lemma processed_item_is_settled_at_initial :
  ~ item_leased 10 (it_id (item_of leased 0)) (rows (process_item (registered None) config 20 20 ctx (item_of leased 0) leased).2) \/
  exists snapshot, pg_load (db_tables leased) 10 (it_run_id (item_of leased 0)) = Ok (Some snapshot) /\
    (RunStatus.is_terminal (ar_status (sn_run snapshot)) = true \/ ar_status (sn_run snapshot) = RunStatus.Paused).
Proof.
  exact (processed_item_is_settled (registered None) config 20 20 ctx (item_of leased 0) leased _
    leased_distinct leased_processed).
Defined.

Lemma paused_facts :
  pg_load (db_tables paused) 10 (it_run_id (item_of paused 0)) = Ok (Some (snapshot_at paused)) /\
  ar_version (sn_run (snapshot_at paused)) = it_expected_run_version (item_of paused 0) /\
  ar_status (sn_run (snapshot_at paused)) = RunStatus.Paused /\
  exists r, r ∈ rows paused /\ leased_until r 50.
Proof.
  split_and!; [by vm_compute..|]. destruct (rows paused !! 0%nat) as [r|] eqn:E; [|by vm_compute in E].
  exists r. split; [by eapply list_elem_of_lookup_2|]. vm_compute in E. by injection E as <-.
Qed.

Lemma paused_item_stays_leased_at_paused :
  exists r d', process_item (registered None) config 20 20 ctx (item_of paused 0) paused = (Ok tt, d') /\ r ∈ rows d'.
Proof.
  destruct paused_facts as (Hl & Hv & Hs & r & Hin & Hu). exists r.
  exact (paused_item_stays_leased (registered None) config 20 20 ctx (item_of paused 0) paused (snapshot_at paused) r 50
    Hl Hv (or_intror Hs) Hin Hu ltac:(lia)).
Defined.

Definition ended_item : WorkItem := mkItem 1 100 KindAdvanceRun 6 15 [] 1.

Lemma ended_facts :
  ar_status (sn_run (snapshot_at ended)) = RunStatus.Running /\ all_steps_terminal (sn_steps (snapshot_at ended)) = true /\
  stored (db_tables ended) (key_of ctx (ar_id (sn_run (snapshot_at ended)))) =
    Some (sn_run (snapshot_at ended), stored_steps (db_tables ended) run_key) /\
  (exec [] 30 5000 (db_tables ended) (handle_advance ctx (snapshot_at ended) ended_item)).1.1 = Ok Completed.
Proof. split_and!; by vm_compute. Qed.

Lemma finished_steps_end_run_at_ended :
  exists s' r', stored s' (key_of ctx (ar_id (sn_run (snapshot_at ended)))) = Some (r', stored_steps (db_tables ended) run_key) /\
    (ar_status r', ar_result r') = ((final_result (sn_steps (snapshot_at ended))).1,
      Some (final_result (sn_steps (snapshot_at ended))).2) /\
    ar_finished_at r' = Some (to_timestamptz 30) /\ ar_version r' = ar_version (sn_run (snapshot_at ended)) + 1.
Proof.
  destruct ended_facts as (Hr & Ha & Hs & He).
  destruct (exec [] 30 5000 (db_tables ended) (handle_advance ctx (snapshot_at ended) ended_item)) as [[o n'] s'] eqn:E.
  simpl in He. subst o. exists s'.
  destruct (after_reached cancelled_steps) as [used Hx]; [by vm_compute|].
  apply reachable_sound in Hx as (H & owns & [Hwf _ _] & _).
  exact (proj2 (finished_steps_end_run 30 5000 (db_tables ended) s' ctx (snapshot_at ended) ended_item _ n' Completed
    Hwf Hs Hr Ha E)).
Defined.

End Instances.
