(* ===== verification/ResourceScope.v ===== *)
(** * Resource scopes

    [crates/vestrace-domain/src/security/scope.rs] and the two containment rules of
    [security/delegation.rs]: the vocabulary a capability grant is written in, its parser and
    printer, and when one selector or scope lies within another. *)

From Stdlib Require Import ZArith Lia String.
From stdpp Require Import base option numbers strings list.
From S2P Require Import Prelude Text RunStatus.

(** ** String operations *)

Definition contains (c : Z) (t : text) : bool := any (Z.eqb c) t.

Fixpoint strip_prefix (p t : text) : option text :=
  match p with
  | [] => Some t
  | c :: p' =>
      match t with
      | d :: t' => if (c =? d)%Z then strip_prefix p' t' else None
      | [] => None
      end
  end.

Definition starts_with (p t : text) : bool := is_some (strip_prefix p t).

Definition ends_with (c : Z) (t : text) : bool :=
  match last t with Some d => (c =? d)%Z | None => false end.

(** The text around the first occurrence of the separator. *)
Fixpoint split_once (sep t : text) : option (text * text) :=
  match strip_prefix sep t with
  | Some rest => Some ([], rest)
  | None =>
      match t with
      | [] => None
      | c :: t' => match split_once sep t' with Some (a, b) => Some (c :: a, b) | None => None end
      end
  end.

Definition STAR : Z := 42.
Definition SLASH : Z := 47.
Definition DOT : Z := 46.
Definition SEP : text := text_of "://".

(** ** Containment *)

Definition selector_is_within (child parent : text) : bool :=
  if contains STAR child || contains STAR parent then false else
  (child == parent) || starts_with (parent ++ [DOT]) child.

Definition scope_is_within (child parent : text) : bool :=
  if contains STAR child || contains STAR parent then false else
  if is_empty parent then is_empty child else
  if child == parent then true else
  match strip_prefix parent child with
  | None => false
  | Some rest => if ends_with SLASH parent then negb (is_empty rest) else starts_with [SLASH] rest
  end.

(** ** Kinds and scopes *)

Module ResourceKind.

Inductive t : Type :=
| Memory | Event | Context | Agent | Skill | Workflow | Execution | Run | Model | Provider
| Evaluation | Learning | Audit | Export | Finding | Capability | Workspace.

#[global] Instance kind_eq_dec : EqDecision t.
Proof. solve_decision. Defined.

Definition ALL : list t :=
  [Memory; Event; Context; Agent; Skill; Workflow; Execution; Run; Model; Provider;
   Evaluation; Learning; Audit; Export; Finding; Capability; Workspace].

Definition scheme (k : t) : text :=
  text_of
    match k with
    | Memory => "memory"
    | Event => "event"
    | Context => "context"
    | Agent => "agent"
    | Skill => "skill"
    | Workflow => "workflow"
    | Execution => "execution"
    | Run => "run"
    | Model => "model"
    | Provider => "provider"
    | Evaluation => "evaluation"
    | Learning => "learning"
    | Audit => "audit"
    | Export => "export"
    | Finding => "finding"
    | Capability => "capability"
    | Workspace => "workspace"
    end.

(** [FromStr]: the first kind of [ALL] with that scheme. *)
Definition kind_parse (value : text) : result DomainError t :=
  ok_or (List.find (fun k => scheme k == value) ALL) InvalidArgument.

End ResourceKind.

Inductive ResourceScope : Type :=
| EveryOfKind (kind : ResourceKind.t)
| One (kind : ResourceKind.t) (id : text)
| Surface (path : text)
| External (scheme target : text).

#[export] Instance ResourceScope_eq_dec : EqDecision ResourceScope.
Proof. solve_decision. Defined.

Definition scope_workspace : ResourceScope := EveryOfKind ResourceKind.Workspace.

Definition scope_parse (value : text) : result DomainError ResourceScope :=
  let trimmed := trim value in
  if is_empty trimmed then Err InvalidArgument else
  if negb (utf8_len trimmed =? utf8_len value)%Z then Err InvalidArgument else
  if any is_whitespace trimmed then Err InvalidArgument else
  if contains STAR trimmed then Err InvalidArgument else
  match strip_prefix [SLASH] trimmed with
  | Some path => if is_empty path then Err InvalidArgument else Ok (Surface trimmed)
  | None =>
      match split_once SEP trimmed with
      | None => Err InvalidArgument
      | Some (scheme, rest) =>
          if is_empty scheme then Err InvalidArgument else
          match ResourceKind.kind_parse scheme with
          | Ok kind => if is_empty rest then Ok (EveryOfKind kind) else Ok (One kind rest)
          | Err _ => if is_empty rest then Err InvalidArgument else Ok (External scheme rest)
          end
      end
  end.

(** [Display]. *)
Definition scope_text (s : ResourceScope) : text :=
  match s with
  | EveryOfKind kind => ResourceKind.scheme kind ++ SEP
  | One kind id => ResourceKind.scheme kind ++ SEP ++ id
  | Surface path => path
  | External scheme target => scheme ++ SEP ++ target
  end.

Definition is_internal (s : ResourceScope) : bool :=
  match s with External _ _ => false | _ => true end.

Definition covers (granted requested : ResourceScope) : bool :=
  scope_is_within (scope_text requested) (scope_text granted).

(** ** Lemmas on strings *)

Lemma contains_app c a b : contains c (a ++ b) = contains c a || contains c b.
Proof. apply existsb_app. Qed.

Lemma strip_prefix_Some p t r : strip_prefix p t = Some r <-> t = p ++ r.
Proof.
  revert t. induction p as [|c p IH]; intros [|d t]; simpl; try naive_solver.
  destruct (Z.eqb_spec c d) as [<-|Hn]; [rewrite IH|]; naive_solver.
Qed.

Lemma starts_with_true p t : starts_with p t = true <-> exists r, t = p ++ r.
Proof. unfold starts_with. rewrite is_some_true. by setoid_rewrite strip_prefix_Some. Qed.

Lemma ends_with_true c t : ends_with c t = true <-> last t = Some c.
Proof. unfold ends_with. destruct (last t) as [d|]; [rewrite Z.eqb_eq|]; naive_solver. Qed.

Lemma is_empty_true t : is_empty t = true <-> t = [].
Proof. by destruct t. Qed.

Lemma is_empty_false t : is_empty t = false <-> t <> [].
Proof. by destruct t. Qed.

Lemma split_once_Some sep t a b :
  split_once sep t = Some (a, b) -> t = a ++ sep ++ b.
Proof.
  revert a. induction t as [|c t IH]; intros a; simpl.
  - destruct (strip_prefix sep []) as [r|] eqn:E; [|done]. intros [= <- <-]. by apply strip_prefix_Some in E.
  - destruct (strip_prefix sep (c :: t)) as [r|] eqn:E.
    + intros [= <- <-]. by apply strip_prefix_Some in E.
    + destruct (split_once sep t) as [[a' b']|] eqn:E'; [|done]. intros [= <- <-]. simpl. f_equal. eauto.
Qed.

(** The first separator of a text is found behind a prefix that holds none: a separator cannot
    start inside that prefix and end outside it. *)
Lemma split_once_first a b :
  split_once SEP a = None -> split_once SEP (a ++ SEP ++ b) = Some (a, b).
Proof.
  induction a as [|c a IH]; [done|]. cbn [split_once app].
  destruct (strip_prefix SEP (c :: a)) eqn:E; [done|]. destruct (split_once SEP a) as [[]|]; [done|].
  intros _. rewrite IH by done.
  destruct (strip_prefix SEP (c :: a ++ SEP ++ b)) as [r|] eqn:E'; [|done]. exfalso.
  apply strip_prefix_Some in E'. change SEP with [58; 47; 47]%Z in *.
  destruct a as [|d [|e a]]; simpl in *; simplify_eq.
Qed.

Lemma utf8_len_char_pos c : (1 <= utf8_len_char c)%Z.
Proof. unfold utf8_len_char. repeat case_match; lia. Qed.

Lemma utf8_len_app a b : utf8_len (a ++ b) = (utf8_len a + utf8_len b)%Z.
Proof. unfold utf8_len. induction a as [|c a IH]; simpl; [done|]. rewrite IH. lia. Qed.

Lemma utf8_len_reverse a : utf8_len (reverse a) = utf8_len a.
Proof.
  induction a as [|c a IH]; [done|]. rewrite reverse_cons, utf8_len_app, IH. unfold utf8_len. simpl. lia.
Qed.

Lemma utf8_len_nonneg a : (0 <= utf8_len a)%Z.
Proof. unfold utf8_len. induction a as [|c a IH]; simpl; [lia|]. pose proof (utf8_len_char_pos c). lia. Qed.

Lemma utf8_len_zero a : utf8_len a = 0%Z -> a = [].
Proof.
  destruct a as [|c a]; [done|]. unfold utf8_len. simpl. pose proof (utf8_len_char_pos c).
  pose proof (utf8_len_nonneg a). unfold utf8_len in *. lia.
Qed.

Lemma trim_start_len t : utf8_len (trim_start t) = utf8_len t -> trim_start t = t.
Proof.
  destruct (trim_start_suffix t) as (p & Ht & _). rewrite Ht at 2. rewrite utf8_len_app. intros H.
  rewrite (utf8_len_zero p) in Ht by lia. by rewrite Ht at 2.
Qed.

(** Trimming that keeps the length keeps the text. *)
Lemma trim_same_len t : utf8_len (trim t) = utf8_len t -> trim t = t.
Proof.
  unfold trim. rewrite utf8_len_reverse. set (u := trim_start t).
  destruct (trim_start_suffix (reverse u)) as (p & Hr & _). destruct (trim_start_suffix t) as (q & Ht & _).
  pose proof (f_equal utf8_len Hr) as Lr. pose proof (f_equal utf8_len Ht) as Lt.
  rewrite utf8_len_app in Lr, Lt. rewrite utf8_len_reverse in Lr. fold u in Ht, Lt.
  pose proof (utf8_len_nonneg p). pose proof (utf8_len_nonneg q). intros H'.
  rewrite (utf8_len_zero p) in Hr by lia. rewrite (utf8_len_zero q) in Ht by lia.
  simpl in Hr, Ht. rewrite <-Hr, reverse_involutive. by symmetry.
Qed.

(** ** Containment is a partial order *)

Lemma scope_within_true child parent :
  scope_is_within child parent = true <->
  contains STAR child = false /\ contains STAR parent = false /\
  (child = parent \/
   parent <> [] /\ exists rest, rest <> [] /\ child = parent ++ rest /\
     (last parent = Some SLASH \/ exists r, rest = SLASH :: r)).
Proof.
  unfold scope_is_within.
  destruct (contains STAR child), (contains STAR parent); simpl; try naive_solver.
  destruct (is_empty parent) eqn:Ep.
  { apply is_empty_true in Ep as ->. rewrite is_empty_true. naive_solver. }
  apply is_empty_false in Ep. destruct (eqb child parent) eqn:E.
  { rewrite eqb_true in E. subst. split; [intros _; by repeat split; try left|done]. }
  rewrite eqb_false in E. destruct (strip_prefix parent child) as [rest|] eqn:Er.
  - apply strip_prefix_Some in Er as ->.
    assert (rest <> []) by (intros ->; by rewrite app_nil_r in E).
    destruct (ends_with SLASH parent) eqn:Es.
    + apply ends_with_true in Es. rewrite negb_true_iff, is_empty_false. naive_solver.
    + assert (last parent <> Some SLASH) by (rewrite <-ends_with_true; congruence).
      rewrite starts_with_true. split; [intros [r ->]; naive_solver|].
      intros (_ & _ & [?|(_ & rest' & _ & Heq & [?|[r ->]])]); [done..|].
      apply app_inv_head in Heq as ->. by exists r.
  - split; [done|]. intros (_ & _ & [?|(_ & rest & _ & -> & _)]); [done|].
    by rewrite (proj2 (strip_prefix_Some _ _ _) eq_refl) in Er.
Qed.

Lemma scope_within_refl t : contains STAR t = false -> scope_is_within t t = true.
Proof. intros H. apply scope_within_true. naive_solver. Qed.

Lemma scope_within_trans a b c :
  scope_is_within a b = true -> scope_is_within b c = true -> scope_is_within a c = true.
Proof.
  rewrite !scope_within_true. intros (Ha & _ & [->|(Hb & r & Hr & -> & Hsep)]) (Hbs & Hc & Hbc); [done|].
  split; [done|]. split; [done|]. right. destruct Hbc as [->|(Hcn & q & Hq & -> & Hsep')].
  - eauto.
  - split; [done|]. exists (q ++ r). split; [by destruct q|]. split; [by rewrite (assoc_L (++))|].
    destruct Hsep' as [?|[x ->]]; [by left|]. right. by exists (x ++ r).
Qed.

Lemma scope_within_antisym a b :
  scope_is_within a b = true -> scope_is_within b a = true -> a = b.
Proof.
  rewrite !scope_within_true. intros (_ & _ & [->|(_ & r & Hr & -> & _)]); [done|].
  intros (_ & _ & [H|(_ & q & Hq & H & _)]); [done|].
  rewrite <-(assoc_L (++)) in H. apply (f_equal length) in H. rewrite !length_app in H.
  destruct r, q; simpl in *; [done..|]. lia.
Qed.

Lemma selector_within_true child parent :
  selector_is_within child parent = true <->
  contains STAR child = false /\ contains STAR parent = false /\
  (child = parent \/ exists rest, child = parent ++ DOT :: rest).
Proof.
  unfold selector_is_within. destruct (contains STAR child), (contains STAR parent); simpl; try naive_solver.
  rewrite orb_true_iff, eqb_true, starts_with_true. setoid_rewrite <-(assoc_L (++)). naive_solver.
Qed.

Lemma selector_within_trans a b c :
  selector_is_within a b = true -> selector_is_within b c = true -> selector_is_within a c = true.
Proof.
  rewrite !selector_within_true. intros (Ha & _ & [->|[r ->]]) (Hbs & Hc & Hbc); [done|].
  split; [done|]. split; [done|]. right. destruct Hbc as [->|[q ->]]; [by exists r|].
  exists (q ++ DOT :: r). by rewrite <-(assoc_L (++)).
Qed.

#[export] Hint Resolve scope_within_trans selector_within_trans : vestrace.

(** ** The scopes the parser answers *)

(** Written without blanks and without the refused wildcard. *)
Definition clean (t : text) : Prop := any is_whitespace t = false /\ contains STAR t = false.

Definition scope_wf (s : ResourceScope) : Prop :=
  match s with
  | EveryOfKind _ => True
  | One _ id => id <> [] /\ clean id
  | Surface path => clean path /\ exists p, p <> [] /\ path = SLASH :: p
  | External scheme target =>
      scheme <> [] /\ target <> [] /\ clean scheme /\ clean target /\
      (forall p, scheme <> SLASH :: p) /\ split_once SEP scheme = None /\
      forall k, ResourceKind.scheme k <> scheme
  end.

Lemma clean_app a b : clean (a ++ b) <-> clean a /\ clean b.
Proof. unfold clean, any. rewrite contains_app, existsb_app, !orb_false_iff. naive_solver. Qed.

Lemma clean_trim t : clean t -> trim t = t.
Proof.
  intros [H _]. apply trimmed_fixed. unfold any in H.
  assert (Hc : forall c, In c t -> is_whitespace c = false).
  { intros c Hin. destruct (is_whitespace c) eqn:E; [|done].
    by rewrite (proj2 (existsb_exists _ _) (ex_intro _ c (conj Hin E))) in H. }
  split; intros c Hl; apply Hc, list_elem_of_In.
  - by eapply list_elem_of_lookup_2.
  - apply last_Some in Hl as [l ->]. apply elem_of_app. right. by apply list_elem_of_singleton.
Qed.

Lemma kind_parse_Ok t k : ResourceKind.kind_parse t = Ok k -> t = ResourceKind.scheme k.
Proof.
  unfold ResourceKind.kind_parse. rewrite ok_or_Ok. intros [_ H]%List.find_some.
  by rewrite eqb_true in H.
Qed.

Lemma kind_parse_scheme k : ResourceKind.kind_parse (ResourceKind.scheme k) = Ok k.
Proof. destruct k; reflexivity. Qed.

Lemma kind_parse_Err t e : ResourceKind.kind_parse t = Err e -> forall k, ResourceKind.scheme k <> t.
Proof. intros H k <-. by rewrite kind_parse_scheme in H. Qed.

Lemma scheme_shape k :
  ResourceKind.scheme k <> [] /\ clean (ResourceKind.scheme k) /\ split_once SEP (ResourceKind.scheme k) = None /\
  strip_prefix [SLASH] (ResourceKind.scheme k) = None.
Proof. destruct k; by repeat split. Qed.

Lemma clean_sep : clean SEP.
Proof. done. Qed.

#[export] Hint Resolve clean_sep : vestrace.

(** The parser on a clean text, without its first four guards. *)
Lemma scope_parse_clean v : clean v -> v <> [] ->
  scope_parse v =
  match strip_prefix [SLASH] v with
  | Some path => if is_empty path then Err InvalidArgument else Ok (Surface v)
  | None =>
      match split_once SEP v with
      | None => Err InvalidArgument
      | Some (scheme, rest) =>
          if is_empty scheme then Err InvalidArgument else
          match ResourceKind.kind_parse scheme with
          | Ok kind => if is_empty rest then Ok (EveryOfKind kind) else Ok (One kind rest)
          | Err _ => if is_empty rest then Err InvalidArgument else Ok (External scheme rest)
          end
      end
  end.
Proof.
  intros Hc Hn. unfold scope_parse. cbv zeta. rewrite (clean_trim v Hc). destruct Hc as [Hw Hs].
  apply is_empty_false in Hn. by rewrite Hn, Z.eqb_refl, Hw, Hs.
Qed.

Lemma scope_parse_is_clean v s : scope_parse v = Ok s -> clean v /\ v <> [].
Proof.
  unfold scope_parse. cbv zeta.
  destruct (is_empty (trim v)) eqn:E1; [done|]. destruct (utf8_len (trim v) =? utf8_len v)%Z eqn:E2; [|done].
  apply Z.eqb_eq, trim_same_len in E2. rewrite E2 in *. cbn [negb].
  destruct (any is_whitespace v) eqn:E3; [done|]. destruct (contains STAR v) eqn:E4; [done|].
  intros _. split; [done|]. by apply is_empty_false.
Qed.

(** What follows a scheme that is not an HTTP path. *)
Lemma scope_parse_scheme scheme rest :
  clean scheme -> clean rest -> scheme <> [] -> (forall p, scheme <> SLASH :: p) -> split_once SEP scheme = None ->
  scope_parse (scheme ++ SEP ++ rest) =
  match ResourceKind.kind_parse scheme with
  | Ok kind => if is_empty rest then Ok (EveryOfKind kind) else Ok (One kind rest)
  | Err _ => if is_empty rest then Err InvalidArgument else Ok (External scheme rest)
  end.
Proof.
  intros Hs Hr Hn Hh Hf. rewrite scope_parse_clean; cycle 1.
  { rewrite !clean_app. auto with vestrace. } { by destruct scheme. }
  rewrite split_once_first by done. apply is_empty_false in Hn. rewrite Hn.
  destruct (strip_prefix [SLASH] (scheme ++ SEP ++ rest)) as [q|] eqn:E; [|done]. exfalso.
  apply strip_prefix_Some in E. destruct scheme as [|c p]; [done|]. simpl in E. simplify_eq.
  by apply (Hh p).
Qed.

Lemma split_once_none sep t a b : split_once sep t = Some (a, b) -> sep <> [] -> split_once sep a = None.
Proof.
  intros H Hn. revert a H. induction t as [|c t IH]; intros a; cbn [split_once].
  - destruct (strip_prefix sep []) eqn:E; [|done]. intros [= <- <-]. by destruct sep.
  - destruct (strip_prefix sep (c :: t)) eqn:E.
    + intros [= <- <-]. by destruct sep.
    + destruct (split_once sep t) as [[a' b']|] eqn:E'; [|done]. intros [= <- <-]. cbn [split_once].
      rewrite (IH a') by done. destruct (strip_prefix sep (c :: a')) as [r|] eqn:E''; [|done].
      apply strip_prefix_Some in E''. apply split_once_Some in E'. subst t.
      rewrite app_comm_cons, E'', <-(assoc_L (++)) in E.
      by rewrite (proj2 (strip_prefix_Some _ _ _) eq_refl) in E.
Qed.

(** The parser answers exactly the well-formed scopes, each on its printed text. *)
Lemma scope_parse_exact (v : text) (s : ResourceScope) :
  scope_parse v = Ok s <-> v = scope_text s /\ scope_wf s.
Proof.
  split.
  - intros H. destruct (scope_parse_is_clean v s H) as [Hc Hn]. rewrite scope_parse_clean in H by done.
    destruct (strip_prefix [SLASH] v) as [p|] eqn:Ep.
    { apply strip_prefix_Some in Ep. destruct (is_empty p) eqn:Ee; [done|]. simplify_eq/=.
      apply is_empty_false in Ee. split; [done|]. split; [done|]. by exists p. }
    destruct (split_once SEP v) as [[sch rest]|] eqn:Es; [|done].
    pose proof (split_once_none _ _ _ _ Es ltac:(done)) as Hnone. apply split_once_Some in Es.
    rewrite Es, !clean_app in Hc. destruct Hc as (Hcs & _ & Hcr).
    destruct (is_empty sch) eqn:Ee; [done|]. apply is_empty_false in Ee.
    destruct (ResourceKind.kind_parse sch) as [k|] eqn:Ek.
    + apply kind_parse_Ok in Ek as ->.
      destruct (is_empty rest) eqn:Er; injection H as <-; cbn [scope_text scope_wf].
      * apply is_empty_true in Er as ->. by rewrite app_nil_r in Es.
      * by apply is_empty_false in Er.
    + destruct (is_empty rest) eqn:Er; [done|]. injection H as <-. cbn [scope_text scope_wf]. apply is_empty_false in Er.
      repeat split; try done; try apply Hcs; try apply Hcr; [|by eapply kind_parse_Err].
      intros p ->. by rewrite Es in Ep.
  - intros [-> Hw]. destruct s as [k|k id|path|sch target]; cbn [scope_text scope_wf] in *.
    + destruct (scheme_shape k) as (Hn & Hc & Hf & Hh). rewrite <-(app_nil_r SEP).
      rewrite scope_parse_scheme, kind_parse_scheme; try done. intros p Hp. by rewrite Hp in Hh.
    + destruct (scheme_shape k) as (Hn & Hc & Hf & Hh). destruct Hw as [Hi Hci].
      rewrite scope_parse_scheme, kind_parse_scheme; try done; [by destruct id|]. intros p Hp. by rewrite Hp in Hh.
    + destruct Hw as (Hc & p & Hp & ->). rewrite scope_parse_clean by done. simpl. by destruct p.
    + destruct Hw as (Hn & Ht & Hc & Hct & Hh & Hf & Hk). rewrite scope_parse_scheme by done.
      destruct (ResourceKind.kind_parse sch) as [k|] eqn:Ek; [by apply kind_parse_Ok, eq_sym, Hk in Ek|].
      by destruct target.
Qed.
