(* ===== verification/Capability.v ===== *)
(** * Capabilities, grants and delegation

    [crates/vestrace-domain/src/security/{mod,capability,delegation}.rs]: capability grants and
    their evaluation against a request, attenuated delegation, and the hierarchical budget the
    delegated grants reserve from.  Messages of errors are not modelled.

    [chrono] is a library: [Chrono] stands for [Duration::seconds], which panics out of its range,
    and for [checked_add_signed].  A delegation therefore answers a value, a domain error or a
    panic. *)

From Stdlib Require Import ZArith Lia String.
From stdpp Require Import base option numbers strings gmap list.
From S2P Require Import Prelude Codec Text RunStatus RunDecider ResourceScope.

Abbreviation CapabilityGrantId := Uuid (only parsing).
Abbreviation PolicyId := Uuid (only parsing).
Abbreviation PolicyDecisionId := Uuid (only parsing).

Module Capability.

Inductive t : Type :=
| MemoryRead | MemoryWrite | MemoryPurge | EventRead | EventWrite | ContextRetrieve
| AgentRead | AgentWrite | SkillRead | SkillWrite | WorkflowRead | WorkflowWrite
| ExecutionRead | ExecutionWrite | ModelRead | ModelWrite | ProviderRead | ProviderWrite
| EvaluationRead | EvaluationWrite | LearningRead | LearningWrite | AuditRead | ExportRead
| EmbeddingRetryAfterUnknown | EmbeddingRetryCarriedTransitionBatchAfterUnknown
| EmbeddingRetryRetrievalGenerationChanged | CapabilityDelegate | WorkspaceAdmin.

#[global] Instance capability_eq_dec : EqDecision t.
Proof. solve_decision. Defined.

Definition capability_name (c : t) : string :=
  match c with
  | MemoryRead => "memory.read"
  | MemoryWrite => "memory.write"
  | MemoryPurge => "memory.purge"
  | EventRead => "event.read"
  | EventWrite => "event.write"
  | ContextRetrieve => "context.retrieve"
  | AgentRead => "agent.read"
  | AgentWrite => "agent.write"
  | SkillRead => "skill.read"
  | SkillWrite => "skill.write"
  | WorkflowRead => "workflow.read"
  | WorkflowWrite => "workflow.write"
  | ExecutionRead => "execution.read"
  | ExecutionWrite => "execution.write"
  | ModelRead => "model.read"
  | ModelWrite => "model.write"
  | ProviderRead => "provider.read"
  | ProviderWrite => "provider.write"
  | EvaluationRead => "evaluation.read"
  | EvaluationWrite => "evaluation.write"
  | LearningRead => "learning.read"
  | LearningWrite => "learning.write"
  | AuditRead => "audit.read"
  | ExportRead => "export.read"
  | EmbeddingRetryAfterUnknown => "embedding.retry_after_unknown"
  | EmbeddingRetryRetrievalGenerationChanged => "embedding.retry_retrieval_generation_changed"
  | EmbeddingRetryCarriedTransitionBatchAfterUnknown => "embedding.retry_carried_transition_batch_after_unknown"
  | CapabilityDelegate => "capability.delegate"
  | WorkspaceAdmin => "workspace.admin"
  end.

(** [FromStr]. *)
Definition capability_parse (s : string) : result DomainError t :=
  ok_or (assoc
    [("memory.read", MemoryRead); ("memory.write", MemoryWrite); ("memory.purge", MemoryPurge);
     ("event.read", EventRead); ("event.write", EventWrite); ("context.retrieve", ContextRetrieve);
     ("agent.read", AgentRead); ("agent.write", AgentWrite); ("skill.read", SkillRead);
     ("skill.write", SkillWrite); ("workflow.read", WorkflowRead); ("workflow.write", WorkflowWrite);
     ("execution.read", ExecutionRead); ("execution.write", ExecutionWrite); ("model.read", ModelRead);
     ("model.write", ModelWrite); ("provider.read", ProviderRead); ("provider.write", ProviderWrite);
     ("evaluation.read", EvaluationRead); ("evaluation.write", EvaluationWrite);
     ("learning.read", LearningRead); ("learning.write", LearningWrite); ("audit.read", AuditRead);
     ("export.read", ExportRead); ("embedding.retry_after_unknown", EmbeddingRetryAfterUnknown);
     ("embedding.retry_retrieval_generation_changed", EmbeddingRetryRetrievalGenerationChanged);
     ("embedding.retry_carried_transition_batch_after_unknown", EmbeddingRetryCarriedTransitionBatchAfterUnknown);
     ("capability.delegate", CapabilityDelegate); ("workspace.admin", WorkspaceAdmin)]%string s)
    InvalidArgument.

End Capability.

(** The derived order of [RiskCategory] is the order of its constructors. *)
Inductive RiskCategory : Type := Low | Medium | High | Critical.

#[export] Instance RiskCategory_eq_dec : EqDecision RiskCategory.
Proof. solve_decision. Defined.

Definition risk_rank (r : RiskCategory) : Z :=
  match r with Low => 0 | Medium => 1 | High => 2 | Critical => 3 end.

Definition risk_above (a b : RiskCategory) : bool := (risk_rank b <? risk_rank a)%Z.

Definition risk_max (a b : RiskCategory) : RiskCategory := if risk_above a b then a else b.

Record GrantCondition : Type := mkCondition { gc_name : text; gc_expected_value : text }.

#[export] Instance GrantCondition_eq_dec : EqDecision GrantCondition.
Proof. solve_decision. Defined.

Definition condition_new (name expected_value : text) : result DomainError GrantCondition :=
  if is_empty (trim name) then Err InvalidArgument else
  if is_empty (trim expected_value) then Err InvalidArgument else
  Ok (mkCondition name expected_value).

Inductive CapabilityGrantStatus : Type := GrantActive | GrantRevoked.

#[export] Instance CapabilityGrantStatus_eq_dec : EqDecision CapabilityGrantStatus.
Proof. solve_decision. Defined.

(** A budget is its [max_units]. *)
Record CapabilityGrantSpec : Type := mkGrantSpec {
  sp_id : CapabilityGrantId;
  sp_workspace_id : WorkspaceId;
  sp_subject_id : PrincipalId;
  sp_issuer_id : PrincipalId;
  sp_capability : Capability.t;
  sp_operation : text;
  sp_resource_scope : text;
  sp_valid_from : Timestamp;
  sp_valid_until : option Timestamp;
  sp_budget : option Z;
  sp_risk_ceiling : RiskCategory;
  sp_conditions : list GrantCondition;
}.

Record CapabilityGrant : Type := mkGrant {
  gr_id : CapabilityGrantId;
  gr_workspace_id : WorkspaceId;
  gr_subject_id : PrincipalId;
  gr_issuer_id : PrincipalId;
  gr_capability : Capability.t;
  gr_operation : text;
  gr_resource_scope : text;
  gr_valid_from : Timestamp;
  gr_valid_until : option Timestamp;
  gr_budget : option Z;
  gr_risk_ceiling : RiskCategory;
  gr_conditions : list GrantCondition;
  gr_status : CapabilityGrantStatus;
  gr_created_at : Timestamp;
  gr_revoked_at : option Timestamp;
}.

(** ** Grants *)

Definition issue (spec : CapabilityGrantSpec) (created_at : Timestamp) : result DomainError CapabilityGrant :=
  if is_empty (trim (sp_operation spec)) then Err InvalidArgument else
  _ ← scope_parse (sp_resource_scope spec);
  if match sp_valid_until spec with Some u => (u <=? sp_valid_from spec)%Z | None => false end
  then Err InvalidArgument else
  if any (fun c => is_empty (trim (gc_name c)) || is_empty (trim (gc_expected_value c))) (sp_conditions spec)
  then Err InvalidArgument else
  Ok (mkGrant (sp_id spec) (sp_workspace_id spec) (sp_subject_id spec) (sp_issuer_id spec) (sp_capability spec)
        (sp_operation spec) (sp_resource_scope spec) (sp_valid_from spec) (sp_valid_until spec) (sp_budget spec)
        (sp_risk_ceiling spec) (sp_conditions spec) GrantActive created_at None).

Definition revoke (g : CapabilityGrant) (at_ : Timestamp) : result DomainError CapabilityGrant :=
  if gr_status g == GrantRevoked then Err PolicyViolation else
  Ok (mkGrant (gr_id g) (gr_workspace_id g) (gr_subject_id g) (gr_issuer_id g) (gr_capability g)
        (gr_operation g) (gr_resource_scope g) (gr_valid_from g) (gr_valid_until g) (gr_budget g)
        (gr_risk_ceiling g) (gr_conditions g) GrantRevoked (gr_created_at g) (Some at_)).

Definition is_active_at (g : CapabilityGrant) (at_ : Timestamp) : bool :=
  (gr_status g == GrantActive) && (gr_valid_from g <=? at_)%Z &&
  match gr_valid_until g with Some u => (at_ <? u)%Z | None => true end.

(** ** Requests *)

Record AuthorizationRequest : Type := mkRequest {
  aq_capability : Capability.t;
  aq_operation : text;
  aq_resource_scope : text;
  aq_requested_risk : RiskCategory;
  aq_context_risk : RiskCategory;
  aq_requested_budget_units : Z;
  aq_conditions : list GrantCondition;
}.

Definition request_new (capability : Capability.t) (operation resource_scope : text) (risk : RiskCategory)
    : AuthorizationRequest :=
  mkRequest capability operation resource_scope risk Low 0 [].

Definition with_budget_units (q : AuthorizationRequest) (units : Z) : AuthorizationRequest :=
  mkRequest (aq_capability q) (aq_operation q) (aq_resource_scope q) (aq_requested_risk q) (aq_context_risk q)
    units (aq_conditions q).

Definition effective_risk (q : AuthorizationRequest) : RiskCategory :=
  risk_max (aq_requested_risk q) (aq_context_risk q).

Inductive PolicyDecisionResult : Type := Deny | Allow | PrepareOnly | RequireApproval.

#[export] Instance PolicyDecisionResult_eq_dec : EqDecision PolicyDecisionResult.
Proof. solve_decision. Defined.

Module PolicyDecisionReason.

Inductive t : Type :=
| DefaultDeny | GrantMatched | ConfiguredAllowance | WorkspaceMismatch | SubjectMismatch | CapabilityMismatch
| OperationMismatch | ResourceMismatch | NotYetValid | Expired | Revoked | BudgetExceeded | RiskExceedsCeiling
| ConditionNotSatisfied.

#[global] Instance reason_eq_dec : EqDecision t.
Proof. solve_decision. Defined.

End PolicyDecisionReason.

Definition failure_reason (g : CapabilityGrant) (ws : WorkspaceId) (subject : PrincipalId)
    (q : AuthorizationRequest) (at_ : Timestamp) : option PolicyDecisionReason.t :=
  if gr_workspace_id g !== ws then Some PolicyDecisionReason.WorkspaceMismatch else
  if gr_subject_id g !== subject then Some PolicyDecisionReason.SubjectMismatch else
  if gr_capability g !== aq_capability q then Some PolicyDecisionReason.CapabilityMismatch else
  if negb (selector_is_within (aq_operation q) (gr_operation g)) then Some PolicyDecisionReason.OperationMismatch else
  if negb (scope_is_within (aq_resource_scope q) (gr_resource_scope g))
  then Some PolicyDecisionReason.ResourceMismatch else
  if gr_status g == GrantRevoked then Some PolicyDecisionReason.Revoked else
  if (at_ <? gr_valid_from g)%Z then Some PolicyDecisionReason.NotYetValid else
  if match gr_valid_until g with Some u => (u <=? at_)%Z | None => false end
  then Some PolicyDecisionReason.Expired else
  if match gr_budget g with Some m => (m <? aq_requested_budget_units q)%Z | None => false end
  then Some PolicyDecisionReason.BudgetExceeded else
  if risk_above (effective_risk q) (gr_risk_ceiling g) then Some PolicyDecisionReason.RiskExceedsCeiling else
  if negb (all (fun expected => any (fun actual => actual == expected) (aq_conditions q)) (gr_conditions g))
  then Some PolicyDecisionReason.ConditionNotSatisfied else
  None.

Record PolicyInputState : Type := mkInputState {
  pi_workspace_id : WorkspaceId;
  pi_subject_id : PrincipalId;
  pi_capability : Capability.t;
  pi_operation : text;
  pi_resource_scope : text;
  pi_requested_risk : RiskCategory;
  pi_context_risk : RiskCategory;
  pi_effective_risk : RiskCategory;
  pi_requested_budget_units : Z;
  pi_conditions : list GrantCondition;
}.

#[export] Instance PolicyInputState_eq_dec : EqDecision PolicyInputState.
Proof. solve_decision. Defined.

Definition input_from_request (ws : WorkspaceId) (subject : PrincipalId) (q : AuthorizationRequest)
    : PolicyInputState :=
  mkInputState ws subject (aq_capability q) (aq_operation q) (aq_resource_scope q) (aq_requested_risk q)
    (aq_context_risk q) (effective_risk q) (aq_requested_budget_units q) (aq_conditions q).

Record PolicyDecision : Type := mkDecision {
  pd_id : PolicyDecisionId;
  pd_policy_id : option PolicyId;
  pd_policy_version : text;
  pd_workspace_id : WorkspaceId;
  pd_subject_id : PrincipalId;
  pd_capability : Capability.t;
  pd_operation : text;
  pd_resource_scope : text;
  pd_result : PolicyDecisionResult;
  pd_reason : PolicyDecisionReason.t;
  pd_input_state : PolicyInputState;
  pd_matched_grant_id : option CapabilityGrantId;
  pd_decided_at : Timestamp;
}.

#[export] Instance PolicyDecision_eq_dec : EqDecision PolicyDecision.
Proof. solve_decision. Defined.

Definition is_allowed (d : PolicyDecision) : bool := pd_result d == Allow.

(** The loop over the grants: the first that matches, and the first reason of one that does not. *)
Fixpoint match_grant (ws : WorkspaceId) (subject : PrincipalId) (q : AuthorizationRequest) (at_ : Timestamp)
    (first_failure : option PolicyDecisionReason.t) (grants : list CapabilityGrant)
    : CapabilityGrantId + option PolicyDecisionReason.t :=
  match grants with
  | [] => inr first_failure
  | g :: rest =>
      match failure_reason g ws subject q at_ with
      | None => inl (gr_id g)
      | Some r => match_grant ws subject q at_ (match first_failure with None => Some r | f => f end) rest
      end
  end.

Definition evaluate_capability_grants (id : PolicyDecisionId) (ws : WorkspaceId) (subject : PrincipalId)
    (policy_version : text) (q : AuthorizationRequest) (grants : list CapabilityGrant) (at_ : Timestamp)
    : result DomainError PolicyDecision :=
  if is_empty (trim policy_version) then Err InvalidArgument else
  if is_empty (trim (aq_operation q)) then Err InvalidArgument else
  _ ← scope_parse (aq_resource_scope q);
  let decision res reason matched :=
    mkDecision id None policy_version ws subject (aq_capability q) (aq_operation q) (aq_resource_scope q)
      res reason (input_from_request ws subject q) matched at_ in
  Ok match match_grant ws subject q at_ None grants with
     | inl g => decision Allow PolicyDecisionReason.GrantMatched (Some g)
     | inr f => decision Deny (default PolicyDecisionReason.DefaultDeny f) None
     end.

(** ** The hierarchical budget *)

(** Unsigned 64-bit arithmetic that wraps, as in a build without overflow checks. *)
Definition wrap64 (n : Z) : Z := (n mod 2 ^ 64)%Z.

Record BudgetReservation : Type := mkReservation {
  br_grant_id : CapabilityGrantId;
  br_parent_grant_id : option CapabilityGrantId;
  br_allocated_units : Z;
  br_consumed_units : Z;
}.

Record HierarchicalBudget : Type := mkBudget {
  hb_hard_limit : Z;
  hb_reservations : gmap Z BudgetReservation;
}.

Definition budget_new (hard_limit : Z) : HierarchicalBudget := mkBudget hard_limit ∅.

(** [HashMap::values]; every use folds it with an operation that ignores the order. *)
Definition reservations (b : HierarchicalBudget) : list BudgetReservation :=
  snd <$> map_to_list (hb_reservations b).

Definition put (b : HierarchicalBudget) (r : BudgetReservation) : HierarchicalBudget :=
  mkBudget (hb_hard_limit b) (<[br_grant_id r := r]> (hb_reservations b)).

Definition registered (b : HierarchicalBudget) (g : CapabilityGrantId) : bool :=
  is_some (hb_reservations b !! g).

Definition has_root (b : HierarchicalBudget) : bool :=
  any (fun r => is_none (br_parent_grant_id r)) (reservations b).

Definition register_root (b : HierarchicalBudget) (g : CapabilityGrantId) (allocated : Z)
    : result DomainError HierarchicalBudget :=
  if (hb_hard_limit b <? allocated)%Z then Err PolicyViolation else
  if has_root b then Err PolicyViolation else
  if registered b g then Err PolicyViolation else
  Ok (put b (mkReservation g None allocated 0)).

Definition register_root_with_child (b : HierarchicalBudget) (root : CapabilityGrantId) (root_units : Z)
    (child : CapabilityGrantId) (child_units : Z) : result DomainError HierarchicalBudget :=
  if (child_units =? 0)%Z then Err InvalidArgument else
  if (root_units <? child_units)%Z then Err PolicyViolation else
  if root == child then Err PolicyViolation else
  if registered b root || registered b child then Err PolicyViolation else
  if (hb_hard_limit b <? root_units)%Z then Err PolicyViolation else
  if has_root b then Err PolicyViolation else
  Ok (put (put b (mkReservation root None root_units 0)) (mkReservation child (Some root) child_units 0)).

Definition children_reserved (b : HierarchicalBudget) (g : CapabilityGrantId) : Z :=
  foldr (fun r acc => if br_parent_grant_id r == Some g then wrap64 (br_allocated_units r + acc) else acc)
    0%Z (reservations b).

Definition remaining (b : HierarchicalBudget) (g : CapabilityGrantId) : option Z :=
  match hb_reservations b !! g with
  | None => None
  | Some r =>
      let used := saturating_add u64_max (br_consumed_units r) (children_reserved b g) in
      if (used <=? br_allocated_units r)%Z then Some (br_allocated_units r - used)%Z else None
  end.

Definition reserve_child (b : HierarchicalBudget) (parent child : CapabilityGrantId) (units : Z)
    : result DomainError HierarchicalBudget :=
  if (units =? 0)%Z then Err InvalidArgument else
  if registered b child then Err PolicyViolation else
  if match remaining b parent with None => true | Some rest => (rest <? units)%Z end then Err PolicyViolation else
  if negb (registered b parent) then Err NotFound else
  Ok (put b (mkReservation child (Some parent) units 0)).

Definition charge (b : HierarchicalBudget) (g : CapabilityGrantId) (amount : Z)
    : result DomainError HierarchicalBudget :=
  match remaining b g, hb_reservations b !! g with
  | Some rest, Some r =>
      if (rest <? amount)%Z then Err PolicyViolation else
      Ok (mkBudget (hb_hard_limit b)
            (<[g := mkReservation (br_grant_id r) (br_parent_grant_id r) (br_allocated_units r)
                      (wrap64 (br_consumed_units r + amount))]> (hb_reservations b)))
  | _, _ => Err NotFound
  end.

(** ** Delegation *)

Class Chrono : Type := {
  duration_seconds : Z -> option Z;
  checked_add_signed : Timestamp -> Z -> option Timestamp;
}.

(** Documented: [Duration::seconds] panics on more than [i64::MAX] milliseconds, and an addition
    that does not overflow is exact. *)
Class ChronoOk `{!Chrono} : Prop := {
  duration_seconds_spec : forall n,
    duration_seconds n = if (isize_max / 1000 <? Z.abs n)%Z then None else Some (n * 10 ^ 9)%Z;
  checked_add_signed_spec : forall t d u, checked_add_signed t d = Some u -> u = (t + d)%Z;
}.

Inductive DelegationError : Type := DelDomain (e : DomainError) | DelPanic.

Definition DELEGATION_OPERATION : text := text_of "capability.delegate".
Definition MAX_DELEGATION_DEPTH : Z := 8.

Record DelegationContract : Type := mkContract {
  dc_capability : Capability.t;
  dc_resource_scope : text;
  dc_max_depth : Z;
  dc_max_lifetime_seconds : option Z;
  dc_max_risk : RiskCategory;
  dc_max_budget_units : Z;
}.

Definition contract_new (capability : Capability.t) (resource_scope : text) (max_depth : Z)
    (max_lifetime_seconds : option Z) (max_risk : RiskCategory) (max_budget_units : Z)
    : result DomainError DelegationContract :=
  if is_empty (trim resource_scope) then Err InvalidArgument else
  if contains STAR resource_scope then Err PolicyViolation else
  if (max_depth =? 0)%Z || (MAX_DELEGATION_DEPTH <? max_depth)%Z then Err PolicyViolation else
  if match max_lifetime_seconds with Some s => (isize_max <? s)%Z | None => false end then Err InvalidArgument else
  if (max_budget_units =? 0)%Z then Err InvalidArgument else
  Ok (mkContract capability resource_scope max_depth max_lifetime_seconds max_risk max_budget_units).

Record DelegatedCapability : Type := mkDelegated {
  de_grant : CapabilityGrant;
  de_parent_grant_id : CapabilityGrantId;
  de_delegation_grant_id : CapabilityGrantId;
  de_depth : Z;
}.

Section Delegation.
Context `{!Chrono}.

(** [child.valid_until.is_none_or(|until| until > limit)]. *)
Definition outlives (child_until : option Timestamp) (limit : Timestamp) : bool :=
  match child_until with None => true | Some u => (limit <? u)%Z end.

Definition check (b : bool) (e : DomainError) : result DelegationError unit :=
  if b then Err (DelDomain e) else Ok tt.

Definition validate_attenuation (parent permission : CapabilityGrant) (child : CapabilityGrantSpec)
    (contract : DelegationContract) (parent_depth : Z) (at_ : Timestamp) : result DelegationError unit :=
  _ ← check (negb (is_active_at parent at_)) PolicyViolation;
  _ ← check (negb (is_active_at permission at_)) PolicyViolation;
  _ ← check ((gr_capability permission !== Capability.CapabilityDelegate)
             || (gr_operation permission !== DELEGATION_OPERATION)) PolicyViolation;
  _ ← check ((gr_workspace_id parent !== gr_workspace_id permission)
             || (gr_workspace_id parent !== sp_workspace_id child)) PolicyViolation;
  _ ← check ((gr_subject_id permission !== gr_subject_id parent)
             || (sp_issuer_id child !== gr_subject_id parent)) PolicyViolation;
  _ ← check (sp_subject_id child == gr_subject_id parent) PolicyViolation;
  _ ← check (negb (all (fun required => any (fun c => c == required) (sp_conditions child))
                     (gr_conditions parent ++ gr_conditions permission))) PolicyViolation;
  _ ← check ((sp_capability child !== gr_capability parent) || (sp_capability child !== dc_capability contract))
        PolicyViolation;
  _ ← check (negb (selector_is_within (sp_operation child) (gr_operation parent))
             || negb (scope_is_within (sp_resource_scope child) (gr_resource_scope parent))
             || negb (scope_is_within (dc_resource_scope contract) (gr_resource_scope parent))
             || negb (scope_is_within (sp_resource_scope child) (dc_resource_scope contract))
             || negb (scope_is_within (dc_resource_scope contract) (gr_resource_scope permission))) PolicyViolation;
  _ ← check (risk_above (sp_risk_ceiling child) (gr_risk_ceiling parent)
             || risk_above (sp_risk_ceiling child) (dc_max_risk contract)
             || risk_above (sp_risk_ceiling child) (gr_risk_ceiling permission)) PolicyViolation;
  units ← ok_or (sp_budget child) (DelDomain PolicyViolation);
  _ ← check ((dc_max_budget_units contract <? units)%Z
             || match gr_budget permission with
                | Some m => (m <? dc_max_budget_units contract)%Z
                | None => false
                end) PolicyViolation;
  _ ← check ((MAX_DELEGATION_DEPTH <=? parent_depth)%Z || (dc_max_depth contract <? parent_depth + 1)%Z)
        PolicyViolation;
  _ ← check ((sp_valid_from child <? at_)%Z || (sp_valid_from child <? gr_valid_from parent)%Z) PolicyViolation;
  _ ← match gr_valid_until parent with
      | Some u => check (outlives (sp_valid_until child) u) PolicyViolation
      | None => Ok tt
      end;
  _ ← match gr_valid_until permission with
      | Some u => check (outlives (sp_valid_until child) u) PolicyViolation
      | None => Ok tt
      end;
  match dc_max_lifetime_seconds contract with
  | None => Ok tt
  | Some lifetime =>
      lifetime ← ok_or (duration_seconds lifetime) DelPanic;
      max_until ← ok_or (checked_add_signed (sp_valid_from child) lifetime) (DelDomain InvalidArgument);
      check (outlives (sp_valid_until child) max_until) PolicyViolation
  end.

Definition on_domain {A} (r : result DomainError A) : result DelegationError A := map_err DelDomain r.

(** The ledger is an out parameter: the second component is its value after the call, and a call
    that fails leaves it as it was. *)
Definition from_root (parent permission : CapabilityGrant) (child : CapabilityGrantSpec)
    (contract : DelegationContract) (b : HierarchicalBudget) (at_ : Timestamp)
    : result DelegationError (DelegatedCapability * HierarchicalBudget) :=
  let parent_budget := default (dc_max_budget_units contract) (gr_budget parent) in
  _ ← validate_attenuation parent permission child contract 0 at_;
  units ← ok_or (sp_budget child) (DelDomain PolicyViolation);
  _ ← check (parent_budget <? units)%Z PolicyViolation;
  grant ← on_domain (issue child at_);
  b' ← on_domain (register_root_with_child b (gr_id parent) parent_budget (gr_id grant) units);
  Ok (mkDelegated grant (gr_id parent) (gr_id permission) 1, b').

Definition attenuate (parent permission : CapabilityGrant) (child : CapabilityGrantSpec) (parent_depth : Z)
    (b : HierarchicalBudget) (at_ : Timestamp) : result DelegationError (DelegatedCapability * HierarchicalBudget) :=
  units ← ok_or (sp_budget child) (DelDomain PolicyViolation);
  grant ← on_domain (issue child at_);
  b' ← on_domain (reserve_child b (gr_id parent) (sp_id child) units);
  Ok (mkDelegated grant (gr_id parent) (gr_id permission) (parent_depth + 1), b').

Definition delegate (d : DelegatedCapability) (permission : CapabilityGrant) (child : CapabilityGrantSpec)
    (contract : DelegationContract) (b : HierarchicalBudget) (at_ : Timestamp)
    : result DelegationError (DelegatedCapability * HierarchicalBudget) :=
  _ ← validate_attenuation (de_grant d) permission child contract (de_depth d) at_;
  attenuate (de_grant d) permission child (de_depth d) b at_.

End Delegation.
