(* ===== verification/CapabilitySpec.v ===== *)
(** * What grants, delegation and the budget guarantee

    The ledger reached by any sequence of budget operations accounts exactly and never spends more
    than its hard limit; a chain of delegations only narrows the authority of its root. *)

From Stdlib Require Import ZArith Lia String.
From stdpp Require Import base option numbers strings gmap list.
From S2P Require Import Prelude Codec Text RunStatus RunDecider ResourceScope Capability.

(** ** Sums over lists *)

Definition zsum {A} (f : A -> Z) (l : list A) : Z := foldr (fun x acc => (f x + acc)%Z) 0%Z l.

Lemma zsum_perm {A} (f : A -> Z) l l' : l ≡ₚ l' -> zsum f l = zsum f l'.
Proof. unfold zsum. induction 1; simpl; lia. Qed.

Lemma zsum_le {A} (f g : A -> Z) l : (forall x, x ∈ l -> (f x <= g x)%Z) -> (zsum f l <= zsum g l)%Z.
Proof.
  unfold zsum. induction l as [|x l IH]; simpl; [lia|]. intros H.
  pose proof (H x ltac:(apply list_elem_of_here)). pose proof (IH (fun y Hy => H y (list_elem_of_further _ _ _ Hy))). lia.
Qed.

Lemma zsum_ext {A} (f g : A -> Z) l : (forall x, x ∈ l -> f x = g x) -> zsum f l = zsum g l.
Proof. intros H. apply Z.le_antisymm; apply zsum_le; intros x Hx; rewrite (H x Hx); lia. Qed.

Lemma zsum_add {A} (f g : A -> Z) l : zsum (fun x => f x + g x)%Z l = (zsum f l + zsum g l)%Z.
Proof. unfold zsum. induction l as [|x l IH]; simpl; [done|]. rewrite IH. lia. Qed.

Lemma zsum_zero {A} (f : A -> Z) l : (forall x, x ∈ l -> f x = 0%Z) -> zsum f l = 0%Z.
Proof. intros H. rewrite (zsum_ext f (fun _ => 0%Z) l H). clear H. unfold zsum. induction l; simpl; lia. Qed.

Lemma zsum_nonneg {A} (f : A -> Z) l : (forall x, x ∈ l -> (0 <= f x)%Z) -> (0 <= zsum f l)%Z.
Proof. intros H. rewrite <-(zsum_zero (fun _ : A => 0%Z) l) by done. by apply zsum_le. Qed.

Lemma zsum_swap {A B} (f : A -> B -> Z) l l' :
  zsum (fun x => zsum (f x) l') l = zsum (fun y => zsum (fun x => f x y) l) l'.
Proof.
  induction l as [|x l IH]; simpl; [symmetry; by apply zsum_zero|]. rewrite IH, <-zsum_add. done.
Qed.

Lemma zsum_fmap {A B} (f : B -> Z) (g : A -> B) l : zsum f (g <$> l) = zsum (fun x => f (g x)) l.
Proof. induction l as [|x l IH]; [done|]. rewrite fmap_cons. change (f (g x) + zsum f (g <$> l) = f (g x) + zsum (fun x => f (g x)) l)%Z. lia. Qed.

(** A sum with one selected index. *)
Lemma zsum_select `{EqDecision A} (k : A) (v : Z) l :
  NoDup l -> k ∈ l -> zsum (fun x => if eqb (Some k) (Some x) then v else 0%Z) l = v.
Proof.
  induction l as [|x l IH]; [by intros _ ?%not_elem_of_nil|].
  intros [Hx Hl]%NoDup_cons [<-|Hk]%elem_of_cons; simpl.
  - rewrite eqb_refl. rewrite zsum_zero; [lia|]. intros y Hy. case (eqb (Some k) (Some y)) eqn:E; [|done].
    rewrite eqb_true in E. by simplify_eq.
  - rewrite (IH Hl Hk). case (eqb (Some k) (Some x)) eqn:E; [|lia]. rewrite eqb_true in E. by simplify_eq.
Qed.

(** ** The ledger *)

(** What a grant's children reserved, without the wrap of the machine sum. *)
Definition owed_to (g : Z) (r : BudgetReservation) : Z :=
  if br_parent_grant_id r == Some g then br_allocated_units r else 0%Z.

Definition child_units (b : HierarchicalBudget) (g : Z) : Z := zsum (owed_to g) (reservations b).

Definition root_units (r : BudgetReservation) : Z :=
  if is_none (br_parent_grant_id r) then br_allocated_units r else 0%Z.

Definition total_consumed (b : HierarchicalBudget) : Z := zsum br_consumed_units (reservations b).

(** One operation on the ledger, with arguments of their type. *)
Inductive ledger_step (b : HierarchicalBudget) : HierarchicalBudget -> Prop :=
| step_root g units b' :
    in_range u64_max units -> register_root b g units = Ok b' -> ledger_step b b'
| step_root_child root units child child_units b' :
    in_range u64_max units -> in_range u64_max child_units ->
    register_root_with_child b root units child child_units = Ok b' -> ledger_step b b'
| step_child parent child units b' :
    in_range u64_max units -> reserve_child b parent child units = Ok b' -> ledger_step b b'
| step_charge g amount b' :
    in_range u64_max amount -> charge b g amount = Ok b' -> ledger_step b b'.

Definition ledger (b : HierarchicalBudget) : Prop :=
  exists limit, in_range u64_max limit /\ rtc ledger_step (budget_new limit) b.

(** The invariant of the ledger. *)
Record ledger_ok (b : HierarchicalBudget) : Prop := {
  lo_range : forall g r, hb_reservations b !! g = Some r ->
    br_grant_id r = g /\ in_range u64_max (br_allocated_units r) /\ (0 <= br_consumed_units r)%Z;
  lo_fits : forall g r, hb_reservations b !! g = Some r ->
    (br_consumed_units r + child_units b g <= br_allocated_units r)%Z;
  lo_parent : forall g r p, hb_reservations b !! g = Some r -> br_parent_grant_id r = Some p ->
    is_Some (hb_reservations b !! p);
  lo_root : (zsum root_units (reservations b) <= hb_hard_limit b)%Z;
}.

Lemma elem_of_reservations b r :
  r ∈ reservations b <-> exists g, hb_reservations b !! g = Some r.
Proof.
  unfold reservations. rewrite list_elem_of_fmap. split.
  - intros ([g r'] & -> & H). apply elem_of_map_to_list in H. by exists g.
  - intros [g H]. exists (g, r). split; [done|]. by apply elem_of_map_to_list.
Qed.

Lemma reservations_put b r :
  hb_reservations b !! br_grant_id r = None -> reservations (put b r) ≡ₚ r :: reservations b.
Proof. intros H. unfold reservations, put. simpl. by rewrite map_to_list_insert. Qed.

(** Replacing a reservation only swaps its summand. *)
Lemma reservations_update b g r r' :
  hb_reservations b !! g = Some r ->
  exists l, reservations b ≡ₚ r :: l /\
    reservations (mkBudget (hb_hard_limit b) (<[g := r']> (hb_reservations b))) ≡ₚ r' :: l.
Proof.
  intros H. exists (snd <$> map_to_list (delete g (hb_reservations b))).
  unfold reservations. simpl. split.
  - rewrite <-(insert_delete_id _ _ _ H) at 1. rewrite map_to_list_insert; [done|apply lookup_delete_eq].
  - rewrite <-insert_delete_eq. rewrite map_to_list_insert; [done|apply lookup_delete_eq].
Qed.

Lemma child_units_put b r g :
  hb_reservations b !! br_grant_id r = None ->
  child_units (put b r) g = (owed_to g r + child_units b g)%Z.
Proof. intros H. unfold child_units. by rewrite (zsum_perm _ _ _ (reservations_put b r H)). Qed.

Lemma owed_to_nonneg b g r : ledger_ok b -> r ∈ reservations b -> (0 <= owed_to g r)%Z.
Proof.
  intros Hb [k Hk]%elem_of_reservations. apply (lo_range b Hb) in Hk as (_ & [H _] & _).
  unfold owed_to. case_match; lia.
Qed.

Lemma child_units_nonneg b g : ledger_ok b -> (0 <= child_units b g)%Z.
Proof. intros Hb. apply zsum_nonneg. eauto using owed_to_nonneg. Qed.

(** Without overflow the machine sum is the sum. *)
Lemma children_reserved_exact b g :
  ledger_ok b -> (child_units b g <= u64_max)%Z -> children_reserved b g = child_units b g.
Proof.
  intros Hb. unfold children_reserved, child_units.
  assert (Hn : forall r, r ∈ reservations b -> (0 <= owed_to g r)%Z) by eauto using owed_to_nonneg.
  induction (reservations b) as [|r l IH]; [done|]. cbn [zsum foldr]. intros Hle.
  assert (Hr : (0 <= owed_to g r)%Z) by (apply Hn, list_elem_of_here).
  assert (Hl : (0 <= zsum (owed_to g) l)%Z) by (apply zsum_nonneg; intros; by apply Hn, list_elem_of_further).
  fold (zsum (owed_to g) l) in Hle |- *.
  rewrite IH; [|intros; by apply Hn, list_elem_of_further|lia].
  assert (Ho : owed_to g r = if br_parent_grant_id r == Some g then br_allocated_units r else 0%Z) by done.
  destruct (eqb (br_parent_grant_id r) (Some g)); rewrite Ho in *; [|lia].
  unfold wrap64. apply Z.mod_small. unfold u64_max in Hle. lia.
Qed.

Lemma remaining_exact b g r :
  ledger_ok b -> hb_reservations b !! g = Some r ->
  remaining b g = Some (br_allocated_units r - br_consumed_units r - child_units b g)%Z.
Proof.
  intros Hb Hr. unfold remaining. rewrite Hr. cbv zeta.
  pose proof (lo_fits b Hb g r Hr). pose proof (child_units_nonneg b g Hb).
  destruct (lo_range b Hb g r Hr) as (_ & [? ?] & ?).
  rewrite (children_reserved_exact b g Hb) by lia. unfold saturating_add.
  rewrite Z.min_r by lia. destruct (Z.leb_spec (br_consumed_units r + child_units b g) (br_allocated_units r)); [|lia].
  f_equal. lia.
Qed.

Lemma registered_false b g : registered b g = false <-> hb_reservations b !! g = None.
Proof. apply is_some_false. Qed.

Lemma has_root_false b : has_root b = false -> zsum root_units (reservations b) = 0%Z.
Proof.
  unfold has_root, any. intros H. apply zsum_zero. intros r Hr. unfold root_units.
  destruct (is_none (br_parent_grant_id r)) eqn:E; [|done]. exfalso.
  rewrite (proj2 (existsb_exists _ _)) in H; [done|]. exists r. by rewrite <-list_elem_of_In.
Qed.

(** A fresh reservation whose parent has room keeps the ledger. *)
Lemma ledger_ok_put b g parent units :
  ledger_ok b -> hb_reservations b !! g = None -> in_range u64_max units ->
  match parent with
  | None => has_root b = false /\ (units <= hb_hard_limit b)%Z
  | Some p => exists r, hb_reservations b !! p = Some r /\
      (br_consumed_units r + child_units b p + units <= br_allocated_units r)%Z
  end ->
  ledger_ok (put b (mkReservation g parent units 0)).
Proof.
  intros Hb Hg Hu Hp. set (new := mkReservation g parent units 0).
  assert (Hput : forall k, child_units (put b new) k = (owed_to k new + child_units b k)%Z)
    by (intros; by apply child_units_put).
  assert (Hself : child_units (put b new) g = 0%Z).
  { rewrite Hput. assert (Hz : child_units b g = 0%Z).
    { apply zsum_zero. intros r [k Hk]%elem_of_reservations. unfold owed_to.
      case (eqb (br_parent_grant_id r) (Some g)) eqn:E; [|done]. rewrite eqb_true in E.
      destruct (lo_parent b Hb k r g Hk E) as [? ?]. congruence. }
    rewrite Hz. unfold owed_to, new. simpl. case (eqb parent (Some g)) eqn:E; [|done].
    rewrite eqb_true in E. subst. destruct Hp as (r & Hr & _). congruence. }
  split.
  - intros k r. simpl. intros [[<- <-]|[? H]]%lookup_insert_Some; [simpl; split_and!; [done..|lia]|].
    by apply (lo_range b Hb).
  - intros k r. simpl. intros [[<- <-]|[Hne H]]%lookup_insert_Some.
    { rewrite Hself. simpl. destruct Hu. lia. }
    pose proof (lo_fits b Hb k r H). rewrite Hput. unfold owed_to, new. simpl.
    case (eqb parent (Some k)) eqn:E; [|lia]. rewrite eqb_true in E. subst.
    destruct Hp as (r' & Hr' & ?). simplify_eq. lia.
  - intros k r p. simpl. intros [[<- <-]|[Hne H]]%lookup_insert_Some Hpar.
    + simpl in Hpar. subst. destruct Hp as (r' & Hr' & _).
      destruct (base.decide (g = p)) as [->|]; [congruence|]. rewrite lookup_insert_ne by done. eauto.
    + destruct (lo_parent b Hb k r p H Hpar) as [x Hx].
      destruct (base.decide (g = p)) as [->|]; [congruence|]. rewrite lookup_insert_ne by done. eauto.
  - rewrite (zsum_perm _ _ _ (reservations_put b new Hg)). cbn [zsum foldr]. fold (zsum root_units (reservations b)).
    simpl hb_hard_limit. destruct parent as [p|]; unfold root_units at 1, new; simpl.
    + pose proof (lo_root b Hb). lia.
    + destruct Hp as [H0 ?]. rewrite (has_root_false b H0). lia.
Qed.

Lemma ledger_ok_new limit : in_range u64_max limit -> ledger_ok (budget_new limit).
Proof.
  intros [H _]. by split.
Qed.

Lemma ledger_ok_root b g units b' :
  ledger_ok b -> in_range u64_max units -> register_root b g units = Ok b' -> ledger_ok b'.
Proof.
  unfold register_root. intros Hb Hu H. destruct (Z.ltb_spec (hb_hard_limit b) units); [done|].
  destruct (has_root b) eqn:Hr; [done|]. destruct (registered b g) eqn:Hg; [done|]. injection H as <-.
  apply registered_false in Hg. apply ledger_ok_put; [done..|split; [done|lia]].
Qed.

Lemma register_root_child_Ok b root units child cunits b' :
  register_root_with_child b root units child cunits = Ok b' ->
  hb_reservations b !! root = None /\ hb_reservations b !! child = None /\ root <> child /\
  (cunits <= units <= hb_hard_limit b)%Z /\ has_root b = false /\
  b' = put (put b (mkReservation root None units 0)) (mkReservation child (Some root) cunits 0).
Proof.
  unfold register_root_with_child. intros H. destruct (cunits =? 0)%Z; [done|].
  destruct (Z.ltb_spec units cunits); [done|]. destruct (eqb root child) eqn:Hne; [done|]. rewrite eqb_false in Hne.
  destruct (registered b root || registered b child) eqn:Hreg; [done|]. apply orb_false_elim in Hreg as [Hr Hch].
  destruct (Z.ltb_spec (hb_hard_limit b) units); [done|]. destruct (has_root b); [done|]. injection H as <-.
  apply registered_false in Hr, Hch. by split_and!.
Qed.

Lemma ledger_ok_root_child b root units child cunits b' :
  ledger_ok b -> in_range u64_max units -> in_range u64_max cunits ->
  register_root_with_child b root units child cunits = Ok b' -> ledger_ok b'.
Proof.
  intros Hb Hu Hc (Hr & Hch & Hne & [? ?] & Hroot & ->)%register_root_child_Ok.
  apply ledger_ok_put; [by apply ledger_ok_put|simpl; by rewrite lookup_insert_ne|done|].
  eexists. split; [apply lookup_insert_eq|]. simpl. rewrite child_units_put by done.
  assert (Hz : child_units b root = 0%Z); [|unfold owed_to; simpl; rewrite Hz; lia].
  apply zsum_zero. intros r [k Hk]%elem_of_reservations. unfold owed_to.
  case (eqb (br_parent_grant_id r) (Some root)) eqn:E; [|done]. rewrite eqb_true in E.
  destruct (lo_parent b Hb k r root Hk E) as [? ?]. congruence.
Qed.

Lemma reserve_child_Ok b p c units b' :
  reserve_child b p c units = Ok b' ->
  hb_reservations b !! c = None /\ b' = put b (mkReservation c (Some p) units 0) /\ units <> 0%Z /\
  exists rest, remaining b p = Some rest /\ (units <= rest)%Z.
Proof.
  unfold reserve_child. destruct (Z.eqb_spec units 0); [done|]. destruct (registered b c) eqn:Hc; [done|].
  apply registered_false in Hc. destruct (remaining b p) as [rest|]; [|done].
  destruct (Z.ltb_spec rest units); [done|]. destruct (negb _); [done|]. intros [= <-]. eauto 10.
Qed.

Lemma remaining_registered b g rest : remaining b g = Some rest -> exists r, hb_reservations b !! g = Some r.
Proof. unfold remaining. destruct (hb_reservations b !! g); [eauto|done]. Qed.

Lemma ledger_ok_child b p c units b' :
  ledger_ok b -> in_range u64_max units -> reserve_child b p c units = Ok b' -> ledger_ok b'.
Proof.
  intros Hb Hu (Hc & -> & _ & rest & Hrem & Hle)%reserve_child_Ok.
  destruct (remaining_registered b p rest Hrem) as [r Hr].
  rewrite (remaining_exact b p r Hb Hr) in Hrem. apply ledger_ok_put; [done..|]. exists r. split; [done|].
  injection Hrem as <-. lia.
Qed.

(** A charge changes one [consumed_units], by the amount charged. *)
Lemma charge_Ok b g amount b' :
  ledger_ok b -> (0 <= amount)%Z -> charge b g amount = Ok b' ->
  exists r, hb_reservations b !! g = Some r /\
    (amount <= br_allocated_units r - br_consumed_units r - child_units b g)%Z /\
    b' = mkBudget (hb_hard_limit b)
           (<[g := mkReservation (br_grant_id r) (br_parent_grant_id r) (br_allocated_units r)
                     (br_consumed_units r + amount)]> (hb_reservations b)).
Proof.
  intros Hb Ha. unfold charge. destruct (hb_reservations b !! g) as [r|] eqn:Hr; [|by destruct (remaining b g)].
  rewrite (remaining_exact b g r Hb Hr). destruct (lo_range b Hb g r Hr) as (_ & [? ?] & ?).
  pose proof (child_units_nonneg b g Hb).
  destruct (Z.ltb_spec (br_allocated_units r - br_consumed_units r - child_units b g) amount); [done|].
  intros [= <-]. exists r. split; [done|]. split; [lia|]. unfold wrap64, u64_max in *. by rewrite Z.mod_small by lia.
Qed.

Lemma zsum_update {f : BudgetReservation -> Z} b g r r' :
  hb_reservations b !! g = Some r -> f r' = f r ->
  zsum f (reservations (mkBudget (hb_hard_limit b) (<[g := r']> (hb_reservations b)))) = zsum f (reservations b).
Proof.
  intros Hr Hf. destruct (reservations_update b g r r' Hr) as (l & Hl & Hl').
  rewrite (zsum_perm _ _ _ Hl), (zsum_perm _ _ _ Hl'). cbn. by rewrite Hf.
Qed.

Lemma ledger_ok_charge b g amount b' :
  ledger_ok b -> in_range u64_max amount -> charge b g amount = Ok b' -> ledger_ok b'.
Proof.
  intros Hb [Ha _] (r & Hr & Hle & ->)%charge_Ok; [|done..].
  destruct (lo_range b Hb g r Hr) as (Hid & Hrange & Hcons).
  assert (Hsame : forall k, child_units (mkBudget (hb_hard_limit b) (<[g := mkReservation (br_grant_id r)
            (br_parent_grant_id r) (br_allocated_units r) (br_consumed_units r + amount)]> (hb_reservations b))) k
          = child_units b k) by (intros k; by apply (zsum_update b g r)).
  split; simpl.
  - intros k x [[<- <-]|[_ H]]%lookup_insert_Some; [simpl; split_and!; [done..|lia]|by apply (lo_range b Hb)].
  - intros k x. rewrite Hsame. intros [[<- <-]|[_ H]]%lookup_insert_Some; [simpl; lia|by apply (lo_fits b Hb)].
  - intros k x p H Hp. assert (Hs : is_Some (hb_reservations b !! p)).
    { apply lookup_insert_Some in H as [[<- <-]|[_ H]]; by eapply (lo_parent b Hb). }
    apply lookup_insert_is_Some. destruct (base.decide (g = p)); [by left|by right].
  - rewrite (zsum_update b g r) by done. apply (lo_root b Hb).
Qed.

Lemma ledger_ok_step b b' : ledger_ok b -> ledger_step b b' -> ledger_ok b'.
Proof.
  intros Hb [].
  all: eauto using ledger_ok_root, ledger_ok_root_child, ledger_ok_child, ledger_ok_charge.
Qed.

Lemma ledger_invariant b : ledger b -> ledger_ok b.
Proof.
  intros (limit & Hl & Hs). revert Hs. apply rtc_ind_r; [by apply ledger_ok_new|].
  intros; eauto using ledger_ok_step.
Qed.

(** ** Conservation *)

(** Every reservation but the root is counted once among its parent's children. *)
Lemma child_units_total b :
  ledger_ok b ->
  zsum (fun kr => child_units b kr.1) (map_to_list (hb_reservations b))
  = zsum (fun r => br_allocated_units r - root_units r)%Z (reservations b).
Proof.
  intros Hb. unfold child_units. rewrite zsum_swap. apply zsum_ext. intros r [k Hk]%elem_of_reservations.
  unfold owed_to, root_units. destruct (br_parent_grant_id r) as [p|] eqn:Hp; simpl.
  - rewrite <-(zsum_fmap (fun x => if eqb (Some p) (Some x) then br_allocated_units r else 0%Z) fst).
    rewrite zsum_select; [lia|apply NoDup_fst_map_to_list|].
    destruct (lo_parent b Hb k r p Hk Hp) as [x Hx]. apply list_elem_of_fmap. exists (p, x).
    split; [done|]. by apply elem_of_map_to_list.
  - rewrite zsum_zero; [lia|done].
Qed.

Lemma total_consumed_bound b : ledger_ok b -> (total_consumed b <= hb_hard_limit b)%Z.
Proof.
  intros Hb. pose proof (child_units_total b Hb) as Ht. pose proof (lo_root b Hb) as Hroot.
  set (L := map_to_list (hb_reservations b)) in *.
  assert (Hle : (zsum (fun kr => br_consumed_units kr.2 + child_units b kr.1) L
                 <= zsum (fun kr => br_allocated_units kr.2) L)%Z).
  { apply zsum_le. intros [g r] H%elem_of_map_to_list. by apply (lo_fits b Hb). }
  rewrite zsum_add in Hle. unfold total_consumed, reservations in *. rewrite !zsum_fmap in *. fold L in Ht, Hroot |- *.
  assert (Hsplit : zsum (fun kr => br_allocated_units kr.2) L
    = (zsum (fun kr : Z * BudgetReservation => br_allocated_units kr.2 - root_units kr.2) L
       + zsum (fun kr : Z * BudgetReservation => root_units kr.2) L)%Z).
  { rewrite <-zsum_add. apply zsum_ext. intros; lia. }
  lia.
Qed.

(** ** What a grant authorises *)

Lemma failure_reason_None g ws subject q at_ :
  failure_reason g ws subject q at_ = None <->
  gr_workspace_id g = ws /\ gr_subject_id g = subject /\ gr_capability g = aq_capability q /\
  selector_is_within (aq_operation q) (gr_operation g) = true /\
  scope_is_within (aq_resource_scope q) (gr_resource_scope g) = true /\
  gr_status g = GrantActive /\ (gr_valid_from g <= at_)%Z /\
  (forall u, gr_valid_until g = Some u -> (at_ < u)%Z) /\
  (forall m, gr_budget g = Some m -> (aq_requested_budget_units q <= m)%Z) /\
  (risk_rank (effective_risk q) <= risk_rank (gr_risk_ceiling g))%Z /\
  (forall c, c ∈ gr_conditions g -> c ∈ aq_conditions q).
Proof.
  unfold failure_reason. split.
  - intros H.
    repeat match type of H with (if ?x then _ else _) = _ => destruct x eqn:?; [done|] end.
    bool_hyps. unfold risk_above in *. bool_hyps.
    assert (Hc : forall c, c ∈ gr_conditions g -> c ∈ aq_conditions q).
    { intros c Hin. unfold all in *. rewrite forallb_forall in *.
      match goal with Hall : forall x, In x _ -> _ |- _ =>
        specialize (Hall c (proj1 (list_elem_of_In _ _) Hin)); apply existsb_exists in Hall as (x & Hx & Heq) end.
      rewrite eqb_true in Heq. subst. by apply list_elem_of_In. }
    repeat split; try done; try (by destruct (gr_status g)).
    + intros u Hu. rewrite Hu in *. bool_hyps. lia.
    + intros m Hm. rewrite Hm in *. bool_hyps. lia.
  - intros (<- & <- & Hcap & Hop & Hsc & Hst & Hfrom & Huntil & Hbud & Hrisk & Hcond).
    rewrite Hcap, !eqb_refl, Hop, Hsc, Hst. simpl.
    destruct (Z.ltb_spec at_ (gr_valid_from g)); [lia|].
    replace (match gr_valid_until g with Some u => (u <=? at_)%Z | None => false end) with false
      by (destruct (gr_valid_until g) as [u|]; [pose proof (Huntil u eq_refl); symmetry; apply Z.leb_gt; lia|done]).
    replace (match gr_budget g with Some m => (m <? aq_requested_budget_units q)%Z | None => false end) with false
      by (destruct (gr_budget g) as [m|]; [pose proof (Hbud m eq_refl); symmetry; apply Z.ltb_ge; lia|done]).
    unfold risk_above. destruct (Z.ltb_spec (risk_rank (gr_risk_ceiling g)) (risk_rank (effective_risk q))); [lia|].
    replace (all _ (gr_conditions g)) with true; [done|]. symmetry. apply forallb_forall.
    intros c Hin. apply existsb_exists. exists c. split; [|apply eqb_refl].
    by apply list_elem_of_In, Hcond, list_elem_of_In.
Qed.

(** [child] grants no more than [parent]. *)
Record narrower (child parent : CapabilityGrant) : Prop := {
  nw_workspace : gr_workspace_id child = gr_workspace_id parent;
  nw_capability : gr_capability child = gr_capability parent;
  nw_operation : selector_is_within (gr_operation child) (gr_operation parent) = true;
  nw_scope : scope_is_within (gr_resource_scope child) (gr_resource_scope parent) = true;
  nw_risk : (risk_rank (gr_risk_ceiling child) <= risk_rank (gr_risk_ceiling parent))%Z;
  nw_from : (gr_valid_from parent <= gr_valid_from child)%Z;
  nw_until : forall u, gr_valid_until parent = Some u -> exists v, gr_valid_until child = Some v /\ (v <= u)%Z;
  nw_budget : forall m, gr_budget parent = Some m -> exists n, gr_budget child = Some n /\ (n <= m)%Z;
  nw_conditions : forall c, c ∈ gr_conditions parent -> c ∈ gr_conditions child;
}.

#[export] Instance narrower_transitive : Transitive narrower.
Proof.
  intros a b c [] []. split; eauto using scope_within_trans, selector_within_trans; try congruence; try lia.
  - intros u Hu. edestruct nw_until1 as (v & Hv & ?); [done|]. edestruct nw_until0 as (w & Hw & ?); [done|].
    exists w. split; [done|lia].
  - intros u Hu. edestruct nw_budget1 as (v & Hv & ?); [done|]. edestruct nw_budget0 as (w & Hw & ?); [done|].
    exists w. split; [done|lia].
Qed.

(** What a narrower grant authorises, the wider one does for its own subject while it is active. *)
Lemma narrower_authorises child parent ws subject q at_ :
  narrower child parent -> gr_status parent = GrantActive ->
  failure_reason child ws subject q at_ = None ->
  failure_reason parent ws (gr_subject_id parent) q at_ = None.
Proof.
  intros [] Hs. rewrite !failure_reason_None.
  intros (? & ? & ? & ? & ? & ? & ? & Hu & Hb & ? & Hc). split_and!; try congruence; try lia; eauto with vestrace.
  - intros u Hp. destruct (nw_until0 u Hp) as (v & Hv & ?). pose proof (Hu v Hv). lia.
  - intros m Hp. destruct (nw_budget0 m Hp) as (n & Hn & ?). pose proof (Hb n Hn). lia.
Qed.

(** ** Delegation chains *)

Lemma check_Ok b e u : check b e = Ok u <-> b = false.
Proof. destruct b, u; simpl; naive_solver. Qed.

Lemma outlives_false u limit : outlives u limit = false <-> exists v, u = Some v /\ (v <= limit)%Z.
Proof. destruct u as [v|]; simpl; [rewrite Z.ltb_ge|]; naive_solver. Qed.

Section Chains.
Context {CH : Chrono}.

(** What [validate_attenuation] establishes of the child, budget apart. *)
Lemma validate_attenuation_Ok parent permission child contract depth at_ :
  validate_attenuation parent permission child contract depth at_ = Ok tt ->
  gr_status parent = GrantActive /\ gr_workspace_id parent = sp_workspace_id child /\
  sp_subject_id child <> gr_subject_id parent /\ gr_status permission = GrantActive /\
  gr_capability permission = Capability.CapabilityDelegate /\ gr_subject_id permission = gr_subject_id parent /\
  (forall c, c ∈ gr_conditions parent -> c ∈ sp_conditions child) /\
  sp_capability child = gr_capability parent /\
  selector_is_within (sp_operation child) (gr_operation parent) = true /\
  scope_is_within (sp_resource_scope child) (gr_resource_scope parent) = true /\
  (risk_rank (sp_risk_ceiling child) <= risk_rank (gr_risk_ceiling parent))%Z /\
  (depth + 1 <= MAX_DELEGATION_DEPTH)%Z /\ (gr_valid_from parent <= sp_valid_from child)%Z /\
  (forall u, gr_valid_until parent = Some u -> exists v, sp_valid_until child = Some v /\ (v <= u)%Z).
Proof.
  unfold validate_attenuation. intros H.
  repeat match type of H with
  | mbind _ (check _ _) = Ok _ =>
      let Hx := fresh "Hx" in apply bind_Ok in H as ([] & Hx & H); apply check_Ok in Hx
  end.
  apply bind_Ok in H as (units & _ & H).
  repeat match type of H with
  | mbind _ (check _ _) = Ok _ =>
      let Hx := fresh "Hx" in apply bind_Ok in H as ([] & Hx & H); apply check_Ok in Hx
  end.
  apply bind_Ok in H as ([] & Huntil & H). clear H. unfold is_active_at, risk_above in *. bool_hyps.
  assert (Hcond : forall c, c ∈ gr_conditions parent -> c ∈ sp_conditions child).
  { intros c Hc. unfold all in *. rewrite forallb_forall in *.
    match goal with Hall : forall x, In x _ -> _ |- _ =>
      specialize (Hall c); apply existsb_exists in Hall as (x & Hx & Heq) end.
    - rewrite eqb_true in Heq. subst. by apply list_elem_of_In.
    - apply list_elem_of_In, elem_of_app. by left. }
  assert (Hu : forall u, gr_valid_until parent = Some u -> exists v, sp_valid_until child = Some v /\ (v <= u)%Z).
  { intros u E. rewrite E in Huntil. apply check_Ok in Huntil. by apply outlives_false. }
  split_and!; try done; lia.
Qed.

(** The delegations that descend from [root]: its own, those of its delegates, and whatever else
    happens to the ledger meanwhile.  Budgets are of their type. *)
Inductive chain (root : CapabilityGrant) : DelegatedCapability -> HierarchicalBudget -> Prop :=
| chain_root permission spec contract b at_ d b' :
    ledger b -> (forall m, gr_budget root = Some m -> in_range u64_max m) ->
    in_range u64_max (dc_max_budget_units contract) -> (forall m, sp_budget spec = Some m -> in_range u64_max m) ->
    from_root root permission spec contract b at_ = Ok (d, b') -> chain root d b'
| chain_delegate d b permission spec contract at_ d' b' :
    chain root d b -> (forall m, sp_budget spec = Some m -> in_range u64_max m) ->
    delegate d permission spec contract b at_ = Ok (d', b') -> chain root d' b'
| chain_other d b b' : chain root d b -> ledger_step b b' -> chain root d b'.

(** What holds along a chain; the ledger holds the delegated budget. *)
Record chain_ok (root : CapabilityGrant) (d : DelegatedCapability) (b : HierarchicalBudget) : Prop := {
  co_ledger : ledger_ok b;
  co_narrower : narrower (de_grant d) root;
  co_depth : (1 <= de_depth d <= MAX_DELEGATION_DEPTH)%Z;
  co_budget : exists r, hb_reservations b !! gr_id (de_grant d) = Some r /\
    gr_budget (de_grant d) = Some (br_allocated_units r);
}.

Lemma issue_Ok spec at_ g : issue spec at_ = Ok g ->
  g = mkGrant (sp_id spec) (sp_workspace_id spec) (sp_subject_id spec) (sp_issuer_id spec) (sp_capability spec)
        (sp_operation spec) (sp_resource_scope spec) (sp_valid_from spec) (sp_valid_until spec) (sp_budget spec)
        (sp_risk_ceiling spec) (sp_conditions spec) GrantActive at_ None.
Proof.
  unfold issue. destruct (is_empty _); [done|]. intros (s & _ & H)%bind_Ok.
  repeat match type of H with (if ?x then _ else _) = _ => destruct x; [done|] end. congruence.
Qed.

(** An issued child whose budget is within its parent's is narrower. *)
Lemma issued_narrower parent permission spec contract depth at_ g units :
  validate_attenuation parent permission spec contract depth at_ = Ok tt -> issue spec at_ = Ok g ->
  sp_budget spec = Some units -> (forall m, gr_budget parent = Some m -> (units <= m)%Z) ->
  narrower g parent.
Proof.
  intros (_ & Hw & _ & _ & _ & _ & Hc & Hcap & Hop & Hsc & Hr & _ & Hf & Hu)%validate_attenuation_Ok ->%issue_Ok Hb Hle.
  split; simpl; try done. intros m Hm. exists units. split; [done|]. by apply Hle.
Qed.

Lemma from_root_Ok root permission spec contract b at_ d b' :
  from_root root permission spec contract b at_ = Ok (d, b') ->
  exists units, let total := default (dc_max_budget_units contract) (gr_budget root) in
    validate_attenuation root permission spec contract 0 at_ = Ok tt /\ sp_budget spec = Some units /\
    (units <= total)%Z /\ issue spec at_ = Ok (de_grant d) /\ de_depth d = 1%Z /\
    register_root_with_child b (gr_id root) total (gr_id (de_grant d)) units = Ok b'.
Proof.
  unfold from_root. cbv zeta. intros ([] & Hv & (units & Hu & ([] & Hc & (g & Hg & (x & Hx & Heq)%bind_Ok)%bind_Ok)
    %bind_Ok)%bind_Ok)%bind_Ok. simplify_eq. apply ok_or_Ok in Hu. apply check_Ok in Hc. apply map_err_Ok in Hg, Hx.
  bool_hyps. exists units. by simpl.
Qed.

Lemma delegate_Ok d permission spec contract b at_ d' b' :
  delegate d permission spec contract b at_ = Ok (d', b') ->
  exists units, validate_attenuation (de_grant d) permission spec contract (de_depth d) at_ = Ok tt /\
    sp_budget spec = Some units /\ issue spec at_ = Ok (de_grant d') /\ de_depth d' = (de_depth d + 1)%Z /\
    reserve_child b (gr_id (de_grant d)) (sp_id spec) units = Ok b'.
Proof.
  unfold delegate, attenuate.
  intros ([] & Hv & (units & Hu & (g & Hg & (x & Hx & Heq)%bind_Ok)%bind_Ok)%bind_Ok)%bind_Ok.
  simplify_eq. apply ok_or_Ok in Hu. apply map_err_Ok in Hg, Hx. exists units. by simpl.
Qed.

Lemma put_lookup_old b r g r0 :
  hb_reservations b !! br_grant_id r = None -> hb_reservations b !! g = Some r0 ->
  hb_reservations (put b r) !! g = Some r0.
Proof.
  intros Hn Hg. unfold put. simpl. rewrite lookup_insert_ne; [done|]. intros <-. congruence.
Qed.

(** No operation on the ledger changes what a grant was allocated. *)
Lemma ledger_step_allocated b b' g r :
  ledger_ok b -> ledger_step b b' -> hb_reservations b !! g = Some r ->
  exists r', hb_reservations b' !! g = Some r' /\ br_allocated_units r' = br_allocated_units r.
Proof.
  intros Hb [g' units b1 _ H|root units child cunits b1 _ _ H|p c units b1 _ H|g' amount b1 [Ha _] H] Hg.
  - unfold register_root in H. destruct (_ <? _)%Z, (has_root b), (registered b g') eqn:E; try done.
    injection H as <-. apply registered_false in E. eauto using put_lookup_old.
  - apply register_root_child_Ok in H as (Hr & Hc & Hne & _ & _ & ->). exists r. split; [|done].
    apply put_lookup_old; [simpl; by rewrite lookup_insert_ne|]. by apply put_lookup_old.
  - apply reserve_child_Ok in H as (Hc & -> & _). eauto using put_lookup_old.
  - apply charge_Ok in H as (r0 & Hr0 & _ & ->); [|done..]. simpl.
    destruct (base.decide (g' = g)) as [->|]; [rewrite lookup_insert_eq|rewrite lookup_insert_ne by done]; eauto.
    simplify_eq. eauto.
Qed.

Lemma chain_invariant root d b : chain root d b -> chain_ok root d b.
Proof.
  induction 1 as [permission spec contract b at_ d b' Hl Hm Hc Hs H
    |d b permission spec contract at_ d' b' _ [Hb Hn Hd (r & Hr & Hbud)] Hs H|d b b' _ [Hb Hn Hd (r & Hr & Hbud)] Hstep].
  - apply from_root_Ok in H as (units & Hv & Hu & Hle & Hi & Hdep & Hreg).
    assert (Hout : in_range u64_max (default (dc_max_budget_units contract) (gr_budget root)))
      by (destruct (gr_budget root); simpl; auto).
    split.
    + eauto using ledger_ok_root_child, ledger_invariant.
    + eapply issued_narrower; try done. intros m E. rewrite E in Hle. done.
    + rewrite Hdep. unfold MAX_DELEGATION_DEPTH. lia.
    + apply register_root_child_Ok in Hreg as (_ & _ & _ & _ & _ & ->). eexists. split; [apply lookup_insert_eq|].
      apply issue_Ok in Hi. by rewrite Hi.
  - apply delegate_Ok in H as (units & Hv & Hu & Hi & Hdep & Hres).
    assert (Hb' : ledger_ok b') by eauto using ledger_ok_child.
    apply reserve_child_Ok in Hres as (_ & Hput & _ & rest & Hrem & Hle).
    rewrite (remaining_exact b _ r Hb Hr) in Hrem. injection Hrem as Hrest.
    pose proof (child_units_nonneg b (gr_id (de_grant d)) Hb). destruct (lo_range b Hb _ r Hr) as (_ & _ & ?).
    split; [done| | |].
    + transitivity (de_grant d); [|done]. eapply issued_narrower; try done.
      intros m E. rewrite Hbud in E. injection E as <-. lia.
    + apply validate_attenuation_Ok in Hv. rewrite Hdep. destruct Hv as (_ & _ & _ & _ & _ & _ & _ & _ & _ & _ & _ & ? & _). lia.
    + apply issue_Ok in Hi. exists (mkReservation (sp_id spec) (Some (gr_id (de_grant d))) units 0).
      rewrite Hput, Hi. simpl. by rewrite lookup_insert_eq.
  - split; [by eapply ledger_ok_step|done..|].
    destruct (ledger_step_allocated b b' _ r Hb Hstep Hr) as (r' & Hr' & Heq). exists r'. split; [done|]. congruence.
Qed.

(** A chain starts at an active grant. *)
Lemma chain_root_active root d b : chain root d b -> gr_status root = GrantActive.
Proof.
  induction 1 as [permission spec contract b at_ d b' Hl Hm Hc Hs H| |]; [|done..].
  apply from_root_Ok in H as (units & Hv & _). by apply validate_attenuation_Ok in Hv as [? _].
Qed.

(** Revoking a grant turns what it authorised into a refusal for being revoked. *)
Lemma revoked_refuses g g' ws subject q at_ t :
  revoke g t = Ok g' -> failure_reason g ws subject q at_ = None ->
  failure_reason g' ws subject q at_ = Some PolicyDecisionReason.Revoked.
Proof.
  unfold revoke. destruct (_ == _); [done|]. intros [= <-]. unfold failure_reason. simpl.
  repeat (case_match; [done|]). done.
Qed.

(** C12.  A delegated capability never exceeds the grant at the root of its chain.  Take the root as it stands now,
    unchanged since the first delegation or revoked at some time.  Whenever a grant obtained from it by any number
    of delegations authorises a request of its own subject, the root grants the same request at the same instant
    when it is put in the name of the root's subject, unless the root has been revoked, and then that is the reason
    it is refused (a revocation of the root is not inherited by its delegates); and the chain is at most eight
    delegations deep. *)
Theorem delegation_attenuates (root root' : CapabilityGrant) (d : DelegatedCapability) (b : HierarchicalBudget)
    (ws : WorkspaceId) (subject : PrincipalId) (q : AuthorizationRequest) (at_ : Timestamp) :
  chain root d b -> root' = root \/ (exists t, revoke root t = Ok root') ->
  failure_reason (de_grant d) ws subject q at_ = None ->
  failure_reason root' ws (gr_subject_id root') q at_ =
    (if gr_status root' == GrantRevoked then Some PolicyDecisionReason.Revoked else None) /\
  (1 <= de_depth d <= MAX_DELEGATION_DEPTH)%Z.
Proof.
  intros Hch Hroot Hf. pose proof (chain_root_active _ _ _ Hch) as Hs. destruct (chain_invariant _ _ _ Hch) as [_ Hn Hd _].
  split; [|done]. pose proof (narrower_authorises _ _ _ _ _ _ Hn Hs Hf) as Hr.
  destruct Hroot as [->|[t Ht]]; [by rewrite Hs|].
  assert (gr_status root' = GrantRevoked /\ gr_subject_id root' = gr_subject_id root) as [-> ->].
  { unfold revoke in Ht. destruct (_ == _); [done|]. by injection Ht as <-. }
  rewrite eqb_refl. by eapply revoked_refuses.
Qed.

(** The same contract without its lifetime. *)
Definition without_lifetime (c : DelegationContract) : DelegationContract :=
  mkContract (dc_capability c) (dc_resource_scope c) (dc_max_depth c) None (dc_max_risk c) (dc_max_budget_units c).

(** A lifetime [DelegationContract::new] accepts can still be out of the range of a duration: validating a
    delegation that is otherwise in order then panics. *)
Theorem accepted_lifetime_panics {CO : ChronoOk} (parent permission : CapabilityGrant) (spec : CapabilityGrantSpec)
    (contract : DelegationContract) capability scope max_depth (lifetime : Z) risk units (depth : Z) (at_ : Timestamp) :
  contract_new capability scope max_depth (Some lifetime) risk units = Ok contract -> (isize_max / 1000 < lifetime)%Z ->
  validate_attenuation parent permission spec (without_lifetime contract) depth at_ = Ok tt ->
  validate_attenuation parent permission spec contract depth at_ = Err DelPanic.
Proof.
  intros Hnew Hr H. assert (Hl : dc_max_lifetime_seconds contract = Some lifetime).
  { unfold contract_new in Hnew. repeat (case_match; [done|]). by injection Hnew as <-. }
  unfold validate_attenuation, without_lifetime in *. cbn [dc_capability dc_resource_scope dc_max_depth
    dc_max_lifetime_seconds dc_max_risk dc_max_budget_units] in H.
  repeat (apply bind_Ok in H as (? & Hx & H); rewrite Hx; clear Hx; cbn [mbind result_bind]).
  rewrite Hl, duration_seconds_spec. destruct (Z.ltb_spec (isize_max / 1000) (Z.abs lifetime)); [done|lia].
Qed.

End Chains.

(** C19.  The hierarchical budget is conserved: after any sequence of registrations, reservations and charges the
    units consumed over all grants stay within the hard limit, and what [remaining] answers for a grant is exactly
    its allocation less what it consumed and what its children reserved, so the 64-bit sums never wrap and the
    subtraction never fails. *)
Theorem budget_is_conserved (b : HierarchicalBudget) :
  ledger b ->
  (total_consumed b <= hb_hard_limit b)%Z /\
  forall g r, hb_reservations b !! g = Some r ->
    remaining b g = Some (br_allocated_units r - br_consumed_units r - child_units b g)%Z.
Proof.
  intros Hb%ledger_invariant. split; [by apply total_consumed_bound|]. intros. by apply remaining_exact.
Qed.

(** Resource scopes round trip: the parser answers a scope on its printed text and on no other text, and it
    answers exactly the well-formed scopes. *)
Theorem scope_roundtrip (v : text) (s : ResourceScope) : scope_parse v = Ok s <-> v = scope_text s /\ scope_wf s.
Proof. apply scope_parse_exact. Qed.

Lemma match_grant_spec ws subject q at_ grants first :
  match match_grant ws subject q at_ first grants with
  | inl id => exists before g after, grants = before ++ g :: after /\ gr_id g = id /\
      failure_reason g ws subject q at_ = None /\
      Forall (fun g => failure_reason g ws subject q at_ <> None) before
  | inr _ => Forall (fun g => failure_reason g ws subject q at_ <> None) grants
  end.
Proof.
  revert first. induction grants as [|g grants IH]; intros first; simpl; [done|].
  destruct (failure_reason g ws subject q at_) as [reason|] eqn:E; [|by exists [], g, grants].
  specialize (IH (match first with None => Some reason | f => f end)).
  destruct (match_grant _ _ _ _ _ grants) as [id|].
  - destruct IH as (before & g' & after & -> & Hid & Hf & Hb). exists (g :: before), g', after.
    split_and!; try done. constructor; [congruence|done].
  - constructor; [congruence|done].
Qed.

(** The decision on a request, and what it records of it. *)
Lemma evaluate_spec id ws subject version q grants at_ d :
  evaluate_capability_grants id ws subject version q grants at_ = Ok d ->
  pd_id d = id /\ pd_workspace_id d = ws /\ pd_subject_id d = subject /\ pd_capability d = aq_capability q /\
  pd_operation d = aq_operation q /\ pd_resource_scope d = aq_resource_scope q /\ pd_decided_at d = at_ /\
  (is_allowed d = true <-> exists g, g ∈ grants /\ failure_reason g ws subject q at_ = None) /\
  (is_allowed d = true -> exists before g after, grants = before ++ g :: after /\ pd_matched_grant_id d = Some (gr_id g) /\
     failure_reason g ws subject q at_ = None /\ Forall (fun g => failure_reason g ws subject q at_ <> None) before).
Proof.
  unfold evaluate_capability_grants. destruct (is_empty _); [done|]. destruct (is_empty _); [done|].
  intros (s & _ & [= <-])%bind_Ok.
  pose proof (match_grant_spec ws subject q at_ grants None) as H.
  destruct (match_grant ws subject q at_ None grants) as [gid|f]; simpl; split_and!; try done.
  - destruct H as (before & g & after & -> & _ & Hf & _). split; [|done]. intros _. exists g. split; [|done].
    apply elem_of_app. right. by left.
  - destruct H as (before & g & after & -> & <- & Hf & Hb). intros _. by exists before, g, after.
  - split; [done|]. intros (g & Hg & Hf). rewrite Forall_forall in H. by apply H in Hg.
Qed.

(** ** A chain of two delegations *)

Module CapabilityExample.

Local Open Scope Z_scope.

Definition chrono : Chrono := {|
  duration_seconds n := if (isize_max / 1000 <? Z.abs n)%Z then None else Some (n * 10 ^ 9)%Z;
  checked_add_signed t d := Some (t + d)%Z;
|}.

Lemma chrono_ok : @ChronoOk chrono.
Proof. split; [done|]. simpl. congruence. Qed.

Definition spec (id subject issuer : Z) (capability : Capability.t) (operation scope : string) (units : Z)
    : CapabilityGrantSpec :=
  mkGrantSpec id 1 subject issuer capability (text_of operation) (text_of scope) 100 (Some 900) (Some units) High [].

Definition issued (s : CapabilityGrantSpec) : CapabilityGrant :=
  mkGrant (sp_id s) (sp_workspace_id s) (sp_subject_id s) (sp_issuer_id s) (sp_capability s)
    (sp_operation s) (sp_resource_scope s) (sp_valid_from s) (sp_valid_until s) (sp_budget s)
    (sp_risk_ceiling s) (sp_conditions s) GrantActive 100 None.

Definition root : CapabilityGrant := issued (spec 1 10 9 Capability.MemoryWrite "memory.write" "memory://" 50).
Definition permission (id subject : Z) : CapabilityGrant :=
  issued (spec id subject 9 Capability.CapabilityDelegate "capability.delegate" "memory://" 60).
Definition contract (scope : string) (lifetime : option Z) : DelegationContract :=
  mkContract Capability.MemoryWrite (text_of scope) 4 lifetime High 40.
Definition child_spec : CapabilityGrantSpec :=
  spec 2 20 10 Capability.MemoryWrite "memory.write" "memory://7" 30.
Definition grandchild_spec : CapabilityGrantSpec :=
  spec 3 30 20 Capability.MemoryWrite "memory.write.title" "memory://7/title" 12.

Definition child : DelegatedCapability := mkDelegated (issued child_spec) 1 4 1.
Definition grandchild : DelegatedCapability := mkDelegated (issued grandchild_spec) 2 5 2.

Definition ledger1 : HierarchicalBudget :=
  put (put (budget_new 70) (mkReservation 1 None 50 0)) (mkReservation 2 (Some 1) 30 0).
Definition ledger2 : HierarchicalBudget := put ledger1 (mkReservation 3 (Some 2) 12 0).

Lemma child_delegated :
  @from_root chrono root (permission 4 10) child_spec (contract "memory://" (Some 500)) (budget_new 70) 100 = Ok (child, ledger1).
Proof. vm_compute. reflexivity. Qed.

Lemma grandchild_delegated :
  @delegate chrono child (permission 5 20) grandchild_spec (contract "memory://7" None) ledger1 100 = Ok (grandchild, ledger2).
Proof. vm_compute. reflexivity. Qed.

Lemma ledger_start : ledger (budget_new 70).
Proof. exists 70%Z. split; [done|apply rtc_refl]. Qed.

Lemma ledger_two : ledger ledger2.
Proof.
  exists 70%Z. split; [done|]. eapply rtc_l; [apply (step_root_child _ 1 50 2 30 ledger1); try done; vm_compute; reflexivity|].
  eapply rtc_l; [apply (step_child _ 2 3 12 ledger2); try done; vm_compute; reflexivity|apply rtc_refl].
Qed.

Lemma grandchild_chain : @chain chrono root grandchild ledger2.
Proof.
  eapply chain_delegate; [eapply chain_root; [apply ledger_start| | | |exact child_delegated]|
    |exact grandchild_delegated]; simpl; try done; by intros m [= <-].
Qed.

(** A request of the last delegate. *)
Definition request : AuthorizationRequest :=
  mkRequest Capability.MemoryWrite (text_of "memory.write.title") (text_of "memory://7/title/en") Medium Low 12 [].

End CapabilityExample.

Import CapabilityExample.

(** Revoking the root of a chain denies the root's own requests and leaves its delegates authorised. *)
Theorem revocation_is_not_inherited :
  @chain chrono root grandchild ledger2 /\
  exists revoked, revoke root 200 = Ok revoked /\
    failure_reason revoked 1 10 request 300 = Some PolicyDecisionReason.Revoked /\
    exists d, evaluate_capability_grants 77 1 30 (text_of "v1") request [revoked; de_grant grandchild] 300 = Ok d /\
      is_allowed d = true /\ pd_matched_grant_id d = Some 3%Z.
Proof.
  split; [exact grandchild_chain|]. eexists. split; [reflexivity|]. split; [vm_compute; reflexivity|].
  eexists. split; [vm_compute; reflexivity|]. by vm_compute.
Qed.

(** The root as it was delegated from and after its revocation. *)
Definition root_revoked : CapabilityGrant := match revoke root 200 with Ok g => g | Err _ => root end.

(** The theorem at the second delegation of the chain. *)
Lemma delegation_attenuates_at_grandchild :
  failure_reason root 1 10 request 300 = None /\
  failure_reason root_revoked 1 10 request 300 = Some PolicyDecisionReason.Revoked /\
  (1 <= de_depth grandchild <= MAX_DELEGATION_DEPTH)%Z.
Proof.
  destruct (@delegation_attenuates chrono root root grandchild ledger2 1 30 request 300) as [H1 Hd];
    [exact grandchild_chain|left; reflexivity|vm_compute; reflexivity|].
  destruct (@delegation_attenuates chrono root root_revoked grandchild ledger2 1 30 request 300) as [H2 _];
    [exact grandchild_chain|right; exists 200%Z; reflexivity|vm_compute; reflexivity|].
  split; [exact H1|]. split; [exact H2|exact Hd].
Defined.

(** The theorem at a lifetime of [i64::MAX] seconds. *)
Lemma accepted_lifetime_panics_at_max :
  @validate_attenuation chrono root (permission 4 10) child_spec (contract "memory://" (Some isize_max)) 0 100 = Err DelPanic.
Proof.
  apply (@accepted_lifetime_panics chrono chrono_ok root (permission 4 10) child_spec (contract "memory://" (Some isize_max))
           Capability.MemoryWrite (text_of "memory://") 4 isize_max High 40 0 100);
    [vm_compute; reflexivity|reflexivity|vm_compute; reflexivity].
Defined.

(** The theorem on the ledger of the chain. *)
Lemma budget_is_conserved_at_chain :
  (total_consumed ledger2 <= 70)%Z /\ remaining ledger2 2 = Some 18%Z.
Proof.
  destruct (budget_is_conserved ledger2 ledger_two) as [H1 H2]. split; [exact H1|].
  rewrite (H2 2%Z (mkReservation 2 (Some 1%Z) 30 0) eq_refl). vm_compute. reflexivity.
Defined.
