(* ===== verification/PolicyEngine.v ===== *)
(** * Policy engines

    [crates/vestrace-application/src/security/{policy_engine,grant_store}.rs] and
    [crates/vestrace-infrastructure/src/postgres/capability_grant_repository.rs]: the engines behind
    the authorization boundary and the table of durable grants.  The minted decision identifier and
    the clock are arguments.  Columns of [capability_grants] that no statement reads are not kept. *)

From Stdlib Require Import ZArith Lia String.
From stdpp Require Import base option numbers strings gmap sorting list.
From S2P Require Import Prelude Codec Crypto Text RunStatus RunDecider AgentRun RunReplay RunPorts RunStore WorkQueue.
From S2P Require Import PgRunStore ResourceScope Capability CapabilitySpec.

(** ** Engines *)

(** [GrantPolicyEngine::decide]. *)
Definition grant_decide (policy_version : text) (grants : list CapabilityGrant) (ctx : RequestContext)
    (q : AuthorizationRequest) (id : PolicyDecisionId) (now : Timestamp) : result ApplicationError PolicyDecision :=
  from_domain (evaluate_capability_grants id (rc_workspace_id ctx) (rc_principal_id ctx) policy_version q grants now).

(** [DenyAllPolicyEngine::decide]. *)
Definition deny_all_decide (ctx : RequestContext) (q : AuthorizationRequest) (id : PolicyDecisionId) (now : Timestamp)
    : result ApplicationError PolicyDecision :=
  grant_decide (text_of "deny-all") [] ctx q id now.

(** [BudgetPolicyEngine::decide]: an allowed request that asks for units charges the matched grant. *)
Definition budget_decide (policy_version : text) (grants : list CapabilityGrant) (ctx : RequestContext)
    (q : AuthorizationRequest) (id : PolicyDecisionId) (now : Timestamp) (b : HierarchicalBudget)
    : result ApplicationError PolicyDecision * HierarchicalBudget :=
  match grant_decide policy_version grants ctx q id now with
  | Err e => (Err e, b)
  | Ok d =>
      if is_allowed d && (0 <? aq_requested_budget_units q)%Z then
        let refused :=
          mkDecision (pd_id d) (pd_policy_id d) (pd_policy_version d) (pd_workspace_id d) (pd_subject_id d)
            (pd_capability d) (pd_operation d) (pd_resource_scope d) Deny PolicyDecisionReason.BudgetExceeded
            (pd_input_state d) None (pd_decided_at d) in
        match pd_matched_grant_id d with
        | None => (Ok refused, b)
        | Some g =>
            match charge b g (aq_requested_budget_units q) with
            | Ok b' => (Ok d, b')
            | Err _ => (Ok refused, b)
            end
        end
      else (Ok d, b)
  end.

Record ConfiguredCapabilities : Type := mkConfigured {
  cf_policy_version : text;
  cf_capabilities : list Capability.t;
  cf_risk_ceiling : RiskCategory;
}.

(** [ConfiguredCapabilityPolicyEngine::decide]. *)
Definition configured_decide (c : ConfiguredCapabilities) (ctx : RequestContext) (q : AuthorizationRequest)
    (id : PolicyDecisionId) (now : Timestamp) : PolicyDecision :=
  let decision res reason :=
    mkDecision id None (cf_policy_version c) (rc_workspace_id ctx) (rc_principal_id ctx) (aq_capability q)
      (aq_operation q) (aq_resource_scope q) res reason
      (input_from_request (rc_workspace_id ctx) (rc_principal_id ctx) q) None now in
  match cf_capabilities c with
  | [] => decision Deny PolicyDecisionReason.DefaultDeny
  | _ =>
      if negb (any (fun x => x == aq_capability q) (cf_capabilities c))
      then decision Deny PolicyDecisionReason.CapabilityMismatch else
      if risk_above (effective_risk q) (cf_risk_ceiling c) then decision Deny PolicyDecisionReason.RiskExceedsCeiling
      else decision Allow PolicyDecisionReason.ConfiguredAllowance
  end.

(** [AuthorizationBoundary::require] on an engine's decision. *)
Definition require_allowed (d : PolicyDecision) : result ApplicationError PolicyDecision :=
  if is_allowed d then Ok d else Err AppPolicy.

(** ** Stored grants *)

Definition status_name (s : CapabilityGrantStatus) : string :=
  match s with GrantActive => "active" | GrantRevoked => "revoked" end.

Section Grants.
Context {J : Type} {SG : Serde J CapabilityGrant}.

Record GrantRow : Type := mkGrantRow {
  gw_workspace_id : WorkspaceId;
  gw_subject_id : PrincipalId;
  gw_status : string;
  gw_created_at : Timestamp;
  gw_revoked_at : option Timestamp;
  gw_payload : J;
}.

Abbreviation Grants := (gmap Z GrantRow).

Definition decode_grant (row : GrantRow) : result ApplicationError CapabilityGrant :=
  g ← ok_or (from_value (gw_payload row)) AppStorage;
  if negb (String.eqb (status_name (gr_status g)) (gw_status row)) then Err AppStorage else
  if gr_subject_id g !== gw_subject_id row then Err AppStorage else Ok g.

(** The check constraints on the columns: a revocation is complete, the interval is ordered and a
    budget is positive. *)
Definition grant_checks (g : CapabilityGrant) : bool :=
  (is_some (gr_revoked_at g) == (gr_status g == GrantRevoked))
  && match gr_valid_until g with Some u => (gr_valid_from g <? u)%Z | None => true end
  && match gr_budget g with Some m => (0 <? m)%Z | None => true end.

Definition insert_grant (ctx : RequestContext) (g : CapabilityGrant) (t : Grants)
    : result ApplicationError unit * Grants :=
  if gr_workspace_id g !== rc_workspace_id ctx then (Err AppPolicy, t) else
  if match gr_budget g with Some m => (isize_max <? m)%Z | None => false end then (Err AppStorage, t) else
  if is_some (t !! gr_id g) || negb (grant_checks g) then (Err AppStorage, t) else
  (Ok tt, <[gr_id g := mkGrantRow (rc_workspace_id ctx) (gr_subject_id g) (status_name (gr_status g)) (gr_created_at g)
                         (gr_revoked_at g) (to_value g)]> t).

(** [ORDER BY created_at ASC, id ASC]. *)
Definition grant_before (a b : Z * GrantRow) : Prop :=
  (gw_created_at a.2 < gw_created_at b.2 \/ gw_created_at a.2 = gw_created_at b.2 /\ a.1 <= b.1)%Z.

#[export] Instance grant_before_dec a b : Decision (grant_before a b).
Proof. unfold grant_before. apply _. Defined.

Definition active_row (ws : WorkspaceId) (subject : PrincipalId) (r : GrantRow) : bool :=
  (gw_workspace_id r == ws) && (gw_subject_id r == subject) && String.eqb (gw_status r) "active".

Fixpoint decode_grants (rows : list (Z * GrantRow)) : result ApplicationError (list CapabilityGrant) :=
  match rows with
  | [] => Ok []
  | r :: rest => g ← decode_grant r.2; gs ← decode_grants rest; Ok (g :: gs)
  end.

Definition active_for_subject (ctx : RequestContext) (subject : PrincipalId) (t : Grants)
    : result ApplicationError (list CapabilityGrant) :=
  decode_grants (merge_sort grant_before
    (List.filter (fun kr => active_row (rc_workspace_id ctx) subject kr.2) (map_to_list t))).

Definition save_revocation (ctx : RequestContext) (g : CapabilityGrant) (t : Grants)
    : result ApplicationError unit * Grants :=
  if (gr_status g !== GrantRevoked) || is_none (gr_revoked_at g) then (Err AppPolicy, t) else
  match opt_filter (fun r => (gw_workspace_id r == rc_workspace_id ctx) && String.eqb (gw_status r) "active") (t !! gr_id g) with
  | None => (Err AppConflict, t)
  | Some r =>
      (Ok tt, <[gr_id g := mkGrantRow (gw_workspace_id r) (gw_subject_id r) "revoked" (gw_created_at r)
                             (gr_revoked_at g) (to_value g)]> t)
  end.

(** [StoredGrantPolicyEngine::decide]: the subject is the principal of the context. *)
Definition stored_decide (policy_version : text) (ctx : RequestContext) (q : AuthorizationRequest)
    (id : PolicyDecisionId) (now : Timestamp) (t : Grants) : result ApplicationError PolicyDecision :=
  grants ← active_for_subject ctx (rc_principal_id ctx) t;
  grant_decide policy_version grants ctx q id now.

(** ** What the engines answer *)

Lemma decode_grants_elem rows gs g :
  decode_grants rows = Ok gs -> g ∈ gs -> exists kr, kr ∈ rows /\ decode_grant kr.2 = Ok g.
Proof.
  revert gs. induction rows as [|r rows IH]; intros gs; simpl; [intros [= <-] ?%not_elem_of_nil; done|].
  intros (g0 & Hg & (gs' & Hgs & [= <-])%bind_Ok)%bind_Ok [->|Hin]%elem_of_cons.
  - exists r. split; [by left|done].
  - destruct (IH gs' Hgs Hin) as (kr & Hkr & Hd). exists kr. split; [by right|done].
Qed.

Lemma active_for_subject_elem ctx subject t gs g :
  active_for_subject ctx subject t = Ok gs -> g ∈ gs ->
  exists id row, t !! id = Some row /\ active_row (rc_workspace_id ctx) subject row = true /\ decode_grant row = Ok g.
Proof.
  intros Ha Hin. destruct (decode_grants_elem _ _ _ Ha Hin) as ([id row] & Hkr & Hd).
  rewrite merge_sort_Permutation in Hkr. apply list_elem_of_In, filter_In in Hkr as [Hkr Hact].
  exists id, row. split_and!; [|done|done]. by apply elem_of_map_to_list, list_elem_of_In.
Qed.

(** An allowed decision of the stored engine rests on a stored grant in force for its subject. *)
Lemma stored_decide_allowed version ctx q id now t d :
  stored_decide version ctx q id now t = Ok d ->
  pd_id d = id /\ pd_workspace_id d = rc_workspace_id ctx /\ pd_subject_id d = rc_principal_id ctx /\
  pd_capability d = aq_capability q /\ pd_operation d = aq_operation q /\ pd_resource_scope d = aq_resource_scope q /\
  pd_decided_at d = now /\
  (is_allowed d = true -> exists gid row g, t !! gid = Some row /\ decode_grant row = Ok g /\
     pd_matched_grant_id d = Some (gr_id g) /\
     failure_reason g (rc_workspace_id ctx) (rc_principal_id ctx) q now = None).
Proof.
  unfold stored_decide, grant_decide. intros (gs & Hgs & Hd)%bind_Ok. apply map_err_Ok, evaluate_spec in Hd.
  destruct Hd as (? & ? & ? & ? & ? & ? & ? & _ & Hm). split_and!; try done.
  intros Ha. destruct (Hm Ha) as (before & g & after & -> & Hid & Hf & _).
  destruct (active_for_subject_elem ctx (rc_principal_id ctx) t _ g Hgs) as (gid & row & Hrow & _ & Hdec).
  { apply elem_of_app. right. by left. }
  by exists gid, row, g.
Qed.

End Grants.
Arguments GrantRow J : clear implicits.

(** The budget engine moves the ledger by operations of the ledger only, and by nothing on a refusal. *)
Lemma budget_decide_ledger version grants ctx q id now b d b' :
  budget_decide version grants ctx q id now b = (Ok d, b') -> in_range u64_max (aq_requested_budget_units q) ->
  ledger b -> ledger b' /\ (is_allowed d = false -> b' = b).
Proof.
  unfold budget_decide. destruct (grant_decide version grants ctx q id now) as [d0|]; [|done].
  intros H Hq Hled.
  destruct (is_allowed d0) eqn:Ha, (0 <? aq_requested_budget_units q)%Z; simpl in H;
    try by (injection H as <- <-; split).
  destruct (pd_matched_grant_id d0) as [g|]; [|injection H as <- <-; split; [done|intros; done]].
  destruct (charge b g (aq_requested_budget_units q)) as [b1|] eqn:Hc; injection H as <- <-; [|split; [done|intros; done]].
  split; [|intros; congruence]. destruct Hled as (limit & Hl & Hs). exists limit. split; [done|].
  eapply rtc_r; [exact Hs|]. exact (step_charge b g _ b1 Hq Hc).
Qed.
