(* ===== verification/ExternalEffects.v ===== *)
(** * External effects

    [crates/vestrace-domain/src/external_effects.rs]: the immutable intent, its authorization, the
    dispatch through an adapter, the receipt, and the reconciliation of an outcome nobody knows.
    Identifiers the code mints are arguments; an adapter is a trait object, hence the answer of its
    [dispatch] is an argument too.  [uuid::Uuid::parse_str] is a parameter. *)

From Stdlib Require Import ZArith Lia String.
From stdpp Require Import base option numbers strings list.
From S2P Require Import Prelude Codec Text RunStatus RunDecider AgentRun RunReplay RunPorts ResourceScope Capability.

Abbreviation ExternalReconciliationId := Uuid (only parsing).

Inductive DeliverySemantics : Type := AtMostOnce | AtLeastOnce | EffectivelyOnce | DeliveryUnknown.
Inductive IdempotencyProfile : Type := IdempotencyNone | ProviderKey | Conditional | IdempotencyUnknown.
Inductive EffectReversibility : Type := Reversible | Compensatable | Irreversible | ReversibilityUnknown.
Inductive DryRunMode : Type := Native | Simulated | Unsupported.

#[export] Instance DeliverySemantics_eq_dec : EqDecision DeliverySemantics.
Proof. solve_decision. Defined.
#[export] Instance IdempotencyProfile_eq_dec : EqDecision IdempotencyProfile.
Proof. solve_decision. Defined.
#[export] Instance EffectReversibility_eq_dec : EqDecision EffectReversibility.
Proof. solve_decision. Defined.
#[export] Instance DryRunMode_eq_dec : EqDecision DryRunMode.
Proof. solve_decision. Defined.

Record EffectPrecondition : Type := mkPrecondition { ep_name : text; ep_expected_value : text }.

#[export] Instance EffectPrecondition_eq_dec : EqDecision EffectPrecondition.
Proof. solve_decision. Defined.

Definition precondition_new (name expected_value : text) : result DomainError EffectPrecondition :=
  if is_empty (trim name) || is_empty (trim expected_value) then Err InvalidArgument else
  Ok (mkPrecondition name expected_value).

(** ** Adapters *)

Record ExternalEffectAdapterDescriptor : Type := mkDescriptor {
  ds_name : text;
  ds_dispatch_timeout : option Z;
  ds_delivery_semantics : DeliverySemantics;
  ds_idempotency_profile : IdempotencyProfile;
  ds_reversibility : EffectReversibility;
  ds_dry_run : DryRunMode;
  ds_supports_reconciliation : bool;
  ds_supports_read_back : bool;
  ds_required_capability : Capability.t;
}.

Definition descriptor_new (name : text) (dispatch_timeout : option Z) (delivery : DeliverySemantics)
    (idempotency : IdempotencyProfile) (reversibility : EffectReversibility) (dry_run : DryRunMode)
    (supports_reconciliation supports_read_back : bool) (capability : Capability.t)
    : result DomainError ExternalEffectAdapterDescriptor :=
  if is_empty (trim name) then Err InvalidArgument else
  if match dispatch_timeout with Some t => (t <=? 0)%Z | None => false end then Err InvalidArgument else
  Ok (mkDescriptor name dispatch_timeout delivery idempotency reversibility dry_run supports_reconciliation
        supports_read_back capability).

Inductive AdapterContractError : Type :=
| EffectivelyOnceRequiresProviderIdempotency
| ReconciliationNotDeclared.

Definition validate_adapter_descriptor (d : ExternalEffectAdapterDescriptor) : result AdapterContractError unit :=
  if (ds_delivery_semantics d == EffectivelyOnce)
     && negb ((ds_idempotency_profile d == ProviderKey) || (ds_idempotency_profile d == Conditional))
  then Err EffectivelyOnceRequiresProviderIdempotency else
  if negb (ds_supports_reconciliation d) then Err ReconciliationNotDeclared else Ok tt.

(** ** Intents *)

Record ExternalEffectIntent : Type := mkIntent {
  in_id : ExternalEffectId;
  in_execution_ref : text;
  in_workspace_id : WorkspaceId;
  in_actor_id : PrincipalId;
  in_adapter : text;
  in_operation : text;
  in_target : text;
  in_normalized_arguments_digest : text;
  in_expected_effect : text;
  in_preconditions : list EffectPrecondition;
  in_precondition_digest : text;
  in_risk : RiskCategory;
  in_reversibility : EffectReversibility;
  in_idempotency_profile : IdempotencyProfile;
  in_delivery_semantics : DeliverySemantics;
  in_required_capability : Capability.t;
  in_budget_reservation_ref : option text;
  in_policy_decision_ref : option text;
  in_compensates_effect_id : option ExternalEffectId;
  in_created_at : Timestamp;
}.

#[export] Instance ExternalEffectIntent_eq_dec : EqDecision ExternalEffectIntent.
Proof. solve_decision. Defined.

Definition validate_execution_ref (execution_ref : text) : result DomainError unit :=
  match scope_parse execution_ref with
  | Err _ => Err InvalidArgument
  | Ok (One ResourceKind.Run _) | Ok (One ResourceKind.Execution _) => Ok tt
  | Ok (EveryOfKind ResourceKind.Workspace) => Ok tt
  | Ok _ => Err InvalidArgument
  end.

Definition intent_new (id : ExternalEffectId) (execution_ref : text) (ws : WorkspaceId) (actor : PrincipalId)
    (adapter operation target arguments_digest expected_effect : text) (preconditions : list EffectPrecondition)
    (precondition_digest : text) (risk : RiskCategory) (reversibility : EffectReversibility)
    (idempotency : IdempotencyProfile) (delivery : DeliverySemantics) (capability : Capability.t)
    (budget_reservation_ref policy_decision_ref : option text) (created_at : Timestamp)
    : result DomainError ExternalEffectIntent :=
  if any (fun v => is_empty (trim v))
       [execution_ref; adapter; operation; target; arguments_digest; expected_effect; precondition_digest]
  then Err InvalidArgument else
  _ ← validate_execution_ref execution_ref;
  _ ← scope_parse target;
  match preconditions with
  | [] => Err InvalidArgument
  | _ =>
      Ok (mkIntent id execution_ref ws actor adapter operation target arguments_digest expected_effect preconditions
            precondition_digest risk reversibility idempotency delivery capability budget_reservation_ref
            policy_decision_ref None created_at)
  end.

(** [uuid::Uuid::parse_str]. *)
Class UuidParse : Type := uuid_parse : text -> option Uuid.

Definition execution_run_id `{!UuidParse} (i : ExternalEffectIntent) : option AgentRunId :=
  match scope_parse (in_execution_ref i) with
  | Ok (One ResourceKind.Run id) => uuid_parse id
  | _ => None
  end.

(** ** Authorization *)

Record EffectAuthorization : Type := mkAuthorization {
  ea_allowed : bool;
  ea_decision_ref : text;
  ea_policy_version : text;
  ea_workspace_id : WorkspaceId;
  ea_actor_id : PrincipalId;
  ea_capability : Capability.t;
  ea_operation : text;
  ea_resource_scope : text;
}.

Definition from_policy_decision `{!UuidText} (d : PolicyDecision) : EffectAuthorization :=
  mkAuthorization (is_allowed d) (uuid_text (pd_id d)) (pd_policy_version d) (pd_workspace_id d) (pd_subject_id d)
    (pd_capability d) (pd_operation d) (pd_resource_scope d).

Record AuthorizedExternalEffect : Type := mkAuthorized {
  ae_intent : ExternalEffectIntent;
  ae_authorization : EffectAuthorization;
}.

Definition authorize (i : ExternalEffectIntent) (a : EffectAuthorization) : result DomainError AuthorizedExternalEffect :=
  if negb (ea_allowed a)
     || (ea_workspace_id a !== in_workspace_id i)
     || (ea_actor_id a !== in_actor_id i)
     || (ea_capability a !== in_required_capability i)
     || (ea_operation a !== in_operation i)
     || (ea_resource_scope a !== in_target i)
     || match in_policy_decision_ref i with Some expected => expected !== ea_decision_ref a | None => false end
  then Err PolicyViolation else
  Ok (mkAuthorized i a).

Definition compensation_for (i : ExternalEffectIntent) (id : ExternalEffectId)
    (operation arguments_digest expected_effect : text) (created_at : Timestamp)
    : result DomainError ExternalEffectIntent :=
  if in_reversibility i !== Compensatable then Err PolicyViolation else
  c ← intent_new id (in_execution_ref i) (in_workspace_id i) (in_actor_id i) (in_adapter i) operation (in_target i)
        arguments_digest expected_effect (in_preconditions i) (in_precondition_digest i) (in_risk i)
        (in_reversibility i) (in_idempotency_profile i) (in_delivery_semantics i) (in_required_capability i)
        None None created_at;
  Ok (mkIntent (in_id c) (in_execution_ref c) (in_workspace_id c) (in_actor_id c) (in_adapter c) (in_operation c)
        (in_target c) (in_normalized_arguments_digest c) (in_expected_effect c) (in_preconditions c)
        (in_precondition_digest c) (in_risk c) (in_reversibility c) (in_idempotency_profile c)
        (in_delivery_semantics c) (in_required_capability c) (in_budget_reservation_ref c)
        (in_policy_decision_ref c) (Some (in_id i)) (in_created_at c)).

(** ** Dispatch *)

Inductive AdapterError : Type := AdapterTimeout | AdapterUnavailable (m : text) | AdapterRejected (m : text).

Inductive AdapterOutcome : Type := OutcomeAcknowledged | OutcomeFailed | OutcomeUnknown.

#[export] Instance AdapterOutcome_eq_dec : EqDecision AdapterOutcome.
Proof. solve_decision. Defined.

Record AdapterDispatchResult : Type := mkDispatchResult {
  dr_outcome : AdapterOutcome;
  dr_response_class : text;
  dr_external_resource_id : option text;
  dr_external_version : option text;
  dr_response_digest : option text;
  dr_evidence_refs : list text;
}.

Inductive DispatchError : Type :=
| StaleIntent
| AdapterDoesNotMatchIntent
| AdapterContractViolation (e : AdapterContractError)
| AdapterFailure (e : AdapterError).

Definition validate_dispatch (a : AuthorizedExternalEffect) (d : ExternalEffectAdapterDescriptor)
    (current_precondition_digest : text) : result DispatchError unit :=
  _ ← map_err AdapterContractViolation (validate_adapter_descriptor d);
  if (ds_name d !== in_adapter (ae_intent a))
     || (ds_delivery_semantics d !== in_delivery_semantics (ae_intent a))
     || (ds_idempotency_profile d !== in_idempotency_profile (ae_intent a))
     || (ds_reversibility d !== in_reversibility (ae_intent a))
     || (ds_required_capability d !== in_required_capability (ae_intent a))
  then Err AdapterDoesNotMatchIntent else
  if current_precondition_digest !== in_precondition_digest (ae_intent a) then Err StaleIntent else Ok tt.

Module EffectLifecycleStatus.

Inductive t : Type :=
| Prepared | Authorized | Dispatching | Acknowledged | Failed | Unknown | Confirmed | Reconciling.

#[global] Instance lifecycle_eq_dec : EqDecision t.
Proof. solve_decision. Defined.

(** [as_str]; the serialised name is the same. *)
Definition lifecycle_name (s : t) : string :=
  match s with
  | Prepared => "prepared"
  | Authorized => "authorized"
  | Dispatching => "dispatching"
  | Acknowledged => "acknowledged"
  | Failed => "failed"
  | Unknown => "unknown"
  | Confirmed => "confirmed"
  | Reconciling => "reconciling"
  end.

End EffectLifecycleStatus.

Inductive RetryDecision : Type := RetryAllowed | DeniedUnknown | DeniedNotRetrySafe.

Record ExternalEffectReceipt : Type := mkReceipt {
  xc_id : ExternalEffectReceiptId;
  xc_effect_id : ExternalEffectId;
  xc_adapter : text;
  xc_dispatched_at : Timestamp;
  xc_acknowledgement_at : option Timestamp;
  xc_response_class : text;
  xc_external_resource_id : option text;
  xc_external_version : option text;
  xc_response_digest : option text;
  xc_outcome_status : EffectLifecycleStatus.t;
  xc_evidence_refs : list text;
  xc_recorded_at : Timestamp;
}.

#[export] Instance ExternalEffectReceipt_eq_dec : EqDecision ExternalEffectReceipt.
Proof. solve_decision. Defined.

Definition from_dispatch (id : ExternalEffectReceiptId) (effect_id : ExternalEffectId) (adapter : text)
    (r : AdapterDispatchResult) (recorded_at : Timestamp) : ExternalEffectReceipt :=
  let outcome_status :=
    match dr_outcome r with
    | OutcomeAcknowledged => EffectLifecycleStatus.Acknowledged
    | OutcomeFailed => EffectLifecycleStatus.Failed
    | OutcomeUnknown => EffectLifecycleStatus.Unknown
    end in
  mkReceipt id effect_id adapter recorded_at (if dr_outcome r == OutcomeAcknowledged then Some recorded_at else None)
    (dr_response_class r) (dr_external_resource_id r) (dr_external_version r) (dr_response_digest r)
    outcome_status (dr_evidence_refs r) recorded_at.

Definition requires_reconciliation (r : ExternalEffectReceipt) : bool :=
  match xc_outcome_status r with
  | EffectLifecycleStatus.Acknowledged | EffectLifecycleStatus.Unknown => true
  | _ => false
  end.

Definition retry_decision (r : ExternalEffectReceipt) : RetryDecision :=
  match xc_outcome_status r with
  | EffectLifecycleStatus.Unknown => DeniedUnknown
  | EffectLifecycleStatus.Failed => DeniedNotRetrySafe
  | _ => RetryAllowed
  end.

(** [AuthorizedExternalEffect::dispatch]: [answer] is what the adapter's [dispatch] returns and
    [receipt_id] the minted identifier. *)
Definition dispatch (a : AuthorizedExternalEffect) (d : ExternalEffectAdapterDescriptor)
    (answer : result AdapterError AdapterDispatchResult) (receipt_id : ExternalEffectReceiptId)
    (current_precondition_digest : text) (recorded_at : Timestamp) : result DispatchError ExternalEffectReceipt :=
  _ ← validate_dispatch a d current_precondition_digest;
  r ← map_err AdapterFailure answer;
  Ok (from_dispatch receipt_id (in_id (ae_intent a)) (in_adapter (ae_intent a)) r recorded_at).

(** ** Reconciliation *)

#[export] Instance EvidenceStrength_eq_dec : EqDecision EvidenceStrength.
Proof. solve_decision. Defined.
#[export] Instance ReconciliationOutcome_eq_dec : EqDecision ReconciliationOutcome.
Proof. solve_decision. Defined.

(** The derived order of [EvidenceStrength] is the order of its constructors. *)
Definition strength_rank (e : EvidenceStrength) : Z :=
  match e with
  | ResponseDigest => 0
  | MarkerSearch => 1
  | ContentHash => 2
  | EtagVersion => 3
  | OperationStatus => 4
  | ExternalResourceReadBack => 5
  | ProviderIdempotencyLookup => 6
  end.

Record ObservedEffectState : Type := mkObserved {
  ob_evidence_strength : EvidenceStrength;
  ob_effect_applied : option bool;
  ob_state_ref : text;
  ob_evidence_refs : list text;
}.

(** [Iterator::max_by_key]: the last of the greatest. *)
Fixpoint strongest (observations : list ObservedEffectState) : option ObservedEffectState :=
  match observations with
  | [] => None
  | o :: rest =>
      match strongest rest with
      | Some m =>
          if (strength_rank (ob_evidence_strength o) <=? strength_rank (ob_evidence_strength m))%Z
          then Some m else Some o
      | None => Some o
      end
  end.

Definition is_settled (o : ReconciliationOutcome) : bool :=
  match o with Confirmed | NotApplied => true | _ => false end.

Record ExternalReconciliation : Type := mkReconciliation {
  xr_id : ExternalReconciliationId;
  xr_effect_id : ExternalEffectId;
  xr_receipt_id : option ExternalEffectReceiptId;
  xr_evidence_strength : EvidenceStrength;
  xr_observed_state_ref : text;
  xr_outcome : ReconciliationOutcome;
  xr_evidence_refs : list text;
  xr_reconciled_at : Timestamp;
}.

#[export] Instance ExternalReconciliation_eq_dec : EqDecision ExternalReconciliation.
Proof. solve_decision. Defined.

Definition reconcile_effect (id : ExternalReconciliationId) (i : ExternalEffectIntent)
    (receipt : option ExternalEffectReceipt) (observations : list ObservedEffectState) (reconciled_at : Timestamp)
    : result DomainError ExternalReconciliation :=
  if match receipt with Some r => xc_effect_id r !== in_id i | None => false end then Err InvalidArgument else
  match strongest observations with
  | None => Err InvalidArgument
  | Some o =>
      let outcome :=
        match ob_effect_applied o with
        | Some true => Confirmed
        | Some false => NotApplied
        | None => Inconclusive
        end in
      Ok (mkReconciliation id (in_id i) (xc_id <$> receipt) (ob_evidence_strength o) (ob_state_ref o) outcome
            (ob_evidence_refs o) reconciled_at)
  end.
