(* ===== verification/EffectStore.v ===== *)
(** * External effects in PostgreSQL

    [crates/vestrace-infrastructure/src/postgres/external_effect_repository.rs]: the statements of
    the repository as functions on its tables, each one transaction.  A statement's workspace is
    that of the request context, which row-level security repeats.

    Columns with a closed [CHECK] (status and cause of a transition, result and reason of a decision) are
    enumerations;
    [cause_ref], which always holds the text of an identifier, is that identifier.  A transition's
    database-generated identifier and ordinal are one fresh number.  The not-blank checks and the
    triggers that fence provider dispatches are not modelled: where they refuse a statement it is a
    storage error, which every call may answer anyway. *)

From Stdlib Require Import ZArith Lia String.
From stdpp Require Import base option numbers strings gmap sorting list.
From S2P Require Import Prelude Codec Crypto Text RunStatus RunDecider AgentRun RunReplay RunPorts RunStore WorkQueue.
From S2P Require Import PgRunStore ResourceScope Capability ExternalEffects.

Module TransitionCause.

Inductive t : Type :=
| IntentRecorded | AuthorizationRecorded | DispatchStarted | ReceiptRecorded | DispatchLost | OutcomeSettled
| OutcomeDelivered.

#[global] Instance cause_eq_dec : EqDecision t.
Proof. solve_decision. Defined.

End TransitionCause.

Section Rows.
Context {J : Type}.

Record IntentRow : Type := mkIntentRow {
  iw_workspace_id : WorkspaceId;
  iw_adapter : text;
  iw_payload : J;
}.

Record AuthorizationRow : Type := mkAuthorizationRow {
  aw_effect_id : ExternalEffectId;
  aw_workspace_id : WorkspaceId;
  aw_policy_id : option PolicyId;
  aw_policy_version : text;
  aw_subject_id : PrincipalId;
  aw_capability : string;
  aw_operation : text;
  aw_resource_scope : text;
  aw_result : PolicyDecisionResult;
  aw_reason : PolicyDecisionReason.t;
  aw_input_state : PolicyInputState;
  aw_matched_grant_id : option CapabilityGrantId;
  aw_decided_at : Timestamp;
  aw_payload : J;
}.

Record ReceiptRow : Type := mkReceiptRow {
  cw_effect_id : ExternalEffectId;
  cw_workspace_id : WorkspaceId;
  cw_outcome_status : string;
  cw_payload : J;
  cw_receipt_created_at : Timestamp;
}.

Record ReconciliationRow : Type := mkReconciliationRow {
  xw_effect_id : ExternalEffectId;
  xw_receipt_id : option ExternalEffectReceiptId;
  xw_workspace_id : WorkspaceId;
  xw_outcome : string;
  xw_evidence_strength : string;
  xw_reconciled_at : Timestamp;
  xw_payload : J;
  xw_notified_at : option Timestamp;
}.

Record TransitionRow : Type := mkTransition {
  tw_id : Uuid;
  tw_ordinal : Z;
  tw_effect_id : ExternalEffectId;
  tw_workspace_id : WorkspaceId;
  tw_status : EffectLifecycleStatus.t;
  tw_cause : TransitionCause.t;
  tw_cause_ref : Uuid;
  tw_recorded_at : Timestamp;
  tw_dispatch_owner : option WorkerId;
  tw_dispatch_expires_at : option Timestamp;
}.

Record AttemptRow : Type := mkAttempt {
  tt_effect_id : ExternalEffectId;
  tt_workspace_id : WorkspaceId;
  tt_attempted_at : Timestamp;
  tt_failure_reason : text;
}.

Record PresenceRow : Type := mkPresence {
  pw_started_at : Timestamp;
  pw_last_reported_at : Timestamp;
  pw_stopped_at : option Timestamp;
}.

(** The tables by their keys; transitions and attempts in the order of insertion.  [xt_next] is the
    next ordinal, [xt_now] what [NOW()] answers. *)
Record EffectTables : Type := mkEffectTables {
  xt_intents : gmap Z IntentRow;
  xt_authorizations : gmap Z AuthorizationRow;
  xt_receipts : gmap Z ReceiptRow;
  xt_reconciliations : gmap Z ReconciliationRow;
  xt_transitions : list TransitionRow;
  xt_attempts : list AttemptRow;
  xt_presence : gmap (Z * Z) PresenceRow;
  xt_next : Z;
  xt_now : Timestamp;
}.

Definition set_intents (t : EffectTables) m := mkEffectTables m (xt_authorizations t) (xt_receipts t)
  (xt_reconciliations t) (xt_transitions t) (xt_attempts t) (xt_presence t) (xt_next t) (xt_now t).
Definition set_authorizations (t : EffectTables) m := mkEffectTables (xt_intents t) m (xt_receipts t)
  (xt_reconciliations t) (xt_transitions t) (xt_attempts t) (xt_presence t) (xt_next t) (xt_now t).
Definition set_receipts (t : EffectTables) m := mkEffectTables (xt_intents t) (xt_authorizations t) m
  (xt_reconciliations t) (xt_transitions t) (xt_attempts t) (xt_presence t) (xt_next t) (xt_now t).
Definition set_reconciliations (t : EffectTables) m := mkEffectTables (xt_intents t) (xt_authorizations t)
  (xt_receipts t) m (xt_transitions t) (xt_attempts t) (xt_presence t) (xt_next t) (xt_now t).
Definition set_attempts (t : EffectTables) l := mkEffectTables (xt_intents t) (xt_authorizations t)
  (xt_receipts t) (xt_reconciliations t) (xt_transitions t) l (xt_presence t) (xt_next t) (xt_now t).
Definition set_presence (t : EffectTables) m := mkEffectTables (xt_intents t) (xt_authorizations t)
  (xt_receipts t) (xt_reconciliations t) (xt_transitions t) (xt_attempts t) m (xt_next t) (xt_now t).

(** [INSERT INTO external_effect_lifecycle_transitions]. *)
Definition append_transition (t : EffectTables) (effect : ExternalEffectId) (ws : WorkspaceId)
    (status : EffectLifecycleStatus.t) (cause : TransitionCause.t) (cause_ref : Uuid) (recorded_at : Timestamp)
    (owner : option WorkerId) (expires_at : option Timestamp) : EffectTables :=
  mkEffectTables (xt_intents t) (xt_authorizations t) (xt_receipts t) (xt_reconciliations t)
    (xt_transitions t ++
       [mkTransition (xt_next t) (xt_next t) effect ws status cause cause_ref recorded_at owner expires_at])
    (xt_attempts t) (xt_presence t) (xt_next t + 1)%Z (xt_now t).

(** A row of [external_effect_intents] with this key, in this workspace. *)
Definition intent_in (t : EffectTables) (ws : WorkspaceId) (effect : ExternalEffectId) : option IntentRow :=
  opt_filter (fun r => iw_workspace_id r == ws) (xt_intents t !! effect).

End Rows.
Arguments IntentRow J : clear implicits.
Arguments AuthorizationRow J : clear implicits.
Arguments ReceiptRow J : clear implicits.
Arguments ReconciliationRow J : clear implicits.
Arguments EffectTables J : clear implicits.

(** ** Names *)

Local Open Scope string_scope.

(** The serialised names of the outcomes and of the strengths. *)
Definition outcome_name (o : ReconciliationOutcome) : string :=
  match o with
  | Confirmed => "confirmed"
  | NotApplied => "not_applied"
  | Inconclusive => "inconclusive"
  | HumanRequired => "human_required"
  end.

Definition settled_names : list string := outcome_name <$> [Confirmed; NotApplied].

Definition strength_name (e : EvidenceStrength) : string :=
  match e with
  | ResponseDigest => "response_digest"
  | MarkerSearch => "marker_search"
  | ContentHash => "content_hash"
  | EtagVersion => "etag_version"
  | OperationStatus => "operation_status"
  | ExternalResourceReadBack => "external_resource_read_back"
  | ProviderIdempotencyLookup => "provider_idempotency_lookup"
  end.

Definition named_settled (name : string) : bool := any (String.eqb name) settled_names.

Definition WORKER_PRESENCE_LAPSE_AFTER : Z := (60 * 10 ^ 9)%Z.

Inductive LostDispatchAdoption : Type := Adopted | AlreadyAdopted.

Inductive LostDispatchRecovery : Type :=
| NeedsAdoption (dispatch_transition_id : Uuid)
| AdoptedDispatch (dispatch_transition_id : Uuid).

Record ExternalEffectRecoveryCandidate : Type := mkCandidate {
  ca_intent : ExternalEffectIntent;
  ca_receipt : option ExternalEffectReceipt;
  ca_lost_dispatch : option LostDispatchRecovery;
}.

(** [ExternalEffectRecoveryCandidate::new] with a receipt. *)
Definition candidate_new (i : ExternalEffectIntent) (receipt : ExternalEffectReceipt)
    : result ApplicationError ExternalEffectRecoveryCandidate :=
  if xc_effect_id receipt !== in_id i then invalid else
  if negb (requires_reconciliation receipt) then Err (AppDomain PolicyViolation) else
  Ok (mkCandidate i (Some receipt) None).

Definition for_lost_dispatch (i : ExternalEffectIntent) (transition : Uuid) (already_adopted : bool)
    : ExternalEffectRecoveryCandidate :=
  mkCandidate i None (Some (if already_adopted then AdoptedDispatch transition else NeedsAdoption transition)).

Record UndeliveredOutcome : Type := mkUndelivered {
  uo_reconciliation : ExternalReconciliation;
  uo_intent : ExternalEffectIntent;
}.

Section Store.
Context {J : Type} {SI : Serde J ExternalEffectIntent} {SR : Serde J ExternalEffectReceipt}
  {SX : Serde J ExternalReconciliation} {SD : Serde J PolicyDecision}.

Abbreviation Tables := (EffectTables J).

Definition decode {A} `{!Serde J A} (payload : J) : result ApplicationError A := ok_or (from_value payload) AppStorage.

(** [verify_insert]. *)
Definition verify_insert `{EqDecision A} (found : option A) (expected : A) : result ApplicationError unit :=
  match found with
  | Some existing => if existing == expected then Ok tt else Err AppConflict
  | None => Err AppStorage
  end.

(** ** Intents and authorizations *)

Definition intent_of_row (id : ExternalEffectId) (row : IntentRow J) : result ApplicationError ExternalEffectIntent :=
  i ← decode (iw_payload row);
  if (in_id i !== id) || (in_workspace_id i !== iw_workspace_id row) || (in_adapter i !== iw_adapter row)
  then Err AppStorage else Ok i.

(** [row.map(f).transpose()]. *)
Definition transpose {A B} (f : A -> result ApplicationError B) (o : option A) : result ApplicationError (option B) :=
  match o with None => Ok None | Some a => b ← f a; Ok (Some b) end.

Definition find_intent (ctx : RequestContext) (id : ExternalEffectId) (t : Tables)
    : result ApplicationError (option ExternalEffectIntent) :=
  transpose (intent_of_row id) (intent_in t (rc_workspace_id ctx) id).

Definition insert_intent (ctx : RequestContext) (i : ExternalEffectIntent) (t : Tables)
    : result ApplicationError unit * Tables :=
  let ws := rc_workspace_id ctx in
  if in_workspace_id i !== ws then (Err AppPolicy, t) else
  match xt_intents t !! in_id i with
  | None =>
      let t1 := set_intents t (<[in_id i := mkIntentRow (in_workspace_id i) (in_adapter i) (to_value i)]> (xt_intents t)) in
      (Ok tt, append_transition t1 (in_id i) ws EffectLifecycleStatus.Prepared TransitionCause.IntentRecorded
                (in_id i) (in_created_at i) None None)
  | Some _ =>
      (existing ← find_intent ctx (in_id i) t; verify_insert existing i, t)
  end.

Definition record_authorization (ctx : RequestContext) (effect : ExternalEffectId) (d : PolicyDecision) (t : Tables)
    : result ApplicationError unit * Tables :=
  let ws := rc_workspace_id ctx in
  if pd_workspace_id d !== ws then (Err AppPolicy, t) else
  if is_some (xt_authorizations t !! pd_id d) then (Err AppStorage, t) else
  match intent_in t ws effect with
  | None => (Err AppStorage, t)
  | Some _ =>
      let row := mkAuthorizationRow effect ws (pd_policy_id d) (pd_policy_version d) (pd_subject_id d)
        (Capability.capability_name (pd_capability d)) (pd_operation d) (pd_resource_scope d) (pd_result d)
        (pd_reason d) (pd_input_state d) (pd_matched_grant_id d) (pd_decided_at d) (to_value d) in
      let t1 := set_authorizations t (<[pd_id d := row]> (xt_authorizations t)) in
      (Ok tt,
       if is_allowed d
       then append_transition t1 effect ws EffectLifecycleStatus.Authorized TransitionCause.AuthorizationRecorded
              (pd_id d) (pd_decided_at d) None None
       else t1)
  end.

Definition micros (t : Timestamp) : Z := (t / 1000)%Z.

Definition decode_authorization (id : PolicyDecisionId) (row : AuthorizationRow J)
    : result ApplicationError PolicyDecision :=
  d ← decode (aw_payload row);
  if (pd_id d !== id) || (pd_workspace_id d !== aw_workspace_id row) || (pd_policy_id d !== aw_policy_id row)
     || (pd_policy_version d !== aw_policy_version row) || (pd_subject_id d !== aw_subject_id row)
     || negb (String.eqb (Capability.capability_name (pd_capability d)) (aw_capability row))
     || (pd_operation d !== aw_operation row) || (pd_resource_scope d !== aw_resource_scope row)
     || (pd_result d !== aw_result row) || (pd_reason d !== aw_reason row)
     || (pd_input_state d !== aw_input_state row) || (pd_matched_grant_id d !== aw_matched_grant_id row)
     || (1 <? Z.abs (micros (pd_decided_at d) - micros (aw_decided_at row)))%Z
  then Err AppStorage else Ok d.

Definition find_authorization (ctx : RequestContext) (effect : ExternalEffectId) (id : PolicyDecisionId) (t : Tables)
    : result ApplicationError (option PolicyDecision) :=
  transpose (decode_authorization id)
    (opt_filter (fun r => (aw_effect_id r == effect) && (aw_workspace_id r == rc_workspace_id ctx))
       (xt_authorizations t !! id)).

(** ** Receipts *)

Definition receipt_of_row (id : ExternalEffectReceiptId) (row : ReceiptRow J)
    : result ApplicationError ExternalEffectReceipt :=
  r ← decode (cw_payload row);
  if (xc_id r !== id) || (xc_effect_id r !== cw_effect_id row)
     || negb (String.eqb (EffectLifecycleStatus.lifecycle_name (xc_outcome_status r)) (cw_outcome_status row))
  then Err AppStorage else Ok r.

Definition find_receipt (ctx : RequestContext) (id : ExternalEffectReceiptId) (t : Tables)
    : result ApplicationError (option ExternalEffectReceipt) :=
  transpose (receipt_of_row id)
    (opt_filter (fun r => cw_workspace_id r == rc_workspace_id ctx) (xt_receipts t !! id)).

(** [insert_receipt_on] without provider-result evidence.  The foreign key refuses a receipt whose
    effect is not in the workspace. *)
Definition insert_receipt (ctx : RequestContext) (r : ExternalEffectReceipt) (t : Tables)
    : result ApplicationError unit * Tables :=
  let ws := rc_workspace_id ctx in
  match xt_receipts t !! xc_id r with
  | None =>
      match intent_in t ws (xc_effect_id r) with
      | None => (Err AppStorage, t)
      | Some _ =>
          let row := mkReceiptRow (xc_effect_id r) ws (EffectLifecycleStatus.lifecycle_name (xc_outcome_status r))
            (to_value r) (xt_now t) in
          let t1 := set_receipts t (<[xc_id r := row]> (xt_receipts t)) in
          (Ok tt, append_transition t1 (xc_effect_id r) ws (xc_outcome_status r) TransitionCause.ReceiptRecorded
                    (xc_id r) (xc_recorded_at r) None None)
      end
  | Some _ => (existing ← find_receipt ctx (xc_id r) t; verify_insert existing r, t)
  end.

(** ** Workers and dispatches *)

(** The check constraint: a report is not before the start. *)
Definition record_worker_presence (ctx : RequestContext) (worker : WorkerId) (started_at last_reported_at : Timestamp)
    (t : Tables) : result ApplicationError unit * Tables :=
  if (last_reported_at <? started_at)%Z then (Err AppStorage, t) else
  (Ok tt, set_presence t (<[(rc_workspace_id ctx, worker) := mkPresence started_at last_reported_at None]> (xt_presence t))).

Definition clear_worker_presence (ctx : RequestContext) (worker : WorkerId) (stopped_at : Timestamp) (t : Tables)
    : result ApplicationError unit * Tables :=
  match xt_presence t !! (rc_workspace_id ctx, worker) with
  | None => (Err AppStorage, t)
  | Some p =>
      if (stopped_at <? pw_started_at p)%Z then (Err AppStorage, t) else
      (Ok tt, set_presence t (<[(rc_workspace_id ctx, worker) :=
                 mkPresence (pw_started_at p) (pw_last_reported_at p) (Some stopped_at)]> (xt_presence t)))
  end.

Definition record_dispatch_started (ctx : RequestContext) (effect : ExternalEffectId) (owner : WorkerId)
    (expires_at recorded_at : Timestamp) (t : Tables) : result ApplicationError Uuid * Tables :=
  let ws := rc_workspace_id ctx in
  match intent_in t ws effect with
  | None => (Err AppStorage, t)
  | Some _ =>
      (Ok (xt_next t),
       append_transition t effect ws EffectLifecycleStatus.Dispatching TransitionCause.DispatchStarted
         effect recorded_at (Some owner) (Some expires_at))
  end.

(** The partial unique index of [dispatch_lost] rows: workspace, effect and the adopted dispatch. *)
Definition adoption_of (ws : WorkspaceId) (effect : ExternalEffectId) (dispatch : Uuid) (r : TransitionRow) : bool :=
  (tw_workspace_id r == ws) && (tw_effect_id r == effect) && (tw_cause r == TransitionCause.DispatchLost)
  && (tw_cause_ref r == dispatch).

Definition dispatching_row (ws : WorkspaceId) (effect : ExternalEffectId) (dispatch : Uuid) (r : TransitionRow) : bool :=
  (tw_id r == dispatch) && (tw_effect_id r == effect) && (tw_workspace_id r == ws)
  && (tw_status r == EffectLifecycleStatus.Dispatching).

Definition adopt_lost_dispatch (ctx : RequestContext) (effect : ExternalEffectId) (dispatch : Uuid)
    (recorded_at : Timestamp) (t : Tables) : result ApplicationError LostDispatchAdoption * Tables :=
  let ws := rc_workspace_id ctx in
  if any (adoption_of ws effect dispatch) (xt_transitions t) then (Ok AlreadyAdopted, t) else
  if any (dispatching_row ws effect dispatch) (xt_transitions t)
  then (Ok Adopted, append_transition t effect ws EffectLifecycleStatus.Unknown TransitionCause.DispatchLost
                      dispatch recorded_at None None)
  else (Err AppStorage, t).

Definition count_deadline_less_dispatching_transitions (ctx : RequestContext) (t : Tables) : Z :=
  Z.of_nat (length (List.filter (fun r => (tw_workspace_id r == rc_workspace_id ctx)
    && (tw_status r == EffectLifecycleStatus.Dispatching) && is_none (tw_dispatch_expires_at r)) (xt_transitions t))).

(** Transitions are appended with increasing ordinals, so [ORDER BY ordinal DESC LIMIT 1] is the last. *)
Definition find_lifecycle_status (ctx : RequestContext) (effect : ExternalEffectId) (t : Tables)
    : option EffectLifecycleStatus.t :=
  let mine r := (tw_effect_id r == effect) && (tw_workspace_id r == rc_workspace_id ctx) in
  let received := any (fun r => mine r && (tw_cause r == TransitionCause.ReceiptRecorded)) (xt_transitions t) in
  tw_status <$> last (List.filter
    (fun r => mine r && ((tw_cause r !== TransitionCause.DispatchLost) || negb received)) (xt_transitions t)).

Definition record_failed_recovery_attempt (ctx : RequestContext) (effect : ExternalEffectId) (attempted_at : Timestamp)
    (reason : text) (t : Tables) : result ApplicationError unit * Tables :=
  match intent_in t (rc_workspace_id ctx) effect with
  | None => (Err AppStorage, t)
  | Some _ =>
      (Ok tt, set_attempts t (xt_attempts t ++ [mkAttempt effect (rc_workspace_id ctx) attempted_at reason])%list)
  end.

(** ** Reconciliations *)

(** Reads of one field of a stored reconciliation: [payload.get(field)]. *)
Class PayloadIndex : Type := {
  indexed_effect_id : J -> result ApplicationError Uuid;
  indexed_receipt_id : J -> result ApplicationError (option Uuid);
}.
Context {PX : PayloadIndex}.

Definition reconciliation_of_row (id : ExternalReconciliationId) (row : ReconciliationRow J)
    : result ApplicationError ExternalReconciliation :=
  payload_effect_id ← indexed_effect_id (xw_payload row);
  payload_receipt_id ← indexed_receipt_id (xw_payload row);
  x ← decode (xw_payload row);
  if (xr_id x !== id) || (payload_effect_id !== xw_effect_id row) || (payload_receipt_id !== xw_receipt_id row)
     || negb (String.eqb (outcome_name (xr_outcome x)) (xw_outcome row))
     || negb (String.eqb (strength_name (xr_evidence_strength x)) (xw_evidence_strength row))
  then Err AppStorage else Ok x.

Definition find_reconciliation (ctx : RequestContext) (id : ExternalReconciliationId) (t : Tables)
    : result ApplicationError (option ExternalReconciliation) :=
  transpose (reconciliation_of_row id)
    (opt_filter (fun r => xw_workspace_id r == rc_workspace_id ctx) (xt_reconciliations t !! id)).

(** The foreign keys: the effect is in the workspace, and so is the receipt when there is one. *)
Definition reconciliation_parents (ws : WorkspaceId) (x : ExternalReconciliation) (t : Tables) : bool :=
  is_some (intent_in t ws (xr_effect_id x)) &&
  match xr_receipt_id x with
  | None => true
  | Some r => is_some (opt_filter (fun row => cw_workspace_id row == ws) (xt_receipts t !! r))
  end.

Definition insert_reconciliation (ctx : RequestContext) (x : ExternalReconciliation) (t : Tables)
    : result ApplicationError unit * Tables :=
  let ws := rc_workspace_id ctx in
  match xt_reconciliations t !! xr_id x with
  | None =>
      if negb (reconciliation_parents ws x t) then (Err AppStorage, t) else
      let row := mkReconciliationRow (xr_effect_id x) (xr_receipt_id x) ws (outcome_name (xr_outcome x))
        (strength_name (xr_evidence_strength x)) (xr_reconciled_at x) (to_value x) None in
      let t1 := set_reconciliations t (<[xr_id x := row]> (xt_reconciliations t)) in
      (Ok tt,
       if is_settled (xr_outcome x)
       then append_transition t1 (xr_effect_id x) ws EffectLifecycleStatus.Reconciling TransitionCause.OutcomeSettled
              (xr_id x) (xr_reconciled_at x) None None
       else t1)
  | Some _ => (existing ← find_reconciliation ctx (xr_id x) t; verify_insert existing x, t)
  end.

(** ** Undelivered outcomes *)

(** [xs.into_iter().map(f).collect()] into a [Result]. *)
Fixpoint collect_rows {A B} (f : A -> result ApplicationError B) (rows : list A) : result ApplicationError (list B) :=
  match rows with
  | [] => Ok []
  | r :: rest => b ← f r; bs ← collect_rows f rest; Ok (b :: bs)
  end.

(** [ORDER BY reconciled_at ASC, id ASC]. *)
Definition owed_before (a b : Z * ReconciliationRow J) : Prop :=
  (xw_reconciled_at a.2 < xw_reconciled_at b.2 \/
   xw_reconciled_at a.2 = xw_reconciled_at b.2 /\ a.1 <= b.1)%Z.

#[export] Instance owed_before_dec a b : Decision (owed_before a b).
Proof. unfold owed_before. apply _. Defined.

(** The rows of the query: settled outcomes of the workspace that nobody was told, joined with their intent. *)
Definition owed (ws : WorkspaceId) (t : Tables) (kr : Z * ReconciliationRow J) : bool :=
  (xw_workspace_id kr.2 == ws) && is_none (xw_notified_at kr.2) && named_settled (xw_outcome kr.2)
  && is_some (intent_in t ws (xw_effect_id kr.2)).

Definition find_undelivered_outcomes (ctx : RequestContext) (limit : Z) (t : Tables)
    : result ApplicationError (list UndeliveredOutcome) :=
  let ws := rc_workspace_id ctx in
  let rows := merge_sort owed_before (List.filter (owed ws t) (map_to_list (xt_reconciliations t))) in
  collect_rows (fun kr : Z * ReconciliationRow J =>
    x ← decode (xw_payload kr.2);
    i ← (row ← ok_or (intent_in t ws (xw_effect_id kr.2)) AppStorage; decode (iw_payload row));
    Ok (mkUndelivered x i)) (take (Z.to_nat limit) rows).

Definition mark_outcome_delivered (ctx : RequestContext) (id : ExternalReconciliationId) (at_ : Timestamp) (t : Tables)
    : result ApplicationError unit * Tables :=
  let ws := rc_workspace_id ctx in
  match opt_filter (fun r => (xw_workspace_id r == ws) && is_none (xw_notified_at r)) (xt_reconciliations t !! id) with
  | None => (Ok tt, t)
  | Some r =>
      let status :=
        if String.eqb (xw_outcome r) "confirmed" then Some EffectLifecycleStatus.Confirmed
        else if String.eqb (xw_outcome r) "not_applied" then Some EffectLifecycleStatus.Failed
        else None in
      match status with
      | None => (Err AppStorage, t)
      | Some status =>
          let row := mkReconciliationRow (xw_effect_id r) (xw_receipt_id r) (xw_workspace_id r) (xw_outcome r)
            (xw_evidence_strength r) (xw_reconciled_at r) (xw_payload r) (Some at_) in
          let t1 := set_reconciliations t (<[id := row]> (xt_reconciliations t)) in
          (Ok tt,
           if is_some (intent_in t1 ws (xw_effect_id r))
           then append_transition t1 (xw_effect_id r) ws status TransitionCause.OutcomeDelivered id at_ None None
           else t1)
      end
  end.

(** ** Recovery candidates *)

(** The [LATERAL] subqueries: the latest reconciliation about a receipt (or about none), and the
    latest failed attempt. *)
Definition later_reconciliation (a b : Z * ReconciliationRow J) : bool :=
  (xw_reconciled_at b.2 <? xw_reconciled_at a.2)%Z || (xw_reconciled_at b.2 =? xw_reconciled_at a.2)%Z && (b.1 <? a.1)%Z.

Fixpoint latest (p : Z * ReconciliationRow J -> bool) (rows : list (Z * ReconciliationRow J))
    : option (Z * ReconciliationRow J) :=
  match rows with
  | [] => None
  | r :: rest =>
      match latest p rest with
      | None => if p r then Some r else None
      | Some b => if p r && later_reconciliation r b then Some r else Some b
      end
  end.

Definition about (ws : WorkspaceId) (effect : ExternalEffectId) (receipt : option ExternalEffectReceiptId)
    (kr : Z * ReconciliationRow J) : bool :=
  (xw_effect_id kr.2 == effect) && (xw_receipt_id kr.2 == receipt) && (xw_workspace_id kr.2 == ws).

Definition last_reconciliation (ws : WorkspaceId) (effect : ExternalEffectId) (receipt : option ExternalEffectReceiptId)
    (t : Tables) : option (ReconciliationRow J) :=
  snd <$> latest (about ws effect receipt) (map_to_list (xt_reconciliations t)).

Definition last_attempt (ws : WorkspaceId) (effect : ExternalEffectId) (t : Tables) : option Timestamp :=
  foldr (fun a acc => if (tt_effect_id a == effect) && (tt_workspace_id a == ws)
                      then Some (match acc with Some m => Z.max (tt_attempted_at a) m | None => tt_attempted_at a end)
                      else acc) None (xt_attempts t).

(** The shared predicates: nothing settled the question, and nobody asked or failed to ask too recently. *)
Definition askable (ws : WorkspaceId) (effect : ExternalEffectId) (receipt : option ExternalEffectReceiptId)
    (retry_unsettled_before retry_failed_before : Timestamp) (t : Tables) : bool :=
  let last := last_reconciliation ws effect receipt t in
  let failed := last_attempt ws effect t in
  match last with
  | None => true
  | Some r => negb (named_settled (xw_outcome r)) && (xw_reconciled_at r <? retry_unsettled_before)%Z
  end &&
  match failed with
  | None => true
  | Some f =>
      match last with Some r => (f <? xw_reconciled_at r)%Z | None => false end || (f <? retry_failed_before)%Z
  end.

Record CandidateRow : Type := mkCandidateRow {
  qr_intent_id : ExternalEffectId;
  qr_intent : IntentRow J;
  qr_receipt : option (ExternalEffectReceiptId * ReceiptRow J);
  qr_dispatch_transition_id : option Uuid;
  qr_dispatch_already_adopted : bool;
  qr_candidate_at : Timestamp;
}.

(** The first branch: receipts that leave the outcome open. *)
Definition receipt_candidate (ws : WorkspaceId) (unsettled failed : Timestamp) (t : Tables)
    (kr : Z * ReceiptRow J) : option CandidateRow :=
  if (cw_workspace_id kr.2 == ws)
     && (String.eqb (cw_outcome_status kr.2) "unknown" || String.eqb (cw_outcome_status kr.2) "acknowledged")
     && askable ws (cw_effect_id kr.2) (Some kr.1) unsettled failed t
  then i ← intent_in t ws (cw_effect_id kr.2);
       Some (mkCandidateRow (cw_effect_id kr.2) i (Some kr) None false (cw_receipt_created_at kr.2))
  else None.

(** A dispatch whose deadline passed, or whose owner is known to be gone. *)
Definition dispatch_expired (ws : WorkspaceId) (expired_before : Timestamp) (t : Tables) (r : TransitionRow) : bool :=
  match tw_dispatch_expires_at r with
  | None => false
  | Some deadline =>
      (deadline <? expired_before)%Z ||
      match tw_dispatch_owner r with
      | None => false
      | Some owner =>
          match xt_presence t !! (ws, owner) with
          | None => false
          | Some p => is_some (pw_stopped_at p)
                      || (pw_last_reported_at p <? expired_before - WORKER_PRESENCE_LAPSE_AFTER)%Z
          end
      end
  end.

Definition has_receipt (ws : WorkspaceId) (effect : ExternalEffectId) (t : Tables) : bool :=
  any (fun kr : Z * ReceiptRow J => (cw_effect_id kr.2 == effect) && (cw_workspace_id kr.2 == ws))
    (map_to_list (xt_receipts t)).

Definition superseded (t : Tables) (r : TransitionRow) : bool :=
  any (fun newer => (tw_effect_id newer == tw_effect_id r) && (tw_workspace_id newer == tw_workspace_id r)
                    && (tw_ordinal r <? tw_ordinal newer)%Z) (xt_transitions t).

(** The second branch: dispatches that never got a receipt. *)
Definition lost_candidate (ws : WorkspaceId) (unsettled failed expired : Timestamp) (t : Tables) (r : TransitionRow)
    : option CandidateRow :=
  let adopted := tw_cause r == TransitionCause.DispatchLost in
  if (tw_workspace_id r == ws)
     && ((tw_status r == EffectLifecycleStatus.Dispatching) && dispatch_expired ws expired t r
         || (tw_status r == EffectLifecycleStatus.Unknown) && adopted && (tw_recorded_at r <? unsettled)%Z)
     && negb (has_receipt ws (tw_effect_id r) t) && negb (superseded t r)
     && askable ws (tw_effect_id r) None unsettled failed t
  then i ← intent_in t ws (tw_effect_id r);
       Some (mkCandidateRow (tw_effect_id r) i None (Some (if adopted then tw_cause_ref r else tw_id r)) adopted
               (tw_recorded_at r))
  else None.

(** [ORDER BY candidate_at, intent_id, receipt_id NULLS FIRST]. *)
Definition candidate_key (c : CandidateRow) : Z * Z * option Z :=
  (qr_candidate_at c, qr_intent_id c, fst <$> qr_receipt c).

Definition candidate_before (a b : CandidateRow) : Prop :=
  let '(t1, i1, r1) := candidate_key a in
  let '(t2, i2, r2) := candidate_key b in
  (t1 < t2 \/ t1 = t2 /\
    (i1 < i2 \/ i1 = i2 /\ match r1, r2 with None, _ => True | Some _, None => False | Some x, Some y => x <= y end))%Z.

#[export] Instance candidate_before_dec a b : Decision (candidate_before a b).
Proof.
  unfold candidate_before. destruct (candidate_key a) as [[? ?] [?|]], (candidate_key b) as [[? ?] [?|]]; apply _.
Defined.

Definition candidate_rows (ws : WorkspaceId) (unsettled failed expired : Timestamp) (t : Tables) : list CandidateRow :=
  omap (receipt_candidate ws unsettled failed t) (map_to_list (xt_receipts t))
  ++ omap (lost_candidate ws unsettled failed expired t) (xt_transitions t).

Definition candidate_of_row (row : CandidateRow) : result ApplicationError ExternalEffectRecoveryCandidate :=
  i ← intent_of_row (qr_intent_id row) (qr_intent row);
  match qr_receipt row with
  | Some (id, r) => receipt ← receipt_of_row id r; candidate_new i receipt
  | None =>
      d ← ok_or (qr_dispatch_transition_id row) AppStorage;
      Ok (for_lost_dispatch i d (qr_dispatch_already_adopted row))
  end.

Definition find_reconciliation_candidates (ctx : RequestContext)
    (retry_unsettled_before retry_failed_before dispatch_expired_before : Timestamp) (limit : Z) (t : Tables)
    : result ApplicationError (list ExternalEffectRecoveryCandidate) :=
  collect_rows candidate_of_row
    (take (Z.to_nat limit)
       (merge_sort candidate_before
          (candidate_rows (rc_workspace_id ctx) retry_unsettled_before retry_failed_before dispatch_expired_before t))).

End Store.
