(* ===== verification/RunEventStore.v ===== *)
(** * The event stream of a legacy run

    [crates/vestrace-infrastructure/src/postgres/run_event_store.rs] and [load_stream_head] of
    [run_recovery_store.rs]: optimistic append to the stream of one run, and its head.  A row of
    [run_events] is the envelope it was written from. *)

From Stdlib Require Import ZArith Lia String.
From stdpp Require Import base option numbers strings gmap list.
From S2P Require Import Prelude Codec Text RunStatus RunDecider RunDeciderSpec AgentRun RunReplay RunPorts WorkQueue.

Record RunStreams : Type := mkStreams {
  sm_versions : gmap (Z * Z) Z;
  sm_events : list LegacyRunEventEnvelope;
}.

Definition of_run (ws : WorkspaceId) (run : AgentRunId) (e : LegacyRunEventEnvelope) : bool :=
  (ev_workspace_id e == ws) && (ev_run_id e == run).

Definition version_from_database (v : Z) : result ApplicationError RunVersion :=
  if (v =? 0)%Z then Ok RunVersion_ZERO else
  value ← try_unsigned v;
  from_domain (version_new value).

Definition version_to_database (v : RunVersion) : result ApplicationError Z :=
  if (isize_max <? v)%Z then Err AppStorage else Ok v.

(** [load_stream]: the events of the run; appends write them in the order of their sequence. *)
Definition stream (ws : WorkspaceId) (run : AgentRunId) (s : RunStreams) : list LegacyRunEventEnvelope :=
  List.filter (of_run ws run) (sm_events s).

Definition load_stream_head (ctx : RequestContext) (run : AgentRunId) (s : RunStreams)
    : result ApplicationError (option RunVersion) :=
  match sm_versions s !! (rc_workspace_id ctx, run) with
  | None => Ok None
  | Some v => v ← version_from_database v; Ok (Some v)
  end.

Fixpoint validate_events (ctx : RequestContext) (run : AgentRunId) (sequence : RunVersion)
    (events : list LegacyRunEventEnvelope) : result ApplicationError RunVersion :=
  match events with
  | [] => Ok sequence
  | e :: rest =>
      sequence ← from_domain (version_next sequence);
      if (ev_workspace_id e !== rc_workspace_id ctx) || (ev_run_id e !== run) then Err AppConflict else
      if negb (ev_sequence e =? sequence)%Z then Err AppConflict else
      if negb (String.eqb (ev_event_type e) (legacy_event_type (ev_payload e))) then Err AppConflict else
      if negb (ev_event_version e =? legacy_event_version (ev_payload e))%Z then Err AppConflict else
      validate_events ctx run sequence rest
  end.

Definition validate_event_batch (ctx : RequestContext) (run : AgentRunId) (expected : RunVersion)
    (events : list LegacyRunEventEnvelope) : result ApplicationError RunVersion :=
  match events with [] => Err AppConflict | _ => validate_events ctx run expected events end.

(** The version the stream is locked at; a stream that does not exist is created at zero. *)
Definition lock_or_create_stream (ctx : RequestContext) (run : AgentRunId) (expected : RunVersion) (s : RunStreams)
    : result ApplicationError RunVersion :=
  match sm_versions s !! (rc_workspace_id ctx, run) with
  | Some v => version_from_database v
  | None => if negb (expected =? RunVersion_ZERO)%Z then Err (AppDomain NotFound) else Ok RunVersion_ZERO
  end.

(** [COALESCE(MAX(sequence), 0)]. *)
Definition stored_head (ws : WorkspaceId) (run : AgentRunId) (s : RunStreams) : Z :=
  foldr (fun e m => Z.max (ev_sequence e) m) 0%Z (stream ws run s).

(** The primary key and the sequence of a run are unique. *)
Fixpoint insert_events (events : list LegacyRunEventEnvelope) (rows : list LegacyRunEventEnvelope)
    : result ApplicationError (list LegacyRunEventEnvelope) :=
  match events with
  | [] => Ok rows
  | e :: rest =>
      _ ← version_to_database (ev_sequence e);
      if any (fun r => (ev_event_id r == ev_event_id e)
                       || of_run (ev_workspace_id e) (ev_run_id e) r && (ev_sequence r =? ev_sequence e)%Z) rows
      then Err AppStorage else insert_events rest (rows ++ [e])
  end.

(** The transaction of [append]. *)
Definition append_on (ctx : RequestContext) (run : AgentRunId) (expected : RunVersion)
    (events : list LegacyRunEventEnvelope) (s : RunStreams) : result ApplicationError (RunVersion * RunStreams) :=
  let ws := rc_workspace_id ctx in
  final ← validate_event_batch ctx run expected events;
  actual ← lock_or_create_stream ctx run expected s;
  if negb (actual =? expected)%Z then Err AppConflict else
  head ← version_from_database (stored_head ws run s);
  if negb (head =? actual)%Z then Err AppStorage else
  rows ← insert_events events (sm_events s);
  version ← version_to_database final;
  Ok (final, mkStreams (<[(ws, run) := version]> (sm_versions s)) rows).

Definition append (ctx : RequestContext) (run : AgentRunId) (expected : RunVersion)
    (events : list LegacyRunEventEnvelope) (s : RunStreams) : result ApplicationError RunVersion * RunStreams :=
  match append_on ctx run expected events s with
  | Ok (final, s') => (Ok final, s')
  | Err e => (Err e, s)
  end.

(** ** Appending *)

Lemma insert_events_Ok events rows rows' : insert_events events rows = Ok rows' -> rows' = rows ++ events.
Proof.
  revert rows. induction events as [|e events IH]; intros rows; simpl; [intros [= ->]; by rewrite app_nil_r|].
  intros (v & _ & H)%bind_Ok. destruct (any _ rows); [done|]. apply IH in H as ->. by rewrite <-(assoc_L (++)).
Qed.

Lemma version_from_database_Ok v v' : version_from_database v = Ok v' -> v = v'.
Proof.
  unfold version_from_database. destruct (Z.eqb_spec v 0) as [->|Hne]; [by intros [= <-]|].
  intros (n & Hn & H%map_err_Ok)%bind_Ok. unfold try_unsigned in Hn. unfold version_new in H.
  destruct (_ <? _)%Z; [done|]. injection Hn as ->. destruct (_ =? _)%Z; [done|]. by injection H as ->.
Qed.

Lemma append_Ok ctx run expected events s v s' :
  append ctx run expected events s = (Ok v, s') ->
  validate_event_batch ctx run expected events = Ok v /\
  lock_or_create_stream ctx run expected s = Ok expected /\
  stored_head (rc_workspace_id ctx) run s = expected /\
  s' = mkStreams (<[(rc_workspace_id ctx, run) := v]> (sm_versions s)) (sm_events s ++ events).
Proof.
  unfold append. intros H. destruct (append_on ctx run expected events s) as [[final s1]|] eqn:E; [|done].
  injection H as -> ->. unfold append_on in E. cbv zeta in E.
  apply bind_Ok in E as (f & Hv & (actual & Hl & E)%bind_Ok).
  destruct (Z.eqb_spec actual expected) as [->|]; [|done]. cbn [negb] in E.
  apply bind_Ok in E as (head & Hh%version_from_database_Ok & E).
  destruct (Z.eqb_spec head expected) as [->|]; [|done]. cbn [negb] in E.
  apply bind_Ok in E as (rows & Hr & (w & Hw & E)%bind_Ok). apply insert_events_Ok in Hr as ->.
  unfold version_to_database in Hw. destruct (_ <? _)%Z; [done|]. by simplify_eq.
Qed.

(** A failed append leaves the streams as they were; any append only adds events at the end. *)
Lemma append_events ctx run expected events s :
  exists added, sm_events (append ctx run expected events s).2 = sm_events s ++ added.
Proof.
  destruct (append ctx run expected events s) as [[v|e] s'] eqn:E.
  - apply append_Ok in E as (_ & _ & _ & ->). by exists events.
  - unfold append in E. destruct (append_on _ _ _ _ _) as [[]|]; [done|]. injection E as _ <-. exists [].
    by rewrite app_nil_r.
Qed.

Lemma stream_app ws run s events :
  stream ws run (mkStreams (sm_versions s) (sm_events s ++ events)) =
  stream ws run s ++ List.filter (of_run ws run) events.
Proof. apply List.filter_app. Qed.
