(* ===== verification/EffectServices.v ===== *)
(** * Performing, recovering and reporting external effects

    [crates/vestrace-application/src/{external_effects,recovery_reconciliation,effect_recovery,
    effect_outcome_delivery}.rs] as programs over their ports: the effect repository, the
    authorization boundary with its stored grants, the adapter, the read-back routes, and the run
    streams.  Each call is atomic; any other program may run between two calls of one program.

    The engine behind the boundary is the one that reads stored grants.  Deadlines are sums of
    timestamps; the overflow panic of [chrono] is not modelled.  Display texts of errors are a
    parameter. *)

From Stdlib Require Import ZArith Lia String.
From stdpp Require Import base option numbers strings gmap list.
From S2P Require Import Prelude Codec Crypto Text RunStatus RunDecider AgentRun RunReplay RunPorts RunStore WorkQueue.
From S2P Require Import PgRunStore ResourceScope Capability PolicyEngine ExternalEffects EffectStore RunEventStore.

(** ** Programs *)

Inductive Call : Type -> Type :=
| CInsertIntent (ctx : RequestContext) (i : ExternalEffectIntent) : Call unit
| CDecide (ctx : RequestContext) (q : AuthorizationRequest) : Call PolicyDecision
| CRecordAuthorization (ctx : RequestContext) (effect : ExternalEffectId) (d : PolicyDecision) : Call unit
| CRecordDispatchStarted (ctx : RequestContext) (effect : ExternalEffectId) (owner : WorkerId)
    (expires_at recorded_at : Timestamp) : Call Uuid
| CInsertReceipt (ctx : RequestContext) (r : ExternalEffectReceipt) : Call unit
| CCandidates (ctx : RequestContext) (unsettled failed expired : Timestamp) (limit : Z)
    : Call (list ExternalEffectRecoveryCandidate)
| CAdopt (ctx : RequestContext) (effect : ExternalEffectId) (dispatch : Uuid) (at_ : Timestamp)
    : Call LostDispatchAdoption
| CObserve (adapter : text) (i : ExternalEffectIntent) (receipt : option ExternalEffectReceipt)
    : Call (list ObservedEffectState)
| CInsertReconciliation (ctx : RequestContext) (x : ExternalReconciliation) : Call unit
| CRecordFailure (ctx : RequestContext) (effect : ExternalEffectId) (at_ : Timestamp) (reason : text) : Call unit
| CUndelivered (ctx : RequestContext) (limit : Z) : Call (list UndeliveredOutcome)
| CMarkDelivered (ctx : RequestContext) (id : ExternalReconciliationId) (at_ : Timestamp) : Call unit
| CHead (ctx : RequestContext) (run : AgentRunId) : Call (option RunVersion)
| CAppend (ctx : RequestContext) (run : AgentRunId) (expected : RunVersion)
    (events : list LegacyRunEventEnvelope) : Call RunVersion.

(** [EDispatch] is the adapter's own call: it leaves the process. *)
Inductive eprog (A : Type) : Type :=
| ERet (a : A)
| ENewId (k : Uuid -> eprog A)
| ECall {R : Type} (c : Call R) (k : result ApplicationError R -> eprog A)
| EDispatch (a : AuthorizedExternalEffect) (k : result AdapterError AdapterDispatchResult -> eprog A).

Arguments ERet {A} a.
Arguments ENewId {A} k.
Arguments ECall {A R} c k.
Arguments EDispatch {A} a k.

Fixpoint eprog_bind {A B} (f : A -> eprog B) (p : eprog A) : eprog B :=
  match p with
  | ERet a => f a
  | ENewId k => ENewId (fun u => eprog_bind f (k u))
  | ECall c k => ECall c (fun r => eprog_bind f (k r))
  | EDispatch a k => EDispatch a (fun r => eprog_bind f (k r))
  end.

(** [async fn ... -> Result<A, E>]. *)
Definition EM (E A : Type) : Type := eprog (result E A).

#[export] Instance EM_ret E : MRet (EM E) := fun A a => ERet (Ok a).
#[export] Instance EM_bind E : MBind (EM E) :=
  fun A B f p => eprog_bind (fun r => match r with Ok a => f a | Err e => ERet (Err e) end) p.

Definition call {R} (c : Call R) : EM ApplicationError R := ECall c ERet.
Definition lift {E A} (r : result E A) : EM E A := ERet r.
Definition fresh {E} : EM E Uuid := ENewId (fun u => ERet (Ok u)).
Definition emap_err {E F A} (f : E -> F) (p : EM E A) : EM F A := eprog_bind (fun r => ERet (map_err f r)) p.

(** ** Performing an effect *)

Definition DISPATCH_RECEIPT_COMMIT_MARGIN : Z := (5 * 10 ^ 9)%Z.
Definition DEFAULT_DISPATCH_ALLOWANCE : Z := (300 * 10 ^ 9)%Z.

Definition map_dispatch_error (e : DispatchError) : ApplicationError :=
  match e with
  | StaleIntent => AppConflict
  | AdapterDoesNotMatchIntent | AdapterContractViolation _ => AppPolicy
  | AdapterFailure _ => AppUnavailable
  end.

Section Perform.
Context {UT : UuidText}.

(** [ExternalEffectService::authorize]. *)
Definition service_authorize (ctx : RequestContext) (i : ExternalEffectIntent) (q : AuthorizationRequest)
    : EM ApplicationError AuthorizedExternalEffect :=
  d ← call (CDecide ctx q);
  authorized ← lift (if is_allowed d
                     then a ← from_domain (authorize i (from_policy_decision d)); Ok (Some a)
                     else Ok None);
  _ ← call (CRecordAuthorization ctx (in_id i) d);
  lift (ok_or authorized AppPolicy).

(** [ExternalEffectService::dispatch]; the second validation is the one inside the domain's [dispatch]. *)
Definition service_dispatch (owner : WorkerId) (ctx : RequestContext) (a : AuthorizedExternalEffect)
    (adapter : ExternalEffectAdapterDescriptor) (current_precondition_digest : text) (recorded_at : Timestamp)
    : EM ApplicationError ExternalEffectReceipt :=
  _ ← lift (map_err map_dispatch_error (validate_dispatch a adapter current_precondition_digest));
  let dispatch_timeout := default DEFAULT_DISPATCH_ALLOWANCE (ds_dispatch_timeout adapter) in
  let dispatch_expires_at := (recorded_at + dispatch_timeout + DISPATCH_RECEIPT_COMMIT_MARGIN)%Z in
  _ ← call (CRecordDispatchStarted ctx (in_id (ae_intent a)) owner dispatch_expires_at recorded_at);
  _ ← lift (map_err map_dispatch_error (validate_dispatch a adapter current_precondition_digest));
  (EDispatch a (fun answer =>
     ENewId (fun receipt_id =>
       ERet (map_err map_dispatch_error
               (dispatch a adapter answer receipt_id current_precondition_digest recorded_at)))) : EM _ _).

(** [PerformExternalEffectService::perform]. *)
Definition perform (owner : WorkerId) (ctx : RequestContext) (i : ExternalEffectIntent)
    (adapter : ExternalEffectAdapterDescriptor) (at_ : Timestamp) : EM ApplicationError ExternalEffectReceipt :=
  _ ← call (CInsertIntent ctx i);
  let request := request_new (in_required_capability i) (in_operation i) (in_target i) (in_risk i) in
  a ← service_authorize ctx i request;
  let precondition_digest := in_precondition_digest (ae_intent a) in
  receipt ← service_dispatch owner ctx a adapter precondition_digest at_;
  _ ← call (CInsertReceipt ctx receipt);
  mret receipt.

End Perform.

(** ** Recovery *)

Inductive ExternalEffectRecoveryError : Type :=
| MissingReadBackRoute (adapter : text)
| ReadBackUnsupported (adapter : text)
| ReadBack (e : ApplicationError)
| Reconciliation (e : ApplicationError)
| Application (e : ApplicationError).

(** The registry by adapter name. *)
Definition Registry : Type := list (text * ExternalEffectAdapterDescriptor).

Definition route (r : Registry) (adapter : text) : option ExternalEffectAdapterDescriptor :=
  snd <$> List.find (fun kd => kd.1 == adapter) r.

Fixpoint registry_new_from (acc : Registry) (adapters : Registry) : result ApplicationError Registry :=
  match adapters with
  | [] => Ok acc
  | (name, descriptor) :: rest =>
      if is_some (route acc name) then Err AppInvalidConfiguration else
      if ds_name descriptor !== name then Err AppInvalidConfiguration else
      registry_new_from (acc ++ [(name, descriptor)]) rest
  end.

Definition registry_new (adapters : Registry) : result ApplicationError Registry := registry_new_from [] adapters.

Definition resolve (r : Registry) (adapter : text) : result ExternalEffectRecoveryError text :=
  descriptor ← ok_or (route r adapter) (MissingReadBackRoute adapter);
  if negb (ds_supports_read_back descriptor) then Err (ReadBackUnsupported adapter) else Ok adapter.

Definition is_actionable (r : Registry) (adapter : text) : bool :=
  match route r adapter with Some descriptor => ds_supports_read_back descriptor | None => false end.

(** [ExternalEffectRecoveryService::discover]: the candidates a caller could ask about now. *)
Definition discover (r : Registry) (ctx : RequestContext) (unsettled failed expired : Timestamp) (limit : Z)
    : EM ApplicationError (list ExternalEffectRecoveryCandidate) :=
  candidates ← call (CCandidates ctx unsettled failed expired limit);
  mret (List.filter (fun c => is_actionable r (in_adapter (ca_intent c))) candidates).

(** [ExternalEffectReconciliationService::reconcile]. *)
Definition reconcile (id : ExternalReconciliationId) (ctx : RequestContext) (i : ExternalEffectIntent)
    (receipt : option ExternalEffectReceipt) (observations : list ObservedEffectState) (at_ : Timestamp)
    : result ApplicationError ExternalReconciliation :=
  if in_workspace_id i !== rc_workspace_id ctx then Err (AppDomain PolicyViolation) else
  if match receipt with Some r => negb (requires_reconciliation r) | None => false end
  then Err (AppDomain PolicyViolation) else
  from_domain (reconcile_effect id i receipt observations at_).

(** [reconcile_candidate]; [None] when another sweeper adopted the dispatch. *)
Definition reconcile_candidate (registry : Registry) (ctx : RequestContext) (c : ExternalEffectRecoveryCandidate)
    (at_ : Timestamp) : EM ExternalEffectRecoveryError (option ExternalReconciliation) :=
  let i := ca_intent c in
  adoption ← (match ca_lost_dispatch c with
              | Some (NeedsAdoption d) => emap_err Application (call (CAdopt ctx (in_id i) d at_))
              | _ => mret Adopted
              end : EM ExternalEffectRecoveryError LostDispatchAdoption);
  match adoption with
  | AlreadyAdopted => mret None
  | Adopted =>
      read_back ← lift (resolve registry (in_adapter i));
      observations ← emap_err ReadBack (call (CObserve read_back i (ca_receipt c)));
      id ← fresh;
      x ← lift (map_err (match observations with [] => ReadBack | _ => Reconciliation end)
                  (reconcile id ctx i (ca_receipt c) observations at_));
      _ ← emap_err Application (call (CInsertReconciliation ctx x));
      mret (Some x)
  end.

Record ExternalEffectRecoveryReport : Type := mkReport {
  rp_reconciliations : list ExternalReconciliation;
  rp_runs : list (option AgentRunId);
  rp_unreachable : list (ExternalEffectId * text);
  rp_saturated : bool;
}.

Section Recovery.
Context {UP : UuidParse}.
(** [Display] of an error. *)
Context (error_text : ExternalEffectRecoveryError -> text).

(** One candidate of the loop of [run]. *)
Definition recover_one (registry : Registry) (ctx : RequestContext) (at_ : Timestamp)
    (c : ExternalEffectRecoveryCandidate) (report : ExternalEffectRecoveryReport)
    : EM ApplicationError ExternalEffectRecoveryReport :=
  let unreachable e :=
    mkReport (rp_reconciliations report) (rp_runs report)
      (rp_unreachable report ++ [(in_id (ca_intent c), error_text e)]) (rp_saturated report) in
  eprog_bind (fun r : result ExternalEffectRecoveryError (option ExternalReconciliation) =>
    match r with
    | Ok (Some x) =>
        ERet (Ok (mkReport (rp_reconciliations report ++ [x]) (rp_runs report ++ [execution_run_id (ca_intent c)])
                    (rp_unreachable report) (rp_saturated report)))
    | Ok None => ERet (Ok report)
    | Err (Application e) => ERet (Err e)
    | Err (Reconciliation e) => ERet (Ok (unreachable (Reconciliation e)))
    | Err e =>
        _ ← call (CRecordFailure ctx (in_id (ca_intent c)) at_ (error_text e));
        mret (unreachable e)
    end) (reconcile_candidate registry ctx c at_).

Fixpoint recover_all (registry : Registry) (ctx : RequestContext) (at_ : Timestamp)
    (cs : list ExternalEffectRecoveryCandidate) (report : ExternalEffectRecoveryReport)
    : EM ApplicationError ExternalEffectRecoveryReport :=
  match cs with
  | [] => mret report
  | c :: rest => report ← recover_one registry ctx at_ c report; recover_all registry ctx at_ rest report
  end.

(** [ExternalEffectRecoveryService::run]. *)
Definition recovery_run (registry : Registry) (ctx : RequestContext) (reconciled_at unsettled failed expired : Timestamp)
    (limit : Z) : EM ApplicationError ExternalEffectRecoveryReport :=
  candidates ← call (CCandidates ctx unsettled failed expired limit);
  let saturated := (Z.of_nat (length candidates) =? limit)%Z in
  recover_all registry ctx reconciled_at candidates (mkReport [] [] [] saturated).

Definition RECONCILIATION_RETRY_AFTER : Z := (60 * 10 ^ 9)%Z.
Definition FAILED_RECOVERY_ATTEMPT_RETRY_AFTER : Z := (60 * 10 ^ 9)%Z.
Definition RECONCILIATION_BATCH : Z := 8.

Definition sweep (registry : Registry) (ctx : RequestContext) (at_ : Timestamp)
    : EM ApplicationError ExternalEffectRecoveryReport :=
  recovery_run registry ctx at_ (at_ - RECONCILIATION_RETRY_AFTER) (at_ - FAILED_RECOVERY_ATTEMPT_RETRY_AFTER) at_
    RECONCILIATION_BATCH.

(** ** Delivering outcomes *)

Record OutcomeDeliveryReport : Type := mkDelivery { dv_delivered : Z; dv_unattributable : Z; dv_deferred : Z }.

Definition DELIVERY_BATCH : Z := 32.

(** The event of [append_to_run]; [event_id] and [causation_id] are minted. *)
Definition outcome_envelope (ctx : RequestContext) (run : AgentRunId) (x : ExternalReconciliation)
    (sequence : RunVersion) (event_id : RunEventId) (causation_id : OperationId) (at_ : Timestamp)
    : LegacyRunEventEnvelope :=
  let payload := EvExternalEffectSettled (xr_effect_id x) (xr_receipt_id x) (xr_outcome x) (xr_evidence_strength x) in
  mkEnvelope event_id (rc_workspace_id ctx) run sequence (legacy_event_type payload) (legacy_event_version payload)
    (System (text_of "effect-outcome-delivery")) causation_id (xr_effect_id x) payload (xr_reconciled_at x) at_.

Definition append_to_run (ctx : RequestContext) (run : AgentRunId) (x : ExternalReconciliation) (at_ : Timestamp)
    : EM ApplicationError unit :=
  head ← call (CHead ctx run);
  head ← lift (ok_or head (AppDomain NotFound));
  sequence ← lift (from_domain (version_new (head + 1)));
  event_id ← fresh;
  causation_id ← fresh;
  _ ← call (CAppend ctx run head [outcome_envelope ctx run x sequence event_id causation_id at_]);
  mret tt.

Definition deliver_one (ctx : RequestContext) (at_ : Timestamp) (o : UndeliveredOutcome) (r : OutcomeDeliveryReport)
    : EM ApplicationError OutcomeDeliveryReport :=
  let x := uo_reconciliation o in
  match execution_run_id (uo_intent o) with
  | None =>
      _ ← call (CMarkDelivered ctx (xr_id x) at_);
      mret (mkDelivery (dv_delivered r) (dv_unattributable r + 1) (dv_deferred r))
  | Some run =>
      eprog_bind (fun appended =>
        match appended with
        | Ok _ =>
            _ ← call (CMarkDelivered ctx (xr_id x) at_);
            mret (mkDelivery (dv_delivered r + 1) (dv_unattributable r) (dv_deferred r))
        | Err _ => ERet (Ok (mkDelivery (dv_delivered r) (dv_unattributable r) (dv_deferred r + 1)))
        end) (append_to_run ctx run x at_)
  end.

Fixpoint deliver_all (ctx : RequestContext) (at_ : Timestamp) (os : list UndeliveredOutcome) (r : OutcomeDeliveryReport)
    : EM ApplicationError OutcomeDeliveryReport :=
  match os with
  | [] => mret r
  | o :: rest => r ← deliver_one ctx at_ o r; deliver_all ctx at_ rest r
  end.

Definition deliver_once (ctx : RequestContext) (at_ : Timestamp) : EM ApplicationError OutcomeDeliveryReport :=
  owed ← call (CUndelivered ctx DELIVERY_BATCH);
  deliver_all ctx at_ owed (mkDelivery 0 0 0).

End Recovery.
