(* ===== verification/EffectWorld.v ===== *)
(** * The world external effects run in

    Any number of programs — performs, sweeps, deliveries — run against one database; their calls
    interleave, any of them may stop between two calls, a call may fail before it takes effect, and
    an effective call may lose its answer.  The environment issues and revokes grants, reports
    worker presence, extends run streams and lets time pass.

    [w_calls] are the adapter calls that have left the process, in order. *)

From Stdlib Require Import ZArith Lia String.
From stdpp Require Import base option numbers strings gmap list.
From S2P Require Import Prelude Codec Crypto Text RunStatus RunDecider AgentRun RunReplay RunPorts RunStore WorkQueue.
From S2P Require Import PgRunStore ResourceScope Capability PolicyEngine ExternalEffects EffectStore RunEventStore.
From S2P Require Import EffectServices.

Section World.
Context {J : Type} {SI : Serde J ExternalEffectIntent} {SR : Serde J ExternalEffectReceipt}
  {SX : Serde J ExternalReconciliation} {SD : Serde J PolicyDecision} {SG : Serde J CapabilityGrant}
  {PX : PayloadIndex (J := J)} {UT : UuidText} {UP : UuidParse}.
(** The version string of the grant engine. *)
Context (policy_version : text).

Record World : Type := mkWorld {
  w_tables : EffectTables J;
  w_grants : gmap Z (GrantRow J);
  w_streams : RunStreams;
  w_calls : list AuthorizedExternalEffect;
  w_ids : Z;
}.

Definition set_tables (w : World) (t : EffectTables J) : World :=
  mkWorld t (w_grants w) (w_streams w) (w_calls w) (w_ids w).
Definition set_streams (w : World) (s : RunStreams) : World :=
  mkWorld (w_tables w) (w_grants w) s (w_calls w) (w_ids w).
Definition minted (w : World) : World :=
  mkWorld (w_tables w) (w_grants w) (w_streams w) (w_calls w) (w_ids w + 1)%Z.
Definition called (w : World) (a : AuthorizedExternalEffect) : World :=
  mkWorld (w_tables w) (w_grants w) (w_streams w) (w_calls w ++ [a]) (w_ids w).

Definition on_tables {A} (w : World) (x : result ApplicationError A * EffectTables J) : result ApplicationError A * World :=
  (x.1, set_tables w x.2).

(** A call on the world; what a read-back answers is up to the provider. *)
Definition run_call {R} (c : Call R) (w : World) : result ApplicationError R * World :=
  let t := w_tables w in
  match c with
  | CInsertIntent ctx i => on_tables w (insert_intent ctx i t)
  | CDecide ctx q => (stored_decide policy_version ctx q (w_ids w) (xt_now t) (w_grants w), minted w)
  | CRecordAuthorization ctx e d => on_tables w (record_authorization ctx e d t)
  | CRecordDispatchStarted ctx e owner exp at_ => on_tables w (record_dispatch_started ctx e owner exp at_ t)
  | CInsertReceipt ctx r => on_tables w (insert_receipt ctx r t)
  | CCandidates ctx a b d n => (find_reconciliation_candidates ctx a b d n t, w)
  | CAdopt ctx e d at_ => on_tables w (adopt_lost_dispatch ctx e d at_ t)
  | CObserve _ _ _ => (Err AppUnavailable, w)
  | CInsertReconciliation ctx x => on_tables w (insert_reconciliation ctx x t)
  | CRecordFailure ctx e at_ reason => on_tables w (record_failed_recovery_attempt ctx e at_ reason t)
  | CUndelivered ctx n => (find_undelivered_outcomes ctx n t, w)
  | CMarkDelivered ctx id at_ => on_tables w (mark_outcome_delivered ctx id at_ t)
  | CHead ctx run => (load_stream_head ctx run (w_streams w), w)
  | CAppend ctx run v es =>
      let '(r, s) := append ctx run v es (w_streams w) in (r, set_streams w s)
  end.

Inductive call_answers (w : World) : forall {R}, Call R -> result ApplicationError R -> World -> Prop :=
| answers R (c : Call R) : call_answers w c (run_call c w).1 (run_call c w).2
| refused R (c : Call R) : call_answers w c (Err AppStorage) w
| reply_lost R (c : Call R) : call_answers w c (Err AppStorage) (run_call c w).2
| observed adapter i receipt r : call_answers w (CObserve adapter i receipt) r w.

Inductive prog_step {A} : World -> eprog A -> World -> eprog A -> Prop :=
| step_id w k : prog_step w (ENewId k) (minted w) (k (w_ids w))
| step_call w R (c : Call R) k r w' : call_answers w c r w' -> prog_step w (ECall c k) w' (k r)
| step_dispatch w a k answer : prog_step w (EDispatch a k) (called w a) (k answer).

(** One program alone: adapters answer [answer], read-backs answer [seen] and nothing fails. *)
Section Alone.
Context (answer : result AdapterError AdapterDispatchResult) (seen : result ApplicationError (list ObservedEffectState)).

Definition answer_call {R} (c : Call R) (w : World) : result ApplicationError R * World :=
  match c in Call R return result ApplicationError R * World with
  | CObserve _ _ _ => (seen, w)
  | c => run_call c w
  end.

Fixpoint alone {A} (w : World) (p : eprog A) : A * World :=
  match p with
  | ERet a => (a, w)
  | ENewId k => alone (minted w) (k (w_ids w))
  | ECall c k => alone (answer_call c w).2 (k (answer_call c w).1)
  | EDispatch a k => alone (called w a) (k answer)
  end.

(** The first [n] steps of a program. *)
Fixpoint steps {A} (n : nat) (w : World) (p : eprog A) : World * eprog A :=
  match n, p with
  | O, _ | _, ERet _ => (w, p)
  | S n, ENewId k => steps n (minted w) (k (w_ids w))
  | S n, ECall c k => steps n (answer_call c w).2 (k (answer_call c w).1)
  | S n, EDispatch a k => steps n (called w a) (k answer)
  end.

Lemma alone_steps {A} w (p : eprog A) a w' : alone w p = (a, w') -> exists n, steps n w p = (w', ERet a).
Proof.
  revert w. induction p as [b|k IH|R c k IH|b k IH]; intros w H; simpl in H; [exists O; by injection H as -> ->|..];
    apply IH in H as (n & Hn); by exists (S n).
Qed.

Lemma answer_call_answers {R} (c : Call R) w : call_answers w c (answer_call c w).1 (answer_call c w).2.
Proof. destruct c; try apply answers. apply observed. Qed.

End Alone.

(** What happens around the programs. *)
Inductive env_step (w : World) : World -> Prop :=
| env_time n : (xt_now (w_tables w) <= n)%Z ->
    env_step w (set_tables w (mkEffectTables (xt_intents (w_tables w)) (xt_authorizations (w_tables w))
      (xt_receipts (w_tables w)) (xt_reconciliations (w_tables w)) (xt_transitions (w_tables w))
      (xt_attempts (w_tables w)) (xt_presence (w_tables w)) (xt_next (w_tables w)) n))
| env_grant ctx spec at_ g : issue spec at_ = Ok g ->
    env_step w (mkWorld (w_tables w) (insert_grant ctx g (w_grants w)).2 (w_streams w) (w_calls w) (w_ids w))
| env_revoke ctx row g at_ g' : w_grants w !! gr_id g = Some row -> decode_grant row = Ok g -> revoke g at_ = Ok g' ->
    env_step w (mkWorld (w_tables w) (save_revocation ctx g' (w_grants w)).2 (w_streams w) (w_calls w) (w_ids w))
| env_presence ctx worker a b :
    env_step w (set_tables w (record_worker_presence ctx worker a b (w_tables w)).2)
| env_stopped ctx worker a :
    env_step w (set_tables w (clear_worker_presence ctx worker a (w_tables w)).2)
| env_stream ctx run v es :
    env_step w (set_streams w (append ctx run v es (w_streams w)).2).

(** A program of the pool with the effect it still has to dispatch, if any. *)
Definition thread : Type := option ExternalEffectId * eprog unit.

Definition records_dispatch {R} (c : Call R) : bool :=
  match c with CRecordDispatchStarted _ _ _ _ _ => true | _ => false end.

(** The effect is dispatched, or never will be, once its dispatch was recorded. *)
Definition owned_after (p : eprog unit) (owned : option ExternalEffectId) : option ExternalEffectId :=
  match p with ECall c _ => if records_dispatch c then None else owned | _ => owned end.

Definition forget {E A} (p : EM E A) : eprog unit := eprog_bind (fun _ => ERet tt) p.

Definition start_world (w : World) : Prop :=
  w_tables w = mkEffectTables ∅ ∅ ∅ ∅ [] [] ∅ 0 (xt_now (w_tables w)) /\ w_grants w = ∅ /\
  w_streams w = mkStreams ∅ [] /\ w_calls w = [].

Context (error_text : ExternalEffectRecoveryError -> text).

(** Whoever drives it: a perform of an intent whose identifier was just minted, a sweep with any cutoffs, a
    delivery, one call of a program of the pool, or the environment. *)
Inductive system_step : World * list thread -> World * list thread -> Prop :=
| system_perform w pool owner ctx i adapter at_ :
    in_id i = w_ids w ->
    system_step (w, pool) (minted w, pool ++ [(Some (in_id i), forget (perform owner ctx i adapter at_))])
| system_sweep w pool registry ctx at_ unsettled failed expired limit :
    system_step (w, pool)
      (w, pool ++ [(None, forget (recovery_run error_text registry ctx at_ unsettled failed expired limit))])
| system_deliver w pool ctx at_ :
    system_step (w, pool) (w, pool ++ [(None, forget (deliver_once ctx at_))])
| system_call w (pool : list thread) n owned p w' p' :
    pool !! n = Some (owned, p) -> prog_step w p w' p' ->
    system_step (w, pool) (w', <[n := (owned_after p owned, p')]> pool)
| system_env w pool w' : env_step w w' -> system_step (w, pool) (w', pool).

(** Steps of a program of the pool. *)
Lemma steps_system answer seen m w (pool : list thread) n owned p w' p' :
  pool !! n = Some (owned, p) -> steps answer seen m w p = (w', p') ->
  exists owned', rtc system_step (w, pool) (w', <[n := (owned', p')]> pool).
Proof.
  revert w pool owned p. induction m as [|m IH]; intros w pool owned p Hn H.
  { simpl in H. injection H as -> ->. exists owned. rewrite list_insert_id by done. constructor. }
  assert (Hlt : (n < length pool)%nat) by (apply lookup_lt_is_Some; by eexists).
  assert (Hone : forall w1 p1, prog_step w p w1 p1 -> steps answer seen m w1 p1 = (w', p') ->
    exists owned', rtc system_step (w, pool) (w', <[n := (owned', p')]> pool)).
  { intros w1 p1 Hs H1. destruct (IH w1 (<[n := (owned_after p owned, p1)]> pool) (owned_after p owned) p1) as (o & Hr);
      [by apply list_lookup_insert_eq|done|].
    rewrite list_insert_insert_eq in Hr. exists o. eapply rtc_l; [|exact Hr]. by eapply system_call. }
  destruct p as [b|k|R c k|b k]; simpl in H.
  - injection H as <- <-. exists owned. rewrite list_insert_id by done. constructor.
  - eapply Hone; [constructor|done].
  - eapply Hone; [constructor; apply answer_call_answers|done].
  - eapply Hone; [constructor|done].
Qed.

Definition reached (x : World * list thread) : Prop :=
  exists w0, start_world w0 /\ rtc system_step (w0, []) x.

End World.
Arguments World J : clear implicits.
