(* ===== verification/EffectStoreProps.v ===== *)
(** * The invariant of the effect tables

    What every statement of the effect repository preserves: rows agree with their payloads, parents
    exist, ordinals increase, and after a dispatch of an effect only a receipt, an adoption, a
    settlement or a delivery follows. *)

From Stdlib Require Import ZArith Lia String.
From stdpp Require Import base option numbers strings gmap list.
From S2P Require Import Prelude Codec Crypto Text RunStatus RunDecider AgentRun RunReplay RunPorts RunStore WorkQueue.
From S2P Require Import PgRunStore ResourceScope Capability ExternalEffects EffectStore.

Lemma opt_filter_Some {A} (p : A -> bool) o a : opt_filter p o = Some a <-> o = Some a /\ p a = true.
Proof. 
  destruct o as [b|]; simpl; [|by split; [|intros [? _]]].
  destruct (p b) eqn:E; split; [intros [= <-]; auto|intros [[= <-] _]; auto|done|intros [[= ->] ?]; congruence].
Qed.

(** A relation between every element of a list and every later one. *)
Definition ordered_pairs {A} (R : A -> A -> Prop) (l : list A) : Prop :=
  forall l1 r l2, l = l1 ++ r :: l2 -> forall r', r' ∈ l2 -> R r r'.

Lemma ordered_pairs_snoc {A} (R : A -> A -> Prop) l n :
  ordered_pairs R l -> (forall r, r ∈ l -> R r n) -> ordered_pairs R (l ++ [n]).
Proof.
  intros H Hn l1 r l2 E r' Hr'. destruct l2 as [|x l2 _] using rev_ind; [by apply not_elem_of_nil in Hr'|].
  rewrite app_comm_cons, (assoc_L (++)) in E. apply app_inj_tail in E as [-> <-].
  apply elem_of_app in Hr' as [Hr'|Hr'].
  - by eapply H.
  - apply list_elem_of_singleton in Hr' as ->. apply Hn, elem_of_app. right. by left.
Qed.

(** Two elements of such a list are related one way or the other, or equal. *)
Lemma ordered_pairs_total {A} (R : A -> A -> Prop) l a b :
  ordered_pairs R l -> a ∈ l -> b ∈ l -> a = b \/ R a b \/ R b a.
Proof.
  intros H Ha Hb. apply list_elem_of_split in Ha as (l1 & l2 & E). rewrite E in Hb.
  apply elem_of_app in Hb as [Hb|[->|Hb]%elem_of_cons]; [|by left|right; left; by eapply H].
  right. right. apply list_elem_of_split in Hb as (k1 & k2 & ->). rewrite <-(assoc_L (++)), <-app_comm_cons in E.
  eapply H; [exact E|]. apply elem_of_app. right. by left.
Qed.

Section Invariant.
Context {J : Type} {SI : Serde J ExternalEffectIntent} {SR : Serde J ExternalEffectReceipt}
  {SX : Serde J ExternalReconciliation} {SD : Serde J PolicyDecision} {PX : PayloadIndex (J := J)}.

Implicit Types t : EffectTables J.

(** The causes that may follow a dispatch of the same effect. *)
Definition after_dispatch (c : TransitionCause.t) : Prop :=
  match c with
  | TransitionCause.ReceiptRecorded | TransitionCause.DispatchLost | TransitionCause.OutcomeSettled
  | TransitionCause.OutcomeDelivered => True
  | _ => False
  end.

Definition no_dispatch t (e : Z) : Prop :=
  forall r, r ∈ xt_transitions t -> tw_effect_id r = e -> tw_status r <> EffectLifecycleStatus.Dispatching.

Definition settled_transition t (e : Z) : Prop :=
  exists r, r ∈ xt_transitions t /\ tw_effect_id r = e /\ tw_cause r = TransitionCause.OutcomeSettled.

(** What a transition row says of the other tables. *)
Definition transition_ok t (r : TransitionRow) : Prop :=
  is_Some (intent_in t (tw_workspace_id r) (tw_effect_id r)) /\
  (tw_status r = EffectLifecycleStatus.Dispatching <-> tw_cause r = TransitionCause.DispatchStarted) /\
  (tw_status r = EffectLifecycleStatus.Dispatching -> is_Some (tw_dispatch_expires_at r)) /\
  match tw_cause r with
  | TransitionCause.ReceiptRecorded => has_receipt (tw_workspace_id r) (tw_effect_id r) t = true
  | TransitionCause.DispatchLost =>
      tw_status r = EffectLifecycleStatus.Unknown /\
      exists d, d ∈ xt_transitions t /\ dispatching_row (tw_workspace_id r) (tw_effect_id r) (tw_cause_ref r) d = true
  | TransitionCause.OutcomeDelivered => settled_transition t (tw_effect_id r)
  | _ => True
  end.

(** What may be inserted after a transition: a later ordinal; for a dispatched effect only what
    follows a dispatch; for an adopted dispatch no second adoption. *)
Definition follows (r r' : TransitionRow) : Prop :=
  (tw_ordinal r < tw_ordinal r')%Z /\
  (tw_status r = EffectLifecycleStatus.Dispatching -> tw_effect_id r' = tw_effect_id r -> after_dispatch (tw_cause r')) /\
  (tw_cause r = TransitionCause.DispatchLost ->
   adoption_of (tw_workspace_id r) (tw_effect_id r) (tw_cause_ref r) r' = false).

Definition intent_row (i : ExternalEffectIntent) : IntentRow J :=
  mkIntentRow (in_workspace_id i) (in_adapter i) (to_value i).

Definition receipt_row (ws : Z) (c : Timestamp) (r : ExternalEffectReceipt) : ReceiptRow J :=
  mkReceiptRow (xc_effect_id r) ws (EffectLifecycleStatus.lifecycle_name (xc_outcome_status r)) (to_value r) c.

Definition reconciliation_row (ws : Z) (n : option Timestamp) (x : ExternalReconciliation) : ReconciliationRow J :=
  mkReconciliationRow (xr_effect_id x) (xr_receipt_id x) ws (outcome_name (xr_outcome x))
    (strength_name (xr_evidence_strength x)) (xr_reconciled_at x) (to_value x) n.

Record tables_ok t : Prop := {
  ok_intents : forall id row, xt_intents t !! id = Some row -> exists i, in_id i = id /\ row = intent_row i;
  ok_receipts : forall id row, xt_receipts t !! id = Some row ->
    exists r ws c, xc_id r = id /\ row = receipt_row ws c r /\ is_Some (intent_in t ws (xc_effect_id r));
  ok_reconciliations : forall id row, xt_reconciliations t !! id = Some row ->
    exists x ws n, xr_id x = id /\ row = reconciliation_row ws n x /\ is_Some (intent_in t ws (xr_effect_id x)) /\
      (is_settled (xr_outcome x) = true -> settled_transition t (xr_effect_id x));
  ok_order : ordered_pairs follows (xt_transitions t);
  ok_next : forall r, r ∈ xt_transitions t -> tw_id r = tw_ordinal r /\ (tw_ordinal r < xt_next t)%Z;
  ok_transitions : forall r, r ∈ xt_transitions t -> transition_ok t r;
}.

(** ** Extension *)

(** The same reconciliation, perhaps notified since. *)
Definition same_reconciliation (a b : ReconciliationRow J) : Prop :=
  exists n, b = mkReconciliationRow (xw_effect_id a) (xw_receipt_id a) (xw_workspace_id a) (xw_outcome a)
                  (xw_evidence_strength a) (xw_reconciled_at a) (xw_payload a) n.

Record extends t t' : Prop := {
  ex_intents : xt_intents t ⊆ xt_intents t';
  ex_authorizations : xt_authorizations t ⊆ xt_authorizations t';
  ex_receipts : xt_receipts t ⊆ xt_receipts t';
  ex_reconciliations : forall id row, xt_reconciliations t !! id = Some row ->
    exists row', xt_reconciliations t' !! id = Some row' /\ same_reconciliation row row';
  ex_transitions : xt_transitions t `prefix_of` xt_transitions t';
}.

Lemma same_reconciliation_refl a : same_reconciliation a a.
Proof. exists (xw_notified_at a). by destruct a. Qed.

#[export] Instance extends_preorder : PreOrder extends.
Proof.
  split.
  - intros t. split; try done. intros id row H. exists row. split; [done|apply same_reconciliation_refl].
  - intros a b c [] []. split; try by etrans.
    intros id row H. destruct (ex_reconciliations0 id row H) as (r1 & H1 & n1 & ->).
    destruct (ex_reconciliations1 id _ H1) as (r2 & H2 & n2 & ->). eexists. split; [done|]. by exists n2.
Qed.

Lemma intent_in_extends t t' ws e row : extends t t' -> intent_in t ws e = Some row -> intent_in t' ws e = Some row.
Proof.
  intros He. unfold intent_in. destruct (xt_intents t !! e) as [r|] eqn:E; [|done].
  by rewrite (lookup_weaken _ _ _ _ E (ex_intents _ _ He)).
Qed.

Lemma intent_in_Some t ws e row : intent_in t ws e = Some row <-> xt_intents t !! e = Some row /\ iw_workspace_id row = ws.
Proof.
  unfold intent_in. destruct (xt_intents t !! e) as [r|]; simpl; [|naive_solver].
  destruct (eqb (iw_workspace_id r) ws) eqn:E; [rewrite eqb_true in E|rewrite eqb_false in E]; naive_solver.
Qed.

Lemma extends_append t e ws st c ref at_ o x : extends t (append_transition t e ws st c ref at_ o x).
Proof.
  split; simpl; try done.
  - intros id row H. exists row. split; [done|apply same_reconciliation_refl].
  - by eexists.
Qed.

Lemma extends_set_intents t id row : xt_intents t !! id = None -> extends t (set_intents t (<[id := row]> (xt_intents t))).
Proof.
  intros H. split; simpl; try done; [by apply insert_subseteq|].
  intros x r Hx. exists r. split; [done|apply same_reconciliation_refl].
Qed.

Lemma extends_set_authorizations t id row :
  xt_authorizations t !! id = None -> extends t (set_authorizations t (<[id := row]> (xt_authorizations t))).
Proof.
  intros H. split; simpl; try done; [by apply insert_subseteq|].
  intros x r Hx. exists r. split; [done|apply same_reconciliation_refl].
Qed.

Lemma extends_set_receipts t id row : xt_receipts t !! id = None -> extends t (set_receipts t (<[id := row]> (xt_receipts t))).
Proof.
  intros H. split; simpl; try done; [by apply insert_subseteq|].
  intros x r Hx. exists r. split; [done|apply same_reconciliation_refl].
Qed.

Lemma extends_set_reconciliation t id row :
  (forall old, xt_reconciliations t !! id = Some old -> same_reconciliation old row) ->
  extends t (set_reconciliations t (<[id := row]> (xt_reconciliations t))).
Proof.
  intros H. split; simpl; try done. intros x r Hx. destruct (base.decide (id = x)) as [->|Hne].
  - exists row. rewrite lookup_insert_eq. auto.
  - exists r. rewrite lookup_insert_ne by done. split; [done|apply same_reconciliation_refl].
Qed.

Lemma settled_transition_extends t t' e : extends t t' -> settled_transition t e -> settled_transition t' e.
Proof.
  intros He (r & Hr & ? & ?). exists r. split_and!; try done. destruct (ex_transitions _ _ He) as [l ->].
  apply elem_of_app. by left.
Qed.

Lemma has_receipt_true ws e t :
  has_receipt ws e t = true <->
  exists id row, xt_receipts t !! id = Some row /\ cw_effect_id row = e /\ cw_workspace_id row = ws.
Proof.
  unfold has_receipt, any. rewrite existsb_exists. split.
  - intros ([id row] & Hin & Hb). simpl in Hb. apply andb_prop in Hb as [H1 H2]. rewrite eqb_true in H1, H2.
    exists id, row. split_and!; try done. by apply elem_of_map_to_list, list_elem_of_In.
  - intros (id & row & Hl & <- & <-). exists (id, row). simpl. rewrite !eqb_refl. split; [|done].
    by apply list_elem_of_In, elem_of_map_to_list.
Qed.

Lemma has_receipt_extends ws e t t' : extends t t' -> has_receipt ws e t = true -> has_receipt ws e t' = true.
Proof.
  rewrite !has_receipt_true. intros He (id & row & Hl & ? & ?). exists id, row. split_and!; try done.
  eapply lookup_weaken; [done|]. apply (ex_receipts _ _ He).
Qed.

Lemma transition_ok_extends t t' r : extends t t' -> transition_ok t r -> transition_ok t' r.
Proof.
  intros He ((row & Hi) & Hs & Hd & Hc). split; [exists row; by eapply intent_in_extends|]. split; [done|].
  split; [done|]. destruct (tw_cause r); try done; eauto using has_receipt_extends, settled_transition_extends.
  destruct Hc as (Hu & d & Hin & Hrow). split; [done|]. exists d. split; [|done].
  destruct (ex_transitions _ _ He) as [l ->]. apply elem_of_app. by left.
Qed.

(** ** One insertion *)

(** The rows that refer to an intent survive an extension. *)
Lemma tables_ok_rows t t' : extends t t' -> tables_ok t ->
  (forall r, r ∈ xt_transitions t -> transition_ok t' r) /\
  (forall id row, xt_receipts t !! id = Some row ->
    exists r ws c, xc_id r = id /\ row = receipt_row ws c r /\ is_Some (intent_in t' ws (xc_effect_id r))) /\
  (forall id row, xt_reconciliations t !! id = Some row ->
    exists x ws n, xr_id x = id /\ row = reconciliation_row ws n x /\ is_Some (intent_in t' ws (xr_effect_id x)) /\
      (is_settled (xr_outcome x) = true -> settled_transition t' (xr_effect_id x))).
Proof.
  intros He []. split_and!.
  - intros r Hr. eapply transition_ok_extends; eauto.
  - intros id row H. destruct (ok_receipts0 id row H) as (r & ws & c & ? & ? & i & ?). exists r, ws, c.
    split_and!; try done. exists i. by eapply intent_in_extends.
  - intros id row H. destruct (ok_reconciliations0 id row H) as (x & ws & n & ? & ? & (i & ?) & ?). exists x, ws, n.
    split_and!; try done; [exists i; by eapply intent_in_extends|]. intros. eapply settled_transition_extends; eauto.
Qed.

Definition appended t e ws st c ref at_ o x : TransitionRow :=
  mkTransition (xt_next t) (xt_next t) e ws st c ref at_ o x.

Lemma tables_ok_append t e ws st c ref at_ o x :
  tables_ok t -> after_dispatch c \/ no_dispatch t e ->
  (c = TransitionCause.DispatchLost -> any (adoption_of ws e ref) (xt_transitions t) = false) ->
  transition_ok (append_transition t e ws st c ref at_ o x) (appended t e ws st c ref at_ o x) ->
  tables_ok (append_transition t e ws st c ref at_ o x).
Proof.
  intros Hok Hc Hl Hn. pose proof (extends_append t e ws st c ref at_ o x) as He.
  destruct (tables_ok_rows _ _ He Hok) as (Ht & Hr & Hx). destruct Hok. split; simpl; try done.
  - apply ordered_pairs_snoc; [done|]. intros r Hin. split_and!; simpl.
    + by apply ok_next0.
    + intros Hd Heq. destruct Hc as [|Hc]; [done|]. by destruct (Hc r Hin).
    + intros Hlost. destruct (adoption_of _ _ _ _) eqn:E; [|done]. unfold adoption_of in E. simpl in E. bool_hyps.
      subst. specialize (Hl eq_refl). unfold any in Hl.
      assert (existsb (adoption_of (tw_workspace_id r) (tw_effect_id r) (tw_cause_ref r)) (xt_transitions t) = true);
        [|congruence].
      apply existsb_exists. exists r. split; [by apply list_elem_of_In|]. unfold adoption_of.
      by rewrite !eqb_refl, Hlost.
  - intros r [Hin| ->%list_elem_of_singleton]%elem_of_app; simpl; [|lia].
    destruct (ok_next0 r Hin). lia.
  - intros r [Hin| ->%list_elem_of_singleton]%elem_of_app; auto.
Qed.

(** A statement that leaves the transitions alone, and inserts at most one receipt or reconciliation row. *)
Lemma tables_ok_rest t t' :
  tables_ok t -> extends t t' -> xt_transitions t' = xt_transitions t -> xt_next t' = xt_next t ->
  (forall id row, xt_intents t' !! id = Some row -> xt_intents t !! id = None ->
     exists i, in_id i = id /\ row = intent_row i) ->
  (forall id row, xt_receipts t' !! id = Some row -> xt_receipts t !! id = None ->
     exists r ws c, xc_id r = id /\ row = receipt_row ws c r /\ is_Some (intent_in t' ws (xc_effect_id r))) ->
  (forall id row, xt_reconciliations t' !! id = Some row ->
     exists x ws n, xr_id x = id /\ row = reconciliation_row ws n x /\ is_Some (intent_in t' ws (xr_effect_id x)) /\
       (is_settled (xr_outcome x) = true -> settled_transition t' (xr_effect_id x))) ->
  tables_ok t'.
Proof.
  intros Hok He Etr En Hi Hr Hx. destruct (tables_ok_rows _ _ He Hok) as (Ht & Hr' & _). destruct Hok.
  split; rewrite ?Etr, ?En; try done.
  - intros id row H. destruct (xt_intents t !! id) as [row'|] eqn:E; [|by apply Hi].
    rewrite (lookup_weaken _ _ _ _ E (ex_intents _ _ He)) in H. injection H as <-. by apply ok_intents0.
  - intros id row H. destruct (xt_receipts t !! id) as [row'|] eqn:E; [|by apply Hr].
    rewrite (lookup_weaken _ _ _ _ E (ex_receipts _ _ He)) in H. injection H as <-. by apply Hr'.
Qed.

(** ** The statements *)

(** A statement that keeps the invariant and only extends the tables. *)
Definition keeps {R} t (x : R * EffectTables J) : Prop := tables_ok x.2 /\ extends t x.2.

Lemma keeps_same {R} t (r : R) : tables_ok t -> keeps t (r, t).
Proof. by split. Qed.

Lemma no_dispatch_absent t e : tables_ok t -> xt_intents t !! e = None -> no_dispatch t e.
Proof.
  intros Hok Hn r Hin <-. destruct (ok_transitions t Hok r Hin) as ((row & Hi) & _).
  apply intent_in_Some in Hi as [Hi _]. congruence.
Qed.

Lemma intent_in_after t e ws st c ref at_ o x w i :
  intent_in (append_transition t e ws st c ref at_ o x) w i = intent_in t w i.
Proof. done. Qed.

(** A transition that only says something about its intent. *)
Lemma transition_ok_plain t e ws st c ref at_ o x :
  is_Some (intent_in t ws e) -> st <> EffectLifecycleStatus.Dispatching ->
  c = TransitionCause.IntentRecorded \/ c = TransitionCause.AuthorizationRecorded \/ c = TransitionCause.OutcomeSettled ->
  transition_ok (append_transition t e ws st c ref at_ o x) (appended t e ws st c ref at_ o x).
Proof. intros Hi Hst [-> | [-> | ->]]; repeat split; try done; by intros [= ?]. Qed.

Lemma insert_intent_keeps ctx i t : tables_ok t -> keeps t (insert_intent ctx i t).
Proof.
  intros Hok. unfold insert_intent. destruct (negb _) eqn:Ew; [by apply keeps_same|]. bool_hyps.
  destruct (xt_intents t !! in_id i) eqn:E; [by apply keeps_same|].
  set (t1 := set_intents t _). assert (He : extends t t1) by by apply extends_set_intents.
  assert (Hok1 : tables_ok t1).
  { destruct (tables_ok_rows _ _ He Hok) as (_ & _ & Hx). apply (tables_ok_rest t); try done.
    - simpl. intros id row. destruct (base.decide (in_id i = id)) as [<-|Hne].
      + rewrite lookup_insert_eq. intros [= <-] _. by exists i.
      + rewrite lookup_insert_ne by done. congruence.
    - simpl. intros. congruence. }
  split; [|etrans; [exact He|apply extends_append]]. apply tables_ok_append; try done.
  - right. intros r Hin Heq. by apply (no_dispatch_absent t (in_id i) Hok E).
  - apply transition_ok_plain; [|done|by left]. eexists. apply intent_in_Some. simpl. rewrite lookup_insert_eq. done.
Qed.

Lemma record_authorization_keeps ctx e d t :
  tables_ok t -> no_dispatch t e -> keeps t (record_authorization ctx e d t).
Proof.
  intros Hok Hno. unfold record_authorization. destruct (negb _); [by apply keeps_same|].
  destruct (is_some _) eqn:Es; [by apply keeps_same|]. apply is_some_false in Es.
  destruct (intent_in t _ e) eqn:Ei; [|by apply keeps_same].
  set (t1 := set_authorizations t _). assert (He : extends t t1) by by apply extends_set_authorizations.
  assert (Hok1 : tables_ok t1).
  { destruct (tables_ok_rows _ _ He Hok) as (_ & _ & Hx). apply (tables_ok_rest t); simpl; try done; congruence. }
  destruct (is_allowed d); [|by split]. split; [|etrans; [exact He|apply extends_append]].
  apply tables_ok_append; try done. by right.
Qed.

Lemma record_dispatch_started_keeps ctx e owner exp at_ t :
  tables_ok t -> no_dispatch t e -> keeps t (record_dispatch_started ctx e owner exp at_ t).
Proof.
  intros Hok Hno. unfold record_dispatch_started. destruct (intent_in t _ e) eqn:Ei; [|by apply keeps_same].
  split; [|apply extends_append]. apply tables_ok_append; try done. by right.
Qed.

Lemma insert_receipt_keeps ctx r t :
  tables_ok t -> xc_outcome_status r <> EffectLifecycleStatus.Dispatching -> keeps t (insert_receipt ctx r t).
Proof.
  intros Hok Hst. unfold insert_receipt. destruct (xt_receipts t !! xc_id r) eqn:E; [by apply keeps_same|].
  destruct (intent_in t _ (xc_effect_id r)) eqn:Ei; [|by apply keeps_same].
  set (t1 := set_receipts t _). assert (He : extends t t1) by by apply extends_set_receipts.
  assert (Hok1 : tables_ok t1).
  { destruct (tables_ok_rows _ _ He Hok) as (_ & _ & Hx). apply (tables_ok_rest t); try done; simpl.
    - congruence.
    - intros id row. destruct (base.decide (xc_id r = id)) as [<-|Hne].
      + rewrite lookup_insert_eq. intros [= <-] _. exists r, (rc_workspace_id ctx), (xt_now t). split_and!; try done.
      + rewrite lookup_insert_ne by done. congruence. }
  split; [|etrans; [exact He|apply extends_append]]. apply tables_ok_append; try done; [by left|].
  repeat split; try done; simpl.
  apply has_receipt_true. exists (xc_id r). eexists. simpl. by rewrite lookup_insert_eq.
Qed.

Lemma adopt_lost_dispatch_keeps ctx e d at_ t : tables_ok t -> keeps t (adopt_lost_dispatch ctx e d at_ t).
Proof.
  intros Hok. unfold adopt_lost_dispatch. destruct (any _ _) eqn:Ea; [by apply keeps_same|].
  destruct (any (dispatching_row _ _ _) _) eqn:Ed; [|by apply keeps_same].
  apply existsb_exists in Ed as (r & Hin%list_elem_of_In & Hr).
  split; [|apply extends_append]. apply tables_ok_append; try done; [by left|].
  assert (Hr' := Hr). unfold dispatching_row in Hr'. bool_hyps. subst.
  destruct (ok_transitions t Hok r Hin) as (Hi & _). split.
  { rewrite intent_in_after. simpl. congruence. }
  repeat split; try done. exists r. split; [|done]. simpl. apply elem_of_app. by left.
Qed.

Lemma record_failed_recovery_attempt_keeps ctx e at_ reason t :
  tables_ok t -> keeps t (record_failed_recovery_attempt ctx e at_ reason t).
Proof.
  intros Hok. unfold record_failed_recovery_attempt. destruct (intent_in _ _ _); [|by apply keeps_same].
  assert (He : extends t (set_attempts t (xt_attempts t ++ [mkAttempt e (rc_workspace_id ctx) at_ reason]))).
  { split; simpl; try done. intros id row Hl. exists row. split; [done|apply same_reconciliation_refl]. }
  split; [|done]. destruct (tables_ok_rows _ _ He Hok) as (_ & _ & Hx).
  apply (tables_ok_rest t); simpl; try done; congruence.
Qed.

(** The time and the presence of workers are not part of the invariant. *)
Lemma tables_ok_clock t attempts presence now :
  tables_ok t -> let t' := mkEffectTables (xt_intents t) (xt_authorizations t) (xt_receipts t) (xt_reconciliations t)
    (xt_transitions t) attempts presence (xt_next t) now in tables_ok t' /\ extends t t'.
Proof.
  intros Hok t'. assert (He : extends t t').
  { split; simpl; try done. intros id row Hl. exists row. split; [done|apply same_reconciliation_refl]. }
  split; [|done]. destruct (tables_ok_rows _ _ He Hok) as (_ & _ & Hx). apply (tables_ok_rest t); simpl; try done; congruence.
Qed.

Lemma settled_after t e ws st at_ o x ref :
  settled_transition (append_transition t e ws st TransitionCause.OutcomeSettled ref at_ o x) e.
Proof. eexists. split; [apply elem_of_app; right; by left|done]. Qed.

Lemma insert_reconciliation_keeps ctx x t : tables_ok t -> keeps t (insert_reconciliation ctx x t).
Proof.
  intros Hok. unfold insert_reconciliation. destruct (xt_reconciliations t !! xr_id x) eqn:E; [by apply keeps_same|].
  destruct (negb _) eqn:Ep; [by apply keeps_same|]. bool_hyps. unfold reconciliation_parents in Ep. bool_hyps.
  match goal with H : is_some (intent_in _ _ _) = true |- _ => apply is_some_true in H as (i & Hi) end.
  set (m := <[xr_id x := _]> _).
  assert (Hset : forall t0, xt_reconciliations t0 = xt_reconciliations t -> extends t0 (set_reconciliations t0 m)).
  { intros t0 Eq0. unfold m. rewrite <-Eq0. apply extends_set_reconciliation. rewrite Eq0, E. done. }
  assert (Hrow : forall t0, xt_reconciliations t0 = xt_reconciliations t -> tables_ok t0 ->
    is_Some (intent_in t0 (rc_workspace_id ctx) (xr_effect_id x)) ->
    (is_settled (xr_outcome x) = true -> settled_transition t0 (xr_effect_id x)) -> tables_ok (set_reconciliations t0 m)).
  { intros t0 Eq0 Hok0 Hi0 Hs0. destruct (tables_ok_rows _ _ (Hset t0 Eq0) Hok0) as (_ & _ & Hx).
    apply (tables_ok_rest t0); try done; [by apply Hset|simpl; congruence|simpl; congruence|].
    simpl. intros id row. unfold m. destruct (base.decide (xr_id x = id)) as [<-|Hne].
    - rewrite lookup_insert_eq. intros [= <-]. by exists x, (rc_workspace_id ctx), None.
    - rewrite lookup_insert_ne by done. rewrite <-Eq0. apply Hx. }
  destruct (is_settled (xr_outcome x)) eqn:Es.
  - set (t1 := append_transition t (xr_effect_id x) (rc_workspace_id ctx) EffectLifecycleStatus.Reconciling
                 TransitionCause.OutcomeSettled (xr_id x) (xr_reconciled_at x) None None).
    assert (Hok1 : tables_ok t1).
    { apply tables_ok_append; try done. by left. }
    assert (He1 : extends t t1) by apply extends_append. split; [|exact (transitivity He1 (Hset t1 eq_refl))].
    apply (Hrow t1); try done. intros _. apply settled_after.
  - split; [|by apply Hset]. by apply Hrow.
Qed.

Lemma intent_in_set_reconciliations t m ws e : intent_in (set_reconciliations t m) ws e = intent_in t ws e.
Proof. done. Qed.

Lemma named_settled_name o : named_settled (outcome_name o) = is_settled o.
Proof. by destruct o. Qed.

Lemma mark_outcome_delivered_keeps ctx id at_ t : tables_ok t -> keeps t (mark_outcome_delivered ctx id at_ t).
Proof.
  intros Hok. unfold mark_outcome_delivered. destruct (opt_filter _ _) as [r|] eqn:E; [|by apply keeps_same].
  apply opt_filter_Some in E as [E Hb].
  destruct (ok_reconciliations t Hok id r E) as (x & ws & n & Hid & -> & Hi & Hs). simpl.
  assert (Hsame : extends t (set_reconciliations t (<[id := reconciliation_row ws (Some at_) x]> (xt_reconciliations t)))).
  { apply extends_set_reconciliation. rewrite E. intros ? [= <-]. by exists (Some at_). }
  assert (Hok1 : tables_ok (set_reconciliations t (<[id := reconciliation_row ws (Some at_) x]> (xt_reconciliations t)))).
  { destruct (tables_ok_rows _ _ Hsame Hok) as (_ & _ & Hx). apply (tables_ok_rest t); simpl; try done; try congruence.
    intros k row. destruct (base.decide (id = k)) as [<-|Hne]; [|rewrite lookup_insert_ne by done; apply Hx].
    rewrite lookup_insert_eq. intros [= <-]. by exists x, ws, (Some at_). }
  bool_hyps. simpl in *. subst ws.
  destruct (is_settled (xr_outcome x)) eqn:Es; [|by destruct (xr_outcome x); try done; apply keeps_same].
  assert (Hst : exists st, st <> EffectLifecycleStatus.Dispatching /\
    (if String.eqb (outcome_name (xr_outcome x)) "confirmed" then Some EffectLifecycleStatus.Confirmed
     else if String.eqb (outcome_name (xr_outcome x)) "not_applied" then Some EffectLifecycleStatus.Failed else None) = Some st).
  { destruct (xr_outcome x); try done; eexists; (split; [|reflexivity]); done. }
  destruct Hst as (st & Hst & ->). destruct Hi as (i & Hi). rewrite intent_in_set_reconciliations, Hi. simpl.
  split; [|etrans; [exact Hsame|apply extends_append]]. apply tables_ok_append; try done; [by left|].
  repeat split; try done; simpl.
  eapply settled_transition_extends; [apply extends_append|]. by apply Hs.
Qed.

(** ** Which statement dispatches, notifies and inserts *)

Lemma no_dispatch_append t e ws st c ref at_ o x e' :
  no_dispatch t e' -> st <> EffectLifecycleStatus.Dispatching \/ e <> e' ->
  no_dispatch (append_transition t e ws st c ref at_ o x) e'.
Proof.
  intros H Hst r [Hin| ->%list_elem_of_singleton]%elem_of_app; [by apply H|]. simpl. intros <-. by destruct Hst.
Qed.

(** Only [record_dispatch_started] records a dispatch, and only of its effect. *)
Definition quiet t t' : Prop := forall e, no_dispatch t e -> no_dispatch t' e.

(** Only [mark_outcome_delivered] notifies. *)
Definition unnotified t t' : Prop := forall id row', xt_reconciliations t' !! id = Some row' ->
  is_Some (xw_notified_at row') -> exists row, xt_reconciliations t !! id = Some row /\ is_Some (xw_notified_at row).

Lemma unnotified_same t t' : xt_reconciliations t' = xt_reconciliations t -> unnotified t t'.
Proof. intros E id row H ?. exists row. by rewrite <-E. Qed.

Ltac statement_cases :=
  repeat match goal with
  | |- context [match ?x with _ => _ end] =>
      lazymatch x with context [match _ with _ => _ end] => fail | _ => destruct x eqn:? end
  end.
Ltac quiet_tac := intros ? ?; statement_cases; try done; by apply no_dispatch_append; [|left].

Lemma insert_intent_quiet ctx i t : quiet t (insert_intent ctx i t).2 /\ unnotified t (insert_intent ctx i t).2.
Proof. unfold insert_intent. split; [quiet_tac|apply unnotified_same; by statement_cases]. Qed.

Lemma insert_intent_intents ctx i t id :
  is_Some (xt_intents (insert_intent ctx i t).2 !! id) -> is_Some (xt_intents t !! id) \/ id = in_id i.
Proof.
  unfold insert_intent. statement_cases; auto. simpl. destruct (base.decide (in_id i = id)) as [<-|]; [auto|].
  rewrite lookup_insert_ne by done. auto.
Qed.

Lemma record_authorization_quiet ctx e d t :
  quiet t (record_authorization ctx e d t).2 /\ unnotified t (record_authorization ctx e d t).2 /\
  xt_intents (record_authorization ctx e d t).2 = xt_intents t.
Proof. unfold record_authorization. split_and!; [quiet_tac|apply unnotified_same|]; by statement_cases. Qed.

Lemma record_dispatch_started_quiet ctx e owner exp at_ t :
  (forall e', e <> e' -> no_dispatch t e' -> no_dispatch (record_dispatch_started ctx e owner exp at_ t).2 e') /\
  unnotified t (record_dispatch_started ctx e owner exp at_ t).2 /\
  xt_intents (record_dispatch_started ctx e owner exp at_ t).2 = xt_intents t.
Proof.
  unfold record_dispatch_started. split_and!; [|apply unnotified_same; by statement_cases|by statement_cases].
  intros e' Hne H. statement_cases; try done. apply no_dispatch_append; [done|by right].
Qed.

Lemma insert_receipt_quiet ctx r t : xc_outcome_status r <> EffectLifecycleStatus.Dispatching ->
  quiet t (insert_receipt ctx r t).2 /\ unnotified t (insert_receipt ctx r t).2 /\
  xt_intents (insert_receipt ctx r t).2 = xt_intents t.
Proof. intros Hst. unfold insert_receipt. split_and!; [quiet_tac|apply unnotified_same|]; by statement_cases. Qed.

Lemma adopt_lost_dispatch_quiet ctx e d at_ t :
  quiet t (adopt_lost_dispatch ctx e d at_ t).2 /\ unnotified t (adopt_lost_dispatch ctx e d at_ t).2 /\
  xt_intents (adopt_lost_dispatch ctx e d at_ t).2 = xt_intents t.
Proof. unfold adopt_lost_dispatch. split_and!; [quiet_tac|apply unnotified_same|]; by statement_cases. Qed.

Lemma record_failed_recovery_attempt_quiet ctx e at_ reason t :
  quiet t (record_failed_recovery_attempt ctx e at_ reason t).2 /\
  unnotified t (record_failed_recovery_attempt ctx e at_ reason t).2 /\
  xt_intents (record_failed_recovery_attempt ctx e at_ reason t).2 = xt_intents t.
Proof. unfold record_failed_recovery_attempt. split_and!; [quiet_tac|apply unnotified_same|]; by statement_cases. Qed.

Lemma insert_reconciliation_quiet ctx x t :
  quiet t (insert_reconciliation ctx x t).2 /\ unnotified t (insert_reconciliation ctx x t).2 /\
  xt_intents (insert_reconciliation ctx x t).2 = xt_intents t.
Proof.
  unfold insert_reconciliation. split_and!; [quiet_tac| |by statement_cases].
  intros id row'. statement_cases; simpl; eauto.
  all: destruct (base.decide (xr_id x = id)) as [<-|]; [rewrite lookup_insert_eq; intros [= <-] [? [=]]|].
  all: rewrite lookup_insert_ne by done; eauto.
Qed.

Lemma mark_outcome_delivered_quiet ctx id at_ t :
  quiet t (mark_outcome_delivered ctx id at_ t).2 /\
  (forall id' row', xt_reconciliations (mark_outcome_delivered ctx id at_ t).2 !! id' = Some row' ->
     is_Some (xw_notified_at row') -> (exists row, xt_reconciliations t !! id' = Some row /\ is_Some (xw_notified_at row)) \/
     id' = id /\ xw_workspace_id row' = rc_workspace_id ctx) /\
  xt_intents (mark_outcome_delivered ctx id at_ t).2 = xt_intents t.
Proof.
  unfold mark_outcome_delivered. split_and!; [quiet_tac| |by statement_cases].
  intros id' row'. destruct (opt_filter _ _) as [r|] eqn:Er; [|simpl; eauto].
  apply opt_filter_Some in Er as [_ Hws]. bool_hyps.
  statement_cases; simpl; eauto.
  all: destruct (base.decide (id = id')) as [<-|]; [rewrite lookup_insert_eq; intros [= <-] ?; by right|].
  all: rewrite lookup_insert_ne by done; eauto.
Qed.

(** ** One dispatch, one adoption *)

Lemma one_dispatch t r r' : tables_ok t -> r ∈ xt_transitions t -> r' ∈ xt_transitions t ->
  tw_effect_id r = tw_effect_id r' -> tw_status r = EffectLifecycleStatus.Dispatching ->
  tw_status r' = EffectLifecycleStatus.Dispatching -> r = r'.
Proof.
  intros Ht Hin Hin' He Hs Hs'. destruct (ok_transitions _ Ht r Hin) as (_ & [Hc _] & _).
  destruct (ok_transitions _ Ht r' Hin') as (_ & [Hc' _] & _).
  destruct (ordered_pairs_total _ _ _ _ (ok_order _ Ht) Hin Hin') as [?|[(_ & Hf & _)|(_ & Hf & _)]]; [done|..].
  - specialize (Hf Hs (eq_sym He)). by rewrite Hc' in Hf.
  - specialize (Hf Hs' He). by rewrite Hc in Hf.
Qed.

Lemma once_per_effect t r r' : tables_ok t -> r ∈ xt_transitions t -> r' ∈ xt_transitions t ->
  tw_effect_id r = tw_effect_id r' -> tw_cause r = tw_cause r' ->
  tw_cause r = TransitionCause.DispatchStarted \/ tw_cause r = TransitionCause.DispatchLost -> r = r'.
Proof.
  intros Ht Hin Hin' He Hc Hcase. destruct (ok_transitions _ Ht r Hin) as (_ & Hs & _ & Hl).
  destruct (ok_transitions _ Ht r' Hin') as (_ & Hs' & _ & Hl'). destruct Hcase as [E|E].
  { eapply one_dispatch; eauto; [by apply Hs|]. apply Hs'. congruence. }
  rewrite <-Hc in Hl'. rewrite E in Hl, Hl'. destruct Hl as (_ & d & Hd & Hdr), Hl' as (_ & d' & Hd' & Hdr').
  unfold dispatching_row in Hdr, Hdr'. bool_hyps. assert (d = d') as <- by (eapply one_dispatch; eauto; congruence).
  assert (Hno : forall a b, tw_cause a = TransitionCause.DispatchLost -> tw_cause b = TransitionCause.DispatchLost ->
    tw_workspace_id b = tw_workspace_id a -> tw_effect_id b = tw_effect_id a -> tw_cause_ref b = tw_cause_ref a ->
    follows a b -> False).
  { intros a b Ha Hb Q1 Q2 Q3 (_ & _ & Hf). specialize (Hf Ha). unfold adoption_of in Hf.
    by rewrite Q1, Q2, Q3, Hb, !eqb_refl in Hf. }
  destruct (ordered_pairs_total _ _ _ _ (ok_order _ Ht) Hin Hin') as [?|[Hf|Hf]]; [done|..]; exfalso.
  - eapply (Hno r r'); eauto; congruence.
  - eapply (Hno r' r); eauto; congruence.
Qed.

End Invariant.
