(* ===== verification/EffectRecoveryProps.v ===== *)
(** * Finding lost dispatches

    What the candidate query of the effect repository finds on tables that satisfy the invariant:
    every row it selects can be decoded, and a dispatch without receipt and without settlement is
    selected once its deadlines passed. *)

From Stdlib Require Import ZArith Lia String.
From stdpp Require Import base option numbers strings gmap sorting list.
From S2P Require Import Prelude Codec Crypto Text RunStatus RunDecider AgentRun RunReplay RunPorts RunStore WorkQueue.
From S2P Require Import PgRunStore ResourceScope Capability ExternalEffects EffectStore EffectStoreProps.

(** The last element with a property. *)
Lemma last_such {A} (P : A -> Prop) `{!forall a, Decision (P a)} (l : list A) a :
  a ∈ l -> P a -> exists l1 r l2, l = l1 ++ r :: l2 /\ P r /\ forall r', r' ∈ l2 -> ~ P r'.
Proof.
  induction l as [|x l IH] using rev_ind; intros Hin Ha; [by apply not_elem_of_nil in Hin|].
  destruct (base.decide (P x)) as [Hx|Hx].
  - exists l, x, []. split_and!; try done. intros r' Hr'. by apply not_elem_of_nil in Hr'.
  - apply elem_of_app in Hin as [Hin| ->%list_elem_of_singleton]; [|done].
    destruct (IH Hin Ha) as (l1 & r & l2 & -> & Hr & Hl2). exists l1, r, (l2 ++ [x]). split_and!; [|done|].
    + by rewrite <-(assoc_L (++)).
    + intros r' [Hr'| ->%list_elem_of_singleton]%elem_of_app; auto.
Qed.

Lemma collect_rows_total {A B} (f : A -> result ApplicationError B) rows :
  (forall r, r ∈ rows -> exists b, f r = Ok b) ->
  exists bs, collect_rows f rows = Ok bs /\ length bs = length rows /\
    forall r, r ∈ rows -> exists b, b ∈ bs /\ f r = Ok b.
Proof.
  induction rows as [|r rows IH]; intros H; [exists []; split_and!; try done; intros r Hr; by apply not_elem_of_nil in Hr|].
  destruct (H r) as (b & Hb); [by left|]. destruct IH as (bs & Hbs & Hlen & Hall); [intros; apply H; by right|].
  exists (b :: bs). simpl. rewrite Hb. simpl. rewrite Hbs. simpl. split_and!; [done|by rewrite Hlen|].
  intros r' [->|Hr']%elem_of_cons; [exists b; split; [by left|done]|].
  destruct (Hall r' Hr') as (b' & ? & ?). exists b'. split; [by right|done].
Qed.

Section Recovery.
Context {J : Type} {SI : Serde J ExternalEffectIntent} {SR : Serde J ExternalEffectReceipt}
  {SX : Serde J ExternalReconciliation} {SD : Serde J PolicyDecision} {PX : PayloadIndex (J := J)}.
Context {SIok : SerdeOk J ExternalEffectIntent} {SRok : SerdeOk J ExternalEffectReceipt}.

Implicit Types t : EffectTables J.

Lemma intent_of_row_stored t ws e row : tables_ok t -> intent_in t ws e = Some row ->
  exists i, intent_of_row e row = Ok i /\ in_id i = e.
Proof.
  intros Ht Hi. apply intent_in_Some in Hi as [Hi _]. destruct (ok_intents _ Ht _ _ Hi) as (i & Hid & ->). exists i.
  unfold intent_of_row, decode. simpl. rewrite from_to_value. simpl. by rewrite Hid, !eqb_refl.
Qed.

Lemma outcome_named s : String.eqb (EffectLifecycleStatus.lifecycle_name s) "unknown"
    || String.eqb (EffectLifecycleStatus.lifecycle_name s) "acknowledged" =
  match s with EffectLifecycleStatus.Acknowledged | EffectLifecycleStatus.Unknown => true | _ => false end.
Proof. by destruct s. Qed.

(** Every selected row decodes to a candidate of its intent. *)
Lemma candidate_decodes t ws u f x row : tables_ok t -> row ∈ candidate_rows ws u f x t ->
  exists c, candidate_of_row row = Ok c /\ in_id (ca_intent c) = qr_intent_id row.
Proof.
  intros Ht [Hr|Hr]%elem_of_app; apply list_elem_of_omap in Hr as (y & Hy & Hrow).
  - destruct y as [id r]. unfold receipt_candidate in Hrow. simpl in Hrow.
    destruct (_ && _ && _) eqn:E; [|done]. bool_hyps. apply bind_Some in Hrow as (irow & Hi & [= <-]).
    apply elem_of_map_to_list in Hy. destruct (ok_receipts _ Ht _ _ Hy) as (rc & ws' & c & Hid & -> & _). simpl in *.
    destruct (intent_of_row_stored _ _ _ _ Ht Hi) as (i & Hio & Hin).
    match goal with H : (_ || _) = true |- _ => rewrite outcome_named in H; rename H into Hq end.
    exists (mkCandidate i (Some rc) None). split; [|done].
    unfold candidate_of_row, receipt_of_row, decode, candidate_new, requires_reconciliation. simpl.
    rewrite Hio. simpl. rewrite from_to_value. simpl. rewrite Hid, !eqb_refl, String.eqb_refl.
    simpl. by rewrite Hin, eqb_refl, Hq.
  - unfold lost_candidate in Hrow. cbv zeta in Hrow. destruct (_ && _ && _ && _ && _) eqn:E; [|done].
    apply bind_Some in Hrow as (irow & Hi & [= <-]). destruct (intent_of_row_stored _ _ _ _ Ht Hi) as (i & Hio & Hin).
    eexists. unfold candidate_of_row. simpl. by rewrite Hio.
Qed.

(** The last transition of an effect whose dispatch nothing answered. *)
Lemma lost_row t ws e d :
  tables_ok t -> d ∈ xt_transitions t -> tw_effect_id d = e -> tw_workspace_id d = ws ->
  tw_status d = EffectLifecycleStatus.Dispatching -> has_receipt ws e t = false -> ~ settled_transition t e ->
  exists r, r ∈ xt_transitions t /\ tw_effect_id r = e /\ tw_workspace_id r = ws /\ superseded t r = false /\
    (tw_status r = EffectLifecycleStatus.Dispatching /\ is_Some (tw_dispatch_expires_at r) \/
     tw_status r = EffectLifecycleStatus.Unknown /\ tw_cause r = TransitionCause.DispatchLost).
Proof.
  intros Ht Hd He Hws Hst Hrec Hset.
  destruct (last_such (fun r => tw_effect_id r = e /\ tw_workspace_id r = ws) _ d Hd) as (l1 & r & l2 & El & [Er Ew] & Hl);
    [done|].
  assert (Hin : r ∈ xt_transitions t) by (rewrite El; apply elem_of_app; right; by left).
  exists r. split_and!; try done.
  - unfold superseded, any. apply not_true_iff_false. intros (n & Hn%list_elem_of_In & Hb)%existsb_exists. bool_hyps.
    rewrite El in Hn. apply elem_of_app in Hn as [Hn|[->|Hn]%elem_of_cons]; [|lia|apply (Hl n Hn); split; congruence].
    apply list_elem_of_split in Hn as (k1 & k2 & ->).
    assert (follows n r) as [Hlt _]; [|lia].
    eapply (ok_order _ Ht k1 n); [by rewrite El, <-(assoc_L (++))|]. apply elem_of_app. right. by left.
  - destruct (ok_transitions _ Ht r Hin) as (_ & Hs & Hdl & Hc).
    destruct (ordered_pairs_total _ _ d r (ok_order _ Ht) Hd Hin) as [<-|[Hf|Hf]]; [left; auto|..].
    + destruct Hf as (_ & Hf & _). specialize (Hf Hst). rewrite Er, He in Hf. specialize (Hf eq_refl).
      destruct (tw_cause r) eqn:Ec; try done.
      * rewrite Ew, Er, Hrec in Hc. done.
      * right. by destruct Hc as [-> _].
      * destruct Hset. by exists r.
      * rewrite Er in Hc. done.
    + exfalso. rewrite El in Hd. destruct Hf as [Hlt _]. apply elem_of_app in Hd as [Hd|[->|Hd]%elem_of_cons].
      * apply list_elem_of_split in Hd as (k1 & k2 & ->). assert (follows d r) as [Hlt' _]; [|lia].
        eapply (ok_order _ Ht k1 d); [by rewrite El, <-(assoc_L (++))|]. apply elem_of_app. right. by left.
      * lia.
      * by apply (Hl d Hd).
Qed.

Lemma latest_Some (p : Z * ReconciliationRow J -> bool) rows kr : latest p rows = Some kr -> kr ∈ rows /\ p kr = true.
Proof.
  revert kr. induction rows as [|r rows IH]; intros kr; simpl; [done|].
  destruct (latest p rows) as [b|] eqn:E.
  - destruct (p r && later_reconciliation r b) eqn:Ep; intros [= <-]; bool_hyps; [split; [by left|done]|].
    destruct (IH b eq_refl). split; [by right|done].
  - destruct (p r) eqn:Ep; [|done]. intros [= <-]. split; [by left|done].
Qed.

(** Without a settlement, asking again is only a matter of time. *)
Lemma askable_eventually t ws e receipt : tables_ok t -> ~ settled_transition t e ->
  exists b, forall u f, (b <= u)%Z -> (b <= f)%Z -> askable ws e receipt u f t = true.
Proof.
  intros Ht Hset. unfold askable. cbv zeta.
  assert (Hl : forall r, last_reconciliation ws e receipt t = Some r -> named_settled (xw_outcome r) = false).
  { unfold last_reconciliation. intros r Hr. apply fmap_Some in Hr as ([id row] & Hl & ->).
    apply latest_Some in Hl as [Hin Hab]. apply elem_of_map_to_list in Hin. unfold about in Hab. bool_hyps. simpl in *.
    destruct (ok_reconciliations _ Ht _ _ Hin) as (x & ws' & n & _ & -> & _ & Hs). simpl in *.
    rewrite named_settled_name. destruct (is_settled (xr_outcome x)); [|done]. destruct Hset.
    match goal with H : xr_effect_id x = e |- _ => rewrite <-H end. by apply Hs. }
  exists (1 + Z.max (match last_reconciliation ws e receipt t with Some r => xw_reconciled_at r | None => 0 end)
            (match last_attempt ws e t with Some f => f | None => 0 end))%Z.
  intros u f Hu Hf. destruct (last_reconciliation ws e receipt t) as [r|] eqn:Er.
  - rewrite (Hl r eq_refl). simpl. destruct (last_attempt ws e t) as [a|];
      rewrite ?andb_true_iff, ?orb_true_iff, ?Z.ltb_lt; split_and?; try lia; done.
  - destruct (last_attempt ws e t) as [a|]; simpl; [|done]. apply Z.ltb_lt. lia.
Qed.

Lemma lost_dispatch_selected t ws e d :
  tables_ok t -> d ∈ xt_transitions t -> tw_effect_id d = e -> tw_workspace_id d = ws ->
  tw_status d = EffectLifecycleStatus.Dispatching -> has_receipt ws e t = false -> ~ settled_transition t e ->
  exists b, forall u f x, (b <= u)%Z -> (b <= f)%Z -> (b <= x)%Z ->
    exists row, row ∈ candidate_rows ws u f x t /\ qr_intent_id row = e.
Proof.
  intros Ht Hd He Hws Hst Hrec Hset.
  destruct (lost_row t ws e d) as (r & Hin & Er & Ew & Hsup & Hr); try done.
  destruct (askable_eventually t ws e None Ht Hset) as (b & Hb).
  destruct (ok_transitions _ Ht r Hin) as ((irow & Hi) & _). rewrite Ew, Er in Hi.
  exists (Z.max b (1 + Z.max (tw_recorded_at r) (default 0 (tw_dispatch_expires_at r))))%Z. intros u f x Hu Hf Hx.
  eexists (mkCandidateRow e irow _ _ _ _). split; [|done].
  apply elem_of_app. right. apply list_elem_of_omap. exists r. split; [exact Hin|].
  unfold lost_candidate. cbv zeta. rewrite Ew, Er, eqb_refl, Hrec, Hsup, Hb, Hi by lia.
  assert (Hcase : ((tw_status r == EffectLifecycleStatus.Dispatching) && dispatch_expired ws x t r
    || (tw_status r == EffectLifecycleStatus.Unknown) && (tw_cause r == TransitionCause.DispatchLost)
       && (tw_recorded_at r <? u)%Z) = true).
  { destruct Hr as [[-> (exp & He')]|[-> ->]].
    - unfold dispatch_expired. rewrite He'. rewrite He' in Hx. simpl in Hx. rewrite eqb_refl. simpl.
      assert ((exp <? x)%Z = true) as -> by (apply Z.ltb_lt; lia). done.
    - rewrite !eqb_refl. simpl. apply Z.ltb_lt. lia. }
  rewrite Hcase. simpl. reflexivity.
Qed.

(** The query answers, and leaves such a dispatch out only when the batch is full. *)
Lemma lost_dispatch_returned ctx t e d :
  tables_ok t -> d ∈ xt_transitions t -> tw_effect_id d = e -> tw_workspace_id d = rc_workspace_id ctx ->
  tw_status d = EffectLifecycleStatus.Dispatching -> has_receipt (rc_workspace_id ctx) e t = false ->
  ~ settled_transition t e ->
  exists b, forall u f x limit, (b <= u)%Z -> (b <= f)%Z -> (b <= x)%Z -> (0 <= limit)%Z ->
    exists cs, find_reconciliation_candidates ctx u f x limit t = Ok cs /\
      ((exists c, c ∈ cs /\ in_id (ca_intent c) = e) \/ Z.of_nat (length cs) = limit).
Proof.
  intros Ht Hd He Hws Hst Hrec Hset. destruct (lost_dispatch_selected t _ e d Ht Hd He Hws Hst Hrec Hset) as (b & Hb).
  exists b. intros u f x limit Hu Hf Hx Hlim. destruct (Hb u f x Hu Hf Hx) as (row & Hrow & Hq).
  unfold find_reconciliation_candidates.
  set (sorted := merge_sort candidate_before (candidate_rows (rc_workspace_id ctx) u f x t)).
  assert (Hmem : forall r, r ∈ sorted <-> r ∈ candidate_rows (rc_workspace_id ctx) u f x t).
  { intros r. unfold sorted. by rewrite merge_sort_Permutation. }
  destruct (collect_rows_total candidate_of_row (take (Z.to_nat limit) sorted)) as (cs & Hcs & Hlen & Hall).
  { intros r Hr. apply (subseteq_take _ _), Hmem in Hr. destruct (candidate_decodes _ _ _ _ _ _ Ht Hr) as (c & Hc & _).
    by exists c. }
  exists cs. split; [done|]. apply Hmem in Hrow. rewrite <-(take_drop (Z.to_nat limit) sorted) in Hrow.
  apply elem_of_app in Hrow as [Hrow|Hrow].
  - left. destruct (Hall row Hrow) as (c & Hc & Hco). exists c. split; [done|].
    assert (Hin : row ∈ candidate_rows (rc_workspace_id ctx) u f x t) by by apply Hmem, (subseteq_take (Z.to_nat limit) sorted).
    destruct (candidate_decodes _ _ _ _ _ _ Ht Hin) as (c' & Hc' & Hid). congruence.
  - right. rewrite Hlen, length_take. apply list_elem_of_lookup in Hrow as (k & Hk). apply lookup_lt_Some in Hk.
    rewrite length_drop in Hk. lia.
Qed.

End Recovery.
