(* ===== verification/EffectProps.v ===== *)
(** * What the programs on the effect world keep

    A precondition calculus for one program under interference: [gwp] says that every call a program
    makes satisfies the rule for that call ([call_pre]), and that it calls an adapter only with the
    [evidence] that the call was authorised and recorded.  Facts a program relies on survive any
    growth of the world. *)

From Stdlib Require Import ZArith Lia String.
From stdpp Require Import base option numbers strings gmap sorting list.
From S2P Require Import Prelude Codec Crypto Text RunStatus RunDecider AgentRun RunReplay RunPorts RunStore WorkQueue.
From S2P Require Import PgRunStore ResourceScope Capability CapabilitySpec PolicyEngine ExternalEffects EffectStore.
From S2P Require Import RunEventStore EffectServices EffectWorld EffectStoreProps.

Section Props.
Context {J : Type} {SI : Serde J ExternalEffectIntent} {SR : Serde J ExternalEffectReceipt}
  {SX : Serde J ExternalReconciliation} {SD : Serde J PolicyDecision} {SG : Serde J CapabilityGrant}
  {PX : PayloadIndex (J := J)} {UT : UuidText} {UP : UuidParse}.
Context {SIok : SerdeOk J ExternalEffectIntent} {SXok : SerdeOk J ExternalReconciliation}
  {SGok : SerdeOk J CapabilityGrant}.
Context (policy_version : text).

Implicit Types w : World J.

(** ** Grants *)

(** Every row holds a grant under its own identifier. *)
Definition grants_ok (m : gmap Z (GrantRow J)) : Prop :=
  forall id row, m !! id = Some row -> exists g, gr_id g = id /\ gw_payload row = to_value g.

(** The grant is stored as it was issued, or as it was revoked since. *)
Definition grant_kept (g : CapabilityGrant) (m : gmap Z (GrantRow J)) : Prop :=
  exists row, m !! gr_id g = Some row /\
    (gw_payload row = to_value g \/ exists at_ g', revoke g at_ = Ok g' /\ gw_payload row = to_value g').

(** ** Growth *)

Record grows w w' : Prop := {
  gw_tables : extends (w_tables w) (w_tables w');
  gw_grants : forall g, grant_kept g (w_grants w) -> grant_kept g (w_grants w');
  gw_streams : sm_events (w_streams w) `prefix_of` sm_events (w_streams w');
}.

#[export] Instance grows_preorder : PreOrder grows.
Proof. split; [intros w; by split|]. intros a b c [] []. split; [by etrans|auto|by etrans]. Qed.

(** ** Evidence *)

Definition request_of (i : ExternalEffectIntent) : AuthorizationRequest :=
  request_new (in_required_capability i) (in_operation i) (in_target i) (in_risk i).

Definition intent_stored w (i : ExternalEffectIntent) : Prop :=
  xt_intents (w_tables w) !! in_id i = Some (intent_row i).

(** An allowed decision about the intent, resting on a stored grant that was in force when it was taken. *)
Definition decision_for w (i : ExternalEffectIntent) (d : PolicyDecision) : Prop :=
  is_allowed d = true /\ pd_workspace_id d = in_workspace_id i /\ pd_subject_id d = in_actor_id i /\
  pd_operation d = in_operation i /\ pd_resource_scope d = in_target i /\
  exists g, grant_kept g (w_grants w) /\ pd_matched_grant_id d = Some (gr_id g) /\
    failure_reason g (in_workspace_id i) (in_actor_id i) (request_of i) (pd_decided_at d) = None.

Definition authorization_stored w (i : ExternalEffectIntent) (d : PolicyDecision) : Prop :=
  exists row, xt_authorizations (w_tables w) !! pd_id d = Some row /\ aw_effect_id row = in_id i /\
    aw_workspace_id row = in_workspace_id i /\ aw_payload row = to_value d.

Definition dispatch_recorded w (i : ExternalEffectIntent) : Prop :=
  exists r, r ∈ xt_transitions (w_tables w) /\ tw_effect_id r = in_id i /\
    tw_status r = EffectLifecycleStatus.Dispatching /\ is_Some (tw_dispatch_expires_at r).

Definition evidence w (a : AuthorizedExternalEffect) : Prop :=
  let i := ae_intent a in
  intent_stored w i /\ dispatch_recorded w i /\
  exists d, ae_authorization a = from_policy_decision d /\ decision_for w i d /\ authorization_stored w i d.

(** ** Delivery *)

(** A reconciliation of the workspace, with the intent it is about. *)
Definition reconciliation_stored w (ws : WorkspaceId) (x : ExternalReconciliation) (i : ExternalEffectIntent) : Prop :=
  (exists n, xt_reconciliations (w_tables w) !! xr_id x = Some (reconciliation_row ws n x)) /\
  intent_in (w_tables w) ws (xr_effect_id x) = Some (intent_row i).

Definition settled_event (x : ExternalReconciliation) : LegacyRunEvent :=
  EvExternalEffectSettled (xr_effect_id x) (xr_receipt_id x) (xr_outcome x) (xr_evidence_strength x).

(** The run the effect belongs to, if any, has the outcome in its stream. *)
Definition told w (ws : WorkspaceId) (id : ExternalReconciliationId) : Prop :=
  exists x i, xr_id x = id /\ reconciliation_stored w ws x i /\
    forall run, execution_run_id i = Some run ->
      exists ev, ev ∈ stream ws run (w_streams w) /\ ev_payload ev = settled_event x.

(** ** Stability *)

Lemma intent_stored_grows w w' i : grows w w' -> intent_stored w i -> intent_stored w' i.
Proof. intros Hg H. exact (lookup_weaken _ _ _ _ H (ex_intents _ _ (gw_tables _ _ Hg))). Qed.

Lemma decision_for_grows w w' i d : grows w w' -> decision_for w i d -> decision_for w' i d.
Proof.
  intros Hg (? & ? & ? & ? & ? & g & Hk & ? & ?). split_and!; try done. exists g. split_and!; try done.
  by apply (gw_grants _ _ Hg).
Qed.

Lemma authorization_stored_grows w w' i d : grows w w' -> authorization_stored w i d -> authorization_stored w' i d.
Proof.
  intros Hg (row & H & ?). exists row. split; [|done].
  exact (lookup_weaken _ _ _ _ H (ex_authorizations _ _ (gw_tables _ _ Hg))).
Qed.

Lemma dispatch_recorded_grows w w' i : grows w w' -> dispatch_recorded w i -> dispatch_recorded w' i.
Proof.
  intros Hg (r & Hr & ?). exists r. split; [|done]. destruct (ex_transitions _ _ (gw_tables _ _ Hg)) as [l ->].
  apply elem_of_app. by left.
Qed.

Lemma evidence_grows w w' a : grows w w' -> evidence w a -> evidence w' a.
Proof.
  intros Hg (Hi & Hd & d & Ha & Hdec & Hs). split_and!.
  - by eapply intent_stored_grows.
  - by eapply dispatch_recorded_grows.
  - exists d. eauto using decision_for_grows, authorization_stored_grows.
Qed.

Lemma reconciliation_stored_grows w w' ws x i :
  grows w w' -> reconciliation_stored w ws x i -> reconciliation_stored w' ws x i.
Proof.
  intros Hg ((n & Hx) & Hi). pose proof (gw_tables _ _ Hg) as He. split; [|by eapply intent_in_extends].
  destruct (ex_reconciliations _ _ He _ _ Hx) as (row' & -> & n' & ->). by exists n'.
Qed.

Lemma stream_grows w w' ws run ev :
  grows w w' -> ev ∈ stream ws run (w_streams w) -> ev ∈ stream ws run (w_streams w').
Proof.
  intros Hg. destruct (gw_streams _ _ Hg) as [l E]. unfold stream. rewrite E, List.filter_app.
  intros H. apply elem_of_app. by left.
Qed.

Lemma told_grows w w' ws id : grows w w' -> told w ws id -> told w' ws id.
Proof.
  intros Hg (x & i & Hid & Hs & Hr). exists x, i. split_and!; [done|by eapply reconciliation_stored_grows|].
  intros run Hrun. destruct (Hr run Hrun) as (ev & Hev & ?). exists ev. split; [by eapply stream_grows|done].
Qed.

(** ** The invariant of the world *)

Record world_ok w : Prop := {
  wo_tables : tables_ok (w_tables w);
  wo_grants : grants_ok (w_grants w);
  wo_ids : forall id, is_Some (xt_intents (w_tables w) !! id) -> (id < w_ids w)%Z;
  wo_notified : forall id row, xt_reconciliations (w_tables w) !! id = Some row -> is_Some (xw_notified_at row) ->
    told w (xw_workspace_id row) id;
  wo_calls : forall a, a ∈ w_calls w -> evidence w a;
}.

(** The rule for a call of the program that owns the effect [owned]. *)
Definition call_pre {R} (owned : option ExternalEffectId) w (c : Call R) : Prop :=
  match c with
  | CInsertIntent _ i => owned = Some (in_id i)
  | CRecordAuthorization _ e _ | CRecordDispatchStarted _ e _ _ _ => owned = Some e
  | CInsertReceipt _ r => xc_outcome_status r <> EffectLifecycleStatus.Dispatching
  | CMarkDelivered ctx id _ => told w (rc_workspace_id ctx) id
  | _ => True
  end.

Definition owned_ok w (owned : option ExternalEffectId) : Prop :=
  forall e, owned = Some e -> no_dispatch (w_tables w) e /\ (e < w_ids w)%Z.

(** What a step leaves of the world: it is sound, it grew, and only the owned effect may be dispatched. *)
Definition advances w w' (dispatched : option ExternalEffectId) : Prop :=
  world_ok w' /\ grows w w' /\ (w_ids w <= w_ids w')%Z /\
  forall e, no_dispatch (w_tables w) e -> dispatched <> Some e -> no_dispatch (w_tables w') e.

Lemma advances_refl w owned : world_ok w -> advances w w owned.
Proof. intros H. split_and!; try done. Qed.

Lemma grows_tables w t : extends (w_tables w) t -> grows w (set_tables w t).
Proof. intros He. by split. Qed.

(** A statement on the tables. *)
Lemma advances_tables w t dispatched :
  world_ok w -> tables_ok t /\ extends (w_tables w) t ->
  (forall id, is_Some (xt_intents t !! id) -> is_Some (xt_intents (w_tables w) !! id) \/ (id < w_ids w)%Z) ->
  (forall id row, xt_reconciliations t !! id = Some row -> is_Some (xw_notified_at row) ->
     (exists row0, xt_reconciliations (w_tables w) !! id = Some row0 /\ is_Some (xw_notified_at row0)) \/
     told w (xw_workspace_id row) id) ->
  (forall e, no_dispatch (w_tables w) e -> dispatched <> Some e -> no_dispatch t e) ->
  advances w (set_tables w t) dispatched.
Proof.
  intros Hw [Hok He] Hids Hn Hd. pose proof (grows_tables w t He) as Hg. split_and!; try done. split; try done.
  - apply (wo_grants _ Hw).
  - intros id Hid. destruct (Hids id Hid); [by apply (wo_ids _ Hw)|done].
  - intros id row Hl Hs. destruct (Hn id row Hl Hs) as [(row0 & Hl0 & Hs0)|Ht]; [|by eapply told_grows].
    destruct (ex_reconciliations _ _ He _ _ Hl0) as (row' & Hl' & n & Er).
    simpl in Hl. rewrite Hl in Hl'. injection Hl' as ->. rewrite Er. simpl.
    eapply told_grows; [exact Hg|]. by apply (wo_notified _ Hw).
  - intros a Ha. eapply evidence_grows; [exact Hg|]. by apply (wo_calls _ Hw).
Qed.

(** A statement that neither notifies nor adds an intent. *)
Lemma advances_statement w t : world_ok w -> tables_ok t /\ extends (w_tables w) t ->
  quiet (w_tables w) t /\ unnotified (w_tables w) t /\ xt_intents t = xt_intents (w_tables w) ->
  advances w (set_tables w t) None.
Proof.
  intros Hw Hk (Hq & Hu & Hi). apply advances_tables; try done.
  - intros id. rewrite Hi. by left.
  - intros id row Hl Hs. left. by eapply Hu.
  - intros e He _. by apply Hq.
Qed.

Lemma advances_weaken w w' owned : advances w w' None -> advances w w' owned.
Proof. intros (? & ? & ? & Hd). split_and!; try done. intros e He _. by apply Hd. Qed.

Lemma world_ok_grows_same w w' :
  world_ok w -> grows w w' -> w_tables w' = w_tables w -> grants_ok (w_grants w') -> (w_ids w <= w_ids w')%Z ->
  (forall a, a ∈ w_calls w' -> evidence w' a) -> advances w w' None.
Proof.
  intros Hw Hg Et Hgr Hids Hc. split_and!; try done; [|by rewrite Et]. split; rewrite ?Et; try done.
  - apply (wo_tables _ Hw).
  - intros id Hid. pose proof (wo_ids _ Hw id Hid). lia.
  - intros id row Hl Hs. eapply told_grows; [exact Hg|]. by apply (wo_notified _ Hw).
Qed.

Lemma advances_minted w : world_ok w -> advances w (minted w) None.
Proof.
  intros Hw. apply world_ok_grows_same; simpl; try done; [apply (wo_grants _ Hw)|lia|].
  intros a Ha. apply (evidence_grows w); [done|]. by apply (wo_calls _ Hw).
Qed.

Lemma advances_called w a : world_ok w -> evidence w a -> advances w (called w a) None.
Proof.
  intros Hw He. apply world_ok_grows_same; simpl; try done; [apply (wo_grants _ Hw)|].
  intros b [Hb| ->%list_elem_of_singleton]%elem_of_app; (apply (evidence_grows w); [done|]); [|done].
  by apply (wo_calls _ Hw).
Qed.

Lemma advances_streams w ctx run v es : world_ok w -> advances w (set_streams w (append ctx run v es (w_streams w)).2) None.
Proof.
  intros Hw. assert (Hg : grows w (set_streams w (append ctx run v es (w_streams w)).2)).
  { split; simpl; try done. destruct (append_events ctx run v es (w_streams w)) as [l ->]. by exists l. }
  apply world_ok_grows_same; simpl; try done; [apply (wo_grants _ Hw)|].
  intros a Ha. eapply evidence_grows; [exact Hg|]. by apply (wo_calls _ Hw).
Qed.

(** ** One call *)

Lemma run_call_advances {R} w owned (c : Call R) :
  world_ok w -> owned_ok w owned -> call_pre owned w c ->
  advances w (run_call policy_version c w).2 (if records_dispatch c then owned else None).
Proof.
  intros Hw Ho. pose proof (wo_tables _ Hw) as Ht.
  destruct c as [ctx i|ctx q|ctx e d|ctx e owner exp at_|ctx r|ctx u f x n|ctx e d at_|adapter i receipt|ctx x
    |ctx e at_ reason|ctx n|ctx id at_|ctx run|ctx run v es]; simpl; intros Hp;
    try by apply advances_refl.
  - destruct (insert_intent_quiet ctx i (w_tables w)) as [Hq Hu]. apply advances_tables; auto.
    + by apply insert_intent_keeps.
    + intros id [Hid| ->]%insert_intent_intents; [by left|]. right. by apply Ho.
    + intros. left. by eapply Hu.
  - by apply advances_minted.
  - apply advances_statement; [done|apply record_authorization_keeps|apply record_authorization_quiet]; try done.
    by apply Ho.
  - destruct (record_dispatch_started_quiet ctx e owner exp at_ (w_tables w)) as (Hq & Hu & Hi).
    apply advances_tables; auto.
    + apply record_dispatch_started_keeps; [done|by apply Ho].
    + intros id. rewrite Hi. by left.
    + intros. left. by eapply Hu.
    + intros e' He' Hne. apply Hq; [congruence|done].
  - by apply advances_statement; [|apply insert_receipt_keeps|apply insert_receipt_quiet].
  - apply advances_statement; [done|by apply adopt_lost_dispatch_keeps|apply adopt_lost_dispatch_quiet].
  - apply advances_statement; [done|by apply insert_reconciliation_keeps|apply insert_reconciliation_quiet].
  - apply advances_statement; [done|by apply record_failed_recovery_attempt_keeps|].
    apply record_failed_recovery_attempt_quiet.
  - destruct (mark_outcome_delivered_quiet ctx id at_ (w_tables w)) as (Hq & Hn & Hi). apply advances_tables; auto.
    + by apply mark_outcome_delivered_keeps.
    + intros k. rewrite Hi. by left.
    + intros k row Hl Hs. destruct (Hn k row Hl Hs) as [?|[-> ->]]; auto.
  - pose proof (advances_streams w ctx run v es Hw) as H. by destruct (append ctx run v es (w_streams w)).
Qed.

Abbreviation call_answers := (call_answers policy_version).

Lemma call_answers_advances {R} w owned (c : Call R) r w' :
  world_ok w -> owned_ok w owned -> call_pre owned w c -> call_answers w c r w' ->
  advances w w' (if records_dispatch c then owned else None).
Proof.
  intros Hw Ho Hp Ha. destruct Ha; try by apply run_call_advances. all: by apply advances_refl.
Qed.

Definition is_observe {R} (c : Call R) : bool := match c with CObserve _ _ _ => true | _ => false end.

(** A call that answers a value took effect, except for a read-back. *)
Lemma call_answers_Ok {R} w (c : Call R) r w' : call_answers w c r w' ->
  match r with Ok v => is_observe c = true \/ run_call policy_version c w = (Ok v, w') | Err _ => True end.
Proof.
  intros Ha. destruct Ha as [R c|R c|R c|adapter i receipt r]; try done.
  - destruct (run_call policy_version c w) as [[v|e] w'] eqn:E; [|done]. simpl. by right.
  - destruct r; [by left|done].
Qed.

(** ** The calculus *)

Definition after_call {R} (c : Call R) (owned : option ExternalEffectId) : option ExternalEffectId :=
  if records_dispatch c then None else owned.

Fixpoint gwp {A} (owned : option ExternalEffectId) w (p : eprog A) (Q : option ExternalEffectId -> World J -> A -> Prop)
    : Prop :=
  match p with
  | ERet a => Q owned w a
  | ENewId k => forall w', grows w w' -> world_ok w' -> gwp owned (minted w') (k (w_ids w')) Q
  | ECall c k => forall w', grows w w' -> world_ok w' -> call_pre owned w' c /\
      forall r w'', call_answers w' c r w'' -> grows w' w'' -> world_ok w'' -> gwp (after_call c owned) w'' (k r) Q
  | EDispatch a k => forall w', grows w w' -> world_ok w' -> evidence w' a /\
      forall answer, gwp owned (called w' a) (k answer) Q
  end.

Lemma gwp_bind {A B} owned w (p : eprog A) (f : A -> eprog B) Q :
  gwp owned w p (fun o w a => gwp o w (f a) Q) -> gwp owned w (eprog_bind f p) Q.
Proof.
  revert owned w. induction p as [a|k IH|R c k IH|a k IH]; intros owned w; simpl; [done|..].
  - intros H w' Hg Hw. by apply IH, H.
  - intros H w' Hg Hw. destruct (H w' Hg Hw) as [Hp Hk]. split; [done|]. intros r w'' Ha Hg' Hw'. by apply IH, Hk.
  - intros H w' Hg Hw. destruct (H w' Hg Hw) as [Hp Hk]. split; [done|]. intros r. by apply IH.
Qed.

Lemma gwp_mono {A} owned w (p : eprog A) (Q Q' : option ExternalEffectId -> World J -> A -> Prop) :
  (forall o w a, Q o w a -> Q' o w a) -> gwp owned w p Q -> gwp owned w p Q'.
Proof.
  intros HQ. revert owned w. induction p as [a|k IH|R c k IH|a k IH]; intros owned w; simpl; [auto|..].
  - intros H w' Hg Hw. by apply IH, H.
  - intros H w' Hg Hw. destruct (H w' Hg Hw) as [Hp Hk]. split; [done|]. intros r w'' Ha Hg' Hw'. by apply IH, Hk.
  - intros H w' Hg Hw. destruct (H w' Hg Hw) as [Hp Hk]. split; [done|]. intros r. by apply IH.
Qed.

Lemma gwp_growing {A} w0 owned w (p : eprog A) Q :
  grows w0 w -> gwp owned w p Q -> gwp owned w p (fun o w' a => Q o w' a /\ grows w0 w').
Proof.
  revert owned w. induction p as [a|k IH|R c k IH|a k IH]; intros owned w H0; simpl; [done|..].
  - intros H w' Hg Hw. apply IH; [|by apply H]. etrans; [exact H0|]. etrans; [exact Hg|done].
  - intros H w' Hg Hw. destruct (H w' Hg Hw) as [Hp Hk]. split; [done|]. intros r w'' Ha Hg' Hw'.
    apply IH; [|by apply Hk]. etrans; [exact H0|]. by etrans.
  - intros H w' Hg Hw. destruct (H w' Hg Hw) as [Hp Hk]. split; [done|]. intros r. apply IH; [|done].
    etrans; [exact H0|]. etrans; [exact Hg|done].
Qed.

(** A program keeps its guarantee while the world grows around it. *)
Lemma gwp_grows {A} owned w w' (p : eprog A) : grows w w' ->
  gwp owned w p (fun _ _ _ => True) -> gwp owned w' p (fun _ _ _ => True).
Proof.
  intros Hg. destruct p; simpl; [done|..]; intros H v Hv Hw; (apply H; [by etrans|done]).
Qed.

Lemma gwp_mbind {E A B} owned w (p : EM E A) (f : A -> EM E B) Q :
  gwp owned w p (fun o w r => match r with Ok a => gwp o w (f a) Q | Err e => Q o w (Err e) end) ->
  gwp owned w (p ≫= f) Q.
Proof.
  intros H. apply gwp_bind. eapply gwp_mono; [|exact H]. intros o v [a|e]; auto.
Qed.

Lemma gwp_call {R} owned w (c : Call R) Q :
  (forall w', grows w w' -> world_ok w' -> call_pre owned w' c /\
     forall r w'', call_answers w' c r w'' -> grows w' w'' -> world_ok w'' -> Q (after_call c owned) w'' r) ->
  gwp owned w (call c) Q.
Proof. done. Qed.

Lemma gwp_lift {E A} owned w (r : result E A) Q : Q owned w r -> gwp owned w (lift r) Q.
Proof. done. Qed.

Lemma gwp_fresh {E} owned w Q :
  (forall w', grows w w' -> world_ok w' -> Q owned (minted w') (Ok (w_ids w'))) -> gwp owned w (fresh (E := E)) Q.
Proof. done. Qed.

Lemma gwp_emap_err {E F A} owned w (f : E -> F) (p : EM E A) Q :
  gwp owned w p (fun o w r => Q o w (map_err f r)) -> gwp owned w (emap_err f p) Q.
Proof. intros H. by apply gwp_bind. Qed.

(** One step of a program that satisfies the calculus. *)
Lemma gwp_step w (p : eprog unit) w' p' owned :
  prog_step policy_version w p w' p' -> world_ok w -> owned_ok w owned -> gwp owned w p (fun _ _ _ => True) ->
  (exists dispatched, advances w w' dispatched /\ (dispatched <> None -> dispatched = owned /\ owned_after p owned = None)) /\
  gwp (owned_after p owned) w' p' (fun _ _ _ => True).
Proof.
  intros Hs Hw Ho H. destruct Hs as [w k|w R c k r w' Ha|w a k answer].
  - split; [exists None; split; [by apply advances_minted|done]|]. by apply (H w).
  - destruct (H w) as [Hp Hk]; [done..|].
    pose proof (call_answers_advances w owned c r w' Hw Ho Hp Ha) as Hadv.
    split; [|destruct Hadv as (Hw' & Hg & _); by apply Hk].
    eexists. split; [exact Hadv|]. simpl. by destruct (records_dispatch c).
  - destruct (H w) as [He Hk]; [done..|]. split; [|apply Hk]. exists None. split; [by apply advances_called|done].
Qed.

(** ** What successful calls establish *)

Lemma insert_intent_Ok ctx i t t' u : tables_ok t -> insert_intent ctx i t = (Ok u, t') ->
  xt_intents t' !! in_id i = Some (intent_row i) /\ in_workspace_id i = rc_workspace_id ctx.
Proof.
  intros Hok. unfold insert_intent. destruct (negb _) eqn:Ew; [done|]. bool_hyps.
  destruct (xt_intents t !! in_id i) as [row|] eqn:E.
  - intros [= H <-]. apply bind_Ok in H as (found & Hf & Hv). unfold verify_insert in Hv.
    destruct found as [j|]; [|done]. destruct (eqb j i) eqn:Ej; [|done]. bool_hyps. subst j. split; [|done].
    unfold find_intent in Hf. unfold intent_in in Hf. rewrite E in Hf. simpl in Hf.
    destruct (eqb (iw_workspace_id row) _); [|done]. apply bind_Ok in Hf as (j & Hj & [= ->]).
    destruct (ok_intents t Hok _ _ E) as (i0 & Hid & ->). unfold intent_of_row in Hj.
    apply bind_Ok in Hj as (j & Hd & Hj). unfold decode in Hd. apply ok_or_Ok in Hd. simpl in Hd.
    rewrite from_to_value in Hd. injection Hd as ->. destruct (_ || _); [done|]. by injection Hj as ->.
  - intros [= _ <-]. simpl. by rewrite lookup_insert_eq.
Qed.

Lemma decide_authorises w ctx i d :
  world_ok w -> stored_decide policy_version ctx (request_of i) (w_ids w) (xt_now (w_tables w)) (w_grants w) = Ok d ->
  is_allowed d = true -> forall a, authorize i (from_policy_decision d) = Ok a ->
  a = mkAuthorized i (from_policy_decision d) /\ decision_for w i d.
Proof.
  intros Hw Hd Ha a. destruct (stored_decide_allowed _ _ _ _ _ _ _ Hd) as (_ & Hws & Hsub & _ & _ & _ & Hat & Hg).
  destruct (Hg Ha) as (gid & row & g & Hrow & Hdec & Hm & Hf). unfold authorize.
  destruct (negb _ || _ || _ || _ || _ || _ || _) eqn:E; [done|]. intros [= <-]. split; [done|]. bool_hyps. simpl in *.
  split_and!; try congruence. exists g. split_and!; [|done|congruence].
  destruct (wo_grants _ Hw _ _ Hrow) as (g0 & Hid & Hp). unfold decode_grant in Hdec.
  apply bind_Ok in Hdec as (g1 & Hg1 & Hdec). apply ok_or_Ok in Hg1. rewrite Hp, from_to_value in Hg1.
  injection Hg1 as ->. destruct (negb _); [done|]. destruct (negb _); [done|]. injection Hdec as ->.
  exists row. rewrite Hid. auto.
Qed.

Lemma record_authorization_Ok ctx i d t t' u :
  record_authorization ctx (in_id i) d t = (Ok u, t') -> in_workspace_id i = rc_workspace_id ctx ->
  exists row, xt_authorizations t' !! pd_id d = Some row /\ aw_effect_id row = in_id i /\
    aw_workspace_id row = in_workspace_id i /\ aw_payload row = to_value d.
Proof.
  unfold record_authorization. destruct (negb _); [done|]. destruct (is_some _); [done|].
  destruct (intent_in t _ _); [|done]. intros [= _ <-] ->.
  destruct (is_allowed d); simpl; rewrite lookup_insert_eq; eexists; done.
Qed.

Lemma record_dispatch_started_Ok ctx e owner exp at_ (t t' : EffectTables J) u :
  record_dispatch_started ctx e owner exp at_ t = (Ok u, t') ->
  exists r, r ∈ xt_transitions t' /\ tw_effect_id r = e /\ tw_status r = EffectLifecycleStatus.Dispatching /\
    is_Some (tw_dispatch_expires_at r).
Proof.
  unfold record_dispatch_started. destruct (intent_in t _ _); [|done]. intros [= _ <-]. eexists.
  split; [apply elem_of_app; right; by left|]. done.
Qed.

Lemma on_tables_Ok {A} w (x : result ApplicationError A * EffectTables J) v w' :
  on_tables w x = (Ok v, w') -> x = (Ok v, w_tables w') /\ w' = set_tables w (w_tables w').
Proof. destruct x as [r t]. by intros [= -> <-]. Qed.

Lemma dispatch_status a d answer id digest at_ r :
  dispatch a d answer id digest at_ = Ok r -> xc_outcome_status r <> EffectLifecycleStatus.Dispatching.
Proof.
  unfold dispatch. intros (? & _ & (res & _ & [= <-])%bind_Ok)%bind_Ok. simpl. by destruct (dr_outcome res).
Qed.

(** ** Performing *)

Definition authorised w (i : ExternalEffectIntent) (a : AuthorizedExternalEffect) : Prop :=
  ae_intent a = i /\ intent_stored w i /\
  exists d, ae_authorization a = from_policy_decision d /\ decision_for w i d /\ authorization_stored w i d.

Lemma authorised_grows w w' i a : grows w w' -> authorised w i a -> authorised w' i a.
Proof.
  intros Hg (Hi & Hs & d & Ha & Hd & Hst). split_and!; [done|by eapply intent_stored_grows|]. exists d.
  eauto using decision_for_grows, authorization_stored_grows.
Qed.

Lemma service_authorize_gwp w ctx i :
  intent_stored w i -> in_workspace_id i = rc_workspace_id ctx ->
  gwp (Some (in_id i)) w (service_authorize ctx i (request_of i))
    (fun o w' r => forall a, r = Ok a -> o = Some (in_id i) /\ authorised w' i a).
Proof.
  intros Hs Hws. unfold service_authorize. apply gwp_mbind, gwp_call. intros w1 Hg1 Hw1. split; [done|].
  intros r w2 Ha Hg2 Hw2. destruct r as [d|]; [|done].
  destruct (call_answers_Ok _ _ _ _ Ha) as [?|Hd]; [done|]. injection Hd as Hd <-.
  apply gwp_mbind, gwp_lift.
  destruct (if is_allowed d then _ else _) as [authorized|e] eqn:Eau; [|done].
  assert (Hau : forall a, authorized = Some a -> a = mkAuthorized i (from_policy_decision d) /\ decision_for w1 i d).
  { intros a ->. destruct (is_allowed d) eqn:Eal; [|done]. apply bind_Ok in Eau as (a' & Hau & [= ->]).
    apply map_err_Ok in Hau. by eapply decide_authorises. }
  apply gwp_mbind, gwp_call. intros w3 Hg3 Hw3. split; [done|]. intros r w4 Ha4 Hg4 Hw4. destruct r as [u|]; [|done].
  apply gwp_lift. intros a [= ->%ok_or_Ok]. split; [done|]. destruct (Hau a eq_refl) as [-> Hdec].
  assert (Hg : grows w1 w4) by (etrans; [exact Hg2|]; by etrans).
  split_and!; [done|by eapply intent_stored_grows; [|eapply intent_stored_grows]|].
  exists d. split_and!; [done|by eapply decision_for_grows|].
  destruct (call_answers_Ok _ _ _ _ Ha4) as [?|H4]; [done|]. apply on_tables_Ok in H4 as [H4 _].
  by eapply record_authorization_Ok.
Qed.

Lemma service_dispatch_gwp w owner ctx a adapter digest at_ i :
  authorised w i a ->
  gwp (Some (in_id i)) w (service_dispatch owner ctx a adapter digest at_)
    (fun o w' r => forall rc, r = Ok rc -> xc_outcome_status rc <> EffectLifecycleStatus.Dispatching).
Proof.
  intros Hau. unfold service_dispatch. destruct (validate_dispatch a adapter digest) as [[]|ev]; [|done]. simpl map_err.
  apply gwp_mbind, gwp_lift.
  apply gwp_mbind, gwp_call. intros w1 Hg1 Hw1. assert (Hi : ae_intent a = i) by apply Hau. rewrite Hi.
  split; [done|]. intros r w2 Ha Hg2 Hw2. destruct r as [u|]; [|done].
  apply gwp_mbind, gwp_lift.
  intros w3 Hg3 Hw3. split.
  - destruct (authorised_grows w w3 i a) as (_ & Hs & d & Hd); [by etrans; [|etrans]|done|].
    split_and!; rewrite ?Hi; [done| |by exists d].
    destruct (call_answers_Ok _ _ _ _ Ha) as [?|H2]; [done|]. apply on_tables_Ok in H2 as [H2 _].
    eapply dispatch_recorded_grows; [exact Hg3|]. by eapply record_dispatch_started_Ok.
  - intros answer w4 Hg4 Hw4. simpl. intros rc Hr. apply map_err_Ok in Hr. by eapply dispatch_status.
Qed.

Lemma perform_gwp w owner ctx i adapter at_ :
  gwp (Some (in_id i)) w (forget (perform owner ctx i adapter at_)) (fun _ _ _ => True).
Proof.
  apply gwp_bind. unfold perform. apply gwp_mbind, gwp_call. intros w1 Hg1 Hw1. split; [done|].
  intros r w2 Ha Hg2 Hw2. destruct r as [u|]; [|done].
  destruct (call_answers_Ok _ _ _ _ Ha) as [?|H2]; [done|]. apply on_tables_Ok in H2 as [H2 _].
  apply insert_intent_Ok in H2 as [Hs Hws]; [|apply (wo_tables _ Hw1)].
  apply gwp_mbind. eapply gwp_mono; [|by apply service_authorize_gwp].
  intros o w3 [a|] Hpost; [|done]. destruct (Hpost a eq_refl) as [-> Hau].
  apply gwp_mbind. eapply gwp_mono; [|by apply service_dispatch_gwp].
  intros o w4 [rc|] Hrc; [|done].
  apply gwp_mbind, gwp_call. intros w5 Hg5 Hw5. split; [by apply Hrc|]. by intros [[]|].
Qed.

(** ** Recovering *)

Context (error_text : ExternalEffectRecoveryError -> text).

Lemma reconcile_candidate_gwp w registry ctx c at_ :
  gwp None w (reconcile_candidate registry ctx c at_) (fun o _ _ => o = None).
Proof.
  unfold reconcile_candidate. apply gwp_mbind.
  apply gwp_mono with (Q := fun o _ _ => o = None).
  - intros o w1 [[]|] ->; try done. apply gwp_mbind, gwp_lift. destruct (resolve _ _); [|done].
    apply gwp_mbind, gwp_emap_err, gwp_call. intros w2 Hg2 Hw2. split; [done|].
    intros [observations|] w3 _ Hg3 Hw3; [|done]. cbn [map_err].
    apply gwp_mbind, gwp_fresh. intros w4 Hg4 Hw4. apply gwp_mbind, gwp_lift.
    destruct (map_err _ (reconcile _ _ _ _ _ _)); [|done].
    apply gwp_mbind, gwp_emap_err, gwp_call. intros w5 Hg5 Hw5. split; [done|]. by intros [].
  - destruct (ca_lost_dispatch c) as [[]|]; try done.
Qed.

Lemma recovery_run_gwp w registry ctx at_ unsettled failed expired limit :
  gwp None w (forget (recovery_run error_text registry ctx at_ unsettled failed expired limit)) (fun _ _ _ => True).
Proof.
  apply gwp_bind. unfold recovery_run. apply gwp_mbind, gwp_call. intros w1 Hg1 Hw1. split; [done|].
  intros [cs|] w2 _ Hg2 Hw2; [|done]. generalize (mkReport [] [] [] (Z.of_nat (length cs) =? limit)%Z).
  assert (Hall : forall report w3, gwp None w3 (recover_all error_text registry ctx at_ cs report) (fun _ _ _ => True));
    [|intros; by apply Hall].
  clear. induction cs as [|c cs IH]; intros report w; [done|]. simpl. apply gwp_mbind.
  apply gwp_mono with (Q := fun o _ _ => o = None).
  - intros o w1 [report'|] ->; [apply IH|done].
  - unfold recover_one. apply gwp_bind. eapply gwp_mono; [|apply reconcile_candidate_gwp].
    intros o w1 [[x|]|[]] ->; try done;
      (apply gwp_mbind, gwp_call; intros w2 Hg2 Hw2; split; [done|]; by intros [] ?).
Qed.

(** ** Delivering *)

Lemma collect_rows_elem {A B} (f : A -> result ApplicationError B) rows bs b :
  collect_rows f rows = Ok bs -> b ∈ bs -> exists a, a ∈ rows /\ f a = Ok b.
Proof.
  revert bs. induction rows as [|r rows IH]; intros bs; simpl; [intros [= <-] ?%not_elem_of_nil; done|].
  intros (b0 & Hb & (bs' & Hbs & [= <-])%bind_Ok)%bind_Ok [->|Hin]%elem_of_cons.
  - exists r. split; [by left|done].
  - destruct (IH bs' Hbs Hin) as (a & Ha & Hf). exists a. split; [by right|done].
Qed.

Lemma find_undelivered_stored w ctx limit os o :
  world_ok w -> find_undelivered_outcomes ctx limit (w_tables w) = Ok os -> o ∈ os ->
  reconciliation_stored w (rc_workspace_id ctx) (uo_reconciliation o) (uo_intent o).
Proof.
  intros Hw Hf Hin. destruct (collect_rows_elem _ _ _ _ Hf Hin) as ([id row] & Hrow & Ho).
  apply (subseteq_take _ _) in Hrow. rewrite merge_sort_Permutation in Hrow.
  apply list_elem_of_In, filter_In in Hrow as [Hrow Howed]. apply list_elem_of_In, elem_of_map_to_list in Hrow.
  unfold owed in Howed. bool_hyps. simpl in *. pose proof (wo_tables _ Hw) as Ht.
  destruct (ok_reconciliations _ Ht _ _ Hrow) as (x & ws & n & Hid & -> & Hi & _). simpl in *. subst ws.
  apply bind_Ok in Ho as (x' & Hx & (i & Hi' & [= <-])%bind_Ok). simpl.
  unfold decode in Hx. apply ok_or_Ok in Hx. rewrite from_to_value in Hx. injection Hx as <-.
  apply bind_Ok in Hi' as (irow & Hir%ok_or_Ok & Hdec). split; [exists n; congruence|].
  rewrite Hir. apply intent_in_Some in Hir as [Hir _]. destruct (ok_intents _ Ht _ _ Hir) as (i0 & _ & ->).
  unfold decode in Hdec. apply ok_or_Ok in Hdec. simpl in Hdec. rewrite from_to_value in Hdec. by injection Hdec as ->.
Qed.

Lemma append_to_run_gwp w ctx run x at_ :
  gwp None w (append_to_run ctx run x at_) (fun o w' r => o = None /\ forall u, r = Ok u ->
    exists ev, ev ∈ stream (rc_workspace_id ctx) run (w_streams w') /\ ev_payload ev = settled_event x).
Proof.
  unfold append_to_run. apply gwp_mbind, gwp_call. intros w1 Hg1 Hw1. split; [done|].
  intros [head|] w2 _ Hg2 Hw2; [|done]. apply gwp_mbind, gwp_lift. destruct (ok_or head _) as [head'|]; [|done].
  apply gwp_mbind, gwp_lift. destruct (from_domain _) as [sequence|]; [|done].
  apply gwp_mbind, gwp_fresh. intros w3 Hg3 Hw3. apply gwp_mbind, gwp_fresh. intros w4 Hg4 Hw4.
  apply gwp_mbind, gwp_call. intros w5 Hg5 Hw5. split; [done|].
  intros [v|] w6 Ha Hg6 Hw6; [|done]. split; [done|]. intros u _.
  destruct (call_answers_Ok _ _ _ _ Ha) as [?|H6]; [done|]. simpl in H6.
  destruct (append ctx run _ _ _) as [r s] eqn:E. injection H6 as -> <-. apply append_Ok in E as (_ & _ & _ & ->).
  eexists. split.
  - unfold stream. simpl. rewrite List.filter_app. apply elem_of_app. right. simpl. unfold of_run. simpl.
    rewrite !eqb_refl. by left.
  - done.
Qed.

Lemma mark_gwp w ctx id at_ (r : OutcomeDeliveryReport) : told w (rc_workspace_id ctx) id ->
  gwp None w (_ ← call (CMarkDelivered ctx id at_); mret r : EM ApplicationError _) (fun o _ _ => o = None).
Proof.
  intros Ht. apply gwp_mbind, gwp_call. intros w1 Hg1 Hw1. split; [by eapply told_grows|]. by intros [].
Qed.

Lemma deliver_one_gwp w ctx at_ o r :
  reconciliation_stored w (rc_workspace_id ctx) (uo_reconciliation o) (uo_intent o) ->
  gwp None w (deliver_one ctx at_ o r) (fun o _ _ => o = None).
Proof.
  intros Hs. unfold deliver_one. destruct (execution_run_id (uo_intent o)) as [run|] eqn:Er.
  - apply gwp_bind. eapply gwp_mono; [|by apply (gwp_growing w), append_to_run_gwp].
    intros o' w' [u|e] [[-> Hu] Hg]; [|done]. destruct (Hu u eq_refl) as (ev & Hev). apply mark_gwp. exists (uo_reconciliation o), (uo_intent o).
    split_and!; [done|by eapply reconciliation_stored_grows|]. intros run'. rewrite Er. intros [= <-]. by exists ev.
  - apply mark_gwp. exists (uo_reconciliation o), (uo_intent o). split_and!; try done. congruence.
Qed.

Lemma deliver_all_gwp w ctx at_ os r :
  Forall (fun o => reconciliation_stored w (rc_workspace_id ctx) (uo_reconciliation o) (uo_intent o)) os ->
  gwp None w (deliver_all ctx at_ os r) (fun _ _ _ => True).
Proof.
  revert w r. induction os as [|o os IH]; intros w r Hall; [done|]. apply Forall_cons in Hall as [Ho Hall]. simpl.
  apply gwp_mbind. eapply gwp_mono; [|by apply (gwp_growing w), deliver_one_gwp]. intros o' w' [r'|] [-> Hg]; [|done].
  apply IH. eapply Forall_impl; [exact Hall|]. intros x Hx. by eapply reconciliation_stored_grows.
Qed.

Lemma deliver_once_gwp w ctx at_ : gwp None w (forget (deliver_once ctx at_)) (fun _ _ _ => True).
Proof.
  apply gwp_bind. unfold deliver_once. apply gwp_mbind, gwp_call. intros w1 Hg1 Hw1. split; [done|].
  intros [os|] w2 Ha Hg2 Hw2; [|done]. destruct (call_answers_Ok _ _ _ _ Ha) as [?|[= Hf <-]]; [done|].
  assert (Hall : Forall (fun o => reconciliation_stored w1 (rc_workspace_id ctx) (uo_reconciliation o) (uo_intent o)) os).
  { apply Forall_forall. intros o Ho. by eapply find_undelivered_stored. }
  apply deliver_all_gwp. done.
Qed.

(** ** The environment *)

Lemma insert_grant_keeps ctx spec at_ g (m : gmap Z (GrantRow J)) : issue spec at_ = Ok g -> grants_ok m ->
  grants_ok (insert_grant ctx g m).2 /\ forall g0, grant_kept g0 m -> grant_kept g0 (insert_grant ctx g m).2.
Proof.
  intros Hi Hok. unfold insert_grant. destruct (negb _); [by split|].
  destruct (match gr_budget g with Some _ => _ | None => _ end); [by split|].
  destruct (is_some (m !! gr_id g)) eqn:Es; [by split|]. apply is_some_false in Es.
  destruct (negb (grant_checks g)); [by split|]. simpl. split.
  - intros id row. destruct (base.decide (gr_id g = id)) as [<-|]; [rewrite lookup_insert_eq; intros [= <-]; by exists g|].
    rewrite lookup_insert_ne by done. apply Hok.
  - intros g0 (row & Hl & Hp). exists row. split; [|done]. rewrite lookup_insert_ne; [done|]. intros E. congruence.
Qed.

Lemma revoked_twice g g' g'' at_ at' : revoke g at_ = Ok g' -> revoke g' at' = Ok g'' -> False.
Proof.
  unfold revoke. destruct (eqb (gr_status g) _); [done|]. intros [= <-]. done.
Qed.

Lemma revoke_id g g' at_ : revoke g at_ = Ok g' -> gr_id g' = gr_id g.
Proof. unfold revoke. destruct (eqb _ _); [done|]. by intros [= <-]. Qed.

Lemma save_revocation_keeps ctx g g' at_ row (m : gmap Z (GrantRow J)) :
  m !! gr_id g = Some row -> decode_grant row = Ok g -> revoke g at_ = Ok g' -> grants_ok m ->
  grants_ok (save_revocation ctx g' m).2 /\ forall g0, grant_kept g0 m -> grant_kept g0 (save_revocation ctx g' m).2.
Proof.
  intros Hrow Hdec Hrev Hok. pose proof (revoke_id _ _ _ Hrev) as Hid. unfold save_revocation.
  destruct (_ || _); [by split|]. destruct (opt_filter _ _) as [r|] eqn:E; [|by split]. simpl.
  apply opt_filter_Some in E as [E _]. rewrite Hid in *. split.
  - intros id r'. destruct (base.decide (gr_id g = id)) as [<-|]; [|rewrite lookup_insert_ne by done; apply Hok].
    rewrite lookup_insert_eq. intros [= <-]. by exists g'.
  - intros g0 (r0 & Hl & Hp). destruct (base.decide (gr_id g = gr_id g0)) as [Eq|].
    2: { exists r0. by rewrite lookup_insert_ne by done. }
    rewrite <-Eq in *. rewrite Hrow in Hl. injection Hl as <-. eexists. rewrite Eq, lookup_insert_eq. split; [done|].
    right. exists at_, g'. simpl. split; [|done]. unfold decode_grant in Hdec.
    apply bind_Ok in Hdec as (g1 & Hg1%ok_or_Ok & Hdec). destruct (negb _); [done|]. destruct (negb _); [done|].
    injection Hdec as ->. destruct Hp as [Hp|(at0 & g0' & Hr0 & Hp)]; rewrite Hp, from_to_value in Hg1; simplify_eq; [done|].
    by destruct (revoked_twice _ _ _ _ _ Hr0 Hrev).
Qed.

Lemma advances_grants w m : world_ok w -> grants_ok m /\ (forall g, grant_kept g (w_grants w) -> grant_kept g m) ->
  advances w (mkWorld (w_tables w) m (w_streams w) (w_calls w) (w_ids w)) None.
Proof.
  intros Hw [Hok Hk]. assert (Hg : grows w (mkWorld (w_tables w) m (w_streams w) (w_calls w) (w_ids w))) by by split.
  apply world_ok_grows_same; try done. intros a Ha. eapply evidence_grows; [exact Hg|]. by apply (wo_calls _ Hw).
Qed.

Lemma statement_same (t t' : EffectTables J) :
  xt_transitions t' = xt_transitions t -> xt_reconciliations t' = xt_reconciliations t -> xt_intents t' = xt_intents t ->
  quiet t t' /\ unnotified t t' /\ xt_intents t' = xt_intents t.
Proof. intros E1 E2 E3. split_and!; [|by apply unnotified_same|done]. intros e. unfold no_dispatch. by rewrite E1. Qed.

Lemma advances_same_tables w : world_ok w -> advances w (set_tables w (w_tables w)) None.
Proof. intros Hw. apply advances_statement; [done|split; [apply (wo_tables _ Hw)|done]|by apply statement_same]. Qed.

Lemma env_step_advances w w' : env_step w w' -> world_ok w -> advances w w' None.
Proof.
  intros Hs Hw. pose proof (wo_tables _ Hw) as Ht. destruct Hs as [n _|ctx spec at_ g Hi|ctx row g at_ g' Hr Hd Hv
    |ctx worker a b|ctx worker a|ctx run v es].
  - by apply advances_statement; [|apply tables_ok_clock|apply statement_same].
  - apply advances_grants; [done|]. eapply insert_grant_keeps; [done|apply (wo_grants _ Hw)].
  - apply advances_grants; [done|]. eapply save_revocation_keeps; try done. apply (wo_grants _ Hw).
  - unfold record_worker_presence. destruct (_ <? _)%Z; [by apply advances_same_tables|].
    by apply advances_statement; [|apply tables_ok_clock|apply statement_same].
  - unfold clear_worker_presence. destruct (xt_presence _ !! _); [|by apply advances_same_tables].
    destruct (_ <? _)%Z; [by apply advances_same_tables|].
    by apply advances_statement; [|apply tables_ok_clock|apply statement_same].
  - by apply advances_streams.
Qed.

(** ** The pool *)

Abbreviation thread := (option ExternalEffectId * eprog unit)%type.

Definition thread_ok w (x : thread) : Prop := owned_ok w x.1 /\ gwp x.1 w x.2 (fun _ _ _ => True).

(** Every program satisfies the calculus, and no effect is owned twice. *)
Record pool_ok w (pool : list thread) : Prop := {
  po_threads : forall n x, pool !! n = Some x -> thread_ok w x;
  po_owned : forall n m x y e, pool !! n = Some x -> pool !! m = Some y -> x.1 = Some e -> y.1 = Some e -> n = m;
}.

Lemma thread_ok_advances w w' dispatched x :
  advances w w' dispatched -> (forall e, x.1 = Some e -> dispatched <> Some e) -> thread_ok w x -> thread_ok w' x.
Proof.
  intros (Hw & Hg & Hids & Hd) Hne [Ho Hp]. split; [|by eapply gwp_grows]. intros e He. destruct (Ho e He).
  split; [by apply Hd; [|apply Hne]|lia].
Qed.

Lemma pool_ok_advances w w' pool : advances w w' None -> pool_ok w pool -> pool_ok w' pool.
Proof.
  intros Ha [Ht Ho]. split; [|exact Ho]. intros n x Hx. eapply thread_ok_advances; [exact Ha|done|by eapply Ht].
Qed.

Lemma pool_ok_spawn w pool x :
  pool_ok w pool -> thread_ok w x -> (forall e, x.1 = Some e -> forall n y, pool !! n = Some y -> y.1 <> Some e) ->
  pool_ok w (pool ++ [x]).
Proof.
  intros [Ht Ho] Hx Hf. split.
  - intros n y Hy. apply lookup_app_Some in Hy as [Hy|[_ Hy]]; [by eapply Ht|].
    apply list_lookup_singleton_Some in Hy as [_ <-]. done.
  - intros n m y z e Hy Hz Ey Ez. apply lookup_app_Some in Hy as [Hy|[Ln Hy]], Hz as [Hz|[Lm Hz]].
    + by eapply Ho.
    + apply list_lookup_singleton_Some in Hz as [_ <-]. by destruct (Hf e Ez n y Hy).
    + apply list_lookup_singleton_Some in Hy as [_ <-]. by destruct (Hf e Ey m z Hz).
    + apply list_lookup_singleton_Some in Hy as [Hn _], Hz as [Hm _]. lia.
Qed.

Lemma owned_after_le p owned e : owned_after p owned = Some e -> owned = Some e.
Proof. destruct p; simpl; try done. by destruct (records_dispatch c). Qed.

Lemma pool_ok_call w (pool : list thread) n owned p w' p' :
  pool !! n = Some (owned, p) -> prog_step policy_version w p w' p' -> world_ok w -> pool_ok w pool ->
  world_ok w' /\ pool_ok w' (<[n := (owned_after p owned, p')]> pool).
Proof.
  intros Hn Hs Hw [Ht Ho]. destruct (Ht _ _ Hn) as [Hown Hp].
  destruct (gwp_step _ _ _ _ _ Hs Hw Hown Hp) as [(d & Hadv & Hd) Hp']. split; [apply Hadv|].
  assert (Hlt : (n < length pool)%nat) by by apply lookup_lt_is_Some; eexists.
  split.
  - intros m x. destruct (base.decide (n = m)) as [<-|Hne].
    + rewrite list_lookup_insert_eq by done. intros [= <-]. split; [|exact Hp']. simpl. intros e He.
      destruct Hadv as (_ & _ & Hids & Hq). destruct (Hown e (owned_after_le _ _ _ He)) as [Hnd Hlt']. split; [|lia].
      apply Hq; [done|]. intros ->. assert (Hd' : owned_after p owned = None) by by apply Hd. congruence.
    + rewrite list_lookup_insert_ne by done. intros Hx. eapply thread_ok_advances; [exact Hadv| |by eapply Ht].
      intros e He ->. assert (owned = Some e) as -> by by symmetry; apply Hd. by apply Hne, (Ho n m (Some e, p) x e).
  - intros m1 m2 x y e. destruct (base.decide (n = m1)) as [<-|Hne1], (base.decide (n = m2)) as [<-|Hne2]; try done;
      rewrite ?list_lookup_insert_eq, ?list_lookup_insert_ne by done.
    + intros [= <-] Hy He1 He2. by eapply Ho; [exact Hn|exact Hy|eapply owned_after_le|].
    + intros Hx [= <-] He1 He2. by eapply Ho; [exact Hx|exact Hn| |eapply owned_after_le].
    + intros Hx Hy. by eapply Ho.
Qed.

(** ** Every reached state *)

Abbreviation system_step := (system_step policy_version error_text).

Lemma system_step_keeps x y : system_step x y -> world_ok x.1 /\ pool_ok x.1 x.2 -> world_ok y.1 /\ pool_ok y.1 y.2.
Proof.
  intros Hs [Hw Hp]. destruct Hs as [w pool owner ctx i adapter at_ Hid|w pool registry ctx at_ u f x limit
    |w pool ctx at_|w pool n owned p w' p' Hn Hs|w pool w' Hs]; simpl in *.
  - pose proof (advances_minted _ Hw) as Ha. split; [apply Ha|]. apply pool_ok_spawn; [by eapply pool_ok_advances| |].
    + split; [|apply perform_gwp]. intros e [= <-]. simpl. split; [|lia].
      apply no_dispatch_absent; [apply (wo_tables _ Hw)|]. destruct (xt_intents _ !! _) eqn:E; [|done].
      assert (in_id i < w_ids w)%Z by (apply (wo_ids _ Hw); by eexists). lia.
    + intros e [= <-] n y Hy Hey. destruct (po_threads _ _ Hp _ _ Hy) as [Ho _]. destruct (Ho _ Hey). lia.
  - split; [done|]. apply pool_ok_spawn; [done| |done]. split; [done|apply recovery_run_gwp].
  - split; [done|]. apply pool_ok_spawn; [done| |done]. split; [done|apply deliver_once_gwp].
  - by eapply pool_ok_call.
  - pose proof (env_step_advances _ _ Hs Hw) as Ha. split; [apply Ha|by eapply pool_ok_advances].
Qed.

Lemma start_world_ok w : start_world w -> world_ok w.
Proof.
  intros (Et & Eg & Es & Ec). split.
  - rewrite Et. split; simpl; try done; try (intros ? ?; rewrite lookup_empty; done).
    + intros l1 r l2 E. by destruct l1.
    + intros r Hr. by apply not_elem_of_nil in Hr.
    + intros r Hr. by apply not_elem_of_nil in Hr.
  - rewrite Eg. intros id row. by rewrite lookup_empty.
  - rewrite Et. simpl. intros id. rewrite lookup_empty. by intros [].
  - rewrite Et. simpl. intros id row. by rewrite lookup_empty.
  - rewrite Ec. intros a Ha. by apply not_elem_of_nil in Ha.
Qed.

Lemma system_steps_keep x y :
  rtc system_step x y -> world_ok x.1 /\ pool_ok x.1 x.2 -> world_ok y.1 /\ pool_ok y.1 y.2.
Proof. induction 1 as [|y z z' Hst _ IH]; [done|]. intros H. by eapply IH, system_step_keeps. Qed.

Lemma reached_ok x : reached policy_version error_text x -> world_ok x.1 /\ pool_ok x.1 x.2.
Proof.
  intros (w0 & Hs & Hr). eapply system_steps_keep; [exact Hr|]. split; [by apply start_world_ok|]. split; by intros n.
Qed.

End Props.
