(* ===== verification/EffectSpec.v ===== *)
(** * External effects: the theorems

    About every state the effect programs can reach, however their calls interleave, fail or lose
    their answers; and about the run streams outcomes are delivered to. *)

From Stdlib Require Import ZArith Lia String.
From stdpp Require Import base option numbers strings gmap list.
From S2P Require Import Prelude Codec Crypto Text RunStatus RunDecider RunDeciderSpec AgentRun RunReplay RunPorts RunStore.
From S2P Require Import WorkQueue PgRunStore ResourceScope Capability CapabilitySpec PolicyEngine ExternalEffects.
From S2P Require Import EffectStore RunEventStore EffectServices EffectWorld EffectStoreProps EffectRecoveryProps EffectProps.

(** ** Replaying a delivered outcome *)

Section Replay.

Lemma apply_identity st e s : apply st e = Ok s ->
  match st with
  | Some s0 => rs_workspace_id s = rs_workspace_id s0 /\ rs_id s = rs_id s0
  | None => rs_workspace_id s = ev_workspace_id e /\ rs_id s = ev_run_id e
  end.
Proof.
  unfold apply. intros (? & _ & H)%bind_Ok. destruct st as [s0|].
  - apply bind_Ok in H as (s1 & H & [= <-]). simpl. unfold apply_payload in H. cbv zeta in H.
    destruct (ev_payload e); try discriminate H; arm H; done.
  - unfold apply_first in H. destruct (ev_payload e); try done. by injection H as <-.
Qed.

Lemma replay_snoc es e r : replay (es ++ [e]) = Ok r -> exists st s, replay es = Ok st /\ apply st e = Ok s /\ r = Some s.
Proof.
  unfold replay. rewrite replay_from_app. intros (st & Hst & H)%bind_Ok. simpl in H.
  apply bind_Ok in H as (s & Ha & [= <-]). eauto.
Qed.

(** A replayed state is about the run of the stream, and its version is the stored head. *)
Lemma replay_stream ws run es s : Forall (fun e => of_run ws run e = true) es -> replay es = Ok (Some s) ->
  rs_workspace_id s = ws /\ rs_id s = run /\ foldr (fun e m => Z.max (ev_sequence e) m) 0%Z es = rs_version s.
Proof.
  assert (Hmax : forall l m, (0 <= m)%Z -> foldr (fun e m => Z.max (ev_sequence e) m) m l =
    Z.max (foldr (fun e m => Z.max (ev_sequence e) m) 0%Z l) m).
  { induction l as [|e l IH]; intros m Hm; simpl; [lia|]. rewrite IH by done. lia. }
  revert s. induction es as [|e es IH] using rev_ind; intros s Hall H; [done|].
  apply Forall_app in Hall as [Hall [He _]%Forall_cons]. unfold of_run in He. bool_hyps.
  apply replay_snoc in H as (st & s' & Hst & Ha & [= ->]). pose proof (apply_identity _ _ _ Ha) as Hid.
  rewrite foldr_app. simpl. destruct st as [s0|].
  - destruct (IH s0 Hall Hst) as (Hw & Hr & Hv). destruct Hid as [-> ->]. split_and!; try done.
    destruct (replay_shape _ _ Hst) as [Hsh Hlen]. destruct (apply_next_shape _ _ _ Hsh Ha) as [_ ->].
    unfold apply in Ha. apply bind_Ok in Ha as ([] & [Hq _]%validate_next & _). rewrite Hmax by lia. lia.
  - destruct Hid as [-> ->]. split_and!; try done. destruct (apply_first_shape _ _ Ha) as (_ & -> & _).
    unfold apply in Ha. apply bind_Ok in Ha as ([] & Hq%validate_first & _). rewrite Hmax, Hq by lia.
    assert (es = []) as ->; [|done]. destruct es as [|e0 es] using rev_ind; [done|].
    apply replay_snoc in Hst as (? & ? & _ & _ & [=]).
Qed.

Lemma stream_all ws run s : Forall (fun e => of_run ws run e = true) (stream ws run s).
Proof. apply Forall_forall. intros e He. by apply list_elem_of_In, filter_In in He as [_ ?]. Qed.

End Replay.

(** A delivered outcome and the run it is delivered to: while the run is not finished the stream still
    replays, with the run's status unchanged and its version advanced to the stored one; when the run
    is finished the append is accepted all the same, and the stream no longer replays. *)
Theorem delivered_outcome_replays (ctx : RequestContext) (run : AgentRunId) (x : ExternalReconciliation)
    (head sequence : RunVersion) (event_id : RunEventId) (causation_id : OperationId) (at_ : Timestamp)
    (s s' : RunStreams) (v : RunVersion) (st : RunState) :
  let ws := rc_workspace_id ctx in
  append ctx run head [outcome_envelope ctx run x sequence event_id causation_id at_] s = (Ok v, s') ->
  replay (stream ws run s) = Ok (Some st) ->
  if RunStatus.is_terminal (rs_status st)
  then replay (stream ws run s') = Err (EventAfterTerminal (rs_status st))
  else exists st', replay (stream ws run s') = Ok (Some st') /\ rs_status st' = rs_status st /\ rs_version st' = v.
Proof.
  intros ws Ha Hr. apply append_Ok in Ha as (Hv & _ & Hh & ->). simpl in Hv.
  apply bind_Ok in Hv as (next & Hn & Hv). apply map_err_Ok in Hn. destruct (negb _ || negb _) eqn:E1; [done|].
  destruct (negb (sequence =? next)%Z) eqn:E2; [done|]. simpl in Hv. injection Hv as <-. bool_hyps. subst sequence.
  destruct (replay_stream ws run _ _ (stream_all ws run s) Hr) as (Hw & Hid & Hver).
  fold (stored_head ws run s) in Hver. unfold ws in *. rewrite Hh in Hver.
  unfold stream at 1 2. simpl. rewrite List.filter_app. simpl. unfold of_run at 2 4. simpl. rewrite !eqb_refl. simpl.
  fold (stream (rc_workspace_id ctx) run s). unfold replay. rewrite replay_from_app. fold (replay (stream (rc_workspace_id ctx) run s)).
  rewrite Hr. simpl. unfold apply, validate_envelope. simpl. rewrite Hw, Hid, !eqb_refl. simpl.
  destruct (RunStatus.is_terminal (rs_status st)); simpl; [done|]. rewrite <-Hver, Hn. simpl. rewrite Z.eqb_refl. simpl.
  eexists. split; [done|]. done.
Qed.

(** ** Reached states *)

Section Theorems.
Context {J : Type} {SI : Serde J ExternalEffectIntent} {SR : Serde J ExternalEffectReceipt}
  {SX : Serde J ExternalReconciliation} {SD : Serde J PolicyDecision} {SG : Serde J CapabilityGrant}
  {PX : PayloadIndex (J := J)} {UT : UuidText} {UP : UuidParse}.
Context {SIok : SerdeOk J ExternalEffectIntent} {SXok : SerdeOk J ExternalReconciliation}
  {SGok : SerdeOk J CapabilityGrant}.
Context (policy_version : text) (error_text : ExternalEffectRecoveryError -> text).

(** C2.  No adapter is called on the strength of memory alone: whenever a call has left the process, its intent
    is stored, a dispatch of it with a deadline is stored, and an allowed decision is stored that
    matches the intent's actor, operation and target and rests on a stored grant which authorised
    exactly this request at the time of the decision. *)
Theorem adapter_call_is_recorded (x : World J * list thread) (a : AuthorizedExternalEffect) :
  reached policy_version error_text x -> a ∈ w_calls x.1 ->
  let i := ae_intent a in
  intent_stored x.1 i /\ dispatch_recorded x.1 i /\
  exists d g, ae_authorization a = from_policy_decision d /\ authorization_stored x.1 i d /\ is_allowed d = true /\
    pd_subject_id d = in_actor_id i /\ pd_operation d = in_operation i /\ pd_resource_scope d = in_target i /\
    grant_kept g (w_grants x.1) /\ pd_matched_grant_id d = Some (gr_id g) /\
    failure_reason g (in_workspace_id i) (in_actor_id i)
      (request_new (in_required_capability i) (in_operation i) (in_target i) (in_risk i)) (pd_decided_at d) = None.
Proof.
  intros Hr Ha i. destruct (reached_ok policy_version error_text x Hr) as [Hw _].
  destruct (wo_calls _ Hw a Ha) as (Hi & Hd & d & Hau & (? & _ & ? & ? & ? & g & ? & ? & ?) & Hs). split_and!; try done.
  by exists d, g.
Qed.

(** C5.  A dispatch is not lost: when the process stops after a dispatch was recorded and before its receipt was, then
    until something settles the outcome every sweep whose cutoffs are late enough is handed the
    effect as a candidate, unless the batch is full of others. *)
Theorem lost_dispatch_is_found {SRok : SerdeOk J ExternalEffectReceipt} (x : World J * list thread) (ctx : RequestContext)
    (d : TransitionRow) :
  let t := w_tables x.1 in let e := tw_effect_id d in
  reached policy_version error_text x ->
  d ∈ xt_transitions t -> tw_workspace_id d = rc_workspace_id ctx -> tw_status d = EffectLifecycleStatus.Dispatching ->
  has_receipt (rc_workspace_id ctx) e t = false -> ~ settled_transition t e ->
  exists b, forall unsettled failed expired limit,
    (b <= unsettled)%Z -> (b <= failed)%Z -> (b <= expired)%Z -> (0 <= limit)%Z ->
    exists cs, find_reconciliation_candidates ctx unsettled failed expired limit t = Ok cs /\
      ((exists c, c ∈ cs /\ in_id (ca_intent c) = e) \/ Z.of_nat (length cs) = limit).
Proof.
  intros t e Hr Hd Hws Hst Hrec Hset. destruct (reached_ok policy_version error_text x Hr) as [Hw _].
  by apply (lost_dispatch_returned ctx t e d (wo_tables _ Hw)).
Qed.

(** However many sweepers compete, an effect is dispatched at most once and its dispatch is adopted at most once: two
    dispatch records, or two adoption records, of one effect are the same record. *)
Theorem dispatch_adopted_once (x : World J * list thread) (r r' : TransitionRow) :
  reached policy_version error_text x -> r ∈ xt_transitions (w_tables x.1) -> r' ∈ xt_transitions (w_tables x.1) ->
  tw_effect_id r = tw_effect_id r' -> tw_cause r = tw_cause r' ->
  tw_cause r = TransitionCause.DispatchStarted \/ tw_cause r = TransitionCause.DispatchLost -> r = r'.
Proof.
  intros Hr Hin Hin' He Hc Hcase. destruct (reached_ok policy_version error_text x Hr) as [Hw _].
  pose proof (wo_tables _ Hw) as Ht. by apply (once_per_effect (w_tables x.1)).
Qed.

(** C14.  An outcome that was marked as delivered was delivered: if the effect was asked for by a run, the run's stream has
    the event with the outcome and the strength of its evidence. *)
Theorem notified_outcome_is_in_stream (x : World J * list thread) (id : ExternalReconciliationId) (row : ReconciliationRow J) :
  reached policy_version error_text x ->
  xt_reconciliations (w_tables x.1) !! id = Some row -> is_Some (xw_notified_at row) ->
  exists r i, xr_id r = id /\ from_value (xw_payload row) = Some r /\
    intent_in (w_tables x.1) (xw_workspace_id row) (xr_effect_id r) = Some (intent_row i) /\
    forall run, execution_run_id i = Some run ->
      exists ev, ev ∈ stream (xw_workspace_id row) run (w_streams x.1) /\
        ev_payload ev = EvExternalEffectSettled (xr_effect_id r) (xr_receipt_id r) (xr_outcome r) (xr_evidence_strength r).
Proof.
  intros Hr Hl Hn. destruct (reached_ok policy_version error_text x Hr) as [Hw _].
  destruct (wo_notified _ Hw id row Hl Hn) as (r & i & Hid & ((n & Hrow) & Hi) & Hs). exists r, i. split_and!; try done.
  rewrite Hid, Hl in Hrow. injection Hrow as ->. apply from_to_value.
Qed.

End Theorems.

(** ** Delivery in batches *)

Section Batches.
Context {J : Type} {SI : Serde J ExternalEffectIntent} {SR : Serde J ExternalEffectReceipt}
  {SX : Serde J ExternalReconciliation} {SD : Serde J PolicyDecision} {SG : Serde J CapabilityGrant}
  {PX : PayloadIndex (J := J)} {UT : UuidText} {UP : UuidParse}.
Context (policy_version : text).

(** The outcome belongs to a run without a stream. *)
Definition undeliverable (w : World J) (ctx : RequestContext) (o : UndeliveredOutcome) : Prop :=
  exists run, execution_run_id (uo_intent o) = Some run /\ sm_versions (w_streams w) !! (rc_workspace_id ctx, run) = None.

Lemma alone_bind {A B} answer seen (w : World J) (f : A -> eprog B) p :
  alone policy_version answer seen w (eprog_bind f p) =
  let '(a, w') := alone policy_version answer seen w p in alone policy_version answer seen w' (f a).
Proof. revert w. induction p as [a|k IH|R c k IH|a k IH]; intros w; simpl; [done|apply IH..]. Qed.

Lemma deliver_one_undeliverable answer seen (w : World J) ctx at_ o r : undeliverable w ctx o ->
  alone policy_version answer seen w (deliver_one ctx at_ o r) =
  (Ok (mkDelivery (dv_delivered r) (dv_unattributable r) (dv_deferred r + 1)), w).
Proof.
  intros (run & Hrun & Hs). unfold deliver_one. rewrite Hrun, alone_bind. simpl.
  unfold load_stream_head. by rewrite Hs.
Qed.

Lemma deliver_all_undeliverable answer seen (w : World J) ctx at_ os r : Forall (undeliverable w ctx) os ->
  alone policy_version answer seen w (deliver_all ctx at_ os r) =
  (Ok (mkDelivery (dv_delivered r) (dv_unattributable r) (dv_deferred r + Z.of_nat (length os))), w).
Proof.
  revert r. induction os as [|o os IH]; intros r Hall; simpl.
  - destruct r. simpl. by rewrite Z.add_0_r.
  - apply Forall_cons in Hall as [Ho Hall]. unfold mbind, EM_bind. rewrite alone_bind.
    rewrite deliver_one_undeliverable by done. rewrite IH by done. simpl. do 3 f_equal. lia.
Qed.

(** The oldest undelivered outcomes can hold back all others: when the outcomes of the first batch belong
    to runs without a stream, a pass changes nothing, so the next pass reads the same batch. *)
Theorem undeliverable_batch_blocks (answer : result AdapterError AdapterDispatchResult)
    (seen : result ApplicationError (list ObservedEffectState)) (w : World J) (ctx : RequestContext) (at_ : Timestamp)
    (os : list UndeliveredOutcome) :
  find_undelivered_outcomes ctx DELIVERY_BATCH (w_tables w) = Ok os -> Forall (undeliverable w ctx) os ->
  alone policy_version answer seen w (deliver_once ctx at_) = (Ok (mkDelivery 0 0 (Z.of_nat (length os))), w).
Proof.
  intros Hf Hall. unfold deliver_once, mbind, EM_bind. rewrite alone_bind. simpl. rewrite Hf.
  by rewrite deliver_all_undeliverable.
Qed.

End Batches.

(** ** An effect from its intent to its run *)

Module EffectExample.

Local Open Scope Z_scope.

Inductive Stored : Type :=
| StIntent (i : ExternalEffectIntent)
| StReceipt (r : ExternalEffectReceipt)
| StReconciliation (x : ExternalReconciliation)
| StDecision (d : PolicyDecision)
| StGrant (g : CapabilityGrant).

#[global] Instance serde_intent : Serde Stored ExternalEffectIntent :=
  {| to_value := StIntent; from_value j := match j with StIntent i => Some i | _ => None end |}.
#[global] Instance serde_receipt : Serde Stored ExternalEffectReceipt :=
  {| to_value := StReceipt; from_value j := match j with StReceipt r => Some r | _ => None end |}.
#[global] Instance serde_reconciliation : Serde Stored ExternalReconciliation :=
  {| to_value := StReconciliation; from_value j := match j with StReconciliation x => Some x | _ => None end |}.
#[global] Instance serde_decision : Serde Stored PolicyDecision :=
  {| to_value := StDecision; from_value j := match j with StDecision d => Some d | _ => None end |}.
#[global] Instance serde_grant : Serde Stored CapabilityGrant :=
  {| to_value := StGrant; from_value j := match j with StGrant g => Some g | _ => None end |}.
#[global] Instance serde_intent_ok : SerdeOk Stored ExternalEffectIntent.
Proof. done. Qed.
#[global] Instance serde_receipt_ok : SerdeOk Stored ExternalEffectReceipt.
Proof. done. Qed.
#[global] Instance serde_reconciliation_ok : SerdeOk Stored ExternalReconciliation.
Proof. done. Qed.
#[global] Instance serde_grant_ok : SerdeOk Stored CapabilityGrant.
Proof. done. Qed.

#[global] Instance payload_index : PayloadIndex (J := Stored) := {|
  indexed_effect_id j := match j with StReconciliation x => Ok (xr_effect_id x) | _ => Err AppStorage end;
  indexed_receipt_id j := match j with StReconciliation x => Ok (xr_receipt_id x) | _ => Err AppStorage end;
|}.
#[global] Instance uuid_text_one : UuidText := fun u => [u].
#[global] Instance uuid_parse_one : UuidParse := fun t => match t with [u] => Some u | _ => None end.

Definition version : text := text_of "v1".
Definition error_text (_ : ExternalEffectRecoveryError) : text := text_of "unreachable".

Section Reaches.
Context (answer : result AdapterError AdapterDispatchResult) (seen : result ApplicationError (list ObservedEffectState)).

(** A world that the programs reach with some pool. *)
Definition reaches (w : World Stored) : Prop := exists pool, reached version error_text (w, pool).

Lemma reaches_env w w' : reaches w -> env_step w w' -> reaches w'.
Proof. intros (pool & w0 & Hs & Hr) He. exists pool, w0. split; [done|]. eapply rtc_r; [exact Hr|by apply system_env]. Qed.

Lemma reaches_alone w w' owned p : reaches w ->
  (forall pool, system_step version error_text (w, pool) (w', pool ++ [(owned, p)])) ->
  reaches (alone version answer seen w' p).2.
Proof.
  intros (pool & w0 & Hs & Hr) Hstep. destruct (alone version answer seen w' p) as [a w''] eqn:E.
  apply alone_steps in E as (m & E).
  destruct (steps_system version error_text answer seen m w' (pool ++ [(owned, p)]) (length pool) owned p w'' (ERet a))
    as (o & Ho); [by rewrite list_lookup_middle|done|].
  eexists _, w0. split; [done|]. etrans; [|exact Ho]. eapply rtc_r; [exact Hr|apply Hstep].
Qed.

End Reaches.

Definition ctx : RequestContext := mkContext 90 91 1 10.

Definition grant_spec : CapabilityGrantSpec :=
  mkGrantSpec 1 1 10 9 Capability.MemoryWrite (text_of "memory.write") (text_of "memory://") 100 None None High [].
Definition grant : CapabilityGrant := CapabilityExample.issued grant_spec.

(** The intent of an effect that run 65 asks for. *)
Definition intent : ExternalEffectIntent :=
  mkIntent 100 (text_of "run://A") 1 10 (text_of "http") (text_of "memory.write") (text_of "memory://7")
    (text_of "args") (text_of "title set") [mkPrecondition (text_of "revision") (text_of "3")] (text_of "digest") Low
    Compensatable ProviderKey AtLeastOnce Capability.MemoryWrite None None None 1000.

Definition adapter : ExternalEffectAdapterDescriptor :=
  mkDescriptor (text_of "http") None AtLeastOnce ProviderKey Compensatable Native true true Capability.MemoryWrite.

Definition run_event (v : RunVersion) (e : LegacyRunEvent) : LegacyRunEventEnvelope :=
  mkEnvelope (200 + v) 1 65 v (legacy_event_type e) 1 (Principal 10) 90 91 e 1000 1000.
Definition created : LegacyRunEventEnvelope := run_event 1 (EvCreated 10 (text_of "run")).
Definition cancelled : LegacyRunEventEnvelope := run_event 2 (EvCancelled None).

(** The adapter does not answer in time; the provider says later that the effect was applied. *)
Definition no_answer : result AdapterError AdapterDispatchResult := Err AdapterTimeout.
Definition applied : result ApplicationError (list ObservedEffectState) :=
  Ok [mkObserved ExternalResourceReadBack (Some true) (text_of "state") []].

Definition w0 : World Stored := mkWorld (mkEffectTables ∅ ∅ ∅ ∅ [] [] ∅ 0 1000) ∅ (mkStreams ∅ []) [] 100.
Definition w1 : World Stored := mkWorld (w_tables w0) (insert_grant ctx grant (w_grants w0)).2 (w_streams w0) [] 100.
Definition w2 : World Stored := set_streams w1 (append ctx 65 0 [created] (w_streams w1)).2.
Definition dispatched : World Stored :=
  (alone version no_answer applied (minted w2) (forget (perform 7 ctx intent adapter 1000))).2.
Definition late : Timestamp := 10 ^ 15.
Definition settled : World Stored :=
  (alone version no_answer applied dispatched
     (forget (recovery_run error_text [(text_of "http", adapter)] ctx late late late late 8))).2.
Definition delivered : World Stored :=
  (alone version no_answer applied settled (forget (deliver_once ctx late))).2.

Lemma reaches_w2 : reaches w2.
Proof.
  assert (H0 : reaches w0) by (exists [], w0; split; [done|constructor]).
  assert (H1 : reaches w1) by (eapply reaches_env; [exact H0|]; by apply (env_grant w0 ctx grant_spec 100 grant)).
  eapply reaches_env; [exact H1|]. exact (env_stream w1 ctx 65 0 [created]).
Qed.

Lemma reaches_dispatched : reaches dispatched.
Proof. eapply reaches_alone; [exact reaches_w2|]. intros pool. by apply system_perform. Qed.

Lemma reaches_settled : reaches settled.
Proof. eapply reaches_alone; [exact reaches_dispatched|]. intros pool. apply system_sweep. Qed.

Lemma reaches_delivered : reaches delivered.
Proof. eapply reaches_alone; [exact reaches_settled|]. intros pool. apply system_deliver. Qed.

End EffectExample.

Import EffectExample.

(** ** Witnesses *)

(** The dispatch of the example and the adoption of it. *)
Definition the_dispatch : TransitionRow :=
  mkTransition 2 2 100 1 EffectLifecycleStatus.Dispatching TransitionCause.DispatchStarted 100 1000 (Some 7%Z)
    (Some 305000001000%Z).
Definition the_adoption : TransitionRow :=
  mkTransition 3 3 100 1 EffectLifecycleStatus.Unknown TransitionCause.DispatchLost 2 late None None.

Lemma not_settled : ~ settled_transition (w_tables dispatched) 100.
Proof.
  intros (r & Hin & _ & Hc). apply list_elem_of_In in Hin. vm_compute in Hin. by repeat destruct Hin as [<-|Hin].
Qed.

(** The theorem at the call of the example. *)
Lemma adapter_call_is_recorded_at_timeout :
  length (w_calls dispatched) = 1 /\ intent_stored dispatched intent /\ dispatch_recorded dispatched intent.
Proof.
  split; [vm_compute; reflexivity|]. destruct reaches_dispatched as (pool & Hr).
  assert (Hin : mkAuthorized intent (ae_authorization (List.hd (mkAuthorized intent (mkAuthorization false [] [] 0 0
    Capability.MemoryRead [] [])) (w_calls dispatched))) ∈ w_calls dispatched) by (vm_compute; left).
  destruct (adapter_call_is_recorded version error_text (dispatched, pool) _ Hr Hin) as (H1 & H2 & _). by split.
Defined.

(** The theorem after the adapter did not answer. *)
Lemma lost_dispatch_is_found_at_timeout :
  exists b, forall limit, (0 <= limit)%Z ->
    exists cs, find_reconciliation_candidates ctx b b b limit (w_tables dispatched) = Ok cs /\
      ((exists c, c ∈ cs /\ in_id (ca_intent c) = 100%Z) \/ Z.of_nat (length cs) = limit).
Proof.
  destruct reaches_dispatched as (pool & Hr).
  destruct (lost_dispatch_is_found version error_text (dispatched, pool) ctx the_dispatch Hr) as (b & Hb).
  - vm_compute. right. right. left.
  - reflexivity.
  - reflexivity.
  - vm_compute. reflexivity.
  - exact not_settled.
  - exists b. intros limit Hl. apply Hb; done.
Defined.

(** The theorem on the adoption of the example. *)
Lemma dispatch_adopted_once_at_settled :
  the_adoption ∈ xt_transitions (w_tables settled) /\
  forall r, r ∈ xt_transitions (w_tables settled) -> tw_effect_id r = 100%Z -> tw_cause r = TransitionCause.DispatchLost ->
    r = the_adoption.
Proof.
  assert (Hin : the_adoption ∈ xt_transitions (w_tables settled)) by (vm_compute; right; right; right; left).
  split; [exact Hin|]. intros r Hr He Hc. destruct reaches_settled as (pool & Hs).
  apply (dispatch_adopted_once version error_text (settled, pool)); [exact Hs|exact Hr|exact Hin|exact He|exact Hc|].
  right. exact Hc.
Defined.

(** The theorem on the outcome of the example. *)
Lemma notified_outcome_is_in_stream_at_delivered :
  exists ev r, ev ∈ stream 1 65 (w_streams delivered) /\ ev_payload ev = settled_event r /\ xr_outcome r = Confirmed.
Proof.
  destruct reaches_delivered as (pool & Hr).
  destruct (xt_reconciliations (w_tables delivered) !! 103%Z) as [row|] eqn:E; [|vm_compute in E; discriminate E].
  assert (Hrow := E). vm_compute in Hrow. injection Hrow as Hrow.
  destruct (notified_outcome_is_in_stream version error_text (delivered, pool) 103 row Hr E) as (r & i & _ & Hp & Hi & Hs).
  - rewrite <-Hrow. by eexists.
  - rewrite <-Hrow in Hp, Hi, Hs. injection Hp as Hp. rewrite <-Hp in Hi.
    assert (E2 : intent_in (w_tables delivered) 1 100 = Some (intent_row intent)) by (vm_compute; reflexivity).
    assert (Hii : Some (intent_row intent) = Some (intent_row i)) by (rewrite <-E2; exact Hi).
    injection Hii as _ _ Hii. destruct (Hs 65%Z) as (ev & Hev & Hpay); [rewrite <-Hii; vm_compute; reflexivity|].
    exists ev, r. split; [exact Hev|]. split; [exact Hpay|]. by rewrite <-Hp.
Defined.

Definition outcome : ExternalReconciliation :=
  mkReconciliation 103 100 None ExternalResourceReadBack [] Confirmed [] 1000.
Definition cancelled_run : RunStreams := mkStreams {[(1%Z, 65%Z) := 2%Z]} [created; cancelled].
Definition late_outcome : LegacyRunEventEnvelope := outcome_envelope ctx 65 outcome 3 301 302 2000.
Definition told_late : RunStreams := mkStreams {[(1%Z, 65%Z) := 3%Z]} [created; cancelled; late_outcome].

(** The theorem on a run that was cancelled before the outcome arrived. *)
Lemma delivered_outcome_replays_at_cancelled :
  append ctx 65 2 [late_outcome] cancelled_run = (Ok 3%Z, told_late) /\
  replay (stream 1 65 told_late) = Err (EventAfterTerminal RunStatus.Cancelled).
Proof.
  assert (Ha : append ctx 65 2 [late_outcome] cancelled_run = (Ok 3%Z, told_late)) by (vm_compute; reflexivity).
  split; [exact Ha|].
  assert (Hst : exists st, replay (stream 1 65 cancelled_run) = Ok (Some st) /\ rs_status st = RunStatus.Cancelled)
    by (eexists; split; vm_compute; reflexivity).
  destruct Hst as (st & Hst & Hc).
  pose proof (delivered_outcome_replays ctx 65 outcome 2 3 301 302 2000 cancelled_run told_late 3 st Ha Hst) as H.
  rewrite Hc in H. exact H.
Defined.

(** An outcome that is owed to run 66, which has no stream. *)
Definition owed_to_nobody : World Stored :=
  set_tables w2 (mkEffectTables
    {[100%Z := intent_row (mkIntent 100 (text_of "run://B") 1 10 (text_of "http") (text_of "memory.write")
        (text_of "memory://7") (text_of "args") (text_of "title set") [] (text_of "digest") Low Compensatable ProviderKey
        AtLeastOnce Capability.MemoryWrite None None None 1000)]}
    ∅ ∅ {[103%Z := reconciliation_row 1 None outcome]} [] [] ∅ 0 1000).

(** The theorem on a batch of one. *)
Lemma undeliverable_batch_blocks_at_nobody :
  alone version no_answer applied owed_to_nobody (deliver_once ctx 2000) = (Ok (mkDelivery 0 0 1), owed_to_nobody).
Proof.
  destruct (find_undelivered_outcomes ctx DELIVERY_BATCH (w_tables owed_to_nobody)) as [os|e] eqn:E;
    [|vm_compute in E; discriminate E].
  assert (Hos := E). vm_compute in Hos. injection Hos as Hos.
  pose proof (undeliverable_batch_blocks version no_answer applied owed_to_nobody ctx 2000 os E) as H.
  rewrite <-Hos in H. apply H. constructor; [|constructor]. exists 66%Z. split; vm_compute; reflexivity.
Defined.

(** ** Two sweeps of one effect *)

Module TwoSweeps.

Local Open Scope Z_scope.

Definition acknowledged : result AdapterError AdapterDispatchResult :=
  Ok (mkDispatchResult OutcomeAcknowledged (text_of "202") None None None []).
Definition observes (applied : bool) : result ApplicationError (list ObservedEffectState) :=
  Ok [mkObserved ExternalResourceReadBack (Some applied) (text_of "state") []].
Definition sweeping : eprog unit :=
  forget (recovery_run error_text [(text_of "http", adapter)] ctx late late late late 8).

(** The effect is performed and acknowledged; one sweep asks, another asks and records, the first records. *)
Definition received : World Stored :=
  (alone version acknowledged (observes true) (minted w2) (forget (perform 7 ctx intent adapter 1000))).2.
Definition asked : World Stored * eprog unit := steps version acknowledged (observes false) 3 received sweeping.
Definition confirmed : World Stored := (alone version acknowledged (observes true) asked.1 sweeping).2.
Definition contradicted : World Stored * eprog unit :=
  steps version acknowledged (observes false) 2 confirmed asked.2.
Definition told_both : World Stored :=
  (alone version acknowledged (observes true) contradicted.1 (forget (deliver_once ctx late))).2.

Lemma reached_spawn answer seen m w pool w' owned p w'' p'' :
  reached version error_text (w, pool) -> system_step version error_text (w, pool) (w', pool ++ [(owned, p)]) ->
  steps version answer seen m w' p = (w'', p'') -> exists o, reached version error_text (w'', pool ++ [(o, p'')]).
Proof.
  intros (w0 & Hs & Hr) Hst E.
  destruct (steps_system version error_text answer seen m w' (pool ++ [(owned, p)]) (length pool) owned p w'' p'') as (o & Ho);
    [by rewrite list_lookup_middle|done|].
  rewrite insert_app_r_alt, Nat.sub_diag in Ho by done. simpl in Ho. exists o, w0. split; [done|].
  etrans; [|exact Ho]. eapply rtc_r; [exact Hr|exact Hst].
Qed.

Lemma reached_resume answer seen m w pool n owned p w' p' :
  reached version error_text (w, pool) -> pool !! n = Some (owned, p) -> steps version answer seen m w p = (w', p') ->
  exists o, reached version error_text (w', <[n := (o, p')]> pool).
Proof.
  intros (w0 & Hs & Hr) Hn E. destruct (steps_system version error_text answer seen m w pool n owned p w' p') as (o & Ho);
    [done..|]. exists o, w0. split; [done|]. by etrans.
Qed.

Lemma reaches_told_both : reaches told_both.
Proof.
  assert (H1 : reaches received).
  { eapply reaches_alone; [exact reaches_w2|]. intros pool. by apply system_perform. }
  destruct H1 as (pool & H1).
  destruct (reached_spawn acknowledged (observes false) 3 received pool received None sweeping asked.1 asked.2 H1)
    as (o & H2); [apply system_sweep|by destruct (steps _ _ _ 3 received sweeping) eqn:E; unfold asked; rewrite E|].
  destruct (alone version acknowledged (observes true) asked.1 sweeping) as [u wB] eqn:EB.
  assert (Hwb : wB = confirmed) by (unfold confirmed; by rewrite EB). subst wB.
  apply alone_steps in EB as (m & EB).
  destruct (reached_spawn _ _ _ _ _ asked.1 None sweeping _ _ H2 (system_sweep _ _ _ _ _ _ _ _ _ _ _) EB) as (o2 & H3).
  destruct (reached_resume acknowledged (observes false) 2 confirmed _ (length pool) o asked.2 contradicted.1 contradicted.2 H3)
    as (o3 & H4); [|by unfold contradicted; destruct (steps _ _ _ 2 _ _)|].
  { rewrite <-(assoc_L (++)). cbn [app]. by rewrite list_lookup_middle. }
  eapply reaches_alone; [by eexists|]. intros pool'. apply system_deliver.
Qed.

End TwoSweeps.

Import TwoSweeps.

(** Two sweeps that ask about one receipt can both settle it: the candidate query hands the effect to both, nothing
    between asking and recording excludes the other, and the run is told that the effect was applied and that it was not. *)
Theorem effect_settled_twice :
  exists x, reached version error_text x /\
    exists e e', e ∈ stream 1 65 (w_streams x.1) /\ e' ∈ stream 1 65 (w_streams x.1) /\
      ev_payload e = EvExternalEffectSettled 100 (Some 102%Z) Confirmed ExternalResourceReadBack /\
      ev_payload e' = EvExternalEffectSettled 100 (Some 102%Z) NotApplied ExternalResourceReadBack.
Proof.
  destruct reaches_told_both as (pool & Hr). exists (told_both, pool). split; [exact Hr|]. cbn [fst].
  destruct (stream 1 65 (w_streams told_both)) as [|e0 [|e1 [|e2 rest]]] eqn:E; try (vm_compute in E; discriminate E).
  exists e2, e1. vm_compute in E. injection E as <- <- <- <-.
  split_and!; [right; right; left|right; left|reflexivity|reflexivity].
Qed.
