(* ===== verification/RunRows.v ===== *)
(** * The tables the two run engines share

    [run_events], [run_streams], [run_checkpoints] and [agent_runs] as
    [migrations/0019], [0020], [0111] and [0112] define them, at the level of their columns: what
    the legacy writers ([run_event_store.rs], [run_command_committer.rs]) and the coordinator's
    store ([run/store.rs]) put into a row of [run_events], and what the legacy readers
    ([run_event_store.rs], [run_command_committer.rs], [run_recovery_store.rs]) make of it.

    A JSON column holds a [Value].  [L] stands for the scalars other than strings; how a field is
    written is a parameter, how the derived serialisation of an [enum] is tagged is written out:
    [LegacyRunEvent] is externally tagged, [RunEventPayload] carries the attribute [tag = "type"]. *)

From Stdlib Require Import ZArith Lia String.
From stdpp Require Import base option numbers strings gmap sorting list.
From S2P Require Import Prelude Codec Crypto Text RunStatus RunDecider AgentRun RunReplay.
From S2P Require Import RunPorts RunCoordinator WorkQueue PgRunStore RunEventStore.

#[local] Set Warnings "-register-all".

#[export] Instance RunActor_eq_dec : EqDecision RunActor.
Proof. solve_decision. Defined.
#[export] Instance RunStepState_eq_dec : EqDecision RunStepState.
Proof. solve_decision. Defined.
#[export] Instance RunWait_eq_dec : EqDecision RunWait.
Proof. solve_decision. Defined.
#[export] Instance RunCompletion_eq_dec : EqDecision RunCompletion.
Proof. solve_decision. Defined.
#[export] Instance RunState_eq_dec : EqDecision RunState.
Proof. solve_decision. Defined.

(** ** JSON *)

(** [serde_json::Value]; an object is its entries. *)
Inductive Value (L : Type) : Type :=
| VScalar (l : L)
| VString (s : string)
| VArray (l : list (Value L))
| VObject (fields : list (string * Value L)).

Arguments VScalar {L} l.
Arguments VString {L} s.
Arguments VArray {L} l.
Arguments VObject {L} fields.

Section Tags.
Context {L : Type}.

(** How [serde_json] reads an externally tagged [enum]: a string names a unit variant, an object
    with exactly one entry names a variant and its content; nothing else is an [enum]. *)
Definition enum_access (v : Value L) : option (string * option (Value L)) :=
  match v with
  | VString tag => Some (tag, None)
  | VObject [(tag, content)] => Some (tag, Some content)
  | _ => None
  end.

Definition enum_value (tag : string) (content : option (Value L)) : Value L :=
  match content with
  | None => VString tag
  | Some v => VObject [(tag, v)]
  end.

End Tags.

Local Open Scope string_scope.

(** [rename_all = "snake_case"]. *)
Definition legacy_tag (e : LegacyRunEvent) : string :=
  match e with
  | EvCreated _ _ => "created"
  | EvPrepared => "prepared"
  | EvStarted => "started"
  | EvStepStarted _ _ _ => "step_started"
  | EvStepSucceeded _ _ => "step_succeeded"
  | EvStepFailed _ _ _ _ => "step_failed"
  | EvWaitingForInput _ _ => "waiting_for_input"
  | EvWaitingForApproval _ => "waiting_for_approval"
  | EvWaitingForDependency _ => "waiting_for_dependency"
  | EvApprovalGranted _ => "approval_granted"
  | EvResumed => "resumed"
  | EvSucceeded _ => "succeeded"
  | EvSucceededWithWarnings _ _ => "succeeded_with_warnings"
  | EvPartialCompleted _ _ => "partial_completed"
  | EvFailed _ _ _ => "failed"
  | EvCancelled _ => "cancelled"
  | EvPaused => "paused"
  | EvExpired => "expired"
  | EvExternalEffectSettled _ _ _ _ => "external_effect_settled"
  end.

Definition unit_variant (e : LegacyRunEvent) : bool :=
  match e with EvPrepared | EvStarted | EvResumed | EvPaused | EvExpired => true | _ => false end.

(** The content of a variant, and the variant a tag and a content are. *)
Class LegacySerde (L : Type) : Type := {
  legacy_content : LegacyRunEvent -> Value L;
  legacy_variant : string -> option (Value L) -> option LegacyRunEvent;
}.

Definition legacy_to_value {L} `{!LegacySerde L} (e : LegacyRunEvent) : Value L :=
  enum_value (legacy_tag e) (if unit_variant e then None else Some (legacy_content e)).

Definition legacy_from_value {L} `{!LegacySerde L} (v : Value L) : option LegacyRunEvent :=
  '(tag, content) ← enum_access v; legacy_variant tag content.

#[export] Instance serde_legacy_event {L} `{!LegacySerde L} : Serde (Value L) LegacyRunEvent :=
  {| to_value := legacy_to_value; from_value := legacy_from_value |}.

(** The derived implementations of one type agree. *)
Class LegacySerdeOk (L : Type) `{!LegacySerde L} : Prop :=
  legacy_variant_content : forall e,
    legacy_variant (legacy_tag e) (if unit_variant e then None else Some (legacy_content e)) = Some e.

#[export] Instance serde_legacy_event_ok {L} `{!LegacySerde L, !LegacySerdeOk L} : SerdeOk (Value L) LegacyRunEvent.
Proof.
  intros e. cbn. unfold legacy_from_value, legacy_to_value. pose proof (legacy_variant_content e) as H.
  by destruct (unit_variant e).
Qed.

(** How the fields of [RunEventPayload] are written. *)
Class PayloadFields (L : Type) : Type := {
  mode_value : RunExecutionMode.t -> Value L;
  uuid_value : Uuid -> Value L;
  text_value : text -> Value L;
  number_value : Z -> Value L;
  parent_value : option ParentRunLink -> Value L;
  status_value : RunStatus.t -> Value L;
  result_value : option RunTerminalResult -> Value L;
  optional_uuid_value : option Uuid -> Value L;
  steps_value : list RunStep -> Value L;
  step_status_value : RunStepStatus.t -> Value L;
}.

(** [tag = "type", rename_all = "snake_case"]: the tag is an entry beside the fields. *)
Definition payload_value {L} `{!PayloadFields L} (p : RunEventPayload) : Value L :=
  match p with
  | RunCreated objective mode coordinator parent =>
      VObject [("type", VString "run_created"); ("objective", text_value objective);
               ("execution_mode", mode_value mode); ("coordinator_snapshot_id", uuid_value coordinator);
               ("parent", parent_value parent)]
  | RunStatusChanged from to res =>
      VObject [("type", VString "run_status_changed"); ("from", status_value from); ("to", status_value to);
               ("result", result_value res)]
  | PlanAttached previous current =>
      VObject [("type", VString "plan_attached"); ("previous", optional_uuid_value previous);
               ("current", uuid_value current)]
  | StepsAdded steps => VObject [("type", VString "steps_added"); ("steps", steps_value steps)]
  | StepStatusChanged step_id from to attempt =>
      VObject [("type", VString "step_status_changed"); ("step_id", uuid_value step_id);
               ("from", step_status_value from); ("to", step_status_value to); ("attempt", number_value attempt)]
  | CurrentStepChanged previous current =>
      VObject [("type", VString "current_step_changed"); ("previous", optional_uuid_value previous);
               ("current", optional_uuid_value current)]
  | CheckpointCreated checkpoint_id resume_cursor =>
      VObject [("type", VString "checkpoint_created"); ("checkpoint_id", uuid_value checkpoint_id);
               ("resume_cursor", number_value resume_cursor)]
  | ApprovalGranted approver_id =>
      VObject [("type", VString "approval_granted"); ("approver_id", uuid_value approver_id)]
  end.

(** ** Rows *)

Section Rows.
Context {L : Type}.

(** A row of [run_events]. *)
Record EventRow : Type := mkEventRow {
  er_id : RunEventId;
  er_workspace_id : WorkspaceId;
  er_run_id : AgentRunId;
  er_sequence : Z;
  er_event_type : string;
  er_event_version : Z;
  er_actor : Value L;
  er_causation_id : Uuid;
  er_correlation_id : CorrelationId;
  er_payload : Value L;
  er_occurred_at : Timestamp;
  er_recorded_at : Timestamp;
  er_created_at : Timestamp;
}.

(** A row of [run_checkpoints] at its key. *)
Record StateRow : Type := mkStateRow {
  sr_format_version : Z;
  sr_state_hash : bytes;
  sr_state : Value L;
  sr_created_at : Timestamp;
}.

(** The columns of [agent_runs] the legacy engine writes; the key is [id]. *)
Record RunRow : Type := mkRow {
  ag_workspace_id : WorkspaceId;
  ag_principal_id : PrincipalId;
  ag_title : text;
  ag_objective : text;
  ag_coordinator_snapshot_id : AgentRuntimeSnapshotId;
  ag_execution_mode : string;
  ag_status : string;
  ag_run_version : Z;
  ag_root_run_id : AgentRunId;
  ag_created_at : Timestamp;
  ag_updated_at : Timestamp;
  ag_finished_at : option Timestamp;
}.

(** The tables by their keys; [run_events] in the order of insertion.  [rd_principals] are the
    identifiers of [principals]; [rd_now] is what [NOW()] answers. *)
Record RunDb : Type := mkRunDb {
  rd_streams : gmap (Z * Z) Z;
  rd_events : list EventRow;
  rd_checkpoints : gmap (Z * Z * Z) StateRow;
  rd_runs : gmap Z RunRow;
  rd_principals : gset Z;
  rd_now : Timestamp;
}.

Definition with_streams (db : RunDb) (m : gmap (Z * Z) Z) : RunDb :=
  mkRunDb m (rd_events db) (rd_checkpoints db) (rd_runs db) (rd_principals db) (rd_now db).
Definition with_events (db : RunDb) (l : list EventRow) : RunDb :=
  mkRunDb (rd_streams db) l (rd_checkpoints db) (rd_runs db) (rd_principals db) (rd_now db).
Definition with_checkpoints (db : RunDb) (m : gmap (Z * Z * Z) StateRow) : RunDb :=
  mkRunDb (rd_streams db) (rd_events db) m (rd_runs db) (rd_principals db) (rd_now db).
Definition with_runs (db : RunDb) (m : gmap Z RunRow) : RunDb :=
  mkRunDb (rd_streams db) (rd_events db) (rd_checkpoints db) m (rd_principals db) (rd_now db).

End Rows.
Arguments EventRow L : clear implicits.
Arguments StateRow L : clear implicits.
Arguments RunDb L : clear implicits.

Section Columns.
Context {L : Type} {LS : LegacySerde L} {PF : PayloadFields L}
  {SA : Serde (Value L) RunActor} {SR : Serde (Value L) RunActorRef}.

(** What the legacy writers insert for an envelope. *)
Definition row_of_envelope (now : Timestamp) (e : LegacyRunEventEnvelope) : EventRow L :=
  mkEventRow (ev_event_id e) (ev_workspace_id e) (ev_run_id e) (ev_sequence e) (ev_event_type e) (ev_event_version e)
    (to_value (ev_actor e)) (ev_causation_id e) (ev_correlation_id e) (to_value (ev_payload e)) (ev_occurred_at e)
    (ev_recorded_at e) now.

Definition CANONICAL_RUN_EVENT_VERSION : Z := 1.

(** What the coordinator's store inserts for an event. *)
Definition row_of_event (now : Timestamp) (ws : WorkspaceId) (e : RunEvent) : EventRow L :=
  mkEventRow (re_id e) ws (re_run_id e) (cast_i64 (re_sequence e)) (payload_event_type (re_payload e))
    CANONICAL_RUN_EVENT_VERSION (to_value (re_actor e)) (default (re_id e) (re_causation_event_id e))
    (re_correlation_id e) (payload_value (re_payload e)) (re_occurred_at e) (re_occurred_at e) now.

(** [TryFrom<EventRow> for LegacyRunEventEnvelope]; [recorded] is the column selected as
    [recorded_at], which is [created_at] in the recovery store. *)
Definition envelope_of_row (recorded : EventRow L -> Timestamp) (row : EventRow L)
    : result ApplicationError LegacyRunEventEnvelope :=
  sequence ← version_from_database (er_sequence row);
  if (sequence =? RunVersion_ZERO)%Z then Err AppStorage else
  event_version ← try_unsigned (er_event_version row);
  payload ← ok_or (from_value (er_payload row)) AppStorage;
  if negb (String.eqb (er_event_type row) (legacy_event_type payload))
     || negb (event_version =? legacy_event_version payload)%Z then Err AppStorage else
  actor ← ok_or (from_value (er_actor row)) AppStorage;
  Ok (mkEnvelope (er_id row) (er_workspace_id row) (er_run_id row) sequence (er_event_type row) event_version actor
        (er_causation_id row) (er_correlation_id row) payload (er_occurred_at row) (recorded row)).

(** ** Reading a stream *)

Definition row_of_run (ws : WorkspaceId) (run : AgentRunId) (r : EventRow L) : bool :=
  (er_workspace_id r == ws) && (er_run_id r == run).

Definition run_rows (ws : WorkspaceId) (run : AgentRunId) (db : RunDb L) : list (EventRow L) :=
  List.filter (row_of_run ws run) (rd_events db).

Definition sequence_le (a b : EventRow L) : Prop := (er_sequence a <= er_sequence b)%Z.

#[export] Instance sequence_le_dec a b : Decision (sequence_le a b).
Proof. unfold sequence_le. apply _. Defined.

(** [SELECT ... WHERE workspace_id = $1 AND run_id = $2 AND p ORDER BY sequence ASC]. *)
Definition select_where (p : EventRow L -> bool) (ws : WorkspaceId) (run : AgentRunId) (db : RunDb L)
    : list (EventRow L) :=
  merge_sort sequence_le (List.filter p (run_rows ws run db)).

(** [load_events] of the event store and of the committer. *)
Definition load_events (ctx : RequestContext) (run : AgentRunId) (db : RunDb L)
    : result ApplicationError (list LegacyRunEventEnvelope) :=
  collect (envelope_of_row er_recorded_at) (select_where (fun _ => true) (rc_workspace_id ctx) run db).

(** ** Inserting events *)

(** The primary key, and [run_events_workspace_run_sequence_key]. *)
Definition clashes (e r : EventRow L) : bool :=
  (er_id r == er_id e) || row_of_run (er_workspace_id e) (er_run_id e) r && (er_sequence r =? er_sequence e)%Z.

(** [INSERT INTO run_events]; a duplicate key is reported as [duplicate]. *)
Definition insert_row (duplicate : ApplicationError) (e : EventRow L) (db : RunDb L)
    : result ApplicationError (RunDb L) :=
  if any (clashes e) (rd_events db) then Err duplicate else
  if (er_sequence e <? 1)%Z then Err AppStorage else
  if is_none (rd_streams db !! (er_workspace_id e, er_run_id e)) then Err AppStorage else
  Ok (with_events db (rd_events db ++ [e])).

Fixpoint insert_envelopes (duplicate : ApplicationError) (events : list LegacyRunEventEnvelope) (db : RunDb L)
    : result ApplicationError (RunDb L) :=
  match events with
  | [] => Ok db
  | e :: rest =>
      _ ← version_to_database (ev_sequence e);
      _ ← (if (32767 <? ev_event_version e)%Z then Err AppStorage else Ok tt);
      db ← insert_row duplicate (row_of_envelope (rd_now db) e) db;
      insert_envelopes duplicate rest db
  end.

(** [UPDATE run_streams ... WHERE current_version = expected], which must change one row. *)
Definition advance (ws : WorkspaceId) (run : AgentRunId) (expected v : RunVersion) (db : RunDb L)
    : result ApplicationError (RunDb L) :=
  v ← version_to_database v;
  expected ← version_to_database expected;
  match rd_streams db !! (ws, run) with
  | Some current =>
      if (current =? expected)%Z then Ok (with_streams db (<[(ws, run) := v]> (rd_streams db))) else Err AppConflict
  | None => Err AppConflict
  end.

(** ** The append of the event store, on the shared tables *)

Definition max_sequence (ws : WorkspaceId) (run : AgentRunId) (db : RunDb L) : Z :=
  foldr (fun r m => Z.max (er_sequence r) m) 0%Z (run_rows ws run db).

Definition lock_stream (ctx : RequestContext) (run : AgentRunId) (expected : RunVersion) (db : RunDb L)
    : result ApplicationError (RunVersion * RunDb L) :=
  match rd_streams db !! (rc_workspace_id ctx, run) with
  | Some v => v ← version_from_database v; Ok (v, db)
  | None =>
      if negb (expected =? RunVersion_ZERO)%Z then Err (AppDomain NotFound) else
      Ok (RunVersion_ZERO, with_streams db (<[(rc_workspace_id ctx, run) := 0%Z]> (rd_streams db)))
  end.

Definition append_rows (ctx : RequestContext) (run : AgentRunId) (expected : RunVersion)
    (events : list LegacyRunEventEnvelope) (db : RunDb L) : result ApplicationError (RunVersion * RunDb L) :=
  final ← validate_event_batch ctx run expected events;
  '(actual, db) ← lock_stream ctx run expected db;
  if negb (actual =? expected)%Z then Err AppConflict else
  head ← version_from_database (max_sequence (rc_workspace_id ctx) run db);
  if negb (head =? actual)%Z then Err AppStorage else
  db ← insert_envelopes AppStorage events db;
  db ← advance (rc_workspace_id ctx) run expected final db;
  Ok (final, db).

End Columns.
