(* ===== verification/RunCommitter.v ===== *)
(** * Committing legacy run commands, and what recovery stores

    [crates/vestrace-infrastructure/src/postgres/run_command_committer.rs] and
    [run_recovery_store.rs] on the shared tables, with
    [crates/vestrace-application/src/runs/projection.rs] and the checkpoint of
    [runs/recovery.rs].  A statement that fails rolls its transaction back.  The model binding the
    committer resolves when a run becomes executable lives in other tables: the answer of its
    resolver is a parameter.  A state hash is kept as its bytes; the column holds their
    hexadecimal digits, which determine them. *)

From Stdlib Require Import ZArith Lia String.
From stdpp Require Import base option numbers strings gmap sorting list.
From S2P Require Import Prelude Codec Crypto Text RunStatus RunDecider AgentRun RunReplay.
From S2P Require Import RunPorts RunCoordinator WorkQueue PgRunStore RunEventStore RunRows.

(** ** The projection *)

Definition project_run (s : RunState) : AgentRun :=
  mkRun (rs_id s) (rs_workspace_id s) (rs_title s) (rs_principal_id s) None RunExecutionMode.Autopilot (rs_status s)
    (ss_id <$> rs_active_step s) None None (rs_id s) None None (rs_version s) None (rs_created_at s)
    (rs_updated_at s) (rs_finished_at s).

(** The check constraints of [agent_runs]. *)
Definition MAX_OBJECTIVE_OCTETS : Z := 32768.

Definition run_checks (p : AgentRun) : bool :=
  (1 <=? utf8_len (ar_objective p))%Z && (utf8_len (ar_objective p) <=? MAX_OBJECTIVE_OCTETS)%Z
  && run_row_ok (ar_status p) (ar_version p) (ar_finished_at p).

Definition row_of_projection (principal : PrincipalId) (p : AgentRun) : RunRow :=
  mkRow (ar_workspace_id p) principal (ar_objective p) (ar_objective p) (ar_coordinator_snapshot_id p)
    (RunExecutionMode.mode_as_str (ar_execution_mode p)) (RunStatus.status_as_str (ar_status p)) (ar_version p)
    (ar_root_run_id p) (ar_created_at p) (ar_updated_at p) (ar_finished_at p).

(** The foreign key on [principals], checked when the column is written with a new value. *)
Definition principal_ok {L} (old : option RunRow) (principal : PrincipalId) (db : RunDb L) : bool :=
  match old with
  | Some row => (ag_principal_id row == principal) || bool_decide (principal ∈ rd_principals db)
  | None => bool_decide (principal ∈ rd_principals db)
  end.

(** [INSERT INTO agent_runs ... ON CONFLICT (workspace_id, id) DO UPDATE]: [principal_of] is what the
    update makes of the stored principal.  A row of another workspace violates the primary key. *)
Definition upsert {L} (duplicate : ApplicationError) (principal : PrincipalId)
    (principal_of : PrincipalId -> PrincipalId) (p : AgentRun) (db : RunDb L) : result ApplicationError (RunDb L) :=
  _ ← version_to_database (ar_version p);
  if negb (run_checks p) then Err AppStorage else
  match rd_runs db !! ar_id p with
  | None =>
      if negb (principal_ok None principal db) then Err AppStorage else
      Ok (with_runs db (<[ar_id p := row_of_projection principal p]> (rd_runs db)))
  | Some old =>
      if ag_workspace_id old !== ar_workspace_id p then Err duplicate else
      let principal := principal_of (ag_principal_id old) in
      if negb (principal_ok (Some old) principal db) then Err AppStorage else
      Ok (with_runs db (<[ar_id p := row_of_projection principal p]> (rd_runs db)))
  end.

(** [upsert_projection] of the committer: an update keeps the stored principal. *)
Definition upsert_projection {L} (principal : PrincipalId) (p : AgentRun) (db : RunDb L)
    : result ApplicationError (RunDb L) :=
  upsert AppConflict principal (fun stored => stored) p db.

(** ** The committer *)

Definition becomes_executable (prior : option RunState) (resulting : RunState) : bool :=
  match rs_status <$> prior, rs_status resulting with
  | None, RunStatus.Preparing | Some RunStatus.Created, RunStatus.Preparing => true
  | _, _ => false
  end.

Fixpoint validate_batch_events (ctx : RequestContext) (run : AgentRunId) (sequence : RunVersion)
    (events : list LegacyRunEventEnvelope) : result ApplicationError RunVersion :=
  match events with
  | [] => Ok sequence
  | e :: rest =>
      sequence ← from_domain (version_next sequence);
      if (ev_workspace_id e !== rc_workspace_id ctx) || (ev_run_id e !== run) then Err AppConflict else
      if negb (ev_sequence e =? sequence)%Z then Err AppConflict else
      if negb (String.eqb (ev_event_type e) (legacy_event_type (ev_payload e))) then Err AppConflict else
      if negb (ev_event_version e =? legacy_event_version (ev_payload e))%Z then Err AppConflict else
      validate_batch_events ctx run sequence rest
  end.

Definition validate_batch (ctx : RequestContext) (run : AgentRunId) (expected : RunVersion)
    (events : list LegacyRunEventEnvelope) (projection : AgentRun) : result ApplicationError unit :=
  match events with
  | [] => Err AppConflict
  | _ =>
      if (ar_id projection !== run) || (ar_workspace_id projection !== rc_workspace_id ctx) then Err AppConflict else
      sequence ← validate_batch_events ctx run expected events;
      if negb (ar_version projection =? sequence)%Z then Err AppConflict else Ok tt
  end.

Section Committer.
Context {L : Type} {LS : LegacySerde L} {SA : Serde (Value L) RunActor}.

(** A stream is created only for version zero, and only when there is none. *)
Definition lock_or_create (ctx : RequestContext) (run : AgentRunId) (expected : RunVersion) (db : RunDb L)
    : result ApplicationError (RunVersion * RunDb L) :=
  let key := (rc_workspace_id ctx, run) in
  if (expected =? RunVersion_ZERO)%Z then
    if is_some (rd_streams db !! key) then Err AppConflict else
    Ok (RunVersion_ZERO, with_streams db (<[key := 0%Z]> (rd_streams db)))
  else
    v ← ok_or (rd_streams db !! key) AppConflict;
    v ← version_from_database v;
    Ok (v, db).

Definition validate_stream_head (events : list LegacyRunEventEnvelope) (v : RunVersion) : result ApplicationError unit :=
  let head := match last events with Some e => ev_sequence e | None => RunVersion_ZERO end in
  if negb (head =? v)%Z then Err AppStorage else Ok tt.

Context (resolve : RequestContext -> AgentRunId -> result ApplicationError unit).

(** The transaction of [PgRunCommandCommitter::commit]. *)
Definition commit_on (ctx : RequestContext) (run : AgentRunId) (expected : RunVersion)
    (events : list LegacyRunEventEnvelope) (projection : AgentRun) (db : RunDb L)
    : result ApplicationError (RunVersion * RunDb L) :=
  _ ← validate_batch ctx run expected events projection;
  '(actual, db) ← lock_or_create ctx run expected db;
  if negb (actual =? expected)%Z then Err AppConflict else
  existing ← load_events ctx run db;
  _ ← validate_stream_head existing actual;
  prior ← (if negb (actual =? RunVersion_ZERO)%Z then
             s ← map_err (fun _ => AppStorage) (replay existing);
             s ← ok_or s AppStorage; Ok (Some s)
           else Ok None);
  resulting ← map_err (fun _ => AppStorage) (replay (existing ++ events));
  resulting ← ok_or resulting AppConflict;
  if project_run resulting !== projection then Err AppConflict else
  db ← insert_envelopes AppConflict events db;
  db ← advance (rc_workspace_id ctx) run expected (ar_version projection) db;
  _ ← (if becomes_executable prior resulting then resolve ctx run else Ok tt);
  db ← upsert_projection (rc_principal_id ctx) projection db;
  Ok (ar_version projection, db).

End Committer.

(** ** Creating and reading runs without events

    [postgres/run_repository.rs] and [runs/service.rs]: the queries of the service that lists runs,
    and a creation that writes the row and an empty stream. *)

(** [TryFrom<AgentRunRow> for AgentRun]; every writer fills the coordinator column. *)
Definition run_of_agent_row (id : AgentRunId) (r : RunRow) : result ApplicationError AgentRun :=
  status ← parse_status (ag_status r);
  version ← try_unsigned (ag_run_version r);
  mode ← parse_execution_mode (ag_execution_mode r);
  version ← from_domain (version_new version);
  Ok (mkRun id (ag_workspace_id r) (ag_objective r) (ag_coordinator_snapshot_id r) None mode status None None None
        (ag_root_run_id r) None None version None (ag_created_at r) (ag_updated_at r) (ag_finished_at r)).

Definition find_by_id {L} (ctx : RequestContext) (id : AgentRunId) (db : RunDb L)
    : result ApplicationError (option AgentRun) :=
  match rd_runs db !! id with
  | Some r => if ag_workspace_id r == rc_workspace_id ctx then run ← run_of_agent_row id r; Ok (Some run) else Ok None
  | None => Ok None
  end.

(** [ORDER BY created_at ASC, id ASC]. *)
Definition listed_before (a b : Z * RunRow) : Prop :=
  (ag_created_at a.2 < ag_created_at b.2 \/ ag_created_at a.2 = ag_created_at b.2 /\ a.1 <= b.1)%Z.

#[export] Instance listed_before_dec a b : Decision (listed_before a b).
Proof. unfold listed_before. apply _. Defined.

Definition repository_list {L} (ctx : RequestContext) (limit : Z) (db : RunDb L) : result ApplicationError (list AgentRun) :=
  collect (fun x => run_of_agent_row x.1 x.2)
    (take (Z.to_nat limit)
       (merge_sort listed_before
          (List.filter (fun x => ag_workspace_id x.2 == rc_workspace_id ctx) (map_to_list (rd_runs db))))).

(** The insertion leaves [finished_at] empty. *)
Definition repository_create {L} (ctx : RequestContext) (run : AgentRun) (db : RunDb L) : result ApplicationError (RunDb L) :=
  let run := run_set_result (ar_result run) None run in
  let key := (ar_workspace_id run, ar_id run) in
  if ar_workspace_id run !== rc_workspace_id ctx then Err AppStorage else
  if is_some (rd_streams db !! key) then Err AppStorage else
  _ ← version_to_database (ar_version run);
  if negb (run_checks run) || is_some (rd_runs db !! ar_id run) || negb (principal_ok None (rc_principal_id ctx) db)
  then Err AppStorage else
  Ok (with_runs (with_streams db (<[key := 0%Z]> (rd_streams db)))
        (<[ar_id run := row_of_projection (rc_principal_id ctx) run]> (rd_runs db))).

(** [RunService]; [id] and [now] are minted. *)
Definition service_create_run {L} (ctx : RequestContext) (title : text) (id : AgentRunId) (now : Timestamp) (db : RunDb L)
    : result ApplicationError (AgentRun * RunDb L) :=
  let objective := trim title in
  if is_empty objective then Err (AppDomain InvalidArgument) else
  run ← from_domain (run_create (mkNewRun id (rc_workspace_id ctx) objective (rc_principal_id ctx)
                       RunExecutionMode.Autopilot None None None) now);
  db ← repository_create ctx run db;
  Ok (run, db).

Definition service_list_runs {L} (ctx : RequestContext) (limit : Z) (db : RunDb L) : result ApplicationError (list AgentRun) :=
  if (1 <=? limit)%Z && (limit <=? 100)%Z then repository_list ctx limit db else Err (AppDomain InvalidArgument).

(** ** Checkpoints *)

Definition RUN_CHECKPOINT_FORMAT_VERSION : Z := 1.

(** [runs::RunCheckpoint]. *)
Record StateCheckpoint : Type := mkStateCheckpoint {
  sc_workspace_id : WorkspaceId;
  sc_run_id : AgentRunId;
  sc_sequence : RunVersion;
  sc_format_version : Z;
  sc_state_hash : bytes;
  sc_state : RunState;
  sc_created_at : Timestamp;
}.

#[export] Instance StateCheckpoint_eq_dec : EqDecision StateCheckpoint.
Proof. solve_decision. Defined.

(** [serde_json::to_vec] of a state, which does not fail on one. *)
Class StateBytes : Type := state_bytes : RunState -> bytes.

Definition hash_run_state {SHA : Sha256} {SB : StateBytes} (s : RunState) : bytes := sha256 (state_bytes s).

Section RecoveryStore.
Context {L : Type} {LS : LegacySerde L} {SA : Serde (Value L) RunActor} {SS : Serde (Value L) RunState}
  {SHA : Sha256} {SB : StateBytes}.

Definition validate_checkpoint_identity (c : StateCheckpoint) : result ApplicationError unit :=
  if negb (sc_format_version c =? RUN_CHECKPOINT_FORMAT_VERSION)%Z then Err AppStorage else
  if (sc_sequence c =? RunVersion_ZERO)%Z || negb (rs_version (sc_state c) =? sc_sequence c)%Z
     || (rs_workspace_id (sc_state c) !== sc_workspace_id c) || (rs_id (sc_state c) !== sc_run_id c)
  then Err AppStorage else
  if hash_run_state (sc_state c) !== sc_state_hash c then Err AppStorage else Ok tt.

Definition validate_checkpoint_for_write (ctx : RequestContext) (c : StateCheckpoint) : result ApplicationError unit :=
  if sc_workspace_id c !== rc_workspace_id ctx then Err AppConflict else validate_checkpoint_identity c.

(** [TryFrom<CheckpointRow> for RunCheckpoint], at the key of the row. *)
Definition checkpoint_of_state_row (ws : WorkspaceId) (run : AgentRunId) (sequence : Z) (row : StateRow L)
    : result ApplicationError StateCheckpoint :=
  sequence ← version_from_database sequence;
  if (sequence =? RunVersion_ZERO)%Z then Err AppStorage else
  format_version ← try_unsigned (sr_format_version row);
  if negb (format_version =? RUN_CHECKPOINT_FORMAT_VERSION)%Z then Err AppStorage else
  state ← ok_or (from_value (sr_state row)) AppStorage;
  let c := mkStateCheckpoint ws run sequence format_version (sr_state_hash row) state (sr_created_at row) in
  _ ← validate_checkpoint_identity c;
  Ok c.

Definition load_head (ctx : RequestContext) (run : AgentRunId) (db : RunDb L)
    : result ApplicationError (option RunVersion) :=
  match rd_streams db !! (rc_workspace_id ctx, run) with
  | None => Ok None
  | Some v => v ← version_from_database v; Ok (Some v)
  end.

Definition load_events_through (ctx : RequestContext) (run : AgentRunId) (through : RunVersion) (db : RunDb L)
    : result ApplicationError (list LegacyRunEventEnvelope) :=
  through ← version_to_database through;
  collect (envelope_of_row er_created_at)
    (select_where (fun r => (er_sequence r <=? through)%Z) (rc_workspace_id ctx) run db).

Definition load_events_after (ctx : RequestContext) (run : AgentRunId) (after : RunVersion) (db : RunDb L)
    : result ApplicationError (list LegacyRunEventEnvelope) :=
  after ← version_to_database after;
  collect (envelope_of_row er_created_at)
    (select_where (fun r => (after <? er_sequence r)%Z) (rc_workspace_id ctx) run db).

Definition load_checkpoint (ctx : RequestContext) (run : AgentRunId) (sequence : RunVersion) (db : RunDb L)
    : result ApplicationError (option StateCheckpoint) :=
  sequence ← version_to_database sequence;
  match rd_checkpoints db !! (rc_workspace_id ctx, run, sequence) with
  | None => Ok None
  | Some row => c ← checkpoint_of_state_row (rc_workspace_id ctx) run sequence row; Ok (Some c)
  end.

(** [ORDER BY sequence DESC LIMIT 1]. *)
Definition latest (ws : WorkspaceId) (run : AgentRunId) (db : RunDb L) : option (Z * StateRow L) :=
  fold_left (fun best x =>
    let '((ws', run', sequence), row) := x in
    if (ws' == ws) && (run' == run) && match best with Some (n, _) => (n <? sequence)%Z | None => true end
    then Some (sequence, row) else best) (map_to_list (rd_checkpoints db)) None.

Definition load_latest_checkpoint (ctx : RequestContext) (run : AgentRunId) (db : RunDb L)
    : result ApplicationError (option StateCheckpoint) :=
  match latest (rc_workspace_id ctx) run db with
  | None => Ok None
  | Some (sequence, row) => c ← checkpoint_of_state_row (rc_workspace_id ctx) run sequence row; Ok (Some c)
  end.

(** [INSERT ... ON CONFLICT DO NOTHING]; a row that was there must be the same checkpoint. *)
Definition save_checkpoint (ctx : RequestContext) (c : StateCheckpoint) (db : RunDb L)
    : result ApplicationError (RunDb L) :=
  _ ← validate_checkpoint_for_write ctx c;
  sequence ← version_to_database (sc_sequence c);
  if (32767 <? sc_format_version c)%Z then Err AppStorage else
  let key := (sc_workspace_id c, sc_run_id c, sequence) in
  match rd_checkpoints db !! key with
  | None =>
      if is_none (rd_streams db !! (sc_workspace_id c, sc_run_id c)) then Err AppStorage else
      Ok (with_checkpoints db (<[key := mkStateRow (sc_format_version c) (sc_state_hash c) (to_value (sc_state c))
                                          (sc_created_at c)]> (rd_checkpoints db)))
  | Some row =>
      existing ← checkpoint_of_state_row (sc_workspace_id c) (sc_run_id c) sequence row;
      if existing !== c then Err AppConflict else Ok db
  end.

(** The row is written with the principal the run's coordinator column holds. *)
Definition replace_projection (ctx : RequestContext) (expected : RunVersion) (p : AgentRun) (db : RunDb L)
    : result ApplicationError (RunDb L) :=
  actual ← ok_or (rd_streams db !! (rc_workspace_id ctx, ar_id p)) (AppDomain NotFound);
  actual ← version_from_database actual;
  if negb (actual =? expected)%Z then Err AppConflict else
  if (ar_workspace_id p !== rc_workspace_id ctx) || negb (ar_version p =? expected)%Z then Err AppConflict else
  upsert AppStorage (ar_coordinator_snapshot_id p) (fun _ => ar_coordinator_snapshot_id p) p db.

End RecoveryStore.
