(* ===== verification/RunServices.v ===== *)
(** * Legacy run commands, recovery and startup recovery

    [crates/vestrace-application/src/runs/{command_service,recovery}.rs] as programs over their
    ports, [postgres/startup_recovery_source.rs],
    [postgres/recovery_qualification_evidence_repository.rs], the recovery tables of
    [crates/vestrace-domain/src/trust.rs], and [crates/vestrace-cli/src/commands/recovery.rs].
    Each call of a program is one transaction; other programs may run between two calls.

    A timestamp counts nanoseconds; the columns that are compared after a round trip through the
    database are cut to microseconds before they are written. *)

From Stdlib Require Import ZArith Lia String.
From stdpp Require Import base option numbers strings gmap sorting list.
From S2P Require Import Prelude Codec Crypto Text RunStatus RunDecider AgentRun RunReplay.
From S2P Require Import RunPorts RunCoordinator WorkQueue PgRunStore RunEventStore RunRows RunCommitter.

(** ** What recovery does with an interrupted run *)

Inductive RecoveryTarget : Type :=
| RunningExecution | DispatchingExternalEffect | VerifyingRepair | StaleLease
| UnfinishedWorkflow | OrphanTemporaryState | UnknownOutcome | DivergentHistory.

Inductive RecoveryAction : Type := Resume | Retry | Reconcile | Abandon | HumanReview.

Inductive RecoveryClassification : Type :=
| SafeToResume | SafeToRetry | MustReconcile | MustAbort | HumanIsRequired.

Inductive StartupRecoveryOutcome : Type :=
| Restored | RetryReady | ReconciliationRequired | Aborted | HumanReviewRequired.

#[export] Instance RecoveryTarget_eq_dec : EqDecision RecoveryTarget.
Proof. solve_decision. Defined.

Definition classify_recovery (target : RecoveryTarget) : RecoveryClassification :=
  match target with
  | RunningExecution | UnfinishedWorkflow => SafeToResume
  | StaleLease | OrphanTemporaryState => SafeToRetry
  | DispatchingExternalEffect | UnknownOutcome => MustReconcile
  | VerifyingRepair => MustAbort
  | DivergentHistory => HumanIsRequired
  end.

Definition expected_action (c : RecoveryClassification) : RecoveryAction :=
  match c with
  | SafeToResume => Resume
  | SafeToRetry => Retry
  | MustReconcile => Reconcile
  | MustAbort => Abandon
  | HumanIsRequired => HumanReview
  end.

Record StartupRecoveryCandidate : Type := mkStartupCandidate { su_run_id : AgentRunId; su_target : RecoveryTarget }.

Record StartupRecoveryRecord : Type := mkStartupRecord {
  sp_run_id : AgentRunId;
  sp_target : RecoveryTarget;
  sp_classification : RecoveryClassification;
  sp_outcome : StartupRecoveryOutcome;
}.

Record RecoveryQualificationEvidence : Type := mkRecoveryEvidence {
  rq_id : Uuid;
  rq_run_id : AgentRunId;
  rq_target : RecoveryTarget;
  rq_classification : RecoveryClassification;
  rq_action : RecoveryAction;
  rq_observed_at : Timestamp;
}.

Definition outcome_action (o : StartupRecoveryOutcome) : RecoveryAction :=
  match o with
  | Restored => Resume
  | RetryReady => Retry
  | ReconciliationRequired => Reconcile
  | Aborted => Abandon
  | HumanReviewRequired => HumanReview
  end.

(** [DateTime::from_timestamp_micros(t.timestamp_micros())]. *)
Definition to_microseconds (t : Timestamp) : Timestamp := (1000 * (t / 1000))%Z.

Definition from_recovery_record (id : Uuid) (r : StartupRecoveryRecord) (observed_at : Timestamp)
    : RecoveryQualificationEvidence :=
  mkRecoveryEvidence id (sp_run_id r) (sp_target r) (sp_classification r) (outcome_action (sp_outcome r))
    (to_microseconds observed_at).

(** ** Programs *)

Inductive RunCall : Type -> Type :=
| RLoadStream (ctx : RequestContext) (run : AgentRunId) : RunCall (list LegacyRunEventEnvelope)
| RAppend (ctx : RequestContext) (run : AgentRunId) (expected : RunVersion) (events : list LegacyRunEventEnvelope)
    : RunCall RunVersion
| RCommit (ctx : RequestContext) (run : AgentRunId) (expected : RunVersion) (events : list LegacyRunEventEnvelope)
    (projection : AgentRun) : RunCall RunVersion
| RHead (ctx : RequestContext) (run : AgentRunId) : RunCall (option RunVersion)
| RThrough (ctx : RequestContext) (run : AgentRunId) (through : RunVersion) : RunCall (list LegacyRunEventEnvelope)
| RAfter (ctx : RequestContext) (run : AgentRunId) (after : RunVersion) : RunCall (list LegacyRunEventEnvelope)
| RCheckpoint (ctx : RequestContext) (run : AgentRunId) (sequence : RunVersion) : RunCall (option StateCheckpoint)
| RLatest (ctx : RequestContext) (run : AgentRunId) : RunCall (option StateCheckpoint)
| RSave (ctx : RequestContext) (c : StateCheckpoint) : RunCall unit
| RReplace (ctx : RequestContext) (expected : RunVersion) (p : AgentRun) : RunCall unit
| RCandidates (ctx : RequestContext) : RunCall (list StartupRecoveryCandidate)
| REvidence (e : RecoveryQualificationEvidence) : RunCall unit.

Inductive rprog (A : Type) : Type :=
| RRet (a : A)
| RNow (k : Timestamp -> rprog A)
| RNewId (k : Uuid -> rprog A)
| RCall {R : Type} (c : RunCall R) (k : result ApplicationError R -> rprog A).

Arguments RRet {A} a.
Arguments RNow {A} k.
Arguments RNewId {A} k.
Arguments RCall {A R} c k.

Fixpoint rprog_bind {A B} (f : A -> rprog B) (p : rprog A) : rprog B :=
  match p with
  | RRet a => f a
  | RNow k => RNow (fun t => rprog_bind f (k t))
  | RNewId k => RNewId (fun u => rprog_bind f (k u))
  | RCall c k => RCall c (fun r => rprog_bind f (k r))
  end.

(** [async fn ... -> Result<A, ApplicationError>]. *)
Definition RM (A : Type) : Type := rprog (result ApplicationError A).

#[export] Instance RM_ret : MRet RM := fun A a => RRet (Ok a).
#[export] Instance RM_bind : MBind RM :=
  fun A B f p => rprog_bind (fun r => match r with Ok a => f a | Err e => RRet (Err e) end) p.

Definition rcall {R} (c : RunCall R) : RM R := RCall c RRet.
Definition rlift {A} (r : result ApplicationError A) : RM A := RRet r.
Definition rnow : RM Timestamp := RNow (fun t => RRet (Ok t)).
Definition rnew_id : RM Uuid := RNewId (fun u => RRet (Ok u)).

Definition storage {E A} (r : result E A) : result ApplicationError A := map_err (fun _ => AppStorage) r.

(** ** Executing a command *)

Definition validate_command_context (ctx : RequestContext) (c : RunCommandEnvelope) : result ApplicationError unit :=
  if cmd_workspace_id c !== rc_workspace_id ctx then Err AppPolicy else
  match cmd_actor c with
  | Principal p => if p !== rc_principal_id ctx then Err AppPolicy else Ok tt
  | System _ => Ok tt
  end.

Definition database_timestamp (t : Timestamp) : Timestamp := (t - t mod 1000)%Z.

Definition decision_error (e : RunDecisionError) : ApplicationError :=
  match e with
  | AlreadyExists | VersionConflict _ _ => AppConflict
  | MissingState => AppDomain NotFound
  | InvalidCommand | DecideInvalidTransition _ => AppDomain InvalidArgument
  end.

(** The envelopes of the decided events, from the position after [sequence]. *)
Fixpoint envelopes_of (c : RunCommandEnvelope) (recorded_at : Timestamp) (sequence : RunVersion)
    (pending : list PendingRunEvent) : RM (list LegacyRunEventEnvelope) :=
  match pending with
  | [] => mret []
  | p :: rest =>
      sequence ← rlift (from_domain (version_next sequence));
      event_id ← rnew_id;
      let payload := pending_event p in
      let e := mkEnvelope event_id (cmd_workspace_id c) (cmd_run_id c) sequence (legacy_event_type payload)
                 (legacy_event_version payload) (cmd_actor c) (command_id c) (cmd_correlation_id c) payload
                 (database_timestamp (pending_occurred_at p)) recorded_at in
      es ← envelopes_of c recorded_at sequence rest;
      mret (e :: es)
  end.

(** [RunCommandService::execute]. *)
Definition execute (ctx : RequestContext) (c : RunCommandEnvelope) : RM (AgentRun * list LegacyRunEventEnvelope) :=
  _ ← rlift (validate_command_context ctx c);
  stored ← rcall (RLoadStream ctx (cmd_run_id c));
  initial ← rlift (storage (replay stored));
  pending ← rlift (map_err decision_error (decide initial c));
  _ ← rlift (match pending with [] => Err AppInternal | _ => Ok tt end);
  now ← rnow;
  envelopes ← envelopes_of c (database_timestamp now) (expected_version c) pending;
  resulting ← rlift (storage (replay_from initial envelopes));
  resulting ← rlift (ok_or resulting AppInternal);
  let projection := project_run resulting in
  committed ← rcall (RCommit ctx (cmd_run_id c) (expected_version c) envelopes projection);
  if negb (committed =? ar_version projection)%Z then rlift (Err AppInternal) else
  mret (projection, envelopes).

(** ** Recovery of one run *)

Definition stream_head (ctx : RequestContext) (run : AgentRunId) : RM RunVersion :=
  head ← rcall (RHead ctx run);
  rlift (ok_or head (AppDomain NotFound)).

Definition verify_restored_head (s : RunState) (head : RunVersion) : result ApplicationError unit :=
  if negb (rs_version s =? head)%Z then Err AppStorage else Ok tt.

Section Recovery.
Context {SHA : Sha256} {SB : StateBytes}.

Definition validate_checkpoint_structure (ctx : RequestContext) (run : AgentRunId) (c : StateCheckpoint)
    : result ApplicationError unit :=
  if negb (sc_format_version c =? RUN_CHECKPOINT_FORMAT_VERSION)%Z then Err AppStorage else
  if (sc_workspace_id c !== rc_workspace_id ctx) || (rs_workspace_id (sc_state c) !== rc_workspace_id ctx)
  then Err AppStorage else
  if (sc_run_id c !== run) || (rs_id (sc_state c) !== run) then Err AppStorage else
  if negb (rs_version (sc_state c) =? sc_sequence c)%Z then Err AppStorage else
  if hash_run_state (sc_state c) !== sc_state_hash c then Err AppStorage else Ok tt.

(** The state the events up to a position replay to. *)
Definition replay_through (ctx : RequestContext) (run : AgentRunId) (through : RunVersion) : RM RunState :=
  events ← rcall (RThrough ctx run through);
  s ← rlift (storage (replay events));
  rlift (ok_or s AppStorage).

Definition validate_loaded_checkpoint (ctx : RequestContext) (run : AgentRunId) (c : StateCheckpoint)
    : RM StateCheckpoint :=
  _ ← rlift (validate_checkpoint_structure ctx run c);
  replayed ← replay_through ctx run (sc_sequence c);
  if replayed !== sc_state c then rlift (Err AppStorage) else mret c.

(** [for event in tail { state = apply(Some(state), &event)?; }]. *)
Fixpoint apply_all (s : RunState) (events : list LegacyRunEventEnvelope) : result ApplicationError RunState :=
  match events with
  | [] => Ok s
  | e :: rest => s ← storage (apply (Some s) e); apply_all s rest
  end.

Definition restore_from_checkpoint (ctx : RequestContext) (run : AgentRunId) (head : RunVersion) (c : StateCheckpoint)
    : RM RunState :=
  if (head <? sc_sequence c)%Z then rlift (Err AppStorage) else
  c ← validate_loaded_checkpoint ctx run c;
  tail ← rcall (RAfter ctx run (sc_sequence c));
  s ← rlift (apply_all (sc_state c) (List.filter (fun e => ev_sequence e <=? head)%Z tail));
  _ ← rlift (verify_restored_head s head);
  mret s.

Definition restore (ctx : RequestContext) (run : AgentRunId) : RM RunState :=
  head ← stream_head ctx run;
  checkpoint ← rcall (RLatest ctx run);
  match opt_filter (fun c => sc_sequence c <=? head)%Z checkpoint with
  | Some c => restore_from_checkpoint ctx run head c
  | None =>
      s ← replay_through ctx run head;
      _ ← rlift (verify_restored_head s head);
      mret s
  end.

Definition rebuild_projection (ctx : RequestContext) (run : AgentRunId) : RM AgentRun :=
  s ← restore ctx run;
  head ← stream_head ctx run;
  _ ← rlift (verify_restored_head s head);
  let projection := project_run s in
  _ ← rcall (RReplace ctx head projection);
  mret projection.

Definition create_checkpoint (ctx : RequestContext) (run : AgentRunId) : RM StateCheckpoint :=
  head ← stream_head ctx run;
  s ← replay_through ctx run head;
  _ ← rlift (verify_restored_head s head);
  now ← rnow;
  let c := mkStateCheckpoint (rc_workspace_id ctx) run (rs_version s) RUN_CHECKPOINT_FORMAT_VERSION (hash_run_state s) s
             (to_microseconds now) in
  _ ← rcall (RSave ctx c);
  mret c.

Definition validate_checkpoint (ctx : RequestContext) (run : AgentRunId) (sequence : RunVersion) : RM StateCheckpoint :=
  c ← rcall (RCheckpoint ctx run sequence);
  c ← rlift (ok_or c (AppDomain NotFound));
  validate_loaded_checkpoint ctx run c.

(** ** Startup recovery *)

Fixpoint reject_duplicates (seen : list AgentRunId) (candidates : list StartupRecoveryCandidate)
    : result ApplicationError unit :=
  match candidates with
  | [] => Ok tt
  | c :: rest =>
      if any (fun run => run == su_run_id c) seen then Err (AppDomain InvalidArgument)
      else reject_duplicates (seen ++ [su_run_id c]) rest
  end.

Definition recover_candidate (ctx : RequestContext) (c : StartupRecoveryCandidate) : RM StartupRecoveryOutcome :=
  match classify_recovery (su_target c) with
  | SafeToResume => _ ← rebuild_projection ctx (su_run_id c); mret Restored
  | SafeToRetry => _ ← rebuild_projection ctx (su_run_id c); mret RetryReady
  | MustReconcile => mret ReconciliationRequired
  | MustAbort => mret Aborted
  | HumanIsRequired => mret HumanReviewRequired
  end.

(** The loop of [run]: a failed recovery ends it, a failed write of evidence is kept for the end. *)
Fixpoint startup_loop (ctx : RequestContext) (candidates : list StartupRecoveryCandidate)
    (records : list StartupRecoveryRecord) (evidence_error : option ApplicationError)
    : RM (list StartupRecoveryRecord) :=
  match candidates with
  | [] => match evidence_error with Some e => rlift (Err e) | None => mret records end
  | c :: rest =>
      outcome ← recover_candidate ctx c;
      let record := mkStartupRecord (su_run_id c) (su_target c) (classify_recovery (su_target c)) outcome in
      id ← rnew_id;
      now ← rnow;
      rprog_bind (fun inserted : result ApplicationError unit =>
        startup_loop ctx rest (records ++ [record])
          (match evidence_error, inserted with
           | None, Err e => Some e
           | _, _ => evidence_error
           end)) (rcall (REvidence (from_recovery_record id record now)))
  end.

Definition startup_run (ctx : RequestContext) (candidates : list StartupRecoveryCandidate)
    : RM (list StartupRecoveryRecord) :=
  _ ← rlift (reject_duplicates [] candidates);
  startup_loop ctx candidates [] None.

(** [run_discovered] with a candidate source configured. *)
Definition run_discovered (ctx : RequestContext) : RM (list StartupRecoveryRecord) :=
  candidates ← rcall (RCandidates ctx);
  startup_run ctx candidates.

(** The startup sweep of the server and of the worker: the first workspace that fails aborts it.
    A context is one workspace with the workspace as its principal. *)
Fixpoint run_startup_recovery (contexts : list RequestContext) : RM unit :=
  match contexts with
  | [] => mret tt
  | ctx :: rest => _ ← run_discovered ctx; run_startup_recovery rest
  end.

End Recovery.
