(* ===== verification/RunWorld.v ===== *)
(** * The legacy run services at work

    The calls of [RunServices] answered on the shared tables, the leases and the recorded
    observations; a program running among others; and a program running alone. *)

From Stdlib Require Import ZArith Lia String.
From stdpp Require Import base option numbers strings gmap sorting relations list.
From S2P Require Import Prelude Codec Crypto Text RunStatus RunDecider AgentRun RunReplay.
From S2P Require Import RunPorts RunCoordinator WorkQueue PgRunStore RunEventStore RunRows RunCommitter RunServices.

Local Open Scope string_scope.

(** ** Startup recovery candidates *)

Definition TERMINAL_STATUSES : list string :=
  ["succeeded"; "succeeded_with_warnings"; "partial"; "failed"; "cancelled"; "expired"].

Definition EXECUTING_STATUSES : list string := ["preparing"; "running"].

Definition stale_lease (ws : WorkspaceId) (now : Timestamp) (leases : gmap Z LeaseRow) (x : Z * RunRow) : bool :=
  (ag_workspace_id x.2 == ws) && negb (any (String.eqb (ag_status x.2)) TERMINAL_STATUSES)
  && match leases !! x.1 with
     | Some l => (lr_workspace_id l == ws) && (lr_lease_until l <? now)%Z
     | None => false
     end.

Definition unleased_execution (ws : WorkspaceId) (leases : gmap Z LeaseRow) (x : Z * RunRow) : bool :=
  (ag_workspace_id x.2 == ws) && any (String.eqb (ag_status x.2)) EXECUTING_STATUSES
  && match leases !! x.1 with Some l => lr_workspace_id l !== ws | None => true end.

Definition candidate_le (a b : StartupRecoveryCandidate) : Prop := (su_run_id a <= su_run_id b)%Z.

#[export] Instance candidate_le_dec a b : Decision (candidate_le a b).
Proof. unfold candidate_le. apply _. Defined.

Definition find_startup_recovery_candidates {L} (ctx : RequestContext) (leases : gmap Z LeaseRow) (db : RunDb L)
    : list StartupRecoveryCandidate :=
  let ws := rc_workspace_id ctx in
  let runs := map_to_list (rd_runs db) in
  merge_sort candidate_le
    (((fun x => mkStartupCandidate x.1 StaleLease) <$> List.filter (stale_lease ws (rd_now db) leases) runs) ++
     ((fun x => mkStartupCandidate x.1 UnknownOutcome) <$> List.filter (unleased_execution ws leases) runs)).

(** ** Answers *)

Section World.
Context {L : Type} {LS : LegacySerde L} {SA : Serde (Value L) RunActor} {SS : Serde (Value L) RunState}
  {SHA : Sha256} {SB : StateBytes}.
Context (resolve : RequestContext -> AgentRunId -> result ApplicationError unit).

Record RunWorld : Type := mkWorld {
  w_db : RunDb L;
  w_leases : gmap Z LeaseRow;
  w_observations : list RecoveryQualificationEvidence;
}.

Definition with_db (w : RunWorld) (db : RunDb L) : RunWorld := mkWorld db (w_leases w) (w_observations w).

(** A read, and a transaction that is rolled back when it fails. *)
Definition reads {A} (w : RunWorld) (f : RunDb L -> result ApplicationError A) : result ApplicationError A * RunWorld :=
  (f (w_db w), w).

Definition writes {A} (w : RunWorld) (f : RunDb L -> result ApplicationError (A * RunDb L))
    : result ApplicationError A * RunWorld :=
  match f (w_db w) with
  | Ok (a, db) => (Ok a, with_db w db)
  | Err e => (Err e, w)
  end.

Definition no_answer (r : result ApplicationError (RunDb L)) : result ApplicationError (unit * RunDb L) :=
  db ← r; Ok (tt, db).

Definition answer {R} (c : RunCall R) (w : RunWorld) : result ApplicationError R * RunWorld :=
  match c with
  | RLoadStream ctx run => reads w (load_events ctx run)
  | RAppend ctx run expected events => writes w (append_rows ctx run expected events)
  | RCommit ctx run expected events projection => writes w (commit_on resolve ctx run expected events projection)
  | RHead ctx run => reads w (load_head ctx run)
  | RThrough ctx run through => reads w (load_events_through ctx run through)
  | RAfter ctx run after => reads w (load_events_after ctx run after)
  | RCheckpoint ctx run sequence => reads w (load_checkpoint ctx run sequence)
  | RLatest ctx run => reads w (load_latest_checkpoint ctx run)
  | RSave ctx c => writes w (fun db => no_answer (save_checkpoint ctx c db))
  | RReplace ctx expected p => writes w (fun db => no_answer (replace_projection ctx expected p db))
  | RCandidates ctx => reads w (fun db => Ok (find_startup_recovery_candidates ctx (w_leases w) db))
  | REvidence e =>
      if any (fun o => rq_id o == rq_id e) (w_observations w) then (Err AppStorage, w)
      else (Ok tt, mkWorld (w_db w) (w_leases w) (w_observations w ++ [e]))
  end.

(** ** Among others *)

Definition at_time (db : RunDb L) (now : Timestamp) : RunDb L :=
  mkRunDb (rd_streams db) (rd_events db) (rd_checkpoints db) (rd_runs db) (rd_principals db) now.

(** What happens between two calls of a program: a call of another program, a change of the
    leases, or time. *)
Inductive env_step : RunWorld -> RunWorld -> Prop :=
| env_call {R : Type} (c : RunCall R) w : env_step w (answer c w).2
| env_other w now leases : env_step w (mkWorld (at_time (w_db w) now) leases (w_observations w)).

(** A program runs to its end.  A call may also be reported as failed, whether or not it took
    effect: the connection was lost, or the write timed out. *)
Fixpoint runs {A : Type} (p : rprog A) (w : RunWorld) (a : A) (w' : RunWorld) : Prop :=
  match p with
  | RRet b => a = b /\ w' = w
  | RNow k => exists t, runs (k t) w a w'
  | RNewId k => exists u, runs (k u) w a w'
  | RCall c k => exists w1, rtc env_step w w1 /\
      (runs (k (answer c w1).1) (answer c w1).2 a w' \/
       exists w2, (w2 = w1 \/ w2 = (answer c w1).2) /\ runs (k (Err AppStorage)) w2 a w')
  end.

(** ** Alone *)

(** Calls are answered at once; the clock stands at [now], identifiers are minted from [n] on. *)
Fixpoint exec_run {A} (now : Timestamp) (n : Z) (w : RunWorld) (p : rprog A) : A * Z * RunWorld :=
  match p with
  | RRet a => (a, n, w)
  | RNow k => exec_run now n w (k now)
  | RNewId k => exec_run now (n + 1)%Z w (k n)
  | RCall c k => let '(r, w1) := answer c w in exec_run now n w1 (k r)
  end.

Lemma exec_run_runs {A} now n w (p : rprog A) a n' w' : exec_run now n w p = (a, n', w') -> runs p w a w'.
Proof.
  revert n w. induction p as [a0|k IH|k IH|R c k IH]; intros n w; simpl.
  - by intros [= -> -> ->].
  - intros H. exists now. by eapply IH.
  - intros H. exists n. by eapply IH.
  - destruct (answer c w) as [r w1] eqn:E. intros H. exists w. split; [reflexivity|left]. rewrite E. by eapply IH.
Qed.

(** To the others, a program that ran alone is some steps of their environment. *)
Lemma exec_run_env {A} now n w (p : rprog A) : rtc env_step w (exec_run now n w p).2.
Proof.
  revert n w. induction p as [a|k IH|k IH|R c k IH]; intros n w; simpl; [reflexivity|apply IH|apply IH|].
  eapply rtc_l; [apply (env_call c)|]. destruct (answer c w) as [r w1]. apply IH.
Qed.

(** ** Programs in sequence *)

Lemma runs_bind {A B} (f : A -> RM B) (p : RM A) w b w' :
  runs (p ≫= f) w (Ok b) w' -> exists a w1, runs p w (Ok a) w1 /\ runs (f a) w1 (Ok b) w'.
Proof.
  unfold mbind, RM_bind. revert w. induction p as [r|k IH|k IH|R c k IH]; intros w; simpl.
  - destruct r as [a|e]; [intros H; by exists a, w|by intros [[=] _]].
  - intros (t & H). apply IH in H as (a & w1 & H & Hf). exists a, w1. by eauto.
  - intros (u & H). apply IH in H as (a & w1 & H & Hf). exists a, w1. by eauto.
  - intros (w1 & He & [H|(w2 & Hw & H)]).
    + apply IH in H as (a & w3 & H & Hf). exists a, w3. by eauto.
    + apply IH in H as (a & w3 & H & Hf). exists a, w3. split; [|done]. exists w1. split; [done|]. right. by eauto.
Qed.

Lemma runs_call {R} (c : RunCall R) w r w' :
  runs (rcall c) w (Ok r) w' -> exists w1, rtc env_step w w1 /\ answer c w1 = (Ok r, w').
Proof.
  intros (w1 & He & [H|(w2 & Hw & H)]); [|by destruct H].
  exists w1. split; [done|]. destruct H as [-> ->]. by destruct (answer c w1).
Qed.

Lemma runs_lift {A} (r : result ApplicationError A) w a w' : runs (rlift r) w (Ok a) w' -> r = Ok a /\ w' = w.
Proof. by intros [<- ->]. Qed.

Lemma exec_mbind {A B} now n w (f : A -> RM B) (p : RM A) :
  exec_run now n w (p ≫= f) =
  let '(r, n', w') := exec_run now n w p in
  match r with Ok a => exec_run now n' w' (f a) | Err e => (Err e, n', w') end.
Proof.
  unfold mbind, RM_bind. revert n w. induction p as [r|k IH|k IH|R c k IH]; intros n w; simpl.
  - by destruct r.
  - apply IH.
  - apply IH.
  - destruct (answer c w) as [r w1]. apply IH.
Qed.

Lemma exec_call {R} now n w (c : RunCall R) : exec_run now n w (rcall c) = ((answer c w).1, n, (answer c w).2).
Proof. unfold rcall. simpl. by destruct (answer c w). Qed.

Lemma exec_lift {A} now n w (r : result ApplicationError A) : exec_run now n w (rlift r) = (r, n, w).
Proof. done. Qed.

End World.
Arguments RunWorld L : clear implicits.
