(* ===== verification/RunHistory.v ===== *)
(** * Histories of legacy runs

    The history of a run is what its rows of [run_events] decode to.  Whatever the calls do, a
    history stays contiguous from one, agrees with the stream's version, and is only extended. *)

From Stdlib Require Import ZArith Lia String.
From stdpp Require Import base option numbers strings gmap sorting relations list.
From S2P Require Import Prelude Codec Crypto Text RunStatus RunDecider RunDeciderSpec AgentRun RunReplay.
From S2P Require Import RunPorts RunCoordinator WorkQueue PgRunStore RunEventStore RunRows RunCommitter RunServices RunWorld.

(** ** Lists *)

Lemma collect_Forall2 {E A B} (f : A -> result E B) l l' :
  collect f l = Ok l' <-> Forall2 (fun x y => f x = Ok y) l l'.
Proof.
  revert l'. induction l as [|x l IH]; intros l'; simpl.
  - split; [intros [= <-]; constructor|intros H; by inversion H].
  - rewrite bind_Ok. setoid_rewrite bind_Ok. split.
    + intros (y & Hy & ys & Hys & [= <-]). constructor; [done|]. by apply IH.
    + intros H. inversion H as [|? y ? ys Hy Hys]; subst. exists y. split; [done|]. exists ys. split; [by apply IH|done].
Qed.

Section Positions.
Context {A : Type} (f : A -> Z).

(** The positions of the elements count from [base + 1]. *)
Definition counts (base : Z) (l : list A) : Prop :=
  forall i x, l !! i = Some x -> f x = (base + Z.of_nat i + 1)%Z.

Lemma counts_cons base x l : counts base (x :: l) <-> f x = (base + 1)%Z /\ counts (base + 1) l.
Proof.
  unfold counts. split.
  - intros H. split; [rewrite (H 0%nat x) by done; lia|]. intros i y Hy. rewrite (H (S i) y) by done. lia.
  - intros [Hx H] [|i] y; simpl; [intros [= <-]; lia|]. intros Hy%H. lia.
Qed.

Lemma counts_app base l l' : counts base l -> counts (base + Z.of_nat (length l)) l' -> counts base (l ++ l').
Proof.
  revert base. induction l as [|x l IH]; intros base; cbn [app length].
  - intros _. by rewrite Z.add_0_r.
  - rewrite !counts_cons. intros [? Hl] Hl'. split; [done|]. apply IH; [done|].
    by replace (base + 1 + Z.of_nat (length l))%Z with (base + Z.of_nat (S (length l)))%Z by lia.
Qed.

Lemma counts_above base v l : counts base l -> (v <= base)%Z -> List.filter (fun x => (v <? f x)%Z) l = l.
Proof.
  revert base. induction l as [|x l IH]; intros base; [done|]. rewrite counts_cons. intros [Hx Hl] Hv. cbn [List.filter].
  destruct (Z.ltb_spec v (f x)); [|lia]. f_equal. apply (IH (base + 1)%Z); [done|lia].
Qed.

Lemma counts_below base v l : counts base l -> (v <= base)%Z -> List.filter (fun x => (f x <=? v)%Z) l = [].
Proof.
  revert base. induction l as [|x l IH]; intros base; [done|]. rewrite counts_cons. intros [Hx Hl] Hv. cbn [List.filter].
  destruct (Z.leb_spec (f x) v); [lia|]. apply (IH (base + 1)%Z); [done|lia].
Qed.

Lemma counts_through base v l :
  counts base l -> (base <= v)%Z -> List.filter (fun x => (f x <=? v)%Z) l = take (Z.to_nat (v - base)) l.
Proof.
  revert base. induction l as [|x l IH]; intros base; [by destruct (Z.to_nat _)|].
  intros Hc Hv. destruct (base.decide (v = base)) as [->|Hne].
  - rewrite (counts_below base base _ Hc) by lia. by rewrite Z.sub_diag.
  - apply counts_cons in Hc as [Hx Hl]. cbn [List.filter]. destruct (Z.leb_spec (f x) v); [|lia].
    replace (Z.to_nat (v - base)) with (S (Z.to_nat (v - (base + 1)))) by lia. cbn [take]. f_equal.
    apply IH; [done|lia].
Qed.

Lemma counts_after base v l :
  counts base l -> (base <= v)%Z -> List.filter (fun x => (v <? f x)%Z) l = drop (Z.to_nat (v - base)) l.
Proof.
  revert base. induction l as [|x l IH]; intros base; [by destruct (Z.to_nat _)|].
  intros Hc Hv. destruct (base.decide (v = base)) as [->|Hne].
  - rewrite (counts_above base base _ Hc) by lia. by rewrite Z.sub_diag.
  - apply counts_cons in Hc as [Hx Hl]. cbn [List.filter]. destruct (Z.ltb_spec v (f x)); [lia|].
    replace (Z.to_nat (v - base)) with (S (Z.to_nat (v - (base + 1)))) by lia. cbn [drop]. apply IH; [done|lia].
Qed.

End Positions.

(** A list whose keys count up is sorted already. *)
Lemma merge_sort_counts {L} base (l : list (EventRow L)) : counts er_sequence base l -> merge_sort sequence_le l = l.
Proof.
  intros Hc. assert (Hs : StronglySorted sequence_le l /\ forall x, x ∈ l -> (base < er_sequence x)%Z).
  { revert base Hc. induction l as [|x l IH]; intros base; [intros _; split; [constructor|set_solver]|].
    rewrite counts_cons. intros [Hx Hl]. destruct (IH _ Hl) as [Hs Hlt]. split.
    - constructor; [done|]. apply Forall_forall. intros y Hy%Hlt. unfold sequence_le. lia.
    - intros y [->|Hy%Hlt]%elem_of_cons; lia. }
  destruct Hs as [Hs _]. assert (Transitive (@sequence_le L)) by (intros ???; unfold sequence_le; lia).
  assert (Total (@sequence_le L)) by (intros ??; unfold sequence_le; lia).
  apply (StronglySorted_unique_strong sequence_le); [|by apply StronglySorted_merge_sort|done|apply merge_sort_Permutation].
  intros x y Hx Hy Hxy Hyx. rewrite merge_sort_Permutation in Hx.
  apply list_elem_of_lookup in Hx as [i Hi]. apply list_elem_of_lookup in Hy as [j Hj].
  pose proof (Hc _ _ Hi). pose proof (Hc _ _ Hj). unfold sequence_le in *. assert (i = j) as -> by lia. congruence.
Qed.

(** ** Envelopes and rows *)

(** The envelope with another [recorded_at]. *)
Definition restamp (t : Timestamp) (e : LegacyRunEventEnvelope) : LegacyRunEventEnvelope :=
  mkEnvelope (ev_event_id e) (ev_workspace_id e) (ev_run_id e) (ev_sequence e) (ev_event_type e) (ev_event_version e)
    (ev_actor e) (ev_causation_id e) (ev_correlation_id e) (ev_payload e) (ev_occurred_at e) t.

Definition alike (e e' : LegacyRunEventEnvelope) : Prop := exists t, e = restamp t e'.

(** The reducer does not look at [recorded_at]. *)
Lemma replay_from_alike es es' st : Forall2 alike es es' -> replay_from st es = replay_from st es'.
Proof.
  intros H. revert st. induction H as [|e e' es es' [t ->] _ IH]; intros st; [done|]. cbn [replay_from].
  change (apply st (restamp t e')) with (apply st e'). destruct (apply st e'); [apply IH|done].
Qed.

(** What the checks of a batch establish. *)
Definition well_typed (e : LegacyRunEventEnvelope) : Prop :=
  ev_event_type e = legacy_event_type (ev_payload e) /\ ev_event_version e = legacy_event_version (ev_payload e).

Definition batch (ws : WorkspaceId) (run : AgentRunId) (v : RunVersion) (events : list LegacyRunEventEnvelope) : Prop :=
  Forall (fun e => ev_workspace_id e = ws /\ ev_run_id e = run /\ well_typed e) events /\ counts ev_sequence v events.

Lemma validate_events_Ok ctx run v events final :
  validate_events ctx run v events = Ok final ->
  batch (rc_workspace_id ctx) run v events /\ final = (v + Z.of_nat (length events))%Z.
Proof.
  revert v. induction events as [|e events IH]; intros v; cbn [validate_events].
  { intros [= <-]. split; [|simpl; lia]. split; [constructor|]. by intros i x. }
  intros (v' & Hv%map_err_Ok & H)%bind_Ok. apply version_next_Ok in Hv as [-> _].
  destruct (_ || _) eqn:E1; [done|]. destruct (Z.eqb_spec (ev_sequence e) (v + 1)); [|done].
  destruct (String.eqb_spec (ev_event_type e) (legacy_event_type (ev_payload e))); [|done].
  destruct (Z.eqb_spec (ev_event_version e) (legacy_event_version (ev_payload e))); [|done].
  cbn [negb] in H. apply IH in H as [[Hf Hc] ->]. bool_hyps. split; [split|cbn [length]; lia].
  - by constructor.
  - by apply counts_cons.
Qed.

Lemma validate_batch_Ok ctx run v events p :
  validate_batch ctx run v events p = Ok tt ->
  batch (rc_workspace_id ctx) run v events /\ ar_version p = (v + Z.of_nat (length events))%Z /\
  ar_id p = run /\ ar_workspace_id p = rc_workspace_id ctx /\ events <> [].
Proof.
  destruct events as [|e events]; [done|]. unfold validate_batch. destruct (_ || _) eqn:E; [done|].
  intros (w & Hw & Hp)%bind_Ok. bool_hyps. change (validate_events ctx run v (e :: events) = Ok w) in Hw.
  apply validate_events_Ok in Hw as [Hb ->]. destruct (Z.eqb_spec (ar_version p) (v + Z.of_nat (length (e :: events)))); [|done].
  by split_and!.
Qed.

Section History.
Context {L : Type} {LS : LegacySerde L} {SA : Serde (Value L) RunActor} {SS : Serde (Value L) RunState}
  {SHA : Sha256} {SB : StateBytes} {LSok : LegacySerdeOk L} {SAok : SerdeOk (Value L) RunActor}.
Implicit Types (db : RunDb L) (row : EventRow L).

Lemma envelope_of_row_restamp (f g : EventRow L -> Timestamp) row e :
  envelope_of_row f row = Ok e -> envelope_of_row g row = Ok (restamp (g row) e).
Proof.
  unfold envelope_of_row. intros (v & -> & H)%bind_Ok. cbn [mbind result_bind].
  destruct (v =? RunVersion_ZERO)%Z; [done|]. apply bind_Ok in H as (n & -> & H). cbn [mbind result_bind].
  apply bind_Ok in H as (p & -> & H). cbn [mbind result_bind]. destruct (_ || _); [done|].
  apply bind_Ok in H as (a & -> & H). cbn [mbind result_bind]. by injection H as <-.
Qed.

Lemma envelope_of_row_key f row e :
  envelope_of_row f row = Ok e ->
  ev_sequence e = er_sequence row /\ ev_workspace_id e = er_workspace_id row /\ ev_run_id e = er_run_id row.
Proof.
  unfold envelope_of_row. intros (v & Hv%version_from_database_Ok & H)%bind_Ok.
  destruct (v =? RunVersion_ZERO)%Z; [done|]. apply bind_Ok in H as (n & _ & (p & _ & H)%bind_Ok).
  destruct (_ || _); [done|]. apply bind_Ok in H as (a & _ & [= <-]). by split_and!.
Qed.

Lemma version_from_database_nonneg v : (0 <= v)%Z -> version_from_database v = Ok v.
Proof.
  intros Hv. unfold version_from_database. destruct (Z.eqb_spec v 0) as [->|Hne]; [done|].
  unfold try_unsigned. rewrite (proj2 (Z.ltb_ge _ _)) by lia. cbn [mbind result_bind]. unfold version_new.
  by rewrite (proj2 (Z.eqb_neq _ _)).
Qed.

(** A row of the legacy writers decodes to the envelope it was written from. *)
Lemma row_of_envelope_decodes now e :
  well_typed e -> (1 <= ev_sequence e)%Z -> envelope_of_row er_recorded_at (row_of_envelope now e) = Ok e.
Proof.
  intros [Ht Hv] Hs. unfold envelope_of_row. cbn [row_of_envelope er_sequence er_event_version er_payload er_event_type er_actor].
  rewrite version_from_database_nonneg by lia. cbn [mbind result_bind].
  rewrite (proj2 (Z.eqb_neq _ _)) by (unfold RunVersion_ZERO; lia). rewrite Hv. cbn [try_unsigned legacy_event_version Z.ltb Z.compare mbind result_bind].
  rewrite !from_to_value. cbn [ok_or mbind result_bind]. rewrite Ht, String.eqb_refl. cbn [negb orb].
  rewrite Z.eqb_refl. destruct e; simpl in *. by subst.
Qed.

(** The history of a run. *)
Record history (ws : WorkspaceId) (run : AgentRunId) (db : RunDb L) (es : list LegacyRunEventEnvelope) : Prop := {
  h_rows : Forall2 (fun row e => envelope_of_row er_recorded_at row = Ok e) (run_rows ws run db) es;
  h_counts : counts ev_sequence 0 es;
  h_head : match rd_streams db !! (ws, run) with Some v => v = Z.of_nat (length es) | None => es = [] end;
  h_bound : (Z.of_nat (length es) <= isize_max)%Z;
}.

Lemma history_row_counts ws run db es : history ws run db es -> counts er_sequence 0 (run_rows ws run db).
Proof.
  intros H i row Hi. destruct (Forall2_lookup_l _ _ _ _ _ (h_rows _ _ _ _ H) Hi) as (e & He & Hd).
  apply envelope_of_row_key in Hd as [<- _]. by apply (h_counts _ _ _ _ H).
Qed.

Lemma history_unique ws run db es es' : history ws run db es -> history ws run db es' -> es = es'.
Proof.
  intros [H _ _ _] [H' _ _ _]. apply collect_Forall2 in H. apply collect_Forall2 in H'. congruence.
Qed.

(** The rows a query with a bound selects, decoded with any column as [recorded_at]. *)
Lemma decode_alike (f : EventRow L -> Timestamp) rows es :
  Forall2 (fun row e => envelope_of_row er_recorded_at row = Ok e) rows es ->
  exists es', collect (envelope_of_row f) rows = Ok es' /\ Forall2 alike es' es.
Proof.
  induction 1 as [|row e rows es Hd _ (es' & He & Ha)]; [by exists []; split|].
  exists (restamp (f row) e :: es'). cbn [collect]. rewrite (envelope_of_row_restamp _ f _ _ Hd), He.
  split; [done|]. constructor; [by eexists|done].
Qed.

Lemma load_events_history ctx run db es :
  history (rc_workspace_id ctx) run db es -> load_events ctx run db = Ok es.
Proof.
  intros H. unfold load_events, select_where. pose proof (history_row_counts _ _ _ _ H) as Hc.
  rewrite forallb_filter_id by (by apply forallb_forall).
  rewrite (merge_sort_counts 0) by done. apply collect_Forall2, (h_rows _ _ _ _ H).
Qed.

Lemma counts_sublist {A} (f : A -> Z) base n l : counts f base l -> counts f base (take n l).
Proof. intros H i x Hi. apply H. apply lookup_take_Some in Hi as [Hi _]. done. Qed.

Lemma counts_drop {A} (f : A -> Z) base n l : counts f base l -> counts f (base + Z.of_nat n) (drop n l).
Proof. intros H i x Hi. rewrite lookup_drop in Hi. rewrite (H _ _ Hi). lia. Qed.

Lemma load_events_through_history ctx run v db es :
  history (rc_workspace_id ctx) run db es -> (v <= isize_max)%Z ->
  exists es', load_events_through ctx run v db = Ok es' /\ Forall2 alike es' (take (Z.to_nat v) es).
Proof.
  intros H Hv. unfold load_events_through, version_to_database. rewrite (proj2 (Z.ltb_ge _ _)) by lia.
  cbn [mbind result_bind]. pose proof (history_row_counts _ _ _ _ H) as Hc. unfold select_where.
  assert (List.filter (fun r => (er_sequence r <=? v)%Z) (run_rows (rc_workspace_id ctx) run db) =
    take (Z.to_nat v) (run_rows (rc_workspace_id ctx) run db)) as ->.
  { destruct (Z.le_gt_cases 0 v); [by rewrite (counts_through er_sequence 0 v _ Hc), Z.sub_0_r by lia|].
    rewrite (counts_below er_sequence 0 v _ Hc) by lia. by replace (Z.to_nat v) with 0%nat by lia. }
  rewrite (merge_sort_counts 0) by (by apply counts_sublist). apply decode_alike, Forall2_take, H.
Qed.

Lemma load_events_after_history ctx run v db es :
  history (rc_workspace_id ctx) run db es -> (0 <= v <= isize_max)%Z ->
  exists es', load_events_after ctx run v db = Ok es' /\ Forall2 alike es' (drop (Z.to_nat v) es).
Proof.
  intros H Hv. unfold load_events_after, version_to_database. rewrite (proj2 (Z.ltb_ge _ _)) by lia.
  cbn [mbind result_bind]. pose proof (history_row_counts _ _ _ _ H) as Hc. unfold select_where.
  rewrite (counts_after er_sequence 0 v _ Hc), Z.sub_0_r by lia.
  rewrite (merge_sort_counts (0 + Z.of_nat (Z.to_nat v))) by (by apply counts_drop). apply decode_alike, Forall2_drop, H.
Qed.

(** ** What a transaction writes *)

Lemma insert_envelopes_Ok duplicate events db db' :
  insert_envelopes duplicate events db = Ok db' ->
  db' = with_events db (rd_events db ++ (row_of_envelope (rd_now db) <$> events)).
Proof.
  revert db. induction events as [|e events IH]; intros db; cbn [insert_envelopes].
  { intros [= <-]. destruct db. unfold with_events. simpl. by rewrite app_nil_r. }
  intros (_ & _ & (_ & _ & (db1 & Hi & H)%bind_Ok)%bind_Ok)%bind_Ok. unfold insert_row in Hi.
  destruct (any _ _); [done|]. destruct (_ <? _)%Z; [done|]. destruct (is_none _); [done|]. injection Hi as <-.
  apply IH in H as ->. unfold with_events. simpl. by rewrite <-(assoc_L (++)).
Qed.

Lemma version_to_database_Ok v v' : version_to_database v = Ok v' -> v' = v /\ (v <= isize_max)%Z.
Proof. unfold version_to_database. destruct (Z.ltb_spec isize_max v); [done|]. intros [= <-]. split; [done|lia]. Qed.

Lemma version_from_database_Ok' v v' : version_from_database v = Ok v' -> v' = v /\ (0 <= v)%Z.
Proof.
  intros H. split; [by apply version_from_database_Ok in H|]. unfold version_from_database in H.
  destruct (Z.eqb_spec v 0) as [->|Hne]; [lia|]. apply bind_Ok in H as (n & Hn & _). unfold try_unsigned in Hn.
  destruct (Z.ltb_spec v 0); [done|lia].
Qed.

(** The version a stream is at; one that does not exist is at zero. *)
Definition version_at db (k : Z * Z) : Z := default 0%Z (rd_streams db !! k).

(** A transaction that appended [events] to the stream [k], which was at [v]. *)
Record appended (k : Z * Z) (v : RunVersion) (events : list LegacyRunEventEnvelope) db db' : Prop := {
  ap_batch : batch k.1 k.2 v events;
  ap_version : version_at db k = v;
  ap_nonneg : (0 <= v)%Z;
  ap_bound : (v + Z.of_nat (length events) <= isize_max)%Z;
  ap_streams : rd_streams db' = <[k := (v + Z.of_nat (length events))%Z]> (rd_streams db);
  ap_events : exists now, rd_events db' = rd_events db ++ (row_of_envelope now <$> events);
  ap_checkpoints : rd_checkpoints db' = rd_checkpoints db;
}.

Lemma advance_Ok ws run expected v db db' :
  advance ws run expected v db = Ok db' ->
  db' = with_streams db (<[(ws, run) := v]> (rd_streams db)) /\ (v <= isize_max)%Z.
Proof.
  unfold advance. intros (v1 & [-> Hv]%version_to_database_Ok & (x & _ & H)%bind_Ok)%bind_Ok.
  destruct (rd_streams db !! (ws, run)) as [c|]; [|done]. destruct (_ =? _)%Z; [|done]. injection H as <-. by split.
Qed.

Lemma lock_stream_Ok ctx run expected db v db' (k := (rc_workspace_id ctx, run)) :
  lock_stream ctx run expected db = Ok (v, db') ->
  version_at db k = v /\ (0 <= v)%Z /\ rd_events db' = rd_events db /\ rd_checkpoints db' = rd_checkpoints db /\
  (db' = db \/ db' = with_streams db (<[k := 0%Z]> (rd_streams db))).
Proof.
  unfold lock_stream, version_at. fold k. destruct (rd_streams db !! k) as [x|] eqn:E; simpl.
  - intros (y & [-> Hy]%version_from_database_Ok' & [= <- <-])%bind_Ok. split_and!; try done. by left.
  - destruct (_ =? _)%Z; [|done]. intros [= <- <-]. split_and!; try done. by right.
Qed.

Lemma append_rows_Ok ctx run expected events db v db' :
  append_rows ctx run expected events db = Ok (v, db') ->
  appended (rc_workspace_id ctx, run) expected events db db' /\ rd_runs db' = rd_runs db.
Proof.
  unfold append_rows. intros (f & Hb & ([actual db1] & Hl & H)%bind_Ok)%bind_Ok.
  assert (batch (rc_workspace_id ctx) run expected events /\ f = (expected + Z.of_nat (length events))%Z) as [Hbatch ->].
  { unfold validate_event_batch in Hb. destruct events; [done|]. by apply validate_events_Ok in Hb. }
  destruct (Z.eqb_spec actual expected) as [->|]; [|done]. cbn [negb] in H.
  apply bind_Ok in H as (h & _ & H). destruct (h =? expected)%Z; [|done]. cbn [negb] in H.
  apply bind_Ok in H as (db2 & ->%insert_envelopes_Ok & (db3 & [-> Hm]%advance_Ok & [= _ <-])%bind_Ok).
  apply lock_stream_Ok in Hl as (Hv & Hn & He & Hc & [->| ->]); split; try done; split; try done; simpl; try by eexists.
  by rewrite insert_insert_eq.
Qed.

Lemma lock_or_create_Ok ctx run expected db v db' (k := (rc_workspace_id ctx, run)) :
  lock_or_create ctx run expected db = Ok (v, db') ->
  version_at db k = v /\ (0 <= v)%Z /\
  (db' = db \/ db' = with_streams db (<[k := 0%Z]> (rd_streams db)) /\ rd_streams db !! k = None).
Proof.
  unfold lock_or_create, version_at. fold k. destruct (Z.eqb_spec expected RunVersion_ZERO) as [->|].
  - destruct (rd_streams db !! k) as [x|] eqn:E; [done|]. intros [= <- <-]. split_and!; try done. by right.
  - intros (x & ->%ok_or_Ok & (y & [-> Hy]%version_from_database_Ok' & [= <- <-])%bind_Ok)%bind_Ok.
    split_and!; try done. by left.
Qed.

(** What the committer made of a batch: the whole stream replays to the state the projection is of. *)
Lemma commit_on_Ok resolve ctx run expected events p db v db' :
  commit_on resolve ctx run expected events p db = Ok (v, db') ->
  appended (rc_workspace_id ctx, run) expected events db db' /\ events <> [] /\ v = ar_version p /\
  ar_version p = (expected + Z.of_nat (length events))%Z /\ ar_id p = run /\ ar_workspace_id p = rc_workspace_id ctx /\
  (exists existing s, load_events ctx run db = Ok existing /\ replay (existing ++ events) = Ok (Some s) /\
     p = project_run s) /\
  exists db1, rd_runs db1 = rd_runs db /\ rd_principals db1 = rd_principals db /\
    upsert_projection (rc_principal_id ctx) p db1 = Ok db'.
Proof.
  unfold commit_on. intros ([] & Hb & ([actual db1] & Hl & H)%bind_Ok)%bind_Ok.
  apply validate_batch_Ok in Hb as (Hbatch & Hpv & Hpi & Hpw & Hne).
  destruct (Z.eqb_spec actual expected) as [->|]; [|done]. cbn [negb] in H.
  apply bind_Ok in H as (existing & Hex & (_ & _ & (prior & _ & (o & Ho%map_err_Ok & (s & ->%ok_or_Ok & H)%bind_Ok)%bind_Ok)%bind_Ok)%bind_Ok).
  destruct (project_run s !== p) eqn:Ep; [done|]. apply negb_false_iff, bool_decide_eq_true_1 in Ep.
  apply bind_Ok in H as (db2 & ->%insert_envelopes_Ok & (db3 & [-> Hm]%advance_Ok & (_ & _ & (db4 & Hu & [= <- <-])%bind_Ok)%bind_Ok)%bind_Ok).
  assert (Hdb : rd_streams db4 = <[(rc_workspace_id ctx, run) := ar_version p]> (rd_streams db1) /\
    rd_events db4 = rd_events db1 ++ (row_of_envelope (rd_now db1) <$> events) /\ rd_checkpoints db4 = rd_checkpoints db1).
  { unfold upsert_projection, upsert in Hu. apply bind_Ok in Hu as (_ & _ & Hu). destruct (negb (run_checks p)); [done|].
    repeat (split_match_in Hu; try done); by injection Hu as <-. }
  destruct Hdb as (Hs & He & Hc).
  assert (Hl' : version_at db (rc_workspace_id ctx, run) = expected /\ (0 <= expected)%Z /\ rd_events db1 = rd_events db /\
    rd_checkpoints db1 = rd_checkpoints db /\ rd_runs db1 = rd_runs db /\ rd_principals db1 = rd_principals db /\
    <[(rc_workspace_id ctx, run) := ar_version p]> (rd_streams db1) = <[(rc_workspace_id ctx, run) := ar_version p]> (rd_streams db)).
  { apply lock_or_create_Ok in Hl as (? & ? & [->|[-> _]]); split_and!; try done. simpl. by rewrite insert_insert_eq. }
  destruct Hl' as (Hv & Hn & He1 & Hc1 & Hr1 & Hp1 & Hs1). split_and!; try done.
  - split; try done; [lia|by rewrite Hs, Hs1, Hpv|rewrite He, He1; by eexists|congruence].
  - exists existing, s. split_and!; [|exact Ho|by symmetry]. rewrite <-Hex. unfold load_events, select_where, run_rows. by rewrite He1.
  - eexists. split_and!; [| |exact Hu]; done.
Qed.

Lemma run_rows_app ws run db (rows : list (EventRow L)) db' :
  rd_events db' = rd_events db ++ rows -> run_rows ws run db' = run_rows ws run db ++ List.filter (row_of_run ws run) rows.
Proof. intros H. unfold run_rows. by rewrite H, List.filter_app. Qed.

(** The histories after an append: the run's is extended, every other one is kept. *)
Lemma history_appended ws run k v events db db' es :
  appended k v events db db' -> history ws run db es ->
  history ws run db' (es ++ if bool_decide ((ws, run) = k) then events else []).
Proof.
  intros [[Hb Hc] Hv Hn Hm Hs [now He] _] [Hr Hcs Hh Hbd]. case_bool_decide as Hk.
  - subst k. unfold version_at in Hv. simpl in *. assert (v = Z.of_nat (length es)) as ->.
    { destruct (rd_streams db !! (ws, run)); simpl in Hv; [congruence|]. by subst es. }
    assert (Hd : Forall2 (fun row e => envelope_of_row er_recorded_at row = Ok e)
                   (List.filter (row_of_run ws run) (row_of_envelope now <$> events)) events).
    { clear -Hb Hc Hn LSok SAok. generalize dependent (Z.of_nat (length es)). intros b Hn Hc. revert b Hn Hc.
      induction Hb as [|e events (<- & <- & Ht) _ IH]; intros b Hn; [constructor|]. rewrite counts_cons. intros [Hq Hc].
      cbn [fmap list_fmap List.filter]. unfold row_of_run at 1. cbn [row_of_envelope er_workspace_id er_run_id].
      rewrite !eqb_refl. cbn [andb]. constructor; [apply row_of_envelope_decodes; [done|lia]|]. apply (IH (b + 1)%Z); [lia|done]. }
    split.
    + rewrite (run_rows_app _ _ _ _ _ He). by apply Forall2_app.
    + by apply counts_app.
    + rewrite Hs, lookup_insert_eq, length_app. lia.
    + rewrite length_app. lia.
  - rewrite app_nil_r. split; try done.
    + rewrite (run_rows_app _ _ _ _ _ He). replace (List.filter _ _) with (@nil (EventRow L)); [by rewrite app_nil_r|].
      clear -Hb Hk. induction Hb as [|e events (He1 & He2 & _) _ IH]; [done|]. cbn [fmap list_fmap List.filter].
      unfold row_of_run at 1. cbn [row_of_envelope er_workspace_id er_run_id]. rewrite He1, He2.
      destruct (eqb k.1 ws) eqn:E1; [|done]. destruct (eqb k.2 run) eqn:E2; [|done]. bool_hyps. destruct k. simpl in *. by subst.
    + rewrite Hs, lookup_insert_ne by done. done.
Qed.

(** Tables a call leaves as they are. *)
Lemma history_same ws run db db' es :
  rd_streams db' = rd_streams db -> rd_events db' = rd_events db -> history ws run db es -> history ws run db' es.
Proof. intros Hs He [Hr Hc Hh Hb]. split; try done; [unfold run_rows in *; by rewrite He|by rewrite Hs]. Qed.

(** ** Whatever is called *)

(** Histories are extended, checkpoints are never rewritten. *)
Record grows db db' : Prop := {
  g_history : forall ws run es, history ws run db es -> exists added, history ws run db' (es ++ added);
  g_checkpoints : rd_checkpoints db ⊆ rd_checkpoints db';
}.

#[export] Instance grows_preorder : PreOrder grows.
Proof.
  split.
  - intros db. split; [|done]. intros ws run es H. exists []. by rewrite app_nil_r.
  - intros db1 db2 db3 [H1 C1] [H2 C2]. split; [|by etrans]. intros ws run es H.
    destruct (H1 _ _ _ H) as [l Hl]. destruct (H2 _ _ _ Hl) as [l' Hl']. exists (l ++ l'). by rewrite (assoc_L (++)).
Qed.

Lemma grows_unchanged db db' :
  rd_streams db' = rd_streams db -> rd_events db' = rd_events db -> rd_checkpoints db ⊆ rd_checkpoints db' -> grows db db'.
Proof. intros Hs He Hc. split; [|done]. intros ws run es H. exists []. rewrite app_nil_r. by eapply history_same. Qed.

Lemma grows_appended k v events db db' : appended k v events db db' -> grows db db'.
Proof.
  intros H. split; [|by rewrite (ap_checkpoints _ _ _ _ _ H)]. intros ws run es He. eexists. by eapply history_appended.
Qed.

Lemma upsert_same duplicate principal f p db db' :
  upsert duplicate principal f p db = Ok db' ->
  rd_streams db' = rd_streams db /\ rd_events db' = rd_events db /\ rd_checkpoints db' = rd_checkpoints db.
Proof.
  unfold upsert. intros (_ & _ & H)%bind_Ok. destruct (negb (run_checks p)); [done|].
  repeat (split_match_in H; try done); by injection H as <-.
Qed.

Lemma replace_projection_Ok ctx expected p db db' :
  replace_projection ctx expected p db = Ok db' ->
  version_at db (rc_workspace_id ctx, ar_id p) = expected /\ is_some (rd_streams db !! (rc_workspace_id ctx, ar_id p)) /\
  ar_workspace_id p = rc_workspace_id ctx /\ ar_version p = expected /\
  upsert AppStorage (ar_coordinator_snapshot_id p) (fun _ => ar_coordinator_snapshot_id p) p db = Ok db'.
Proof.
  unfold replace_projection, version_at. intros (x & ->%ok_or_Ok & (y & [Hy _]%version_from_database_Ok' & H)%bind_Ok)%bind_Ok.
  simpl in *. destruct (Z.eqb_spec y expected) as [->|]; [|done]. cbn [negb] in H.
  destruct (_ || _) eqn:E; [done|]. bool_hyps. by split_and!.
Qed.

Lemma save_checkpoint_Ok ctx c db db' (k := (sc_workspace_id c, sc_run_id c, sc_sequence c)) :
  save_checkpoint ctx c db = Ok db' ->
  rd_streams db' = rd_streams db /\ rd_events db' = rd_events db /\ rd_checkpoints db ⊆ rd_checkpoints db' /\
  validate_checkpoint_for_write ctx c = Ok tt /\ (sc_sequence c <= isize_max)%Z /\ exists row : StateRow L, rd_checkpoints db' !! k = Some row /\
    (row = mkStateRow (sc_format_version c) (sc_state_hash c) (to_value (sc_state c)) (sc_created_at c) \/
     checkpoint_of_state_row (sc_workspace_id c) (sc_run_id c) (sc_sequence c) row = Ok c).
Proof.
  unfold save_checkpoint. intros ([] & Hv & (s & [-> Hs]%version_to_database_Ok & H)%bind_Ok)%bind_Ok.
  destruct (_ <? _)%Z; [done|]. cbv zeta in H. fold k in H. destruct (rd_checkpoints db !! k) as [row|] eqn:E.
  - apply bind_Ok in H as (x & Hx & H). destruct (x !== c) eqn:Ex; [done|]. injection H as <-.
    apply negb_false_iff, bool_decide_eq_true_1 in Ex as ->. split_and!; try done. exists row. by auto.
  - destruct (is_none _); [done|]. injection H as <-. split_and!; try done; simpl.
    + by apply insert_subseteq.
    + eexists. split; [apply lookup_insert_eq|by left].
Qed.

Section Env.
Context (resolve : RequestContext -> AgentRunId -> result ApplicationError unit).

Lemma answer_grows {R} (c : RunCall R) w : grows (w_db w) (w_db (answer resolve c w).2).
Proof.
  destruct c; cbn [answer]; try done; unfold writes, no_answer.
  - destruct (append_rows _ _ _ _ _) as [[v db]|] eqn:E; [|done]. apply append_rows_Ok in E as [H _]. by eapply grows_appended.
  - destruct (commit_on _ _ _ _ _ _ _) as [[v db]|] eqn:E; [|done]. apply commit_on_Ok in E as [H _]. by eapply grows_appended.
  - destruct (save_checkpoint _ _ _) as [db|] eqn:E; [|done]. apply save_checkpoint_Ok in E as (? & ? & ? & _). by apply grows_unchanged.
  - destruct (replace_projection _ _ _ _) as [db|] eqn:E; [|done]. apply replace_projection_Ok in E as (_ & _ & _ & _ & E).
    apply upsert_same in E as (? & ? & Hc). apply grows_unchanged; [done..|]. simpl. by rewrite Hc.
  - by destruct (any _ _).
Qed.

Lemma env_grows w w' : rtc (env_step resolve) w w' -> grows (w_db w) (w_db w').
Proof.
  induction 1 as [w|w w1 w2 H _ IH]; [done|]. etrans; [|exact IH]. destruct H as [R c w|w now leases].
  - apply answer_grows.
  - by apply grows_unchanged.
Qed.

Lemma runs_grows {A} (p : rprog A) w a w' : runs resolve p w a w' -> grows (w_db w) (w_db w').
Proof.
  revert w. induction p as [b|k IH|k IH|R c k IH]; intros w; simpl.
  - by intros [_ ->].
  - intros [t H]. by eapply IH.
  - intros [u H]. by eapply IH.
  - intros (w1 & He%env_grows & [H%IH|(w2 & Hw & H%IH)]).
    + etrans; [exact He|]. etrans; [apply (answer_grows c)|done].
    + etrans; [exact He|]. etrans; [|exact H]. destruct Hw as [->| ->]; [done|apply (answer_grows c)].
Qed.

End Env.

(** What of a history an earlier one fixes. *)
Lemma grows_prefix ws run db db' es :
  grows db db' -> history ws run db es -> exists es', history ws run db' es' /\ take (length es) es' = es.
Proof.
  intros [H _] He. destruct (H _ _ _ He) as [l Hl]. exists (es ++ l). split; [done|]. by rewrite take_app_length.
Qed.

(** ** The stream store of legacy rows

    [RunEventStore] keeps the envelopes themselves; on tables that hold only legacy rows its append
    is the one on rows. *)

Definition written_from (row : EventRow L) (e : LegacyRunEventEnvelope) : Prop := exists now, row = row_of_envelope now e.

Record holds db (s : RunStreams) : Prop := {
  hs_streams : rd_streams db = sm_versions s;
  hs_rows : Forall2 written_from (rd_events db) (sm_events s);
}.

Lemma clashes_written now e rows es :
  Forall2 written_from rows es ->
  any (clashes (row_of_envelope now e)) rows =
  any (fun r => (ev_event_id r == ev_event_id e)
                || RunEventStore.of_run (ev_workspace_id e) (ev_run_id e) r && (ev_sequence r =? ev_sequence e)%Z) es.
Proof. unfold any. induction 1 as [|row e' rows es [t ->] _ IH]; [done|]. cbn [existsb]. by rewrite IH. Qed.

Lemma max_sequence_written ws run db s : holds db s -> max_sequence ws run db = stored_head ws run s.
Proof.
  intros [_ Hr]. unfold max_sequence, stored_head, run_rows, RunEventStore.stream.
  induction Hr as [|row e rows es [t ->] _ IH]; [done|]. cbn [List.filter].
  change (row_of_run ws run (row_of_envelope t e)) with (RunEventStore.of_run ws run e).
  destruct (RunEventStore.of_run ws run e); cbn [foldr]; by rewrite IH.
Qed.

Lemma insert_written k v events db (rows : list LegacyRunEventEnvelope) :
  batch k.1 k.2 v events -> (0 <= v)%Z -> is_some (rd_streams db !! k) = true -> Forall2 written_from (rd_events db) rows ->
  is_ok (insert_envelopes AppStorage events db) = is_ok (insert_events events rows).
Proof.
  intros [Hb Hc] Hv Hk Hr. revert v db rows Hv Hk Hr Hc. induction Hb as [|e events (He1 & He2 & _ & Hver) _ IH];
    intros v db rows Hv Hk Hr Hc; [done|]. apply counts_cons in Hc as [Hseq Hc]. cbn [insert_envelopes insert_events].
  destruct (version_to_database (ev_sequence e)); [|done]. cbn [mbind result_bind]. rewrite Hver. cbn [legacy_event_version Z.ltb Z.compare Pos.compare Pos.compare_cont mbind result_bind].
  unfold insert_row. rewrite (clashes_written _ _ _ _ Hr). destruct (any _ rows); [done|].
  cbn [row_of_envelope er_sequence er_workspace_id er_run_id]. rewrite (proj2 (Z.ltb_ge _ _)) by lia.
  unfold is_none. rewrite He1, He2, <-surjective_pairing, Hk. cbn [negb mbind result_bind].
  apply (IH (v + 1)%Z); [lia|done| |done]. cbn [with_events rd_events]. apply Forall2_app; [done|]. constructor; [by eexists|done].
Qed.

(** Appending to a stream means the same on the envelopes and on the rows. *)
Theorem append_rows_is_append ctx run v events db s :
  holds db s ->
  match append_rows ctx run v events db, append_on ctx run v events s with
  | Ok (n, db'), Ok (n', s') => n = n' /\ holds db' s'
  | Err _, Err _ => True
  | _, _ => False
  end.
Proof.
  intros Hh. pose proof Hh as [Hs Hr]. unfold append_rows, append_on. set (k := (rc_workspace_id ctx, run)).
  destruct (validate_event_batch ctx run v events) as [final|] eqn:Hb; [|done]. cbn [mbind result_bind].
  assert (Hbatch : batch k.1 k.2 v events /\ final = (v + Z.of_nat (length events))%Z).
  { unfold validate_event_batch in Hb. destruct events; [done|]. by apply validate_events_Ok in Hb. }
  destruct Hbatch as [Hbatch Hfinal].
  assert (Hlock : match lock_stream ctx run v db, lock_or_create_stream ctx run v s with
    | Ok (a, db1), Ok a' => a = a' /\ (0 <= a)%Z /\ rd_events db1 = rd_events db /\
        (rd_streams db1 !! k = Some a) /\ <[k := final]> (rd_streams db1) = <[k := final]> (rd_streams db)
    | Err _, Err _ => True
    | _, _ => False end).
  { unfold lock_stream, lock_or_create_stream. rewrite <-Hs. fold k. destruct (rd_streams db !! k) as [x|] eqn:E.
    - destruct (version_from_database x) as [y|] eqn:Ex; [|done]. apply version_from_database_Ok' in Ex as [-> ?]. done.
    - destruct (negb _); [done|]. cbn. split_and!; try done; [apply lookup_insert_eq|by rewrite insert_insert_eq]. }
  destruct (lock_stream ctx run v db) as [[a db1]|], (lock_or_create_stream ctx run v s) as [a'|]; try done.
  destruct Hlock as (<- & Ha & He & Hk & Hins). cbn [mbind result_bind]. destruct (Z.eqb_spec a v) as [->|]; [|done]. cbn [negb].
  assert (max_sequence (rc_workspace_id ctx) run db1 = stored_head (rc_workspace_id ctx) run s) as ->.
  { rewrite <-(max_sequence_written _ _ db s Hh). unfold max_sequence, run_rows. by rewrite He. }
  destruct (version_from_database _) as [h|]; [|done]. cbn [mbind result_bind]. destruct (h =? v)%Z; [|done]. cbn [negb].
  rewrite <-He in Hr. pose proof (insert_written k v events db1 (sm_events s) Hbatch Ha) as Hi. rewrite Hk in Hi. specialize (Hi eq_refl Hr).
  destruct (insert_envelopes AppStorage events db1) as [db2|] eqn:E1, (insert_events events (sm_events s)) as [rows|] eqn:E2; try done.
  cbn [mbind result_bind]. apply insert_envelopes_Ok in E1 as ->. apply insert_events_Ok in E2 as ->. unfold advance.
  destruct (version_to_database final) as [f|] eqn:Ef; [|done]. cbn [mbind result_bind]. apply version_to_database_Ok in Ef as [-> Hm].
  assert (version_to_database v = Ok v) as -> by (unfold version_to_database; by rewrite (proj2 (Z.ltb_ge _ _)) by lia).
  cbn [mbind result_bind with_events rd_streams]. fold k. rewrite Hk, Z.eqb_refl. split; [done|]. split; cbn.
  - by rewrite Hins, Hs.
  - apply Forall2_app; [done|]. apply Forall2_fmap_l, Forall_Forall2_diag, Forall_true. intros e. by eexists.
Qed.

End History.
