(* ===== verification/RunRecoverySpec.v ===== *)
(** * What legacy commands and recovery guarantee

    Theorems on [RunServices] among other programs: a restored state is the replay of the events,
    a checkpoint stays valid, an executed command is recorded with its projection, and a rebuilt
    projection is the current one. *)

From Stdlib Require Import ZArith Lia String.
From stdpp Require Import base option numbers strings gmap sorting relations list.
From S2P Require Import Prelude Codec Crypto Text RunStatus RunDecider RunDeciderSpec AgentRun RunReplay.
From S2P Require Import RunPorts RunCoordinator WorkQueue PgRunStore PgRunStoreProps RunEventStore RunRows RunCommitter RunServices RunWorld.
From S2P Require Import RunHistory.

Section Recovery.
Context {L : Type} {LS : LegacySerde L} {SA : Serde (Value L) RunActor} {SS : Serde (Value L) RunState}
  {SHA : Sha256} {SB : StateBytes}
  {LSok : LegacySerdeOk L} {SAok : SerdeOk (Value L) RunActor} {SSok : SerdeOk (Value L) RunState}.
Context (resolve : RequestContext -> AgentRunId -> result ApplicationError unit).
Implicit Types (w : RunWorld L) (es : list LegacyRunEventEnvelope).

Abbreviation runs := (RunWorld.runs resolve).
Abbreviation env := (rtc (env_step resolve)).

(** The run of a request, in the tables of a world. *)
Definition run_history (ctx : RequestContext) (run : AgentRunId) w es : Prop :=
  history (rc_workspace_id ctx) run (w_db w) es.

(** ** Reading *)

Lemma runs_history {A} (p : rprog A) w a w' ctx run es :
  runs p w a w' -> run_history ctx run w es -> exists l, run_history ctx run w' (es ++ l).
Proof. intros H. apply (g_history _ _ (runs_grows resolve _ _ _ _ H)). Qed.

Lemma stream_head_runs ctx run w head w' es :
  runs (stream_head ctx run) w (Ok head) w' -> run_history ctx run w es ->
  exists l, run_history ctx run w' (es ++ l) /\ head = Z.of_nat (length (es ++ l)).
Proof.
  intros H Hes. destruct (runs_history _ _ _ _ _ _ _ H Hes) as [l Hl]. exists l. split; [done|].
  apply runs_bind in H as (o & w1 & (w2 & _ & Ha)%runs_call & [->%ok_or_Ok ->]%runs_lift).
  cbn [answer] in Ha. unfold reads in Ha. injection Ha as Hh ->. unfold load_head in Hh.
  pose proof (h_head _ _ _ _ Hl) as Hv. destruct (rd_streams (w_db w1) !! _) as [v|]; [|done].
  apply bind_Ok in Hh as (v' & [-> _]%version_from_database_Ok' & [= <-]). done.
Qed.

Lemma replay_through_runs ctx run v w s w' es :
  runs (replay_through ctx run v) w (Ok s) w' -> run_history ctx run w es ->
  (v <= isize_max)%Z /\ exists l, run_history ctx run w' (es ++ l) /\ replay (take (Z.to_nat v) (es ++ l)) = Ok (Some s).
Proof.
  intros H Hes. destruct (runs_history _ _ _ _ _ _ _ H Hes) as [l Hl].
  apply runs_bind in H as (evs & w1 & (w2 & _ & Ha)%runs_call & H).
  apply runs_bind in H as (o & w3 & [Hr%map_err_Ok ->]%runs_lift & [->%ok_or_Ok ->]%runs_lift).
  cbn [answer] in Ha. unfold reads in Ha. injection Ha as Ht ->.
  assert (v <= isize_max)%Z as Hm.
  { unfold load_events_through in Ht. apply bind_Ok in Ht as (x & [_ ?]%version_to_database_Ok & _). done. }
  split; [done|]. exists l. split; [done|]. destruct (load_events_through_history _ _ v _ _ Hl Hm) as (evs' & He & Ha).
  assert (evs' = evs) as -> by congruence. unfold replay in *. by rewrite <-(replay_from_alike _ _ None Ha).
Qed.

Lemma apply_all_replay s l s' : apply_all s l = Ok s' -> replay_from (Some s) l = Ok (Some s').
Proof.
  revert s. induction l as [|e l IH]; intros s; cbn [apply_all replay_from]; [by intros [= ->]|].
  intros (s1 & ->%map_err_Ok & H)%bind_Ok. by apply IH.
Qed.

Lemma replay_apply_all s l s' : replay_from (Some s) l = Ok (Some s') -> apply_all s l = Ok s'.
Proof.
  revert s. induction l as [|e l IH]; intros s; cbn [apply_all replay_from]; [by intros [= ->]|].
  intros (s1 & -> & H)%bind_Ok. by apply IH.
Qed.

Lemma replay_split n m es s :
  (n <= m)%nat -> replay (take n es) = Ok (Some s) ->
  replay (take m es) = replay_from (Some s) (take (m - n) (drop n es)).
Proof.
  intros Hnm H. unfold replay in *. replace (take m es) with (take n es ++ take (m - n) (drop n es)).
  - by rewrite replay_from_app, H.
  - rewrite <-(take_drop n (take m es)), take_take, Nat.min_l by done. f_equal. by rewrite skipn_firstn_comm.
Qed.

Lemma alike_counts es es' base : Forall2 alike es es' -> counts ev_sequence base es' -> counts ev_sequence base es.
Proof.
  intros H Hc i e Hi. destruct (Forall2_lookup_l _ _ _ _ _ H Hi) as (e' & Hi' & t & ->). by apply (Hc i e').
Qed.

Lemma verify_Ok s head : verify_restored_head s head = Ok tt -> rs_version s = head.
Proof. unfold verify_restored_head. by destruct (Z.eqb_spec (rs_version s) head). Qed.

Lemma validate_loaded_runs ctx run c w c' w' es :
  runs (validate_loaded_checkpoint ctx run c) w (Ok c') w' -> run_history ctx run w es ->
  c' = c /\ rs_version (sc_state c) = sc_sequence c /\
  exists l, run_history ctx run w' (es ++ l) /\ replay (take (Z.to_nat (sc_sequence c)) (es ++ l)) = Ok (Some (sc_state c)).
Proof.
  intros H Hes. apply runs_bind in H as ([] & w1 & [Hs ->]%runs_lift & (s & w2 & Hr & H)%runs_bind).
  destruct (s !== sc_state c) eqn:E; [by apply runs_lift in H as [? _]|]. bool_hyps. subst s. destruct H as [[= ->] ->].
  split; [done|]. split.
  - unfold validate_checkpoint_structure in Hs. repeat (split_match_in Hs; try done). by bool_hyps.
  - apply (replay_through_runs _ _ _ _ _ _ es) in Hr as [_ (l & Hl & Hr)]; [|done]. by eauto.
Qed.

Lemma restore_from_checkpoint_runs ctx run head c w s w' es :
  runs (restore_from_checkpoint ctx run head c) w (Ok s) w' -> run_history ctx run w es ->
  (head <= Z.of_nat (length es))%Z ->
  rs_version s = head /\ exists l, run_history ctx run w' (es ++ l) /\ replay (take (Z.to_nat head) (es ++ l)) = Ok (Some s).
Proof.
  unfold restore_from_checkpoint. intros H Hes Hle. destruct (Z.ltb_spec head (sc_sequence c)) as [|Hsh]; [by destruct H|].
  apply runs_bind in H as (c' & w1 & Hc & H). apply (validate_loaded_runs _ _ _ _ _ _ es) in Hc as (-> & Hv & l & Hl & Hr); [|done].
  destruct (replay_shape _ _ Hr) as [_ Hlen]. rewrite Hv, length_take, length_app in Hlen.
  assert (1 <= sc_sequence c)%Z as H1.
  { destruct (Z.le_gt_cases 1 (sc_sequence c)); [done|]. by replace (Z.to_nat (sc_sequence c)) with 0%nat in Hr by lia. }
  apply runs_bind in H as (tail & w2 & Ha & H). destruct (runs_history _ _ _ _ _ _ _ Ha Hl) as [l2 Hl2].
  rewrite <-(assoc_L (++)) in Hl2.
  apply runs_call in Ha as (w3 & _ & Ha). cbn [answer] in Ha. unfold reads in Ha. injection Ha as Ht ->.
  apply runs_bind in H as (s' & w4 & [Hs ->]%runs_lift & ([] & w5 & [Hver%verify_Ok ->]%runs_lift & [[= ->] ->])%runs_bind).
  split; [done|]. exists (l ++ l2). split; [done|]. assert (sc_sequence c <= isize_max)%Z as Hmax.
  { unfold load_events_after in Ht. by apply bind_Ok in Ht as (x & [_ ?]%version_to_database_Ok & _). }
  destruct (load_events_after_history _ _ (sc_sequence c) _ _ Hl2) as (tail' & He & Ha); [lia|].
  assert (tail' = tail) as -> by congruence.
  assert (Hct : counts ev_sequence (sc_sequence c) tail).
  { apply (alike_counts _ _ _ Ha). replace (sc_sequence c) with (0 + Z.of_nat (Z.to_nat (sc_sequence c)))%Z at 1 by lia.
    apply counts_drop, (h_counts _ _ _ _ Hl2). }
  rewrite (counts_through ev_sequence _ head _ Hct) in Hs by lia. apply apply_all_replay in Hs.
  rewrite (replay_split (Z.to_nat (sc_sequence c)) (Z.to_nat head) _ (sc_state c)) by
    (lia || (rewrite <-Hr; f_equal; rewrite (assoc_L (++)); rewrite take_app_le by (rewrite length_app; lia); done)).
  rewrite <-Hs. symmetry. replace (Z.to_nat head - Z.to_nat (sc_sequence c))%nat with (Z.to_nat (head - sc_sequence c)) by lia.
  apply replay_from_alike. by apply Forall2_take.
Qed.

Lemma restore_runs ctx run w s w' es :
  runs (restore ctx run) w (Ok s) w' -> run_history ctx run w es ->
  exists l, run_history ctx run w' (es ++ l) /\ replay (take (Z.to_nat (rs_version s)) (es ++ l)) = Ok (Some s) /\
    (Z.of_nat (length es) <= rs_version s <= Z.of_nat (length (es ++ l)))%Z.
Proof.
  unfold restore. intros H Hes. apply runs_bind in H as (head & w1 & Hh & H).
  apply (stream_head_runs _ _ _ _ _ es) in Hh as (l & Hl & Hhead); [|done].
  apply runs_bind in H as (o & w2 & Ha & H). destruct (runs_history _ _ _ _ _ _ _ Ha Hl) as [l2 Hl2].
  assert (Hfin : rs_version s = head /\ exists l3, run_history ctx run w' ((es ++ l) ++ l3) /\
    replay (take (Z.to_nat head) ((es ++ l) ++ l3)) = Ok (Some s)).
  { destruct (opt_filter _ o) as [c|].
    - apply (restore_from_checkpoint_runs _ _ _ _ _ _ _ ((es ++ l) ++ l2)) in H as (Hv & l3 & Hl3 & Hr); [|done|rewrite length_app; lia].
      split; [done|]. exists (l2 ++ l3). by rewrite (assoc_L (++)).
    - apply runs_bind in H as (s' & w3 & Hr & H). apply (replay_through_runs _ _ _ _ _ _ ((es ++ l) ++ l2)) in Hr as (_ & l3 & Hl3 & Hr); [|done].
      apply runs_bind in H as ([] & w4 & [Hver%verify_Ok ->]%runs_lift & [[= ->] ->]). split; [done|].
      exists (l2 ++ l3). by rewrite (assoc_L (++)). }
  destruct Hfin as (-> & l3 & Hl3 & Hr). exists (l ++ l3). rewrite (assoc_L (++)). split_and!; try done.
  - rewrite Hhead, length_app. lia.
  - rewrite Hhead, (length_app (es ++ l)). lia.
Qed.

(** ** Identities *)

Lemma apply_payload_identity s e s' :
  apply_payload s e = Ok s' -> rs_id s' = rs_id s /\ rs_workspace_id s' = rs_workspace_id s.
Proof.
  intros H. unfold apply_payload in H. cbv zeta in H. destruct (ev_payload e); try discriminate H; arm H; done.
Qed.

Lemma applied_identity st e s :
  apply st e = Ok s -> rs_id s = ev_run_id e /\ rs_workspace_id s = ev_workspace_id e.
Proof.
  unfold apply. intros ([] & Hv & H)%bind_Ok. destruct st as [s0|].
  - unfold apply_existing in H. apply bind_Ok in H as (s1 & [Hi Hw]%apply_payload_identity & [= <-]). simpl.
    unfold validate_envelope in Hv. repeat (split_match_in Hv; try done); bool_hyps; split; congruence.
  - unfold apply_first in H. destruct (ev_payload e); try discriminate H. by injection H as <-.
Qed.

Lemma history_identity ws run (db : RunDb L) es e :
  history ws run db es -> e ∈ es -> ev_workspace_id e = ws /\ ev_run_id e = run.
Proof.
  intros [Hr _ _ _] [i Hi]%list_elem_of_lookup. destruct (Forall2_lookup_r _ _ _ _ _ Hr Hi) as (row & Hrow & Hd).
  apply envelope_of_row_key in Hd as (_ & -> & ->). apply list_elem_of_lookup_2, list_elem_of_In in Hrow.
  apply filter_In in Hrow as [_ Hrow]. unfold row_of_run in Hrow. by bool_hyps.
Qed.

Lemma replay_identity ws run (db : RunDb L) es n s :
  history ws run db es -> replay (take n es) = Ok (Some s) -> rs_id s = run /\ rs_workspace_id s = ws.
Proof.
  intros Hh Hr. destruct (take n es) as [|e l _] eqn:E using rev_ind; [done|]. unfold replay in Hr.
  rewrite replay_from_app in Hr. apply bind_Ok in Hr as (st & _ & (s1 & Ha & [= ->])%bind_Ok).
  apply applied_identity in Ha as [-> ->]. destruct (history_identity _ _ _ _ e Hh) as [-> ->]; [|done].
  apply (subseteq_take n es). rewrite E. set_solver.
Qed.

(** ** Writing *)

Lemma upsert_row duplicate principal f p (db db' : RunDb L) :
  upsert duplicate principal f p db = Ok db' ->
  rd_runs db' !! ar_id p =
    Some (row_of_projection (match rd_runs db !! ar_id p with Some old => f (ag_principal_id old) | None => principal end) p).
Proof.
  unfold upsert. intros (_ & _ & H)%bind_Ok. destruct (negb (run_checks p)); [done|].
  destruct (rd_runs db !! ar_id p) as [old|].
  - destruct (_ !== _); [done|]. cbv zeta in H. destruct (negb (principal_ok _ _ _)); [done|]. injection H as <-. apply lookup_insert_eq.
  - destruct (negb (principal_ok _ _ _)); [done|]. injection H as <-. apply lookup_insert_eq.
Qed.

Lemma history_version ctx run w es : run_history ctx run w es ->
  version_at (w_db w) (rc_workspace_id ctx, run) = Z.of_nat (length es).
Proof.
  intros [_ _ Hh _]. unfold version_at. destruct (rd_streams (w_db w) !! _); simpl; [done|]. by subst es.
Qed.

Lemma take_full {A} n (l : list A) : Z.of_nat (length l) = n -> take (Z.to_nat n) l = l.
Proof. intros <-. rewrite Nat2Z.id. apply take_ge. done. Qed.

(** C11.  A restored run is exactly what its events replay to, whatever checkpoints are stored, whatever other
    programs append, commit or checkpoint meanwhile: when [restore] answers a state,
    the events up to its version replay to it, and it is no older than the stream was at the start. *)
Theorem restored_run_is_replayed ctx run w s w' es :
  runs (restore ctx run) w (Ok s) w' -> run_history ctx run w es ->
  exists l, run_history ctx run w' (es ++ l) /\ replay (take (Z.to_nat (rs_version s)) (es ++ l)) = Ok (Some s) /\
    (Z.of_nat (length es) <= rs_version s <= Z.of_nat (length (es ++ l)))%Z.
Proof. apply restore_runs. Qed.

(** C20.  A rebuilt projection is the current one: when [rebuild_projection] answers, the row of [agent_runs] is the
    projection of the replay of the run's whole stream at that moment, with the principal of its creation. *)
Theorem rebuilt_projection_is_current ctx run w p w' es :
  runs (rebuild_projection ctx run) w (Ok p) w' -> run_history ctx run w es ->
  exists l s, run_history ctx run w' (es ++ l) /\ replay (es ++ l) = Ok (Some s) /\ p = project_run s /\
    rd_runs (w_db w') !! run = Some (row_of_projection (rs_principal_id s) p).
Proof.
  unfold rebuild_projection. intros H Hes. apply runs_bind in H as (s & w1 & Hr & H).
  apply (restore_runs _ _ _ _ _ es) in Hr as (l & Hl & Hr & Hb); [|done].
  apply runs_bind in H as (head & w2 & Hh & H). apply (stream_head_runs _ _ _ _ _ (es ++ l)) in Hh as (l2 & Hl2 & Hhead); [|done].
  apply runs_bind in H as ([] & w3 & [Hv%verify_Ok ->]%runs_lift & H).
  apply runs_bind in H as ([] & w4 & Hc & [[= ->] ->]). destruct (runs_history _ _ _ _ _ _ _ Hc Hl2) as [l3 Hl3].
  apply runs_call in Hc as (w5 & He & Ha). cbn [answer] in Ha. unfold writes, no_answer in Ha.
  destruct (replace_projection _ _ _ _) as [db|] eqn:E; [|done]. injection Ha as <-.
  apply replace_projection_Ok in E as (Hver & _ & _ & _ & E). pose proof (upsert_same _ _ _ _ _ _ E) as (Hs & Hev & _).
  apply upsert_row in E.
  destruct (replay_identity _ _ _ _ _ _ Hl Hr) as [Hid Hws]. cbn [project_run ar_id ar_coordinator_snapshot_id] in *. rewrite Hid in *.
  assert (Hlen : Z.of_nat (length (((es ++ l) ++ l2) ++ l3)) = rs_version s).
  { rewrite <-(history_version _ _ _ _ Hl3), <-Hv in *. unfold version_at in *. simpl. by rewrite Hs. }
  assert (l2 = [] /\ l3 = []) as [-> ->].
  { rewrite !length_app in *. split; apply length_zero_iff_nil; lia. }
  rewrite !app_nil_r in *. exists l, s. split_and!; try done.
  - by rewrite (take_full _ _ Hlen) in Hr.
  - simpl. rewrite E. by destruct (rd_runs (w_db w5) !! run).
Qed.

(** Startup recovery does to a run what its classification asks for, and rebuilds nothing it classified as unsafe. *)
Theorem recovery_follows_classification ctx c w o w' :
  runs (recover_candidate ctx c) w (Ok o) w' ->
  outcome_action o = expected_action (classify_recovery (su_target c)) /\
  (o <> Restored -> o <> RetryReady -> w' = w).
Proof.
  unfold recover_candidate. intros H. destruct (classify_recovery (su_target c));
    first [apply runs_bind in H as (p & w1 & _ & H)|idtac]; destruct H as [[= ->] ->]; done.
Qed.

(** ** Commands *)

Lemma envelopes_of_runs c at_ v pending w es w' :
  runs (envelopes_of c at_ v pending) w (Ok es) w' -> w' = w /\ ev_payload <$> es = pending_event <$> pending.
Proof.
  revert v w es w'. induction pending as [|p rest IH]; intros v w es w'; cbn [envelopes_of]; [by intros [[= ->] ->]|].
  intros (v1 & w1 & [_ ->]%runs_lift & (id & w2 & [u [[= <-] ->]] & (l & w3 & [-> Hl]%IH & [[= ->] ->])%runs_bind)%runs_bind)%runs_bind.
  split; [done|]. cbn. by f_equal.
Qed.

Lemma replay_None es : replay es = Ok None -> es = [].
Proof.
  unfold replay. destruct es as [|e es]; [done|]. cbn [replay_from]. intros (s & _ & H)%bind_Ok. exfalso. revert s H.
  induction es as [|e' es IH]; intros s; cbn [replay_from]; [done|]. intros (s' & _ & H)%bind_Ok. by eapply IH.
Qed.

Lemma decide_version es st c l : replay es = Ok st -> decide st c = Ok l -> expected_version c = Z.of_nat (length es).
Proof.
  intros Hr Hd%decide_Ok. destruct st as [s|].
  - destruct Hd as [-> _]. by apply replay_shape in Hr as [_ ->].
  - destruct Hd as [-> _]. by apply replay_None in Hr as ->.
Qed.

(** A commit is refused unless the stream is at the version it expects. *)
Lemma commit_needs_version ctx run v events p w :
  version_at (w_db w) (rc_workspace_id ctx, run) <> v -> is_ok (answer resolve (RCommit ctx run v events p) w).1 = false.
Proof.
  intros Hne. cbn [answer]. unfold writes. destruct (commit_on _ _ _ _ _ _ _) as [[v' db]|] eqn:E; [|done].
  apply commit_on_Ok in E as [H _]. by apply ap_version in H.
Qed.

(** Reading a projected row gives the projection back, without the step it is at. *)
Lemma projection_reads_back ctx principal s (db : RunDb L) :
  (1 <= rs_version s)%Z -> rs_workspace_id s = rc_workspace_id ctx ->
  rd_runs db !! rs_id s = Some (row_of_projection principal (project_run s)) ->
  find_by_id ctx (rs_id s) db = Ok (Some (run_set_current_step None (project_run s))).
Proof.
  intros Hv Hw Hr. unfold find_by_id. rewrite Hr. cbn [row_of_projection project_run ag_workspace_id ar_workspace_id].
  rewrite Hw, eqb_refl. unfold run_of_agent_row, PgRunStore.parse_status, parse_execution_mode.
  cbn [row_of_projection project_run ag_status ag_run_version ag_execution_mode ar_status ar_version ar_execution_mode].
  rewrite status_roundtrip, mode_roundtrip. cbn [ok_or mbind result_bind]. destruct (version_decode (rs_version s) Hv) as [-> Hn].
  cbn [mbind result_bind]. rewrite Hn. done.
Qed.

Lemma single {A} (l : list A) : length l = 1%nat -> exists x, l = [x].
Proof. destruct l as [|x [|]]; try done. by eauto. Qed.

(** C10.  An executed command is recorded once, with its projection: when [execute] answers, exactly one event was
    appended, the one decided on the very history it follows; the run's whole stream replays, the row of
    [agent_runs] is the projection of that replay and reads back as it, but for the current step; and no command of
    the same version is ever committed again. *)
Theorem executed_command_is_recorded ctx c w p events w' es (run := cmd_run_id c) :
  runs (execute ctx c) w (Ok (p, events)) w' -> run_history ctx run w es ->
  exists l st pending e s,
    replay (es ++ l) = Ok st /\ decide st c = Ok [pending] /\ events = [e] /\ ev_payload e = pending_event pending /\
    run_history ctx run w' ((es ++ l) ++ [e]) /\ replay ((es ++ l) ++ [e]) = Ok (Some s) /\ p = project_run s /\
    (exists principal, rd_runs (w_db w') !! run = Some (row_of_projection principal p)) /\
    find_by_id ctx run (w_db w') = Ok (Some (run_set_current_step None p)) /\
    forall w2 events' p', env w' w2 ->
      is_ok (answer resolve (RCommit ctx run (expected_version c) events' p') w2).1 = false.
Proof.
  unfold execute. intros H Hes. subst run. apply runs_bind in H as ([] & w1 & [Hctx ->]%runs_lift & H).
  apply runs_bind in H as (stored & w1 & Ha & H). destruct (runs_history _ _ _ _ _ _ _ Ha Hes) as [l Hl].
  apply runs_call in Ha as (w2 & _ & Ha). cbn [answer] in Ha. unfold reads in Ha. injection Ha as Hst ->.
  rewrite (load_events_history _ _ _ _ Hl) in Hst. injection Hst as <-.
  apply runs_bind in H as (st & w2' & [Hr%map_err_Ok ->]%runs_lift & H).
  apply runs_bind in H as (pending & w3 & [Hd%map_err_Ok ->]%runs_lift & H).
  apply runs_bind in H as ([] & w3 & [_ ->]%runs_lift & H). apply runs_bind in H as (now & w3' & (t & _ & Hw) & Hc). subst w3'.
  apply runs_bind in Hc as (envs & w3 & [-> Hen]%envelopes_of_runs & H).
  apply runs_bind in H as (o & w3 & [Hrs%map_err_Ok ->]%runs_lift & H).
  apply runs_bind in H as (s & w3 & [->%ok_or_Ok ->]%runs_lift & H).
  apply runs_bind in H as (v & w3 & Hc & H). destruct (_ =? _)%Z; [|by destruct H]. cbn [negb] in H. destruct H as [[= -> ->] ->].
  pose proof (decide_version _ _ _ _ Hr Hd) as Hver.
  assert (exists pe, pending = [pe]) as [pe ->].
  { apply decide_Ok in Hd. destruct st; [destruct Hd as [_ (_ & _ & _ & e & _ & ->)%decide_existing_Ok]|destruct Hd as (_ & x & y & _ & -> & _)];
      unfold one; by eauto. }
  destruct (single envs) as [e ->]; [by rewrite <-(length_fmap ev_payload), Hen|]. injection Hen as Hen.
  apply runs_call in Hc as (w4 & He & Ha). destruct (g_history _ _ (env_grows _ _ _ He) _ _ _ Hl) as [l2 Hl2].
  cbn [answer] in Ha. unfold writes in Ha. destruct (commit_on _ _ _ _ _ _ _) as [[v1 db]|] eqn:E; [|done]. injection Ha as -> <-.
  apply commit_on_Ok in E as (Hap & _ & _ & _ & Hid & _ & (ex & s2 & Hex & Hrep & Hp) & db1 & Hdb1 & _ & Hu).
  assert (l2 = []) as ->.
  { apply ap_version in Hap. pose proof (history_version ctx (cmd_run_id c) w4 _ Hl2) as Hv2.
    rewrite Hap, Hver, !length_app in Hv2. apply length_zero_iff_nil. lia. }
  rewrite app_nil_r in Hl2. rewrite (load_events_history _ _ _ _ Hl2) in Hex. injection Hex as <-.
  pose proof (history_appended _ _ _ _ _ _ _ _ Hap Hl2) as Hfin. rewrite bool_decide_true in Hfin by done.
  assert (Hs : s2 = s). { unfold replay in *. rewrite replay_from_app, Hr in Hrep. cbn [mbind result_bind] in Hrep. congruence. }
  subst s2. apply upsert_row in Hu.
  assert (Hids : rs_id s = cmd_run_id c /\ rs_workspace_id s = rc_workspace_id ctx).
  { apply (replay_identity _ _ _ _ (length ((es ++ l) ++ [e])) s Hfin). by rewrite firstn_all. }
  exists l, st, pe, e, s. split_and!; try done.
  - rewrite Hid in Hu. eexists. exact Hu.
  - destruct Hids as [<- Hw]. eapply projection_reads_back; [|done|exact Hu]. apply replay_shape in Hrep as [_ ->].
    rewrite length_app. simpl. lia.
  - intros w5 events' p' Henv. apply commit_needs_version.
    destruct (g_history _ _ (env_grows _ _ _ Henv) _ _ _ Hfin) as [l3 Hl3].
    rewrite (history_version ctx (cmd_run_id c) w5 _ Hl3), Hver, !length_app. simpl. lia.
Qed.

(** ** Checkpoints *)

Abbreviation exec := (exec_run resolve).

Lemma replay_through_exec ctx run v w es s now n :
  run_history ctx run w es -> (v <= isize_max)%Z -> replay (take (Z.to_nat v) es) = Ok (Some s) ->
  exec now n w (replay_through ctx run v) = (Ok s, n, w).
Proof.
  intros Hh Hv Hr. unfold replay_through. rewrite exec_mbind, exec_call. cbn [answer reads fst snd].
  destruct (load_events_through_history _ _ v _ _ Hh Hv) as (evs & -> & Ha). rewrite exec_mbind, exec_lift.
  unfold replay in *. by rewrite (replay_from_alike _ _ None Ha), Hr.
Qed.

Lemma validate_loaded_exec ctx run c w es now n :
  run_history ctx run w es -> validate_checkpoint_structure ctx run c = Ok tt -> (sc_sequence c <= isize_max)%Z ->
  replay (take (Z.to_nat (sc_sequence c)) es) = Ok (Some (sc_state c)) ->
  exec now n w (validate_loaded_checkpoint ctx run c) = (Ok c, n, w).
Proof.
  intros Hh Hs Hm Hr. unfold validate_loaded_checkpoint. rewrite exec_mbind, exec_lift, Hs.
  rewrite exec_mbind, (replay_through_exec _ _ _ _ _ _ _ _ Hh Hm Hr). by rewrite eqb_refl.
Qed.

(** A checkpoint the store decodes has the structure the service asks for. *)
Lemma checkpoint_structure ctx run sequence (row : StateRow L) c :
  checkpoint_of_state_row (rc_workspace_id ctx) run sequence row = Ok c ->
  validate_checkpoint_structure ctx run c = Ok tt /\ sc_sequence c = sequence.
Proof.
  unfold checkpoint_of_state_row. intros (v & [-> _]%version_from_database_Ok' & H)%bind_Ok.
  destruct (_ =? RunVersion_ZERO)%Z; [done|]. apply bind_Ok in H as (fv & _ & H).
  destruct (fv =? RUN_CHECKPOINT_FORMAT_VERSION)%Z eqn:Ef; [|done]. cbn [negb] in H.
  apply bind_Ok in H as (st & _ & ([] & Hi & [= <-])%bind_Ok).
  unfold validate_checkpoint_identity in Hi. unfold validate_checkpoint_structure. cbn in *. rewrite Ef in *. cbn [negb] in *.
  destruct (_ || _) eqn:E in Hi; [done|]. destruct (hash_run_state st !== sr_state_hash row); [done|].
  bool_hyps. subst. rewrite !eqb_refl. cbn [negb orb].
  repeat match goal with Hx : rs_id st = _ |- _ => rewrite Hx | Hx : rs_workspace_id st = _ |- _ => rewrite Hx | Hx : rs_version st = _ |- _ => rewrite Hx end.
  by rewrite !eqb_refl, Z.eqb_refl.
Qed.

(** The row written for a checkpoint decodes to it. *)
Lemma state_row_decodes c :
  validate_checkpoint_identity c = Ok tt -> (0 <= sc_sequence c)%Z ->
  checkpoint_of_state_row (sc_workspace_id c) (sc_run_id c) (sc_sequence c)
    (mkStateRow (sc_format_version c) (sc_state_hash c) (to_value (sc_state c)) (sc_created_at c)) = Ok c.
Proof.
  intros Hi Hs. unfold checkpoint_of_state_row. rewrite version_from_database_nonneg by done. cbn [mbind result_bind].
  cbn [sr_format_version sr_state_hash sr_state sr_created_at]. rewrite from_to_value.
  pose proof Hi as Hi'. unfold validate_checkpoint_identity in Hi'.
  destruct (Z.eqb_spec (sc_format_version c) RUN_CHECKPOINT_FORMAT_VERSION) as [Hf|]; [|done]. cbn [negb] in Hi'.
  destruct (sc_sequence c =? RunVersion_ZERO)%Z; [done|]. rewrite Hf.
  cbn [try_unsigned RUN_CHECKPOINT_FORMAT_VERSION Z.ltb Z.compare mbind result_bind Z.eqb Pos.eqb negb ok_or].
  destruct c as [a b d f g h i].
  cbn [sc_workspace_id sc_run_id sc_sequence sc_format_version sc_state_hash sc_state sc_created_at] in *. subst f.
  by rewrite Hi.
Qed.

(** C21.  A checkpoint stays valid: once [create_checkpoint] answered, whatever other programs do afterwards,
    [validate_checkpoint] of that position answers the same checkpoint. *)
Theorem checkpoint_stays_valid ctx run w c w1 w2 es now n :
  runs (create_checkpoint ctx run) w (Ok c) w1 -> run_history ctx run w es -> env w1 w2 ->
  (exec now n w2 (validate_checkpoint ctx run (sc_sequence c))).1.1 = Ok c.
Proof.
  unfold create_checkpoint. intros H Hes Henv. apply runs_bind in H as (head & w3 & Hh & H).
  apply (stream_head_runs _ _ _ _ _ es) in Hh as (l & Hl & Hhead); [|done].
  apply runs_bind in H as (s & w4 & Hr & H). apply (replay_through_runs _ _ _ _ _ _ (es ++ l)) in Hr as (Hm & l2 & Hl2 & Hr); [|done].
  apply runs_bind in H as ([] & w5 & [Hv%verify_Ok ->]%runs_lift & (t & w6 & [t' [_ ->]] & H)%runs_bind).
  apply runs_bind in H as ([] & w7 & Hs & [[= ->] ->]). pose proof (runs_grows _ _ _ _ _ Hs) as Hg1.
  apply runs_call in Hs as (w8 & _ & Ha). cbn [answer] in Ha. unfold writes, no_answer in Ha.
  set (c := mkStateCheckpoint _ _ _ _ _ _ _) in *. destruct (save_checkpoint ctx c (w_db w8)) as [db|] eqn:E; [|done]. injection Ha as <-.
  apply save_checkpoint_Ok in E as (_ & _ & _ & Hw & _ & row & Hrow & Hcase).
  assert (Hdec : checkpoint_of_state_row (rc_workspace_id ctx) run (sc_sequence c) row = Ok c).
  { destruct Hcase as [->|Hc]; [|done]. unfold validate_checkpoint_for_write in Hw. destruct (_ !== _); [done|].
    apply (state_row_decodes c); [done|]. cbn. lia. }
  pose proof (env_grows _ _ _ Henv) as Hg2. pose proof (lookup_weaken _ _ _ _ Hrow (g_checkpoints _ _ Hg2)) as Hrow2.
  assert (Hg : grows (w_db w4) (w_db w2)) by (by etrans).
  destruct (g_history _ _ Hg _ _ _ Hl2) as [l3 Hl3]. unfold validate_checkpoint. rewrite exec_mbind, exec_call. cbn [answer reads fst snd].
  unfold load_checkpoint, version_to_database. cbn [c sc_sequence] in *. rewrite (proj2 (Z.ltb_ge _ _)) by lia. cbn [mbind result_bind].
  cbn [c sc_workspace_id sc_run_id] in Hrow2. rewrite Hrow2, Hdec. cbn [mbind result_bind]. rewrite exec_mbind, exec_lift.
  cbn [ok_or]. apply checkpoint_structure in Hdec as [Hst _].
  rewrite (validate_loaded_exec _ _ _ _ _ _ _ Hl3 Hst); [done|cbn; lia|].
  cbn [c sc_sequence sc_state]. rewrite Hv. rewrite take_app_le; [done|]. rewrite length_app. lia.
Qed.

(** Recovery does not fail on a sound history: when the run's events replay and its newest checkpoint, if
    any, is the state at its position, [restore] answers the replayed state. *)
Theorem sound_history_is_restored ctx run w es s o now n :
  run_history ctx run w es -> replay es = Ok (Some s) -> load_latest_checkpoint ctx run (w_db w) = Ok o ->
  (forall c, o = Some c -> replay (take (Z.to_nat (sc_sequence c)) es) = Ok (Some (sc_state c))) ->
  (exec now n w (restore ctx run)).1.1 = Ok s.
Proof.
  intros Hh Hr Ho Hc. destruct (replay_shape _ _ Hr) as [_ Hver]. unfold restore, stream_head.
  assert (Hhd : load_head ctx run (w_db w) = Ok (Some (rs_version s))).
  { unfold load_head. pose proof (h_head _ _ _ _ Hh) as Hv. destruct (rd_streams (w_db w) !! _) as [v|]; [|by subst es].
    rewrite version_from_database_nonneg by lia. simpl. by rewrite Hv, Hver. }
  rewrite !exec_mbind, exec_call. cbn [answer reads fst snd]. rewrite Hhd, exec_lift. cbn [ok_or].
  rewrite exec_mbind, exec_call. cbn [answer reads fst snd]. rewrite Ho. pose proof (h_bound _ _ _ _ Hh) as Hb.
  assert (Hfull : take (Z.to_nat (rs_version s)) es = es) by (by apply take_full).
  assert (Hverify : verify_restored_head s (rs_version s) = Ok tt) by (unfold verify_restored_head; by rewrite Z.eqb_refl).
  destruct o as [c|]; cbn [opt_filter].
  2:{ rewrite exec_mbind, (replay_through_exec ctx run _ _ es s) by (done || lia || by rewrite Hfull).
      by rewrite exec_mbind, exec_lift, Hverify. }
  specialize (Hc c eq_refl). unfold load_latest_checkpoint in Ho. destruct (latest _ _ _) as [[q row]|]; [|done].
  apply bind_Ok in Ho as (c' & [Hst _]%checkpoint_structure & [= ->]).
  pose proof (replay_shape _ _ Hc) as [_ Hcv]. rewrite length_take in Hcv.
  assert (rs_version (sc_state c) = sc_sequence c) as Hsv.
  { unfold validate_checkpoint_structure in Hst. repeat (split_match_in Hst; try done). by bool_hyps. }
  rewrite (proj2 (Z.leb_le _ _)) by lia. unfold restore_from_checkpoint. rewrite (proj2 (Z.ltb_ge _ _)) by lia.
  rewrite exec_mbind, (validate_loaded_exec _ _ _ _ _ _ _ Hh Hst) by (done || lia).
  rewrite exec_mbind, exec_call. cbn [answer reads fst snd].
  destruct (load_events_after_history _ _ (sc_sequence c) _ _ Hh) as (tail & -> & Ha); [lia|]. rewrite exec_mbind, exec_lift.
  assert (Hct : counts ev_sequence (sc_sequence c) tail).
  { apply (alike_counts _ _ _ Ha). replace (sc_sequence c) with (0 + Z.of_nat (Z.to_nat (sc_sequence c)))%Z at 1 by lia.
    apply counts_drop, (h_counts _ _ _ _ Hh). }
  rewrite (counts_through ev_sequence _ _ _ Hct) by lia.
  assert (Hall : apply_all (sc_state c) (take (Z.to_nat (rs_version s - sc_sequence c)) tail) = Ok s).
  { apply replay_apply_all. rewrite <-Hfull, (replay_split (Z.to_nat (sc_sequence c)) _ es (sc_state c)) in Hr by (done || lia).
    rewrite <-Hr. replace (Z.to_nat (rs_version s) - Z.to_nat (sc_sequence c))%nat with (Z.to_nat (rs_version s - sc_sequence c)) by lia.
    apply replay_from_alike. by apply Forall2_take. }
  rewrite Hall, exec_mbind, exec_lift, Hverify. done.
Qed.

End Recovery.

(** ** A concrete run *)

Module RecoveryExample.
Import Toy.
Local Open Scope Z_scope.

(** Leaves hold the values they were made from. *)
Inductive Leaf : Type :=
| LeafState (s : RunState)
| LeafActor (a : RunActor)
| LeafEvent (e : LegacyRunEvent)
| LeafResult (r : RunTerminalResult)
| LeafActorRef (a : RunActorRef)
| LeafReferences (l : list RunReference)
| LeafFailure (f : RunFailure)
| LeafCheckpoint (p : RunCheckpointPayloadV1)
| LeafNumber (n : Z).

#[export] Instance legacy_serde : LegacySerde Leaf := {|
  legacy_content e := VScalar (LeafEvent e);
  legacy_variant tag content :=
    match content with
    | Some (VScalar (LeafEvent e)) => Some e
    | Some _ => None
    | None => assoc [("prepared", EvPrepared); ("started", EvStarted); ("resumed", EvResumed); ("paused", EvPaused);
                     ("expired", EvExpired)]%string tag
    end |}.
#[export] Instance legacy_serde_ok : LegacySerdeOk Leaf.
Proof. intros e. by destruct e. Qed.

#[export] Instance actor_serde : Serde (Value Leaf) RunActor :=
  {| to_value a := VScalar (LeafActor a); from_value v := match v with VScalar (LeafActor a) => Some a | _ => None end |}.
#[export] Instance actor_serde_ok : SerdeOk (Value Leaf) RunActor.
Proof. done. Qed.
#[export] Instance state_serde : Serde (Value Leaf) RunState :=
  {| to_value s := VScalar (LeafState s); from_value v := match v with VScalar (LeafState s) => Some s | _ => None end |}.
#[export] Instance state_serde_ok : SerdeOk (Value Leaf) RunState.
Proof. done. Qed.
#[export] Instance state_bytes_example : StateBytes := fun s => be_bytes 8 (rs_version s).

Definition ctx : RequestContext := mkContext 1 2 10 3.
Definition no_binding : RequestContext -> AgentRunId -> result ApplicationError unit := fun _ _ => Ok tt.
Definition command_at (v : RunVersion) (c : RunCommand) : RunCommandEnvelope :=
  mkCommand 90 None 10 100 (Principal 3) v 91 (5000 + 1000 * v) c.

Definition empty : RunWorld Leaf := mkWorld (mkRunDb ∅ [] ∅ ∅ {[3]} 4000) ∅ [].
Definition after_command (w : RunWorld Leaf) (c : RunCommandEnvelope) : RunWorld Leaf :=
  (exec_run no_binding 7000 (1000 + expected_version c) w (execute ctx c)).2.
Definition created : RunWorld Leaf := after_command empty (command_at 0 (CmdCreate 3 (text_of " report "))).
Definition prepared : RunWorld Leaf := after_command created (command_at 1 CmdPrepare).

(** A checkpoint of the prepared run, and a later start. *)
Definition saved : RunWorld Leaf := (exec_run no_binding 8999 2000 prepared (create_checkpoint ctx 100)).2.
Definition started : RunWorld Leaf := after_command saved (command_at 2 CmdStart).

Definition stream_of (w : RunWorld Leaf) : list LegacyRunEventEnvelope :=
  match load_events ctx 100 (w_db w) with Ok es => es | Err _ => [] end.

Definition rebuilt : RunWorld Leaf := (exec_run no_binding 7000 1000 started (rebuild_projection ctx 100)).2.

Definition prepare : RunCommandEnvelope := command_at 1 CmdPrepare.
Definition created_stream : list LegacyRunEventEnvelope := Eval vm_compute in stream_of created.
Definition prepared_stream : list LegacyRunEventEnvelope := Eval vm_compute in stream_of prepared.
Definition started_stream : list LegacyRunEventEnvelope := Eval vm_compute in stream_of started.

Definition started_state : RunState := Eval vm_compute in RunExample.state_of started_stream.
Definition prepared_state : RunState := Eval vm_compute in RunExample.state_of prepared_stream.
Definition checkpoint : StateCheckpoint :=
  mkStateCheckpoint 10 100 2 1 (hash_run_state prepared_state) prepared_state 8000.

Ltac history_now :=
  split; [apply collect_Forall2; by vm_compute|repeat (apply counts_cons; split; [by vm_compute|]); by intros ??|by vm_compute|by vm_compute].

Lemma created_history : run_history ctx 100 created created_stream.
Proof. history_now. Qed.
Lemma prepared_history : run_history ctx 100 prepared prepared_stream.
Proof. history_now. Qed.
Lemma started_history : run_history ctx 100 started started_stream.
Proof. history_now. Qed.

End RecoveryExample.


Section Instances.
Import Toy RecoveryExample.
Local Open Scope Z_scope.

Lemma restored_run_is_replayed_at_started :
  exists l, run_history ctx 100 started (started_stream ++ l) /\
    replay (take (Z.to_nat (rs_version started_state)) (started_stream ++ l)) = Ok (Some started_state) /\
    3 <= rs_version started_state <= Z.of_nat (length (started_stream ++ l)).
Proof.
  apply (restored_run_is_replayed no_binding ctx 100 started started_state started started_stream); [|apply started_history].
  apply (exec_run_runs no_binding 7000 1000 started _ _ 1000). by vm_compute.
Defined.

Lemma rebuilt_projection_is_current_at_started :
  exists l s, run_history ctx 100 rebuilt (started_stream ++ l) /\ replay (started_stream ++ l) = Ok (Some s) /\
    project_run started_state = project_run s /\
    rd_runs (w_db rebuilt) !! 100 = Some (row_of_projection (rs_principal_id s) (project_run started_state)).
Proof.
  apply (rebuilt_projection_is_current no_binding ctx 100 started); [|apply started_history].
  apply (exec_run_runs no_binding 7000 1000 started _ _ 1000). by vm_compute.
Defined.

Lemma executed_command_is_recorded_at_prepare :
  is_ok (answer no_binding (RCommit ctx 100 1 (drop 1 prepared_stream) (project_run prepared_state)) started).1 = false.
Proof.
  destruct (executed_command_is_recorded no_binding ctx prepare created
    (project_run prepared_state) (drop 1 prepared_stream) prepared created_stream)
    as (l & st & pe & e & s & _ & _ & _ & _ & _ & _ & _ & _ & _ & Hno).
  - apply (exec_run_runs no_binding 7000 1001 created _ _ 1002). by vm_compute.
  - apply created_history.
  - apply Hno. transitivity saved; apply exec_run_env.
Defined.

Lemma checkpoint_stays_valid_at_started :
  (exec_run no_binding 9000 0 started (validate_checkpoint ctx 100 2)).1.1 = Ok checkpoint.
Proof.
  apply (checkpoint_stays_valid no_binding ctx 100 prepared checkpoint saved started prepared_stream).
  - apply (exec_run_runs no_binding 8999 2000 prepared _ _ 2000). by vm_compute.
  - apply prepared_history.
  - apply exec_run_env.
Defined.

Lemma sound_history_is_restored_at_started : (exec_run no_binding 9000 0 started (restore ctx 100)).1.1 = Ok started_state.
Proof.
  apply (sound_history_is_restored no_binding ctx 100 started started_stream started_state (Some checkpoint)).
  - apply started_history.
  - by vm_compute.
  - by vm_compute.
  - intros c [= <-]. by vm_compute.
Defined.

End Instances.
