(* ===== verification/SharedRunTables.v ===== *)
(** * Both run engines on the same tables

    The coordinator's store ([PgRunStore], with the leases of [RunWorker]) and the legacy engine
    ([RunRows], [RunServices]) keep their events in the same [run_events], [run_streams] and
    [run_checkpoints].  Here the tables of the coordinator are seen with the rows the legacy writers
    added beside them: what startup recovery makes of a coordinator run, and what an event that is
    delivered to one does to its later commits. *)

From Stdlib Require Import ZArith Lia String.
From stdpp Require Import base option numbers strings gmap sorting relations list.
From S2P Require Import Prelude Codec Crypto Text RunStatus RunDecider RunDeciderSpec AgentRun RunReplay.
From S2P Require Import RunPorts RunCoordinator RunStore WorkQueue PgRunStore PgRunStoreProps RunWorker.
From S2P Require Import RunConcurrency RunConcurrencyProps RunCoordinatorProps RunSystem RunCoordinatorSpec.
From S2P Require Import RunEventStore RunRows RunCommitter RunServices RunWorld RunHistory RunRecoverySpec.

(** [serde_json::Value::to_string] as bytes: what the coordinator hashes of a checkpoint. *)
Class ValueBytes (L : Type) : Type := value_bytes : Value L -> bytes.

(** ** The view *)

Section View.
Context {L : Type} {PF : PayloadFields L} {SA : Serde (Value L) RunActor} {SR : Serde (Value L) RunActorRef}
  {SHA : Sha256} {VB : ValueBytes L}.

(** Columns the coordinator's store writes that its model does not keep: when an event was inserted
    and the principal a run was created by.  [principals] are the principals there are. *)
Record Columns : Type := mkColumns {
  inserted_at : RunEvent -> Timestamp;
  created_by : AgentRunId -> PrincipalId;
  principals : gset Z;
}.

Definition state_row (r : RunCheckpointRow (Value L)) : StateRow L :=
  mkStateRow RUN_CHECKPOINT_FORMAT_VERSION (sha256 (value_bytes (cw_state r))) (cw_state r) (cw_created_at r).

Definition run_row (cols : Columns) (id : AgentRunId) (r : AgentRunRow (Value L)) : RunRow :=
  mkRow (rw_workspace_id r) (created_by cols id) (rw_objective r) (rw_objective r) (rw_coordinator_snapshot_id r)
    (rw_execution_mode r) (rw_status r) (rw_run_version r) (default id (rw_root_run_id r)) (rw_created_at r)
    (rw_updated_at r) (rw_finished_at r).

Definition event_rows (cols : Columns) (t : Tables (Value L)) : list (EventRow L) :=
  (fun x => row_of_event (inserted_at cols x.2) x.1 x.2) <$> t_events t.

(** The tables as the legacy engine finds them; [legacy] are the rows its own writers inserted. *)
Definition shared_db (cols : Columns) (t : Tables (Value L)) (legacy : list (EventRow L)) : RunDb L :=
  mkRunDb (t_streams t) (event_rows cols t ++ legacy) (state_row <$> t_checkpoints t)
    (map_imap (fun id r => Some (run_row cols id r)) (t_runs t)) (principals cols) (t_now t).

Definition shared_world (cols : Columns) (d : Db (Value L)) (legacy : list (EventRow L))
    (observed : list RecoveryQualificationEvidence) : RunWorld L :=
  mkWorld (shared_db cols (db_tables d) legacy) (db_leases d) observed.

End View.

(** ** Startup recovery and the coordinator's runs *)

Section Startup.
Context {L : Type} {LS : LegacySerde L} {PF : PayloadFields L} {SA : Serde (Value L) RunActor}
  {SR : Serde (Value L) RunActorRef} {SS : Serde (Value L) RunState} {SHA : Sha256} {SB : StateBytes} {VB : ValueBytes L}.
Context (resolve : RequestContext -> AgentRunId -> result ApplicationError unit).
Implicit Types (w : RunWorld L).

Abbreviation exec := (exec_run resolve).

(** The object of a coordinator payload has the tag beside at least one field, so it is not the
    object with one entry an externally tagged [enum] is read from. *)
Lemma payload_is_foreign (p : RunEventPayload) : from_value (A := LegacyRunEvent) (payload_value (L := L) p) = None.
Proof. by destruct p. Qed.

Lemma canonical_row_is_foreign f now ws e : is_ok (envelope_of_row f (row_of_event (L := L) now ws e)) = false.
Proof.
  unfold envelope_of_row. destruct (version_from_database _); [|done]. cbn [mbind result_bind]. destruct (_ =? _)%Z; [done|].
  cbn [row_of_event er_payload]. rewrite payload_is_foreign. by destruct (try_unsigned _).
Qed.

(** No row of the run in [run_events] is one of the legacy engine. *)
Definition canonical (ws : WorkspaceId) (run : AgentRunId) w : Prop :=
  forall f row, row ∈ rd_events (w_db w) -> row_of_run ws run row = true -> is_ok (envelope_of_row f row) = false.

Lemma shared_world_canonical cols (d : Db (Value L)) legacy observed ws run :
  Forall (fun r => row_of_run ws run r = false) legacy -> canonical ws run (shared_world cols d legacy observed).
Proof.
  intros Hl f row Hrow Hof. simpl in Hrow. apply elem_of_app in Hrow as [Hrow|Hrow].
  - apply list_elem_of_fmap in Hrow as (x & -> & _). apply canonical_row_is_foreign.
  - rewrite Forall_forall in Hl. by rewrite (Hl _ Hrow) in Hof.
Qed.

Lemma select_where_elem p ws run (db : RunDb L) row :
  row ∈ select_where p ws run db -> row ∈ rd_events db /\ row_of_run ws run row = true.
Proof.
  unfold select_where, run_rows. rewrite merge_sort_Permutation. intros Hin.
  apply list_elem_of_In, filter_In in Hin as [[Hin Hof]%filter_In _]. split; [by apply list_elem_of_In|done].
Qed.

Lemma canonical_select w p ws run f l :
  canonical ws run w -> collect (envelope_of_row f) (select_where p ws run (w_db w)) = Ok l -> l = [].
Proof.
  intros Hc H. destruct (select_where p ws run (w_db w)) as [|row rows] eqn:E; [by injection H as <-|].
  exfalso. assert (row ∈ select_where p ws run (w_db w)) as [Hin Hof]%select_where_elem by (rewrite E; set_solver).
  pose proof (Hc f row Hin Hof) as Hf. cbn [collect] in H. by destruct (envelope_of_row f row).
Qed.

(** The envelopes of a run's rows name the run. *)
Lemma selected_run p ws run (db : RunDb L) f l :
  collect (envelope_of_row f) (select_where p ws run db) = Ok l -> Forall (fun e => ev_run_id e = run) l.
Proof.
  intros H%collect_Forall2. apply Forall_forall. intros e [i Hi]%list_elem_of_lookup.
  destruct (Forall2_lookup_r _ _ _ _ _ H Hi) as (row & Hrow%list_elem_of_lookup_2 & Hd).
  apply envelope_of_row_key in Hd as (_ & _ & ->). apply select_where_elem in Hrow as [_ Hof]. unfold row_of_run in Hof. by bool_hyps.
Qed.

(** Alone, a program that answers got an answer from each of its parts. *)
Lemma exec_bind_Ok {A B} now n w (f : A -> RM B) (p : RM A) :
  is_ok (exec now n w (p ≫= f)).1.1 = true ->
  exists a n' w', exec now n w p = (Ok a, n', w') /\ is_ok (exec now n' w' (f a)).1.1 = true.
Proof. rewrite exec_mbind. destruct (exec now n w p) as [[[a|e] n'] w']; [|done]. intros H. by exists a, n', w'. Qed.

Lemma replay_through_foreign ctx run v now n w :
  canonical (rc_workspace_id ctx) run w -> is_ok (exec now n w (replay_through ctx run v)).1.1 = false.
Proof.
  intros Hc. destruct (is_ok _) eqn:H; [|done]. apply exec_bind_Ok in H as (es & n1 & w1 & He & H).
  rewrite exec_call in He. cbn [answer reads fst snd] in He. injection He as He _ ->. unfold load_events_through in He.
  apply bind_Ok in He as (x & _ & ->%canonical_select); [|done]. done.
Qed.

Lemma restore_foreign ctx run now n w :
  canonical (rc_workspace_id ctx) run w -> is_ok (exec now n w (restore ctx run)).1.1 = false.
Proof.
  intros Hc. destruct (is_ok _) eqn:H; [|done]. apply exec_bind_Ok in H as (head & n1 & w1 & He & H).
  assert (w1 = w) as ->.
  { unfold stream_head in He. rewrite exec_mbind, exec_call in He. cbn [answer reads fst snd] in He.
    destruct (load_head ctx run (w_db w)); cbn in He; congruence. }
  apply exec_bind_Ok in H as (o & n2 & w2 & He2 & H). rewrite exec_call in He2. cbn [answer reads fst snd] in He2.
  injection He2 as _ _ ->. destruct (opt_filter _ o) as [c|].
  - unfold restore_from_checkpoint in H. destruct (_ <? _)%Z; [done|]. apply exec_bind_Ok in H as (c' & n3 & w3 & He3 & _).
    assert (is_ok (exec now n2 w2 (validate_loaded_checkpoint ctx run c)).1.1 = true) as Hv by by rewrite He3.
    apply exec_bind_Ok in Hv as ([] & n4 & w4 & He4 & Hv). rewrite exec_lift in He4. injection He4 as _ -> ->.
    apply exec_bind_Ok in Hv as (s & n5 & w5 & He5 & _).
    pose proof (replay_through_foreign ctx run (sc_sequence c) now n4 w4 Hc) as Hf. by rewrite He5 in Hf.
  - apply exec_bind_Ok in H as (s & n5 & w5 & He5 & _).
    pose proof (replay_through_foreign ctx run head now n2 w2 Hc) as Hf. by rewrite He5 in Hf.
Qed.

(** Restoring only reads. *)
Definition is_read {R} (c : RunCall R) : bool :=
  match c with
  | RAppend _ _ _ _ | RCommit _ _ _ _ _ | RSave _ _ | RReplace _ _ _ | REvidence _ => false
  | _ => true
  end.

Fixpoint reads_only {A} (p : rprog A) : Prop :=
  match p with
  | RRet _ => True
  | RNow k | RNewId k => forall x, reads_only (k x)
  | RCall c k => is_read c = true /\ forall r, reads_only (k r)
  end.

Lemma reads_only_bind {A B} (p : RM A) (f : A -> RM B) :
  reads_only p -> (forall a, reads_only (f a)) -> reads_only (p ≫= f).
Proof.
  unfold mbind, RM_bind. intros Hp Hf. induction p as [r|k IH|k IH|R c k IH]; simpl in *; try naive_solver. by destruct r.
Qed.

Lemma reads_only_exec {A} now n w (p : rprog A) : reads_only p -> (exec now n w p).2 = w.
Proof.
  revert n. induction p as [r|k IH|k IH|R c k IH]; intros n; simpl; [done|naive_solver..|].
  intros [Hc Hk]. assert (answer resolve c w = ((answer resolve c w).1, w)) as -> by by destruct c. by apply IH.
Qed.

Lemma restore_reads_only ctx run : reads_only (restore ctx run).
Proof.
  assert (Hcall : forall R (c : RunCall R), is_read c = true -> reads_only (rcall c)) by (intros R c Hc; by split).
  assert (Hreplay : forall v, reads_only (replay_through ctx run v)).
  { intros v. repeat (apply reads_only_bind; [by try apply Hcall|intros ?]). done. }
  repeat (apply reads_only_bind; [try (apply reads_only_bind; [by apply Hcall|done]); by apply Hcall|intros ?]).
  destruct (opt_filter _ _) as [c|].
  - unfold restore_from_checkpoint, validate_loaded_checkpoint. destruct (_ <? _)%Z; [done|].
    apply reads_only_bind; [|intros ?; apply reads_only_bind; [by apply Hcall|intros ?]; by repeat (apply reads_only_bind; [done|intros ?])].
    apply reads_only_bind; [done|intros ?]. apply reads_only_bind; [done|intros ?]. by destruct (_ !== _).
  - apply reads_only_bind; [done|intros ?]. by apply reads_only_bind.
Qed.

Lemma rebuild_foreign ctx run now n w :
  canonical (rc_workspace_id ctx) run w -> exists e n', exec now n w (rebuild_projection ctx run) = (Err e, n', w).
Proof.
  intros Hc. unfold rebuild_projection. rewrite exec_mbind.
  pose proof (restore_foreign ctx run now n w Hc) as Hf. pose proof (reads_only_exec now n w _ (restore_reads_only ctx run)) as Hw.
  destruct (exec now n w (restore ctx run)) as [[[s|e] n'] w']; [done|]. simpl in Hw. subst w'. by exists e, n'.
Qed.

(** *** Which run a recovery restores *)

Lemma replayed_run es s run : Forall (fun e => ev_run_id e = run) es -> replay es = Ok (Some s) -> rs_id s = run.
Proof.
  intros Hes Hr. destruct es as [|e l _] using rev_ind; [done|]. unfold replay in Hr.
  rewrite replay_from_app in Hr. apply bind_Ok in Hr as (st & _ & (s1 & Ha & [= ->])%bind_Ok).
  apply applied_identity in Ha as [-> _]. apply Forall_app in Hes as [_ He]. by inversion He.
Qed.

Lemma apply_all_run s es s' run :
  rs_id s = run -> Forall (fun e => ev_run_id e = run) es -> apply_all s es = Ok s' -> rs_id s' = run.
Proof.
  intros Hs Hes. revert s Hs. induction Hes as [|e es He _ IH]; intros s Hs; cbn [apply_all]; [by intros [= <-]|].
  intros (s1 & Ha%map_err_Ok & H)%bind_Ok. apply applied_identity in Ha as [Ha _]. eapply IH; [|done]. congruence.
Qed.

Lemma exec_bind_inv {A B} now n w (f : A -> RM B) (p : RM A) b n2 w2 :
  exec now n w (p ≫= f) = (Ok b, n2, w2) ->
  exists a n1 w1, exec now n w p = (Ok a, n1, w1) /\ exec now n1 w1 (f a) = (Ok b, n2, w2).
Proof. rewrite exec_mbind. destruct (exec now n w p) as [[[a|e] n'] w']; [|done]. intros H. by exists a, n', w'. Qed.

Lemma exec_lift_inv {A} now n w (r : result ApplicationError A) a n' w' :
  exec now n w (rlift r) = (Ok a, n', w') -> r = Ok a /\ n' = n /\ w' = w.
Proof. rewrite exec_lift. by intros [= -> -> ->]. Qed.

Lemma replay_through_run ctx run v now n w s n' w' :
  exec now n w (replay_through ctx run v) = (Ok s, n', w') -> rs_id s = run.
Proof.
  intros (es & n1 & w1 & He & (o & n2 & w2 & [Hr%map_err_Ok _]%exec_lift_inv & [Ho%ok_or_Ok _]%exec_lift_inv)%exec_bind_inv)%exec_bind_inv.
  rewrite exec_call in He. cbn [answer reads fst snd] in He. injection He as He _ _. unfold load_events_through in He.
  apply bind_Ok in He as (x & _ & He%selected_run). subst o. by eapply replayed_run.
Qed.

Lemma restored_run ctx run now n w s n' w' : exec now n w (restore ctx run) = (Ok s, n', w') -> rs_id s = run.
Proof.
  intros (head & n1 & w1 & _ & (o & n2 & w2 & _ & H)%exec_bind_inv)%exec_bind_inv.
  destruct (opt_filter _ o) as [c|].
  - unfold restore_from_checkpoint in H. destruct (_ <? _)%Z; [done|].
    apply exec_bind_inv in H as (c' & n3 & w3 & Hc & (tail & n4 & w4 & Ht & (s1 & n5 & w5 & [Ha _]%exec_lift_inv
      & (u & n6 & w6 & _ & [= <- _ _])%exec_bind_inv)%exec_bind_inv)%exec_bind_inv).
    assert (rs_id (sc_state c') = run) as Hid.
    { apply exec_bind_inv in Hc as ([] & n7 & w7 & [Hv _]%exec_lift_inv & (s2 & n8 & w8 & _ & Hc)%exec_bind_inv).
      destruct (_ !== _); [done|]. cbn in Hc. injection Hc as <- _ _. unfold validate_checkpoint_structure in Hv.
      repeat (split_match_in Hv; try done). by bool_hyps. }
    rewrite exec_call in Ht. cbn [answer reads fst snd] in Ht. injection Ht as Ht _ _. unfold load_events_after in Ht.
    apply bind_Ok in Ht as (x & _ & Ht%selected_run). eapply apply_all_run; [done| |done].
    rewrite Forall_forall in *. intros e He%list_elem_of_In. apply filter_In in He as [He _]. by apply Ht, list_elem_of_In.
  - apply exec_bind_inv in H as (s1 & n3 & w3 & Hr%replay_through_run & (u & n4 & w4 & _ & [= <- _ _])%exec_bind_inv). done.
Qed.

(** *** The sweep *)

(** A run of the workspace whose worker died: not ended, with an expired lease, and with events of the coordinator only. *)
Definition interrupted (ws : WorkspaceId) (id : AgentRunId) w : Prop :=
  (exists row, rd_runs (w_db w) !! id = Some row /\ ag_workspace_id row = ws /\
     any (String.eqb (ag_status row)) TERMINAL_STATUSES = false) /\
  (exists lease, w_leases w !! id = Some lease /\ lr_workspace_id lease = ws /\ (lr_lease_until lease < rd_now (w_db w))%Z) /\
  canonical ws id w.

Section Sweep.
Context (ws : WorkspaceId) (id : AgentRunId).

Lemma rebuild_other ctx run now n w :
  interrupted ws id w -> run <> id -> interrupted ws id (exec now n w (rebuild_projection ctx run)).2.
Proof.
  intros Hi Hne. unfold rebuild_projection. rewrite exec_mbind.
  pose proof (reads_only_exec now n w _ (restore_reads_only ctx run)) as Hw.
  destruct (exec now n w (restore ctx run)) as [[[s|e] n1] w1] eqn:E; simpl in Hw; subst w1; [|done].
  apply restored_run in E. rewrite exec_mbind. unfold stream_head. rewrite exec_mbind, exec_call. cbn [answer reads fst snd].
  destruct (load_head ctx run (w_db w)) as [[head|]|]; cbn [ok_or rlift exec_run]; try done.
  rewrite exec_mbind, exec_lift. destruct (verify_restored_head s head); [|done].
  rewrite exec_mbind, exec_call. cbn [answer]. unfold writes.
  destruct (no_answer _) as [[[] db]|] eqn:Er; [|done]. cbn [fst snd exec_run mret RM_ret].
  unfold no_answer in Er. apply bind_Ok in Er as (db' & Er & [= ->]). unfold replace_projection in Er.
  apply bind_Ok in Er as (v & _ & (v' & _ & Er)%bind_Ok). repeat (split_match_in Er; try done).
  assert (rd_runs db !! id = rd_runs (w_db w) !! id /\ rd_events db = rd_events (w_db w) /\ rd_now db = rd_now (w_db w))
    as (Hr & He & Hn).
  { unfold upsert in Er. apply bind_Ok in Er as (x & _ & Er). repeat (split_match_in Er; try done); injection Er as <-; simpl;
      (rewrite lookup_insert_ne by (simpl; congruence)); done. }
  destruct Hi as (H1 & H2 & H3). unfold interrupted, canonical. simpl. rewrite Hr, He, Hn. done.
Qed.

(** A candidate of a sweep: another run, or this one, as safe to retry. *)
Definition candidate_ok ctx (c : StartupRecoveryCandidate) : Prop :=
  su_run_id c = id -> rc_workspace_id ctx = ws /\ su_target c = StaleLease.

Lemma recover_interrupted ctx c now n w :
  interrupted ws id w -> candidate_ok ctx c ->
  interrupted ws id (exec now n w (recover_candidate ctx c)).2 /\
  (is_ok (exec now n w (recover_candidate ctx c)).1.1 = true -> su_run_id c <> id).
Proof.
  intros Hi Hc. unfold recover_candidate. destruct (base.decide (su_run_id c = id)) as [Heq|Hne].
  - destruct (Hc Heq) as [Hws ->]. cbn [classify_recovery]. rewrite exec_mbind, Heq.
    destruct (rebuild_foreign ctx id now n w) as (e & n' & ->); [rewrite Hws; apply Hi|done].
  - split; [|done]. pose proof (rebuild_other ctx (su_run_id c) now n w Hi Hne) as Hr.
    destruct (su_target c); cbn [classify_recovery]; rewrite ?exec_mbind; try done;
      by destruct (exec now n w (rebuild_projection ctx (su_run_id c))) as [[[p|e] n'] w'].
Qed.

Lemma startup_loop_interrupted ctx cs recs err now n w :
  interrupted ws id w -> Forall (candidate_ok ctx) cs ->
  interrupted ws id (exec now n w (startup_loop ctx cs recs err)).2 /\
  (is_ok (exec now n w (startup_loop ctx cs recs err)).1.1 = true -> forall c, c ∈ cs -> su_run_id c <> id).
Proof.
  intros Hi Hcs. revert recs err n w Hi. induction Hcs as [|c cs Hc _ IH]; intros recs err n w Hi.
  { cbn [startup_loop]. split; [by destruct err|set_solver]. }
  cbn [startup_loop]. rewrite exec_mbind. destruct (recover_interrupted ctx c now n w Hi Hc) as [Hi1 Ht].
  destruct (exec now n w (recover_candidate ctx c)) as [[[o|e] n'] w1]; [|done]. simpl in Hi1, Ht. cbn.
  destruct (any _ (w_observations w1)); cbn; (edestruct IH as [Hs Hn]; [|split; [exact Hs|]]; [done|]);
    intros H c' [->|Hin]%elem_of_cons; eauto.
Qed.

Lemma candidates_ok ctx w :
  interrupted ws id w -> Forall (candidate_ok ctx) (find_startup_recovery_candidates ctx (w_leases w) (w_db w)).
Proof.
  intros ((row & Hrow & Hws & Hst) & (l & Hl & Hlw & Hlt) & _). apply Forall_forall. intros c Hc Hid.
  unfold find_startup_recovery_candidates in Hc. rewrite merge_sort_Permutation in Hc.
  apply elem_of_app in Hc as [Hc|Hc]; apply list_elem_of_fmap in Hc as ([i r] & -> & Hc); simpl in Hid; subst i;
    apply list_elem_of_In, filter_In in Hc as [Hin Hc]; apply list_elem_of_In, elem_of_map_to_list in Hin;
    rewrite Hrow in Hin; injection Hin as <-; unfold stale_lease, unleased_execution in Hc; simpl in Hc;
    apply andb_prop in Hc as [[Hw _]%andb_prop Hc]; rewrite eqb_true in Hw; rewrite Hl in Hc.
  - split; [congruence|done].
  - rewrite Hlw, <-Hw, Hws, eqb_refl in Hc. done.
Qed.

Lemma interrupted_is_candidate ctx w :
  interrupted ws id w -> rc_workspace_id ctx = ws ->
  mkStartupCandidate id StaleLease ∈ find_startup_recovery_candidates ctx (w_leases w) (w_db w).
Proof.
  intros ((row & Hrow & Hws & Hst) & (l & Hl & Hlw & Hlt) & _) Hctx. unfold find_startup_recovery_candidates.
  rewrite merge_sort_Permutation. apply elem_of_app. left.
  apply list_elem_of_fmap. exists (id, row). split; [done|]. apply list_elem_of_In, filter_In. split.
  - by apply list_elem_of_In, elem_of_map_to_list.
  - unfold stale_lease. cbn [fst snd]. rewrite Hctx, Hws, eqb_refl, Hst. simpl. rewrite Hl, Hlw, eqb_refl. simpl. by apply Z.ltb_lt.
Qed.

Lemma run_discovered_interrupted ctx now n w :
  interrupted ws id w -> interrupted ws id (exec now n w (run_discovered ctx)).2 /\
  (is_ok (exec now n w (run_discovered ctx)).1.1 = true -> rc_workspace_id ctx <> ws).
Proof.
  intros Hi. unfold run_discovered. rewrite exec_mbind, exec_call. cbn [answer reads fst snd].
  unfold startup_run. rewrite exec_mbind, exec_lift. destruct (reject_duplicates _ _) as [[]|]; [|done].
  destruct (startup_loop_interrupted ctx _ [] None now n w Hi (candidates_ok ctx w Hi)) as [H1 H2]. split; [done|].
  intros Hok Hctx. by apply (H2 Hok _ (interrupted_is_candidate ctx w Hi Hctx)).
Qed.

Lemma sweep_interrupted contexts now n w :
  interrupted ws id w -> interrupted ws id (exec now n w (run_startup_recovery contexts)).2 /\
  (is_ok (exec now n w (run_startup_recovery contexts)).1.1 = true -> forall ctx, ctx ∈ contexts -> rc_workspace_id ctx <> ws).
Proof.
  revert n w. induction contexts as [|ctx0 rest IH]; intros n w Hi; cbn [run_startup_recovery]; [split; [done|set_solver]|].
  rewrite exec_mbind. destruct (run_discovered_interrupted ctx0 now n w Hi) as [Hs Ht].
  destruct (exec now n w (run_discovered ctx0)) as [[[x|e] n1] w1]; [|done]. simpl in Hs, Ht.
  destruct (IH n1 w1 Hs) as [Hs1 Hn]. split; [done|]. intros H ctx [->|Hin]%elem_of_cons; [by apply Ht|by apply Hn].
Qed.

End Sweep.

(** Between two starts: a sweep that was tried, of any workspaces, and time. *)
Inductive starting : RunWorld L -> RunWorld L -> Prop :=
| start_tried contexts now n w : starting w (exec now n w (run_startup_recovery contexts)).2
| start_awaited w now : (rd_now (w_db w) <= now)%Z -> starting w (with_db w (at_time (w_db w) now)).

Lemma starting_interrupted ws id w w' : interrupted ws id w -> starting w w' -> interrupted ws id w'.
Proof.
  intros Hi Hs. destruct Hs as [contexts now n w|w now Hle]; [exact (proj1 (sweep_interrupted ws id contexts now n w Hi))|].
  destruct Hi as (H1 & (l & Hl & Hw & Hlt) & H3). split; [done|]. split; [|done]. exists l. split_and!; [done..|]. simpl. lia.
Qed.

(** C31.  A worker that dies while it works on a coordinator run keeps every process of its workspace from starting.
    The tables hold a run of the coordinator that has not ended, with the lease of its worker run out and with no
    row of another writer in its stream, beside any rows the legacy engine keeps for other runs.  Startup recovery
    takes the run as safe to retry and replays its events as legacy events, which no event of the coordinator
    decodes to: the sweep of any list of workspaces with this one, run by itself, fails, and so does every later
    one, after any number of such attempts and whatever time passed between them. *)
Theorem interrupted_run_stops_startup cols (d : Db (Value L)) legacy observed contexts ctx id row lease now n w :
  t_runs (db_tables d) !! id = Some row -> rw_workspace_id row = rc_workspace_id ctx ->
  any (String.eqb (rw_status row)) TERMINAL_STATUSES = false ->
  db_leases d !! id = Some lease -> lr_workspace_id lease = rc_workspace_id ctx ->
  (lr_lease_until lease < t_now (db_tables d))%Z ->
  Forall (fun r => row_of_run (rc_workspace_id ctx) id r = false) legacy ->
  rtc starting (shared_world cols d legacy observed) w -> ctx ∈ contexts ->
  is_ok (exec now n w (run_startup_recovery contexts)).1.1 = false.
Proof.
  intros Hrow Hws Hst Hl Hlw Hlt Hleg Hr Hin.
  assert (interrupted (rc_workspace_id ctx) id (shared_world cols d legacy observed)) as Hi.
  { split_and!; [|by exists lease|by apply shared_world_canonical]. exists (run_row cols id row). split_and!; [|done..].
    simpl. by rewrite map_lookup_imap, Hrow. }
  assert (interrupted (rc_workspace_id ctx) id w) as Hi'.
  { clear -Hi Hr. induction Hr as [|a b c Hab _ IH]; [done|]. apply IH. by eapply starting_interrupted. }
  destruct (sweep_interrupted _ _ contexts now n w Hi') as [_ Hn]. destruct (is_ok _); [|done]. exfalso. by apply (Hn eq_refl ctx Hin).
Qed.

End Startup.

(** ** Delivered events and the coordinator's commits *)

Section Delivery.
Context {L : Type} {LS : LegacySerde L} {PF : PayloadFields L} {SAct : Serde (Value L) RunActor}
  {SHA : Sha256} {VB : ValueBytes L}
  {SR : Serde (Value L) RunTerminalResult} {SA : Serde (Value L) RunActorRef} {SL : Serde (Value L) (list RunReference)}
  {SF : Serde (Value L) RunFailure} {SC : Serde (Value L) RunCheckpointPayloadV1}.
Context (cols : Columns).

(** The coordinator's tables, and the rows of [run_events] other writers inserted. *)
Record Shared : Type := mkShared { sh_tables : Tables (Value L); sh_legacy : list (EventRow L) }.

(** The event of a commit against the keys of the rows beside the coordinator's own. *)
Definition event_clashes (sh : Shared) (ws : WorkspaceId) (e : RunEvent) : bool :=
  any (clashes (row_of_event (inserted_at cols e) ws e)) (sh_legacy sh).

(** [commit] of the coordinator's store: the run's row is updated first, then the event is inserted. *)
Definition shared_commit (ctx : RequestContext) (c : CommitRun) (sh : Shared) : result ApplicationError Shared :=
  expected ← map_err (fun _ => AppStorage) (version_previous (ar_version (cm_run c)));
  _ ← update_run (sh_tables sh) (rc_workspace_id ctx) (cm_run c) expected;
  if event_clashes sh (rc_workspace_id ctx) (cm_event c) then Err AppStorage else
  t ← pg_commit (sh_tables sh) ctx c;
  Ok (mkShared t (sh_legacy sh)).

Definition shared_create (ctx : RequestContext) (c : CommitRun) (sh : Shared) : result ApplicationError Shared :=
  _ ← insert_run (sh_tables sh) (rc_workspace_id ctx) (cm_run c);
  if event_clashes sh (rc_workspace_id ctx) (cm_event c) then Err AppStorage else
  t ← pg_create (sh_tables sh) ctx c;
  Ok (mkShared t (sh_legacy sh)).

Definition with_stream_versions (t : Tables (Value L)) (m : gmap (Z * Z) Z) : Tables (Value L) :=
  mkTables (t_runs t) (t_steps t) (t_events t) (t_checkpoints t) m (t_work t) (t_now t).

(** [PgRunEventStore::append], which the delivery of outcomes calls. *)
Definition shared_append (ctx : RequestContext) (run : AgentRunId) (expected : RunVersion)
    (events : list LegacyRunEventEnvelope) (sh : Shared) : result ApplicationError (RunVersion * Shared) :=
  '(v, db) ← append_rows ctx run expected events (shared_db cols (sh_tables sh) (sh_legacy sh));
  Ok (v, mkShared (with_stream_versions (sh_tables sh) (rd_streams db))
           (sh_legacy sh ++ (row_of_envelope (t_now (sh_tables sh)) <$> events))).

(** The coordinator stamps the event of a commit with the run's new version. *)
Definition coordinated (c : CommitRun) : Prop :=
  re_run_id (cm_event c) = ar_id (cm_run c) /\ re_sequence (cm_event c) = ar_version (cm_run c).

(** The writes of the coordinator's store and of the delivery of outcomes: commits, creations, appends, and changes to the
    queue and the clock.  The legacy committer and the rebuilding of projections, which also write [agent_runs], are left
    out: they act on the runs of the legacy engine, whose streams they replay. *)
Inductive shared_step : Shared -> Shared -> Prop :=
| step_commit ctx c sh sh' : coordinated c -> shared_commit ctx c sh = Ok sh' -> shared_step sh sh'
| step_create ctx c sh sh' : shared_create ctx c sh = Ok sh' -> shared_step sh sh'
| step_append ctx run v events sh sh' v' : shared_append ctx run v events sh = Ok (v', sh') -> shared_step sh sh'
| step_other sh rows now :
    shared_step sh (mkShared (mkTables (t_runs (sh_tables sh)) (t_steps (sh_tables sh)) (t_events (sh_tables sh))
                                (t_checkpoints (sh_tables sh)) (t_streams (sh_tables sh)) rows now) (sh_legacy sh)).

(** The run is at version [v] and a row of another writer holds the next position. *)
Definition wedged (ws : WorkspaceId) (run : AgentRunId) (v : Z) (sh : Shared) : Prop :=
  (exists row, t_runs (sh_tables sh) !! run = Some row /\ rw_workspace_id row = ws /\ rw_run_version row = v) /\
  (exists r, r ∈ sh_legacy sh /\ row_of_run ws run r = true /\ er_sequence r = (v + 1)%Z) /\ (0 <= v < isize_max)%Z.

(** A wedged run refuses every commit. *)
Lemma wedged_refuses ws run v sh ctx c :
  wedged ws run v sh -> coordinated c -> ar_id (cm_run c) = run -> is_ok (shared_commit ctx c sh) = false.
Proof.
  intros ((row & Hrow & Hws & Hv) & (r & Hr & Hof & Hseq) & Hmax) [Hid Hsq] Hrun. unfold shared_commit.
  destruct (map_err _ (version_previous _)) as [expected|] eqn:Ep; [|done]. cbn [mbind result_bind].
  destruct (update_run _ _ _ _) as [t1|] eqn:Eu; [|done]. cbn [mbind result_bind].
  apply map_err_Ok, version_previous_Ok in Ep as [Hp Hver].
  unfold update_run in Eu. apply bind_Ok in Eu as (row' & Hf%ok_or_Ok & _). rewrite Hrun, Hrow in Hf. cbn [opt_filter] in Hf.
  destruct ((rw_workspace_id row == rc_workspace_id ctx) && (rw_run_version row =? cast_i64 expected)%Z) eqn:Em; [|done].
  apply andb_prop in Em as [Ew%bool_decide_eq_true_1 En%Z.eqb_eq].
  assert (expected = v) as ->. { unfold cast_i64 in En. destruct (Z.leb_spec expected isize_max); lia. }
  assert (event_clashes sh (rc_workspace_id ctx) (cm_event c) = true) as ->; [|done].
  apply existsb_exists. exists r. split; [by apply list_elem_of_In|]. unfold clashes. apply orb_true_iff. right.
  cbn [row_of_event er_workspace_id er_run_id er_sequence]. rewrite Hid, Hrun, <-Ew, Hws, Hof, Hsq, Hver, Hseq. simpl.
  unfold cast_i64. rewrite (proj2 (Z.leb_le _ _)) by lia. apply Z.eqb_refl.
Qed.

Lemma wedged_step ws run v sh sh' : wedged ws run v sh -> shared_step sh sh' -> wedged ws run v sh'.
Proof.
  intros Hw Hs. pose proof Hw as ((row & Hrow & Hws & Hv) & (r & Hr & Hof & Hseq) & Hmax).
  destruct Hs as [ctx c sh sh' Hc H|ctx c sh sh' H|ctx run' v' events sh sh' v1 H|sh rows now].
  - destruct (base.decide (ar_id (cm_run c) = run)) as [Hrun|Hne].
    { pose proof (wedged_refuses _ _ _ _ ctx c Hw Hc Hrun) as Hf. by rewrite H in Hf. }
    unfold shared_commit in H. apply bind_Ok in H as (x & _ & (y & _ & H)%bind_Ok). destruct (event_clashes _ _ _); [done|].
    apply bind_Ok in H as (t & Ht & [= <-]). unfold pg_commit in Ht.
    apply bind_Ok in Ht as (e & _ & (t1 & Hu & (t2 & Hwr%write_commit_runs & (l & _ & (u & _ & [= <-])%bind_Ok)%bind_Ok)%bind_Ok)%bind_Ok).
    split_and!; [|by exists r|lia..]. exists row. split_and!; try done. simpl. rewrite Hwr.
    unfold update_run in Hu. apply bind_Ok in Hu as (old & _ & Hu). destruct (negb _); [done|]. injection Hu as <-. simpl.
    by rewrite lookup_insert_ne.
  - unfold shared_create in H. apply bind_Ok in H as (y & Hi & H). destruct (event_clashes _ _ _); [done|].
    apply bind_Ok in H as (t & Ht & [= <-]). unfold pg_create in Ht. apply bind_Ok in Ht as (t1 & Hu & Hwr%write_commit_runs).
    split_and!; [|by exists r|lia..]. exists row. split_and!; try done. simpl. rewrite Hwr.
    unfold insert_run in Hu. destruct (is_some (t_runs (sh_tables sh) !! ar_id (cm_run c))) eqn:Eid; [done|].
    repeat (split_match_in Hu; try done). injection Hu as <-. simpl. apply is_some_false in Eid.
    rewrite lookup_insert_ne; [done|]. intros Heq. congruence.
  - unfold shared_append in H. apply bind_Ok in H as ([v2 db] & _ & [= _ <-]). split_and!; [by exists row| |lia..].
    exists r. split_and!; [|done..]. simpl. set_solver.
  - split_and!; [by exists row|by exists r|lia..].
Qed.

(** An append at a run's version takes its next position. *)
Lemma append_wedges ctx run expected events sh v sh' row :
  shared_append ctx run expected events sh = Ok (v, sh') ->
  t_runs (sh_tables sh) !! run = Some row -> rw_workspace_id row = rc_workspace_id ctx ->
  t_streams (sh_tables sh) !! (rc_workspace_id ctx, run) = Some (rw_run_version row) ->
  wedged (rc_workspace_id ctx) run (rw_run_version row) sh'.
Proof.
  intros H Hrow Hws Hst. unfold shared_append in H. apply bind_Ok in H as ([v2 db] & Ha & [= _ <-]). pose proof Ha as Ha'.
  unfold append_rows in Ha'. apply bind_Ok in Ha' as (f & Hb & _). apply append_rows_Ok in Ha as [[[Hf Hcnt] Hv Hn Hmx _ _ _] _].
  unfold version_at in Hv. simpl in Hv, Hf. rewrite Hst in Hv. simpl in Hv. subst expected.
  destruct events as [|e events]; [done|]. apply counts_cons in Hcnt as [Hseq _]. inversion Hf as [|? ? (He1 & He2 & _) _]; subst.
  split_and!; [by exists row| |cbn [length] in Hmx; lia..]. exists (row_of_envelope (t_now (sh_tables sh)) e). split_and!; [|..|done].
  - simpl. set_solver.
  - apply andb_true_iff. split; by apply eqb_true.
Qed.

(** C32.  Delivering an outcome to a coordinator run wedges it: the legacy event takes the position after the run's
    version without moving the run, so every later commit of that run inserts its event at a taken position and is
    refused, whatever the coordinator commits and creates and the deliveries append in between. *)
Theorem delivered_event_wedges_run ctx run expected events sh v sh' row sh2 ctx' c :
  shared_append ctx run expected events sh = Ok (v, sh') ->
  t_runs (sh_tables sh) !! run = Some row -> rw_workspace_id row = rc_workspace_id ctx ->
  t_streams (sh_tables sh) !! (rc_workspace_id ctx, run) = Some (rw_run_version row) ->
  rtc shared_step sh' sh2 -> coordinated c -> ar_id (cm_run c) = run ->
  is_ok (shared_commit ctx' c sh2) = false.
Proof.
  intros H Hrow Hws Hst Hr Hc Hrun. apply (wedged_refuses (rc_workspace_id ctx) run (rw_run_version row)); try done.
  pose proof (append_wedges _ _ _ _ _ _ _ _ H Hrow Hws Hst) as Hw. clear H.
  induction Hr as [|a b d Hab _ IH]; [done|]. apply IH. by eapply wedged_step.
Qed.

End Delivery.

(** ** A concrete run of the coordinator *)

Module SharedExample.
Import Toy CoordinatorExample RecoveryExample.
Local Open Scope Z_scope.

#[export] Instance result_leaf : Serde (Value Leaf) RunTerminalResult :=
  {| to_value r := VScalar (LeafResult r); from_value v := match v with VScalar (LeafResult r) => Some r | _ => None end |}.
#[export] Instance actor_leaf : Serde (Value Leaf) RunActorRef :=
  {| to_value r := VScalar (LeafActorRef r); from_value v := match v with VScalar (LeafActorRef r) => Some r | _ => None end |}.
#[export] Instance references_leaf : Serde (Value Leaf) (list RunReference) :=
  {| to_value r := VScalar (LeafReferences r); from_value v := match v with VScalar (LeafReferences r) => Some r | _ => None end |}.
#[export] Instance failure_leaf : Serde (Value Leaf) RunFailure :=
  {| to_value r := VScalar (LeafFailure r); from_value v := match v with VScalar (LeafFailure r) => Some r | _ => None end |}.
#[export] Instance checkpoint_leaf : Serde (Value Leaf) RunCheckpointPayloadV1 :=
  {| to_value r := VScalar (LeafCheckpoint r); from_value v := match v with VScalar (LeafCheckpoint r) => Some r | _ => None end |}.
#[export] Instance value_bytes_example : ValueBytes Leaf := fun _ => [].
#[export] Instance payload_fields_example : PayloadFields Leaf := {|
  mode_value m := VString (RunExecutionMode.mode_as_str m);
  uuid_value u := VScalar (LeafNumber u);
  text_value t := VArray ((fun c => VScalar (LeafNumber c)) <$> t);
  number_value n := VScalar (LeafNumber n);
  parent_value _ := VArray [];
  status_value s := VString (RunStatus.status_as_str s);
  result_value _ := VArray [];
  optional_uuid_value o := match o with Some u => VScalar (LeafNumber u) | None => VArray [] end;
  steps_value _ := VArray [];
  step_status_value s := VString (RunStepStatus.step_status_as_str s) |}.

Definition cols : Columns := mkColumns (fun e => re_occurred_at e) (fun _ => 3) {[3]}.

(** A run that was created and prepared, at the time 100. *)
Definition tables : Tables (Value Leaf) :=
  let t := (exec_all 100 sp_empty [alone 10 create; alone 11 (move 1 RunStatus.Preparing)]).2 in
  mkTables (t_runs t) (t_steps t) (t_events t) (t_checkpoints t) (t_streams t) (t_work t) 100.

(** The worker 7 took its lease at 20 for 30, and died. *)
Definition abandoned : Db (Value Leaf) := mkDb tables (acquire 10 (mkAcquire 100 7 20 50) ∅).2 5000.

(** An outcome that is delivered to the run. *)
Definition settled : LegacyRunEventEnvelope :=
  mkEnvelope 700 10 100 3 "run.external_effect_settled" 1 (System []) 701 702
    (EvExternalEffectSettled 40 None Confirmed ResponseDigest) 60 61.
Definition after_delivery : Shared :=
  match shared_append cols CoordinatorExample.ctx 100 2 [settled] (mkShared tables []) with
  | Ok (_, sh) => sh
  | Err _ => mkShared tables []
  end.
(** The next commit of the run. *)
Definition next : CommitRun :=
  mkCommit (mkRun 100 10 (text_of "summarise the report") 4 None RunExecutionMode.Supervised RunStatus.Running
      None None None 100 None None 3 None 10 70 None)
    (mkEvent 800 10 100 3 3 (ActorPrincipal 3) (RunStatusChanged RunStatus.Preparing RunStatus.Running None) 801 None 70)
    [] None [].
End SharedExample.

Section Instances.
Import Toy CoordinatorExample RecoveryExample SharedExample.
Local Open Scope Z_scope.

Definition run_100 : AgentRunRow (Value Leaf) := Eval vm_compute in default (mkRunRow 0 0 [] 0 None "" "" None None None None None None None 0 None 0 0 None) (t_runs tables !! 100).

(** The second start, an hour after the first failed. *)
Definition after_first_start : RunWorld Leaf :=
  (exec_run no_binding 200 0 (shared_world cols abandoned [] []) (run_startup_recovery [CoordinatorExample.ctx])).2.
Definition an_hour_later : RunWorld Leaf := with_db after_first_start (at_time (w_db after_first_start) 3600100).

Lemma interrupted_run_stops_startup_at_abandoned :
  is_ok (exec_run no_binding 3600200 9 an_hour_later (run_startup_recovery [CoordinatorExample.ctx])).1.1 = false.
Proof.
  apply (interrupted_run_stops_startup no_binding cols abandoned [] [] [CoordinatorExample.ctx] CoordinatorExample.ctx 100 run_100
    (mkLeaseRow 10 7 1 20 20 50) 3600200 9 an_hour_later).
  1-6: by vm_compute.
  - constructor.
  - eapply rtc_l; [apply (start_tried no_binding [CoordinatorExample.ctx] 200 0)|].
    eapply rtc_l; [apply (start_awaited no_binding after_first_start 3600100); vm_compute; discriminate|apply rtc_refl].
  - set_solver.
Defined.

Lemma delivered_event_wedges_run_at_next : is_ok (shared_commit cols CoordinatorExample.ctx next after_delivery) = false.
Proof.
  apply (delivered_event_wedges_run cols CoordinatorExample.ctx 100 2 [settled] (mkShared tables []) 3 after_delivery run_100
    after_delivery).
  - by vm_compute.
  - by vm_compute.
  - done.
  - by vm_compute.
  - apply rtc_refl.
  - by split.
  - done.
Defined.

(** Without the delivered outcome the same commit is accepted. *)
Lemma next_is_accepted : is_ok (shared_commit cols CoordinatorExample.ctx next (mkShared tables [])) = true.
Proof. by vm_compute. Qed.

End Instances.
