(* ===== verification/Interaction.v ===== *)
(** * Programs that call ports

    An asynchronous method is a program over the calls of its ports: it returns, or makes a call
    and goes on with the answer.  [C R] are the calls with an answer of type [R]; what a call does
    to the world is given where the calls are, so that one program can be run alone, among others,
    or against answers of any kind. *)

From Stdlib Require Import ZArith Lia.
From stdpp Require Import base option numbers relations list.
From S2P Require Import Prelude.

Inductive iprog (C : Type -> Type) (A : Type) : Type :=
| IRet (a : A)
| ICall {R : Type} (c : C R) (k : R -> iprog C A).

Arguments IRet {C A} a.
Arguments ICall {C A R} c k.

Fixpoint iprog_bind {C A B} (f : A -> iprog C B) (p : iprog C A) : iprog C B :=
  match p with
  | IRet a => f a
  | ICall c k => ICall c (fun r => iprog_bind f (k r))
  end.

(** [async fn ... -> Result<A, E>]. *)
Definition IM (C : Type -> Type) (E A : Type) : Type := iprog C (result E A).

#[export] Instance IM_ret C E : MRet (IM C E) := fun A a => IRet (Ok a).

#[export] Instance IM_bind C E : MBind (IM C E) :=
  fun A B f p => iprog_bind (fun r => match r with Ok a => f a | Err e => IRet (Err e) end) p.

(** A call whose failure ends the method, and a result that is already there. *)
Definition icall {C E R} (c : C (result E R)) : IM C E R := ICall c IRet.
Definition ilift {C E A} (r : result E A) : IM C E A := IRet r.

(** A call that cannot fail. *)
Definition iask {C E R} (c : C R) : IM C E R := ICall c (fun r => IRet (Ok r)).

(** A program whose result nobody waits for: a thread. *)
Definition detach {C A} (p : iprog C A) : iprog C unit := iprog_bind (fun _ => IRet tt) p.

(** ** Running alone

    [answer c w] is the answer to the call and the world it leaves. *)

Section Alone.
Context {C : Type -> Type} {W : Type} (answer : forall R, C R -> W -> R * W).

Fixpoint irun {A} (w : W) (p : iprog C A) : A * W :=
  match p with
  | IRet a => (a, w)
  | ICall c k => irun (answer _ c w).2 (k (answer _ c w).1)
  end.

Lemma irun_bind {A B} (f : A -> iprog C B) (p : iprog C A) w :
  irun w (iprog_bind f p) = irun (irun w p).2 (f (irun w p).1).
Proof. revert w. induction p as [a|R c k IH]; intros w; simpl; [done|]. apply IH. Qed.

Lemma irun_mbind {E A B} (f : A -> IM C E B) (p : IM C E A) w :
  irun w (p ≫= f) =
  match (irun w p).1 with Ok a => irun (irun w p).2 (f a) | Err e => (Err e, (irun w p).2) end.
Proof. unfold mbind, IM_bind. rewrite irun_bind. by destruct (irun w p).1. Qed.

Lemma irun_icall {E R} (c : C (result E R)) w : irun w (icall c) = answer _ c w.
Proof. unfold icall. simpl. by destruct (answer _ c w). Qed.

Lemma irun_iask {E R} (c : C R) w : irun w (iask (E := E) c) = (Ok (answer _ c w).1, (answer _ c w).2).
Proof. done. Qed.

Lemma irun_ilift {E A} (r : result E A) w : irun w (ilift r) = (r, w).
Proof. done. Qed.

End Alone.

(** ** Running among others

    Threads run on one world; each step is a call of one of them, a thread that starts, one that
    is cut off, or something else that happens to the world. *)

Section Pool.
Context {C : Type -> Type} {W : Type}.
(** What a call may answer, and the worlds it may leave. *)
Context (answers : forall R, W -> C R -> R -> W -> Prop).
(** The programs that may start, and what happens outside of them. *)
Context (starts : iprog C unit -> Prop) (env : W -> W -> Prop).

Inductive pool_step : W * list (iprog C unit) -> W * list (iprog C unit) -> Prop :=
| pool_call w pre post R (c : C R) k r w' : answers R w c r w' ->
    pool_step (w, pre ++ ICall c k :: post) (w', pre ++ k r :: post)
| pool_start w ps p : starts p -> pool_step (w, ps) (w, ps ++ [p])
| pool_stop w pre p post : pool_step (w, pre ++ p :: post) (w, pre ++ post)
| pool_env w ps w' : env w w' -> pool_step (w, ps) (w', ps).

Definition pool_reaches : W * list (iprog C unit) -> W * list (iprog C unit) -> Prop := rtc pool_step.

Lemma pool_invariant (I : W * list (iprog C unit) -> Prop) s s' :
  (forall s s', I s -> pool_step s s' -> I s') -> I s -> pool_reaches s s' -> I s'.
Proof. intros Hstep Hs Hr. induction Hr; eauto. Qed.

(** A program that may start can run to its end before anything else happens. *)
Lemma irun_reaches (answer : forall R, C R -> W -> R * W) w ps p :
  (forall R (c : C R) w, answers R w c (answer R c w).1 (answer R c w).2) -> starts p ->
  pool_reaches (w, ps) ((irun answer w p).2, ps).
Proof.
  intros Ha Hp. eapply rtc_l; [by apply pool_start|]. clear Hp. revert w. induction p as [a|R c k IH]; intros w; simpl.
  - apply rtc_once. rewrite <-(app_nil_r ps) at 2. apply pool_stop.
  - eapply rtc_l; [apply pool_call, Ha|]. apply IH.
Qed.

End Pool.

(** ** Reasoning under interference

    [later] is what any step of the system does to the world; [inv] holds between steps; [good] is
    what a call asks of the world it is made in.  [safe w p Q]: from [w] on, whatever happens in
    between, every call of [p] is good, and the result satisfies [Q]. *)

Section Rely.
Context {C : Type -> Type} {W : Type}.
Context (answers : forall R, W -> C R -> R -> W -> Prop).
Context (later : W -> W -> Prop) (inv : W -> Prop) (good : forall R, W -> C R -> Prop).

Fixpoint safe {A} (w : W) (p : iprog C A) (Q : W -> A -> Prop) : Prop :=
  match p with
  | IRet a => forall w1, later w w1 -> inv w1 -> Q w1 a
  | ICall c k => forall w1, later w w1 -> inv w1 -> good _ w1 c /\ forall r w2, answers _ w1 c r w2 -> safe w2 (k r) Q
  end.

Context `{!PreOrder later}.

Lemma safe_later {A} w w1 (p : iprog C A) Q : safe w p Q -> later w w1 -> safe w1 p Q.
Proof. intros Hs Hl. destruct p; simpl in *; intros w2 Hl2; apply Hs; by etrans. Qed.

Context (answers_later : forall R w (c : C R) r w', inv w -> good _ w c -> answers _ w c r w' -> inv w' /\ later w w').

Lemma safe_bind {A B} w (f : A -> iprog C B) (p : iprog C A) Q Q' :
  safe w p Q -> (forall w1 a, later w w1 -> inv w1 -> Q w1 a -> safe w1 (f a) Q') -> safe w (iprog_bind f p) Q'.
Proof.
  revert w. induction p as [a|R c k IH]; intros w Hs Hf; simpl in *.
  - destruct (f a) as [b|R c k] eqn:E; simpl; intros w1 Hl Hi.
    + specialize (Hf w1 a Hl Hi (Hs w1 Hl Hi)). rewrite E in Hf. by apply (Hf w1).
    + specialize (Hf w1 a Hl Hi (Hs w1 Hl Hi)). rewrite E in Hf. by apply (Hf w1).
  - intros w1 Hl Hi. destruct (Hs w1 Hl Hi) as [Hg Hk]. split; [done|]. intros r w2 Ha.
    destruct (answers_later _ _ _ _ _ Hi Hg Ha) as [Hi2 Hl2].
    apply IH; [by apply Hk|]. intros w3 a Hl3. apply Hf. etrans; [done|]. by etrans.
Qed.

Lemma safe_mbind {E A B} w (f : A -> IM C E B) (p : IM C E A) Q Q' :
  safe w p (fun w1 r => match r with Ok a => Q w1 a | Err e => Q' w1 (Err e) end) ->
  (forall w1 e, later w w1 -> inv w1 -> Q' w1 (Err e) -> forall w2, later w1 w2 -> inv w2 -> Q' w2 (Err e)) ->
  (forall w1 a, later w w1 -> inv w1 -> Q w1 a -> safe w1 (f a) Q') -> safe w (p ≫= f) Q'.
Proof.
  intros Hp He Hf. unfold mbind, IM_bind. eapply safe_bind; [done|].
  intros w1 [a|e] Hl Hi Hq; [by apply Hf|]. simpl. intros w2 Hl2 Hi2. by eapply He.
Qed.

(** Threads that are safe when they start keep the invariant. *)
Context (starts : iprog C unit -> Prop) (env : W -> W -> Prop).
Context (env_later : forall w w', inv w -> env w w' -> inv w' /\ later w w').
Context (starts_safe : forall p w, starts p -> inv w -> safe w p (fun _ _ => True)).

Definition pool_ok (s : W * list (iprog C unit)) : Prop :=
  inv s.1 /\ Forall (fun p => safe s.1 p (fun _ _ => True)) s.2.

Lemma pool_step_ok s s' : pool_ok s -> pool_step answers starts env s s' -> pool_ok s' /\ later s.1 s'.1.
Proof.
  intros [Hi Hps] Hst. destruct Hst as [w pre post R c k r w' Ha|w ps p Hp|w pre p post|w ps w' He]; simpl in *.
  - apply Forall_app in Hps as [Hpre [Hc Hpost]%Forall_cons].
    destruct (Hc w) as [Hg Hk]; [reflexivity|done|].
    destruct (answers_later _ _ _ _ _ Hi Hg Ha) as [Hi' Hl]. split; [|done]. split; [done|]. simpl.
    apply Forall_app. split; [|apply Forall_cons; split; [by apply Hk|]];
      (eapply Forall_impl; [eassumption|]; intros q Hq; exact (safe_later _ _ _ _ Hq Hl)).
  - split; [|reflexivity]. split; [done|]. apply Forall_app. split; [done|]. apply Forall_singleton. simpl. by apply starts_safe.
  - split; [|reflexivity]. split; [done|]. apply Forall_app in Hps as [Hpre [_ Hpost]%Forall_cons]. by apply Forall_app.
  - destruct (env_later _ _ Hi He) as [Hi' Hl]. split; [|done]. split; [done|]. simpl.
    eapply Forall_impl; [eassumption|]. intros q Hq. exact (safe_later _ _ _ _ Hq Hl).
Qed.

Lemma pool_reaches_ok s s' : pool_ok s -> pool_reaches answers starts env s s' -> pool_ok s' /\ later s.1 s'.1.
Proof.
  intros Hs Hr. induction Hr as [s|s s1 s2 Hst Hr IH]; [by split|].
  destruct (pool_step_ok _ _ Hs Hst) as [H1 L1]. destruct (IH H1) as [H2 L2]. split; [done|]. by etrans.
Qed.

End Rely.

(** ** Arbitrary answers

    The traces a program can leave when nothing is assumed of its ports. *)

Section Trace.
Context {C : Type -> Type}.

Record event : Type := mkEvent { ev_answer : Type; ev_call : C ev_answer; ev_result : ev_answer }.

(** The calls a program made with their answers, and its result unless it was cut off. *)
Fixpoint trace_of {A} (p : iprog C A) (es : list event) (o : option A) : Prop :=
  match p with
  | IRet a => es = [] /\ (o = Some a \/ o = None)
  | ICall c k => es = [] /\ o = None \/ exists r es', es = mkEvent _ c r :: es' /\ trace_of (k r) es' o
  end.

Lemma trace_of_bind {A B} (f : A -> iprog C B) (p : iprog C A) es o :
  trace_of (iprog_bind f p) es o ->
  trace_of p es None /\ o = None \/
  exists es1 es2 a, es = es1 ++ es2 /\ trace_of p es1 (Some a) /\ trace_of (f a) es2 o.
Proof.
  revert es o. induction p as [a|R c k IH]; intros es o; simpl.
  - intros H. right. exists [], es, a. naive_solver.
  - intros [[-> ->]|(r & es' & -> & H)]; [left; naive_solver|].
    apply IH in H as [[H ->]|(es1 & es2 & a & -> & H1 & H2)]; [left; naive_solver|].
    right. exists (mkEvent _ c r :: es1), es2, a. naive_solver.
Qed.

(** The trace of one way of answering. *)
Fixpoint run_trace {A} (answer : forall R, C R -> R) (p : iprog C A) : list event * A :=
  match p with
  | IRet a => ([], a)
  | ICall c k =>
      let '(es, a) := run_trace answer (k (answer _ c)) in (mkEvent _ c (answer _ c) :: es, a)
  end.

Lemma run_trace_of {A} (answer : forall R, C R -> R) (p : iprog C A) :
  trace_of p (run_trace answer p).1 (Some (run_trace answer p).2).
Proof.
  induction p as [a|R c k IH]; simpl; [by split; [|left]|]. specialize (IH (answer _ c)).
  destruct (run_trace answer (k (answer _ c))) as [es a]. right. by exists (answer _ c), es.
Qed.

End Trace.
Arguments event C : clear implicits.
Arguments mkEvent {C ev_answer} ev_call ev_result.

(** ** Finished runs *)

Section Posts.
Context {C : Type -> Type}.

(** Everything the events of a trace contribute. *)
Definition over {A} (f : event C -> list A) (es : list (event C)) : list A := es ≫= f.

Lemma over_app {A} (f : event C -> list A) a b : over f (a ++ b) = over f a ++ over f b.
Proof. unfold over. by rewrite bind_app. Qed.

Lemma over_nil {A} (f : event C -> list A) : over f [] = [].
Proof. done. Qed.

Lemma over_cons {A} (f : event C -> list A) e es : over f (e :: es) = f e ++ over f es.
Proof. done. Qed.

(** Whatever the ports answer, a finished run of [p] satisfies [Q]. *)
Definition post {A} (p : iprog C A) (Q : list (event C) -> A -> Prop) : Prop := forall es a, trace_of p es (Some a) -> Q es a.

Lemma post_ret {A} (a : A) (Q : list (event C) -> A -> Prop) : Q [] a -> post (IRet a) Q.
Proof. intros HQ es a' [-> [[= <-]|?]]; done. Qed.

Lemma post_call {A R} (c : C R) (k : R -> iprog C A) Q :
  (forall r, post (k r) (fun es a => Q (mkEvent c r :: es) a)) -> post (ICall c k) Q.
Proof. intros Hk es a [[-> ?]|(r & es' & -> & Ht)]; [done|]. by apply Hk. Qed.

Lemma post_bind {A B} (f : A -> iprog C B) (p : iprog C A) Q Q' :
  post p Q -> (forall es a, Q es a -> post (f a) (fun es' b => Q' (es ++ es') b)) -> post (iprog_bind f p) Q'.
Proof.
  intros Hp Hf es b Ht. apply trace_of_bind in Ht as [[_ ?]|(es1 & es2 & a & -> & H1 & H2)]; [done|].
  exact (Hf es1 a (Hp es1 a H1) es2 b H2).
Qed.

(** A method that succeeds has gone through the success of each of its steps. *)
Definition succeeds {E A} (p : IM C E A) (Q : list (event C) -> A -> Prop) : Prop :=
  post p (fun es r => forall a, r = Ok a -> Q es a).

Lemma succeeds_bind {E A B} (f : A -> IM C E B) (p : IM C E A) Q Q' :
  succeeds p Q -> (forall es a, Q es a -> succeeds (f a) (fun es' b => Q' (es ++ es') b)) -> succeeds (p ≫= f) Q'.
Proof.
  intros Hp Hf. unfold succeeds, mbind, IM_bind. eapply post_bind; [exact Hp|]. intros es [a|e] Ha; [by apply Hf, Ha|].
  apply post_ret. done.
Qed.

Lemma succeeds_ret {E A} (a : A) (Q : list (event C) -> A -> Prop) : Q [] a -> succeeds (mret a : IM C E A) Q.
Proof. intros HQ. apply post_ret. by intros ? [= <-]. Qed.

Lemma succeeds_ilift {E A} (r : result E A) (Q : list (event C) -> A -> Prop) : (forall a, r = Ok a -> Q [] a) -> succeeds (ilift r) Q.
Proof. intros HQ. by apply post_ret. Qed.

Lemma succeeds_ilift_bind {E A B} (r : result E A) (f : A -> IM C E B) (Q : list (event C) -> B -> Prop) :
  (forall a, r = Ok a -> succeeds (f a) Q) -> succeeds (ilift r ≫= f) Q.
Proof. intros Hf. destruct r as [a|e]; [by apply Hf|]. by apply post_ret. Qed.

Lemma succeeds_icall_bind {E R B} (c : C (result E R)) (f : R -> IM C E B) (Q : list (event C) -> B -> Prop) :
  (forall r, succeeds (f r) (fun es b => Q (mkEvent c (Ok r) :: es) b)) -> succeeds (icall c ≫= f) Q.
Proof. intros Hf. apply post_call. intros [r|e]; [by apply Hf|]. by apply post_ret. Qed.

Lemma succeeds_iask_bind {E R B} (c : C R) (f : R -> IM C E B) (Q : list (event C) -> B -> Prop) :
  (forall r, succeeds (f r) (fun es b => Q (mkEvent c r :: es) b)) -> succeeds (iask c ≫= f) Q.
Proof. intros Hf. apply post_call. intros r. by apply Hf. Qed.

End Posts.
