(* ===== verification/Outbox.v ===== *)
(** * The outbox

    [crates/vestrace-application/src/outbox.rs]: messages, their retry policy and the dispatcher;
    [crates/vestrace-infrastructure/src/postgres/outbox_repository.rs] on the rows of [outbox], with
    the constraints of [migrations/0007] and [0149]; and the drain of
    [crates/vestrace-cli/src/commands/worker.rs].

    A handler is a trait object: [H] is its type, and a call to it may answer anything.  Of the error
    it returns only the display text is used.  A payload is JSON of type [J].  Timestamps count
    nanoseconds. *)

From Stdlib Require Import ZArith Lia String.
From stdpp Require Import base option numbers strings gmap sorting list.
From S2P Require Import Prelude Codec Crypto Text RunStatus RunDecider AgentRun RunReplay RunPorts RunStore WorkQueue.
From S2P Require Import PgRunStore RunHandlers RunWorker ResourceScope Capability PolicyEngine ExternalEffects EffectStore.
From S2P Require Import Interaction.

Abbreviation OutboxId := Uuid (only parsing).

#[export] Instance text_countable : Countable text.
Proof. unfold text. apply _. Defined.

(** ** Messages *)

Section Message.
Context {J : Type}.

Record OutboxMessage : Type := mkMessage {
  om_id : OutboxId;
  om_workspace_id : WorkspaceId;
  om_topic : text;
  om_payload : J;
  om_created_at : Timestamp;
  om_attempts : Z;
}.

(** [OutboxMessage::new] with the identifier it mints. *)
Definition message_new (id : OutboxId) (ws : WorkspaceId) (topic : text) (payload : J) (created_at : Timestamp)
    : OutboxMessage := mkMessage id ws topic payload created_at 0.

Definition MAX_DELIVERY_ATTEMPTS : Z := 5.

(** [retry_delay]: thirty seconds doubled per refusal, at most four times. *)
Definition outbox_retry_delay (attempts : Z) : Z :=
  let exponent := Z.min (saturating_sub attempts 1) 4 in
  seconds (Z.shiftl 30 exponent).

(** ** The table *)

Record OutboxRow : Type := mkOutboxRow {
  ob_workspace_id : WorkspaceId;
  ob_topic : text;
  ob_payload : J;
  ob_processed_at : option Timestamp;
  ob_created_at : Timestamp;
  ob_attempts : Z;
  ob_next_attempt_at : Timestamp;
  ob_last_attempt_at : option Timestamp;
  ob_last_error : option text;
  ob_dead_lettered_at : option Timestamp;
}.

Local Abbreviation OutboxRows := (gmap Z OutboxRow).

(** [outbox_terminal_state_is_singular], [outbox_attempts_are_not_negative] and
    [outbox_dead_letters_have_been_attempted], and the width of the column. *)
Definition row_checks (r : OutboxRow) : bool :=
  (is_none (ob_processed_at r) || is_none (ob_dead_lettered_at r))
  && (0 <=? ob_attempts r)%Z && (ob_attempts r <=? 2 ^ 31 - 1)%Z
  && (is_none (ob_dead_lettered_at r) || (0 <? ob_attempts r)%Z).

Definition store_row (id : OutboxId) (r : OutboxRow) (t : OutboxRows) : result ApplicationError unit * OutboxRows :=
  if row_checks r then (Ok tt, <[id := r]> t) else (Err AppStorage, t).

(** [save_in]; [save] is the same in a transaction of its own.  The columns the statement does not
    name take their defaults. *)
Definition save_in (ctx : RequestContext) (m : OutboxMessage) (now : Timestamp) (t : OutboxRows)
    : result ApplicationError unit * OutboxRows :=
  if om_workspace_id m !== rc_workspace_id ctx then (Err AppPolicy, t) else
  if is_some (t !! om_id m) then (Err AppStorage, t) else
  store_row (om_id m)
    (mkOutboxRow (om_workspace_id m) (om_topic m) (om_payload m) None (om_created_at m) 0 now None None None) t.

Definition parse_outbox_row (e : OutboxId * OutboxRow) : result ApplicationError OutboxMessage :=
  let '(id, r) := e in
  if (ob_attempts r <? 0)%Z then Err AppStorage
  else Ok (mkMessage id (ob_workspace_id r) (ob_topic r) (ob_payload r) (ob_created_at r) (ob_attempts r)).

(** The [WHERE] clause of [claim_pending]. *)
Definition claimable (ws : WorkspaceId) (now : Timestamp) (e : OutboxId * OutboxRow) : bool :=
  let '(_, r) := e in
  (ob_workspace_id r == ws) && is_none (ob_processed_at r) && is_none (ob_dead_lettered_at r)
  && (ob_next_attempt_at r <=? now)%Z.

(** [ORDER BY created_at ASC, id ASC]. *)
Definition claimed_before (a b : OutboxId * OutboxRow) : Prop :=
  (ob_created_at a.2 < ob_created_at b.2 \/ ob_created_at a.2 = ob_created_at b.2 /\ a.1 <= b.1)%Z.

#[export] Instance claimed_before_dec a b : Decision (claimed_before a b).
Proof. unfold claimed_before. apply _. Defined.

Definition claim_pending (ctx : RequestContext) (limit : Z) (now : Timestamp) (t : OutboxRows)
    : result ApplicationError (list OutboxMessage) :=
  collect_rows parse_outbox_row
    (take (Z.to_nat limit)
      (merge_sort claimed_before (List.filter (claimable (rc_workspace_id ctx) now) (map_to_list t)))).

(** The row an [UPDATE ... WHERE id = $1 AND workspace_id = $2 AND processed_at IS NULL] meets. *)
Definition unprocessed (ctx : RequestContext) (id : OutboxId) (t : OutboxRows) : option OutboxRow :=
  opt_filter (fun r => (ob_workspace_id r == rc_workspace_id ctx) && is_none (ob_processed_at r)) (t !! id).

Definition mark_processed (ctx : RequestContext) (id : OutboxId) (now : Timestamp) (t : OutboxRows)
    : result ApplicationError unit * OutboxRows :=
  match unprocessed ctx id t with
  | None => (Ok tt, t)
  | Some r =>
      store_row id
        (mkOutboxRow (ob_workspace_id r) (ob_topic r) (ob_payload r) (Some now) (ob_created_at r) (ob_attempts r)
          (ob_next_attempt_at r) (ob_last_attempt_at r) (ob_last_error r) (ob_dead_lettered_at r)) t
  end.

Definition record_failure (ctx : RequestContext) (id : OutboxId) (error : text) (retry_after : Z) (dead_letter : bool)
    (now : Timestamp) (t : OutboxRows) : result ApplicationError unit * OutboxRows :=
  match duration_from_std retry_after with
  | Err e => (Err e, t)
  | Ok retry_after =>
      match unprocessed ctx id t with
      | None => (Ok tt, t)
      | Some r =>
          store_row id
            (mkOutboxRow (ob_workspace_id r) (ob_topic r) (ob_payload r) (ob_processed_at r) (ob_created_at r)
              (ob_attempts r + 1) (now + retry_after) (Some now) (Some (take 2000 error))
              (if dead_letter then Some now else ob_dead_lettered_at r)) t
      end
  end.

End Message.
Arguments OutboxMessage J : clear implicits.
Arguments OutboxRow J : clear implicits.
Abbreviation OutboxRows J := (gmap Z (OutboxRow J)) (only parsing).

(** ** The dispatcher *)

Record DrainReport : Type := mkReport {
  dr_delivered : Z;
  dr_unhandled : Z;
  dr_failed : Z;
  dr_dead_lettered : Z;
}.

#[export] Instance DrainReport_eq_dec : EqDecision DrainReport.
Proof. solve_decision. Defined.

Definition did_work (r : DrainReport) : bool := (0 <? dr_delivered r)%Z.

Record PollOutcome : Type := mkPoll { po_did_work : bool; po_failed : bool }.

Definition poll_merge (a b : PollOutcome) : PollOutcome :=
  mkPoll (po_did_work a || po_did_work b) (po_failed a || po_failed b).

Definition OUTBOX_BATCH : Z := 32.

Section Dispatcher.
Context {J H : Type}.

Inductive OutboxCall : Type -> Type :=
| OSave (ctx : RequestContext) (m : OutboxMessage J) : OutboxCall (result ApplicationError unit)
| OClaim (ctx : RequestContext) (limit : Z) : OutboxCall (result ApplicationError (list (OutboxMessage J)))
| OMark (ctx : RequestContext) (id : OutboxId) : OutboxCall (result ApplicationError unit)
| OFail (ctx : RequestContext) (id : OutboxId) (error : text) (retry_after : Z) (dead_letter : bool)
    : OutboxCall (result ApplicationError unit)
| OHandle (h : H) (ctx : RequestContext) (m : OutboxMessage J) : OutboxCall (result text unit).

Abbreviation OM := (IM OutboxCall ApplicationError).

(** [OutboxDispatcher]: the handlers by the topic they claim. *)
Definition dispatcher : Type := gmap text H.

Definition with_handler (topic : H -> text) (h : H) (d : dispatcher) : dispatcher := <[topic h := h]> d.

(** The loop of [drain_once]. *)
Fixpoint drain_loop (d : dispatcher) (ctx : RequestContext) (pending : list (OutboxMessage J)) (r : DrainReport)
    : OM DrainReport :=
  match pending with
  | [] => mret r
  | m :: rest =>
      match d !! om_topic m with
      | None => drain_loop d ctx rest (mkReport (dr_delivered r) (dr_unhandled r + 1) (dr_failed r) (dr_dead_lettered r))
      | Some h =>
          ICall (OHandle h ctx m) (fun answer =>
            match answer with
            | Ok _ =>
                _ ← icall (OMark ctx (om_id m));
                drain_loop d ctx rest
                  (mkReport (dr_delivered r + 1) (dr_unhandled r) (dr_failed r) (dr_dead_lettered r))
            | Err error =>
                let attempts := saturating_add u32_max (om_attempts m) 1 in
                let dead_letter := (MAX_DELIVERY_ATTEMPTS <=? attempts)%Z in
                _ ← icall (OFail ctx (om_id m) error (outbox_retry_delay attempts) dead_letter);
                drain_loop d ctx rest
                  (mkReport (dr_delivered r) (dr_unhandled r) (dr_failed r + 1)
                    (if dead_letter then dr_dead_lettered r + 1 else dr_dead_lettered r))
            end)
      end
  end.

Definition drain_once (d : dispatcher) (ctx : RequestContext) (batch : Z) : OM DrainReport :=
  pending ← icall (OClaim ctx batch);
  drain_loop d ctx pending (mkReport 0 0 0 0).

(** [drain_outbox] of the worker: a workspace whose drain fails does not stop the others. *)
Fixpoint drain_outbox (d : dispatcher) (contexts : list RequestContext) (outcome : PollOutcome)
    : iprog OutboxCall PollOutcome :=
  match contexts with
  | [] => IRet outcome
  | ctx :: rest =>
      iprog_bind (fun answer =>
        drain_outbox d rest
          match answer with
          | Ok r => mkPoll (po_did_work outcome || did_work r) (po_failed outcome || (0 <? dr_failed r)%Z)
          | Err _ => mkPoll (po_did_work outcome) true
          end) (drain_once d ctx OUTBOX_BATCH)
  end.

(** [build_outbox_dispatcher]: [embedding t] is the handler that embeds memories on the topic [t]. *)
Definition build_outbox_dispatcher (topic : H -> text) (embedding : text -> H) (provider_configured : bool) : dispatcher :=
  if provider_configured
  then foldl (fun d t => with_handler topic (embedding t) d) ∅ [text_of "memory.created"; text_of "memory.revised"]
  else ∅.

(** ** The world of the outbox

    [ow_handled] are the calls of handlers that returned, in order: the message and whether the
    handler accepted it. *)

Record OutboxWorld : Type := mkOutboxWorld {
  ow_rows : OutboxRows J;
  ow_now : Timestamp;
  ow_handled : list (H * OutboxMessage J * bool);
}.

Definition on_rows {A} (w : OutboxWorld) (x : A * OutboxRows J) : A * OutboxWorld :=
  (x.1, mkOutboxWorld x.2 (ow_now w) (ow_handled w)).

Definition handled (w : OutboxWorld) (h : H) (m : OutboxMessage J) (ok : bool) : OutboxWorld :=
  mkOutboxWorld (ow_rows w) (ow_now w) (ow_handled w ++ [(h, m, ok)]).

(** What a call does; [say] is what handlers answer. *)
Definition outbox_answer (say : H -> OutboxMessage J -> result text unit) {R} (c : OutboxCall R) (w : OutboxWorld)
    : R * OutboxWorld :=
  match c with
  | OSave ctx m => on_rows w (save_in ctx m (ow_now w) (ow_rows w))
  | OClaim ctx limit => (claim_pending ctx limit (ow_now w) (ow_rows w), w)
  | OMark ctx id => on_rows w (mark_processed ctx id (ow_now w) (ow_rows w))
  | OFail ctx id error retry_after dead_letter =>
      on_rows w (record_failure ctx id error retry_after dead_letter (ow_now w) (ow_rows w))
  | OHandle h ctx m => (say h m, handled w h m (is_ok (say h m)))
  end.

(** A call among others: it may fail without effect, or take effect and lose its answer.  A handler
    may answer anything. *)
Definition may_fail {A} (w : OutboxWorld) (x : result ApplicationError A * OutboxWorld)
    (r : result ApplicationError A) (w' : OutboxWorld) : Prop :=
  (r, w') = x \/ r = Err AppStorage /\ (w' = w \/ w' = x.2).

Definition outbox_answers (R : Type) (w : OutboxWorld) (c : OutboxCall R) : R -> OutboxWorld -> Prop :=
  match c in OutboxCall R return R -> OutboxWorld -> Prop with
  | OSave ctx m => may_fail w (on_rows w (save_in ctx m (ow_now w) (ow_rows w)))
  | OClaim ctx limit => may_fail w (claim_pending ctx limit (ow_now w) (ow_rows w), w)
  | OMark ctx id => may_fail w (on_rows w (mark_processed ctx id (ow_now w) (ow_rows w)))
  | OFail ctx id error retry_after dead_letter =>
      may_fail w (on_rows w (record_failure ctx id error retry_after dead_letter (ow_now w) (ow_rows w)))
  | OHandle h ctx m => fun r w' => w' = handled w h m (is_ok r)
  end.

(** Time passes between the calls. *)
Inductive outbox_env : OutboxWorld -> OutboxWorld -> Prop :=
| out_time w now : (ow_now w <= now)%Z -> outbox_env w (mkOutboxWorld (ow_rows w) now (ow_handled w)).

(** The threads: drains of any batch and of whole workers with the dispatcher [d], and producers. *)
Inductive outbox_starts (d : dispatcher) : iprog OutboxCall unit -> Prop :=
| start_drain ctx batch : outbox_starts d (detach (drain_once d ctx batch))
| start_worker contexts : outbox_starts d (detach (drain_outbox d contexts (mkPoll false false)))
| start_save ctx m : outbox_starts d (detach (icall (OSave ctx m))).

Definition outbox_reaches (d : dispatcher) :
    OutboxWorld * list (iprog OutboxCall unit) -> OutboxWorld * list (iprog OutboxCall unit) -> Prop :=
  pool_reaches outbox_answers (outbox_starts d) outbox_env.

End Dispatcher.
Arguments OutboxCall J H : clear implicits.
Arguments OutboxWorld J H : clear implicits.
Arguments dispatcher H : clear implicits.
