(* ===== verification/OutboxProps.v ===== *)
(** * What every run of the outbox keeps

    A row of the outbox is only extended by later attempts, is processed only after its handler
    accepted it, and counts at most the refusals that happened. *)

From Stdlib Require Import ZArith Lia String.
From stdpp Require Import base option numbers strings gmap sorting list.
From S2P Require Import Prelude Codec Crypto Text RunStatus RunDecider AgentRun RunReplay RunPorts RunStore WorkQueue.
From S2P Require Import PgRunStore RunHandlers RunWorker ResourceScope Capability PolicyEngine ExternalEffects EffectStore.
From S2P Require Import EffectStoreProps EffectRecoveryProps EffectProps Interaction Outbox.

Section Props.
Context {J H : Type}.
Implicit Types (w : OutboxWorld J H) (t : OutboxRows J) (r : OutboxRow J) (m : OutboxMessage J).

(** ** Rows over time *)

(** The message of a row. *)
Definition message_of (id : OutboxId) (r : OutboxRow J) : OutboxMessage J :=
  mkMessage id (ob_workspace_id r) (ob_topic r) (ob_payload r) (ob_created_at r) (ob_attempts r).

(** A claimed message, seen from a later row. *)
Definition same_message (id : OutboxId) (r : OutboxRow J) (m : OutboxMessage J) : Prop :=
  om_id m = id /\ om_workspace_id m = ob_workspace_id r /\ om_topic m = ob_topic r /\
  om_payload m = ob_payload r /\ om_created_at m = ob_created_at r /\ (om_attempts m <= ob_attempts r)%Z.

Record row_later (r r' : OutboxRow J) : Prop := mkRowLater {
  rl_workspace : ob_workspace_id r' = ob_workspace_id r;
  rl_topic : ob_topic r' = ob_topic r;
  rl_payload : ob_payload r' = ob_payload r;
  rl_created : ob_created_at r' = ob_created_at r;
  rl_attempts : (ob_attempts r <= ob_attempts r')%Z;
  rl_processed : ob_processed_at r = ob_processed_at r' \/ ob_processed_at r = None;
  rl_dead : ob_dead_lettered_at r = None \/ is_some (ob_dead_lettered_at r') = true;
}.

#[export] Instance row_later_pre : PreOrder row_later.
Proof.
  split.
  - intros r. constructor; try done; [by left|]. destruct (ob_dead_lettered_at r); [by right|by left].
  - intros r1 r2 r3 [] []. constructor; try congruence; try lia.
    + destruct rl_processed0 as [->|]; [|by right]. done.
    + destruct rl_dead0 as [|Hd]; [by left|]. right. destruct rl_dead1 as [E|]; [|done]. by rewrite E in Hd.
Qed.

Definition rows_later (t t' : OutboxRows J) : Prop :=
  forall id r, t !! id = Some r -> exists r', t' !! id = Some r' /\ row_later r r'.

#[export] Instance rows_later_pre : PreOrder rows_later.
Proof.
  split.
  - intros t id r Hr. exists r. by split.
  - intros t1 t2 t3 H1 H2 id r Hr. apply H1 in Hr as (r2 & Hr & L). apply H2 in Hr as (r3 & Hr & L').
    exists r3. split; [done|]. by etrans.
Qed.

Definition outbox_later (w w' : OutboxWorld J H) : Prop :=
  rows_later (ow_rows w) (ow_rows w') /\ (ow_now w <= ow_now w')%Z /\ ow_handled w `prefix_of` ow_handled w'.

#[export] Instance outbox_later_pre : PreOrder outbox_later.
Proof.
  split.
  - intros w. split; [reflexivity|]. split; [lia|reflexivity].
  - intros w1 w2 w3 (R1 & N1 & P1) (R2 & N2 & P2). split; [by etrans|]. split; [lia|by etrans].
Qed.

Lemma store_row_later id r r' t : t !! id = Some r -> row_later r r' -> rows_later t (store_row id r' t).2.
Proof.
  intros Hr L. unfold store_row. destruct (row_checks r'); [|reflexivity]. intros i x Hx. simpl.
  destruct (base.decide (i = id)) as [->|Hne]; [|rewrite lookup_insert_ne by done; exists x; by split].
  rewrite lookup_insert_eq. exists r'. split; [done|]. by simplify_eq.
Qed.

Lemma unprocessed_Some ctx id t r : unprocessed ctx id t = Some r ->
  t !! id = Some r /\ ob_workspace_id r = rc_workspace_id ctx /\ ob_processed_at r = None.
Proof.
  unfold unprocessed, opt_filter. intros Hu. split_matches_in Hu. simplify_eq. bool_hyps.
  by rewrite is_none_true in *.
Qed.

Lemma save_in_later ctx m now t : rows_later t (save_in ctx m now t).2.
Proof.
  unfold save_in. destruct (_ !== _); [reflexivity|]. destruct (t !! om_id m) as [r|] eqn:E; cbn [is_some]; [reflexivity|].
  unfold store_row. destruct (row_checks _); [|reflexivity]. intros id r Hr. exists r. split; [|reflexivity]. simpl.
  rewrite lookup_insert_ne; [done|congruence].
Qed.

Lemma mark_processed_later ctx id now t : rows_later t (mark_processed ctx id now t).2.
Proof.
  unfold mark_processed. destruct (unprocessed ctx id t) as [r|] eqn:E; [|reflexivity].
  apply unprocessed_Some in E as (Hr & Hw & Hp). eapply store_row_later; [done|].
  constructor; simpl; try done; [by right|]. destruct (ob_dead_lettered_at r); [by right|by left].
Qed.

Lemma record_failure_later ctx id error retry_after dead now t :
  rows_later t (record_failure ctx id error retry_after dead now t).2.
Proof.
  unfold record_failure. destruct (duration_from_std retry_after); [|reflexivity].
  destruct (unprocessed ctx id t) as [r|] eqn:E; [|reflexivity].
  apply unprocessed_Some in E as (Hr & Hw & Hp). eapply store_row_later; [done|].
  constructor; simpl; try done; [lia|by left|]. destruct dead; [by right|].
  destruct (ob_dead_lettered_at r); [by right|by left].
Qed.

Lemma same_message_later id r r' m : same_message id r m -> row_later r r' -> same_message id r' m.
Proof. intros (? & ? & ? & ? & ? & ?) []. repeat split; try congruence. lia. Qed.

(** ** Calls *)

Lemma may_fail_inv {A} (w : OutboxWorld J H) (x : result ApplicationError A * OutboxWorld J H) a w' :
  may_fail w x a w' -> (w' = w \/ w' = x.2) /\ (a = x.1 \/ a = Err AppStorage).
Proof. intros [<-|[-> Hw]]; naive_solver. Qed.

Lemma on_rows_later {A} (w : OutboxWorld J H) (x : A * OutboxRows J) :
  rows_later (ow_rows w) x.2 -> outbox_later w (on_rows w x).2.
Proof. intros Hr. split; [done|]. split; [simpl; lia|]. simpl. reflexivity. Qed.

Lemma outbox_answers_later R w (c : OutboxCall J H R) a w' : outbox_answers R w c a w' -> outbox_later w w'.
Proof.
  destruct c; simpl; intros Ha; try (apply may_fail_inv in Ha as [[->| ->] _]; [reflexivity|]).
  - apply on_rows_later, save_in_later.
  - reflexivity.
  - apply on_rows_later, mark_processed_later.
  - apply on_rows_later, record_failure_later.
  - subst w'. split; [reflexivity|]. split; [simpl; lia|]. by exists [(h, m, is_ok a)].
Qed.

Lemma outbox_env_later w w' : outbox_env w w' -> outbox_later w w'.
Proof. intros []. split; [reflexivity|]. split; [done|reflexivity]. Qed.

(** What a claim answers with are the due rows. *)
Lemma claim_pending_rows ctx limit now t ms m :
  claim_pending ctx limit now t = Ok ms -> m ∈ ms ->
  exists r, t !! om_id m = Some r /\ m = message_of (om_id m) r /\ claimable (rc_workspace_id ctx) now (om_id m, r) = true.
Proof.
  unfold claim_pending. intros Hc Hm. destruct (collect_rows_elem _ _ _ _ Hc Hm) as ([id r] & Hr & Hp).
  apply (subseteq_take _ _) in Hr. rewrite merge_sort_Permutation in Hr.
  apply list_elem_of_In, filter_In in Hr as [Hr Hcl]. apply list_elem_of_In, elem_of_map_to_list in Hr.
  unfold parse_outbox_row in Hp. split_matches_in Hp. injection Hp as <-. exists r. by split_and!.
Qed.

(** ** The invariant *)

Context (d : dispatcher H).

(** [m] was claimed: its row is still there, maybe with more attempts. *)
Definition claimed w m : Prop := exists r, ow_rows w !! om_id m = Some r /\ same_message (om_id m) r m.

(** The handler of its topic accepted the message of the row. *)
Definition accepted w (id : OutboxId) (r : OutboxRow J) : Prop :=
  exists h m, (h, m, true) ∈ ow_handled w /\ same_message id r m /\ d !! om_topic m = Some h.

Record outbox_inv w : Prop := mkOutboxInv {
  oi_checks id r : ow_rows w !! id = Some r -> row_checks r = true;
  oi_processed id r : ow_rows w !! id = Some r -> is_some (ob_processed_at r) = true -> accepted w id r;
  oi_dead id r : ow_rows w !! id = Some r -> is_some (ob_dead_lettered_at r) = true ->
    (MAX_DELIVERY_ATTEMPTS <= ob_attempts r)%Z;
}.

Definition outbox_good R w (c : OutboxCall J H R) : Prop :=
  match c with
  | OSave _ _ | OClaim _ _ => True
  | OHandle h _ m => claimed w m /\ d !! om_topic m = Some h
  | OMark _ id => forall r, ow_rows w !! id = Some r -> accepted w id r
  | OFail _ id _ _ dead => dead = true -> exists r, ow_rows w !! id = Some r /\ (MAX_DELIVERY_ATTEMPTS <= ob_attempts r + 1)%Z
  end.

Lemma claimed_later w w' m : claimed w m -> outbox_later w w' -> claimed w' m.
Proof.
  intros (r & Hr & Hs) (Hl & _). apply Hl in Hr as (r' & Hr & L). exists r'. split; [done|]. by eapply same_message_later.
Qed.

Lemma accepted_later w w' id r r' : accepted w id r -> outbox_later w w' -> row_later r r' -> accepted w' id r'.
Proof.
  intros (h & m & Hin & Hs & Hd) (_ & _ & Hp) L. exists h, m. split; [|split; [by eapply same_message_later|done]].
  destruct Hp as [l ->]. apply elem_of_app. by left.
Qed.

Lemma store_row_lookup id r' t i x :
  (store_row id r' t).2 !! i = Some x -> t !! i = Some x \/ i = id /\ x = r' /\ row_checks r' = true.
Proof.
  unfold store_row. destruct (row_checks r') eqn:E; [|by left]. simpl. intros Hx.
  destruct (base.decide (i = id)) as [->|Hne]; [|rewrite lookup_insert_ne in Hx by done; by left].
  rewrite lookup_insert_eq in Hx. right. by simplify_eq.
Qed.

(** A change of one row keeps the invariant when the new row meets it. *)
Lemma store_row_inv w id r' :
  outbox_inv w -> outbox_later w (on_rows w (store_row id r' (ow_rows w))).2 ->
  (is_some (ob_processed_at r') = true -> accepted w id r') ->
  (is_some (ob_dead_lettered_at r') = true -> (MAX_DELIVERY_ATTEMPTS <= ob_attempts r')%Z) ->
  outbox_inv (on_rows w (store_row id r' (ow_rows w))).2.
Proof.
  intros [Hc Hp Hd] Hl Hp' Hd'. constructor; intros i x Hx; apply store_row_lookup in Hx as [Hx|(-> & -> & Hok)]; eauto;
    intros Hs; (eapply accepted_later; [by eauto|done|reflexivity]).
Qed.

Lemma outbox_answers_inv R w (c : OutboxCall J H R) a w' :
  outbox_inv w -> outbox_good R w c -> outbox_answers R w c a w' -> outbox_inv w'.
Proof.
  intros Hi Hg Ha. pose proof (outbox_answers_later _ _ _ _ _ Ha) as Hl.
  destruct c as [ctx m|ctx limit|ctx id|ctx id error ra dead|h ctx m]; simpl in Ha;
    try (apply may_fail_inv in Ha as [[->| ->] _]; [done|]); try subst w'.
  - unfold save_in in *. destruct (_ !== _); [by destruct w|]. destruct (is_some _); [by destruct w|]. by apply store_row_inv.
  - done.
  - unfold mark_processed in *. destruct (unprocessed ctx id (ow_rows w)) as [r|] eqn:E; [|by destruct w].
    apply unprocessed_Some in E as (Hr & _ & Hp). apply store_row_inv; [done|done| |exact (oi_dead _ Hi _ _ Hr)].
    intros _. destruct (Hg r Hr) as (h & m & Hin & Hs & Hd). by exists h, m.
  - unfold record_failure in *. destruct (duration_from_std ra) as [ra'|]; [|by destruct w].
    destruct (unprocessed ctx id (ow_rows w)) as [r|] eqn:E; [|by destruct w].
    apply unprocessed_Some in E as (Hr & _ & Hp). apply store_row_inv; [done|done|simpl; by rewrite Hp|].
    simpl. destruct dead.
    + intros _. destruct (Hg eq_refl) as (r0 & Hr0 & Hle). by simplify_eq.
    + intros Hs. pose proof (oi_dead _ Hi _ _ Hr Hs). lia.
  - destruct Hi as [Hc Hp Hd]. constructor; simpl; eauto. intros id r Hr Hs.
    eapply accepted_later; [by eauto|done|reflexivity].
Qed.

Lemma outbox_env_inv w w' : outbox_inv w -> outbox_env w w' -> outbox_inv w'.
Proof.
  intros [Hc Hp Hd] He. pose proof (outbox_env_later _ _ He) as Hl. destruct He. constructor; simpl; eauto.
Qed.

(** ** The drains *)

Abbreviation osafe := (safe (outbox_answers (J := J) (H := H)) outbox_later outbox_inv outbox_good).

Lemma outbox_call_later R w (c : OutboxCall J H R) a w' :
  outbox_inv w -> outbox_good R w c -> outbox_answers R w c a w' -> outbox_inv w' /\ outbox_later w w'.
Proof. intros Hi Hg Ha. split; [by eapply outbox_answers_inv|by eapply outbox_answers_later]. Qed.

(** A call that ends the method when it fails. *)
Lemma osafe_call {A B} w (c : OutboxCall J H (result ApplicationError A)) (f : A -> IM (OutboxCall J H) ApplicationError B) Q :
  (forall w1, outbox_later w w1 -> outbox_inv w1 -> outbox_good _ w1 c) ->
  (forall w1 e, Q w1 (Err e)) ->
  (forall w1 w2 a, outbox_later w w1 -> outbox_inv w1 -> outbox_answers _ w1 c (Ok a) w2 -> osafe w2 (f a) Q) ->
  osafe w (icall c ≫= f) Q.
Proof.
  intros Hg He Hf. unfold icall, mbind, IM_bind. cbn [iprog_bind safe]. intros w1 Hl Hi. split; [by apply Hg|].
  intros [a|e] w2 Ha; [by eapply Hf|]. simpl. by intros.
Qed.

Lemma saturating_attempts m r : same_message (om_id m) r m ->
  (MAX_DELIVERY_ATTEMPTS <=? saturating_add u32_max (om_attempts m) 1)%Z = true ->
  (MAX_DELIVERY_ATTEMPTS <= ob_attempts r + 1)%Z.
Proof. intros (_ & _ & _ & _ & _ & Hle). unfold saturating_add. intros Hm%Z.leb_le. lia. Qed.

Lemma drain_loop_safe ctx pending rep w :
  Forall (claimed w) pending -> osafe w (drain_loop d ctx pending rep) (fun _ _ => True).
Proof.
  revert rep w. induction pending as [|m rest IH]; intros rep w Hp; [by simpl|].
  apply Forall_cons in Hp as [Hm Hrest]. cbn [drain_loop].
  assert (Hrest' : forall w', outbox_later w w' -> Forall (claimed w') rest).
  { intros w' Hl. eapply Forall_impl; [done|]. intros x Hx. by eapply claimed_later. }
  destruct (d !! om_topic m) as [h|] eqn:Eh; [|by apply IH].
  cbn [safe]. intros w1 L1 I1. pose proof (claimed_later _ _ _ Hm L1) as Hm1. split; [done|].
  intros answer w2 Ha. simpl in Ha. pose proof Hm1 as (r1 & Hr1 & Hs1).
  assert (L2 : outbox_later w w2) by (etrans; [done|]; by apply (outbox_answers_later _ _ (OHandle h ctx m) answer)).
  destruct answer as [[]|error].
  - apply osafe_call; [|done|].
    + intros w3 L3 I3 r Hr. exists h, m. subst w2. destruct L3 as (R3 & _ & P3).
      split; [|split; [|done]].
      * destruct P3 as [l ->]. simpl. rewrite !elem_of_app, list_elem_of_singleton. auto.
      * destruct (R3 _ _ Hr1) as (r' & Hr' & L). simplify_eq. by eapply same_message_later.
    + intros w3 w4 [] L3 I3 A4. apply IH, Hrest'. etrans; [done|]. etrans; [done|]. by eapply outbox_answers_later.
  - apply osafe_call; [|done|].
    + intros w3 L3 I3 Hdead. destruct (claimed_later w w3 m Hm ltac:(by etrans)) as (r3 & Hr3 & Hs3).
      exists r3. split; [done|]. by eapply saturating_attempts.
    + intros w3 w4 [] L3 I3 A4. apply IH, Hrest'. etrans; [done|]. etrans; [done|]. by eapply outbox_answers_later.
Qed.

Lemma drain_once_safe ctx batch w : osafe w (drain_once d ctx batch) (fun _ _ => True).
Proof.
  apply osafe_call; [done|done|]. intros w1 w2 ms L1 I1 Ha. apply drain_loop_safe, Forall_forall. intros m Hm.
  simpl in Ha. apply may_fail_inv in Ha as [Hw [Hc|]]; [|done]. simpl in Hw, Hc. symmetry in Hc.
  destruct (claim_pending_rows _ _ _ _ _ _ Hc Hm) as (r & Hr & -> & _). assert (w2 = w1) as -> by naive_solver.
  exists r. split; [done|]. by repeat split.
Qed.

Lemma drain_outbox_safe contexts outcome w : osafe w (drain_outbox d contexts outcome) (fun _ _ => True).
Proof.
  revert outcome w. induction contexts as [|ctx rest IH]; intros outcome w; [by simpl|]. cbn [drain_outbox].
  eapply (safe_bind _ _ _ _ outbox_call_later); [apply drain_once_safe|]. intros w1 a _ _ _. apply IH.
Qed.

Lemma outbox_starts_safe p w : outbox_starts d p -> outbox_inv w -> osafe w p (fun _ _ => True).
Proof.
  intros [ctx batch|contexts|ctx m] Hi; apply (safe_bind _ _ _ _ outbox_call_later) with (Q := fun _ _ => True); try by simpl.
  - apply drain_once_safe.
  - apply drain_outbox_safe.
Qed.

Lemma outbox_pool_ok w0 s :
  outbox_inv w0 -> outbox_reaches d (w0, []) s ->
  pool_ok (outbox_answers (J := J) (H := H)) outbox_later outbox_inv outbox_good s /\ outbox_later w0 s.1.
Proof.
  intros Hi Hr. eapply (pool_reaches_ok outbox_answers outbox_later outbox_inv outbox_good outbox_call_later
    (outbox_starts d) outbox_env) in Hr; [done|..].
  - intros w w' Hw He. split; [by eapply outbox_env_inv|by apply outbox_env_later].
  - intros p w Hp Hw. by apply outbox_starts_safe.
  - split; [done|by constructor].
Qed.

End Props.
