(* ===== verification/OutboxSpec.v ===== *)
(** * What the outbox guarantees

    However drains, workers and producers interleave, fail or lose answers: a processed message was
    accepted by its handler, a dead letter was refused as often as the policy asks, and no message
    is lost.  A drain that runs alone settles exactly what it claimed.  And a message nobody handles
    is never set aside: a batch of them holds back everything behind it. *)

From Stdlib Require Import ZArith Lia String.
From stdpp Require Import base option numbers strings gmap sorting list.
From S2P Require Import Prelude Codec Crypto Text RunStatus RunDecider AgentRun RunReplay RunPorts RunStore WorkQueue.
From S2P Require Import PgRunStore RunHandlers RunWorker ResourceScope Capability PolicyEngine ExternalEffects EffectStore.
From S2P Require Import EffectStoreProps EffectRecoveryProps EffectProps Interaction Outbox OutboxProps.

Section Spec.
Context {J H : Type}.
Implicit Types (w : OutboxWorld J H) (r : OutboxRow J) (m : OutboxMessage J).

(** The outbox before anything was saved. *)
Definition no_messages (now : Timestamp) : OutboxWorld J H := mkOutboxWorld ∅ now [].

Lemma no_messages_inv d now : outbox_inv d (no_messages now).
Proof. by constructor; simpl. Qed.

(** ** Counting refusals *)

Definition owe (o : option Z) (id : OutboxId) : Z := if o == Some id then 1 else 0.

(** The refusals a thread still has to record: at most one, by its next call. *)
Definition credit {A} (p : iprog (OutboxCall J H) A) : option Z :=
  match p with
  | ICall c _ => match c with OFail _ id _ _ _ => Some id | _ => None end
  | IRet _ => None
  end.

Definition owes {R} (c : OutboxCall J H R) : R -> option Z :=
  match c in OutboxCall _ _ R return R -> option Z with
  | OHandle _ _ m => fun a => match a with Err _ => Some (om_id m) | Ok _ => None end
  | _ => fun _ => None
  end.

Definition call_credit {R} (c : OutboxCall J H R) : option Z :=
  match c with OFail _ id _ _ _ => Some id | _ => None end.

(** A refusal is recorded only after it happened, and once. *)
Fixpoint disciplined {A} (p : iprog (OutboxCall J H) A) : Prop :=
  match p with
  | IRet _ => True
  | ICall c k => forall a, (credit (k a) = None \/ credit (k a) = owes c a) /\ disciplined (k a)
  end.

Definition attempts_of w (id : OutboxId) : Z := match ow_rows w !! id with Some r => ob_attempts r | None => 0 end.

(** How often a handler refused the message. *)
Definition refusals w (id : OutboxId) : Z :=
  Z.of_nat (length (List.filter (fun e => negb e.2 && (om_id e.1.2 =? id)%Z) (ow_handled w))).

Definition debts (ps : list (iprog (OutboxCall J H) unit)) (id : OutboxId) : Z :=
  foldr (fun p n => owe (credit p) id + n)%Z 0%Z ps.

Lemma debts_app ps qs id : debts (ps ++ qs) id = (debts ps id + debts qs id)%Z.
Proof. induction ps as [|p ps IH]; simpl; [done|]. rewrite IH. lia. Qed.

Lemma owe_bounds o id : (0 <= owe o id <= 1)%Z.
Proof. unfold owe. destruct (_ == _); lia. Qed.

Lemma disciplined_bind {A B} (f : A -> iprog (OutboxCall J H) B) (p : iprog (OutboxCall J H) A) :
  disciplined p -> (forall a, credit (f a) = None /\ disciplined (f a)) ->
  disciplined (iprog_bind f p) /\ credit (iprog_bind f p) = credit p.
Proof.
  intros Hp Hf. induction p as [a|R c k IH]; simpl in *; [by destruct (Hf a)|]. split; [|done].
  intros a. destruct (Hp a) as [Hc Hd]. destruct (IH a Hd) as [Hd' Hc']. by rewrite Hc'.
Qed.

Lemma drain_loop_disciplined d ctx pending rep :
  credit (drain_loop (J := J) (H := H) d ctx pending rep) = None /\ disciplined (drain_loop d ctx pending rep).
Proof.
  revert rep. induction pending as [|m rest IH]; intros rep; [done|]. cbn [drain_loop].
  destruct (d !! om_topic m) as [h|]; [|apply IH]. split; [done|]. intros [[]|e].
  - split; [by left|]. intros [[]|e]; simpl; (split; [left|]); try done; apply IH.
  - split; [by right|]. intros [[]|e']; simpl; (split; [left|]); try done; apply IH.
Qed.

Lemma drain_once_disciplined d ctx batch :
  credit (drain_once (J := J) (H := H) d ctx batch) = None /\ disciplined (drain_once d ctx batch).
Proof.
  split; [done|]. intros [ms|e]; simpl; (split; [left|]); try done; apply drain_loop_disciplined.
Qed.

Lemma drain_outbox_disciplined d contexts outcome :
  credit (drain_outbox (J := J) (H := H) d contexts outcome) = None /\ disciplined (drain_outbox d contexts outcome).
Proof.
  revert outcome. induction contexts as [|ctx rest IH]; intros outcome; [done|]. cbn [drain_outbox].
  destruct (drain_once_disciplined d ctx OUTBOX_BATCH) as [Hc Hd].
  match goal with |- credit (iprog_bind ?g _) = _ /\ _ => destruct (disciplined_bind g _ Hd) as [H1 H2] end.
  - intros a. apply IH.
  - split; [|done]. by rewrite H2.
Qed.

Lemma starts_disciplined d p : outbox_starts (J := J) (H := H) d p -> credit p = None /\ disciplined p.
Proof.
  intros [ctx batch|contexts|ctx m].
  - destruct (drain_once_disciplined d ctx batch) as [Hc Hd].
    destruct (disciplined_bind (fun _ => IRet tt) _ Hd) as [H1 H2]; [done|]. split; [|done]. unfold detach. by rewrite H2.
  - destruct (drain_outbox_disciplined d contexts (mkPoll false false)) as [Hc Hd].
    destruct (disciplined_bind (fun _ => IRet tt) _ Hd) as [H1 H2]; [done|]. split; [|done]. unfold detach. by rewrite H2.
  - split; [done|]. intros a. simpl. by split; [left|].
Qed.

Lemma store_row_attempts w id r' i :
  (attempts_of (on_rows w (store_row id r' (ow_rows w))).2 i <=
   attempts_of w i + (if (i =? id)%Z then Z.max 0 (ob_attempts r' - attempts_of w id) else 0))%Z.
Proof.
  unfold attempts_of, store_row. destruct (row_checks r'); simpl; [|destruct (_ =? _)%Z; lia].
  destruct (Z.eqb_spec i id) as [->|Hne]; [rewrite lookup_insert_eq|rewrite lookup_insert_ne by done]; lia.
Qed.

Lemma answers_counts R w (c : OutboxCall J H R) a w' id :
  outbox_answers R w c a w' ->
  (attempts_of w' id <= attempts_of w id + owe (call_credit c) id)%Z /\
  refusals w' id = (refusals w id + owe (owes c a) id)%Z.
Proof.
  destruct c as [ctx m|ctx limit|ctx i|ctx i error ra dead|h ctx m]; simpl; intros Ha;
    try (apply may_fail_inv in Ha as [[->| ->] _]; [pose proof (owe_bounds None id);
      try pose proof (owe_bounds (Some i) id); unfold owe in *; simpl in *; lia|]).
  - split; [|unfold refusals, owe; simpl; lia]. unfold save_in. destruct (_ !== _); [unfold attempts_of, owe; simpl; lia|].
    destruct (ow_rows w !! om_id m) eqn:E; cbn [is_some]; [unfold attempts_of, owe; simpl; lia|].
    etrans; [apply store_row_attempts|]. simpl. unfold attempts_of at 2. rewrite E. destruct (_ =? _)%Z; unfold owe; simpl; lia.
  - unfold owe; simpl; lia.
  - split; [|unfold refusals, owe; simpl; lia]. unfold mark_processed.
    destruct (unprocessed ctx i (ow_rows w)) as [r|] eqn:E; [|unfold attempts_of, owe; simpl; lia].
    apply unprocessed_Some in E as (Hr & _). etrans; [apply store_row_attempts|]. simpl.
    unfold attempts_of at 2. rewrite Hr. destruct (_ =? _)%Z; unfold owe; simpl; lia.
  - split; [|unfold refusals, owe; simpl; lia]. pose proof (owe_bounds (Some i) id). unfold record_failure.
    destruct (duration_from_std ra); [|unfold attempts_of; simpl; lia].
    destruct (unprocessed ctx i (ow_rows w)) as [r|] eqn:E; [|unfold attempts_of; simpl; lia].
    apply unprocessed_Some in E as (Hr & _). etrans; [apply store_row_attempts|]. simpl.
    unfold attempts_of at 2. rewrite Hr. destruct (Z.eqb_spec id i) as [->|]; [|lia]. unfold owe. rewrite eqb_refl. lia.
  - subst w'. split; [unfold attempts_of, owe; simpl; lia|]. unfold refusals. simpl. rewrite List.filter_app, length_app. simpl.
    destruct a as [[]|e]; simpl; [unfold owe; simpl; lia|].
    unfold owe, eqb. destruct (Z.eqb_spec (om_id m) id) as [->|Hne].
    + rewrite bool_decide_eq_true_2 by done. simpl. lia.
    + rewrite bool_decide_eq_false_2 by congruence. simpl. lia.
Qed.

Definition counted (s : OutboxWorld J H * list (iprog (OutboxCall J H) unit)) : Prop :=
  Forall disciplined s.2 /\ forall id, (attempts_of s.1 id + debts s.2 id <= refusals s.1 id)%Z.

Lemma pool_counted d s s' : counted s -> outbox_reaches d s s' -> counted s'.
Proof.
  intros Hs. apply pool_invariant; [|done]. clear. intros s s' [Hd Hc] Hst.
  destruct Hst as [w pre post R c k a w' Ha|w ps p Hp|w pre p post|w ps w' He]; unfold counted; simpl in *.
  - apply Forall_app in Hd as [Hpre [Hk Hpost]%Forall_cons]. destruct (Hk a) as [Hcr Hd].
    split; [apply Forall_app; split; [done|by constructor]|]. intros id. specialize (Hc id).
    rewrite debts_app in *. simpl in *. destruct (answers_counts _ _ _ _ _ id Ha) as [Hat ->].
    change (match c with OFail _ i _ _ _ => Some i | _ => None end) with (call_credit c) in Hc.
    pose proof (owe_bounds (owes c a) id). destruct Hcr as [->| ->]; [|lia]. unfold owe at 1. simpl. lia.
  - destruct (starts_disciplined _ _ Hp) as [Hc0 Hd0]. split; [by apply Forall_app_2; [|constructor]|].
    intros id. rewrite debts_app. simpl. rewrite Hc0. specialize (Hc id). unfold owe. simpl. lia.
  - apply Forall_app in Hd as [Hpre [_ Hpost]%Forall_cons]. split; [by apply Forall_app|]. intros id.
    specialize (Hc id). rewrite debts_app in *. simpl in Hc. pose proof (owe_bounds (credit p) id). lia.
  - split; [done|]. intros id. specialize (Hc id). destruct He. done.
Qed.

Lemma reached_counted d now s : outbox_reaches d (no_messages now, []) s -> counted s.
Proof. apply pool_counted. split; [constructor|]. intros id. unfold attempts_of, refusals. simpl. rewrite lookup_empty. lia. Qed.

Lemma debts_nonneg ps id : (0 <= debts ps id)%Z.
Proof. induction ps as [|p ps IH]; simpl; [lia|]. pose proof (owe_bounds (credit p) id). lia. Qed.

(** ** Settled messages *)

(** C23.  However drains, workers and producers interleave, fail or lose their answers, a message that
    is marked as processed was accepted by the handler registered for its topic, with the payload of
    its row. *)
Theorem processed_message_was_accepted (d : dispatcher H) now w ps id r t :
  outbox_reaches d (no_messages now, []) (w, ps) ->
  ow_rows w !! id = Some r -> ob_processed_at r = Some t ->
  exists h m, (h, m, true) ∈ ow_handled w /\ d !! ob_topic r = Some h /\
    om_id m = id /\ om_topic m = ob_topic r /\ om_payload m = ob_payload r.
Proof.
  intros Hr Hrow Hp. destruct (outbox_pool_ok d _ _ (no_messages_inv d now) Hr) as [[Hi _] _]. simpl in Hi.
  destruct (oi_processed _ _ Hi _ _ Hrow) as (h & m & Hin & (Hid & _ & Ht & Hpl & _) & Hd); [by rewrite Hp|].
  exists h, m. by rewrite <-Ht.
Qed.

(** A dead letter was refused by handlers at least [MAX_DELIVERY_ATTEMPTS] times, is not processed, and
    no message counts more attempts than it met refusals, however many drains ran at once. *)
Theorem dead_letter_was_refused (d : dispatcher H) now w ps id r :
  outbox_reaches d (no_messages now, []) (w, ps) -> ow_rows w !! id = Some r ->
  (0 <= ob_attempts r <= refusals w id)%Z /\
  forall t, ob_dead_lettered_at r = Some t ->
    (MAX_DELIVERY_ATTEMPTS <= refusals w id)%Z /\ ob_processed_at r = None.
Proof.
  intros Hr Hrow. destruct (outbox_pool_ok d _ _ (no_messages_inv d now) Hr) as [[Hi _] _]. simpl in Hi.
  destruct (reached_counted _ _ _ Hr) as [_ Hc]. specialize (Hc id). simpl in Hc.
  pose proof (debts_nonneg ps id) as Hn. unfold attempts_of in Hc. rewrite Hrow in Hc.
  pose proof (oi_checks _ _ Hi _ _ Hrow) as Hk. unfold row_checks in Hk.
  apply andb_prop in Hk as [[[Hs H0]%andb_prop _]%andb_prop _]. apply Z.leb_le in H0.
  split; [lia|]. intros t Ht. pose proof (oi_dead _ _ Hi _ _ Hrow). rewrite Ht in *. split; [simpl in *; lia|].
  apply orb_prop in Hs as [Hs|]; [|done]. by apply is_none_true.
Qed.

(** A saved message is never lost or changed: in every later state its row is there with its topic and
    payload, and it stays pending until it is processed or set aside as a dead letter. *)
Theorem message_is_kept (d : dispatcher H) now s1 s2 id r :
  outbox_reaches d (no_messages now, []) s1 -> outbox_reaches d s1 s2 -> ow_rows s1.1 !! id = Some r ->
  exists r', ow_rows s2.1 !! id = Some r' /\
    ob_workspace_id r' = ob_workspace_id r /\ ob_topic r' = ob_topic r /\ ob_payload r' = ob_payload r /\
    ob_created_at r' = ob_created_at r /\ (ob_attempts r <= ob_attempts r')%Z /\
    (ob_processed_at r' = None -> ob_processed_at r = None).
Proof.
  intros H1 H2 Hrow. destruct (outbox_pool_ok d _ _ (no_messages_inv d now) H1) as [Hok _].
  eapply (pool_reaches_ok _ _ _ _ (outbox_call_later d) (outbox_starts d) outbox_env) in H2 as [_ (Hl & _)]; [|..|done].
  - apply Hl in Hrow as (r' & Hr' & []). exists r'. split_and!; try done.
    intros Hn. destruct rl_processed as [E|]; [by rewrite E|done].
  - intros w w' Hw He. split; [by eapply outbox_env_inv|by apply outbox_env_later].
  - intros p w Hp Hw. by apply outbox_starts_safe.
Qed.

(** ** Messages nobody handles *)

(** The workers of a deployment and its producers. *)
Inductive worker_starts (d : dispatcher H) : iprog (OutboxCall J H) unit -> Prop :=
| worker_drains contexts : worker_starts d (detach (drain_outbox d contexts (mkPoll false false)))
| producer_saves ctx m : worker_starts d (detach (icall (OSave ctx m))).

Definition workers_reach (d : dispatcher H) := pool_reaches (outbox_answers (J := J) (H := H)) (worker_starts d) outbox_env.

(** [ids] are due messages without a handler that a claim takes before [id]. *)
Definition held_back (d : dispatcher H) w (id : OutboxId) (r : OutboxRow J) (ids : list OutboxId) : Prop :=
  ow_rows w !! id = Some r /\ NoDup ids /\ (OUTBOX_BATCH <= Z.of_nat (length ids))%Z /\
  forall i, i ∈ ids -> i <> id /\ exists ri, ow_rows w !! i = Some ri /\ d !! ob_topic ri = None /\
    claimable (ob_workspace_id r) (ow_now w) (i, ri) = true /\ claimed_before (i, ri) (id, r).

#[export] Instance claimed_before_trans : Transitive (claimed_before (J := J)).
Proof. intros [i a] [j b] [k c]. unfold claimed_before. simpl. lia. Qed.

#[export] Instance claimed_before_total : Total (claimed_before (J := J)).
Proof. intros [i a] [j b]. unfold claimed_before. simpl. lia. Qed.

(** What is behind the first [n] of a sorted list has [n] elements before it. *)
Lemma not_in_first {A} (R : relation A) (l l' : list A) (n : nat) x :
  StronglySorted R l -> NoDup l' -> l' ⊆ l -> x ∉ l' ->
  (forall y, y ∈ l' -> y <> x /\ (R x y -> False)) -> n <= length l' -> x ∉ take n l.
Proof.
  intros Hs Hnd Hsub Hx Hbefore Hn Hin.
  assert (Hall : x :: l' ⊆ take n l).
  { intros y [->|Hy]%elem_of_cons; [done|]. pose proof (Hsub _ Hy) as Hl. rewrite <-(take_drop n l) in Hl, Hs.
    apply elem_of_app in Hl as [|Hd]; [done|]. exfalso. apply (Hbefore y Hy).
    by apply (StronglySorted_app_1_elem_of _ _ _ _ _ Hs). }
  assert (Hsm : x :: l' ⊆+ take n l).
  { apply NoDup_submseteq; [by constructor|]. intros y Hy. by apply Hall. }
  apply submseteq_length in Hsm. simpl in Hsm. rewrite length_take in Hsm. lia.
Qed.

Lemma claimed_before_asym a b : claimed_before (J := J) a b -> a.1 <> b.1 -> claimed_before b a -> False.
Proof. unfold claimed_before. lia. Qed.

Lemma claimable_mono ws now now' (e : OutboxId * OutboxRow J) :
  claimable ws now e = true -> (now <= now')%Z -> claimable ws now' e = true.
Proof.
  destruct e as [i r]. unfold claimable. intros [Hc Hn%Z.leb_le]%andb_prop Hle. rewrite Hc. simpl. apply Z.leb_le. lia.
Qed.

Lemma claimable_workspace ws now i (r : OutboxRow J) : claimable ws now (i, r) = true -> ob_workspace_id r = ws.
Proof. unfold claimable. intros Hc. by repeat apply andb_prop in Hc as [Hc _]; apply eqb_true. Qed.

Section Blocked.
Context (d : dispatcher H) (w0 : OutboxWorld J H) (id : OutboxId) (r0 : OutboxRow J) (ids : list OutboxId).
Context (Hheld : held_back d w0 id r0 ids).

Definition kept (i : OutboxId) : Prop := i = id \/ i ∈ ids.

(** Their rows are as they were and no handler was called for them. *)
Definition still_held w : Prop :=
  (ow_now w0 <= ow_now w)%Z /\ (forall i, kept i -> ow_rows w !! i = ow_rows w0 !! i) /\
  exists es, ow_handled w = ow_handled w0 ++ es /\ Forall (fun e => ~ kept (om_id e.1.2)) es.

Definition spares R w (c : OutboxCall J H R) : Prop :=
  match c with
  | OMark _ i | OFail _ i _ _ _ => ~ kept i
  | OHandle _ _ m => ~ kept (om_id m)
  | _ => True
  end.

Definition anything w w' : Prop := True.

#[export] Instance anything_pre : PreOrder anything.
Proof. done. Qed.

Lemma kept_present i : kept i -> is_some (ow_rows w0 !! i) = true.
Proof. destruct Hheld as (Hid & _ & _ & Hall). intros [->|Hi]; [by rewrite Hid|]. by destruct (Hall i Hi) as (_ & ri & -> & _). Qed.

Lemma store_row_held w i r' : still_held w -> ~ kept i -> still_held (on_rows w (store_row i r' (ow_rows w))).2.
Proof.
  intros (Hn & Hk & Hh) Hi. split; [done|]. split; [|done]. intros j Hj. simpl. unfold store_row. destruct (row_checks r'); simpl; [|by apply Hk].
  rewrite lookup_insert_ne; [by apply Hk|]. by intros ->.
Qed.

Lemma answers_held R w (c : OutboxCall J H R) a w' :
  still_held w -> spares R w c -> outbox_answers R w c a w' -> still_held w' /\ anything w w'.
Proof.
  intros Hh Hg Ha. split; [|done].
  destruct c as [ctx m|ctx limit|ctx i|ctx i error ra dead|h ctx m]; simpl in Ha, Hg;
    try (apply may_fail_inv in Ha as [[->| ->] _]; [done|]); try (by subst w').
  - unfold save_in. destruct (_ !== _); [by destruct w|]. destruct (is_some (ow_rows w !! om_id m)) eqn:E; [by destruct w|].
    apply store_row_held; [done|]. intros Hk. rewrite (proj1 (proj2 Hh) _ Hk), kept_present in E by done. done.
  - done.
  - unfold mark_processed. destruct (unprocessed _ _ _); [by apply store_row_held|by destruct w].
  - unfold record_failure. destruct (duration_from_std ra); [|by destruct w].
    destruct (unprocessed _ _ _); [by apply store_row_held|by destruct w].
  - subst w'. destruct Hh as (Hn & Hk & es & Hes & Hall). split; [done|]. split; [done|]. eexists (es ++ [_]). simpl.
    rewrite Hes, app_assoc. split; [reflexivity|]. apply Forall_app; split; [done|]. by constructor.
Qed.

(** No claim of a worker returns the message behind. *)
Lemma claim_passes ctx w ms m :
  still_held w -> claim_pending ctx OUTBOX_BATCH (ow_now w) (ow_rows w) = Ok ms -> m ∈ ms -> om_id m <> id.
Proof.
  intros (Hn & Hk & _) Hc Hm Heq. destruct (claim_pending_rows _ _ _ _ _ _ Hc Hm) as (r & Hr & Hmr & Hcl).
  destruct Hheld as (Hid & Hnd & Hlen & Hall).
  rewrite Heq, (Hk id (or_introl eq_refl)), Hid in Hr. injection Hr as <-.
  unfold claim_pending in Hc. destruct (collect_rows_elem _ _ _ _ Hc Hm) as ([j rj] & Hj & Hp).
  unfold parse_outbox_row in Hp. split_matches_in Hp. injection Hp as <-. simpl in *. subst j.
  assert (rj = r0) as ->.
  { pose proof Hj as Hj'. apply (subseteq_take _ _) in Hj'. rewrite merge_sort_Permutation in Hj'.
    apply list_elem_of_In, filter_In in Hj' as [Hj' _]. apply list_elem_of_In, elem_of_map_to_list in Hj'.
    rewrite (Hk id (or_introl eq_refl)), Hid in Hj'. by injection Hj'. }
  apply (claimable_workspace _ _ id) in Hcl.
  set (row_of i := default r0 (ow_rows w0 !! i)).
  revert Hj. apply (not_in_first claimed_before _ ((fun i => (i, row_of i)) <$> ids)).
  - apply Sorted_StronglySorted; [apply _|]. apply Sorted_merge_sort. apply _.
  - apply NoDup_fmap_2; [|done]. intros i j Hij. by injection Hij.
  - intros [i ri] [i' [[= -> ->] Hi]]%list_elem_of_fmap. destruct (Hall _ Hi) as (_ & ri & Hri & _ & Hci & _).
    rewrite merge_sort_Permutation. apply list_elem_of_In, filter_In. unfold row_of. rewrite Hri. simpl.
    split; [apply list_elem_of_In, elem_of_map_to_list; rewrite (Hk _ (or_intror Hi)); done|].
    rewrite <-Hcl. by apply (claimable_mono _ (ow_now w0) _ (i', ri)).
  - intros (i' & [= Hi _] & Hin)%list_elem_of_fmap_1. destruct (Hall _ Hin) as [Hne _]. by subst i'.
  - intros [i ri] [i' [[= -> ->] Hi]]%list_elem_of_fmap. destruct (Hall _ Hi) as (Hne & ri & Hri & _ & _ & Hb).
    unfold row_of. rewrite Hri. simpl. split; [congruence|]. intros Hb'. exact (claimed_before_asym _ _ Hb Hne Hb').
  - rewrite length_fmap. lia.
Qed.

(** Of those before it a claim returns only what nobody handles. *)
Lemma claim_held ctx w ms m :
  still_held w -> claim_pending ctx OUTBOX_BATCH (ow_now w) (ow_rows w) = Ok ms -> m ∈ ms ->
  d !! om_topic m = None \/ ~ kept (om_id m).
Proof.
  intros Hh Hc Hm. pose proof (claim_passes _ _ _ _ Hh Hc Hm) as Hne.
  destruct (base.decide (om_id m ∈ ids)) as [Hi|Hi]; [left|right; by intros [|]].
  destruct (claim_pending_rows _ _ _ _ _ _ Hc Hm) as (r & Hr & Hmr & _).
  destruct Hheld as (_ & _ & _ & Hall). destruct Hh as (_ & Hk & _).
  destruct (Hall _ Hi) as (_ & ri & Hri & Hd & _). rewrite (Hk _ (or_intror Hi)), Hri in Hr. injection Hr as <-. by rewrite Hmr.
Qed.

Abbreviation hsafe := (safe (outbox_answers (J := J) (H := H)) anything still_held spares).

Lemma drain_loop_spares ctx pending rep w :
  Forall (fun m => d !! om_topic m = None \/ ~ kept (om_id m)) pending ->
  hsafe w (drain_loop d ctx pending rep) (fun _ _ => True).
Proof.
  revert rep w. induction pending as [|m rest IH]; intros rep w Hp; [by simpl|]. cbn [drain_loop].
  apply Forall_cons in Hp as [Hm Hrest]. destruct (d !! om_topic m) as [h|]; [|by apply IH].
  destruct Hm as [|Hm]; [done|]. intros w1 _ _. split; [exact Hm|]. intros [[]|e] w2 _; intros w3 _ _; (split; [exact Hm|]);
    intros [[]|e'] w4 _; try (by simpl); by apply IH.
Qed.

Lemma drain_once_spares ctx w : hsafe w (drain_once d ctx OUTBOX_BATCH) (fun _ _ => True).
Proof.
  intros w1 _ Hi. split; [done|]. intros [ms|e] w2 Ha; [|by simpl]. simpl.
  apply drain_loop_spares, Forall_forall. intros m Hm. apply may_fail_inv in Ha as [_ [Hc|]]; [|done]. by eapply claim_held.
Qed.

Lemma worker_spares p w : worker_starts d p -> still_held w -> hsafe w p (fun _ _ => True).
Proof.
  intros [contexts|ctx m] Hi; apply (safe_bind _ _ _ _ answers_held) with (Q := fun _ _ => True); try by simpl.
  generalize (mkPoll false false). revert w Hi. induction contexts as [|ctx rest IH]; intros w Hi outcome; [by simpl|].
  cbn [drain_outbox]. eapply (safe_bind _ _ _ _ answers_held); [apply drain_once_spares|]. intros w1 a _ Hi1 _. by apply IH.
Qed.

(** A program in flight that, whatever it is still answered, touches none of these messages: one that has not
    claimed yet, or whose claim returned others. *)
Definition passes_by (p : iprog (OutboxCall J H) unit) : Prop := hsafe w0 p (fun _ _ => True).

Lemma still_held_w0 : still_held w0.
Proof. split; [lia|]. split; [done|]. exists []. by rewrite app_nil_r. Qed.

Lemma worker_passes_by p : worker_starts d p -> passes_by p.
Proof. intros Hp. by apply worker_spares, still_held_w0. Qed.

End Blocked.

(** C37.  When as many due messages without a handler as a batch holds come before a message, and no program in
    flight has one of them or the message itself at hand, no worker ever reaches it: whatever the workers and
    producers do from then on, however often calls fail or lose their answers, and however long they run, no claim
    of a worker returns the message, no handler is called for it and its row stays as it is. *)
Theorem unhandled_messages_block_outbox (d : dispatcher H) w0 id r ids ps0 w ps :
  held_back d w0 id r ids -> Forall (passes_by w0 id ids) ps0 -> workers_reach d (w0, ps0) (w, ps) ->
  ow_rows w !! id = Some r /\
  (forall ctx ms, claim_pending ctx OUTBOX_BATCH (ow_now w) (ow_rows w) = Ok ms -> id ∉ om_id <$> ms) /\
  exists es, ow_handled w = ow_handled w0 ++ es /\ Forall (fun e => om_id e.1.2 <> id) es.
Proof.
  intros Hheld Hps Hr.
  eapply (pool_reaches_ok _ (anything) (still_held w0 id ids) (spares id ids)
    (answers_held d w0 id r ids Hheld)) in Hr as [[Hh _] _].
  - pose proof Hh as (_ & Hk & es & Hes & Hall). split; [rewrite Hk by (by left); by destruct Hheld|]. split.
    + intros ctx ms Hc (m & Heq & Hm)%list_elem_of_fmap. by eapply claim_passes.
    + exists es. split; [exact Hes|]. eapply Forall_impl; [exact Hall|]. intros e Hne Heq. apply Hne. by left.
  - intros w1 w2 (Hn & Hk) He. destruct He as [w3 now Hle]. split; [|done]. split; [cbn; lia|done].
  - intros p w1. by eapply worker_spares.
  - split; [apply still_held_w0|exact Hps].
Qed.

End Spec.
