(* ===== verification/OutboxDrain.v ===== *)
(** * One drain of the outbox

    What [drain_once] does to the table when it runs alone, message by message, and what that means
    for a message that is due. *)

From Stdlib Require Import ZArith Lia String.
From stdpp Require Import base option numbers strings gmap sorting list.
From S2P Require Import Prelude Codec Crypto Text RunStatus RunDecider AgentRun RunReplay RunPorts RunStore WorkQueue.
From S2P Require Import PgRunStore RunHandlers RunWorker ResourceScope Capability PolicyEngine ExternalEffects EffectStore.
From S2P Require Import EffectStoreProps EffectRecoveryProps EffectProps Interaction Outbox OutboxProps OutboxSpec.

Section Drain.
Context {J H : Type} (d : dispatcher H) (say : H -> OutboxMessage J -> result text unit).
Implicit Types (w : OutboxWorld J H) (r : OutboxRow J) (m : OutboxMessage J).

(** The specification of one delivery: what becomes of the row of a claimed message... *)
Definition delivered_row (now : Timestamp) r : OutboxRow J :=
  mkOutboxRow (ob_workspace_id r) (ob_topic r) (ob_payload r) (Some now) (ob_created_at r) (ob_attempts r)
    (ob_next_attempt_at r) (ob_last_attempt_at r) (ob_last_error r) (ob_dead_lettered_at r).

Definition refused_row (now : Timestamp) (error : text) r : OutboxRow J :=
  mkOutboxRow (ob_workspace_id r) (ob_topic r) (ob_payload r) (ob_processed_at r) (ob_created_at r)
    (ob_attempts r + 1) (now + outbox_retry_delay (ob_attempts r + 1)) (Some now) (Some (take 2000 error))
    (if (MAX_DELIVERY_ATTEMPTS <=? ob_attempts r + 1)%Z then Some now else ob_dead_lettered_at r).

Definition settled_row (now : Timestamp) (id : OutboxId) r : OutboxRow J :=
  match d !! ob_topic r with
  | None => r
  | Some h => match say h (message_of id r) with Ok _ => delivered_row now r | Err e => refused_row now e r end
  end.

(** ... and how it is counted. *)
Definition tally (rep : DrainReport) m : DrainReport :=
  match d !! om_topic m with
  | None => mkReport (dr_delivered rep) (dr_unhandled rep + 1) (dr_failed rep) (dr_dead_lettered rep)
  | Some h =>
      match say h m with
      | Ok _ => mkReport (dr_delivered rep + 1) (dr_unhandled rep) (dr_failed rep) (dr_dead_lettered rep)
      | Err _ => mkReport (dr_delivered rep) (dr_unhandled rep) (dr_failed rep + 1)
          (if (MAX_DELIVERY_ATTEMPTS <=? om_attempts m + 1)%Z then dr_dead_lettered rep + 1 else dr_dead_lettered rep)
      end
  end.

(** Rows the counter column has room for. *)
Definition sound_rows (t : OutboxRows J) : Prop :=
  forall id r, t !! id = Some r -> row_checks r = true /\ (ob_attempts r < 2 ^ 31 - 1)%Z.

(** A message that was just claimed. *)
Definition due (ctx : RequestContext) w m : Prop :=
  exists r, ow_rows w !! om_id m = Some r /\ m = message_of (om_id m) r /\
    claimable (rc_workspace_id ctx) (ow_now w) (om_id m, r) = true /\
    row_checks r = true /\ (ob_attempts r < 2 ^ 31 - 1)%Z.

Lemma due_row ctx w m : due ctx w m -> exists r, unprocessed ctx (om_id m) (ow_rows w) = Some r /\
  m = message_of (om_id m) r /\ ob_dead_lettered_at r = None /\ row_checks r = true /\ (ob_attempts r < 2 ^ 31 - 1)%Z.
Proof.
  intros (r & Hr & Hm & Hc & Hk & Hlt). exists r. unfold claimable in Hc. apply andb_prop in Hc as [[Hc Hd]%andb_prop _].
  apply is_none_true in Hd. split_and!; try done. unfold unprocessed. rewrite Hr. cbn [opt_filter]. by rewrite Hc.
Qed.

(** A message stays due while other rows change. *)
Lemma due_elsewhere ctx w w' m :
  due ctx w m -> ow_now w' = ow_now w -> ow_rows w' !! om_id m = ow_rows w !! om_id m -> due ctx w' m.
Proof. intros (r & Hr & Hd) Hn Hsame. exists r. by rewrite Hsame, Hn. Qed.

Lemma checks_bounds r : row_checks r = true -> (0 <= ob_attempts r)%Z.
Proof. unfold row_checks. intros [[[_ Ha]%andb_prop _]%andb_prop _]%andb_prop. lia. Qed.

Lemma delivered_row_checks now r : row_checks r = true -> ob_dead_lettered_at r = None -> row_checks (delivered_row now r) = true.
Proof.
  unfold row_checks, delivered_row. simpl. intros [[[_ Ha]%andb_prop Hb]%andb_prop _]%andb_prop Hd. by rewrite Ha, Hb, Hd.
Qed.

Lemma refused_row_checks now e r :
  row_checks r = true -> (ob_attempts r < 2 ^ 31 - 1)%Z -> ob_processed_at r = None -> row_checks (refused_row now e r) = true.
Proof.
  intros Hk Hlt Hp. pose proof (checks_bounds _ Hk) as H0. unfold row_checks, refused_row. simpl. rewrite Hp. simpl.
  rewrite !andb_true_iff, orb_true_iff, !Z.leb_le, Z.ltb_lt. lia.
Qed.

Lemma retry_delay_fits n : duration_from_std (outbox_retry_delay n) = Ok (outbox_retry_delay n).
Proof.
  unfold duration_from_std, outbox_retry_delay, seconds, saturating_sub.
  assert (Z.shiftl 30 (Z.min (Z.max 0 (n - 1)) 4) <= 480)%Z.
  { rewrite Z.shiftl_mul_pow2 by lia. assert (2 ^ Z.min (Z.max 0 (n - 1)) 4 <= 2 ^ 4)%Z by (apply Z.pow_le_mono_r; lia). lia. }
  destruct (Z.leb_spec (Z.shiftl 30 (Z.min (Z.max 0 (n - 1)) 4) * 10 ^ 9) (isize_max * 10 ^ 6)); [done|].
  unfold isize_max in *. lia.
Qed.

(** One message, alone. *)
Lemma deliver_alone ctx w m h :
  due ctx w m -> d !! om_topic m = Some h ->
  exists r, ow_rows w !! om_id m = Some r /\ m = message_of (om_id m) r /\
  let w1 := handled w h m (is_ok (say h m)) in
  let x :=
    match say h m with
    | Ok _ => outbox_answer say (OMark ctx (om_id m)) w1
    | Err e =>
        let attempts := saturating_add u32_max (om_attempts m) 1 in
        outbox_answer say (OFail ctx (om_id m) e (outbox_retry_delay attempts) (MAX_DELIVERY_ATTEMPTS <=? attempts)%Z) w1
    end in
  x = (Ok tt, mkOutboxWorld (<[om_id m := settled_row (ow_now w) (om_id m) r]> (ow_rows w)) (ow_now w) (ow_handled w1)) /\
  saturating_add u32_max (om_attempts m) 1 = (ob_attempts r + 1)%Z.
Proof.
  intros Hd Hh. destruct (due_row _ _ _ Hd) as (r & Hu & Hm & Hdead & Hk & Hlt).
  pose proof (unprocessed_Some _ _ _ _ Hu) as (Hr & _ & Hp).
  pose proof (checks_bounds _ Hk) as H0. exists r. split; [done|]. split; [done|].
  assert (Ea : saturating_add u32_max (om_attempts m) 1 = (ob_attempts r + 1)%Z).
  { rewrite Hm. unfold saturating_add, u32_max. simpl. lia. }
  split; [|done]. unfold settled_row. rewrite Hm in Hh. simpl in Hh. rewrite Hh, <-Hm.
  destruct (say h m) as [[]|e] eqn:Es; cbn [outbox_answer].
  - unfold mark_processed. simpl. rewrite Hu. unfold store_row.
    change (mkOutboxRow _ _ _ _ _ _ _ _ _ _) with (delivered_row (ow_now w) r).
    by rewrite delivered_row_checks.
  - rewrite Ea. unfold record_failure. simpl. rewrite retry_delay_fits, Hu. unfold store_row.
    change (mkOutboxRow _ _ _ _ _ _ _ _ _ _) with (refused_row (ow_now w) e r).
    by rewrite refused_row_checks.
Qed.

Lemma drain_loop_alone ctx ms rep w :
  Forall (due ctx w) ms -> NoDup (om_id <$> ms) ->
  exists w', irun (@outbox_answer J H say) w (drain_loop d ctx ms rep) = (Ok (foldl tally rep ms), w') /\
    (forall m, m ∈ ms -> exists r, ow_rows w !! om_id m = Some r /\
       ow_rows w' !! om_id m = Some (settled_row (ow_now w) (om_id m) r)) /\
    (forall i, i ∉ om_id <$> ms -> ow_rows w' !! i = ow_rows w !! i).
Proof.
  revert rep w. induction ms as [|m rest IH]; intros rep w Hd Hnd.
  { exists w. split; [done|]. split; [by intros ? ?%not_elem_of_nil|done]. }
  apply Forall_cons in Hd as [Hm Hrest]. rewrite fmap_cons in *. apply NoDup_cons in Hnd as [Hfresh Hnd].
  cbn [drain_loop foldl]. destruct (d !! om_topic m) as [h|] eqn:Eh.
  2: { destruct (IH (tally rep m) w Hrest Hnd) as (w' & Hrun & Hin & Hout). exists w'. split_and!.
       - rewrite <-Hrun. unfold tally. by rewrite Eh.
       - intros x [->|Hx]%elem_of_cons; [|by apply Hin]. destruct Hm as (r & Hr & Hmr & _). exists r. split; [done|].
         rewrite Hout, Hr by done. unfold settled_row. assert (om_topic m = ob_topic r) as <- by (by rewrite Hmr). by rewrite Eh.
       - intros i Hi. apply Hout. set_solver. }
  destruct (deliver_alone ctx w m h Hm Eh) as (r & Hr & Hmr & Hx & Ea). cbn [irun outbox_answer fst snd].
  set (w1 := mkOutboxWorld (<[om_id m := settled_row (ow_now w) (om_id m) r]> (ow_rows w)) (ow_now w)
    (ow_handled (handled w h m (is_ok (say h m))))) in *.
  assert (Hr1 : forall i, i <> om_id m -> ow_rows w1 !! i = ow_rows w !! i).
  { intros i Hi. simpl. by rewrite lookup_insert_ne. }
  assert (Hd1 : Forall (due ctx w1) rest).
  { rewrite Forall_forall in *. intros x Hxr. apply (due_elsewhere ctx w); [by apply Hrest|done|]. apply Hr1.
    intros E. apply Hfresh. rewrite <-E. by apply list_elem_of_fmap_2. }
  destruct (IH (tally rep m) w1 Hd1 Hnd) as (w' & Hrun & Hin & Hout). exists w'. split_and!.
  - rewrite <-Hrun. unfold tally. rewrite Eh. destruct (say h m) as [[]|e]; cbn zeta in Hx |- *; rewrite irun_mbind, irun_icall;
      rewrite Hx; cbn [fst snd]; [done|]. by rewrite Ea, Hmr.
  - intros x [->|Hxr]%elem_of_cons.
    + exists r. split; [done|]. rewrite Hout by done. simpl. by rewrite lookup_insert_eq.
    + destruct (Hin x Hxr) as (rx & Hrx & Hrx'). exists rx. split; [|done]. rewrite <-Hrx. symmetry. apply Hr1.
      intros E. apply Hfresh. rewrite <-E. by apply list_elem_of_fmap_2.
  - intros i Hi. rewrite Hout by set_solver. apply Hr1. set_solver.
Qed.

(** ** What a claim takes *)

Lemma collect_parsed_ids (rows : list (OutboxId * OutboxRow J)) ms : collect_rows parse_outbox_row rows = Ok ms -> om_id <$> ms = rows.*1.
Proof.
  revert ms. induction rows as [|[i r] rows IH]; intros ms; cbn [collect_rows]; [by intros [= <-]|].
  intros (m & Hm & (ms' & Hms & [= <-])%bind_Ok)%bind_Ok. rewrite !fmap_cons, (IH ms') by done.
  unfold parse_outbox_row in Hm. split_matches_in Hm. by injection Hm as <-.
Qed.

Abbreviation due_rows ctx w := (List.filter (claimable (rc_workspace_id ctx) (ow_now w)) (map_to_list (ow_rows w))).

Lemma due_rows_elem ctx w e : e ∈ due_rows ctx w <->
  ow_rows w !! e.1 = Some e.2 /\ claimable (rc_workspace_id ctx) (ow_now w) e = true.
Proof. destruct e as [i r]. by rewrite list_elem_of_In, filter_In, <-list_elem_of_In, elem_of_map_to_list. Qed.

Lemma filter_fst_NoDup {A} (f : Z * A -> bool) (l : list (Z * A)) : NoDup l.*1 -> NoDup (List.filter f l).*1.
Proof.
  induction l as [|e l IH]; [done|]. rewrite fmap_cons, NoDup_cons. intros [He Hl]. simpl. destruct (f e); [|by apply IH].
  rewrite fmap_cons. apply NoDup_cons. split; [|by apply IH]. intros (x & E & Hx)%list_elem_of_fmap_1. apply He. rewrite E.
  apply list_elem_of_fmap_2, list_elem_of_In. by apply list_elem_of_In, filter_In in Hx as [Hx _].
Qed.

Lemma claim_total ctx batch w :
  sound_rows (ow_rows w) ->
  exists ms, claim_pending ctx batch (ow_now w) (ow_rows w) = Ok ms /\ NoDup (om_id <$> ms) /\ Forall (due ctx w) ms /\
    length ms <= Z.to_nat batch /\
    forall e, e ∈ take (Z.to_nat batch) (merge_sort claimed_before (due_rows ctx w)) -> message_of e.1 e.2 ∈ ms.
Proof.
  intros Hs. unfold claim_pending. set (l := merge_sort claimed_before _).
  assert (Hl : forall e, e ∈ l <-> e ∈ due_rows ctx w) by (intros e; unfold l; by rewrite merge_sort_Permutation).
  assert (Hparse : forall e, e ∈ take (Z.to_nat batch) l -> parse_outbox_row e = Ok (message_of e.1 e.2)).
  { intros [i r] He%(subseteq_take _ _). apply Hl, due_rows_elem in He as [Hr _]. simpl in Hr.
    destruct (Hs _ _ Hr) as [Hk _]. apply checks_bounds in Hk. simpl.
    destruct (Z.ltb_spec (ob_attempts r) 0); [lia|done]. }
  destruct (collect_rows_total parse_outbox_row (take (Z.to_nat batch) l)) as (ms & Hms & Hlen & Hall).
  { intros e He. eexists. by apply Hparse. }
  exists ms. split; [done|]. split_and!.
  - rewrite (collect_parsed_ids _ _ Hms), fmap_take. eapply sublist_NoDup; [|apply sublist_take].
    unfold l. rewrite merge_sort_Permutation. apply filter_fst_NoDup, NoDup_fst_map_to_list.
  - apply Forall_forall. intros m Hm. destruct (claim_pending_rows _ _ _ _ _ _ Hms Hm) as (r & Hr & Hmr & Hc).
    destruct (Hs _ _ Hr). by exists r.
  - rewrite Hlen, length_take. lia.
  - intros e He. destruct (Hall e He) as (b & Hb & Hp). rewrite Hparse in Hp by done. by injection Hp as ->.
Qed.

Lemma filter_length_Permutation {A} (f : A -> bool) (l l' : list A) :
  l ≡ₚ l' -> length (List.filter f l) = length (List.filter f l').
Proof. induction 1; simpl; repeat case_match; simpl; congruence. Qed.

(** What is in a sorted list and has fewer than [n] elements before it is among the first [n]. *)
Lemma in_first {A} (R : relation A) (before : A -> bool) (l : list A) (n : nat) x :
  StronglySorted R l -> (forall y, R y x -> before y = true) -> x ∈ l -> length (List.filter before l) <= n ->
  before x = true -> x ∈ take n l.
Proof.
  intros Hs Hb Hx Hlen Hbx. apply list_elem_of_split in Hx as (l1 & l2 & ->).
  assert (List.filter before l1 = l1) as Hl1.
  { apply forallb_filter_id, forallb_forall. intros y Hy%list_elem_of_In. apply Hb.
    apply (StronglySorted_app_1_elem_of _ _ _ _ _ Hs); [done|by left]. }
  rewrite List.filter_app, Hl1 in Hlen. simpl in Hlen. rewrite Hbx, length_app in Hlen. simpl in Hlen.
  rewrite take_app. apply elem_of_app. right. assert (n - length l1 <> 0) as Hn by lia.
  destruct (n - length l1); [done|]. by left.
Qed.

(** ** The theorems *)

Lemma tally_total ms rep :
  let rep' := foldl tally rep ms in
  (dr_delivered rep' + dr_unhandled rep' + dr_failed rep' =
   dr_delivered rep + dr_unhandled rep + dr_failed rep + Z.of_nat (length ms))%Z.
Proof.
  revert rep. induction ms as [|m ms IH]; intros rep; cbn [foldl length]; [simpl; lia|]. cbn zeta in IH |- *. rewrite IH.
  unfold tally. destruct (d !! om_topic m) as [h|]; [|simpl; lia]. destruct (say h m); simpl; lia.
Qed.

(** A drain that runs alone returns, claims at most [batch] messages, and settles exactly those: a message
    its handler accepts is processed, a message it refuses counts an attempt and waits for the delay of that
    attempt, or is set aside at the last one, a message without a handler stays as it is, and so does every
    message it did not claim.  The report counts each claimed message once. *)
Theorem drain_settles_claimed ctx batch w :
  sound_rows (ow_rows w) ->
  exists ms rep w',
    claim_pending ctx batch (ow_now w) (ow_rows w) = Ok ms /\
    irun (@outbox_answer J H say) w (drain_once d ctx batch) = (Ok rep, w') /\
    (forall m, m ∈ ms -> exists r, ow_rows w !! om_id m = Some r /\
       ow_rows w' !! om_id m = Some (settled_row (ow_now w) (om_id m) r)) /\
    (forall i, i ∉ om_id <$> ms -> ow_rows w' !! i = ow_rows w !! i) /\
    (dr_delivered rep + dr_unhandled rep + dr_failed rep = Z.of_nat (length ms))%Z /\
    length ms <= Z.to_nat batch.
Proof.
  intros Hs. destruct (claim_total ctx batch w Hs) as (ms & Hc & Hnd & Hdue & Hlen & _).
  destruct (drain_loop_alone ctx ms (mkReport 0 0 0 0) w Hdue Hnd) as (w' & Hrun & Hin & Hout).
  exists ms, (foldl tally (mkReport 0 0 0 0) ms), w'. split_and!; try done.
  - unfold drain_once. rewrite irun_mbind, irun_icall. cbn [outbox_answer fst snd]. by rewrite Hc.
  - pose proof (tally_total ms (mkReport 0 0 0 0)) as Ht. simpl in Ht. lia.
Qed.

(** C33.  A due message that fewer than [batch] due messages precede is delivered by the next drain that runs alone,
    when its handler accepts it. *)
Theorem due_message_is_delivered ctx batch w id r h :
  sound_rows (ow_rows w) -> ow_rows w !! id = Some r ->
  claimable (rc_workspace_id ctx) (ow_now w) (id, r) = true ->
  length (List.filter (fun e => bool_decide (claimed_before e (id, r))) (due_rows ctx w)) <= Z.to_nat batch ->
  d !! ob_topic r = Some h -> say h (message_of id r) = Ok tt ->
  ow_rows (irun (@outbox_answer J H say) w (drain_once d ctx batch)).2 !! id = Some (delivered_row (ow_now w) r).
Proof.
  intros Hs Hr Hcl Hlen Hh Hsay. destruct (claim_total ctx batch w Hs) as (ms & Hc & Hnd & Hdue & _ & Hall).
  destruct (drain_loop_alone ctx ms (mkReport 0 0 0 0) w Hdue Hnd) as (w' & Hrun & Hin & _).
  unfold drain_once. rewrite irun_mbind, irun_icall. cbn [outbox_answer fst snd]. rewrite Hc, Hrun. cbn [snd].
  destruct (Hin (message_of id r)) as (r' & Hr' & Hw').
  { apply (Hall (id, r)), (in_first claimed_before (fun e => bool_decide (claimed_before e (id, r)))).
    - apply Sorted_StronglySorted; [apply _|]. apply Sorted_merge_sort, _.
    - intros y. apply bool_decide_eq_true_2.
    - rewrite merge_sort_Permutation. by apply due_rows_elem.
    - by rewrite (filter_length_Permutation _ _ _ (merge_sort_Permutation _ _)).
    - apply bool_decide_eq_true_2. unfold claimed_before. lia. }
  simpl in Hr', Hw'. simplify_eq. rewrite Hw'. unfold settled_row. by rewrite Hh, Hsay.
Qed.

End Drain.

(** ** Examples

    A payload is a number and a handler is the topic it handles; the worker's dispatcher embeds
    memories. *)

Module OutboxExample.

Definition ctx : RequestContext := mkContext 901 902 7 8.
Definition handlers : dispatcher text := build_outbox_dispatcher id id true.
Definition created : text := text_of "memory.created".
Definition prepared : text := text_of "provider.dispatch.prepared".
Abbreviation World := (OutboxWorld Z text).

Definition message (n : Z) (topic : text) : OutboxMessage Z := message_new n 7 topic (n * 11)%Z n.

Definition accepts (h : text) (m : OutboxMessage Z) : result text unit := Ok tt.
Definition refuses (h : text) (m : OutboxMessage Z) : result text unit := Err (text_of "provider is down").

Definition saved (m : OutboxMessage Z) (w : World) : World := (irun (@outbox_answer Z text accepts) w (detach (icall (OSave ctx m)))).2.
Definition drained (say : text -> OutboxMessage Z -> result text unit) (w : World) : World :=
  (irun (@outbox_answer Z text say) w (detach (drain_once handlers ctx OUTBOX_BATCH))).2.
Definition at_time (now : Timestamp) (w : World) : World := mkOutboxWorld (ow_rows w) now (ow_handled w).

Lemma answer_is_answer (say : text -> OutboxMessage Z -> result text unit) R (c : OutboxCall Z text R) w :
  outbox_answers R w c (@outbox_answer Z text say R c w).1 (@outbox_answer Z text say R c w).2.
Proof. destruct c; try (left; by apply surjective_pairing). done. Qed.

Lemma saved_reaches m s w : outbox_reaches handlers s (w, []) -> outbox_reaches handlers s (saved m w, []).
Proof. intros Hr. etrans; [done|]. apply irun_reaches; [apply answer_is_answer|constructor]. Qed.

Lemma drained_reaches say s w : outbox_reaches handlers s (w, []) -> outbox_reaches handlers s (drained say w, []).
Proof. intros Hr. etrans; [done|]. apply irun_reaches; [apply answer_is_answer|constructor]. Qed.

Lemma at_time_reaches now s w : (ow_now w <= now)%Z -> outbox_reaches handlers s (w, []) -> outbox_reaches handlers s (at_time now w, []).
Proof. intros Hn Hr. etrans; [done|]. apply rtc_once, pool_env. by constructor. Qed.

(** One message, saved and delivered. *)
Definition one_saved : World := saved (message 1 created) (no_messages 100).
Definition one_delivered : World := drained accepts one_saved.

Definition delivered_1 : OutboxRow Z := mkOutboxRow 7 created 11%Z (Some 100%Z) 1 0 100 None None None.

Lemma one_saved_reached : outbox_reaches handlers (no_messages 100, []) (one_saved, []).
Proof. apply saved_reaches. reflexivity. Qed.

Lemma one_delivered_reached : outbox_reaches handlers (no_messages 100, []) (one_delivered, []).
Proof. apply drained_reaches, one_saved_reached. Qed.

Lemma processed_message_was_accepted_at :
  ow_rows one_delivered !! 1%Z = Some delivered_1 /\
  exists h m, (h, m, true) ∈ ow_handled one_delivered /\ handlers !! created = Some h /\
    om_id m = 1%Z /\ om_topic m = created /\ om_payload m = 11%Z.
Proof.
  split; [vm_compute; reflexivity|].
  apply (processed_message_was_accepted handlers 100 one_delivered [] 1 delivered_1 100);
    [exact one_delivered_reached|vm_compute; reflexivity|reflexivity].
Defined.

Lemma message_is_kept_at :
  exists r', ow_rows one_delivered !! 1%Z = Some r' /\ ob_topic r' = created /\ ob_payload r' = 11%Z.
Proof.
  destruct (message_is_kept handlers 100 (one_saved, []) (one_delivered, []) 1
    (mkOutboxRow 7 created 11%Z None 1 0 100 None None None)) as (r' & Hr & _ & Ht & Hp & _);
    [exact one_saved_reached|apply drained_reaches; reflexivity|vm_compute; reflexivity|].
  exists r'. split; [exact Hr|]. split; [exact Ht|exact Hp].
Defined.

(** A message refused five times. *)
Definition later_by (n : Z) : Timestamp := (100 + seconds (600 * n))%Z.
Definition refused_once : World := drained refuses one_saved.
Definition refused_twice : World := drained refuses (at_time (later_by 1) refused_once).
Definition refused_thrice : World := drained refuses (at_time (later_by 2) refused_twice).
Definition refused_often : World := drained refuses (at_time (later_by 3) refused_thrice).
Definition given_up : World := drained refuses (at_time (later_by 4) refused_often).

Definition dead_1 : OutboxRow Z :=
  mkOutboxRow 7 created 11%Z None 1 5 (later_by 4 + seconds 480) (Some (later_by 4)) (Some (text_of "provider is down"))
    (Some (later_by 4)).

Lemma given_up_reached : outbox_reaches handlers (no_messages 100, []) (given_up, []).
Proof. do 4 (apply drained_reaches, at_time_reaches; [vm_compute; discriminate|]). apply drained_reaches, one_saved_reached. Qed.

Lemma dead_letter_was_refused_at :
  ow_rows given_up !! 1%Z = Some dead_1 /\ (MAX_DELIVERY_ATTEMPTS <= refusals given_up 1)%Z.
Proof.
  assert (Hr : ow_rows given_up !! 1%Z = Some dead_1) by (vm_compute; reflexivity).
  split; [exact Hr|].
  destruct (dead_letter_was_refused handlers 100 given_up [] 1 dead_1 given_up_reached Hr) as [_ Hd].
  destruct (Hd (later_by 4)) as [Hm _]; [reflexivity|exact Hm].
Defined.

(** Thirty-two prepared dispatches before a memory that waits to be embedded. *)
Definition crowded : World :=
  saved (message 33 created)
    (foldl (fun w n => saved (message (Z.of_nat n) prepared) w) (no_messages 100) (seq 1 32)).

Definition waiting : OutboxRow Z := mkOutboxRow 7 created 363%Z None 33 0 100 None None None.
Definition crowd : list OutboxId := Z.of_nat <$> seq 1 32.

(** [held_back], decided. *)
Definition held_backb (d : dispatcher text) (w : World) (id : OutboxId) (r : OutboxRow Z) (ids : list OutboxId) : bool :=
  bool_decide (NoDup ids) && (OUTBOX_BATCH <=? Z.of_nat (length ids))%Z &&
  forallb (fun i => negb (i =? id)%Z &&
    match ow_rows w !! i with
    | Some ri => is_none (d !! ob_topic ri) && claimable (ob_workspace_id r) (ow_now w) (i, ri)
                 && bool_decide (claimed_before (i, ri) (id, r))
    | None => false
    end) ids.

Lemma held_backb_held d w id r ids : ow_rows w !! id = Some r -> held_backb d w id r ids = true -> held_back d w id r ids.
Proof.
  intros Hr [[Hnd Hlen]%andb_prop Hall]%andb_prop. split; [done|]. split; [by eapply bool_decide_eq_true_1|].
  split; [by apply Z.leb_le|]. intros i Hi%list_elem_of_In. apply (proj1 (forallb_forall _ _) Hall) in Hi.
  apply andb_prop in Hi as [Hne Hi]. split; [by apply Z.eqb_neq, negb_true_iff|].
  destruct (ow_rows w !! i) as [ri|]; [|done]. apply andb_prop in Hi as [[Hn Hc]%andb_prop Hb]. exists ri.
  split; [done|]. split; [by apply is_none_true|]. split; [done|]. by eapply bool_decide_eq_true_1.
Qed.

Lemma waiting_is_held_back : held_back handlers crowded 33 waiting crowd.
Proof. apply held_backb_held; vm_compute; reflexivity. Qed.

(** A worker that started before, with a whole pass of another worker in between. *)
Definition idle_worker : iprog (OutboxCall Z text) unit := detach (drain_outbox handlers [ctx] (mkPoll false false)).

Definition after_pass : World := (irun (@outbox_answer Z text accepts) crowded idle_worker).2.

Lemma unhandled_messages_block_outbox_at :
  ow_rows after_pass !! 33%Z = Some waiting /\
  (forall ctx ms, claim_pending ctx OUTBOX_BATCH (ow_now after_pass) (ow_rows after_pass) = Ok ms -> 33%Z ∉ om_id <$> ms) /\
  exists es, ow_handled after_pass = ow_handled crowded ++ es /\ Forall (fun e => om_id e.1.2 <> 33%Z) es.
Proof.
  apply (unhandled_messages_block_outbox handlers crowded 33 waiting crowd [idle_worker] after_pass [idle_worker]).
  - exact waiting_is_held_back.
  - constructor; [|constructor]. apply (worker_passes_by handlers crowded 33 waiting crowd waiting_is_held_back).
    exact (worker_drains handlers [ctx]).
  - exact (irun_reaches _ _ _ _ crowded [idle_worker] _ (answer_is_answer accepts) (worker_drains handlers [ctx])).
Defined.

Lemma one_saved_sound : sound_rows (ow_rows one_saved).
Proof.
  intros i r Hr. apply elem_of_map_to_list in Hr. vm_compute in Hr. apply list_elem_of_singleton in Hr.
  injection Hr as _ ->. by vm_compute.
Qed.

Lemma drain_settles_claimed_at :
  exists ms rep w',
    claim_pending ctx OUTBOX_BATCH (ow_now one_saved) (ow_rows one_saved) = Ok ms /\
    irun (@outbox_answer Z text refuses) one_saved (drain_once handlers ctx OUTBOX_BATCH) = (Ok rep, w') /\
    (dr_delivered rep + dr_unhandled rep + dr_failed rep = Z.of_nat (length ms))%Z.
Proof.
  destruct (drain_settles_claimed handlers refuses ctx OUTBOX_BATCH one_saved one_saved_sound)
    as (ms & rep & w' & Hc & Hr & _ & _ & Hn & _).
  exists ms, rep, w'. split; [exact Hc|]. split; [exact Hr|exact Hn].
Defined.

Lemma due_message_is_delivered_at :
  ow_rows (irun (@outbox_answer Z text accepts) one_saved (drain_once handlers ctx OUTBOX_BATCH)).2 !! 1%Z = Some delivered_1.
Proof.
  apply (due_message_is_delivered handlers accepts ctx OUTBOX_BATCH one_saved 1
    (mkOutboxRow 7 created 11%Z None 1 0 100 None None None) created);
    [exact one_saved_sound|vm_compute; reflexivity|vm_compute; reflexivity| |vm_compute; reflexivity|reflexivity].
  apply Nat.leb_le. vm_compute. reflexivity.
Defined.

End OutboxExample.
