(* ===== verification/MemorySharing.v ===== *)
(** * Sharing memories between workspaces

    [crates/vestrace-domain/src/enterprise/sharing.rs] with the evidence and derivations of
    [provenance.rs], and the read service of [crates/vestrace-application/src/memory/shared_read.rs].

    A grant names one revision of one memory for one target workspace; the target accepts it as a
    mount under its own policy; every use of the mount is evaluated against all three and recorded.
    Constructors take the identifiers they mint as arguments. *)

From Stdlib Require Import ZArith Lia String.
From stdpp Require Import base option numbers strings gmap list.
From S2P Require Import Prelude Codec Text RunStatus RunDecider AgentRun RunReplay RunPorts Outbox Interaction.

Abbreviation MemoryId := Uuid (only parsing).
Abbreviation MemoryRevisionId := Uuid (only parsing).
Abbreviation MemoryGrantId := Uuid (only parsing).
Abbreviation MemoryMountId := Uuid (only parsing).
Abbreviation MemoryShareGrantRevisionId := Uuid (only parsing).
Abbreviation DerivationId := Uuid (only parsing).

(** ** Operations and evidence *)

Inductive ShareOperation : Type :=
| DiscoverMetadata | ReadContent | IncludeContext | SendToProvider | Index | Cache | DeriveLocal | Export | ReShare.

#[export] Instance ShareOperation_eq_dec : EqDecision ShareOperation.
Proof. solve_decision. Defined.

Definition share_operation_code (o : ShareOperation) : nat :=
  match o with
  | DiscoverMetadata => 0 | ReadContent => 1 | IncludeContext => 2 | SendToProvider => 3 | Index => 4
  | Cache => 5 | DeriveLocal => 6 | Export => 7 | ReShare => 8
  end.

Definition share_operations : list ShareOperation :=
  [DiscoverMetadata; ReadContent; IncludeContext; SendToProvider; Index; Cache; DeriveLocal; Export; ReShare].

#[export] Program Instance ShareOperation_countable : Countable ShareOperation :=
  inj_countable share_operation_code (fun n => share_operations !! n) _.
Next Obligation. by intros []. Qed.

Inductive EvidenceRef : Type :=
| EventRef (event_id : Uuid)
| ArtifactRevisionRef (artifact_id revision_id : Uuid)
| DocumentRef (uri : text) (version : option text)
| MemoryRevisionRef (memory_id : MemoryId) (revision_id : MemoryRevisionId)
| SharedMemoryRevisionRef (source_workspace_id : WorkspaceId) (memory_id : MemoryId) (revision_id : MemoryRevisionId)
    (grant_revision_id : MemoryShareGrantRevisionId) (source_generation : text)
| ModelExecutionRef (attempt_id : Uuid)
| ToolResultRef (invocation_id : Uuid)
| EvaluationRef (evaluation_id : Uuid)
| ExternalEffectReceiptRef (receipt_id : text) (receipt_uri : option text)
| HumanFeedbackRef (feedback_id : text) (session_id : option text)
| FederatedEvidenceRef (federation_id remote_evidence_id remote_workspace_id : text)
| ExternalReference (uri : text) (label integrity_hash : option text).

Inductive DerivationMethod : Type :=
| Extraction | Summarization | Inference | Consolidation | ConflictResolution
| RuleBased (rule_id : text)
| HumanAuthored | Import | FederatedDerivation
| LlmExtraction (model prompt_version : text)
| ManualConsolidation.

Record Derivation : Type := mkDerivation {
  dn_id : DerivationId;
  dn_workspace_id : WorkspaceId;
  dn_method : DerivationMethod;
  dn_input_refs : list EvidenceRef;
  dn_output_ref : option EvidenceRef;
  dn_execution_ref : option EvidenceRef;
  dn_model_ref : option text;
  dn_policy_version : option text;
  dn_created_by : option PrincipalId;
  dn_created_at : Timestamp;
}.

(** ** Grants *)

Inductive ShareTarget : Type := ExactWorkspace (ws : WorkspaceId) | AnyWorkspace.

Record MemoryShareGrantRevisionSpec : Type := mkRevisionSpec {
  ssp_source_workspace_id : WorkspaceId;
  ssp_target : ShareTarget;
  ssp_memory_id : MemoryId;
  ssp_memory_revision_id : MemoryRevisionId;
  ssp_source_generation : text;
  ssp_operations : gset ShareOperation;
  ssp_valid_from : Timestamp;
  ssp_valid_until : option Timestamp;
}.

Record MemoryShareGrantRevision : Type := mkGrantRevision {
  gv_id : MemoryShareGrantRevisionId;
  gv_source_workspace_id : WorkspaceId;
  gv_target_workspace_id : WorkspaceId;
  gv_memory_id : MemoryId;
  gv_memory_revision_id : MemoryRevisionId;
  gv_source_generation : text;
  gv_operations : gset ShareOperation;
  gv_valid_from : Timestamp;
  gv_valid_until : option Timestamp;
}.

(** [valid_until.map(|v| at < v).unwrap_or(true)]. *)
Definition before_end (valid_until : option Timestamp) (at_ : Timestamp) : bool :=
  match valid_until with Some v => (at_ <? v)%Z | None => true end.

(** [valid_until.map(|v| at >= v).unwrap_or(false)]. *)
Definition past_end (valid_until : option Timestamp) (at_ : Timestamp) : bool :=
  match valid_until with Some v => (v <=? at_)%Z | None => false end.

Definition contains_op (o : ShareOperation) (s : gset ShareOperation) : bool := bool_decide (o ∈ s).

Definition grant_revision_issue (id : MemoryShareGrantRevisionId) (spec : MemoryShareGrantRevisionSpec)
    : result DomainError MemoryShareGrantRevision :=
  match ssp_target spec with
  | AnyWorkspace => Err PolicyViolation
  | ExactWorkspace target =>
      if ssp_source_workspace_id spec == target then Err InvalidArgument else
      if ssp_operations spec == ∅ then Err InvalidArgument else
      if contains_op ReShare (ssp_operations spec) then Err PolicyViolation else
      if is_empty (trim (ssp_source_generation spec)) then Err InvalidArgument else
      if past_end (ssp_valid_until spec) (ssp_valid_from spec) then Err InvalidArgument else
      Ok (mkGrantRevision id (ssp_source_workspace_id spec) target (ssp_memory_id spec) (ssp_memory_revision_id spec)
            (ssp_source_generation spec) (ssp_operations spec) (ssp_valid_from spec) (ssp_valid_until spec))
  end.

Definition revision_allows (v : MemoryShareGrantRevision) (o : ShareOperation) (at_ : Timestamp) : bool :=
  (gv_valid_from v <=? at_)%Z && before_end (gv_valid_until v) at_ && contains_op o (gv_operations v).

Record SharedMemoryRef : Type := mkSharedRef {
  sr_source_workspace_id : WorkspaceId;
  sr_memory_id : MemoryId;
  sr_memory_revision_id : MemoryRevisionId;
  sr_grant_revision_id : MemoryShareGrantRevisionId;
  sr_source_generation : text;
}.

#[export] Instance SharedMemoryRef_eq_dec : EqDecision SharedMemoryRef.
Proof. solve_decision. Defined.

Definition revision_shared_ref (v : MemoryShareGrantRevision) : SharedMemoryRef :=
  mkSharedRef (gv_source_workspace_id v) (gv_memory_id v) (gv_memory_revision_id v) (gv_id v) (gv_source_generation v).

Inductive MemoryShareGrantStatus : Type := GrantActive | GrantSuspended | GrantRevoked | GrantExpired | GrantDeleted.

#[export] Instance MemoryShareGrantStatus_eq_dec : EqDecision MemoryShareGrantStatus.
Proof. solve_decision. Defined.

Record MemoryShareGrant : Type := mkShareGrant {
  sg_id : MemoryGrantId;
  sg_revision : MemoryShareGrantRevision;
  sg_status : MemoryShareGrantStatus;
  sg_created_at : Timestamp;
  sg_revoked_at : option Timestamp;
}.

Definition share_grant_issue (id : MemoryGrantId) (v : MemoryShareGrantRevision) (created_at : Timestamp)
    : result DomainError MemoryShareGrant :=
  if (created_at <? gv_valid_from v)%Z then Err InvalidArgument
  else Ok (mkShareGrant id v GrantActive created_at None).

Definition share_revoke (g : MemoryShareGrant) (at_ : Timestamp) : result DomainError unit * MemoryShareGrant :=
  if sg_status g !== GrantActive then (Err PolicyViolation, g)
  else (Ok tt, mkShareGrant (sg_id g) (sg_revision g) GrantRevoked (sg_created_at g) (Some at_)).

Definition grant_is_expired_at (g : MemoryShareGrant) (at_ : Timestamp) : bool :=
  (sg_status g == GrantExpired) || past_end (gv_valid_until (sg_revision g)) at_.

Definition grant_is_active_at (g : MemoryShareGrant) (at_ : Timestamp) : bool :=
  (sg_status g == GrantActive) && (gv_valid_from (sg_revision g) <=? at_)%Z && negb (grant_is_expired_at g at_).

Definition grant_allows (g : MemoryShareGrant) (o : ShareOperation) (at_ : Timestamp) : bool :=
  grant_is_active_at g at_ && revision_allows (sg_revision g) o at_.

(** ** The target's policy and its mounts *)

Record TargetSharePolicy : Type := mkTargetPolicy {
  tp_workspace_id : WorkspaceId;
  tp_principal_id : PrincipalId;
  tp_operations : gset ShareOperation;
  tp_valid_until : option Timestamp;
}.

Definition target_policy_new (ws : WorkspaceId) (p : PrincipalId) (ops : gset ShareOperation) (valid_until : option Timestamp)
    : result DomainError TargetSharePolicy :=
  if ops == ∅ then Err InvalidArgument else
  if contains_op ReShare ops then Err PolicyViolation else
  Ok (mkTargetPolicy ws p ops valid_until).

Definition target_policy_allows (t : TargetSharePolicy) (ws : WorkspaceId) (p : PrincipalId) (o : ShareOperation) (at_ : Timestamp)
    : bool :=
  (tp_workspace_id t == ws) && (tp_principal_id t == p) && contains_op o (tp_operations t) && before_end (tp_valid_until t) at_.

Record MemoryMountAcceptance : Type := mkAcceptance {
  ac_grant_id : MemoryGrantId;
  ac_grant_revision_id : MemoryShareGrantRevisionId;
  ac_target_workspace_id : WorkspaceId;
  ac_target_principal_id : PrincipalId;
  ac_operations : gset ShareOperation;
  ac_valid_until : option Timestamp;
}.

Inductive MemoryMountStatus : Type := MountActive | MountSuspended | MountStale | MountRevoked | MountExpired | MountDeleted.

#[export] Instance MemoryMountStatus_eq_dec : EqDecision MemoryMountStatus.
Proof. solve_decision. Defined.

Record ShareDisclosure : Type := mkDisclosure {
  sd_shared_ref : SharedMemoryRef;
  sd_operation : ShareOperation;
  sd_disclosed_at : Timestamp;
}.

Record MemoryMount : Type := mkMount {
  mm_id : MemoryMountId;
  mm_target_workspace_id : WorkspaceId;
  mm_target_principal_id : PrincipalId;
  mm_grant_id : MemoryGrantId;
  mm_grant_revision_id : MemoryShareGrantRevisionId;
  mm_operations : gset ShareOperation;
  mm_accepted_at : Timestamp;
  mm_valid_until : option Timestamp;
  mm_status : MemoryMountStatus;
  mm_shared_ref : SharedMemoryRef;
  mm_disclosures : list ShareDisclosure;
}.

Definition min_timestamp (a b : option Timestamp) : option Timestamp :=
  match a, b with
  | Some a, Some b => Some (Z.min a b)
  | Some v, None | None, Some v => Some v
  | None, None => None
  end.

Definition mount_accept (id : MemoryMountId) (a : MemoryMountAcceptance) (g : MemoryShareGrant) (t : TargetSharePolicy)
    (accepted_at : Timestamp) : result DomainError MemoryMount :=
  if negb (grant_is_active_at g accepted_at) then Err PolicyViolation else
  if (ac_grant_id a !== sg_id g) || (ac_grant_revision_id a !== gv_id (sg_revision g)) then Err PolicyViolation else
  if (ac_target_workspace_id a !== gv_target_workspace_id (sg_revision g))
     || (ac_target_workspace_id a !== tp_workspace_id t) || (ac_target_principal_id a !== tp_principal_id t)
  then Err PolicyViolation else
  if (ac_operations a == ∅) || contains_op ReShare (ac_operations a)
     || negb (bool_decide (ac_operations a ⊆ gv_operations (sg_revision g)))
     || negb (bool_decide (ac_operations a ⊆ tp_operations t))
  then Err PolicyViolation else
  let valid_until := min_timestamp (ac_valid_until a) (min_timestamp (gv_valid_until (sg_revision g)) (tp_valid_until t)) in
  if past_end valid_until accepted_at then Err InvalidArgument else
  Ok (mkMount id (ac_target_workspace_id a) (ac_target_principal_id a) (ac_grant_id a) (ac_grant_revision_id a)
        (ac_operations a) accepted_at valid_until MountActive (revision_shared_ref (sg_revision g)) []).

Definition mount_set_status (m : MemoryMount) (s : MemoryMountStatus) : MemoryMount :=
  mkMount (mm_id m) (mm_target_workspace_id m) (mm_target_principal_id m) (mm_grant_id m) (mm_grant_revision_id m)
    (mm_operations m) (mm_accepted_at m) (mm_valid_until m) s (mm_shared_ref m) (mm_disclosures m).

Definition mount_disclose (m : MemoryMount) (d : ShareDisclosure) : MemoryMount :=
  mkMount (mm_id m) (mm_target_workspace_id m) (mm_target_principal_id m) (mm_grant_id m) (mm_grant_revision_id m)
    (mm_operations m) (mm_accepted_at m) (mm_valid_until m) (mm_status m) (mm_shared_ref m) (mm_disclosures m ++ [d]).

Definition other_grant (m : MemoryMount) (g : MemoryShareGrant) : bool :=
  (mm_grant_id m !== sg_id g) || (mm_grant_revision_id m !== gv_id (sg_revision g)).

Definition sync_with_source (m : MemoryMount) (g : MemoryShareGrant) (at_ : Timestamp) : MemoryMount :=
  if mm_status m !== MountActive then m else
  if other_grant m g then mount_set_status m MountStale
  else if sg_status g == GrantRevoked then mount_set_status m MountRevoked
  else if grant_is_expired_at g at_ || past_end (mm_valid_until m) at_ then mount_set_status m MountExpired
  else if negb (grant_is_active_at g at_) then mount_set_status m MountStale
  else m.

Definition mount_shared_ref (m : MemoryMount) (g : MemoryShareGrant) (at_ : Timestamp) : result DomainError SharedMemoryRef :=
  if other_grant m g then Err PolicyViolation else
  if (mm_status m !== MountActive) || negb (grant_is_active_at g at_) || (at_ <? mm_accepted_at m)%Z
     || past_end (mm_valid_until m) at_
  then Err PolicyViolation else Ok (mm_shared_ref m).

Definition mount_is_active_at (m : MemoryMount) (at_ : Timestamp) : bool :=
  (mm_status m == MountActive) && (mm_accepted_at m <=? at_)%Z && before_end (mm_valid_until m) at_.

(** ** Decisions *)

Inductive ShareAccessReason : Type :=
| ShareAllowed | SourceGrantInactive | SourceOperationDenied | GrantRevisionMismatch | MountInactive
| MountOperationDenied | TargetPolicyDenied | TransitiveSharingProhibited.

#[export] Instance ShareAccessReason_eq_dec : EqDecision ShareAccessReason.
Proof. solve_decision. Defined.

Record ShareAccessDecision : Type := mkShareDecision {
  sa_allowed : bool;
  sa_reason : ShareAccessReason;
  sa_grant_id : MemoryGrantId;
  sa_grant_revision_id : MemoryShareGrantRevisionId;
  sa_mount_id : MemoryMountId;
  sa_decided_at : Timestamp;
}.

Definition evaluate_share_access (g : MemoryShareGrant) (m : MemoryMount) (t : TargetSharePolicy) (o : ShareOperation)
    (at_ : Timestamp) : ShareAccessDecision :=
  let reason :=
    if o == ReShare then TransitiveSharingProhibited
    else if negb (grant_is_active_at g at_) then SourceGrantInactive
    else if negb (grant_allows g o at_) then SourceOperationDenied
    else if other_grant m g then GrantRevisionMismatch
    else if negb (mount_is_active_at m at_) then MountInactive
    else if negb (contains_op o (mm_operations m)) then MountOperationDenied
    else if negb (target_policy_allows t (mm_target_workspace_id m) (mm_target_principal_id m) o at_) then TargetPolicyDenied
    else ShareAllowed in
  mkShareDecision (reason == ShareAllowed) reason (sg_id g) (gv_id (sg_revision g)) (mm_id m) at_.

Definition record_disclosure (m : MemoryMount) (g : MemoryShareGrant) (t : TargetSharePolicy) (o : ShareOperation)
    (at_ : Timestamp) : result DomainError ShareDisclosure * MemoryMount :=
  if negb (sa_allowed (evaluate_share_access g m t o at_)) then (Err PolicyViolation, m) else
  let d := mkDisclosure (mm_shared_ref m) o at_ in
  (Ok d, mount_disclose m d).

Definition derive_local (id : DerivationId) (m : MemoryMount) (g : MemoryShareGrant) (t : TargetSharePolicy)
    (method : DerivationMethod) (created_by : PrincipalId) (at_ : Timestamp) : result DomainError Derivation * MemoryMount :=
  match record_disclosure m g t DeriveLocal at_ with
  | (Err e, m) => (Err e, m)
  | (Ok d, m) =>
      let s := sd_shared_ref d in
      (Ok (mkDerivation id (mm_target_workspace_id m) method
            [SharedMemoryRevisionRef (sr_source_workspace_id s) (sr_memory_id s) (sr_memory_revision_id s)
               (sr_grant_revision_id s) (sr_source_generation s)]
            None None None None (Some created_by) at_), m)
  end.

(** ** Reading through a mount *)

Record SharedMemoryReadPermit : Type := mkPermit {
  pm_source_workspace_id : WorkspaceId;
  pm_source_memory_id : MemoryId;
  pm_memory_revision_id : MemoryRevisionId;
  pm_grant_revision_id : MemoryShareGrantRevisionId;
  pm_source_generation : text;
  pm_target_workspace_id : WorkspaceId;
  pm_target_principal_id : PrincipalId;
}.

Definition permit_issue (s : SharedMemoryRef) (ctx : RequestContext) : SharedMemoryReadPermit :=
  mkPermit (sr_source_workspace_id s) (sr_memory_id s) (sr_memory_revision_id s) (sr_grant_revision_id s)
    (sr_source_generation s) (rc_workspace_id ctx) (rc_principal_id ctx).

Record SharedMemoryRevisionRecord : Type := mkRevisionRecord {
  rr_source_workspace_id : WorkspaceId;
  rr_source_memory_id : MemoryId;
  rr_memory_revision_id : MemoryRevisionId;
  rr_content : text;
}.

Record SharedMemoryReadResult : Type := mkReadResult {
  rd_shared_ref : SharedMemoryRef;
  rd_content : text;
  rd_disclosure : ShareDisclosure;
}.

(** The service's two ports: the clock and the reader of revisions. *)
Inductive ReadCall : Type -> Type :=
| ReadNow : ReadCall Timestamp
| ReadExact (p : SharedMemoryReadPermit) : ReadCall (result ApplicationError (option SharedMemoryRevisionRecord)).

(** The mount is behind [&mut]: the program also returns what it leaves there. *)
Definition read_shared (ctx : RequestContext) (g : MemoryShareGrant) (m : MemoryMount) (t : TargetSharePolicy)
    : iprog ReadCall (result ApplicationError (option SharedMemoryReadResult) * MemoryMount) :=
  if (rc_workspace_id ctx !== mm_target_workspace_id m) || (rc_principal_id ctx !== mm_target_principal_id m)
  then IRet (Err AppPolicy, m) else
  ICall ReadNow (fun at_ =>
    if negb (sa_allowed (evaluate_share_access g m t ReadContent at_)) then IRet (Err AppPolicy, m) else
    match mount_shared_ref m g at_ with
    | Err e => IRet (Err (AppDomain e), m)
    | Ok s =>
        ICall (ReadExact (permit_issue s ctx)) (fun answer =>
          match answer with
          | Err e => IRet (Err e, m)
          | Ok None => IRet (Ok None, m)
          | Ok (Some record) =>
              if (rr_source_workspace_id record !== sr_source_workspace_id s)
                 || (rr_source_memory_id record !== sr_memory_id s)
                 || (rr_memory_revision_id record !== sr_memory_revision_id s)
              then IRet (Err AppStorage, m) else
              match record_disclosure m g t ReadContent at_ with
              | (Err e, m) => IRet (Err (AppDomain e), m)
              | (Ok d, m) => IRet (Ok (Some (mkReadResult s (rr_content record) d)), m)
              end
          end)
    end).
