(* ===== verification/MemorySharingSpec.v ===== *)
(** * What sharing guarantees

    A use of a shared memory is allowed exactly when source, mount and target allow it; over the life
    of a grant and its mount every disclosure was allowed when it was made, nothing is disclosed after
    a revocation, and a read hands out the granted revision and nothing else. *)

From Stdlib Require Import ZArith Lia String.
From stdpp Require Import base option numbers strings gmap relations list.
From S2P Require Import Prelude Codec Text RunStatus RunDecider AgentRun RunReplay RunPorts Outbox Interaction MemorySharing.

(** ** The decision *)

(** The rule a use has to meet, as a conjunction. *)
Definition may_use (g : MemoryShareGrant) (m : MemoryMount) (t : TargetSharePolicy) (o : ShareOperation) (at_ : Timestamp) : Prop :=
  o <> ReShare /\
  (sg_status g = GrantActive /\ o ∈ gv_operations (sg_revision g) /\
   (gv_valid_from (sg_revision g) <= at_)%Z /\ forall u, gv_valid_until (sg_revision g) = Some u -> (at_ < u)%Z) /\
  (mm_grant_id m = sg_id g /\ mm_grant_revision_id m = gv_id (sg_revision g)) /\
  (mm_status m = MountActive /\ o ∈ mm_operations m /\
   (mm_accepted_at m <= at_)%Z /\ forall u, mm_valid_until m = Some u -> (at_ < u)%Z) /\
  (tp_workspace_id t = mm_target_workspace_id m /\ tp_principal_id t = mm_target_principal_id m /\
   o ∈ tp_operations t /\ forall u, tp_valid_until t = Some u -> (at_ < u)%Z).

Lemma before_end_iff v at_ : before_end v at_ = true <-> forall u, v = Some u -> (at_ < u)%Z.
Proof. destruct v as [u|]; simpl; [rewrite Z.ltb_lt|]; naive_solver. Qed.

Lemma past_end_negb v at_ : past_end v at_ = negb (before_end v at_).
Proof. destruct v as [u|]; simpl; [|done]. by rewrite Z.ltb_antisym, negb_involutive. Qed.

Lemma contains_op_iff o s : contains_op o s = true <-> o ∈ s.
Proof. apply bool_decide_eq_true. Qed.

Lemma other_grant_false m g :
  other_grant m g = false <-> mm_grant_id m = sg_id g /\ mm_grant_revision_id m = gv_id (sg_revision g).
Proof. unfold other_grant. by rewrite orb_false_iff, !negb_false_iff, !eqb_true. Qed.

Lemma grant_active_iff g at_ :
  grant_is_active_at g at_ = true <-> sg_status g = GrantActive /\ (gv_valid_from (sg_revision g) <= at_)%Z /\
    before_end (gv_valid_until (sg_revision g)) at_ = true.
Proof.
  unfold grant_is_active_at, grant_is_expired_at. rewrite past_end_negb, !andb_true_iff, eqb_true, Z.leb_le, negb_orb, negb_involutive.
  rewrite andb_true_iff. split; [naive_solver|]. intros (Hs & Hv & Hb). split_and!; try done. rewrite Hs. done.
Qed.

Lemma grant_allows_iff g o at_ :
  grant_allows g o at_ = true <-> grant_is_active_at g at_ = true /\ o ∈ gv_operations (sg_revision g).
Proof.
  unfold grant_allows, revision_allows. rewrite !andb_true_iff, contains_op_iff, grant_active_iff, Z.leb_le. naive_solver.
Qed.

Lemma mount_active_iff m at_ :
  mount_is_active_at m at_ = true <-> mm_status m = MountActive /\ (mm_accepted_at m <= at_)%Z /\ before_end (mm_valid_until m) at_ = true.
Proof. unfold mount_is_active_at. rewrite !andb_true_iff, eqb_true, Z.leb_le. naive_solver. Qed.

Lemma target_policy_allows_iff t ws p o at_ :
  target_policy_allows t ws p o at_ = true <->
  tp_workspace_id t = ws /\ tp_principal_id t = p /\ o ∈ tp_operations t /\ before_end (tp_valid_until t) at_ = true.
Proof. unfold target_policy_allows. rewrite !andb_true_iff, !eqb_true, contains_op_iff. naive_solver. Qed.

Lemma evaluate_allowed g m t o at_ :
  sa_allowed (evaluate_share_access g m t o at_) = true <-> may_use g m t o at_.
Proof.
  assert (sa_allowed (evaluate_share_access g m t o at_) =
    negb (o == ReShare) && grant_allows g o at_ && negb (other_grant m g) && mount_is_active_at m at_
    && contains_op o (mm_operations m)
    && target_policy_allows t (mm_target_workspace_id m) (mm_target_principal_id m) o at_) as ->.
  { unfold evaluate_share_access, sa_allowed, grant_allows. destruct (o == ReShare); [done|].
    destruct (grant_is_active_at g at_); [|done]. simpl. destruct (revision_allows _ _ _); [|done]. simpl.
    destruct (other_grant m g); [done|]. destruct (mount_is_active_at m at_); [|done]. simpl.
    destruct (contains_op _ _); [|done]. simpl. by destruct (target_policy_allows _ _ _ _ _). }
  unfold may_use. rewrite <-!before_end_iff, !andb_true_iff, negb_true_iff, eqb_false, grant_allows_iff, grant_active_iff,
    negb_true_iff, other_grant_false, mount_active_iff, contains_op_iff, target_policy_allows_iff. tauto.
Qed.

(** A use of a mount is allowed exactly when the operation is not re-sharing, the source grant is active and
    covers it, the mount is an active mount of exactly that grant revision and covers it, and the target's own policy
    covers it for the mount's workspace and principal, each within its time. *)
Theorem share_access_decision g m t o at_ :
  sa_allowed (evaluate_share_access g m t o at_) = true <-> may_use g m t o at_.
Proof. apply evaluate_allowed. Qed.

Lemma record_disclosure_cases m g t o at_ :
  (may_use g m t o at_ /\ record_disclosure m g t o at_ =
     (Ok (mkDisclosure (mm_shared_ref m) o at_), mount_disclose m (mkDisclosure (mm_shared_ref m) o at_))) \/
  (~ may_use g m t o at_ /\ record_disclosure m g t o at_ = (Err PolicyViolation, m)).
Proof.
  unfold record_disclosure. destruct (sa_allowed _) eqn:E; simpl.
  - left. split; [by apply evaluate_allowed|done].
  - right. split; [|done]. intros Hm. apply evaluate_allowed in Hm. congruence.
Qed.

(** ** A grant and its mount over time *)

(** What happens to them: the source revokes, the target synchronises, uses, derives and reads, under any policy and
    at any time; a use under another grant is one too.  A step is labelled with the policy the target put to it. *)
Inductive share_step : option TargetSharePolicy -> MemoryShareGrant * MemoryMount -> MemoryShareGrant * MemoryMount -> Prop :=
| ss_revoke g m at_ : share_step None (g, m) ((share_revoke g at_).2, m)
| ss_sync g m at_ : share_step None (g, m) (g, sync_with_source m g at_)
| ss_use g m t o at_ : share_step (Some t) (g, m) (g, (record_disclosure m g t o at_).2)
| ss_derive g m id t method by_ at_ : share_step (Some t) (g, m) (g, (derive_local id m g t method by_ at_).2)
| ss_read g m ctx t es r m' : trace_of (read_shared ctx g m t) es (Some (r, m')) -> share_step (Some t) (g, m) (g, m')
| ss_elsewhere g m g' t o at_ :
    other_grant m g' = true -> share_step (Some t) (g, m) (g, (record_disclosure m g' t o at_).2).

(** The steps of a life, by their labels. *)
Inductive share_run : list (option TargetSharePolicy) -> MemoryShareGrant * MemoryMount -> MemoryShareGrant * MemoryMount -> Prop :=
| share_run_nil s : share_run [] s s
| share_run_cons l ls s s1 s2 : share_step l s s1 -> share_run ls s1 s2 -> share_run (l :: ls) s s2.

(** A grant that was issued and the mount that accepted it. *)
Definition shared (g : MemoryShareGrant) (m : MemoryMount) (a : MemoryMountAcceptance) (t : TargetSharePolicy) (at_ : Timestamp)
    : Prop :=
  (exists rid spec v id created, grant_revision_issue rid spec = Ok v /\ share_grant_issue id v created = Ok g) /\
  exists id, mount_accept id a g t at_ = Ok m.

(** What a use under a policy leaves of a mount: itself, or itself with one more disclosure. *)
Definition used (t : TargetSharePolicy) (g : MemoryShareGrant) (m m' : MemoryMount) : Prop :=
  m' = m \/ exists o at_, may_use g m t o at_ /\ m' = mount_disclose m (mkDisclosure (mm_shared_ref m) o at_).

Lemma record_used g m t o at_ : used t g m (record_disclosure m g t o at_).2.
Proof. destruct (record_disclosure_cases m g t o at_) as [[Hu ->]|[_ ->]]; [right|by left]. by exists o, at_. Qed.

Lemma derive_used g m id t method by_ at_ : used t g m (derive_local id m g t method by_ at_).2.
Proof.
  unfold derive_local. destruct (record_disclosure_cases m g t DeriveLocal at_) as [[Hu ->]|[_ ->]]; [right|by left].
  by exists DeriveLocal, at_.
Qed.

(** What a read can do: refuse, or ask for the granted revision once and disclose it. *)
Lemma read_shared_trace ctx g m t es r m' :
  trace_of (read_shared ctx g m t) es (Some (r, m')) ->
  m' = m /\ (forall x, r <> Ok (Some x)) \/
  exists at_ record, rc_workspace_id ctx = mm_target_workspace_id m /\ rc_principal_id ctx = mm_target_principal_id m /\
    may_use g m t ReadContent at_ /\
    es = [mkEvent ReadNow at_; mkEvent (ReadExact (permit_issue (mm_shared_ref m) ctx)) (Ok (Some record))] /\
    rr_source_workspace_id record = sr_source_workspace_id (mm_shared_ref m) /\
    rr_source_memory_id record = sr_memory_id (mm_shared_ref m) /\
    rr_memory_revision_id record = sr_memory_revision_id (mm_shared_ref m) /\
    r = Ok (Some (mkReadResult (mm_shared_ref m) (rr_content record) (mkDisclosure (mm_shared_ref m) ReadContent at_))) /\
    m' = mount_disclose m (mkDisclosure (mm_shared_ref m) ReadContent at_).
Proof.
  unfold read_shared. destruct (_ || _) eqn:Et; cbn [trace_of]; [naive_solver|].
  apply orb_false_elim in Et as [Ew Ep]. rewrite negb_false_iff, eqb_true in Ew, Ep.
  intros [[_ [=]]|(at_ & es1 & -> & Htr)]. destruct (sa_allowed _) eqn:Ea; cbn [negb trace_of] in Htr; [|naive_solver].
  apply evaluate_allowed in Ea. destruct (mount_shared_ref m g at_) as [s|e] eqn:Es; cbn [trace_of] in Htr; [|naive_solver].
  assert (s = mm_shared_ref m) as -> by (unfold mount_shared_ref in Es; split_matches_in Es; by injection Es).
  destruct Htr as [[_ [=]]|(answer & es2 & -> & Htr)]. destruct answer as [[record|]|e]; cbn [trace_of] in Htr; [|naive_solver..].
  destruct (_ || _) eqn:Er; cbn [trace_of] in Htr; [naive_solver|].
  apply orb_false_elim in Er as [[E1 E2]%orb_false_elim E3]. rewrite negb_false_iff, eqb_true in E1, E2, E3.
  destruct (record_disclosure_cases m g t ReadContent at_) as [[_ Hd]|[Hn _]]; [|done]. rewrite Hd in Htr.
  destruct Htr as [-> [[= -> ->]|[=]]]. right. by exists at_, record.
Qed.

Lemma read_used g m ctx t es r m' : trace_of (read_shared ctx g m t) es (Some (r, m')) -> used t g m m'.
Proof. intros [[-> _]|(at_ & rec & _ & _ & Hu & _ & _ & _ & _ & _ & ->)]%read_shared_trace; [by left|right]. by exists ReadContent, at_. Qed.

Lemma elsewhere_unused m g' t o at_ : other_grant m g' = true -> (record_disclosure m g' t o at_).2 = m.
Proof.
  intros Ho. destruct (record_disclosure_cases m g' t o at_) as [[(_ & _ & Hsame & _) _]|[_ ->]]; [|done].
  apply other_grant_false in Hsame. congruence.
Qed.

(** A step revokes, changes the mount's status away from active, or uses the mount under its policy. *)
Lemma share_step_cases l s s' : share_step l s s' ->
  s'.2 = s.2 /\ (s'.1 = s.1 \/ exists at_, s'.1 = mkShareGrant (sg_id s.1) (sg_revision s.1) GrantRevoked (sg_created_at s.1) (Some at_)) \/
  s'.1 = s.1 /\ (exists st, st <> MountActive /\ s'.2 = mount_set_status s.2 st) \/
  s'.1 = s.1 /\ exists t, l = Some t /\ used t s.1 s.2 s'.2.
Proof.
  intros []; simpl.
  - left. split; [done|]. unfold share_revoke. destruct (_ !== _); [by left|right]. by exists at_.
  - unfold sync_with_source. destruct (_ !== _); [left; by auto|].
    destruct (other_grant _ _); [right; left; split; [done|by exists MountStale]|].
    destruct (_ == _); [right; left; split; [done|by exists MountRevoked]|].
    destruct (_ || _); [right; left; split; [done|by exists MountExpired]|].
    destruct (negb _); [right; left; split; [done|by exists MountStale]|left; by auto].
  - right; right. split; [done|]. exists t. split; [done|]. apply record_used.
  - right; right. split; [done|]. exists t. split; [done|]. apply derive_used.
  - right; right. split; [done|]. exists t. split; [done|]. by eapply read_used.
  - rewrite elsewhere_unused by done. left. split; [done|by left].
Qed.

(** The part of a mount that never changes. *)
Definition same_terms (m m' : MemoryMount) : Prop :=
  mm_target_workspace_id m' = mm_target_workspace_id m /\ mm_target_principal_id m' = mm_target_principal_id m /\
  mm_operations m' = mm_operations m /\ mm_accepted_at m' = mm_accepted_at m /\ mm_valid_until m' = mm_valid_until m /\
  mm_shared_ref m' = mm_shared_ref m.

#[export] Instance same_terms_pre : PreOrder same_terms.
Proof. split; [done|]. unfold same_terms. intros m1 m2 m3. naive_solver congruence. Qed.

(** A step records nothing, or one disclosure that its policy, the grant and the mount allowed there and then. *)
Lemma share_step_keeps l s s' : share_step l s s' ->
  sg_revision s'.1 = sg_revision s.1 /\ same_terms s.2 s'.2 /\
  (mm_disclosures s'.2 = mm_disclosures s.2 \/
   exists t d, l = Some t /\ s'.1 = s.1 /\ mm_disclosures s'.2 = mm_disclosures s.2 ++ [d] /\
     sd_shared_ref d = mm_shared_ref s.2 /\ may_use s.1 s.2 t (sd_operation d) (sd_disclosed_at d)) /\
  (sg_status s.1 <> GrantActive -> sg_status s'.1 <> GrantActive) /\
  (mm_status s.2 <> MountActive -> mm_status s'.2 <> MountActive).
Proof.
  intros Hst. apply share_step_cases in Hst as [(Hm & Hg)|[(Hg & st & Hne & Hm)|(Hg & t & Hl & [Hm|(o & at_ & Hu & Hm)])]]; rewrite Hm.
  - split; [by destruct Hg as [->|(at_ & ->)]|]. split; [done|]. split; [by left|]. split; [|done].
    by destruct Hg as [->|(at_ & ->)].
  - rewrite Hg. split; [done|]. split; [done|]. split; [by left|done].
  - rewrite Hg. split; [done|]. split; [done|]. split; [by left|done].
  - rewrite Hg. split; [done|]. split; [done|]. split; [|done]. right. eexists t, _. split_and!; try done.
Qed.

Lemma share_run_keeps ls s s' : share_run ls s s' -> sg_revision s'.1 = sg_revision s.1 /\ same_terms s.2 s'.2.
Proof.
  induction 1 as [s|l ls s s1 s2 Hst _ [IH1 IH2]]; [done|]. destruct (share_step_keeps _ _ _ Hst) as (H1 & H2 & _).
  split; [congruence|]. by etrans.
Qed.

Lemma share_run_appends ls s s' : share_run ls s s' -> exists new, mm_disclosures s'.2 = mm_disclosures s.2 ++ new.
Proof.
  induction 1 as [s|l ls s s1 s2 Hst _ [new IH]]; [exists []; by rewrite app_nil_r|].
  destruct (share_step_keeps _ _ _ Hst) as (_ & _ & [<-|(t & d & _ & _ & Happ & _)] & _); [by exists new|].
  exists ([d] ++ new). by rewrite IH, Happ, app_assoc.
Qed.

(** The step of a run that recorded a disclosure. *)
Lemma share_run_recorded ls s s' i d :
  share_run ls s s' -> mm_disclosures s'.2 !! i = Some d -> length (mm_disclosures s.2) <= i ->
  exists before t after g1 m1 m2, ls = before ++ Some t :: after /\
    share_run before s (g1, m1) /\ share_step (Some t) (g1, m1) (g1, m2) /\ share_run after (g1, m2) s' /\
    mm_disclosures m2 = mm_disclosures m1 ++ [d] /\ length (mm_disclosures m1) = i /\ sd_shared_ref d = mm_shared_ref m1 /\
    may_use g1 m1 t (sd_operation d) (sd_disclosed_at d).
Proof.
  intros Hr Hd Hi. induction Hr as [s|l ls s s1 s2 Hst Hr IH]; [apply lookup_lt_Some in Hd; lia|].
  destruct (share_step_keeps _ _ _ Hst) as (_ & _ & [Hsame|(t & d' & -> & Hg & Happ & Href & Hu)] & _).
  - destruct IH as (before & t & after & g1 & m1 & m2 & -> & H1 & H2 & H3 & H4); [done|by rewrite Hsame|].
    exists (l :: before), t, after, g1, m1, m2. split; [done|]. split; [by econstructor|done].
  - destruct (base.decide (length (mm_disclosures s1.2) <= i)) as [Hle|Hlt].
    + destruct IH as (before & t' & after & g1 & m1 & m2 & -> & H1 & H2 & H3 & H4); [done|done|].
      exists (Some t :: before), t', after, g1, m1, m2. split; [done|]. split; [by econstructor|done].
    + rewrite Happ, length_app in Hlt. simpl in Hlt. assert (length (mm_disclosures s.2) = i) as Hlen by lia.
      assert (d' = d) as ->.
      { destruct (share_run_appends _ _ _ Hr) as [new Hnew]. rewrite Hnew, Happ, <-app_assoc, lookup_app_r in Hd by lia.
        rewrite Hlen, Nat.sub_diag in Hd. by injection Hd. }
      destruct s as [g m], s1 as [g1 m1]. simpl in *. subst g1. exists [], t, ls, g, m, m1. split; [done|]. split; [constructor|done].
Qed.

(** Nothing more is recorded once grant or mount is not active. *)
Lemma share_run_off ls s s' :
  share_run ls s s' -> sg_status s.1 <> GrantActive \/ mm_status s.2 <> MountActive -> mm_disclosures s'.2 = mm_disclosures s.2.
Proof.
  induction 1 as [s|l ls s s1 s2 Hst _ IH]; [done|]. intros Hoff.
  destruct (share_step_keeps _ _ _ Hst) as (_ & _ & [Hsame|(t & d' & _ & _ & _ & _ & Hu)] & Hg & Hm).
  - rewrite IH by naive_solver. done.
  - destruct Hu as (_ & (? & _) & _ & (? & _) & _). naive_solver.
Qed.

(** ** The theorems *)

Lemma accept_terms id a g t at_ m : mount_accept id a g t at_ = Ok m ->
  mm_target_workspace_id m = gv_target_workspace_id (sg_revision g) /\ mm_target_principal_id m = ac_target_principal_id a /\
  mm_operations m = ac_operations a /\ mm_accepted_at m = at_ /\ mm_shared_ref m = revision_shared_ref (sg_revision g) /\
  mm_disclosures m = [] /\ mm_operations m ⊆ gv_operations (sg_revision g) /\ mm_operations m ⊆ tp_operations t /\
  (forall u, mm_valid_until m = Some u -> at_ < u)%Z /\
  (forall u, ac_valid_until a = Some u \/ tp_valid_until t = Some u -> exists v, mm_valid_until m = Some v /\ v <= u)%Z.
Proof.
  unfold mount_accept. intros Ha. split_matches_in Ha. injection Ha as <-. simpl. bool_hyps.
  split_and!; try done; try by eapply bool_decide_eq_true_1.
  - match goal with Hp : past_end _ _ = false |- _ => by rewrite past_end_negb, negb_false_iff, before_end_iff in Hp end.
  - intros u. destruct (ac_valid_until a), (tp_valid_until t), (gv_valid_until (sg_revision g)); simpl;
      intros [[=]|[=]]; subst; eexists; (split; [done|lia]).
Qed.

(** C25.  Over the whole life of an accepted mount, whatever the source and the target do and in whatever order, every
    recorded disclosure was recorded by one step of that life, and was allowed at that step: in the state the grant
    and the mount had then, and under the very policy the target put to the step, the grant was active and covered the
    operation at that time, the mount was an active mount of that grant revision and covered it, and the policy was one
    of the mount's workspace and principal that covered it, each within its validity; it was never re-sharing.  The
    disclosure names exactly the granted revision, its operation is one that was accepted, and it lies within the
    validity of the acceptance and of the policy the mount was accepted under. *)
Theorem disclosures_are_authorised g0 m0 a t0 at0 ls g m i d :
  shared g0 m0 a t0 at0 -> share_run ls (g0, m0) (g, m) -> mm_disclosures m !! i = Some d ->
  sd_shared_ref d = revision_shared_ref (sg_revision g0) /\ sd_operation d ∈ ac_operations a /\
  (at0 <= sd_disclosed_at d)%Z /\
  (forall u, ac_valid_until a = Some u \/ tp_valid_until t0 = Some u -> sd_disclosed_at d < u)%Z /\
  exists before t after g1 m1 m2, ls = before ++ Some t :: after /\
    share_run before (g0, m0) (g1, m1) /\ share_step (Some t) (g1, m1) (g1, m2) /\ share_run after (g1, m2) (g, m) /\
    mm_disclosures m2 = mm_disclosures m1 ++ [d] /\ length (mm_disclosures m1) = i /\ sg_revision g1 = sg_revision g0 /\
    may_use g1 m1 t (sd_operation d) (sd_disclosed_at d).
Proof.
  intros (_ & id & Hacc) Hr Hd. destruct (accept_terms _ _ _ _ _ _ Hacc) as (Hw & Hp & Hops & Hat & Href & Hnil & _ & _ & _ & Hend).
  destruct (share_run_recorded _ _ _ i d Hr Hd) as (before & t & after & g1 & m1 & m2 & -> & H1 & H2 & H3 & H4 & Hlen & H5 & Hu);
    [simpl; rewrite Hnil; simpl; lia|].
  destruct (share_run_keeps _ _ _ H1) as [Hg (Kw & Kp & Ko & Ka & Kv & Kr)]. simpl in *.
  pose proof Hu as (_ & _ & _ & (_ & Hmo & Hma & Hmu) & _). rewrite Ko, Hops in Hmo. rewrite Ka, Hat in Hma.
  split; [congruence|]. split; [done|]. split; [done|]. split.
  - intros u Hv. destruct (Hend u Hv) as (v & Hmv & Hle). rewrite <-Kv in Hmv. specialize (Hmu v Hmv). lia.
  - by exists before, t, after, g1, m1, m2.
Qed.

(** Once the source has revoked its grant, or the mount has stopped being active, nothing more is disclosed through
    the mount, whether or not the target ever synchronises it; neither can be undone. *)
Theorem revoked_share_discloses_nothing ls g m g' m' :
  share_run ls (g, m) (g', m') -> sg_status g <> GrantActive \/ mm_status m <> MountActive ->
  mm_disclosures m' = mm_disclosures m.
Proof. apply share_run_off. Qed.

(** Whatever the reader behind the port answers, a shared read that returns content was made by the mount's own
    principal while the use was allowed, asked the reader once for exactly the granted revision, returns what the reader
    gave for that revision, and recorded one disclosure; every other outcome leaves the mount as it was. *)
Theorem shared_read_is_exact ctx g m t es r m' :
  trace_of (read_shared ctx g m t) es (Some (r, m')) ->
  match r with
  | Ok (Some x) => exists at_ record,
      rc_workspace_id ctx = mm_target_workspace_id m /\ rc_principal_id ctx = mm_target_principal_id m /\
      may_use g m t ReadContent at_ /\
      es = [mkEvent ReadNow at_; mkEvent (ReadExact (permit_issue (mm_shared_ref m) ctx)) (Ok (Some record))] /\
      rr_source_workspace_id record = sr_source_workspace_id (mm_shared_ref m) /\
      rr_source_memory_id record = sr_memory_id (mm_shared_ref m) /\
      rr_memory_revision_id record = sr_memory_revision_id (mm_shared_ref m) /\
      rd_content x = rr_content record /\ rd_shared_ref x = mm_shared_ref m /\
      mm_disclosures m' = mm_disclosures m ++ [mkDisclosure (mm_shared_ref m) ReadContent at_]
  | _ => m' = m
  end.
Proof.
  intros [[-> Hn]|(at_ & rec & Hw & Hp & Hu & Hes & H1 & H2 & H3 & -> & ->)]%read_shared_trace.
  - destruct r as [[x|]|e]; try done. by destruct (Hn x).
  - by exists at_, rec.
Qed.

(** What is derived locally from a mount cites the granted revision with its source workspace and the grant
    revision it was reachable under, and is recorded as a disclosure; a use that is not allowed derives nothing. *)
Theorem derivation_keeps_provenance id g m t method by_ at_ :
  match derive_local id m g t method by_ at_ with
  | (Ok n, m') =>
      may_use g m t DeriveLocal at_ /\ dn_workspace_id n = mm_target_workspace_id m /\ dn_created_by n = Some by_ /\
      (let s := mm_shared_ref m in
       dn_input_refs n = [SharedMemoryRevisionRef (sr_source_workspace_id s) (sr_memory_id s) (sr_memory_revision_id s)
                            (sr_grant_revision_id s) (sr_source_generation s)]) /\
      mm_disclosures m' = mm_disclosures m ++ [mkDisclosure (mm_shared_ref m) DeriveLocal at_]
  | (Err _, m') => ~ may_use g m t DeriveLocal at_ /\ m' = m
  end.
Proof. unfold derive_local. by destruct (record_disclosure_cases m g t DeriveLocal at_) as [[Hu ->]|[Hn ->]]. Qed.

(** ** An example *)

Module SharingExample.

Definition ops : gset ShareOperation := {[ReadContent; DeriveLocal]}.
Definition spec : MemoryShareGrantRevisionSpec :=
  mkRevisionSpec 1 (ExactWorkspace 2) 30 31 (text_of "generation-1") ops 100 (Some 1000%Z).
Definition revision : MemoryShareGrantRevision :=
  mkGrantRevision 40 1 2 30 31 (text_of "generation-1") ops 100 (Some 1000%Z).
Definition grant : MemoryShareGrant := mkShareGrant 41 revision GrantActive 150 None.
Definition policy : TargetSharePolicy := mkTargetPolicy 2 5 {[ReadContent]} (Some 900%Z).
Definition acceptance : MemoryMountAcceptance := mkAcceptance 41 40 2 5 {[ReadContent]} None.
Definition mount : MemoryMount :=
  mkMount 50 2 5 41 40 {[ReadContent]} 200 (Some 900%Z) MountActive (revision_shared_ref revision) [].
Definition reader_ctx : RequestContext := mkContext 901 902 2 5.
Definition record : SharedMemoryRevisionRecord := mkRevisionRecord 1 30 31 (text_of "content").

Lemma mount_is_shared : shared grant mount acceptance policy 200.
Proof.
  split; [|exists 50%Z; vm_compute; reflexivity].
  exists 40%Z, spec, revision, 41%Z, 150%Z. split; vm_compute; reflexivity.
Qed.

Definition used_mount : MemoryMount := mount_disclose mount (mkDisclosure (revision_shared_ref revision) ReadContent 300).

(** A use, and the revocation after it. *)
Lemma mount_is_used : share_run [Some policy; None] (grant, mount) ((share_revoke grant 400).2, used_mount).
Proof.
  pose proof (ss_use grant mount policy ReadContent 300) as Hs.
  replace (record_disclosure mount grant policy ReadContent 300).2 with used_mount in Hs by (vm_compute; reflexivity).
  econstructor; [exact Hs|]. econstructor; [apply ss_revoke|constructor].
Qed.

Lemma disclosures_are_authorised_at :
  let d := mkDisclosure (revision_shared_ref revision) ReadContent 300 in
  (sd_disclosed_at d < 900)%Z /\ exists t g1 m1, sg_revision g1 = revision /\ may_use g1 m1 t ReadContent 300.
Proof.
  destruct (disclosures_are_authorised grant mount acceptance policy 200 [Some policy; None] (share_revoke grant 400).2 used_mount
    0 (mkDisclosure (revision_shared_ref revision) ReadContent 300))
    as (_ & _ & _ & Hend & before & t & after & g1 & m1 & m2 & _ & _ & _ & _ & _ & _ & Hg & Hu);
    [exact mount_is_shared|exact mount_is_used|reflexivity|].
  split; [apply Hend; right; reflexivity|]. exists t, g1, m1. split; [exact Hg|exact Hu].
Defined.

Definition revoked : MemoryShareGrant := mkShareGrant 41 revision GrantRevoked 150 (Some 400%Z).

Lemma revoked_share_discloses_nothing_at :
  mm_disclosures (record_disclosure mount revoked policy ReadContent 300).2 = [].
Proof.
  apply (revoked_share_discloses_nothing [Some policy] revoked mount revoked);
    [econstructor; [apply ss_use|constructor]|left; discriminate].
Defined.

Lemma shared_read_is_exact_at :
  exists at_ record', may_use grant mount policy ReadContent at_ /\ rr_content record' = text_of "content".
Proof.
  destruct (shared_read_is_exact reader_ctx grant mount policy
    [mkEvent ReadNow 300%Z; mkEvent (ReadExact (permit_issue (revision_shared_ref revision) reader_ctx)) (Ok (Some record))]
    (Ok (Some (mkReadResult (revision_shared_ref revision) (text_of "content")
      (mkDisclosure (revision_shared_ref revision) ReadContent 300)))) used_mount)
    as (at_ & record' & _ & _ & Hu & _ & _ & _ & _ & Hc & _).
  - right. exists 300%Z. eexists. split; [reflexivity|]. right. exists (Ok (Some record)). eexists.
    split; [reflexivity|]. split; [reflexivity|left; reflexivity].
  - exists at_, record'. split; [exact Hu|]. symmetry. exact Hc.
Defined.

End SharingExample.
