(* ===== verification/Ranking.v ===== *)
(** * Ranking by floating-point scores

    [f32] and [f64] are IEEE 754 binary32 and binary64, rounding to nearest even, on the Standard
    Library's [spec_float].  [sort_by] is the stable sort of [slice::sort_by] for comparisons that are
    a total order; on others the Rust sort may order differently or panic, so the lemmas on order ask
    for scores that are numbers. *)

From Stdlib Require Import ZArith Lia.
From Stdlib Require Import Floats.SpecFloat.
From stdpp Require Import base option numbers sorting list.
From S2P Require Import Prelude.

Definition float : Type := spec_float.

#[export] Instance float_eq_dec : EqDecision float.
Proof. unfold float. solve_decision. Defined.

(** ** Arithmetic *)

Definition f32_add (a b : float) : float := SFadd 24 128 a b.
Definition f32_sub (a b : float) : float := SFsub 24 128 a b.
Definition f32_mul (a b : float) : float := SFmul 24 128 a b.
Definition f32_div (a b : float) : float := SFdiv 24 128 a b.

Definition f64_add (a b : float) : float := SFadd 53 1024 a b.
Definition f64_sub (a b : float) : float := SFsub 53 1024 a b.
Definition f64_mul (a b : float) : float := SFmul 53 1024 a b.
Definition f64_div (a b : float) : float := SFdiv 53 1024 a b.
Definition float_neg (a : float) : float := SFopp a.

(** [n as f32] and [n as f64] of an unsigned integer. *)
Definition f32_of (n : Z) : float := binary_normalize 24 128 n 0 false.
Definition f64_of (n : Z) : float := binary_normalize 53 1024 n 0 false.

(** [x as f64]. *)
Definition f64_of_f32 (x : float) : float :=
  match x with
  | S754_finite s m e => binary_normalize 53 1024 (cond_Zopp s (Zpos m)) e s
  | x => x
  end.

(** The literal [a / b] written as a decimal, correctly rounded. *)
Definition f32_lit (a b : Z) : float := f32_div (f32_of a) (f32_of b).
Definition f64_lit (a b : Z) : float := f64_div (f64_of a) (f64_of b).

(** [f64::MIN]. *)
Definition f64_MIN : float := float_neg (SFmax_float 53 1024).

Definition is_nan (x : float) : bool := match x with S754_nan => true | _ => false end.

(** [<] and [>]: false when an operand is not a number. *)
Definition float_lt (a b : float) : bool := SFltb a b.
Definition float_gt (a b : float) : bool := SFltb b a.

(** [f32::clamp]; NaN stays NaN. *)
Definition f32_clamp (x lo hi : float) : float :=
  if float_lt x lo then lo else if float_gt x hi then hi else x.

(** ** Comparisons *)

(** [a.partial_cmp(&b).unwrap_or(Ordering::Equal)]. *)
Definition float_cmp (a b : float) : comparison := match SFcompare a b with Some c => c | None => Eq end.

(** [Ordering::then_with]. *)
Definition then_with (c d : comparison) : comparison := match c with Eq => d | c => c end.

Fixpoint insert_by {A} (cmp : A -> A -> comparison) (x : A) (l : list A) : list A :=
  match l with
  | [] => [x]
  | y :: l' => match cmp x y with Gt => y :: insert_by cmp x l' | _ => x :: l end
  end.

Definition sort_by {A} (cmp : A -> A -> comparison) (l : list A) : list A := foldr (insert_by cmp) [] l.

(** ** Comparisons that come from keys

    A comparison is a total order when it compares lists of integers lexicographically. *)

Fixpoint lex (a b : list Z) : comparison :=
  match a, b with
  | [], [] => Eq
  | [], _ => Lt
  | _, [] => Gt
  | x :: a, y :: b => then_with (x ?= y)%Z (lex a b)
  end.

Lemma lex_refl a : lex a a = Eq.
Proof. induction a as [|x a IH]; simpl; [done|]. by rewrite Z.compare_refl. Qed.

Lemma lex_sym a b : lex b a = CompOpp (lex a b).
Proof.
  revert b. induction a as [|x a IH]; intros [|y b]; simpl; try done. rewrite (Z.compare_antisym x y).
  destruct (x ?= y)%Z; simpl; [apply IH|done..].
Qed.

Lemma lex_eq a b : lex a b = Eq <-> a = b.
Proof.
  split; [|intros ->; apply lex_refl]. revert b. induction a as [|x a IH]; intros [|y b]; simpl; try done.
  destruct (Z.compare_spec x y) as [->|?|?]; simpl; try done. by intros ->%IH.
Qed.

Lemma lex_trans a b c : lex a b <> Gt -> lex b c <> Gt -> lex a c <> Gt.
Proof.
  revert b c. induction a as [|x a IH]; intros [|y b] [|z c]; simpl; try done.
  destruct (Z.compare_spec x y), (Z.compare_spec y z), (Z.compare_spec x z); simpl; try done; try lia. by apply IH.
Qed.

Lemma lex_app a b c d : length a = length c -> lex (a ++ b) (c ++ d) = then_with (lex a c) (lex b d).
Proof.
  revert c. induction a as [|x a IH]; intros [|y c]; simpl; try done. intros [= Hl]. rewrite IH by done.
  by destruct (x ?= y)%Z.
Qed.

Lemma lex_opp a b : length a = length b -> lex (Z.opp <$> a) (Z.opp <$> b) = lex b a.
Proof.
  revert b. induction a as [|x a IH]; intros [|y b]; simpl; try done. intros [= Hl].
  change (list_fmap Z Z Z.opp) with (fmap (M := list) Z.opp). rewrite IH, Z.compare_opp by done. done.
Qed.

(** The key of a float: its place on the line. *)
Definition float_key (x : float) : list Z :=
  match x with
  | S754_infinity true => [-2; 0; 0]
  | S754_finite true m e => [-1; - e; Zneg m]
  | S754_zero _ => [0; 0; 0]
  | S754_finite false m e => [1; e; Zpos m]
  | S754_infinity false => [2; 0; 0]
  | S754_nan => [3; 0; 0]
  end%Z.

Lemma float_key_length x : length (float_key x) = 3.
Proof. by destruct x as [|[]| |[]]. Qed.

Lemma float_cmp_key a b : is_nan a = false -> is_nan b = false -> float_cmp a b = lex (float_key a) (float_key b).
Proof.
  destruct a as [sa|[]| |[] ma ea], b as [sb|[]| |[] mb eb]; try done; intros _ _; unfold float_cmp; simpl; try done.
  - rewrite Z.compare_opp. fold (Pos.compare ma mb). rewrite (Z.compare_antisym ea eb).
    destruct (ea ?= eb)%Z; simpl; try done. by destruct (ma ?= mb)%positive.
  - fold (Pos.compare ma mb). destruct (ea ?= eb)%Z; simpl; try done. by destruct (ma ?= mb)%positive.
Qed.

(** ** Sorting *)

Section Sorting.
Context {A : Type} (cmp : A -> A -> comparison).

Lemma insert_by_Permutation x l : insert_by cmp x l ≡ₚ x :: l.
Proof.
  induction l as [|y l IH]; simpl; [done|]. destruct (cmp x y); [done|done|]. rewrite IH. apply Permutation_swap.
Qed.

Lemma sort_by_Permutation l : sort_by cmp l ≡ₚ l.
Proof. induction l as [|x l IH]; simpl; [done|]. by rewrite insert_by_Permutation, IH. Qed.

Lemma sort_by_elem x l : x ∈ sort_by cmp l <-> x ∈ l.
Proof. by rewrite sort_by_Permutation. Qed.

Lemma sort_by_length l : length (sort_by cmp l) = length l.
Proof. by rewrite sort_by_Permutation. Qed.

(** [key] decides the comparison of the elements that satisfy [P]. *)
Context (key : A -> list Z) (P : A -> Prop).
Context (cmp_key : forall x y, P x -> P y -> cmp x y = lex (key x) (key y)).

Definition ranked (x y : A) : Prop := lex (key x) (key y) <> Gt.

Lemma ranked_trans x y z : ranked x y -> ranked y z -> ranked x z.
Proof. apply lex_trans. Qed.

Lemma insert_by_sorted x l : P x -> Forall P l -> StronglySorted ranked l -> StronglySorted ranked (insert_by cmp x l).
Proof.
  intros Hx HP Hs. induction Hs as [|y l Hs IH Hy]; simpl; [by repeat constructor|].
  apply Forall_cons in HP as [HPy HP]. rewrite (cmp_key x y) by done.
  assert (Hcase : lex (key x) (key y) = Gt \/ ranked x y) by (unfold ranked; destruct (lex (key x) (key y)); auto).
  destruct Hcase as [Hgt|Hle].
  - rewrite Hgt. constructor; [by apply IH|]. rewrite insert_by_Permutation. constructor; [|done].
    unfold ranked. by rewrite lex_sym, Hgt.
  - assert (StronglySorted ranked (x :: y :: l)).
    { constructor; [by constructor|]. constructor; [done|]. eapply Forall_impl; [done|]. intros z. by apply ranked_trans. }
    destruct (lex (key x) (key y)) eqn:E; [done|done|]. by destruct Hle.
Qed.

Lemma sort_by_sorted l : Forall P l -> StronglySorted ranked (sort_by cmp l).
Proof.
  induction 1 as [|x l Hx HP IH]; simpl; [constructor|]. apply insert_by_sorted; try done. by rewrite sort_by_Permutation.
Qed.

(** A list that is sorted already stays as it is. *)
Lemma sort_by_id l : Forall P l -> StronglySorted ranked l -> sort_by cmp l = l.
Proof.
  intros HP Hs. induction Hs as [|x l Hs IH Hx]; simpl; [done|]. apply Forall_cons in HP as [HPx HP]. rewrite IH by done.
  destruct l as [|y l]; [done|]. simpl. apply Forall_cons in HP as [HPy _]. apply Forall_cons in Hx as [Hxy _].
  rewrite cmp_key by done. unfold ranked in Hxy. by destruct (lex _ _).
Qed.

(** Elements with distinct keys have one sorted order, whatever order they came in. *)
Lemma sort_by_unique l l' :
  l ≡ₚ l' -> Forall P l -> (forall x y, x ∈ l -> y ∈ l -> key x = key y -> x = y) -> sort_by cmp l = sort_by cmp l'.
Proof.
  intros Hp HP Hkey. apply (StronglySorted_unique_strong ranked).
  - intros x y Hx Hy Hxy Hyx. rewrite sort_by_elem in Hx, Hy. apply Hkey; [done|by rewrite Hp|].
    apply lex_eq. unfold ranked in *. rewrite lex_sym in Hyx. by destruct (lex (key x) (key y)).
  - by apply sort_by_sorted.
  - apply sort_by_sorted. by rewrite <- Hp.
  - by rewrite !sort_by_Permutation.
Qed.

End Sorting.

(** Sorted lists of elements of which the order says something. *)
Lemma StronglySorted_weaken {A} (R R' : A -> A -> Prop) (P : A -> Prop) l :
  (forall x y, P x -> P y -> R x y -> R' x y) -> Forall P l -> StronglySorted R l -> StronglySorted R' l.
Proof.
  intros Hr HP Hs. induction Hs as [|x l _ IH Hx]; [constructor|]. apply Forall_cons in HP as [HPx HP].
  constructor; [by apply IH|]. rewrite Forall_forall in *. eauto.
Qed.

Lemma NoDup_fmap_inj_elem {A B} (f : A -> B) l x y : NoDup (f <$> l) -> x ∈ l -> y ∈ l -> f x = f y -> x = y.
Proof.
  intros Hnd [i Hi]%list_elem_of_lookup [j Hj]%list_elem_of_lookup Hf. assert (i = j) as ->; [|congruence].
  eapply (NoDup_lookup _ _ _ _ Hnd); rewrite list_lookup_fmap; [by rewrite Hi|rewrite Hj; simpl; by rewrite Hf].
Qed.

(** ** Scores that are numbers

    Rounding a mantissa that is not negative gives a number of the sign asked for, so sums and products of
    numbers that are not negative, and differences of finite ones, are numbers. *)

Definition nonneg (x : float) : bool :=
  match x with S754_zero false | S754_infinity false | S754_finite false _ _ => true | _ => false end.

Definition finite (x : float) : bool := match x with S754_zero _ | S754_finite _ _ _ => true | _ => false end.

Lemma nonneg_number x : nonneg x = true -> is_nan x = false.
Proof. by destruct x. Qed.

Section Rounding.
Context (prec emax : Z).

Lemma shr_1_nonneg r : (0 <= shr_m r)%Z -> (0 <= shr_m (shr_1 r))%Z.
Proof. destruct r as [[|[p|p|]|[p|p|]] ? ?]; simpl; lia. Qed.

Lemma iter_shr_nonneg n r : (0 <= shr_m r)%Z -> (0 <= shr_m (SpecFloat.iter_pos shr_1 n r))%Z.
Proof. revert r. induction n as [n IH|n IH|]; intros r Hr; simpl; auto using shr_1_nonneg. Qed.

Lemma shr_fexp_nonneg m e l : (0 <= m)%Z -> (0 <= shr_m (shr_fexp prec emax m e l).1)%Z.
Proof.
  intros Hm. assert (Hr : (0 <= shr_m (shr_record_of_loc m l))%Z) by (by destruct l as [|[]]).
  unfold shr_fexp, shr. destruct (_ - _)%Z; simpl; [done|by apply iter_shr_nonneg|done].
Qed.

Lemma round_nearest_even_nonneg m l : (0 <= m)%Z -> (0 <= round_nearest_even m l)%Z.
Proof. intros Hm. destruct l as [|[]]; simpl; try case_match; lia. Qed.

Lemma binary_round_aux_sign s m e l :
  (0 <= m)%Z ->
  match binary_round_aux prec emax s m e l with
  | S754_zero s' | S754_infinity s' | S754_finite s' _ _ => s' = s
  | S754_nan => False
  end.
Proof.
  intros Hm. unfold binary_round_aux. pose proof (shr_fexp_nonneg m e l Hm) as H1. destruct (shr_fexp _ _ m e l) as [r1 e1].
  pose proof (shr_fexp_nonneg _ e1 loc_Exact (round_nearest_even_nonneg (shr_m r1) (loc_of_shr_record r1) H1)) as H2.
  destruct (shr_fexp _ _ _ e1 _) as [r2 e2]. simpl in H2. destruct (shr_m r2); [done|by destruct (e2 <=? _)%Z|lia].
Qed.

Lemma binary_round_sign s m e :
  match binary_round prec emax s m e with
  | S754_zero s' | S754_infinity s' | S754_finite s' _ _ => s' = s
  | S754_nan => False
  end.
Proof. unfold binary_round. destruct (shl_align _ _ _) as [mz ez]. by apply binary_round_aux_sign. Qed.

Lemma binary_normalize_number m e s : is_nan (binary_normalize prec emax m e s) = false.
Proof.
  destruct m as [|p|p]; simpl; [done|pose proof (binary_round_sign false p e) as Hr|pose proof (binary_round_sign true p e) as Hr];
    by destruct (binary_round _ _ _ p e).
Qed.

Lemma binary_normalize_nonneg m e : (0 <= m)%Z -> nonneg (binary_normalize prec emax m e false) = true.
Proof.
  intros Hm. destruct m as [|p|p]; simpl; [done| |lia]. pose proof (binary_round_sign false p e) as Hr.
  destruct (binary_round _ _ _ p e); simpl in *; subst; done.
Qed.

Lemma SFadd_nonneg x y : nonneg x = true -> nonneg y = true -> nonneg (SFadd prec emax x y) = true.
Proof.
  destruct x as [[]|[]| |[] mx ex], y as [[]|[]| |[] my ey]; try done; intros _ _. cbn [SFadd cond_Zopp].
  by apply binary_normalize_nonneg.
Qed.

Lemma SFdiv_nonneg m e y : nonneg y = true -> nonneg (SFdiv prec emax (S754_finite false m e) y) = true.
Proof.
  destruct y as [[]|[]| |[] my ey]; try done; intros _. cbn [SFdiv xorb].
  destruct (SFdiv_core_binary _ _ (Zpos m) e (Zpos my) ey) as [[q e'] l] eqn:E.
  assert (Hq : (0 <= q)%Z).
  { unfold SFdiv_core_binary in E. match type of E with context [Z.div_eucl ?x _] => set (m' := x) in E end.
    assert (Hm' : (0 <= m')%Z) by (subst m'; match goal with |- (0 <= match ?s with _ => _ end)%Z => destruct s end; [done|by apply Z.shiftl_nonneg|done]).
    destruct (Z.div_eucl m' (Zpos my)) as [q' r] eqn:Hd. injection E as <- _ _.
    pose proof (Z.div_pos m' (Zpos my) Hm' ltac:(lia)) as Hpos. unfold Z.div in Hpos. by rewrite Hd in Hpos. }
  pose proof (binary_round_aux_sign false q e' l Hq) as Hr. destruct (binary_round_aux _ _ _ q e' l); simpl in *; subst; done.
Qed.

Lemma SFmul_nonneg x m e : nonneg x = true -> nonneg (SFmul prec emax x (S754_finite false m e)) = true.
Proof.
  destruct x as [[]|[]| |[] mx ex]; try done; intros _. cbn [SFmul xorb].
  pose proof (binary_round_aux_sign false (Zpos (mx * m)) (ex + e) loc_Exact ltac:(done)) as Hr.
  destruct (binary_round_aux _ _ _ _ _ _); simpl in *; subst; done.
Qed.

Lemma SFsub_number x y : is_nan x = false -> finite y = true -> is_nan (SFsub prec emax x y) = false.
Proof.
  destruct x as [[]|[]| |[] mx ex], y as [[]|[]| |[] my ey]; try done; intros _ _; cbn [SFsub cond_Zopp];
    apply binary_normalize_number.
Qed.

End Rounding.
