(* ===== verification/ModelRouting.v ===== *)
(** * Routing a task to a model

    [crates/vestrace-domain/src/models/routing.rs] with the cost profile of [models/mod.rs] and the
    sensitivities of [security/mod.rs], and how [crates/vestrace-http/src/api/routing.rs] makes
    candidates of a request.  The display texts of a decision, [rationale] and [reason_detail], are
    left out. *)

From Stdlib Require Import ZArith Lia String.
From stdpp Require Import base option numbers strings sorting list.
From S2P Require Import Prelude Codec Text RunStatus RunDecider Ranking.

Abbreviation ModelId := Uuid (only parsing).
Abbreviation ProviderId := Uuid (only parsing).
Abbreviation RoutingDecisionId := Uuid (only parsing).

(** ** Data *)

Inductive RoutingStrategy : Type :=
| Fixed | BestQuality | LowestCost | LowestLatency | Balanced | LocalOnly | WithinBudget | QualityAboveThreshold
| CustomWeighted.

Inductive Sensitivity : Type := Public | Internal | Confidential | Restricted.

(** The derived [Ord]: in the order of declaration. *)
Definition sensitivity_rank (s : Sensitivity) : Z :=
  match s with Public => 0 | Internal => 1 | Confidential => 2 | Restricted => 3 end.

Inductive ProviderLocality : Type := LocalProvider | RemoteProvider.

#[export] Instance ProviderLocality_eq_dec : EqDecision ProviderLocality.
Proof. solve_decision. Defined.

Record TaskRequirements : Type := mkTask {
  tk_task_type : text;
  tk_required_capabilities : list text;
  tk_min_quality : float;
  tk_max_cost_per_mtoken : option float;
  tk_context_tokens : Z;
  tk_privacy_local_only : bool;
  tk_data_sensitivity : Sensitivity;
  tk_remote_transfer_approved : bool;
}.

Record ModelCostProfile : Type := mkCost {
  co_input_cost_per_mtoken : float;
  co_output_cost_per_mtoken : float;
}.

Definition cost_profile_new (input output : float) : result DomainError ModelCostProfile :=
  if float_lt input (f32_of 0) || float_lt output (f32_of 0) then Err InvalidArgument else Ok (mkCost input output).

Record RoutingCandidate : Type := mkCandidate {
  ca_model_id : ModelId;
  ca_provider_id : ProviderId;
  ca_model_name : text;
  ca_locality : ProviderLocality;
  ca_context_window : Z;
  ca_cost : ModelCostProfile;
  ca_expected_quality : float;
  ca_estimated_latency_ms : Z;
  ca_reliability : float;
  ca_observation_count : Z;
}.

Record RejectedCandidate : Type := mkRejected {
  rj_model_id : ModelId;
  rj_model_name : text;
  rj_reason_code : text;
}.

Record RoutingDecision : Type := mkRouting {
  ro_id : RoutingDecisionId;
  ro_workspace_id : WorkspaceId;
  ro_strategy : RoutingStrategy;
  ro_selected : option RoutingCandidate;
  ro_fallbacks : list RoutingCandidate;
  ro_rejected : list RejectedCandidate;
  ro_fallback_used : bool;
  ro_task_type : text;
  ro_created_at : Timestamp;
}.

(** ** Filtering and scoring *)

Definition total_cost (c : RoutingCandidate) : float :=
  f32_add (co_input_cost_per_mtoken (ca_cost c)) (co_output_cost_per_mtoken (ca_cost c)).

(** The code of the first reason to reject a candidate. *)
Definition hard_filter (c : RoutingCandidate) (task : TaskRequirements) : option text :=
  if (ca_context_window c <? tk_context_tokens task)%Z then Some (text_of "context_limit_exceeded") else
  if tk_privacy_local_only task && (ca_locality c == RemoteProvider) then Some (text_of "privacy_violation") else
  if (ca_locality c == RemoteProvider)
     && (sensitivity_rank Restricted <=? sensitivity_rank (tk_data_sensitivity task))%Z
     && negb (tk_remote_transfer_approved task)
  then Some (text_of "restricted_data_no_transfer_approval") else
  if float_lt (ca_expected_quality c) (tk_min_quality task) then Some (text_of "quality_below_threshold") else
  match tk_max_cost_per_mtoken task with
  | Some max_cost => if float_gt (total_cost c) max_cost then Some (text_of "budget_exceeded") else None
  | None => None
  end.

Definition score_candidate (c : RoutingCandidate) (strategy : RoutingStrategy) : float :=
  let quality := f64_of_f32 (ca_expected_quality c) in
  let cost := f64_of_f32 (total_cost c) in
  let latency := f64_of (ca_estimated_latency_ms c) in
  let reliability := f64_of_f32 (ca_reliability c) in
  match strategy with
  | Fixed => f64_of 1
  | BestQuality => quality
  | LowestCost => float_neg cost
  | LowestLatency => float_neg latency
  | LocalOnly => if ca_locality c == LocalProvider then quality else f64_MIN
  | WithinBudget => f64_sub quality (f64_mul cost (f64_lit 1 100))
  | QualityAboveThreshold => quality
  | Balanced =>
      f64_sub (f64_sub (f64_add (f64_mul quality (f64_lit 1 2)) (f64_mul reliability (f64_lit 3 10)))
                       (f64_mul cost (f64_lit 1 10)))
              (f64_mul latency (f64_lit 1 10000))
  | CustomWeighted =>
      f64_sub (f64_add (f64_mul quality (f64_lit 1 2)) (f64_mul reliability (f64_lit 3 10)))
              (f64_mul cost (f64_lit 1 10))
  end.

Definition locality_cmp (a b : ProviderLocality) : comparison :=
  match a, b with
  | LocalProvider, RemoteProvider => Lt
  | RemoteProvider, LocalProvider => Gt
  | _, _ => Eq
  end.

(** The comparison [eligible] is sorted by: best first. *)
Definition route_cmp (strategy : RoutingStrategy) (a b : RoutingCandidate) : comparison :=
  then_with (float_cmp (score_candidate b strategy) (score_candidate a strategy))
  (then_with (float_cmp (ca_reliability b) (ca_reliability a))
  (then_with (ca_estimated_latency_ms a ?= ca_estimated_latency_ms b)%Z
  (then_with (locality_cmp (ca_locality a) (ca_locality b))
             (ca_model_id a ?= ca_model_id b)%Z))).

(** ** Routing *)

(** The loop over the candidates: those that pass, and those that do not with the reason. *)
Fixpoint filter_candidates (task : TaskRequirements) (candidates : list RoutingCandidate)
    : list RoutingCandidate * list RejectedCandidate :=
  match candidates with
  | [] => ([], [])
  | c :: rest =>
      let '(eligible, rejected) := filter_candidates task rest in
      match hard_filter c task with
      | Some reason => (eligible, mkRejected (ca_model_id c) (ca_model_name c) reason :: rejected)
      | None => (c :: eligible, rejected)
      end
  end.

Definition route (id : RoutingDecisionId) (ws : WorkspaceId) (strategy : RoutingStrategy) (task : TaskRequirements)
    (candidates : list RoutingCandidate) (at_ : Timestamp) : RoutingDecision :=
  let '(eligible, rejected) := filter_candidates task candidates in
  let eligible := sort_by (route_cmp strategy) eligible in
  mkRouting id ws strategy (head eligible) (tail eligible) rejected false (tk_task_type task) at_.

Definition next_fallback (d : RoutingDecision) : option RoutingCandidate * RoutingDecision :=
  match ro_fallbacks d with
  | [] => (None, mkRouting (ro_id d) (ro_workspace_id d) (ro_strategy d) None [] (ro_rejected d) true (ro_task_type d)
                   (ro_created_at d))
  | next :: rest =>
      (Some next, mkRouting (ro_id d) (ro_workspace_id d) (ro_strategy d) (Some next) rest (ro_rejected d) true
                    (ro_task_type d) (ro_created_at d))
  end.

(** ** The request *)

Record RouteCandidateInput : Type := mkCandidateInput {
  ci_model_id : Uuid;
  ci_provider_id : Uuid;
  ci_model_name : text;
  ci_locality : text;
  ci_context_window : Z;
  ci_input_cost_per_mtoken : float;
  ci_output_cost_per_mtoken : float;
  ci_expected_quality : float;
  ci_estimated_latency_ms : Z;
  ci_reliability : float;
  ci_observation_count : Z;
}.

(** One element of the [map] in [route_model]; an error is a bad request. *)
Definition candidate_of_input (c : RouteCandidateInput) : option RoutingCandidate :=
  match cost_profile_new (ci_input_cost_per_mtoken c) (ci_output_cost_per_mtoken c) with
  | Err _ => None
  | Ok cost =>
      locality ← (if ci_locality c == text_of "local" then Some LocalProvider
                  else if ci_locality c == text_of "remote" then Some RemoteProvider else None);
      Some (mkCandidate (ci_model_id c) (ci_provider_id c) (ci_model_name c) locality (ci_context_window c) cost
              (ci_expected_quality c) (ci_estimated_latency_ms c) (ci_reliability c) (ci_observation_count c))
  end.

(** The decision [route_model] records; [None] is a bad request. *)
Definition route_request (id : RoutingDecisionId) (ws : WorkspaceId) (strategy : RoutingStrategy) (task : TaskRequirements)
    (inputs : list RouteCandidateInput) (at_ : Timestamp) : option RoutingDecision :=
  candidates ← mapM candidate_of_input inputs;
  Some (route id ws strategy task candidates at_).
