(* ===== verification/ModelRoutingSpec.v ===== *)
(** * What routing guarantees

    No selection and no fallback violates a hard requirement, every candidate is accounted for, the
    selection is the best by the strategy and does not depend on the order of the candidates, and
    fallbacks run out.  What a strategy and a requirement do not do is stated as well. *)

From Stdlib Require Import ZArith Lia String.
From stdpp Require Import base option numbers strings sorting sets list.
From S2P Require Import Prelude Codec Text RunStatus RunDecider Ranking ModelRouting.

(** ** Filtering *)

(** The hard requirements, as a conjunction. *)
Definition admissible (task : TaskRequirements) (c : RoutingCandidate) : Prop :=
  (tk_context_tokens task <= ca_context_window c)%Z /\
  (ca_locality c = RemoteProvider -> tk_privacy_local_only task = false) /\
  (ca_locality c = RemoteProvider -> tk_data_sensitivity task = Restricted -> tk_remote_transfer_approved task = true) /\
  float_lt (ca_expected_quality c) (tk_min_quality task) = false /\
  forall max_cost, tk_max_cost_per_mtoken task = Some max_cost -> float_gt (total_cost c) max_cost = false.

Lemma hard_filter_None c task : hard_filter c task = None <-> admissible task c.
Proof.
  unfold hard_filter. split.
  - intros Hf. destruct (_ <? _)%Z eqn:Hc in Hf; [done|]. destruct (_ && (_ == _)) eqn:Hp in Hf; [done|].
    destruct (_ && negb _) eqn:Hs in Hf; [done|]. destruct (float_lt _ _) eqn:Hq in Hf; [done|]. split_and!.
    + by apply Z.ltb_ge.
    + intros Hl. by rewrite Hl, eqb_refl, andb_true_r in Hp.
    + intros Hl Hr. rewrite Hl, Hr, eqb_refl in Hs. by destruct (tk_remote_transfer_approved task).
    + done.
    + intros max_cost Hm. rewrite Hm in Hf. by destruct (float_gt _ _).
  - intros (Hc & Hp & Hs & Hq & Hm). apply Z.ltb_ge in Hc. rewrite Hc, Hq.
    assert (match tk_max_cost_per_mtoken task with
            | Some max_cost => if float_gt (total_cost c) max_cost then Some (text_of "budget_exceeded") else None
            | None => None end = None) as ->.
    { destruct (tk_max_cost_per_mtoken task) as [u|]; [by rewrite Hm|done]. }
    destruct (ca_locality c); [by rewrite andb_false_r|]. rewrite Hp by done.
    destruct (tk_data_sensitivity task); try done. by rewrite Hs.
Qed.

Lemma filter_candidates_eligible task cs :
  (filter_candidates task cs).1 = List.filter (fun c => is_none (hard_filter c task)) cs.
Proof.
  induction cs as [|c cs IH]; simpl; [done|]. destruct (filter_candidates task cs) as [eligible rejected].
  simpl in *. by destruct (hard_filter c task); rewrite <-IH.
Qed.

Lemma eligible_elem task cs c : c ∈ (filter_candidates task cs).1 <-> c ∈ cs /\ admissible task c.
Proof.
  rewrite filter_candidates_eligible, list_elem_of_In, filter_In, <-list_elem_of_In, is_none_true. by rewrite hard_filter_None.
Qed.

Lemma filter_candidates_split task cs :
  (ca_model_id <$> (filter_candidates task cs).1) ++ (rj_model_id <$> (filter_candidates task cs).2) ≡ₚ ca_model_id <$> cs.
Proof.
  induction cs as [|c cs IH]; [done|]. cbn [filter_candidates]. destruct (filter_candidates task cs) as [eligible rejected].
  cbn [fst snd] in *. destruct (hard_filter c task); cbn [fst snd]; rewrite !fmap_cons, <-IH; [|done].
  symmetry. apply Permutation_middle.
Qed.

Lemma rejected_reason task cs r :
  r ∈ (filter_candidates task cs).2 ->
  exists c, c ∈ cs /\ rj_model_id r = ca_model_id c /\ hard_filter c task = Some (rj_reason_code r).
Proof.
  induction cs as [|c cs IH]; simpl; [by intros ?%not_elem_of_nil|].
  destruct (filter_candidates task cs) as [eligible rejected]. simpl in *.
  destruct (hard_filter c task) as [reason|] eqn:E; simpl.
  - intros [->|Hr]%elem_of_cons; [exists c; split_and!; [by left|done|done]|].
    destruct (IH Hr) as (c' & Hc & ?). exists c'. split; [by right|done].
  - intros Hr. destruct (IH Hr) as (c' & Hc & ?). exists c'. split; [by right|done].
Qed.

(** ** Decisions *)

(** The candidates a decision can still use, in order. *)
Definition usable (d : RoutingDecision) : list RoutingCandidate := option_list (ro_selected d) ++ ro_fallbacks d.

Lemma route_usable id ws strategy task cs at_ :
  usable (route id ws strategy task cs at_) = sort_by (route_cmp strategy) (filter_candidates task cs).1.
Proof. unfold route, usable. destruct (filter_candidates task cs) as [e r]. simpl. by destruct (sort_by _ e). Qed.

Lemma route_rejected id ws strategy task cs at_ : ro_rejected (route id ws strategy task cs at_) = (filter_candidates task cs).2.
Proof. unfold route. by destruct (filter_candidates task cs). Qed.

(** A decision after some fallbacks. *)
Inductive falls_back : RoutingDecision -> RoutingDecision -> Prop :=
| fb_none d : falls_back d d
| fb_next d d' : falls_back (next_fallback d).2 d' -> falls_back d d'.

Lemma falls_back_usable d d' : falls_back d d' -> usable d' ⊆ usable d.
Proof.
  induction 1 as [d|d d' _ IH]; [done|]. etrans; [done|]. unfold next_fallback, usable.
  destruct (ro_fallbacks d) as [|c rest]; simpl; set_solver.
Qed.

(** A model that is selected, and every model the decision falls back to later, is one of the candidates and meets
    every hard requirement of the task: it fits the context, it is local when the task says so, it is local or approved
    when the data is restricted, and it is neither below the quality nor above the cost that was asked. *)
Theorem routed_model_is_admissible id ws strategy task cs at_ d c :
  falls_back (route id ws strategy task cs at_) d -> ro_selected d = Some c -> c ∈ cs /\ admissible task c.
Proof.
  intros Hf Hs. apply (eligible_elem task). rewrite <-(sort_by_elem (route_cmp strategy)), <-(route_usable id ws strategy task cs at_).
  apply (falls_back_usable _ _ Hf). unfold usable. rewrite Hs. by left.
Qed.

(** Every candidate is accounted for once: it is selected, a fallback, or rejected, and who is rejected is rejected
    with the reason the hard filter found. *)
Theorem candidates_are_accounted_for id ws strategy task cs at_ :
  let d := route id ws strategy task cs at_ in
  (ca_model_id <$> usable d) ++ (rj_model_id <$> ro_rejected d) ≡ₚ ca_model_id <$> cs /\
  forall r, r ∈ ro_rejected d ->
    exists c, c ∈ cs /\ rj_model_id r = ca_model_id c /\ hard_filter c task = Some (rj_reason_code r).
Proof.
  intros d. unfold d. rewrite route_usable, route_rejected. split; [|apply rejected_reason].
  rewrite <-(filter_candidates_split task cs). by rewrite sort_by_Permutation.
Qed.

(** ** Order *)

Definition numbers (strategy : RoutingStrategy) (c : RoutingCandidate) : Prop :=
  is_nan (score_candidate c strategy) = false /\ is_nan (ca_reliability c) = false.

Definition locality_key (l : ProviderLocality) : Z := match l with LocalProvider => 0 | RemoteProvider => 1 end.

Definition route_key (strategy : RoutingStrategy) (c : RoutingCandidate) : list Z :=
  (Z.opp <$> float_key (score_candidate c strategy)) ++ (Z.opp <$> float_key (ca_reliability c)) ++
  [ca_estimated_latency_ms c; locality_key (ca_locality c); ca_model_id c].

Lemma route_cmp_key strategy a b :
  numbers strategy a -> numbers strategy b -> route_cmp strategy a b = lex (route_key strategy a) (route_key strategy b).
Proof.
  intros [Ha1 Ha2] [Hb1 Hb2]. unfold route_cmp, route_key.
  rewrite !lex_app by (by rewrite !length_fmap, !float_key_length).
  rewrite !lex_opp by (by rewrite !float_key_length). rewrite !float_cmp_key by done. simpl.
  f_equal. f_equal. f_equal. replace (locality_key (ca_locality a) ?= locality_key (ca_locality b))%Z
    with (locality_cmp (ca_locality a) (ca_locality b)) by by destruct (ca_locality a), (ca_locality b).
  f_equal. by destruct (_ ?= _)%Z.
Qed.

Lemma route_key_id strategy a b : route_key strategy a = route_key strategy b -> ca_model_id a = ca_model_id b.
Proof.
  unfold route_key. intros Hk. apply (f_equal last) in Hk. rewrite !app_assoc, !last_app in Hk. simpl in Hk. by injection Hk.
Qed.

Lemma route_sorted id ws strategy task cs at_ :
  Forall (numbers strategy) cs ->
  StronglySorted (ranked (route_key strategy)) (usable (route id ws strategy task cs at_)).
Proof.
  intros Hn. rewrite route_usable. apply (sort_by_sorted _ _ (numbers strategy) (route_cmp_key strategy)).
  rewrite Forall_forall in *. intros c [Hc _]%eligible_elem. by apply Hn.
Qed.

Lemma ranked_score strategy a b : ranked (route_key strategy) a b ->
  numbers strategy a -> numbers strategy b -> float_cmp (score_candidate b strategy) (score_candidate a strategy) <> Gt.
Proof.
  unfold ranked. intros Hr Ha Hb. rewrite <-route_cmp_key in Hr by done. unfold route_cmp in Hr.
  by destruct (float_cmp (score_candidate b strategy) (score_candidate a strategy)).
Qed.

(** C36.  With scores that are numbers, no admissible candidate scores better under the strategy than the selected one,
    and the fallbacks are tried from better to worse. *)
Theorem selected_model_is_best id ws strategy task cs at_ c :
  Forall (numbers strategy) cs -> ro_selected (route id ws strategy task cs at_) = Some c ->
  (forall c', c' ∈ cs -> admissible task c' ->
     float_cmp (score_candidate c' strategy) (score_candidate c strategy) <> Gt) /\
  StronglySorted (fun a b => float_cmp (score_candidate b strategy) (score_candidate a strategy) <> Gt)
    (usable (route id ws strategy task cs at_)).
Proof.
  intros Hn Hs. pose proof (route_sorted id ws strategy task cs at_ Hn) as Hsort.
  assert (Hnum : Forall (numbers strategy) (usable (route id ws strategy task cs at_))).
  { rewrite route_usable, sort_by_Permutation. rewrite Forall_forall in *. intros x [Hx _]%eligible_elem. by apply Hn. }
  assert (Hscore : StronglySorted (fun a b => float_cmp (score_candidate b strategy) (score_candidate a strategy) <> Gt)
    (usable (route id ws strategy task cs at_))).
  { eapply StronglySorted_weaken; [|exact Hnum|exact Hsort]. intros x y Hx Hy Hr. by apply ranked_score. }
  split; [|done]. intros c' Hc' Ha.
  assert (Hu : c' ∈ usable (route id ws strategy task cs at_)) by (rewrite route_usable, sort_by_elem; by apply eligible_elem).
  unfold usable in Hu, Hscore. rewrite Hs in Hu, Hscore. simpl in *. apply elem_of_cons in Hu as [->|Hu].
  - pose proof Hn as Hn'. rewrite Forall_forall in Hn'. destruct (Hn' _ Hc') as [Hnan _].
    rewrite float_cmp_key, lex_refl by done. done.
  - inversion Hscore as [|? ? _ Hall]. rewrite Forall_forall in Hall. by apply Hall.
Qed.

(** With scores that are numbers and distinct models, what is selected and what it falls back to depend on the
    candidates and not on the order they were listed in. *)
Theorem routing_ignores_order id ws strategy task cs cs' at_ :
  Forall (numbers strategy) cs -> NoDup (ca_model_id <$> cs) -> cs ≡ₚ cs' ->
  usable (route id ws strategy task cs at_) = usable (route id ws strategy task cs' at_).
Proof.
  intros Hn Hnd Hp. rewrite !route_usable. apply (sort_by_unique _ _ (numbers strategy) (route_cmp_key strategy)).
  - rewrite !filter_candidates_eligible. clear -Hp.
    induction Hp as [|x l l' _ IH|x y l|l1 l2 l3 _ IH1 _ IH2]; simpl; [done| | |by etrans].
    + destruct (is_none _); [by constructor|done].
    + destruct (is_none _), (is_none _); try done. apply Permutation_swap.
  - rewrite Forall_forall in *. intros c [Hc _]%eligible_elem. by apply Hn.
  - intros a b [Ha _]%eligible_elem [Hb _]%eligible_elem Hk%route_key_id. by eapply NoDup_fmap_inj_elem.
Qed.

(** ** Fallbacks run out *)

Fixpoint fallback_times (n : nat) (d : RoutingDecision) : list (option RoutingCandidate) * RoutingDecision :=
  match n with
  | O => ([], d)
  | S n => let '(c, d) := next_fallback d in let '(cs, d) := fallback_times n d in (c :: cs, d)
  end.

Lemma fallback_times_none n d : ro_fallbacks d = [] -> (fallback_times n d).1 = replicate n None.
Proof.
  revert d. induction n as [|n IH]; intros d Hf; [done|]. cbn [fallback_times]. unfold next_fallback. rewrite Hf.
  match goal with |- context [fallback_times n ?x] => specialize (IH x eq_refl); destruct (fallback_times n x) as [cs d'] end.
  simpl in *. by rewrite IH.
Qed.

(** Falling back answers each fallback once, in order, and then nothing, for ever: a caller that retries until
    there is no fallback stops after as many steps as there are candidates. *)
Theorem fallbacks_run_out d n :
  (fallback_times (length (ro_fallbacks d) + n) d).1 = (Some <$> ro_fallbacks d) ++ replicate n None.
Proof.
  remember (ro_fallbacks d) as l eqn:Hl. revert d Hl. induction l as [|c l IH]; intros d Hl; [by apply fallback_times_none|].
  cbn [length Nat.add fallback_times]. unfold next_fallback. rewrite <-Hl.
  match goal with |- context [fallback_times ?k ?x] => specialize (IH x eq_refl); destruct (fallback_times k x) as [cs d'] end.
  simpl in *. by rewrite IH.
Qed.

(** ** What is not considered *)

(** The capabilities a task requires have no influence on the decision. *)
Theorem required_capabilities_are_ignored id ws strategy task capabilities cs at_ :
  route id ws strategy
    (mkTask (tk_task_type task) capabilities (tk_min_quality task) (tk_max_cost_per_mtoken task) (tk_context_tokens task)
      (tk_privacy_local_only task) (tk_data_sensitivity task) (tk_remote_transfer_approved task)) cs at_ =
  route id ws strategy task cs at_.
Proof.
  unfold route. match goal with |- context [filter_candidates ?t cs] => assert (filter_candidates t cs = filter_candidates task cs) as -> end.
  - induction cs as [|c cs IH]; [done|]. cbn [filter_candidates]. by rewrite IH.
  - by destruct (filter_candidates task cs).
Qed.

Module RoutingExample.

Definition cost : ModelCostProfile := mkCost (f32_lit 1 10) (f32_lit 2 10).
Definition remote : RoutingCandidate :=
  mkCandidate 1 10 (text_of "cloud") RemoteProvider 8192 cost (f32_lit 9 10) 100 (f32_lit 95 100) 10.
Definition local : RoutingCandidate :=
  mkCandidate 2 11 (text_of "local") LocalProvider 8192 cost (f32_lit 8 10) 300 (f32_lit 95 100) 10.
Definition small : RoutingCandidate :=
  mkCandidate 3 11 (text_of "small") LocalProvider 1024 cost (f32_lit 7 10) 50 (f32_lit 95 100) 10.
Definition task : TaskRequirements :=
  mkTask (text_of "code") [text_of "generation.code"] (f32_lit 1 2) None 4096 false Internal false.

Definition decision : RoutingDecision := route 90 7 Balanced task [local; remote; small] 1000.

Lemma three_numbers : Forall (numbers Balanced) [local; remote; small].
Proof. repeat constructor. Qed.

Lemma routed_model_is_admissible_at : remote ∈ [local; remote; small] /\ admissible task remote.
Proof.
  apply (routed_model_is_admissible 90 7 Balanced task [local; remote; small] 1000 decision remote); [constructor|].
  vm_compute. reflexivity.
Defined.

Lemma selected_model_is_best_at :
  float_cmp (score_candidate local Balanced) (score_candidate remote Balanced) <> Gt.
Proof.
  destruct (selected_model_is_best 90 7 Balanced task [local; remote; small] 1000 remote) as [Hbest _];
    [exact three_numbers|vm_compute; reflexivity|].
  apply Hbest; [by left|]. apply hard_filter_None. vm_compute. reflexivity.
Defined.

Lemma routing_ignores_order_at :
  usable decision = usable (route 90 7 Balanced task [remote; local; small] 1000).
Proof.
  apply (routing_ignores_order 90 7 Balanced task [local; remote; small] [remote; local; small] 1000);
    [exact three_numbers|apply (bool_decide_unpack _); vm_compute; exact I|apply Permutation_swap].
Defined.

(** The strategy [LocalOnly] selects a remote model when no local one is admissible: it lowers the score of remote
    candidates and rejects none. *)
Theorem local_only_selects_remote : ro_selected (route 90 7 LocalOnly task [remote; small] 1000) = Some remote.
Proof. vm_compute. reflexivity. Qed.

(** An infinite quality against an infinite cost: the score is not a number, and the comparison is no order. *)
Definition unbounded (id : Z) : RoutingCandidate :=
  mkCandidate id 10 (text_of "cloud") RemoteProvider 8192 (mkCost (SpecFloat.S754_infinity false) (f32_of 0))
    (SpecFloat.S754_infinity false) 100 (f32_lit 95 100) 10.

(** The comparison candidates are sorted by is no order when a score is not a number, and a request can make one: the
    first of these candidates comes before the second, the second before the third, and the third before the first. *)
Theorem routing_order_is_cyclic :
  route_cmp WithinBudget small (unbounded 0) = Lt /\ route_cmp WithinBudget (unbounded 0) remote = Lt /\
  route_cmp WithinBudget remote small = Lt.
Proof. vm_compute. done. Qed.

End RoutingExample.
