(* ===== verification/Retrieval.v ===== *)
(** * Retrieving memories

    The data of [crates/vestrace-domain/src/retrieval/mod.rs] and [memory/kind.rs], the
    classification boundary of [retrieval/hydration.rs], and from
    [crates/vestrace-application/src/retrieval] the normalisation of a request ([request.rs]),
    reciprocal rank fusion ([fusion.rs]) and reranking ([rerank.rs]).

    A [HashMap] is a [gmap]; where its iteration order could show, the order is an argument. *)

From Stdlib Require Import ZArith Lia String.
From stdpp Require Import base option numbers strings gmap list.
From S2P Require Import Prelude Codec Text RunStatus RunDecider AgentRun RunReplay RunPorts Interaction Outbox MemorySharing Ranking.

Abbreviation CorpusGenerationId := Uuid (only parsing).
Abbreviation RetrievalRunId := Uuid (only parsing).

(** ** Data *)

Inductive MemoryKind : Type :=
| Fact | Preference | Constraint | Decision | Task | Procedure | Observation | Outcome | Summary.

Inductive MemoryStatus : Type :=
| StatusCandidate | StatusActive | StatusSuperseded | StatusRejected | StatusExpired | StatusDeleted.

#[export] Instance MemoryStatus_eq_dec : EqDecision MemoryStatus.
Proof. solve_decision. Defined.

Inductive RetrievalIntent : Type :=
| SemanticRecall | CurrentState | DecisionRecall | IntentTimeline | TaskResume | ProcedureLookup | UserPreferences
| ErrorRecovery | ModelSelection | WorkflowContext | Exploration.

Inductive TimePerspective : Type := Current | AsOf (at_ : Timestamp) | Timeline | AllHistory.

Record RetrievalCandidate : Type := mkRetrieved {
  rt_memory_id : MemoryId;
  rt_revision_id : MemoryRevisionId;
  rt_kind : MemoryKind;
  rt_memory_status : MemoryStatus;
  rt_revision_number : Z;
  rt_content : text;
  rt_classification : option text;
  rt_valid_from : option Timestamp;
  rt_valid_until : option Timestamp;
  rt_revision_created_at : Timestamp;
  rt_source_generation : Z;
  rt_corpus_generation_id : CorpusGenerationId;
  rt_score : float;
  rt_channel_rank : Z;
  rt_channel : text;
  rt_explanation : text;
  rt_conflict_ids : list text;
}.

(** ** The classification boundary *)

Record RevisionRef : Type := mkRevisionRef { rf_memory_id : MemoryId; rf_revision_id : MemoryRevisionId }.

#[export] Instance RevisionRef_eq_dec : EqDecision RevisionRef.
Proof. solve_decision. Defined.

(** [admissible] is a [BTreeSet]; only membership and emptiness are asked. *)
Record ClassificationPolicy : Type := mkClassification {
  cp_admissible : gset text;
  cp_allow_unclassified : bool;
}.

Definition classification_policy_new (labels : list text) (allow_unclassified : bool) : result DomainError ClassificationPolicy :=
  let admissible := map trim labels in
  if any is_empty admissible then Err InvalidArgument
  else Ok (mkClassification (list_to_set admissible) allow_unclassified).

Definition permissive : ClassificationPolicy := mkClassification ∅ true.

Definition is_permissive (p : ClassificationPolicy) : bool := (cp_admissible p == ∅) && cp_allow_unclassified p.

Definition admits (p : ClassificationPolicy) (classification : option text) : bool :=
  match trim <$> classification with
  | None | Some [] => cp_allow_unclassified p
  | Some label => is_permissive p || bool_decide (label ∈ cp_admissible p)
  end.

Record HydratedRevision : Type := mkHydrated {
  hy_memory_id : MemoryId;
  hy_revision_id : MemoryRevisionId;
  hy_revision_number : Z;
  hy_memory_status : MemoryStatus;
  hy_content : text;
  hy_classification : option text;
  hy_valid_from : option Timestamp;
  hy_valid_until : option Timestamp;
  hy_created_at : Timestamp;
}.

Inductive WithholdingReason : Type := RevisionNotFound | ClassificationNotAdmissible (classification : text).

Record WithheldRevision : Type := mkWithheld {
  wh_memory_id : MemoryId;
  wh_revision_id : MemoryRevisionId;
  wh_reason : WithholdingReason;
}.

Record HydrationOutcome : Type := mkHydration {
  ho_revisions : list HydratedRevision;
  ho_withheld : list WithheldRevision;
}.

(** The first loop of [apply_policy]. *)
Fixpoint admit_revisions (p : ClassificationPolicy) (resolved : list HydratedRevision)
    : list HydratedRevision * list WithheldRevision :=
  match resolved with
  | [] => ([], [])
  | r :: rest =>
      let '(revisions, withheld) := admit_revisions p rest in
      if admits p (hy_classification r) then (r :: revisions, withheld)
      else (revisions,
            mkWithheld (hy_memory_id r) (hy_revision_id r)
              (ClassificationNotAdmissible (default (text_of "unclassified") (hy_classification r))) :: withheld)
  end.

(** The second loop: what was asked for and is neither admitted nor withheld. *)
Fixpoint report_missing (revisions : list HydratedRevision) (requested : list RevisionRef) (withheld : list WithheldRevision)
    : list WithheldRevision :=
  match requested with
  | [] => withheld
  | q :: rest =>
      let present := any (fun r => hy_revision_id r == rf_revision_id q) revisions
                     || any (fun e => wh_revision_id e == rf_revision_id q) withheld in
      report_missing revisions rest
        (if present then withheld else withheld ++ [mkWithheld (rf_memory_id q) (rf_revision_id q) RevisionNotFound])
  end.

Definition apply_policy (resolved : list HydratedRevision) (requested : list RevisionRef) (p : ClassificationPolicy)
    : HydrationOutcome :=
  let '(revisions, withheld) := admit_revisions p resolved in
  mkHydration revisions (report_missing revisions requested withheld).

(** ** Requests *)

Record RetrievalRequest : Type := mkRetrievalRequest {
  rq_query : text;
  rq_intent : RetrievalIntent;
  rq_time_perspective : TimePerspective;
  rq_workspace_id : WorkspaceId;
  rq_allowed_statuses : list MemoryStatus;
  rq_statuses_explicit : bool;
  rq_allowed_kinds : list MemoryKind;
  rq_limit : Z;
  rq_token_budget : option Z;
  rq_include_explanation : bool;
}.

Section Normalisation.
(** [EmbeddingSpaceKey], of a subsystem that is not modelled. *)
Context {K : Type}.

Record NormalizedRetrievalRequest : Type := mkNormalized {
  nr_request_id : RetrievalRunId;
  nr_query : text;
  nr_intent : RetrievalIntent;
  nr_time_perspective : TimePerspective;
  nr_workspace_id : WorkspaceId;
  nr_allowed_statuses : list MemoryStatus;
  nr_allowed_kinds : list MemoryKind;
  nr_channel_limit : Z;
  nr_token_budget : option Z;
  nr_include_explanation : bool;
  nr_embedding_space_key : K;
  nr_corpus_generation_id : CorpusGenerationId;
}.

Definition all_memory_statuses : list MemoryStatus :=
  [StatusCandidate; StatusActive; StatusSuperseded; StatusRejected; StatusExpired; StatusDeleted].

Definition intent_default_kinds (i : RetrievalIntent) : list MemoryKind :=
  match i with
  | CurrentState => [Fact; Preference; Constraint]
  | DecisionRecall => [Decision]
  | IntentTimeline => [Decision; Outcome; Observation]
  | TaskResume => [Task; Procedure]
  | ProcedureLookup => [Procedure]
  | UserPreferences => [Preference]
  | SemanticRecall => []
  | ErrorRecovery => [Observation; Outcome]
  | ModelSelection => [Observation]
  | WorkflowContext => [Task; Procedure; Decision]
  | Exploration => []
  end.

(** [normalize_with_pin] with the identifier it mints. *)
Definition normalize_with_pin (id : RetrievalRunId) (q : RetrievalRequest) (key : K) (generation : CorpusGenerationId)
    : result ApplicationError NormalizedRetrievalRequest :=
  let query := trim (rq_query q) in
  if is_empty query then Err (AppDomain InvalidArgument) else
  let allowed_kinds := match rq_allowed_kinds q with [] => intent_default_kinds (rq_intent q) | kinds => kinds end in
  let historical_default := negb (rq_statuses_explicit q) && (rq_allowed_statuses q == [StatusActive]) in
  let allowed_statuses :=
    match rq_time_perspective q with
    | Current => [StatusActive]
    | _ => if historical_default then all_memory_statuses else rq_allowed_statuses q
    end in
  Ok (mkNormalized id query (rq_intent q) (rq_time_perspective q) (rq_workspace_id q) allowed_statuses allowed_kinds
        (Z.max 1 (Z.min (rq_limit q) 100)) (rq_token_budget q) (rq_include_explanation q) key generation).

End Normalisation.
Arguments NormalizedRetrievalRequest K : clear implicits.

(** ** Fusion *)

Definition with_score (c : RetrievalCandidate) (score : float) (rank : Z) (channel : text) : RetrievalCandidate :=
  mkRetrieved (rt_memory_id c) (rt_revision_id c) (rt_kind c) (rt_memory_status c) (rt_revision_number c) (rt_content c)
    (rt_classification c) (rt_valid_from c) (rt_valid_until c) (rt_revision_created_at c) (rt_source_generation c)
    (rt_corpus_generation_id c) score rank channel (rt_explanation c) (rt_conflict_ids c).

(** The two maps of the loop: the score of a memory, and the best candidate for it. *)
Definition Fusion : Type := gmap Z float * gmap Z RetrievalCandidate.

Definition contribution (k : float) (rank_idx : nat) : float := f32_div (f32_of 1) (f32_add k (f32_of (Z.of_nat (rank_idx + 1)))).

Definition fuse_candidate (k : float) (rank_idx : nat) (c : RetrievalCandidate) (f : Fusion) : Fusion :=
  let '(scores, best) := f in
  (<[rt_memory_id c := f32_add (default (f32_of 0) (scores !! rt_memory_id c)) (contribution k rank_idx)]> scores,
   <[rt_memory_id c :=
       match best !! rt_memory_id c with
       | Some existing => if float_gt (rt_score c) (rt_score existing) then c else existing
       | None => c
       end]> best).

Fixpoint fuse_channel (k : float) (rank_idx : nat) (channel : list RetrievalCandidate) (f : Fusion) : Fusion :=
  match channel with
  | [] => f
  | c :: rest => fuse_channel k (S rank_idx) rest (fuse_candidate k rank_idx c f)
  end.

Definition fuse_channels (k : float) (channels : list (list RetrievalCandidate)) : Fusion :=
  foldl (fun f channel => fuse_channel k 0 channel f) (∅, ∅) channels.

(** The candidate of an entry of [best]. *)
Definition fused_candidate (scores : gmap Z float) (e : Z * RetrievalCandidate) : RetrievalCandidate :=
  with_score e.2 (default (f32_of 0) (scores !! e.1)) (rt_channel_rank e.2) (text_of "fused").

Definition fusion_cmp (a b : RetrievalCandidate) : comparison :=
  then_with (float_cmp (rt_score b) (rt_score a)) (rt_memory_id a ?= rt_memory_id b)%Z.

Definition set_rank (rank : Z) (c : RetrievalCandidate) : RetrievalCandidate := with_score c (rt_score c) rank (rt_channel c).

Fixpoint number_from (n : Z) (l : list RetrievalCandidate) : list RetrievalCandidate :=
  match l with [] => [] | c :: rest => set_rank n c :: number_from (n + 1) rest end.

(** The part after the loop; [entries] is [best] in its iteration order. *)
Definition fused_from (scores : gmap Z float) (entries : list (Z * RetrievalCandidate)) : list RetrievalCandidate :=
  number_from 1 (sort_by fusion_cmp (fused_candidate scores <$> entries)).

Definition reciprocal_rank_fusion (channels : list (list RetrievalCandidate)) (k : float) : list RetrievalCandidate :=
  let '(scores, best) := fuse_channels k channels in fused_from scores (map_to_list best).

Definition reciprocal_rank_fusion_pinned (channels : list (list RetrievalCandidate)) (k : float) (generation : CorpusGenerationId)
    : result ApplicationError (list RetrievalCandidate) :=
  if any (fun c => rt_corpus_generation_id c !== generation) (concat channels) then Err AppPolicy
  else Ok (reciprocal_rank_fusion channels k).

(** ** Reranking *)

Record ScoreComponents : Type := mkComponents {
  sc_fused_rank : float;
  sc_scope_match : float;
  sc_kind_match : float;
  sc_importance : float;
  sc_confidence : float;
  sc_recency : float;
  sc_provenance_quality : float;
  sc_redundancy_penalty : float;
}.

Definition RankedCandidate : Type := RetrievalCandidate * ScoreComponents.

Definition score_cmp (a b : RetrievalCandidate) : comparison := float_cmp (rt_score b) (rt_score a).

(** The loop: [seen] are the channels of the candidates before this one. *)
Fixpoint rank_components (seen : list text) (idx : Z) (sorted : list RetrievalCandidate) : list RankedCandidate :=
  match sorted with
  | [] => []
  | c :: rest =>
      let clamped := f32_clamp (rt_score c) (f32_of 0) (f32_of 1) in
      let penalty := if any (fun k => k == rt_channel c) seen then f32_lit 1 10 else f32_of 0 in
      let components := mkComponents (rt_score c) (f32_of 1) (f32_of 1) clamped clamped (f32_lit 1 2) (f32_lit 1 2) penalty in
      let final_score :=
        f32_sub (f32_add (f32_add (sc_fused_rank components) (f32_mul (sc_importance components) (f32_lit 15 100)))
                         (f32_mul (sc_confidence components) (f32_lit 10 100)))
                (sc_redundancy_penalty components) in
      (with_score c final_score (idx + 1) (rt_channel c), components) :: rank_components (seen ++ [rt_channel c]) (idx + 1) rest
  end.

Fixpoint number_ranked (n : Z) (l : list RankedCandidate) : list RankedCandidate :=
  match l with [] => [] | (c, s) :: rest => (set_rank n c, s) :: number_ranked (n + 1) rest end.

Definition rerank (candidates : list RetrievalCandidate) : list RankedCandidate :=
  number_ranked 1 (sort_by (fun a b => score_cmp a.1 b.1) (rank_components [] 0 (sort_by score_cmp candidates))).
