(* ===== verification/RetrievalSpec.v ===== *)
(** * What hydration and fusion promise

    The classification boundary discloses what its policy admits and names what it withholds; fusion ranks
    each memory once by the sum of its reciprocal ranks, whatever order its maps are iterated in. *)

From Stdlib Require Import ZArith Lia String.
From stdpp Require Import base option numbers strings sets fin_maps gmap sorting list.
From S2P Require Import Prelude Codec Text RunStatus RunDecider AgentRun RunReplay RunPorts ResourceScope Interaction Outbox.
From S2P Require Import MemorySharing Ranking Retrieval.

(** ** The classification boundary *)

Definition blank (classification : option text) : Prop :=
  match classification with None => True | Some label => trim label = [] end.

(** What a policy built from labels admits: content without a classification when that is allowed, and a label when it is
    one of them.  A policy with no labels that allows unclassified content admits every label. *)
Theorem classification_boundary labels allow_unclassified p classification :
  classification_policy_new labels allow_unclassified = Ok p ->
  admits p classification = true <->
    (blank classification /\ allow_unclassified = true) \/
    (exists label, classification = Some label /\ ~ blank classification /\
       (trim label ∈ map trim labels \/ (labels = [] /\ allow_unclassified = true))).
Proof.
  unfold classification_policy_new. intros Hp. split_matches_in Hp. injection Hp as <-. unfold admits, blank.
  destruct classification as [label|]; simpl; [|naive_solver]. destruct (trim label) as [|c rest] eqn:Ht; [naive_solver|].
  assert (Hperm : is_permissive (mkClassification (list_to_set (map trim labels)) allow_unclassified) = true <->
                  labels = [] /\ allow_unclassified = true).
  { unfold is_permissive. simpl. rewrite andb_true_iff, eqb_true. destruct labels as [|l ls]; [naive_solver|].
    split; [|naive_solver]. intros [Hempty _]. exfalso. simpl in Hempty. set_solver. }
  rewrite orb_true_iff, Hperm, bool_decide_eq_true, elem_of_list_to_set. split.
  - intros [H|H]; right; exists label; rewrite Ht; naive_solver.
  - intros [[H _]|(l & [= <-] & _ & [H|H])]; [done|right; by rewrite <- Ht|by left].
Qed.

Lemma admit_revisions_elem p resolved r : r ∈ (admit_revisions p resolved).1 <-> r ∈ resolved /\ admits p (hy_classification r) = true.
Proof.
  induction resolved as [|x resolved IH]; cbn [admit_revisions]; [set_solver|]. destruct (admit_revisions p resolved) as [revisions withheld].
  cbn [fst snd] in IH. destruct (admits p (hy_classification x)) eqn:E; cbn [fst snd]; rewrite ?elem_of_cons, IH; [naive_solver|].
  split; [tauto|]. intros [[-> |Hr] Ha]; [congruence|done].
Qed.

Definition refusal (r : HydratedRevision) : WithheldRevision :=
  mkWithheld (hy_memory_id r) (hy_revision_id r) (ClassificationNotAdmissible (default (text_of "unclassified") (hy_classification r))).

Lemma admit_revisions_withheld p resolved e :
  e ∈ (admit_revisions p resolved).2 <-> exists r, r ∈ resolved /\ admits p (hy_classification r) = false /\ e = refusal r.
Proof.
  induction resolved as [|x resolved IH]; cbn [admit_revisions]; [set_solver|]. destruct (admit_revisions p resolved) as [revisions withheld].
  cbn [fst snd] in IH. destruct (admits p (hy_classification x)) eqn:E; cbn [fst snd]; rewrite ?elem_of_cons, IH; [|fold (refusal x)];
    setoid_rewrite elem_of_cons; split.
  - intros (r & Hr & Hrest). exists r. auto.
  - intros (r & [-> |Hr] & Ha & ->); [congruence|eauto].
  - intros [-> |(r & Hr & Hrest)]; [by exists x; auto|exists r; auto].
  - intros (r & [-> |Hr] & Ha & ->); [by left|right; eauto].
Qed.

Definition present (revisions : list HydratedRevision) (withheld : list WithheldRevision) (q : RevisionRef) : Prop :=
  (exists r, r ∈ revisions /\ hy_revision_id r = rf_revision_id q) \/ (exists e, e ∈ withheld /\ wh_revision_id e = rf_revision_id q).

Lemma report_missing_spec revisions requested withheld :
  let result := report_missing revisions requested withheld in
  withheld ⊆ result /\ (forall q, q ∈ requested -> present revisions result q) /\
  (forall e, e ∈ result -> e ∈ withheld \/
     exists q, q ∈ requested /\ e = mkWithheld (rf_memory_id q) (rf_revision_id q) RevisionNotFound /\
       ~ (exists r, r ∈ revisions /\ hy_revision_id r = rf_revision_id q)).
Proof.
  revert withheld. induction requested as [|q requested IH]; intros withheld; simpl; [set_solver|].
  destruct (_ || _) eqn:E.
  - destruct (IH withheld) as (H1 & H2 & H3). split_and!; [done| |set_solver]. intros q' [->|Hq]%elem_of_cons; [|by apply H2].
    apply orb_true_iff in E as [(r & Hr & Hid)%any_elem|(e & He & Hid)%any_elem]; rewrite eqb_true in Hid; [left|right]; eauto.
  - destruct (IH (withheld ++ [mkWithheld (rf_memory_id q) (rf_revision_id q) RevisionNotFound])) as (H1 & H2 & H3).
    split_and!; [set_solver| |].
    + intros q' [->|Hq]%elem_of_cons; [|by apply H2]. right.
      exists (mkWithheld (rf_memory_id q) (rf_revision_id q) RevisionNotFound). split; [|done]. apply H1. set_solver.
    + intros e He. destruct (H3 e He) as [Hw|?]; [|set_solver]. apply elem_of_app in Hw as [?| ->%list_elem_of_singleton]; [by left|].
      right. exists q. split_and!; [by left|done|]. intros (r & Hr & Hid).
      apply orb_false_elim in E as [E _]. apply not_true_iff_false in E. apply E, any_elem. exists r. split; [done|].
      by rewrite eqb_true.
Qed.

Lemma hydration_policy resolved requested p r :
  r ∈ ho_revisions (apply_policy resolved requested p) <-> r ∈ resolved /\ admits p (hy_classification r) = true.
Proof. rewrite <- admit_revisions_elem. unfold apply_policy. by destruct (admit_revisions p resolved). Qed.

Lemma hydration_present resolved requested p q :
  q ∈ requested -> present (ho_revisions (apply_policy resolved requested p)) (ho_withheld (apply_policy resolved requested p)) q.
Proof. unfold apply_policy. destruct (admit_revisions p resolved) as [revisions withheld]. apply report_missing_spec. Qed.

(** Hydration discloses exactly the resolved revisions the policy admits; every revision that was asked for is disclosed or
    reported as withheld, and what is withheld is either a resolved revision the policy does not admit, with its label and without
    its content, or a revision that was asked for and is not disclosed. *)
Theorem hydration_discloses_or_reports resolved requested p :
  (forall r, r ∈ ho_revisions (apply_policy resolved requested p) <-> r ∈ resolved /\ admits p (hy_classification r) = true) /\
  (forall q, q ∈ requested ->
     present (ho_revisions (apply_policy resolved requested p)) (ho_withheld (apply_policy resolved requested p)) q) /\
  (forall r, r ∈ resolved -> admits p (hy_classification r) = false -> refusal r ∈ ho_withheld (apply_policy resolved requested p)) /\
  (forall e, e ∈ ho_withheld (apply_policy resolved requested p) ->
     (exists r, r ∈ resolved /\ admits p (hy_classification r) = false /\ e = refusal r) \/
     (exists q, q ∈ requested /\ e = mkWithheld (rf_memory_id q) (rf_revision_id q) RevisionNotFound /\
        ~ (exists r, r ∈ ho_revisions (apply_policy resolved requested p) /\ hy_revision_id r = rf_revision_id q))).
Proof.
  split_and!; [intros r; apply hydration_policy|intros q; apply hydration_present|..]; unfold apply_policy;
    pose proof (admit_revisions_withheld p resolved) as Hw; destruct (admit_revisions p resolved) as [revisions withheld];
    cbn [snd ho_revisions ho_withheld] in *; destruct (report_missing_spec revisions requested withheld) as (H1 & _ & H3).
  - intros r Hin Ha. apply H1, Hw. by exists r.
  - intros e [He|He]%H3; [left; by apply Hw|by right].
Qed.

(** ** Fusion *)

Definition score_of (f : Fusion) (m : MemoryId) : float := default (f32_of 0) (f.1 !! m).

(** Where a memory stands in a channel. *)
Fixpoint positions (m : MemoryId) (idx : nat) (channel : list RetrievalCandidate) : list nat :=
  match channel with
  | [] => []
  | c :: rest => if rt_memory_id c == m then idx :: positions m (S idx) rest else positions m (S idx) rest
  end.

(** Reciprocal rank fusion of one memory, without the maps: [1 / (k + rank)] summed over the places it is found at. *)
Definition sum_ranks (k : float) (score : float) (ranks : list nat) : float := foldl (fun s i => f32_add s (contribution k i)) score ranks.

Definition rrf_score (k : float) (channels : list (list RetrievalCandidate)) (m : MemoryId) : float :=
  sum_ranks k (f32_of 0) (concat (positions m 0 <$> channels)).

Lemma score_of_candidate k i c f m :
  score_of (fuse_candidate k i c f) m = if rt_memory_id c == m then f32_add (score_of f m) (contribution k i) else score_of f m.
Proof.
  destruct f as [scores best]. unfold score_of. simpl. destruct (rt_memory_id c == m) eqn:E.
  - rewrite eqb_true in E. subst. by rewrite lookup_insert_eq.
  - rewrite eqb_false in E. by rewrite lookup_insert_ne.
Qed.

Lemma score_of_channel k i channel f m : score_of (fuse_channel k i channel f) m = sum_ranks k (score_of f m) (positions m i channel).
Proof.
  revert i f. induction channel as [|c channel IH]; intros i f; simpl; [done|]. rewrite IH, score_of_candidate.
  by destruct (rt_memory_id c == m).
Qed.

Lemma score_of_channels k channels m : score_of (fuse_channels k channels) m = rrf_score k channels m.
Proof.
  unfold fuse_channels, rrf_score. change (f32_of 0) with (score_of ((∅, ∅) : Fusion) m).
  generalize ((∅, ∅) : Fusion) as f. induction channels as [|channel channels IH]; intros f; [done|].
  cbn [foldl fmap list_fmap concat]. rewrite IH, score_of_channel. unfold sum_ranks. by rewrite foldl_app.
Qed.

(** The two maps after the candidates [seen]. *)
Record fused (seen : list RetrievalCandidate) (f : Fusion) : Prop := {
  fu_best : forall m c, f.2 !! m = Some c -> rt_memory_id c = m /\ c ∈ seen;
  fu_seen : forall c, c ∈ seen -> is_Some (f.2 !! rt_memory_id c);
}.

Lemma fuse_candidate_fused k i c seen f : fused seen f -> fused (seen ++ [c]) (fuse_candidate k i c f).
Proof.
  destruct f as [scores best]. intros [Hbest Hseen]. simpl in *. split; simpl.
  - intros m c' Hm. destruct (base.decide (rt_memory_id c = m)) as [<-|Hne].
    + rewrite lookup_insert_eq in Hm. destruct (best !! rt_memory_id c) as [existing|] eqn:E.
      * destruct (Hbest _ _ E). destruct (float_gt _ _); simplify_eq; set_solver.
      * simplify_eq. set_solver.
    + rewrite lookup_insert_ne in Hm by done. apply Hbest in Hm as [? ?]. set_solver.
  - intros c' Hc. destruct (base.decide (rt_memory_id c = rt_memory_id c')) as [<-|Hne]; [by rewrite lookup_insert_eq|].
    rewrite lookup_insert_ne by done. apply elem_of_app in Hc as [Hc| ->%list_elem_of_singleton]; [by apply Hseen|done].
Qed.

Lemma fuse_channel_fused k i channel seen f : fused seen f -> fused (seen ++ channel) (fuse_channel k i channel f).
Proof.
  revert i seen f. induction channel as [|c channel IH]; intros i seen f Hf; simpl; [by rewrite app_nil_r|].
  rewrite cons_middle, app_assoc. by apply IH, fuse_candidate_fused.
Qed.

Lemma fuse_channels_fused k channels : fused (concat channels) (fuse_channels k channels).
Proof.
  unfold fuse_channels. rewrite <- (app_nil_l (concat channels)).
  assert (Hf : fused [] ((∅, ∅) : Fusion)) by (split; simpl; [intros m c Hm; by rewrite lookup_empty in Hm|set_solver]).
  revert Hf. generalize ((∅, ∅) : Fusion) as f, ([] : list RetrievalCandidate) as seen.
  induction channels as [|channel channels IH]; intros f seen Hf; simpl; [by rewrite app_nil_r|].
  rewrite app_assoc. by apply IH, fuse_channel_fused.
Qed.

(** ** The order of fused candidates *)

Lemma contribution_nonneg k i : nonneg k = true -> nonneg (contribution k i) = true.
Proof.
  intros Hk. unfold contribution, f32_div. change (f32_of 1) with (SpecFloat.S754_finite false 8388608 (-23)).
  apply SFdiv_nonneg, SFadd_nonneg; [done|]. apply binary_normalize_nonneg. lia.
Qed.

Lemma sum_ranks_nonneg k s ranks : nonneg k = true -> nonneg s = true -> nonneg (sum_ranks k s ranks) = true.
Proof.
  intros Hk. revert s. induction ranks as [|i ranks IH]; intros s Hs; simpl; [done|]. apply IH, SFadd_nonneg; [done|].
  by apply contribution_nonneg.
Qed.

Lemma rrf_score_nonneg k channels m : nonneg k = true -> nonneg (rrf_score k channels m) = true.
Proof. intros Hk. by apply sum_ranks_nonneg. Qed.

(** The place of a memory in a channel, from zero. *)
Definition place (m : MemoryId) (channel : list RetrievalCandidate) : option nat :=
  fst <$> list_find (fun c => rt_memory_id c = m) channel.

(** The score as it is documented: one term for each channel that lists the memory. *)
Definition documented_score (k : float) (channels : list (list RetrievalCandidate)) (m : MemoryId) : float :=
  foldl (fun s channel => match place m channel with Some i => f32_add s (contribution k i) | None => s end) (f32_of 0) channels.

Lemma positions_place m i channel :
  NoDup (rt_memory_id <$> channel) -> positions m i channel = match place m channel with Some j => [i + j] | None => [] end.
Proof.
  unfold place. revert i. induction channel as [|c channel IH]; intros i Hd; [done|].
  cbn [fmap list_fmap] in Hd. apply NoDup_cons in Hd as [Hc Hd]. cbn [positions list_find].
  destruct (base.decide (rt_memory_id c = m)) as [<-|Hne].
  - rewrite eqb_refl, IH by done. cbn. rewrite Nat.add_0_r. destruct (list_find _ channel) as [[j c']|] eqn:E; [|done].
    exfalso. apply list_find_Some in E as (Hj & Heq & _). apply Hc. rewrite <-Heq.
    apply list_elem_of_fmap_2. by eapply list_elem_of_lookup_2.
  - destruct (rt_memory_id c == m) eqn:E; [by rewrite eqb_true in E|]. rewrite IH by done.
    destruct (list_find _ channel) as [[j c']|]; cbn; [|done]. by rewrite Nat.add_succ_r.
Qed.

Lemma documented_score_rrf k channels m :
  Forall (fun channel => NoDup (rt_memory_id <$> channel)) channels -> documented_score k channels m = rrf_score k channels m.
Proof.
  unfold documented_score, rrf_score, sum_ranks. generalize (f32_of 0). intros s Hd. revert s.
  induction Hd as [|channel channels Hc _ IH]; intros s; [done|]. cbn. rewrite foldl_app, <-IH. f_equal.
  rewrite positions_place by done. by destruct (place m channel).
Qed.

Definition fusion_key (c : RetrievalCandidate) : list Z := (Z.opp <$> float_key (rt_score c)) ++ [rt_memory_id c].

Definition scored (c : RetrievalCandidate) : Prop := is_nan (rt_score c) = false.

Lemma fusion_cmp_key a b : scored a -> scored b -> fusion_cmp a b = lex (fusion_key a) (fusion_key b).
Proof.
  intros Ha Hb. unfold fusion_cmp, fusion_key. rewrite lex_app by (by rewrite !length_fmap, !float_key_length).
  rewrite lex_opp, float_cmp_key by (done || by rewrite !float_key_length). simpl. by destruct (rt_memory_id a ?= _)%Z.
Qed.

Lemma fusion_key_id a b : fusion_key a = fusion_key b -> rt_memory_id a = rt_memory_id b.
Proof. unfold fusion_key. intros Hk. apply (f_equal last) in Hk. rewrite !last_app in Hk. by injection Hk. Qed.

(** The order of a ranking: by score from high to low, and by memory among equals. *)
Definition ranked_before (a b : RetrievalCandidate) : Prop :=
  float_cmp (rt_score b) (rt_score a) <> Gt /\ (float_cmp (rt_score b) (rt_score a) = Eq -> (rt_memory_id a <= rt_memory_id b)%Z).

Lemma ranked_ranked_before a b : scored a -> scored b -> ranked fusion_key a b -> ranked_before a b.
Proof.
  intros Ha Hb Hr. unfold ranked in Hr. rewrite <- fusion_cmp_key in Hr by done. unfold fusion_cmp in Hr. unfold ranked_before.
  destruct (float_cmp (rt_score b) (rt_score a)); simpl in Hr; [|done..]. split; [done|]. intros _. by apply Z.compare_le_iff.
Qed.

(** Numbering changes ranks only. *)
Lemma number_from_lookup n l i : number_from n l !! i = set_rank (n + Z.of_nat i) <$> l !! i.
Proof.
  revert n i. induction l as [|c l IH]; intros n [|i]; simpl; try done; [by rewrite Z.add_0_r|]. rewrite IH.
  f_equal. f_equal. lia.
Qed.

Lemma number_from_elem n l r : r ∈ number_from n l -> exists c rank, c ∈ l /\ r = set_rank rank c.
Proof.
  intros [i Hi]%list_elem_of_lookup. rewrite number_from_lookup in Hi. apply fmap_Some in Hi as (c & Hc & ->).
  exists c, (n + Z.of_nat i)%Z. split; [by eapply list_elem_of_lookup_2|done].
Qed.

Lemma number_from_ids n l : rt_memory_id <$> number_from n l = rt_memory_id <$> l.
Proof. revert n. induction l as [|c l IH]; intros n; simpl; [done|]. f_equal. apply IH. Qed.

Lemma number_from_sorted n l : StronglySorted ranked_before l -> StronglySorted ranked_before (number_from n l).
Proof.
  intros Hs. revert n. induction Hs as [|c l _ IH Hc]; intros n; simpl; constructor; [apply IH|].
  rewrite Forall_forall in *. intros r (c' & rank & Hin & ->)%number_from_elem. by apply (Hc c' Hin).
Qed.

Section Fused.
Context (k : float) (k_nonneg : nonneg k = true) (channels : list (list RetrievalCandidate)).

Abbreviation scores := (fuse_channels k channels).1.
Abbreviation best := (fuse_channels k channels).2.

Lemma fused_candidate_score e : rt_score (fused_candidate scores e) = rrf_score k channels e.1.
Proof. simpl. apply (score_of_channels k channels e.1). Qed.

Lemma fused_entries_scored entries : Forall scored (fused_candidate scores <$> entries).
Proof.
  rewrite Forall_fmap, Forall_forall. intros e _. unfold scored. cbn [compose]. rewrite fused_candidate_score.
  by apply nonneg_number, rrf_score_nonneg.
Qed.

Lemma fused_entry_id m c : (m, c) ∈ map_to_list best -> rt_memory_id c = m /\ c ∈ concat channels.
Proof. intros Hm%elem_of_map_to_list. by apply (fu_best _ _ (fuse_channels_fused k channels)). Qed.

Lemma fused_ids entries : entries ≡ₚ map_to_list best -> rt_memory_id <$> (fused_candidate scores <$> entries) = entries.*1.
Proof.
  intros Hp. rewrite <- list_fmap_compose. apply list_fmap_ext. intros i e Hi. simpl. destruct e as [m c]. simpl.
  apply (fused_entry_id m c). rewrite <- Hp. by eapply list_elem_of_lookup_2.
Qed.

Lemma fused_ids_NoDup entries : entries ≡ₚ map_to_list best -> NoDup (rt_memory_id <$> (fused_candidate scores <$> entries)).
Proof. intros Hp. rewrite fused_ids by done. rewrite Hp. apply NoDup_fst_map_to_list. Qed.

(** The fused ranking does not depend on the order the map of best candidates is iterated in. *)
Theorem fusion_ignores_iteration_order entries :
  entries ≡ₚ map_to_list best -> fused_from scores entries = reciprocal_rank_fusion channels k.
Proof.
  intros Hp. unfold reciprocal_rank_fusion, fused_from. destruct (fuse_channels k channels) as [s b] eqn:E. f_equal.
  replace s with scores by (by rewrite E). replace b with best in * by (by rewrite E). cbn [fst snd] in *.
  apply (sort_by_unique _ _ scored fusion_cmp_key); [by rewrite Hp| |].
  - replace s with scores by (by rewrite E). apply fused_entries_scored.
  - replace s with scores in * by (by rewrite E). intros x y Hx Hy Hk%fusion_key_id. eapply NoDup_fmap_inj_elem; try done.
    apply fused_ids_NoDup. by rewrite E.
Qed.

Lemma fusion_unfold :
  reciprocal_rank_fusion channels k = number_from 1 (sort_by fusion_cmp (fused_candidate scores <$> map_to_list best)).
Proof. unfold reciprocal_rank_fusion, fused_from. by destruct (fuse_channels k channels). Qed.

Lemma fused_candidate_elem c :
  c ∈ fused_candidate scores <$> map_to_list best ->
  rt_score c = rrf_score k channels (rt_memory_id c) /\
  exists c', c' ∈ concat channels /\ c = with_score c' (rt_score c) (rt_channel_rank c') (text_of "fused").
Proof.
  intros ([m c'] & -> & He)%list_elem_of_fmap. destruct (fused_entry_id _ _ He) as [Hid Hin]. split.
  - rewrite fused_candidate_score. simpl. by rewrite Hid.
  - by exists c'.
Qed.

Lemma fusion_ids : rt_memory_id <$> reciprocal_rank_fusion channels k ≡ₚ (map_to_list best).*1.
Proof. by rewrite fusion_unfold, number_from_ids, sort_by_Permutation, fused_ids. Qed.

Lemma fusion_ids_elem m :
  m ∈ rt_memory_id <$> reciprocal_rank_fusion channels k <-> exists c, c ∈ concat channels /\ rt_memory_id c = m.
Proof.
  rewrite fusion_ids, list_elem_of_fmap. split.
  - intros ([m' c] & -> & He). destruct (fused_entry_id _ _ He) as [Hid Hin]. by exists c.
  - intros (c & Hc & <-). destruct (fu_seen _ _ (fuse_channels_fused k channels) c Hc) as [b Hb].
    exists (rt_memory_id c, b). split; [done|]. by apply elem_of_map_to_list.
Qed.

(** With any channels fusion ranks every memory exactly once, numbered from one, from the highest sum of reciprocal ranks to
    the lowest and by identifier among equals; the sum has a term for each place of the memory, two when one channel lists
    it twice. *)
Lemma fusion_counts_every_place :
  NoDup (rt_memory_id <$> reciprocal_rank_fusion channels k) /\
  (forall m, m ∈ rt_memory_id <$> reciprocal_rank_fusion channels k <-> exists c, c ∈ concat channels /\ rt_memory_id c = m) /\
  StronglySorted ranked_before (reciprocal_rank_fusion channels k) /\
  forall i r, reciprocal_rank_fusion channels k !! i = Some r ->
    rt_channel_rank r = (1 + Z.of_nat i)%Z /\ rt_score r = rrf_score k channels (rt_memory_id r) /\
    exists c, c ∈ concat channels /\ r = with_score c (rt_score r) (rt_channel_rank r) (text_of "fused").
Proof.
  split_and!.
  - rewrite fusion_ids. apply NoDup_fst_map_to_list.
  - apply fusion_ids_elem.
  - rewrite fusion_unfold. apply number_from_sorted. eapply StronglySorted_weaken; [exact ranked_ranked_before| |].
    + rewrite sort_by_Permutation. apply fused_entries_scored.
    + apply (sort_by_sorted _ _ scored fusion_cmp_key), fused_entries_scored.
  - intros i r Hr. rewrite fusion_unfold, number_from_lookup in Hr. apply fmap_Some in Hr as (c & Hc & ->).
    assert (Hin : c ∈ fused_candidate scores <$> map_to_list best) by (rewrite <- sort_by_elem; by eapply list_elem_of_lookup_2).
    apply fused_candidate_elem in Hin as (Hs & c' & Hin & Hc'). split_and!; [done|done|]. exists c'. split; [done|].
    by rewrite Hc'.
Qed.

(** C34.  When [k] is not negative and no channel lists a memory twice, fusion ranks every memory of every channel exactly once,
    numbered from one, from the highest score to the lowest and by identifier among equals; each entry is a candidate of a
    channel, and its score is the sum over the channels that list its memory, in their order, of [1 / (k + rank)] in single
    precision, [rank] being its place in the channel from one. *)
Theorem fusion_ranks_each_memory_once :
  Forall (fun channel => NoDup (rt_memory_id <$> channel)) channels ->
  NoDup (rt_memory_id <$> reciprocal_rank_fusion channels k) /\
  (forall m, m ∈ rt_memory_id <$> reciprocal_rank_fusion channels k <-> exists c, c ∈ concat channels /\ rt_memory_id c = m) /\
  StronglySorted ranked_before (reciprocal_rank_fusion channels k) /\
  forall i r, reciprocal_rank_fusion channels k !! i = Some r ->
    rt_channel_rank r = (1 + Z.of_nat i)%Z /\ rt_score r = documented_score k channels (rt_memory_id r) /\
    exists c, c ∈ concat channels /\ r = with_score c (rt_score r) (rt_channel_rank r) (text_of "fused").
Proof.
  intros Hd. destruct fusion_counts_every_place as (H1 & H2 & H3 & H4). split_and!; [done..|].
  intros i r Hr. rewrite documented_score_rrf by done. by apply H4.
Qed.

Lemma fusion_elem r :
  r ∈ reciprocal_rank_fusion channels k ->
  exists c, c ∈ concat channels /\ r = with_score c (rt_score r) (rt_channel_rank r) (text_of "fused").
Proof.
  rewrite fusion_unfold. intros (c & rank & Hin & ->)%number_from_elem. rewrite sort_by_elem in Hin.
  apply fused_candidate_elem in Hin as (_ & c' & Hin & Hc'). exists c'. split; [done|]. by rewrite Hc'.
Qed.

End Fused.

(** ** Reranking *)

(** Reranking keeps the candidates and changes their scores and ranks. *)
Lemma rank_components_ids seen idx l : (fun r : RankedCandidate => rt_memory_id r.1) <$> rank_components seen idx l = rt_memory_id <$> l.
Proof. revert seen idx. induction l as [|c l IH]; intros seen idx; simpl; [done|]. f_equal. apply IH. Qed.

Lemma rank_components_elem seen idx l r :
  r ∈ rank_components seen idx l -> exists c score rank, c ∈ l /\ r.1 = with_score c score rank (rt_channel c).
Proof.
  revert seen idx. induction l as [|c l IH]; intros seen idx; cbn [rank_components]; [by intros ?%elem_of_nil|].
  intros [-> |Hr]%elem_of_cons; [eexists c, _, _; split; [by left|done]|].
  destruct (IH _ _ Hr) as (c' & score & rank & Hin & Hr'). exists c', score, rank. split; [by right|done].
Qed.

Lemma number_ranked_lookup n l i : number_ranked n l !! i = (fun r => (set_rank (n + Z.of_nat i) r.1, r.2)) <$> l !! i.
Proof.
  revert n i. induction l as [|[c s] l IH]; intros n [|i]; simpl; try done; [by rewrite Z.add_0_r|]. rewrite IH.
  destruct (l !! i); [|done]. simpl. do 3 f_equal. lia.
Qed.

Lemma number_ranked_ids n l : (fun r : RankedCandidate => rt_memory_id r.1) <$> number_ranked n l = (fun r => rt_memory_id r.1) <$> l.
Proof. revert n. induction l as [|[c s] l IH]; intros n; simpl; [done|]. f_equal. apply IH. Qed.

Lemma rerank_ids cs : (fun r => rt_memory_id r.1) <$> rerank cs ≡ₚ rt_memory_id <$> cs.
Proof. unfold rerank. by rewrite number_ranked_ids, sort_by_Permutation, rank_components_ids, sort_by_Permutation. Qed.

Lemma rerank_elem cs r : r ∈ rerank cs -> exists c score rank, c ∈ cs /\ r.1 = with_score c score rank (rt_channel c).
Proof.
  intros [i Hi]%list_elem_of_lookup. unfold rerank in Hi. rewrite number_ranked_lookup in Hi.
  apply fmap_Some in Hi as (r' & Hr' & ->). apply list_elem_of_lookup_2 in Hr'. rewrite sort_by_elem in Hr'.
  apply rank_components_elem in Hr' as (c & score & rank & Hc & Hr'). rewrite sort_by_elem in Hc.
  eexists c, score, _. split; [done|]. simpl. by rewrite Hr'.
Qed.

Lemma f32_clamp_nonneg x : nonneg x = true -> nonneg (f32_clamp x (f32_of 0) (f32_of 1)) = true.
Proof. intros Hx. unfold f32_clamp. destruct (float_lt x _); [done|]. by destruct (float_gt x _). Qed.

Lemma f32_mul_lit_nonneg x a b m e : f32_lit a b = SpecFloat.S754_finite false m e -> nonneg x = true -> nonneg (f32_mul x (f32_lit a b)) = true.
Proof. intros ->. apply SFmul_nonneg. Qed.

Lemma rank_components_scored seen idx l :
  Forall (fun c => nonneg (rt_score c) = true) l -> Forall (fun r => scored r.1) (rank_components seen idx l).
Proof.
  intros Hl. revert seen idx. induction Hl as [|c l Hc _ IH]; intros seen idx; cbn [rank_components]; constructor; [|apply IH].
  pose proof (f32_clamp_nonneg _ Hc) as Hcl. unfold scored. cbn [fst rt_score with_score sc_fused_rank sc_importance sc_confidence sc_redundancy_penalty].
  apply SFsub_number; [|by destruct (any _ _)]. apply nonneg_number. unfold f32_add.
  apply SFadd_nonneg; [apply SFadd_nonneg; [done|]|]; eapply f32_mul_lit_nonneg; (done || (vm_compute; reflexivity)).
Qed.

Definition score_key (r : RankedCandidate) : list Z := Z.opp <$> float_key (rt_score r.1).

Lemma score_cmp_key (a b : RankedCandidate) : scored a.1 -> scored b.1 -> score_cmp a.1 b.1 = lex (score_key a) (score_key b).
Proof.
  intros Ha Hb. unfold score_cmp, score_key. by rewrite lex_opp, float_cmp_key by (done || by rewrite !float_key_length).
Qed.

Definition not_after (a b : RankedCandidate) : Prop := float_cmp (rt_score b.1) (rt_score a.1) <> Gt.

Lemma number_ranked_sorted n l : StronglySorted not_after l -> StronglySorted not_after (number_ranked n l).
Proof.
  intros Hs. revert n. induction Hs as [|[c s] l _ IH Hc]; intros n; cbn [number_ranked]; constructor; [apply IH|].
  rewrite Forall_forall in *. intros r [i Hi]%list_elem_of_lookup. rewrite number_ranked_lookup in Hi.
  apply fmap_Some in Hi as (r' & Hr' & ->). apply (Hc r'). by eapply list_elem_of_lookup_2.
Qed.

(** Reranking fused candidates keeps them all, numbers them from one and orders them by their final scores. *)
Theorem rerank_is_a_ranking cs :
  Forall (fun c => nonneg (rt_score c) = true) cs ->
  (fun r => rt_memory_id r.1) <$> rerank cs ≡ₚ rt_memory_id <$> cs /\
  StronglySorted not_after (rerank cs) /\
  forall i r, rerank cs !! i = Some r -> rt_channel_rank r.1 = (1 + Z.of_nat i)%Z.
Proof.
  intros Hcs. split_and!; [apply rerank_ids| |].
  - assert (Hs : Forall (fun r => scored r.1) (rank_components [] 0 (sort_by score_cmp cs))).
    { apply rank_components_scored. by rewrite sort_by_Permutation. }
    apply number_ranked_sorted. eapply (StronglySorted_weaken (ranked score_key)); [| |].
    2:{ rewrite sort_by_Permutation. exact Hs. }
    + intros a b Ha Hb Hr. unfold ranked in Hr. by rewrite <- score_cmp_key in Hr.
    + by apply (sort_by_sorted _ _ (fun r => scored r.1) score_cmp_key).
  - intros i r Hr. unfold rerank in Hr. rewrite number_ranked_lookup in Hr. by apply fmap_Some in Hr as (r' & _ & ->).
Qed.

(** ** The redundancy penalty *)

Definition penalty (r : RankedCandidate) : float := sc_redundancy_penalty r.2.

Lemma rank_components_penalty ch seen idx l :
  Forall (fun c => rt_channel c = ch) l -> ch ∈ seen -> penalty <$> rank_components seen idx l = replicate (length l) (f32_lit 1 10).
Proof.
  intros Hl. revert seen idx. induction Hl as [|c l Hc _ IH]; intros seen idx Hseen; cbn [rank_components]; [done|].
  cbn [fmap list_fmap]. rewrite Hc. unfold penalty at 1. cbn [snd sc_redundancy_penalty].
  assert (any (fun k => k == ch) seen = true) as -> by (apply any_elem; exists ch; split; [done|apply eqb_refl]).
  cbn [length replicate]. f_equal. apply IH. set_solver.
Qed.

Lemma number_ranked_penalty n l : penalty <$> number_ranked n l = penalty <$> l.
Proof. revert n. induction l as [|[c s] l IH]; intros n; simpl; [done|]. f_equal. apply IH. Qed.

(** Candidates of one channel, which is what fusion gives, are all penalised as redundant except for the first, however
    different their memories are. *)
Theorem rerank_penalises_all_but_first ch cs :
  cs <> [] -> Forall (fun c => rt_channel c = ch) cs ->
  penalty <$> rerank cs ≡ₚ f32_of 0 :: replicate (length cs - 1) (f32_lit 1 10).
Proof.
  intros Hne Hch. unfold rerank. rewrite number_ranked_penalty, sort_by_Permutation.
  rewrite <- (sort_by_length score_cmp cs). rewrite <- (sort_by_Permutation score_cmp cs) in Hch.
  destruct (sort_by score_cmp cs) as [|c l] eqn:E.
  { exfalso. apply Hne, length_zero_iff_nil. by rewrite <- (sort_by_length score_cmp cs), E. }
  apply Forall_cons in Hch as [Hc Hl]. cbn [rank_components fmap list_fmap]. rewrite (rank_components_penalty ch); [|done|].
  - cbn [length]. by rewrite Nat.sub_succ, Nat.sub_0_r.
  - rewrite Hc. set_solver.
Qed.

(** ** Two channels, one memory in both *)

Module FusionExample.

Definition candidate (memory revision : Z) (score : float) (channel : text) : RetrievalCandidate :=
  mkRetrieved memory revision Fact StatusActive 1 (text_of "text") None None None 0 1 7 score 1 channel [] [].

Definition by_text : list RetrievalCandidate := [candidate 1 11 (f32_of 1) (text_of "text"); candidate 2 12 (f32_lit 1 2) (text_of "text")].
Definition by_vector : list RetrievalCandidate := [candidate 2 12 (f32_of 1) (text_of "vector"); candidate 3 13 (f32_lit 1 2) (text_of "vector")].

Definition channels : list (list RetrievalCandidate) := [by_text; by_vector].

(** The memory that both channels found comes first. *)
Example fused_order : rt_memory_id <$> reciprocal_rank_fusion channels (f32_of 60) = [2; 1; 3]%Z.
Proof. vm_compute. reflexivity. Qed.

Lemma classification_boundary_at :
  classification_policy_new [] true = Ok permissive /\ admits permissive (Some (text_of "restricted")) = true.
Proof.
  split; [vm_compute; reflexivity|]. apply (classification_boundary [] true permissive (Some (text_of "restricted"))).
  - vm_compute. reflexivity.
  - right. exists (text_of "restricted"). split; [reflexivity|]. split; [vm_compute; discriminate|]. right. split; reflexivity.
Defined.

Lemma fusion_ignores_iteration_order_at :
  fused_from (fuse_channels (f32_of 60) channels).1 (reverse (map_to_list (fuse_channels (f32_of 60) channels).2))
  = reciprocal_rank_fusion channels (f32_of 60).
Proof. apply (fusion_ignores_iteration_order (f32_of 60) eq_refl channels). apply reverse_Permutation. Defined.

Lemma channels_distinct : Forall (fun channel => NoDup (rt_memory_id <$> channel)) channels.
Proof. repeat constructor; vm_compute; set_solver. Qed.

(** Memory 2 stands second in the first channel and first in the second. *)
Lemma fusion_ranks_each_memory_once_at :
  StronglySorted ranked_before (reciprocal_rank_fusion channels (f32_of 60)) /\
  exists r, reciprocal_rank_fusion channels (f32_of 60) !! 0 = Some r /\ rt_memory_id r = 2%Z /\
    rt_score r = f32_add (f32_add (f32_of 0) (contribution (f32_of 60) 1)) (contribution (f32_of 60) 0).
Proof.
  destruct (fusion_ranks_each_memory_once (f32_of 60) eq_refl channels channels_distinct) as (_ & _ & H2 & H3).
  split; [exact H2|]. destruct (reciprocal_rank_fusion channels (f32_of 60) !! 0) as [r|] eqn:E; [|exfalso; revert E; vm_compute; discriminate].
  exists r. split; [reflexivity|]. assert (Hid : rt_memory_id r = 2%Z) by (vm_compute in E; injection E as <-; reflexivity).
  split; [exact Hid|]. destruct (H3 0 r E) as (_ & Hs & _). rewrite Hs, Hid. vm_compute. reflexivity.
Defined.

Lemma rerank_is_a_ranking_at : StronglySorted not_after (rerank by_text).
Proof. apply (rerank_is_a_ranking by_text). repeat constructor. Defined.

Lemma rerank_penalises_all_but_first_at : penalty <$> rerank by_text ≡ₚ f32_of 0 :: replicate 1 (f32_lit 1 10).
Proof. apply (rerank_penalises_all_but_first (text_of "text") by_text); [discriminate|repeat constructor]. Defined.

End FusionExample.
