(* ===== verification/ContextPack.v ===== *)
(** * Context packs

    [ContextPack] of [crates/vestrace-domain/src/retrieval/mod.rs] and the builder of
    [crates/vestrace-application/src/retrieval/context_builder.rs]: rendering candidates at the
    highest representation that fits what is left of a token budget, section by section.

    A text is the list of its scalar values, so slicing at a character boundary is taking a prefix. *)

From Stdlib Require Import ZArith Lia String.
From stdpp Require Import base option numbers strings gmap list.
From S2P Require Import Prelude Codec Text RunStatus RunDecider AgentRun RunReplay RunPorts Interaction Outbox MemorySharing Ranking.
From S2P Require Import Retrieval.

Abbreviation ContextPackId := Uuid (only parsing).

(** ** Packs *)

Inductive RepresentationLevel : Type := Full | SummaryLevel | Atomic | Reference.

Record ContextItem : Type := mkItem {
  ci_memory_id : MemoryId;
  ci_revision_id : MemoryRevisionId;
  ci_memory_status : MemoryStatus;
  ci_revision_number : Z;
  ci_valid_from : option Timestamp;
  ci_valid_until : option Timestamp;
  ci_revision_created_at : Timestamp;
  ci_source_generation : Z;
  ci_representation : RepresentationLevel;
  ci_rendered_text : text;
  ci_accounted_tokens : Z;
  ci_provenance_refs : list EvidenceRef;
  ci_inclusion_explanation : text;
  ci_source_classification : option text;
}.

Record ContextSection : Type := mkSection { cs_label : text; cs_items : list ContextItem }.

Record ConflictWarning : Type := mkConflictWarning {
  cw_conflict_id : text;
  cw_participant_memory_ids : list MemoryId;
  cw_conflict_kind : text;
  cw_status : text;
}.

Record ContextPack : Type := mkPack {
  pk_id : ContextPackId;
  pk_retrieval_run_id : RetrievalRunId;
  pk_workspace_id : WorkspaceId;
  pk_actor : PrincipalId;
  pk_temporal_perspective : TimePerspective;
  pk_token_budget : Z;
  pk_used_tokens : Z;
  pk_candidate_ids : list MemoryId;
  pk_sections : list ContextSection;
  pk_degraded : bool;
  pk_degraded_channels : list text;
  pk_warnings : list text;
  pk_withheld : list WithheldRevision;
  pk_conflict_warnings : list ConflictWarning;
  pk_retrieval_policy_version : text;
  pk_authorization_checked : bool;
  pk_created_at : Timestamp;
}.

Definition pack_items (sections : list ContextSection) : list ContextItem := concat (cs_items <$> sections).

(** [.sum()] of [u32] values. *)
Definition accounted (items : list ContextItem) : Z := foldr (fun i n => ci_accounted_tokens i + n)%Z 0%Z items.

Definition context_pack_new (id : ContextPackId) (run : RetrievalRunId) (ws : WorkspaceId) (actor : PrincipalId)
    (perspective : TimePerspective) (token_budget used_tokens : Z) (candidate_ids : list MemoryId)
    (sections : list ContextSection) (degraded : bool) (degraded_channels warnings : list text)
    (conflict_warnings : list ConflictWarning) (policy_version : text) (authorization_checked : bool) (at_ : Timestamp)
    : result DomainError ContextPack :=
  if (token_budget <? used_tokens)%Z then Err InvalidArgument else
  if negb authorization_checked then Err PolicyViolation else
  if any (fun i => match ci_provenance_refs i with [] => true | _ => false end || (ci_revision_number i =? 0)%Z) (pack_items sections)
  then Err InvalidArgument else
  if negb (accounted (pack_items sections) =? used_tokens)%Z then Err InvalidArgument else
  Ok (mkPack id run ws actor perspective token_budget used_tokens candidate_ids sections degraded degraded_channels warnings
        [] conflict_warnings policy_version authorization_checked at_).

Definition with_withholding (p : ContextPack) (withheld : list WithheldRevision) : ContextPack :=
  mkPack (pk_id p) (pk_retrieval_run_id p) (pk_workspace_id p) (pk_actor p) (pk_temporal_perspective p) (pk_token_budget p)
    (pk_used_tokens p) (pk_candidate_ids p) (pk_sections p) (pk_degraded p) (pk_degraded_channels p) (pk_warnings p)
    withheld (pk_conflict_warnings p) (pk_retrieval_policy_version p) (pk_authorization_checked p) (pk_created_at p).

Definition with_degradation (p : ContextPack) (degraded_channels warnings : list text) : result DomainError ContextPack :=
  if any (fun name => is_empty (trim name)) degraded_channels then Err InvalidArgument else
  Ok (mkPack (pk_id p) (pk_retrieval_run_id p) (pk_workspace_id p) (pk_actor p) (pk_temporal_perspective p) (pk_token_budget p)
    (pk_used_tokens p) (pk_candidate_ids p) (pk_sections p) (match degraded_channels with [] => false | _ => true end)
    degraded_channels warnings
    (pk_withheld p) (pk_conflict_warnings p) (pk_retrieval_policy_version p) (pk_authorization_checked p) (pk_created_at p)).

(** ** Rendering *)

(** [text.len() as u32] keeps the low thirty-two bits. *)
Definition conservative_token_count (t : text) : Z :=
  if is_empty t then 0 else (saturating_add u32_max (utf8_len t mod 2 ^ 32) 3 / 4)%Z.

(** The prefix up to and including the first character that satisfies [p]. *)
Fixpoint through_first (p : Z -> bool) (t : text) : option text :=
  match t with
  | [] => None
  | c :: rest => if p c then Some [c] else cons c <$> through_first p rest
  end.

Definition first_sentence (t : text) : text :=
  let trimmed := trim t in
  match through_first (fun c => (c =? 46) || (c =? 33) || (c =? 63))%Z trimmed with
  | Some prefix => trim prefix
  | None => trimmed
  end.

(** The first part of [split_once]. *)
Fixpoint before_first (sep : Z) (t : text) : option text :=
  match t with
  | [] => None
  | c :: rest => if (c =? sep)%Z then Some [] else cons c <$> before_first sep rest
  end.

Definition or_else {A} (a b : option A) : option A := match a with Some _ => a | None => b end.

Definition first_atomic (t : text) : text :=
  let trimmed := trim t in
  let first_clause :=
    opt_filter (fun first => negb (is_empty first))
      (trim <$> or_else (before_first 59 trimmed) (or_else (before_first 10 trimmed) (before_first 44 trimmed))) in
  match first_clause with Some first => first | None => first_sentence trimmed end.

(** The longest prefix of whole characters within [max_bytes]. *)
Fixpoint take_bytes (max_bytes : Z) (t : text) : text :=
  match t with
  | [] => []
  | c :: rest => if (max_bytes <? utf8_len_char c)%Z then [] else c :: take_bytes (max_bytes - utf8_len_char c) rest
  end.

Definition truncate_to_tokens (t : text) (max_tokens : Z) : text :=
  let max_bytes := Z.min usize_max (max_tokens * 4) in
  if (utf8_len t <=? max_bytes)%Z then t else take_bytes max_bytes t.

Section Builder.
(** The text of an identifier. *)
Context (uuid_text : Uuid -> text).

Definition reference_text (c : RetrievalCandidate) : text :=
  text_of "memory=" ++ uuid_text (rt_memory_id c) ++ text_of " revision=" ++ uuid_text (rt_revision_id c).

Definition source_text (c : RetrievalCandidate) : text :=
  if is_empty (rt_content c) then rt_explanation c else rt_content c.

Fixpoint first_fitting (remaining_budget : Z) (ladder : list (RepresentationLevel * text)) : option (RepresentationLevel * text * Z) :=
  match ladder with
  | [] => None
  | (level, t) :: rest =>
      if is_empty t || (remaining_budget <? conservative_token_count t)%Z then first_fitting remaining_budget rest
      else Some (level, t, conservative_token_count t)
  end.

Definition render_representation (c : RetrievalCandidate) (remaining_budget : Z) : option (RepresentationLevel * text * Z) :=
  let source := source_text c in
  let reference := reference_text c in
  match first_fitting remaining_budget
          [(Full, source); (SummaryLevel, first_sentence source); (Atomic, first_atomic source); (Reference, reference)] with
  | Some r => Some r
  | None =>
      let truncated := truncate_to_tokens reference remaining_budget in
      if is_empty truncated then None else Some (Reference, truncated, conservative_token_count truncated)
  end.

(** ** Building *)

Definition section_for_kind (k : MemoryKind) : text :=
  match k with
  | Constraint => text_of "constraints"
  | Fact | Preference => text_of "current_facts"
  | Decision => text_of "decisions"
  | Task => text_of "tasks"
  | Procedure => text_of "procedures"
  | Outcome | Summary => text_of "supporting"
  | Observation => text_of "recent_events"
  end.

Definition section_labels : list text :=
  map text_of ["constraints"; "current_facts"; "decisions"; "tasks"; "procedures"; "supporting"; "recent_events"; "history"]%string.

Definition level_name (l : RepresentationLevel) : text :=
  match l with
  | Full => text_of "Full" | SummaryLevel => text_of "Summary" | Atomic => text_of "Atomic" | Reference => text_of "Reference"
  end.

Definition item_of (label : text) (c : RetrievalCandidate) (level : RepresentationLevel) (rendered : text) (tokens : Z) : ContextItem :=
  mkItem (rt_memory_id c) (rt_revision_id c) (rt_memory_status c) (rt_revision_number c) (rt_valid_from c) (rt_valid_until c)
    (rt_revision_created_at c) (rt_source_generation c) level rendered tokens
    [MemoryRevisionRef (rt_memory_id c) (rt_revision_id c)]
    (text_of "included in " ++ label ++ text_of " as " ++ level_name level) (rt_classification c).

(** What the loops carry: the tokens used and left, and the memories that are in. *)
Record Filling : Type := mkFilling {
  fl_used : Z;
  fl_remaining : Z;
  fl_ids : list MemoryId;
}.

(** The inner loop. *)
Fixpoint fill_section (label : text) (candidates : list RetrievalCandidate) (f : Filling) : list ContextItem * Filling :=
  match candidates with
  | [] => ([], f)
  | c :: rest =>
      if (fl_remaining f =? 0)%Z then ([], f) else
      if any (fun id => id == rt_memory_id c) (fl_ids f) then fill_section label rest f else
      if section_for_kind (rt_kind c) !== label then fill_section label rest f else
      match render_representation c (fl_remaining f) with
      | None => fill_section label rest f
      | Some (level, rendered, tokens) =>
          let '(items, f') :=
            fill_section label rest (mkFilling (fl_used f + tokens) (fl_remaining f - tokens) (fl_ids f ++ [rt_memory_id c])) in
          (item_of label c level rendered tokens :: items, f')
      end
  end.

(** The outer loop. *)
Fixpoint fill_sections (labels : list text) (candidates : list RetrievalCandidate) (f : Filling) : list ContextSection * Filling :=
  match labels with
  | [] => ([], f)
  | label :: rest =>
      if (fl_remaining f =? 0)%Z then ([], f) else
      let '(items, f) := fill_section label candidates f in
      let '(sections, f) := fill_sections rest candidates f in
      (match items with [] => sections | _ => mkSection label items :: sections end, f)
  end.

Definition build_with_temporal_perspective (token_budget : Z) (id : ContextPackId) (at_ : Timestamp) (ws : WorkspaceId)
    (actor : PrincipalId) (run : RetrievalRunId) (perspective : TimePerspective) (candidates : list RetrievalCandidate)
    : result DomainError ContextPack :=
  let '(sections, f) := fill_sections section_labels candidates (mkFilling 0 token_budget []) in
  context_pack_new id run ws actor perspective token_budget (fl_used f) (fl_ids f) sections false [] [] [] (text_of "v1") true at_.

End Builder.
