(* ===== verification/ContextPackSpec.v ===== *)
(** * What a context pack promises

    Rendering picks the highest representation that fits and always finds one while budget is left;
    the builder's loops keep the accounts in balance, take each memory at most once and stop only when
    every memory is in or the budget is spent. *)

From Stdlib Require Import ZArith Lia String.
From stdpp Require Import base option numbers strings gmap list.
From S2P Require Import Prelude Codec Text RunStatus RunDecider AgentRun RunReplay RunPorts ResourceScope Interaction Outbox.
From S2P Require Import MemorySharing Ranking Retrieval ContextPack.

(** ** Token counts *)

Lemma conservative_token_count_le t n : (0 <= n)%Z -> (utf8_len t <= 4 * n)%Z -> (conservative_token_count t <= n)%Z.
Proof.
  intros Hn Hl. unfold conservative_token_count, saturating_add. destruct (is_empty t); [done|].
  pose proof (utf8_len_nonneg t). pose proof (Z.mod_le (utf8_len t) (2 ^ 32) ltac:(done) ltac:(done)).
  apply Z.le_trans with ((4 * n + 3) / 4)%Z; [apply Z.div_le_mono; lia|].
  apply Z.lt_succ_r, Z.div_lt_upper_bound; lia.
Qed.

Lemma conservative_token_count_nonneg t : (0 <= conservative_token_count t)%Z.
Proof.
  unfold conservative_token_count, saturating_add. destruct (is_empty t); [done|].
  apply Z.div_pos; [|done]. pose proof (Z.mod_pos_bound (utf8_len t) (2 ^ 32) ltac:(done)). unfold u32_max. lia.
Qed.

(** The count covers a quarter of a text's bytes, up to the length at which [as u32] wraps. *)
Lemma conservative_token_count_covers t : (utf8_len t <= u32_max - 3)%Z -> (utf8_len t <= 4 * conservative_token_count t)%Z.
Proof.
  intros Hl. unfold conservative_token_count, saturating_add. destruct (is_empty t) eqn:E; [by apply is_empty_true in E as ->|].
  pose proof (utf8_len_nonneg t). unfold u32_max in *. rewrite Z.mod_small by lia. rewrite Z.min_r by lia.
  pose proof (Z.div_mod (utf8_len t + 3) 4 ltac:(done)). pose proof (Z.mod_pos_bound (utf8_len t + 3) 4 ltac:(done)). lia.
Qed.

Lemma take_bytes_len m t : (0 <= m)%Z -> (utf8_len (take_bytes m t) <= m)%Z.
Proof.
  revert m. induction t as [|c t IH]; intros m Hm; simpl; [done|]. destruct (Z.ltb_spec m (utf8_len_char c)); simpl; [done|].
  specialize (IH (m - utf8_len_char c)%Z ltac:(lia)). lia.
Qed.

Lemma take_bytes_prefix m t : take_bytes m t `prefix_of` t.
Proof.
  revert m. induction t as [|c t IH]; intros m; simpl; [done|]. case_match; [apply prefix_nil|]. by apply prefix_cons.
Qed.

Lemma truncate_to_tokens_len t n : (0 <= n)%Z -> (utf8_len (truncate_to_tokens t n) <= 4 * n)%Z.
Proof.
  intros Hn. unfold truncate_to_tokens. destruct (Z.leb_spec (utf8_len t) (Z.min usize_max (n * 4))); [lia|].
  etrans; [apply take_bytes_len; unfold usize_max, u64_max; lia|lia].
Qed.

Section Spec.
Context (uuid_text : Uuid -> text).

Abbreviation render := (render_representation uuid_text).
Abbreviation reference := (reference_text uuid_text).

Lemma take_bytes_cons m c t : (utf8_len_char c <= m)%Z -> take_bytes m (c :: t) <> [].
Proof. intros Hm. simpl. destruct (Z.ltb_spec m (utf8_len_char c)); [lia|done]. Qed.

Lemma truncated_reference_some c n : (0 < n)%Z -> truncate_to_tokens (reference c) n <> [].
Proof.
  intros Hn. unfold truncate_to_tokens. case_match; [done|]. apply take_bytes_cons.
  unfold utf8_len_char, usize_max, u64_max. simpl. lia.
Qed.

(** The representations of a candidate, highest first. *)
Definition ladder (c : RetrievalCandidate) : list (RepresentationLevel * text) :=
  [(Full, source_text c); (SummaryLevel, first_sentence (source_text c)); (Atomic, first_atomic (source_text c));
   (Reference, reference c)].

Definition fits (budget : Z) (t : text) : Prop := t <> [] /\ (conservative_token_count t <= budget)%Z.

Lemma first_fitting_spec n l :
  match first_fitting n l with
  | Some (level, t, tokens) =>
      fits n t /\ tokens = conservative_token_count t /\
      exists above below, l = above ++ (level, t) :: below /\ Forall (fun e => ~ fits n e.2) above
  | None => Forall (fun e => ~ fits n e.2) l
  end.
Proof.
  induction l as [|[level t] l IH]; simpl; [constructor|].
  destruct (is_empty t || (n <? conservative_token_count t)%Z) eqn:E.
  - assert (Hno : ~ fits n t).
    { intros [Ht Hn]. apply orb_true_iff in E as [E|E]; [by apply is_empty_true in E|]. apply Z.ltb_lt in E. lia. }
    destruct (first_fitting n l) as [[[level' t'] tokens]|]; [|by constructor].
    destruct IH as (Hf & Ht & above & below & -> & Ha). split_and!; try done. exists ((level, t) :: above), below.
    split; [done|]. by constructor.
  - apply orb_false_elim in E as [E1 E2]. apply is_empty_false in E1. apply Z.ltb_ge in E2. split_and!; try done.
    by exists [], l.
Qed.

(** What rendering a candidate with [n] tokens left may produce. *)
Definition rendering (c : RetrievalCandidate) (n : Z) (level : RepresentationLevel) (t : text) (tokens : Z) : Prop :=
  fits n t /\ tokens = conservative_token_count t /\
  ((exists above below, ladder c = above ++ (level, t) :: below /\ Forall (fun e => ~ fits n e.2) above) \/
   (level = Reference /\ t `prefix_of` reference c /\ Forall (fun e => ~ fits n e.2) (ladder c))).

Lemma render_spec c n : (0 < n)%Z -> exists level t tokens, render c n = Some (level, t, tokens) /\ rendering c n level t tokens.
Proof.
  intros Hn. unfold render_representation. pose proof (first_fitting_spec n (ladder c)) as Hspec. unfold ladder in Hspec at 1.
  destruct (first_fitting n _) as [[[level t] tokens]|].
  - destruct Hspec as (Hf & Ht & Hl). exists level, t, tokens. split; [done|]. split_and!; try done. by left.
  - pose proof (truncated_reference_some c n Hn) as Hne.
    destruct (is_empty (truncate_to_tokens (reference c) n)) eqn:E; [by apply is_empty_true in E|].
    eexists _, _, _. split; [done|]. split_and!; [split; [done|]|done|].
    + apply conservative_token_count_le; [lia|]. apply truncate_to_tokens_len. lia.
    + right. split_and!; try done. unfold truncate_to_tokens. case_match; [done|]. apply take_bytes_prefix.
Qed.

Lemma render_Some c n level t tokens :
  (0 < n)%Z -> render c n = Some (level, t, tokens) -> rendering c n level t tokens.
Proof. intros Hn Hr. destruct (render_spec c n Hn) as (level' & t' & tokens' & Hr' & Hs). rewrite Hr in Hr'. by simplify_eq. Qed.

Lemma rendering_tokens c n level t tokens : rendering c n level t tokens -> (0 <= tokens <= n)%Z.
Proof. intros [[_ Hf] [-> _]]. split; [apply conservative_token_count_nonneg|done]. Qed.

(** ** The loops *)

(** An item renders a candidate in the section of its kind, with [n] tokens left. *)
Definition renders (candidates : list RetrievalCandidate) (n : Z) (i : ContextItem) : Prop :=
  exists c level t tokens, c ∈ candidates /\ rendering c n level t tokens /\
    i = item_of (section_for_kind (rt_kind c)) c level t tokens.

(** Items that were laid out one after the other, from [n] tokens left. *)
Fixpoint laid_out (candidates : list RetrievalCandidate) (n : Z) (items : list ContextItem) : Prop :=
  match items with
  | [] => True
  | i :: rest => renders candidates n i /\ laid_out candidates (n - ci_accounted_tokens i) rest
  end.

Definition taken (f : Filling) (c : RetrievalCandidate) : Prop := rt_memory_id c ∈ fl_ids f.

(** One pass of a loop over [candidates] that produced [items]; [mine] are the candidates it looked for. *)
Record pass (mine : RetrievalCandidate -> Prop) (candidates : list RetrievalCandidate) (items : list ContextItem)
    (f f' : Filling) : Prop := {
  ps_used : fl_used f' = (fl_used f + accounted items)%Z;
  ps_remaining : fl_remaining f' = (fl_remaining f - accounted items)%Z;
  ps_bounds : (0 <= accounted items <= fl_remaining f)%Z;
  ps_ids : fl_ids f' = fl_ids f ++ (ci_memory_id <$> items);
  ps_once : NoDup (fl_ids f) -> NoDup (fl_ids f');
  ps_complete : fl_remaining f' = 0%Z \/ forall c, c ∈ candidates -> mine c -> taken f' c;
}.

Lemma pass_nil mine f : (0 <= fl_remaining f)%Z -> pass mine [] [] f f.
Proof.
  intros H. split; simpl; try lia; [by rewrite app_nil_r|done|]. right. intros c Hc. by apply elem_of_nil in Hc.
Qed.

Lemma pass_full mine candidates f : fl_remaining f = 0%Z -> pass mine candidates [] f f.
Proof. intros H. split; simpl; try lia; [by rewrite app_nil_r|done]. Qed.

Lemma taken_later mine candidates items f f' c : pass mine candidates items f f' -> taken f c -> taken f' c.
Proof. intros [_ _ _ Hids _ _] Hc. unfold taken. rewrite Hids. set_solver. Qed.

Lemma pass_skip (mine : RetrievalCandidate -> Prop) c rest items f f' :
  (mine c -> taken f c) -> pass mine rest items f f' -> pass mine (c :: rest) items f f'.
Proof.
  intros Hc Hp. pose proof Hp as [H1 H2 H3 H4 H5 H6]. split; try done. destruct H6 as [H6|H6]; [by left|right].
  intros c' [->|Hin]%elem_of_cons Hm; [|by apply H6]. eapply taken_later; [exact Hp|by apply Hc].
Qed.

Lemma laid_out_cons c candidates n items : laid_out candidates n items -> laid_out (c :: candidates) n items.
Proof.
  revert n. induction items as [|i items IH]; intros n; simpl; [done|]. intros [(c' & l & t & k & Hin & Hr) Hl].
  split; [|by apply IH]. exists c', l, t, k. split; [by right|done].
Qed.

Lemma accounted_app a b : accounted (a ++ b) = (accounted a + accounted b)%Z.
Proof. induction a as [|i a IH]; simpl; [done|]. rewrite IH. lia. Qed.

Lemma laid_out_app candidates n a b :
  laid_out candidates n (a ++ b) <-> laid_out candidates n a /\ laid_out candidates (n - accounted a) b.
Proof.
  revert n. induction a as [|i a IH]; intros n; simpl; [by rewrite Z.sub_0_r; naive_solver|]. rewrite IH.
  replace (n - (ci_accounted_tokens i + accounted a))%Z with (n - ci_accounted_tokens i - accounted a)%Z by lia. naive_solver.
Qed.

Lemma pass_take (mine : RetrievalCandidate -> Prop) c rest i items f f' :
  rt_memory_id c ∉ fl_ids f -> ci_memory_id i = rt_memory_id c -> (0 <= ci_accounted_tokens i <= fl_remaining f)%Z ->
  pass mine rest items
    (mkFilling (fl_used f + ci_accounted_tokens i) (fl_remaining f - ci_accounted_tokens i) (fl_ids f ++ [rt_memory_id c])) f' ->
  pass mine (c :: rest) (i :: items) f f'.
Proof.
  intros Hnew Hid Hi [H1 H2 H3 H4 H5 H6]. simpl in *. split; simpl; try lia.
  - rewrite H4, Hid. by rewrite <- (assoc_L (++)).
  - intros Hnd. apply H5, NoDup_app. split_and!; [done| |apply NoDup_singleton]. intros x Hx ->%list_elem_of_singleton. done.
  - destruct H6 as [H6|H6]; [by left|right]. intros c' [->|Hin]%elem_of_cons Hm; [|by apply H6].
    unfold taken. rewrite H4. set_solver.
Qed.

Lemma pass_trans (mine mine' : RetrievalCandidate -> Prop) candidates items items' f f' f'' :
  pass mine candidates items f f' -> pass mine' candidates items' f' f'' ->
  pass (fun c => mine c \/ mine' c) candidates (items ++ items') f f''.
Proof.
  intros Hp Hp'. pose proof Hp as [A1 A2 A3 A4 A5 A6]. pose proof Hp' as [B1 B2 B3 B4 B5 B6].
  split; rewrite ?accounted_app; try lia.
  - rewrite B4, A4, fmap_app. by rewrite (assoc_L (++)).
  - auto.
  - destruct B6 as [B6|B6]; [by left|]. destruct A6 as [A6|A6]; [left; lia|].
    right. intros c Hc [Hm|Hm]; [|by apply B6]. eapply taken_later; [exact Hp'|by apply A6].
Qed.

Lemma pass_weaken (mine mine' : RetrievalCandidate -> Prop) candidates items f f' :
  (forall c, mine' c -> mine c) -> pass mine candidates items f f' -> pass mine' candidates items f f'.
Proof. intros Hm [H1 H2 H3 H4 H5 H6]. split; try done. destruct H6 as [H6|H6]; [by left|right; eauto]. Qed.

Lemma fill_section_spec label candidates f :
  (0 <= fl_remaining f)%Z ->
  pass (fun c => section_for_kind (rt_kind c) = label) candidates
    (fill_section uuid_text label candidates f).1 f (fill_section uuid_text label candidates f).2 /\
  laid_out candidates (fl_remaining f) (fill_section uuid_text label candidates f).1.
Proof.
  revert f. induction candidates as [|c rest IH]; intros f Hr; cbn [fill_section]; [split; [by apply pass_nil|done]|].
  destruct (Z.eqb_spec (fl_remaining f) 0) as [Hz|Hz]; [split; [by apply pass_full|done]|].
  destruct (any _ (fl_ids f)) eqn:Hin.
  { destruct (IH f Hr) as [Hp Hf]. split; [|by apply laid_out_cons]. apply pass_skip; [|done]. intros _.
    apply existsb_exists in Hin as (id & Hid & ->%eqb_true). by apply list_elem_of_In. }
  destruct (section_for_kind (rt_kind c) == label) eqn:Hl; simpl.
  2:{ destruct (IH f Hr) as [Hp Hf]. split; [|by apply laid_out_cons]. apply pass_skip; [|done]. rewrite eqb_false in Hl. done. }
  rewrite eqb_true in Hl. destruct (render_spec c (fl_remaining f) ltac:(lia)) as (level & t & tokens & -> & Hs).
  pose proof (rendering_tokens _ _ _ _ _ Hs).
  set (f1 := mkFilling _ _ _). destruct (IH f1 ltac:(simpl; lia)) as [Hp Hf].
  destruct (fill_section uuid_text label rest f1) as [items f']. simpl in *. split.
  - apply pass_take; simpl; try done. intros Hm. apply not_true_iff_false in Hin. apply Hin, existsb_exists.
    exists (rt_memory_id c). split; [by apply list_elem_of_In|apply eqb_refl].
  - split; [|by apply laid_out_cons]. exists c, level, t, tokens. rewrite Hl. split_and!; try done. by left.
Qed.

Lemma fill_sections_spec labels candidates f :
  (0 <= fl_remaining f)%Z ->
  pass (fun c => section_for_kind (rt_kind c) ∈ labels) candidates
    (pack_items (fill_sections uuid_text labels candidates f).1) f (fill_sections uuid_text labels candidates f).2 /\
  laid_out candidates (fl_remaining f) (pack_items (fill_sections uuid_text labels candidates f).1).
Proof.
  revert f. induction labels as [|label rest IH]; intros f Hr; cbn [fill_sections].
  { split; [|done]. split; simpl; try lia; [by rewrite app_nil_r|done|]. right. intros c _ Hc. by apply elem_of_nil in Hc. }
  destruct (Z.eqb_spec (fl_remaining f) 0) as [Hz|Hz]; [split; [by apply pass_full|done]|].
  destruct (fill_section_spec label candidates f Hr) as [Hp Hf].
  destruct (fill_section uuid_text label candidates f) as [items f1]. simpl in Hp, Hf.
  pose proof (ps_remaining _ _ _ _ _ Hp). pose proof (ps_bounds _ _ _ _ _ Hp).
  destruct (IH f1 ltac:(lia)) as [Hp' Hf']. destruct (fill_sections uuid_text rest candidates f1) as [sections f']. simpl in *.
  replace (pack_items (match items with [] => sections | _ => mkSection label items :: sections end))
    with (items ++ pack_items sections) by (by destruct items).
  split.
  - eapply pass_weaken; [|exact (pass_trans _ _ _ _ _ _ _ _ Hp Hp')]. simpl. intros c. rewrite elem_of_cons. naive_solver.
  - apply laid_out_app. split; [done|]. by replace (fl_remaining f - accounted items)%Z with (fl_remaining f1) by lia.
Qed.

(** Every kind has its section. *)
Lemma section_for_kind_labels k : section_for_kind k ∈ section_labels.
Proof. apply (bool_decide_eq_true_1 _). destruct k; vm_compute; reflexivity. Qed.

(** ** Packs *)

Section Pack.
Context (budget : Z) (id : ContextPackId) (at_ : Timestamp) (ws : WorkspaceId) (actor : PrincipalId) (run : RetrievalRunId).
Context (perspective : TimePerspective) (candidates : list RetrievalCandidate).

Abbreviation build :=
  (build_with_temporal_perspective uuid_text budget id at_ ws actor run perspective candidates).

Abbreviation filled := (fill_sections uuid_text section_labels candidates (mkFilling 0 budget [])).

Lemma filled_pass :
  (0 <= budget)%Z -> pass (fun _ => True) candidates (pack_items filled.1) (mkFilling 0 budget []) filled.2.
Proof.
  intros Hb. destruct (fill_sections_spec section_labels candidates (mkFilling 0 budget []) Hb) as [Hp _].
  eapply pass_weaken; [|exact Hp]. intros c _. apply section_for_kind_labels.
Qed.

Lemma filled_items before i after :
  (0 <= budget)%Z -> pack_items filled.1 = before ++ i :: after -> renders candidates (budget - accounted before) i.
Proof.
  intros Hb Hi. destruct (fill_sections_spec section_labels candidates (mkFilling 0 budget []) Hb) as [_ Hf].
  rewrite Hi, laid_out_app in Hf. simpl in Hf. tauto.
Qed.

(** The bytes of the texts of items. *)
Definition rendered_bytes (items : list ContextItem) : Z := foldr (fun i n => utf8_len (ci_rendered_text i) + n)%Z 0%Z items.

Lemma laid_out_bytes n items :
  laid_out candidates n items -> Forall (fun i => (utf8_len (ci_rendered_text i) <= u32_max - 3)%Z) items ->
  (rendered_bytes items <= 4 * accounted items)%Z.
Proof.
  intros Hl Hb. revert n Hl. induction Hb as [|i items Hi Hb IH]; intros n; simpl; [lia|].
  intros [(c & level & t & tokens & _ & (_ & Ht & _) & ->) Hl]. specialize (IH _ Hl). simpl in *. rewrite Ht.
  pose proof (conservative_token_count_covers t Hi). lia.
Qed.

(** Building succeeds, unless a candidate has the revision number zero. *)
Lemma build_result :
  (0 <= budget)%Z ->
  match build with
  | Ok pack => pack = mkPack id run ws actor perspective budget (fl_used filled.2) (fl_ids filled.2) filled.1 false [] [] [] []
                        (text_of "v1") true at_
  | Err e => e = InvalidArgument /\ exists c, c ∈ candidates /\ rt_revision_number c = 0%Z
  end.
Proof.
  intros Hb. unfold build_with_temporal_perspective. pose proof (filled_pass Hb) as [H1 H2 H3 H4 H5 _].
  pose proof (fun b i a Hi => filled_items b i a Hb Hi) as Hitems.
  destruct (fill_sections _ _ _ _) as [sections f]. cbn [fst snd] in *. unfold context_pack_new.
  destruct (Z.ltb_spec budget (fl_used f)) as [Hlt|_]; [simpl in *; lia|]. cbn [negb].
  destruct (any _ (pack_items sections)) eqn:E.
  - split; [done|]. apply existsb_exists in E as (i & Hi & Hbad). apply list_elem_of_In in Hi.
    apply list_elem_of_split in Hi as (before & after & Hi).
    destruct (Hitems _ _ _ Hi) as (c & level & t & tokens & Hc & _ & ->). simpl in Hbad. apply Z.eqb_eq in Hbad. by exists c.
  - replace (accounted (pack_items sections) =? fl_used f)%Z with true; [done|]. symmetry. apply Z.eqb_eq. simpl in *. lia.
Qed.

(** A pack that was built holds what the loops left. *)
Lemma build_filled pack :
  build = Ok pack -> pk_sections pack = filled.1 /\ pk_used_tokens pack = fl_used filled.2 /\ pk_candidate_ids pack = fl_ids filled.2 /\
    pk_id pack = id.
Proof.
  unfold build_with_temporal_perspective. destruct (fill_sections _ _ _ _) as [sections f]. unfold context_pack_new. intros Hok.
  split_matches_in Hok. by injection Hok as <-.
Qed.

Lemma build_items pack i :
  (0 <= budget)%Z -> build = Ok pack -> i ∈ pack_items (pk_sections pack) -> exists n, renders candidates n i.
Proof.
  intros Hb (-> & _)%build_filled Hi. apply list_elem_of_split in Hi as (before & after & Hi). eexists. by eapply filled_items.
Qed.

(** C22.  Building a context pack fails only as an invalid argument, and only when a candidate has the revision number zero;
    otherwise a pack is built, whatever the texts.  Counting every text with [conservative_token_count], a quarter of its UTF-8
    bytes rounded up, the pack never uses more than its budget and uses what its items are accounted for, so that its texts hold
    at most four bytes for each token of the budget (as long as no text is so long that its length wraps in 32 bits); it holds
    each memory at most once, and every item is the highest representation of a candidate that fits what the items before it
    left, is accounted for as its text counts, and cites exactly the revision it renders. *)
Theorem context_pack_fits_budget :
  in_range u32_max budget ->
  match build with
  | Err e => e = InvalidArgument /\ exists c, c ∈ candidates /\ rt_revision_number c = 0%Z
  | Ok pack =>
      (pk_used_tokens pack <= budget)%Z /\ accounted (pack_items (pk_sections pack)) = pk_used_tokens pack /\
      (Forall (fun i => utf8_len (ci_rendered_text i) <= u32_max - 3)%Z (pack_items (pk_sections pack)) ->
         (rendered_bytes (pack_items (pk_sections pack)) <= 4 * budget)%Z) /\
      NoDup (pk_candidate_ids pack) /\ pk_candidate_ids pack = ci_memory_id <$> pack_items (pk_sections pack) /\
      forall before i after, pack_items (pk_sections pack) = before ++ i :: after ->
        exists c, c ∈ candidates /\ ci_accounted_tokens i = conservative_token_count (ci_rendered_text i) /\
          rendering c (budget - accounted before) (ci_representation i) (ci_rendered_text i) (ci_accounted_tokens i) /\
          ci_memory_id i = rt_memory_id c /\ ci_revision_id i = rt_revision_id c /\ ci_source_classification i = rt_classification c /\
          ci_provenance_refs i = [MemoryRevisionRef (rt_memory_id c) (rt_revision_id c)]
  end.
Proof.
  intros [Hb _]. pose proof (build_result Hb) as Hr. destruct build as [pack|e]; [subst pack|done].
  pose proof (proj2 (fill_sections_spec section_labels candidates (mkFilling 0 budget []) Hb)) as Hf.
  pose proof (laid_out_bytes _ _ Hf) as Hbytes. pose proof (filled_pass Hb) as [H1 H2 H3 H4 H5 _]. simpl in *.
  split_and!; try lia; [intros Hl; specialize (Hbytes Hl); lia|apply H5; constructor|done|].
  - intros before i after Hi. destruct (filled_items before i after Hb Hi) as (c & level & t & tokens & Hc & Hren & ->).
    exists c. split; [done|]. split; [by destruct Hren as (_ & -> & _)|done].
Qed.

(** No memory is left out for want of a representation that fits: every candidate's memory is in the pack, or the pack has
    used its whole budget. *)
Theorem context_pack_complete_or_full pack :
  in_range u32_max budget -> build = Ok pack ->
  pk_used_tokens pack = budget \/ forall c, c ∈ candidates -> rt_memory_id c ∈ pk_candidate_ids pack.
Proof.
  intros [Hb _] (_ & Hu & Hids & _)%build_filled. pose proof (filled_pass Hb) as [H1 H2 H3 H4 _ H6]. simpl in *. rewrite Hu, Hids.
  destruct H6 as [H6|H6]; [left; lia|right]. intros c Hc. by apply H6.
Qed.

End Pack.

End Spec.

(** ** An example: a constraint and two facts in twelve tokens *)

Module PackExample.

Definition name (u : Uuid) : text := [(65 + u)%Z].

Definition candidate (memory : Z) (k : MemoryKind) (content : text) : RetrievalCandidate :=
  mkRetrieved memory (memory + 10) k StatusActive 1 content None None None 0 1 7 (f32_of 1) 1 (text_of "fused") [] [].

Definition candidates : list RetrievalCandidate :=
  [candidate 1 Fact (text_of "The sky is blue. It was measured on a clear day."); candidate 2 Constraint (text_of "No wind.");
   candidate 3 Fact (text_of "Long, and without an end that would fit what is left")].

Definition built : result DomainError ContextPack :=
  build_with_temporal_perspective name 12 99 5 1 2 3 Current candidates.

(** The constraint comes first and in full, the first fact as its first sentence, and the third as its first clause. *)
Example built_items :
  (fun p => ((fun i => (ci_memory_id i, ci_representation i, ci_accounted_tokens i)) <$> pack_items (pk_sections p), pk_used_tokens p))
    <$> (match built with Ok p => Some p | Err _ => None end)
  = Some ([(2, Full, 2); (1, SummaryLevel, 4); (3, Atomic, 1)], 7)%Z.
Proof. vm_compute. reflexivity. Qed.

Lemma budget_12 : in_range u32_max 12.
Proof. split; vm_compute; discriminate. Qed.

Lemma context_pack_fits_budget_at :
  exists pack, built = Ok pack /\ (pk_used_tokens pack <= 12)%Z /\ (rendered_bytes (pack_items (pk_sections pack)) <= 48)%Z.
Proof.
  pose proof (context_pack_fits_budget name 12 99 5 1 2 3 Current candidates budget_12) as H.
  change (build_with_temporal_perspective name 12 99 5 1 2 3 Current candidates) with built in H.
  destruct built as [pack|e] eqn:E; [|exfalso; revert E; vm_compute; discriminate].
  exists pack. destruct H as (H1 & _ & H2 & _). split; [reflexivity|]. split; [exact H1|]. apply H2.
  vm_compute in E. injection E as <-. repeat constructor; vm_compute; discriminate.
Defined.

Lemma context_pack_complete_or_full_at :
  exists pack, built = Ok pack /\
    (pk_used_tokens pack = 12%Z \/ forall c, c ∈ candidates -> rt_memory_id c ∈ pk_candidate_ids pack).
Proof.
  destruct built as [pack|e] eqn:E; [|exfalso; revert E; vm_compute; discriminate].
  exists pack. split; [reflexivity|]. exact (context_pack_complete_or_full name 12 99 5 1 2 3 Current candidates pack budget_12 E).
Defined.

End PackExample.
