(* ===== verification/RetrievalService.v ===== *)
(** * The retrieval service

    [RetrievalService] of [crates/vestrace-application/src/retrieval/service.rs] with the records of
    [retrieval/ports.rs]: a search polls the channels, hydrates what they found under the
    classification policy, fuses and reranks what was admitted and journals the run; a context pack is
    built from a search's result and journalled.

    The ports are calls of a program; nothing is assumed of their answers.  A run record's JSON
    parameters are the values they are made of. *)

From Stdlib Require Import ZArith Lia String.
From stdpp Require Import base option numbers strings gmap list.
From S2P Require Import Prelude Codec Text RunStatus RunDecider AgentRun RunReplay RunPorts Interaction Outbox MemorySharing Ranking.
From S2P Require Import Retrieval ContextPack.

(** ** Records *)

Inductive ChannelOutcome : Type :=
| ChannelSucceeded (candidates : nat)
| ChannelFailed (reason : text)
| ChannelDegraded (reason : text).

Record ChannelRecord : Type := mkChannelRecord { cr_channel : text; cr_outcome : ChannelOutcome }.

Definition is_degraded (r : ChannelRecord) : bool :=
  match cr_outcome r with ChannelFailed _ | ChannelDegraded _ => true | ChannelSucceeded _ => false end.

Inductive RetrievalGenerationChangedReason : Type := ReasonStale | ReasonRevoked | ReasonReplaced | ReasonCorpusChanged | ReasonMemberUnavailable.

Inductive EmbeddingRetrievalDegradation : Type :=
| MissingLocalIndex | LegacyAdoptionPending | TransitionNotReady | GenerationNotReady
| GenerationChanged (reason : RetrievalGenerationChangedReason) | RetrievalPending.

Definition degradation_as_str (d : EmbeddingRetrievalDegradation) : text :=
  match d with
  | MissingLocalIndex => text_of "missing_local_index"
  | LegacyAdoptionPending => text_of "legacy_adoption_pending"
  | TransitionNotReady => text_of "transition_not_ready"
  | GenerationNotReady => text_of "generation_not_ready"
  | GenerationChanged _ => text_of "retrieval_generation_changed"
  | RetrievalPending => text_of "retrieval_pending"
  end.

Record DegradedRetrievalAttempt : Type := mkDegraded { dg_reason : EmbeddingRetrievalDegradation; dg_job_id : option Uuid }.

Definition attempt_is_retryable (a : DegradedRetrievalAttempt) : bool :=
  is_some (dg_job_id a) && match dg_reason a with GenerationChanged _ => true | _ => false end.

Inductive EmbeddingRetrievalOutcome : Type :=
| RetrievalCompleted (results : list RetrievalCandidate)
| RetrievalDegraded (attempt : DegradedRetrievalAttempt).

(** An error of a port with what it is displayed as. *)
Record PortError : Type := mkPortError { pe_error : ApplicationError; pe_text : text }.

(** [x as i32] of an unsigned integer. *)
Definition as_i32 (x : Z) : Z := ((x + 2 ^ 31) mod 2 ^ 32 - 2 ^ 31)%Z.

Section Service.
(** [EmbeddingSpaceKey]. *)
Context {K : Type}.
(** [chrono::Duration::from_std]. *)
Context (from_std : Z -> option Z).
(** The text of an identifier. *)
Context (uuid_text : Uuid -> text).

Record RetrievalRunRecord : Type := mkRunRecord {
  jr_run_id : RetrievalRunId;
  jr_query : text;
  jr_intent : RetrievalIntent;
  jr_time_perspective : TimePerspective;
  jr_allowed_statuses : list MemoryStatus;
  jr_allowed_kinds : list MemoryKind;
  jr_channel_limit : Z;
  jr_token_budget : option Z;
  jr_include_explanation : bool;
  jr_policy_decision : option (text * list WithheldRevision);
  jr_channels : list ChannelRecord;
  jr_candidate_count : nat;
  jr_execution_time_ms : Z;
}.

Definition from_request (run_id : RetrievalRunId) (q : NormalizedRetrievalRequest K) (channels : list ChannelRecord)
    (candidate_count : nat) (execution_time_ms : Z) : RetrievalRunRecord :=
  mkRunRecord run_id (nr_query q) (nr_intent q) (nr_time_perspective q) (nr_allowed_statuses q) (nr_allowed_kinds q)
    (nr_channel_limit q) (nr_token_budget q) (nr_include_explanation q) None channels candidate_count execution_time_ms.

Definition with_policy_decision (r : RetrievalRunRecord) (policy_version : text) (withheld : list WithheldRevision) : RetrievalRunRecord :=
  mkRunRecord (jr_run_id r) (jr_query r) (jr_intent r) (jr_time_perspective r) (jr_allowed_statuses r) (jr_allowed_kinds r)
    (jr_channel_limit r) (jr_token_budget r) (jr_include_explanation r) (Some (policy_version, withheld)) (jr_channels r)
    (jr_candidate_count r) (jr_execution_time_ms r).

(** ** Ports *)

Inductive Retriever : Type := TextChannel | VectorChannel | ExactChannel | StructuredChannel.

Definition channel_name (r : Retriever) : text :=
  match r with
  | TextChannel => text_of "text" | VectorChannel => text_of "vector" | ExactChannel => text_of "exact"
  | StructuredChannel => text_of "structured"
  end.

Inductive RetrievalCall : Type -> Type :=
| NewUuid : RetrievalCall Uuid
| WallClock : RetrievalCall Timestamp
| MonotonicMs : RetrievalCall Z
| Resolve (space_name model : text) : RetrievalCall (result ApplicationError (K * CorpusGenerationId))
| SearchChannel (r : Retriever) (q : NormalizedRetrievalRequest K) : RetrievalCall (result PortError (list RetrievalCandidate))
| EmbeddingRetrieve (run_id : RetrievalRunId) (q : NormalizedRetrievalRequest K) (deadline : Timestamp)
    : RetrievalCall (result PortError EmbeddingRetrievalOutcome)
| HydrateForRetrieval (q : NormalizedRetrievalRequest K) (references : list RevisionRef)
    : RetrievalCall (result ApplicationError (list HydratedRevision))
| RecordRun (record : RetrievalRunRecord) : RetrievalCall (result ApplicationError unit)
| RecordContextPack (pack_id : ContextPackId) (run_id : RetrievalRunId) (ws : WorkspaceId) (token_budget used_tokens : Z)
    (sections : list ContextSection) (withheld : list WithheldRevision) : RetrievalCall (result ApplicationError unit).

Abbreviation RT := (IM RetrievalCall ApplicationError).

(** ** The service *)

(** Which ports are there, and the policy of the hydration boundary. *)
Record RetrievalService : Type := mkService {
  sv_vector_retriever : bool;
  sv_exact_retriever : bool;
  sv_structured_retriever : bool;
  sv_revision_hydrator : bool;
  sv_classification_policy : option ClassificationPolicy;
  sv_retrieval_policy_version : option text;
  sv_corpus_generation_resolver : option (text * text);
  sv_embedding_retrieval_client : option Z;
}.

Definition with_channels (vector exact structured : bool) : RetrievalService := mkService vector exact structured false None None None None.

Definition with_hydration (s : RetrievalService) (p : ClassificationPolicy) (version : text) : RetrievalService :=
  mkService (sv_vector_retriever s) (sv_exact_retriever s) (sv_structured_retriever s) true (Some p)
    (if is_empty (trim version) then None else Some version) (sv_corpus_generation_resolver s) (sv_embedding_retrieval_client s).

Definition with_corpus_generation_resolver (s : RetrievalService) (space_name model : text) : RetrievalService :=
  mkService (sv_vector_retriever s) (sv_exact_retriever s) (sv_structured_retriever s) (sv_revision_hydrator s)
    (sv_classification_policy s) (sv_retrieval_policy_version s) (Some (space_name, model)) (sv_embedding_retrieval_client s).

(** In nanoseconds. *)
Definition MAXIMUM_RETRIEVAL_WAIT : Z := (120 * 10 ^ 9)%Z.

Definition with_embedding_retrieval_client (s : RetrievalService) (wait_budget : Z) : result ApplicationError RetrievalService :=
  if (wait_budget =? 0)%Z || (MAXIMUM_RETRIEVAL_WAIT <? wait_budget)%Z then Err AppPolicy else
  Ok (mkService (sv_vector_retriever s) (sv_exact_retriever s) (sv_structured_retriever s) (sv_revision_hydrator s)
        (sv_classification_policy s) (sv_retrieval_policy_version s) (sv_corpus_generation_resolver s) (Some wait_budget)).

(** ** Polling the channels *)

Record Polled : Type := mkPolled {
  po_channels : list (list RetrievalCandidate);
  po_warnings : list text;
  po_records : list ChannelRecord;
  po_successful : nat;
  po_degradation : option DegradedRetrievalAttempt;
}.

Definition poll_succeeded (name : text) (results : list RetrievalCandidate) (p : Polled) : Polled :=
  mkPolled (po_channels p ++ [results]) (po_warnings p) (po_records p ++ [mkChannelRecord name (ChannelSucceeded (length results))])
    (S (po_successful p)) (po_degradation p).

Definition poll_failed (name : text) (e : PortError) (p : Polled) : Polled :=
  mkPolled (po_channels p) (po_warnings p ++ [name ++ text_of " channel failed: " ++ pe_text e])
    (po_records p ++ [mkChannelRecord name (ChannelFailed (pe_text e))]) (po_successful p) (po_degradation p).

Definition poll_degraded (name : text) (a : DegradedRetrievalAttempt) (p : Polled) : Polled :=
  mkPolled (po_channels p) (po_warnings p ++ [name ++ text_of " channel degraded: " ++ degradation_as_str (dg_reason a)])
    (po_records p ++ [mkChannelRecord name (ChannelDegraded (degradation_as_str (dg_reason a)))]) (po_successful p) (Some a).

Definition poll_channel (configured : bool) (r : Retriever) (q : NormalizedRetrievalRequest K) (p : Polled) : RT Polled :=
  if negb configured then mret p else
  answer ← iask (SearchChannel r q);
  mret (match answer with
        | Ok results => poll_succeeded (channel_name r) results p
        | Err e => poll_failed (channel_name r) e p
        end).

Definition poll_embedding (wait_budget : Z) (run_id : RetrievalRunId) (q : NormalizedRetrievalRequest K) (p : Polled) : RT Polled :=
  now ← iask WallClock;
  wait ← ilift (ok_or (from_std wait_budget) AppInternal);
  answer ← iask (EmbeddingRetrieve run_id q (now + wait)%Z);
  mret (match answer with
        | Ok (RetrievalCompleted results) => poll_succeeded (text_of "vector") results p
        | Ok (RetrievalDegraded attempt) => poll_degraded (text_of "vector") attempt p
        | Err e => poll_failed (text_of "vector") e p
        end).

Definition poll_channels (s : RetrievalService) (q : NormalizedRetrievalRequest K) : RT Polled :=
  p ← poll_channel true TextChannel q (mkPolled [] [] [] 0 None);
  p ← match sv_embedding_retrieval_client s with
      | Some wait_budget => poll_embedding wait_budget (nr_request_id q) q p
      | None => poll_channel (sv_vector_retriever s) VectorChannel q p
      end;
  p ← poll_channel (sv_exact_retriever s) ExactChannel q p;
  poll_channel (sv_structured_retriever s) StructuredChannel q p.

(** ** Hydrating what was found *)

Definition reference_of (c : RetrievalCandidate) : RevisionRef := mkRevisionRef (rt_memory_id c) (rt_revision_id c).

(** The first occurrence of each reference: the filter on [seen_references.insert]. *)
Fixpoint first_references (seen : list RevisionRef) (cs : list RetrievalCandidate) : list RevisionRef :=
  match cs with
  | [] => []
  | c :: rest =>
      if any (fun q => q == reference_of c) seen then first_references seen rest
      else reference_of c :: first_references (reference_of c :: seen) rest
  end.

Fixpoint find_revision (c : RetrievalCandidate) (revisions : list HydratedRevision) : option HydratedRevision :=
  match revisions with
  | [] => None
  | r :: rest =>
      if (hy_memory_id r == rt_memory_id c) && (hy_revision_id r == rt_revision_id c) then Some r else find_revision c rest
  end.

(** The candidate with what the revision says in place of what the channel said. *)
Definition hydrate_candidate (c : RetrievalCandidate) (r : HydratedRevision) : RetrievalCandidate :=
  mkRetrieved (rt_memory_id c) (rt_revision_id c) (rt_kind c) (hy_memory_status r) (hy_revision_number r) (hy_content r)
    (hy_classification r) (hy_valid_from r) (hy_valid_until r) (hy_created_at r) (rt_source_generation c)
    (rt_corpus_generation_id c) (rt_score c) (rt_channel_rank c) (rt_channel c) (rt_explanation c) (rt_conflict_ids c).

Definition hydrate_channel (revisions : list HydratedRevision) (channel : list RetrievalCandidate) : list RetrievalCandidate :=
  omap (fun c => hydrate_candidate c <$> find_revision c revisions) channel.

(** ** Searching *)

Record RetrievalResult : Type := mkRetrievalResult {
  rs_run_id : RetrievalRunId;
  rs_workspace_id : WorkspaceId;
  rs_candidates : list RetrievalCandidate;
  rs_withheld : list WithheldRevision;
  rs_retrieval_policy_version : text;
  rs_degraded : bool;
  rs_degraded_channels : list text;
  rs_embedding_degradation : option DegradedRetrievalAttempt;
  rs_warnings : list text;
  rs_normalized : NormalizedRetrievalRequest K;
}.

(** The policy of a configured boundary. *)
Definition boundary (s : RetrievalService) : result ApplicationError (ClassificationPolicy * text) :=
  match sv_revision_hydrator s, sv_classification_policy s, sv_retrieval_policy_version s with
  | true, Some p, Some version => Ok (p, version)
  | _, _, _ => Err AppPolicy
  end.

Definition search (s : RetrievalService) (ctx : RequestContext) (q : RetrievalRequest) : RT RetrievalResult :=
  if rq_workspace_id q !== rc_workspace_id ctx then ilift (Err AppPolicy) else
  '(policy, version) ← ilift (boundary s);
  if is_some (sv_embedding_retrieval_client s) && sv_vector_retriever s then ilift (Err AppPolicy) else
  '(space_name, model) ← ilift (ok_or (sv_corpus_generation_resolver s) AppUnavailable);
  '(key, generation) ← icall (Resolve space_name model);
  request_id ← iask NewUuid;
  normalized ← ilift (normalize_with_pin request_id q key generation);
  start ← iask MonotonicMs;
  p ← poll_channels s normalized;
  if (po_successful p =? 0)%nat then ilift (Err AppUnavailable) else
  let degraded_channels := cr_channel <$> List.filter is_degraded (po_records p) in
  let references := first_references [] (concat (po_channels p)) in
  resolved ← icall (HydrateForRetrieval normalized references);
  let outcome := apply_policy resolved references policy in
  let channels := hydrate_channel (ho_revisions outcome) <$> po_channels p in
  fused ← ilift (reciprocal_rank_fusion_pinned channels (f32_of 60) (nr_corpus_generation_id normalized));
  let candidates := fst <$> rerank fused in
  stop ← iask MonotonicMs;
  let record :=
    with_policy_decision
      (from_request (nr_request_id normalized) normalized (po_records p) (length candidates) (as_i32 (stop - start)))
      version (ho_withheld outcome) in
  _ ← icall (RecordRun record);
  mret (mkRetrievalResult (nr_request_id normalized) (rq_workspace_id q) candidates (ho_withheld outcome) version
          (match degraded_channels with [] => false | _ => true end) degraded_channels (po_degradation p) (po_warnings p) normalized).

(** ** Building a context *)

Definition with_policy_version (p : ContextPack) (version : text) : ContextPack :=
  mkPack (pk_id p) (pk_retrieval_run_id p) (pk_workspace_id p) (pk_actor p) (pk_temporal_perspective p) (pk_token_budget p)
    (pk_used_tokens p) (pk_candidate_ids p) (pk_sections p) (pk_degraded p) (pk_degraded_channels p) (pk_warnings p)
    (pk_withheld p) (pk_conflict_warnings p) version (pk_authorization_checked p) (pk_created_at p).

Definition build_context (s : RetrievalService) (ctx : RequestContext) (res : RetrievalResult) (token_budget : Z) : RT ContextPack :=
  if rs_workspace_id res !== rc_workspace_id ctx then ilift (Err AppPolicy) else
  '(_, version) ← ilift (boundary s);
  pack_id ← iask NewUuid;
  id ← iask NewUuid;
  at_ ← iask WallClock;
  pack ← ilift (from_domain (build_with_temporal_perspective uuid_text token_budget id at_ (rs_workspace_id res) (rc_principal_id ctx)
                              (rs_run_id res) (nr_time_perspective (rs_normalized res)) (rs_candidates res)));
  pack ← ilift (from_domain (with_degradation (with_policy_version pack version) (rs_degraded_channels res) (rs_warnings res)));
  let pack := with_withholding pack (rs_withheld res) in
  _ ← icall (RecordContextPack pack_id (rs_run_id res) (rs_workspace_id res) token_budget (pk_used_tokens pack) (pk_sections pack)
               (pk_withheld pack));
  mret pack.

End Service.
Arguments RetrievalCall K : clear implicits.
Arguments RetrievalResult K : clear implicits.
