(* ===== verification/RetrievalServiceSpec.v ===== *)
(** * What the retrieval service promises

    Whatever its ports answer: what a search returns is content the hydrator resolved and the policy admits,
    of the pinned generation, and journalled before it is returned; what it found and does not return is
    reported; and how the pack that is journalled relates to the pack that is returned. *)

From Stdlib Require Import ZArith Lia String.
From stdpp Require Import base option numbers strings sets gmap sorting list.
From S2P Require Import Prelude Codec Text RunStatus RunDecider AgentRun RunReplay RunPorts ResourceScope Interaction Outbox.
From S2P Require Import MemorySharing Ranking Retrieval RetrievalSpec ContextPack ContextPackSpec RetrievalService.

(** ** What a trace shows *)

Section Traces.
Context {K : Type}.

(** What one answer contributes: candidates found, revisions resolved, generations pinned, runs and packs journalled. *)
Definition found_by (e : event (RetrievalCall K)) : list RetrievalCandidate :=
  match ev_call e in RetrievalCall _ R return R -> list RetrievalCandidate with
  | SearchChannel _ _ => fun r => match r with Ok results => results | Err _ => [] end
  | EmbeddingRetrieve _ _ _ => fun r => match r with Ok (RetrievalCompleted results) => results | _ => [] end
  | _ => fun _ => []
  end (ev_result e).

Definition resolved_by (e : event (RetrievalCall K)) : list HydratedRevision :=
  match ev_call e in RetrievalCall _ R return R -> list HydratedRevision with
  | HydrateForRetrieval _ _ => fun r => match r with Ok resolved => resolved | Err _ => [] end
  | _ => fun _ => []
  end (ev_result e).

Definition pinned_by (e : event (RetrievalCall K)) : list CorpusGenerationId :=
  match ev_call e in RetrievalCall _ R return R -> list CorpusGenerationId with
  | Resolve _ _ => fun r => match r with Ok (_, generation) => [generation] | Err _ => [] end
  | _ => fun _ => []
  end (ev_result e).

Definition journalled_by (e : event (RetrievalCall K)) : list RetrievalRunRecord :=
  match ev_call e in RetrievalCall _ R return R -> list RetrievalRunRecord with
  | RecordRun record => fun r => match r with Ok _ => [record] | Err _ => [] end
  | _ => fun _ => []
  end (ev_result e).

(** A stretch of a trace in which only candidates are found. *)
Definition only_finds (es : list (event (RetrievalCall K))) : Prop :=
  over resolved_by es = [] /\ over pinned_by es = [] /\ over journalled_by es = [].

Lemma only_finds_app a b : only_finds a -> only_finds b -> only_finds (a ++ b).
Proof. unfold only_finds. rewrite !over_app. by intros (-> & -> & ->) (-> & -> & ->). Qed.

(** ** Polling *)

Section Search.
Context (from_std : Z -> option Z).

(** What polling adds to [p]. *)
Definition polled_from (p : Polled) (es : list (event (RetrievalCall K))) (p' : Polled) : Prop :=
  concat (po_channels p') = concat (po_channels p) ++ over found_by es /\ only_finds es.

Lemma polled_from_trans p p' p'' es es' : polled_from p es p' -> polled_from p' es' p'' -> polled_from p (es ++ es') p''.
Proof.
  intros [H1 O1] [H2 O2]. split; [|by apply only_finds_app]. by rewrite H2, H1, over_app, app_assoc.
Qed.

Lemma concat_snoc {A} (l : list (list A)) x : concat (l ++ [x]) = concat l ++ x.
Proof. rewrite concat_app. simpl. by rewrite app_nil_r. Qed.

Lemma poll_channel_spec configured r (q : NormalizedRetrievalRequest K) p :
  succeeds (poll_channel configured r q p) (fun es p' => polled_from p es p').
Proof.
  unfold poll_channel. destruct configured; simpl.
  - apply succeeds_iask_bind. intros answer. apply succeeds_ret. split; [|done]. destruct answer as [results|e]; simpl; [|by rewrite app_nil_r].
    rewrite concat_snoc. unfold over. simpl. by rewrite app_nil_r.
  - apply succeeds_ret. split; [|done]. by rewrite over_nil, app_nil_r.
Qed.

Lemma poll_embedding_spec wait run (q : NormalizedRetrievalRequest K) p :
  succeeds (poll_embedding from_std wait run q p) (fun es p' => polled_from p es p').
Proof.
  unfold poll_embedding. apply succeeds_iask_bind. intros now. apply succeeds_ilift_bind. intros d _.
  apply succeeds_iask_bind. intros answer. apply succeeds_ret. split; [|done].
  destruct answer as [[results|attempt]|e]; unfold over; simpl; rewrite ?app_nil_r; [by rewrite concat_snoc|done|done].
Qed.

Lemma poll_channels_spec s (q : NormalizedRetrievalRequest K) :
  succeeds (poll_channels from_std s q) (fun es p => concat (po_channels p) = over found_by es /\ only_finds es).
Proof.
  assert (Hgoal : succeeds (poll_channels from_std s q) (polled_from (mkPolled [] [] [] 0 None))); [|exact Hgoal].
  unfold poll_channels. eapply succeeds_bind; [apply poll_channel_spec|]. intros es1 p1 H1.
  eapply succeeds_bind.
  { instantiate (1 := fun es p => polled_from p1 es p). destruct (sv_embedding_retrieval_client s);
      [apply poll_embedding_spec|apply poll_channel_spec]. }
  intros es2 p2 H2. eapply succeeds_bind; [apply poll_channel_spec|]. intros es3 p3 H3.
  intros es4 r Ht p4 ->. pose proof (poll_channel_spec _ _ _ _ _ _ Ht p4 eq_refl) as H4.
  eapply polled_from_trans; [exact H1|]. eapply polled_from_trans; [exact H2|]. by eapply polled_from_trans.
Qed.

(** ** Hydration *)

Lemma first_references_elem seen cs q :
  q ∈ first_references seen cs <-> (q ∉ seen) /\ exists c, c ∈ cs /\ q = reference_of c.
Proof.
  revert seen. induction cs as [|c cs IH]; intros seen; cbn [first_references]; [set_solver|].
  destruct (any _ seen) eqn:E.
  - apply any_elem in E as (q' & Hq & E). rewrite eqb_true in E. subst q'. rewrite IH. set_solver.
  - assert (Hn : reference_of c ∉ seen).
    { intros Hin. apply not_true_iff_false in E. apply E, any_elem. exists (reference_of c). split; [done|apply eqb_refl]. }
    rewrite elem_of_cons, IH, not_elem_of_cons. split.
    + intros [-> |[[? ?] (c' & ? & ?)]]; set_solver.
    + intros [Hq (c' & [-> |Hc]%elem_of_cons & ->)]; [by left|].
      destruct (base.decide (reference_of c' = reference_of c)) as [-> |Hne]; [by left|right]. set_solver.
Qed.

Lemma find_revision_Some c revisions r :
  find_revision c revisions = Some r -> r ∈ revisions /\ hy_memory_id r = rt_memory_id c /\ hy_revision_id r = rt_revision_id c.
Proof.
  induction revisions as [|x revisions IH]; simpl; [done|]. destruct (_ && _) eqn:E.
  - intros [= <-]. apply andb_prop in E as [E1 E2]. rewrite eqb_true in E1, E2. split_and!; [by left|done|done].
  - intros Hf. destruct (IH Hf) as (? & ? & ?). split_and!; [by right|done|done].
Qed.

Lemma find_revision_None c revisions :
  find_revision c revisions = None -> ~ exists r, r ∈ revisions /\ hy_memory_id r = rt_memory_id c /\ hy_revision_id r = rt_revision_id c.
Proof.
  induction revisions as [|x revisions IH]; simpl; [set_solver|]. destruct (_ && _) eqn:E; [done|].
  intros Hf (r & [-> |Hr]%elem_of_cons & H1 & H2); [|by apply IH; eauto]. apply andb_false_iff in E as [E|E];
    rewrite eqb_false in E; done.
Qed.

Lemma hydrate_channel_elem revisions channel c :
  c ∈ hydrate_channel revisions channel <-> exists c' r, c' ∈ channel /\ find_revision c' revisions = Some r /\ c = hydrate_candidate c' r.
Proof.
  unfold hydrate_channel. rewrite list_elem_of_omap. split.
  - intros (c' & Hc' & Hf). apply fmap_Some in Hf as (r & Hr & ->). eauto.
  - intros (c' & r & Hc' & Hr & ->). exists c'. by rewrite Hr.
Qed.

Lemma hydrated_elem revisions channels c :
  c ∈ concat (hydrate_channel revisions <$> channels) <->
  exists c' r, c' ∈ concat channels /\ find_revision c' revisions = Some r /\ c = hydrate_candidate c' r.
Proof.
  induction channels as [|channel channels IH]; simpl; [set_solver|]. rewrite elem_of_app, IH, hydrate_channel_elem.
  setoid_rewrite elem_of_app. naive_solver.
Qed.

(** ** A search that succeeded *)

(** What its trace and its result have to do with each other. *)
Definition searched (s : RetrievalService) (q : RetrievalRequest) (es : list (event (RetrievalCall K))) (res : RetrievalResult K) : Prop :=
  exists policy version generation channels fused record,
    let references := first_references [] (over found_by es) in
    let outcome := apply_policy (over resolved_by es) references policy in
    boundary s = Ok (policy, version) /\ over pinned_by es = [generation] /\ concat channels = over found_by es /\
    reciprocal_rank_fusion_pinned (hydrate_channel (ho_revisions outcome) <$> channels) (f32_of 60) generation = Ok fused /\
    rs_candidates res = fst <$> rerank fused /\ rs_withheld res = ho_withheld outcome /\
    over journalled_by es = [record] /\ jr_run_id record = rs_run_id res /\ jr_candidate_count record = length (rs_candidates res) /\
    jr_policy_decision record = Some (version, rs_withheld res).

Lemma normalize_with_pin_generation id q (key : K) generation n :
  normalize_with_pin id q key generation = Ok n -> nr_corpus_generation_id n = generation.
Proof. unfold normalize_with_pin. intros Hn. destruct (is_empty _); [done|]. by injection Hn as <-. Qed.

Lemma search_spec s ctx q : succeeds (search from_std s ctx q) (searched s q).
Proof.
  unfold search. destruct (rq_workspace_id q !== rc_workspace_id ctx); [by apply succeeds_ilift|].
  apply succeeds_ilift_bind. intros [policy version] Hb. destruct (_ && _); [by apply succeeds_ilift|].
  apply succeeds_ilift_bind. intros [space model] _. apply succeeds_icall_bind. intros [key generation].
  apply succeeds_iask_bind. intros id. apply succeeds_ilift_bind. intros n Hn. apply normalize_with_pin_generation in Hn.
  apply succeeds_iask_bind. intros start. eapply succeeds_bind; [apply poll_channels_spec|].
  intros es p (Hp & Ho1 & Ho2 & Ho3). destruct (_ =? 0)%nat; [by apply succeeds_ilift|].
  apply succeeds_icall_bind. intros resolved. apply succeeds_ilift_bind. intros fused Hf.
  apply succeeds_iask_bind. intros stop. apply succeeds_icall_bind. intros []. apply succeeds_ret. rewrite Hn in Hf.
  eexists policy, version, generation, (po_channels p), fused, _. cbn [rs_candidates rs_withheld rs_run_id].
  rewrite ?over_cons, !over_app, ?over_cons, !over_nil, Ho1, Ho2, Ho3.
  cbn [found_by resolved_by pinned_by journalled_by ev_call ev_result]. cbn [app]. rewrite !app_nil_r, <- Hp.
  split_and!; try done.
Qed.

Lemma pinned_fusion channels k generation fused :
  reciprocal_rank_fusion_pinned channels k generation = Ok fused ->
  fused = reciprocal_rank_fusion channels k /\ forall c, c ∈ concat channels -> rt_corpus_generation_id c = generation.
Proof.
  unfold reciprocal_rank_fusion_pinned. destruct (any _ _) eqn:E; [done|]. intros [= <-]. split; [done|]. intros c Hc.
  destruct (rt_corpus_generation_id c == generation) eqn:Eg; [by rewrite eqb_true in Eg|].
  apply not_true_iff_false in E. destruct E. apply any_elem. exists c. by rewrite Eg.
Qed.

(** A returned candidate is a hydrated candidate of a channel but for its score, its rank and its channel. *)
Lemma returned_elem channels k fused generation c :
  reciprocal_rank_fusion_pinned channels k generation = Ok fused -> c ∈ fst <$> rerank fused ->
  exists c', c' ∈ concat channels /\ c = with_score c' (rt_score c) (rt_channel_rank c) (rt_channel c).
Proof.
  intros [-> _]%pinned_fusion (r & -> & Hr)%list_elem_of_fmap. apply rerank_elem in Hr as (c1 & score & rank & Hc1 & ->).
  apply fusion_elem in Hc1 as (c' & Hc' & ->). by exists c'.
Qed.

Definition shows (c : RetrievalCandidate) (r : HydratedRevision) : Prop :=
  rt_memory_id c = hy_memory_id r /\ rt_revision_id c = hy_revision_id r /\ rt_revision_number c = hy_revision_number r /\
  rt_memory_status c = hy_memory_status r /\ rt_content c = hy_content r /\ rt_classification c = hy_classification r /\
  rt_valid_from c = hy_valid_from r /\ rt_valid_until c = hy_valid_until r.

(** The candidates of a search show admitted revisions. *)
Lemma returned_shows policy resolved references channels k generation fused c :
  reciprocal_rank_fusion_pinned (hydrate_channel (ho_revisions (apply_policy resolved references policy)) <$> channels) k generation
    = Ok fused ->
  c ∈ fst <$> rerank fused ->
  rt_corpus_generation_id c = generation /\
  exists r, r ∈ resolved /\ admits policy (hy_classification r) = true /\ shows c r.
Proof.
  intros Hf Hin. destruct (returned_elem _ _ _ _ _ Hf Hin) as (c' & Hc' & Heq).
  destruct (pinned_fusion _ _ _ _ Hf) as [_ Hg]. split; [rewrite Heq; by apply (Hg c')|].
  apply hydrated_elem in Hc' as (c0 & r & Hc0 & Hr & ->). apply find_revision_Some in Hr as (Hr & Hm & Hv).
  apply (hydration_policy resolved) in Hr as [Hr Ha]. exists r. split_and!; [done|done|]. rewrite Heq. unfold shows. simpl.
  by rewrite Hm, Hv.
Qed.

Lemma search_result_shown s ctx q es res :
  trace_of (search from_std s ctx q) es (Some (Ok res)) ->
  exists policy version, boundary s = Ok (policy, version) /\
    forall c, c ∈ rs_candidates res -> exists r, r ∈ over resolved_by es /\ admits policy (hy_classification r) = true /\ shows c r.
Proof.
  intros Ht. destruct (search_spec s ctx q es _ Ht res eq_refl)
    as (policy & version & generation & channels & fused & record & Hb & _ & _ & Hf & Hres & _).
  exists policy, version. split; [done|]. intros c Hin. rewrite Hres in Hin. by eapply returned_shows.
Qed.

(** C6.  Whatever the ports answer, what a search returns was resolved by the hydrator and is admitted by the configured policy:
    each candidate shows exactly a resolved revision with the same identifiers, in the generation the search pinned, and no memory
    is returned twice; the run, with the policy's version and what it withheld, was journalled before it returned. *)
Theorem search_discloses_admitted_revisions s ctx q es res :
  trace_of (search from_std s ctx q) es (Some (Ok res)) ->
  exists policy version generation record,
    boundary s = Ok (policy, version) /\ over pinned_by es = [generation] /\ NoDup (rt_memory_id <$> rs_candidates res) /\
    (forall c, c ∈ rs_candidates res ->
       rt_corpus_generation_id c = generation /\
       exists r, r ∈ over resolved_by es /\ admits policy (hy_classification r) = true /\ shows c r) /\
    over journalled_by es = [record] /\ jr_run_id record = rs_run_id res /\
    jr_candidate_count record = length (rs_candidates res) /\ jr_policy_decision record = Some (version, rs_withheld res).
Proof.
  intros Ht. destruct (search_spec s ctx q es _ Ht res eq_refl)
    as (policy & version & generation & channels & fused & record & Hb & Hp & Hc & Hf & Hres & Hw & Hj & Hid & Hn & Hd).
  exists policy, version, generation, record. split_and!; try done.
  - rewrite Hres, <- list_fmap_compose. change (NoDup ((fun r : RankedCandidate => rt_memory_id r.1) <$> rerank fused)).
    rewrite rerank_ids. apply pinned_fusion in Hf as [-> _]. rewrite fusion_ids. apply NoDup_fst_map_to_list.
  - intros c Hin. rewrite Hres in Hin. by eapply returned_shows.
Qed.

(** C26.  When the hydrator answers only what it was asked for and a revision belongs to one memory, nothing a channel found is lost
    in silence: its memory is among the candidates returned, or its revision among those reported as withheld. *)
Theorem search_accounts_for_what_it_found s ctx q es res :
  trace_of (search from_std s ctx q) es (Some (Ok res)) ->
  (forall r, r ∈ over resolved_by es -> exists c, c ∈ over found_by es /\ hy_memory_id r = rt_memory_id c /\ hy_revision_id r = rt_revision_id c) ->
  (forall c c', c ∈ over found_by es -> c' ∈ over found_by es -> rt_revision_id c = rt_revision_id c' -> rt_memory_id c = rt_memory_id c') ->
  forall c, c ∈ over found_by es ->
    rt_memory_id c ∈ rt_memory_id <$> rs_candidates res \/ exists e, e ∈ rs_withheld res /\ wh_revision_id e = rt_revision_id c.
Proof.
  intros Ht Hasked Hone c Hin. destruct (search_spec s ctx q es _ Ht res eq_refl)
    as (policy & version & generation & channels & fused & record & _ & _ & Hc & Hf & Hres & Hw & _).
  set (references := first_references [] (over found_by es)) in *.
  assert (Href : reference_of c ∈ references) by (apply first_references_elem; split; [set_solver|eauto]).
  destruct (hydration_present (over resolved_by es) references policy _ Href) as [(r & Hr & Hid)|(e & He & Hid)]; simpl in Hid.
  2:{ right. exists e. by rewrite Hw. }
  left. pose proof Hr as Hr'. apply (hydration_policy (over resolved_by es)) in Hr' as [Hr' _].
  destruct (Hasked r Hr') as (c' & Hc' & Hm & Hv). assert (Hmem : rt_memory_id c = rt_memory_id c') by (apply Hone; congruence).
  destruct (find_revision c (ho_revisions (apply_policy (over resolved_by es) references policy))) as [r0|] eqn:E.
  2:{ exfalso. eapply find_revision_None; [exact E|]. exists r. split_and!; congruence. }
  rewrite Hres, <- list_fmap_compose. change (rt_memory_id c ∈ (fun r : RankedCandidate => rt_memory_id r.1) <$> rerank fused).
  rewrite rerank_ids. apply pinned_fusion in Hf as [-> _]. apply fusion_ids_elem.
  exists (hydrate_candidate c r0). split; [|done]. apply hydrated_elem. exists c, r0. by rewrite Hc.
Qed.

End Search.

(** ** Refusals *)

(** A search across workspaces, without a hydration boundary, with two authorities for its vectors or without a resolver is
    refused before any port is called. *)
Theorem refused_search_makes_no_call from_std s ctx q es o :
  rq_workspace_id q <> rc_workspace_id ctx \/ boundary s = Err AppPolicy \/
    (is_some (sv_embedding_retrieval_client s) && sv_vector_retriever s = true) \/ sv_corpus_generation_resolver s = None ->
  trace_of (search (K := K) from_std s ctx q) es o ->
  es = [] /\ (o = None \/ o = Some (Err AppPolicy) \/ o = Some (Err AppUnavailable)).
Proof.
  intros Hr. unfold search. destruct (rq_workspace_id q == rc_workspace_id ctx) eqn:E; simpl.
  2:{ intros [-> [->| ->]]; auto. }
  rewrite eqb_true in E. destruct (boundary s) as [[policy version]|e] eqn:Hb; simpl.
  2:{ assert (e = AppPolicy) as ->.
      { unfold boundary in Hb. destruct (sv_revision_hydrator s), (sv_classification_policy s), (sv_retrieval_policy_version s); by simplify_eq. }
      intros [-> [->| ->]]; auto. }
  destruct (is_some _ && _) eqn:Ha; [intros [-> [->| ->]]; auto|].
  destruct Hr as [Hr|[Hr|[Hr|Hr]]]; [done|done|done|]. rewrite Hr. simpl. intros [-> [->| ->]]; auto.
Qed.

(** ** Contexts *)

Section Context.
Context (uuid_text : Uuid -> text) (s : RetrievalService) (ctx : RequestContext) (res : RetrievalResult K) (budget : Z).

(** A context that was built: its calls, and the pack between them. *)
Definition contextualised (es : list (event (RetrievalCall K))) (pack : ContextPack) : Prop :=
  exists policy version journal_id id at_ built,
    boundary s = Ok (policy, version) /\ rs_workspace_id res = rc_workspace_id ctx /\
    build_with_temporal_perspective uuid_text budget id at_ (rs_workspace_id res) (rc_principal_id ctx) (rs_run_id res)
      (nr_time_perspective (rs_normalized res)) (rs_candidates res) = Ok built /\
    pk_id pack = pk_id built /\ pk_sections pack = pk_sections built /\ pk_used_tokens pack = pk_used_tokens built /\
    pk_withheld pack = rs_withheld res /\ pk_retrieval_policy_version pack = version /\
    pk_degraded_channels pack = rs_degraded_channels res /\ (pk_degraded pack = true <-> rs_degraded_channels res <> []) /\
    es = [mkEvent NewUuid journal_id; mkEvent NewUuid id; mkEvent WallClock at_;
          mkEvent (RecordContextPack journal_id (rs_run_id res) (rs_workspace_id res) budget (pk_used_tokens pack) (pk_sections pack)
                     (pk_withheld pack)) (Ok tt)].

Lemma build_context_spec : succeeds (build_context uuid_text s ctx res budget) contextualised.
Proof.
  unfold build_context. destruct (rs_workspace_id res == rc_workspace_id ctx) eqn:E; cbn [negb]; [|by apply succeeds_ilift].
  rewrite eqb_true in E. apply succeeds_ilift_bind. intros [policy version] Hb. apply succeeds_iask_bind. intros journal_id.
  apply succeeds_iask_bind. intros id. apply succeeds_iask_bind. intros at_.
  apply succeeds_ilift_bind. intros built Hbuilt%map_err_Ok. apply succeeds_ilift_bind. intros pack Hd%map_err_Ok.
  apply succeeds_icall_bind. intros []. apply succeeds_ret.
  unfold with_degradation in Hd. destruct (any _ _); [done|]. injection Hd as <-.
  exists policy, version, journal_id, id, at_, built. split_and!; try done. simpl. by destruct (rs_degraded_channels res).
Qed.

(** The context that is journalled has the sections, the withholding and the tokens of the pack that is returned, under the
    policy's version and naming every degraded channel; but it is journalled under another identifier than the pack's own. *)
Theorem context_journal_names_another_pack es pack :
  trace_of (build_context uuid_text s ctx res budget) es (Some (Ok pack)) ->
  exists journal_id at_,
    es = [mkEvent NewUuid journal_id; mkEvent NewUuid (pk_id pack); mkEvent WallClock at_;
          mkEvent (RecordContextPack journal_id (rs_run_id res) (rs_workspace_id res) budget (pk_used_tokens pack) (pk_sections pack)
                     (rs_withheld res)) (Ok tt)] /\
    pk_withheld pack = rs_withheld res /\ pk_degraded_channels pack = rs_degraded_channels res /\
    (pk_degraded pack = true <-> rs_degraded_channels res <> []).
Proof.
  intros Ht. destruct (build_context_spec es _ Ht pack eq_refl)
    as (policy & version & journal_id & id & at_ & built & _ & _ & Hbuilt & Hid & _ & _ & Hw & _ & Hd & Hdeg & ->).
  apply build_filled in Hbuilt as (_ & _ & _ & Hb). exists journal_id, at_. rewrite Hid, Hb, Hw. done.
Qed.

End Context.

(** C24.  A context built from a search cites only what the search's hydrator resolved and the policy admits: every item renders a
    candidate that shows such a revision, and carries its identifiers and its classification. *)
Theorem context_cites_admitted_revisions from_std uuid_text s ctx q es res budget es' pack :
  in_range u32_max budget -> trace_of (search (K := K) from_std s ctx q) es (Some (Ok res)) ->
  trace_of (build_context uuid_text s ctx res budget) es' (Some (Ok pack)) ->
  exists policy version, boundary s = Ok (policy, version) /\ pk_retrieval_policy_version pack = version /\
    forall i, i ∈ pack_items (pk_sections pack) ->
      exists c n r, r ∈ over resolved_by es /\ admits policy (hy_classification r) = true /\ shows c r /\
        rendering uuid_text c n (ci_representation i) (ci_rendered_text i) (ci_accounted_tokens i) /\
        ci_memory_id i = hy_memory_id r /\ ci_revision_id i = hy_revision_id r /\ ci_source_classification i = hy_classification r.
Proof.
  intros [Hbud _] Hs Hc. destruct (search_result_shown from_std s ctx q es res Hs) as (policy & version & Hb & Hshown).
  destruct (build_context_spec uuid_text s ctx res budget es' _ Hc pack eq_refl)
    as (policy' & version' & journal_id & id & at_ & built & Hb' & _ & Hbuilt & _ & Hsec & _ & _ & Hv & _).
  rewrite Hb in Hb'. injection Hb' as <- <-. exists policy, version. split_and!; [done|done|]. intros i Hi. rewrite Hsec in Hi.
  destruct (build_items _ _ _ _ _ _ _ _ _ _ i Hbud Hbuilt Hi) as (n & c & level & t & tokens & Hin & Hren & ->).
  destruct (Hshown c Hin) as (r & Hr & Ha & Hsh). exists c, n, r. pose proof Hsh as (H1 & H2 & _ & _ & _ & H3 & _). done.
Qed.

End Traces.

(** ** An example: two channels, one revision the policy does not admit *)

Module ServiceExample.

Definition policy : ClassificationPolicy := mkClassification {[text_of "internal"]} false.

Definition service : RetrievalService :=
  with_corpus_generation_resolver (with_hydration (with_channels true false false) policy (text_of "v3")) (text_of "space") (text_of "model").

Definition ctx : RequestContext := mkContext 1 2 5 9.

Definition request : RetrievalRequest :=
  mkRetrievalRequest (text_of "wind") SemanticRecall Current 5 [StatusActive] false [] 10 (Some 50%Z) false.

Definition candidate (memory : Z) (channel : text) : RetrievalCandidate :=
  mkRetrieved memory (memory + 10) Fact StatusActive 1 (text_of "stale text") None None None 0 1 7 (f32_of 1) 1 channel [] [].

Definition revision (memory : Z) (label : text) : HydratedRevision :=
  mkHydrated memory (memory + 10) 2 StatusActive (text_of "the wind is strong") (Some label) None None 3.

Definition answer (R : Type) (c : RetrievalCall unit R) : R :=
  match c in RetrievalCall _ R return R with
  | NewUuid => 77%Z
  | WallClock => 1000%Z
  | MonotonicMs => 4%Z
  | Resolve _ _ => Ok (tt, 7%Z)
  | SearchChannel TextChannel _ => Ok [candidate 1 (text_of "text"); candidate 2 (text_of "text")]
  | SearchChannel _ _ => Ok [candidate 2 (text_of "vector"); candidate 3 (text_of "vector")]
  | EmbeddingRetrieve _ _ _ => Err (mkPortError AppUnavailable [])
  | HydrateForRetrieval _ _ => Ok [revision 1 (text_of "internal"); revision 2 (text_of "restricted")]
  | RecordRun _ => Ok tt
  | RecordContextPack _ _ _ _ _ _ _ => Ok tt
  end.

Definition name (u : Uuid) : text := [(65 + u)%Z].

Definition run : list (event (RetrievalCall unit)) * result ApplicationError (RetrievalResult unit) :=
  run_trace answer (search Some service ctx request).

Lemma run_is_a_trace : trace_of (search Some service ctx request) run.1 (Some run.2).
Proof. exact (run_trace_of answer (search Some service ctx request)). Qed.

Definition searched_result : RetrievalResult unit :=
  match run.2 with Ok res => res | Err _ => mkRetrievalResult 0 0 [] [] [] false [] None [] (mkNormalized 0 [] SemanticRecall Current 0 [] [] 0 None false tt 0) end.

Lemma run_succeeded : run.2 = Ok searched_result.
Proof. vm_compute. reflexivity. Qed.

(** The restricted memory and the one the hydrator does not know are withheld, and the admitted one has the hydrated content. *)
Example searched_memories :
  ((fun c => (rt_memory_id c, rt_content c)) <$> rs_candidates searched_result, wh_memory_id <$> rs_withheld searched_result)
  = ([(1%Z, text_of "the wind is strong")], [2; 3]%Z).
Proof. vm_compute. reflexivity. Qed.

Lemma searched_trace : trace_of (search Some service ctx request) run.1 (Some (Ok searched_result)).
Proof. rewrite <- run_succeeded. apply run_is_a_trace. Qed.

Lemma search_discloses_admitted_revisions_at :
  NoDup (rt_memory_id <$> rs_candidates searched_result).
Proof.
  destruct (search_discloses_admitted_revisions Some service ctx request run.1 searched_result searched_trace)
    as (p & v & g & r & _ & _ & Hnd & _). exact Hnd.
Defined.

Definition found : list RetrievalCandidate :=
  [candidate 1 (text_of "text"); candidate 2 (text_of "text"); candidate 2 (text_of "vector"); candidate 3 (text_of "vector")].

Lemma run_found : over found_by run.1 = found.
Proof. vm_compute. reflexivity. Qed.

Lemma run_resolved : over resolved_by run.1 = [revision 1 (text_of "internal"); revision 2 (text_of "restricted")].
Proof. vm_compute. reflexivity. Qed.

Lemma found_one_memory c c' : c ∈ found -> c' ∈ found -> rt_revision_id c = rt_revision_id c' -> rt_memory_id c = rt_memory_id c'.
Proof.
  assert (Hf : Forall (fun c => rt_revision_id c = (rt_memory_id c + 10)%Z) found) by (repeat constructor).
  rewrite Forall_forall in Hf. intros H1%Hf H2%Hf Heq. rewrite H1, H2 in Heq. lia.
Qed.

Lemma search_accounts_for_what_it_found_at :
  3%Z ∈ rt_memory_id <$> rs_candidates searched_result \/ exists e, e ∈ rs_withheld searched_result /\ wh_revision_id e = 13%Z.
Proof.
  apply (search_accounts_for_what_it_found Some service ctx request run.1 searched_result searched_trace) with (c := candidate 3 (text_of "vector")).
  - rewrite run_resolved, run_found. intros r Hr. apply elem_of_cons in Hr as [->|Hr]; [|apply list_elem_of_singleton in Hr as ->].
    + exists (candidate 1 (text_of "text")). split; [by left|done].
    + exists (candidate 2 (text_of "text")). split; [by right; left|done].
  - rewrite run_found. exact found_one_memory.
  - rewrite run_found. do 3 right. by left.
Defined.

Lemma refused_search_makes_no_call_at :
  (run_trace answer (search Some (with_channels false false false) ctx request)).1 = [].
Proof.
  apply (refused_search_makes_no_call Some (with_channels false false false) ctx request _
           (Some (run_trace answer (search Some (with_channels false false false) ctx request)).2)).
  - right. left. reflexivity.
  - apply run_trace_of.
Defined.

Definition context_run : list (event (RetrievalCall unit)) * result ApplicationError ContextPack :=
  run_trace answer (build_context name service ctx searched_result 20).

Lemma context_trace pack : context_run.2 = Ok pack -> trace_of (build_context name service ctx searched_result 20) context_run.1 (Some (Ok pack)).
Proof. intros <-. exact (run_trace_of answer (build_context name service ctx searched_result 20)). Qed.

Lemma context_succeeds : is_ok context_run.2 = true.
Proof. vm_compute. reflexivity. Qed.

Lemma context_journal_names_another_pack_at : exists pack, context_run.2 = Ok pack /\ pk_withheld pack = rs_withheld searched_result.
Proof.
  destruct context_run.2 as [pack|e] eqn:E; [|exfalso; pose proof context_succeeds as Hok; rewrite E in Hok; discriminate Hok].
  destruct (context_journal_names_another_pack name service ctx searched_result 20 context_run.1 pack (context_trace pack E))
    as (j & t & _ & Hw & _). exists pack. exact (conj eq_refl Hw).
Defined.

Lemma context_cites_admitted_revisions_at :
  exists pack, context_run.2 = Ok pack /\ pk_retrieval_policy_version pack = text_of "v3".
Proof.
  destruct context_run.2 as [pack|e] eqn:E; [|exfalso; pose proof context_succeeds as Hok; rewrite E in Hok; discriminate Hok].
  destruct (context_cites_admitted_revisions Some name service ctx request run.1 searched_result 20 context_run.1 pack
              ltac:(split; vm_compute; discriminate) searched_trace (context_trace pack E)) as (p & v & Hb & Hv & _).
  exists pack. split; [reflexivity|]. rewrite Hv. vm_compute in Hb. injection Hb as _ <-. reflexivity.
Defined.

End ServiceExample.
