(* ===== verification/ModelStep.v ===== *)
(** * The governed model step

    [crates/vestrace-application/src/run/model_step.rs] with the data of [provider_dispatch.rs] and
    [provider_result.rs]: one run step executed through one provider attempt.  The executor asks where the
    previous attempt got to, loads the plan, has the dispatch admitted, calls the adapter once and
    publishes the result or records the failure.

    The repositories and the adapter are the calls of a program; a JSON object is the list of its fields. *)

From Stdlib Require Import ZArith Lia String.
From stdpp Require Import base option numbers strings list.
From S2P Require Import Prelude Codec Text RunStatus RunDecider AgentRun RunReplay RunPorts ResourceScope Capability ExternalEffects.
From S2P Require Import RunHandlers Interaction Outbox.

Abbreviation JsonObject := (list (text * text)) (only parsing).
Abbreviation ConnectionId := Uuid (only parsing).
Abbreviation ConnectionRevisionId := Uuid (only parsing).
Abbreviation ModelRequestEvidenceId := Uuid (only parsing).
Abbreviation PolicyDecisionId := Uuid (only parsing).

(** ** Data *)

Inductive ProviderError : Type :=
| ProviderTimeout | ProviderRateLimited | ProviderUnavailable (m : text) | CredentialRejected (m : text) | InvalidResponse (m : text).

Record AuditEvent : Type := mkAuditEvent {
  au_id : Uuid;
  au_workspace_id : WorkspaceId;
  au_principal_id : PrincipalId;
  au_action : text;
  au_resource_type : text;
  au_resource_id : Uuid;
  au_payload : JsonObject;
  au_created_at : Timestamp;
}.

Definition audit_event_new (id : Uuid) (ws : WorkspaceId) (principal : PrincipalId) (action resource_type : text) (resource_id : Uuid)
    (payload : JsonObject) (at_ : Timestamp) : result DomainError AuditEvent :=
  if is_empty (trim action) then Err InvalidArgument else
  if is_empty (trim resource_type) then Err InvalidArgument else
  Ok (mkAuditEvent id ws principal action resource_type resource_id payload at_).

Record IdempotencyRecord : Type := mkIdempotency {
  ip_idempotency_key : text;
  ip_workspace_id : WorkspaceId;
  ip_request_hash : text;
  ip_response_payload : option JsonObject;
  ip_status : text;
  ip_created_at : Timestamp;
  ip_expires_at : Timestamp;
}.

Inductive RunStepAttemptRecovery : Type :=
| ResumeReserved | ResumeAdmitted | AwaitDispatchDeadline | AdoptedUnknown | AlreadyUnknown
| ResumeResultPrepared (effect_id : ExternalEffectId) | AttemptPublished.

Record RunStepExecutionAttempt : Type := mkAttempt {
  at_id : Uuid;
  at_workspace_id : WorkspaceId;
  at_run_id : AgentRunId;
  at_step_id : RunStepId;
  at_model_binding_snapshot_id : Uuid;
  at_input_material_intent_id : Uuid;
  at_input_content_material_id : Uuid;
  at_input_material_key_id : Uuid;
  at_input_intent_nonce : Uuid;
  at_input_prepared_attachment_id : Uuid;
  at_external_effect_id : ExternalEffectId;
  at_model_request_evidence_id : ModelRequestEvidenceId;
}.

Record ProviderDispatchCredential : Type := mkCredential {
  dc_lease_id : Uuid;
  dc_credential_slot_id : Uuid;
  dc_credential_revision_id : Uuid;
  dc_credential_activation_guard_id : Uuid;
  dc_destination_authority : text;
  dc_auth_mode : text;
}.

Record RunStepDispatchPlan : Type := mkDispatchPlan {
  dp_attempt : RunStepExecutionAttempt;
  dp_intent : ExternalEffectIntent;
  dp_connection_id : ConnectionId;
  dp_connection_revision_id : ConnectionRevisionId;
  dp_credential : option ProviderDispatchCredential;
}.

(** The cause a run step has; the other causes belong to other callers. *)
Record RunStepCause : Type := mkCause { ca_run_id : AgentRunId; ca_step_id : RunStepId; ca_snapshot_id : Uuid }.

Record ProviderDispatchRequest : Type := mkDispatchRequest {
  pr_intent : ExternalEffectIntent;
  pr_model_request_evidence_id : ModelRequestEvidenceId;
  pr_connection_id : ConnectionId;
  pr_connection_revision_id : ConnectionRevisionId;
  pr_cause : RunStepCause;
  pr_admission_id : Uuid;
  pr_wait_id : Uuid;
  pr_concurrency_lease_id : Uuid;
  pr_dispatch_ttl_seconds : Z;
  pr_worker_id : WorkerId;
  pr_credential : option ProviderDispatchCredential;
  pr_audit : AuditEvent;
  pr_idempotency : option IdempotencyRecord;
  pr_outbox : list (OutboxMessage (list (text * text)));
}.

Record ProviderDispatchAuthority : Type := mkAuthority {
  da_effect_id : ExternalEffectId;
  da_authorization_id : PolicyDecisionId;
  da_connection_id : ConnectionId;
  da_connection_revision_id : ConnectionRevisionId;
  da_concurrency_lease_id : Uuid;
  da_credential_lease_id : option Uuid;
  da_dispatch_transition_id : Uuid;
  da_dispatch_expires_at : Timestamp;
}.

Definition RUN_STEP_DISPATCH_TTL_SECONDS : Z := 60.

Section Executor.
(** The types of the adapter: the kind of a connection, the credential it is given, the request and the
    completion, and what a completion leaves in a prepared result. *)
Context {Kind Destination Auth Request Chat Models Embeddings Evidence : Type}.
(** The text of an identifier. *)
Context `{!UuidText}.

Record ProviderDispatchTarget : Type := mkTarget { tg_kind : Kind; tg_runtime_base_url : text; tg_destination : Destination }.

(** [q1_request] is there for qualification probes only. *)
Inductive ProviderDispatchOutcome : Type :=
| DispatchPrepared (authority : ProviderDispatchAuthority) (target : ProviderDispatchTarget) (request : Request) (auth : Auth)
| DispatchConflict (wait_deadline_at : option Timestamp) (retry_after_seconds : option Z)
| DispatchDenied (authorization_id : PolicyDecisionId).

Inductive EffectiveModelResponse : Type :=
| ModelsList (r : Models)
| ChatCompletions (r : Chat)
| EmbeddingsResponse (r : Embeddings).

Record ProviderResultIdentities : Type := mkIdentities {
  ri_material_intent_id : Uuid;
  ri_content_material_id : Uuid;
  ri_material_key_id : Uuid;
  ri_intent_nonce : Uuid;
  ri_prepared_attachment_id : Uuid;
  ri_receipt_id : ExternalEffectReceiptId;
  ri_artifact_id : Uuid;
  ri_artifact_revision_id : Uuid;
  ri_model_execution_id : Uuid;
  ri_advance_work_item_id : WorkItemId;
}.

Record PrepareProviderResult : Type := mkPrepareResult {
  pp_effect_id : ExternalEffectId;
  pp_run_id : AgentRunId;
  pp_step_id : RunStepId;
  pp_identities : ProviderResultIdentities;
  pp_result : Chat;
}.

(** [size_class], [evidence] and [usage] are one component. *)
Record PreparedProviderResult : Type := mkPreparedResult {
  pd_preparation_id : Uuid;
  pd_effect_id : ExternalEffectId;
  pd_run_id : AgentRunId;
  pd_step_id : RunStepId;
  pd_identities : ProviderResultIdentities;
  pd_facts : Evidence;
}.

(** ** Ports *)

Inductive StepCall : Type -> Type :=
| StepUuid : StepCall Uuid
| StepNow : StepCall Timestamp
| RecoverAttempt (run_id : AgentRunId) (step_id : RunStepId) (now : Timestamp) : StepCall (result ApplicationError RunStepAttemptRecovery)
| LoadDispatchPlan (run_id : AgentRunId) (step_id : RunStepId) : StepCall (result ApplicationError RunStepDispatchPlan)
| PrepareDispatch (request : ProviderDispatchRequest) : StepCall (result ApplicationError ProviderDispatchOutcome)
| AdapterExecute (kind : Kind) (runtime_base_url : text) (auth : Auth) (request : Request)
    : StepCall (result ProviderError EffectiveModelResponse)
| CompletePostNetwork (authority : ProviderDispatchAuthority) (receipt : ExternalEffectReceipt) : StepCall (result ApplicationError unit)
| PrepareAfterDispatch (request : PrepareProviderResult) (authority : ProviderDispatchAuthority)
    : StepCall (result ApplicationError PreparedProviderResult)
| RecoverResultPrepared (effect_id : ExternalEffectId) : StepCall (result ApplicationError PreparedProviderResult)
| FinalizeResult (prepared : PreparedProviderResult) (binding_receipt : Uuid) : StepCall (result ApplicationError unit).

Abbreviation SM := (IM StepCall ApplicationError).

(** ** Failures *)

Definition provider_failure (e : ProviderError) : ApplicationError :=
  match e with
  | ProviderTimeout | ProviderRateLimited | ProviderUnavailable _ => AppUnavailable
  | CredentialRejected _ => AppInvalidConfiguration
  | InvalidResponse _ => AppInternal
  end.

Definition run_step_dispatch : list text := [text_of "run_step_dispatch"].

(** [AdapterDispatchResult::failed] and [unknown]. *)
Definition dispatch_failed (response_class : text) : AdapterDispatchResult :=
  mkDispatchResult OutcomeFailed response_class None None None run_step_dispatch.

Definition dispatch_unknown (response_class : text) : AdapterDispatchResult :=
  mkDispatchResult OutcomeUnknown response_class None None None run_step_dispatch.

Definition non_success_result (e : ProviderError) : AdapterDispatchResult :=
  match e with
  | ProviderTimeout => dispatch_unknown (text_of "provider_timeout")
  | ProviderRateLimited => dispatch_failed (text_of "provider_rate_limited")
  | ProviderUnavailable _ => dispatch_failed (text_of "provider_unavailable")
  | CredentialRejected _ => dispatch_failed (text_of "provider_credential_rejected")
  | InvalidResponse _ => dispatch_failed (text_of "provider_invalid_response")
  end.

(** [ObservedProviderAttempt::new]: its descriptor. *)
Definition observed_descriptor (i : ExternalEffectIntent) : result ApplicationError ExternalEffectAdapterDescriptor :=
  map_err (fun _ => AppPolicy)
    (descriptor_new (in_adapter i) None (in_delivery_semantics i) (in_idempotency_profile i) (in_reversibility i) Unsupported true false
       (in_required_capability i)).

Definition observed_receipt (i : ExternalEffectIntent) (authority : ProviderDispatchAuthority) (r : AdapterDispatchResult)
    (receipt_id : ExternalEffectReceiptId) (now : Timestamp) : result ApplicationError ExternalEffectReceipt :=
  let authorization :=
    mkAuthorization true (uuid_text (da_authorization_id authority)) (text_of "provider-dispatch-v1") (in_workspace_id i) (in_actor_id i)
      (in_required_capability i) (in_operation i) (in_target i) in
  authorized ← map_err (fun _ => AppPolicy) (authorize i authorization);
  descriptor ← observed_descriptor i;
  map_err (fun _ => AppPolicy) (dispatch authorized descriptor (Ok r) receipt_id (in_precondition_digest i) now).

(** ** Executing *)

Definition publish (prepared : PreparedProviderResult) : SM StepModelOutcome :=
  binding ← iask StepUuid;
  _ ← icall (FinalizeResult prepared binding);
  mret Published.

Definition result_identities : SM ProviderResultIdentities :=
  intent ← iask StepUuid;
  content ← iask StepUuid;
  key ← iask StepUuid;
  nonce ← iask StepUuid;
  attachment ← iask StepUuid;
  receipt ← iask StepUuid;
  artifact ← iask StepUuid;
  revision ← iask StepUuid;
  execution ← iask StepUuid;
  work_item ← iask StepUuid;
  mret (mkIdentities intent content key nonce attachment receipt artifact revision execution work_item).

(** The receipt of an attempt that did not succeed, with the identifier and the time it takes. *)
Definition receipt_of (i : ExternalEffectIntent) (authority : ProviderDispatchAuthority) (r : AdapterDispatchResult)
    : SM ExternalEffectReceipt :=
  now ← iask StepNow;
  id ← iask StepUuid;
  ilift (observed_receipt i authority r id now).

(** The rest of [execute], once the dispatch is prepared. *)
Definition dispatch_prepared (run_id : AgentRunId) (step_id : RunStepId) (plan : RunStepDispatchPlan) (authority : ProviderDispatchAuthority)
    (target : ProviderDispatchTarget) (request : Request) (auth : Auth) : SM StepModelOutcome :=
  response ← iask (AdapterExecute (tg_kind target) (tg_runtime_base_url target) auth request);
  match response with
  | Ok (ChatCompletions r) =>
      identities ← result_identities;
      prepared ← icall (PrepareAfterDispatch
        (mkPrepareResult (at_external_effect_id (dp_attempt plan)) run_id step_id identities r) authority);
      publish prepared
  | Ok _ =>
      receipt ← receipt_of (dp_intent plan) authority (dispatch_failed (text_of "provider_response_shape_mismatch"));
      _ ← icall (CompletePostNetwork authority receipt);
      ilift (Err AppInternal)
  | Err e =>
      receipt ← receipt_of (dp_intent plan) authority (non_success_result e);
      _ ← iask (CompletePostNetwork authority receipt);
      ilift (Err (provider_failure e))
  end.

(** The middle of [execute]: an attempt that may go on has its dispatch prepared. *)
Definition resume_dispatch (worker : WorkerId) (ctx : RequestContext) (run_id : AgentRunId) (step_id : RunStepId) : SM StepModelOutcome :=
  plan ← icall (LoadDispatchPlan run_id step_id);
  let attempt := dp_attempt plan in
  if (in_id (dp_intent plan) !== at_external_effect_id attempt) || (at_run_id attempt !== run_id) || (at_step_id attempt !== step_id)
  then ilift (Err AppConflict) else
  let effect_id := at_external_effect_id attempt in
  now ← iask StepNow;
  audit_id ← iask StepUuid;
  audit ← ilift (map_err (fun _ => AppPolicy)
    (audit_event_new audit_id (rc_workspace_id ctx) (rc_principal_id ctx) (text_of "provider.dispatch.prepared")
       (text_of "external_effect") effect_id
       [(text_of "phase", text_of "pre_dispatch"); (text_of "cause", text_of "run_step");
        (text_of "run_id", uuid_text run_id); (text_of "step_id", uuid_text step_id)] now));
  admission_id ← iask StepUuid;
  wait_id ← iask StepUuid;
  lease_id ← iask StepUuid;
  message_id ← iask StepUuid;
  outcome ← icall (PrepareDispatch
    (mkDispatchRequest (dp_intent plan) (at_model_request_evidence_id attempt) (dp_connection_id plan) (dp_connection_revision_id plan)
       (mkCause run_id step_id (at_model_binding_snapshot_id attempt)) admission_id wait_id lease_id RUN_STEP_DISPATCH_TTL_SECONDS
       worker (dp_credential plan) audit
       (Some (mkIdempotency (text_of "provider-dispatch:" ++ uuid_text effect_id) (rc_workspace_id ctx)
                (text_of "safe-provider-dispatch-tuple-v1") None (text_of "completed") now (now + seconds 3600)%Z))
       [mkMessage message_id (rc_workspace_id ctx) (text_of "provider.dispatch.prepared")
          [(text_of "effect_id", uuid_text effect_id)] now 0]));
  match outcome with
  | DispatchDenied authorization_id => mret (Denied authorization_id)
  | DispatchConflict _ retry_after_seconds => mret (Contended retry_after_seconds)
  | DispatchPrepared authority target request auth =>
      dispatch_prepared run_id step_id plan authority target request auth
  end.

Definition execute (worker : WorkerId) (ctx : RequestContext) (run_id : AgentRunId) (step_id : RunStepId) : SM StepModelOutcome :=
  asked_at ← iask StepNow;
  recovery ← icall (RecoverAttempt run_id step_id asked_at);
  match recovery with
  | AttemptPublished => mret Published
  | AdoptedUnknown | AlreadyUnknown => mret RecoveredUnknown
  | AwaitDispatchDeadline => mret (Contended None)
  | ResumeResultPrepared effect_id =>
      prepared ← icall (RecoverResultPrepared effect_id);
      publish prepared
  | ResumeReserved | ResumeAdmitted =>
      resume_dispatch worker ctx run_id step_id
  end.

End Executor.
