(* ===== verification/ModelStepSpec.v ===== *)
(** * What the governed model step promises

    Whatever its ports answer and wherever it is cut off: the adapter is called at most once, and only for an
    attempt that was found resumable and whose dispatch was admitted; a failed call is recorded; a step is
    reported published only when its result was finalized. *)

From Stdlib Require Import ZArith Lia String.
From stdpp Require Import base option numbers strings sets list.
From S2P Require Import Prelude Codec Text RunStatus RunDecider AgentRun RunReplay RunPorts ResourceScope Capability ExternalEffects.
From S2P Require Import RunHandlers Interaction Outbox ModelStep.

Section Spec.
Context {Kind Destination Auth Request Chat Models Embeddings Evidence : Type} `{!UuidText}.

Abbreviation Call := (StepCall (Kind := Kind) (Destination := Destination) (Auth := Auth) (Request := Request) (Chat := Chat)
  (Models := Models) (Embeddings := Embeddings) (Evidence := Evidence)).

(** What one answer shows. *)
Definition recovered_by (e : event Call) : list RunStepAttemptRecovery :=
  match ev_call e in StepCall R return R -> list RunStepAttemptRecovery with
  | RecoverAttempt _ _ _ => fun r => match r with Ok recovery => [recovery] | Err _ => [] end
  | _ => fun _ => []
  end (ev_result e).

Definition planned_by (e : event Call) : list RunStepDispatchPlan :=
  match ev_call e in StepCall R return R -> list RunStepDispatchPlan with
  | LoadDispatchPlan _ _ => fun r => match r with Ok plan => [plan] | Err _ => [] end
  | _ => fun _ => []
  end (ev_result e).

(** The dispatches that were admitted, with what they were admitted for. *)
Definition admitted_by (e : event Call)
    : list (ProviderDispatchRequest * ProviderDispatchAuthority * (ProviderDispatchTarget (Kind := Kind) (Destination := Destination)) * Request * Auth) :=
  match ev_call e in StepCall R return R -> list (_ * _ * _ * _ * _) with
  | PrepareDispatch q => fun r =>
      match r with Ok (DispatchPrepared authority target request auth) => [(q, authority, target, request, auth)] | _ => [] end
  | _ => fun _ => []
  end (ev_result e).

(** The calls of the adapter, and what it answered. *)
Definition called_by (e : event Call) : list (Kind * text * Request * Auth) :=
  match ev_call e in StepCall R return R -> list (Kind * text * Request * Auth) with
  | AdapterExecute kind url auth request => fun _ => [(kind, url, request, auth)]
  | _ => fun _ => []
  end (ev_result e).

Definition refused_by (e : event Call) : list ProviderError :=
  match ev_call e in StepCall R return R -> list ProviderError with
  | AdapterExecute _ _ _ _ => fun r => match r with Err error => [error] | Ok _ => [] end
  | _ => fun _ => []
  end (ev_result e).

(** The completions that were asked for, whatever came of them. *)
Definition completed_by (e : event Call) : list (ProviderDispatchAuthority * ExternalEffectReceipt) :=
  match ev_call e in StepCall R return R -> list (ProviderDispatchAuthority * ExternalEffectReceipt) with
  | CompletePostNetwork authority receipt => fun _ => [(authority, receipt)]
  | _ => fun _ => []
  end (ev_result e).

Definition finalized_by (e : event Call) : list (PreparedProviderResult (Evidence := Evidence)) :=
  match ev_call e in StepCall R return R -> list PreparedProviderResult with
  | FinalizeResult prepared _ => fun r => match r with Ok _ => [prepared] | Err _ => [] end
  | _ => fun _ => []
  end (ev_result e).

(** One more event of the trace, and its end. *)
Ltac show_trace H := cbn [trace_of iprog_bind mbind IM_bind icall iask ilift mret IM_ret publish result_identities receipt_of] in H.
Ltac next_event H r es := show_trace H; destruct H as [[-> ->]|(r & es & -> & H)].
Ltac skip_event H := let r := fresh "answer" in let es := fresh "es" in next_event H r es.
Ltac end_trace H := show_trace H; destruct H as [-> [->| ->]].

Section Attempt.
Context (worker : WorkerId) (ctx : RequestContext) (run_id : AgentRunId) (step_id : RunStepId).

Abbreviation attempt := (execute (Kind := Kind) (Destination := Destination) (Auth := Auth) (Request := Request) (Chat := Chat)
  (Models := Models) (Embeddings := Embeddings) (Evidence := Evidence) worker ctx run_id step_id).

Definition resumable (r : RunStepAttemptRecovery) : Prop := r = ResumeReserved \/ r = ResumeAdmitted.

(** A trace that never came to the adapter. *)
Definition uncalled (es : list (event Call)) (o : option (result ApplicationError StepModelOutcome)) : Prop :=
  over called_by es = [] /\ over completed_by es = [] /\ over refused_by es = [] /\
  (o = Some (Ok Published) -> over recovered_by es = [AttemptPublished] \/ exists prepared, over finalized_by es = [prepared]).

(** The part of a trace in which a dispatch is admitted. *)
Record admitted (before : list (event Call)) (plan : RunStepDispatchPlan) (q : ProviderDispatchRequest)
    (authority : ProviderDispatchAuthority) (target : ProviderDispatchTarget (Kind := Kind) (Destination := Destination))
    (request : Request) (auth : Auth) : Prop := {
  ad_planned : over planned_by before = [plan];
  ad_admitted : over admitted_by before = [(q, authority, target, request, auth)];
  ad_intent : pr_intent q = dp_intent plan;
  ad_cause : pr_cause q = mkCause run_id step_id (at_model_binding_snapshot_id (dp_attempt plan));
  ad_effect : in_id (dp_intent plan) = at_external_effect_id (dp_attempt plan);
  ad_run : at_run_id (dp_attempt plan) = run_id;
  ad_step : at_step_id (dp_attempt plan) = step_id;
  ad_uncalled : over called_by before = [] /\ over completed_by before = [] /\ over refused_by before = [] /\ over finalized_by before = [];
}.

Lemma execute_traces es o :
  trace_of attempt es o ->
  uncalled es o \/
  exists asked recovery es', resumable recovery /\
    es = [mkEvent StepNow asked; mkEvent (RecoverAttempt run_id step_id asked) (Ok recovery)] ++ es' /\
    trace_of (resume_dispatch worker ctx run_id step_id) es' o.
Proof.
  intros Ht. unfold execute in Ht. next_event Ht asked es1; [by left|]. next_event Ht recovered es2; [by left|].
  destruct recovered as [recovery|e]; [|left; by end_trace Ht].
  destruct recovery; try (left; end_trace Ht; split_and!; (done || (intros _; by left))).
  - right. exists asked, ResumeReserved, es2. split_and!; [by left|done|done].
  - right. exists asked, ResumeAdmitted, es2. split_and!; [by right|done|done].
  - left. next_event Ht prepared es3; [done|]. destruct prepared as [prepared|e]; [|by end_trace Ht].
    next_event Ht binding es4; [done|]. next_event Ht published es5; [done|].
    destruct published as [[]|e]; end_trace Ht; try done. split_and!; [done..|]. intros _. right. by exists prepared.
Qed.

(** A trace of the middle that never came to the adapter. *)
Definition unadmitted (es : list (event Call)) (o : option (result ApplicationError StepModelOutcome)) : Prop :=
  over called_by es = [] /\ over completed_by es = [] /\ over refused_by es = [] /\ o <> Some (Ok Published).

Lemma resume_traces es o :
  trace_of (resume_dispatch worker ctx run_id step_id) es o ->
  unadmitted es o \/
  exists before es' plan q authority target request auth,
    es = before ++ es' /\ over recovered_by before = [] /\ admitted before plan q authority target request auth /\
    trace_of (dispatch_prepared run_id step_id plan authority target request auth) es' o.
Proof.
  intros Ht. unfold resume_dispatch in Ht. next_event Ht loaded es1; [by left|].
  destruct loaded as [plan|e]; [|left; by end_trace Ht]. cbn beta zeta iota in Ht.
  destruct (_ || _) eqn:E; [left; by end_trace Ht|]. apply orb_false_elim in E as [[E1 E2]%orb_false_elim E3].
  apply negb_false_iff in E1, E2, E3. rewrite eqb_true in E1, E2, E3.
  next_event Ht now es2; [by left|]. next_event Ht audit_id es3; [by left|].
  destruct (audit_event_new _ _ _ _ _ _ _ _) as [audit|e]; [|left; by end_trace Ht]. cbn [map_err] in Ht.
  next_event Ht admission es4; [by left|]. next_event Ht wait es5; [by left|]. next_event Ht lease es6; [by left|].
  next_event Ht message es7; [by left|]. next_event Ht outcome es8; [by left|].
  destruct outcome as [[authority target request auth|? ?|?]|e]; [|left; by end_trace Ht..].
  right. eexists [_; _; _; _; _; _; _; _], es8, plan, _, authority, target, request, auth.
  split; [reflexivity|]. split; [reflexivity|]. split; [|exact Ht]. by split.
Qed.

(** ** After admission *)

(** A receipt can be made for the intent under the authority. *)
Definition receiptable (i : ExternalEffectIntent) (authority : ProviderDispatchAuthority) : bool :=
  negb (is_empty (trim (in_adapter i))) &&
  negb ((in_delivery_semantics i == EffectivelyOnce)
        && negb ((in_idempotency_profile i == ProviderKey) || (in_idempotency_profile i == Conditional))) &&
  match in_policy_decision_ref i with Some r => r == uuid_text (da_authorization_id authority) | None => true end.

Lemma observed_receipt_eq i authority r id now :
  observed_receipt i authority r id now =
  if receiptable i authority then Ok (from_dispatch id (in_id i) (in_adapter i) r now) else Err AppPolicy.
Proof.
  unfold receiptable, observed_receipt, authorize.
  cbn [ea_allowed ea_workspace_id ea_actor_id ea_capability ea_operation ea_resource_scope ea_decision_ref].
  rewrite !eqb_refl. cbn [negb orb].
  set (ref_ok := match in_policy_decision_ref i with Some r => r == uuid_text (da_authorization_id authority) | None => true end).
  assert (Hp : match in_policy_decision_ref i with Some e => e !== uuid_text (da_authorization_id authority) | None => false end = negb ref_ok).
  { subst ref_ok. by destruct (in_policy_decision_ref i). }
  rewrite Hp. destruct ref_ok; [|by rewrite andb_false_r]. rewrite andb_true_r.
  cbn [negb map_err mbind result_bind]. unfold observed_descriptor, descriptor_new.
  destruct (is_empty (trim (in_adapter i))); [reflexivity|].
  cbn [negb andb map_err mbind result_bind]. unfold dispatch, validate_dispatch, validate_adapter_descriptor.
  cbn [ds_name ds_delivery_semantics ds_idempotency_profile ds_reversibility ds_required_capability ds_supports_reconciliation ae_intent].
  destruct (_ && _); [reflexivity|]. rewrite !eqb_refl. reflexivity.
Qed.

Section Tail.
Context (plan : RunStepDispatchPlan) (authority : ProviderDispatchAuthority).
Context (target : ProviderDispatchTarget (Kind := Kind) (Destination := Destination)) (request : Request) (auth : Auth).

Abbreviation tail := (dispatch_prepared (Chat := Chat) (Models := Models) (Embeddings := Embeddings) (Evidence := Evidence)
  run_id step_id plan authority target request auth).

(** What follows on an answer of the adapter. *)
Definition follows (response : result ProviderError (EffectiveModelResponse (Chat := Chat) (Models := Models) (Embeddings := Embeddings)))
    (es : list (event Call)) (o : option (result ApplicationError StepModelOutcome)) : Prop :=
  match response with
  | Ok (ChatCompletions _) => o = Some (Ok Published) -> exists prepared, over finalized_by es = [prepared]
  | Ok _ => o <> Some (Ok Published)
  | Err e =>
      o <> Some (Ok Published) /\
      forall r, o = Some r ->
        if receiptable (dp_intent plan) authority
        then r = Err (provider_failure e) /\
          exists id now, over completed_by es =
            [(authority, from_dispatch id (in_id (dp_intent plan)) (in_adapter (dp_intent plan)) (non_success_result e) now)]
        else r = Err AppPolicy /\ over completed_by es = []
  end.

Lemma tail_traces es o :
  trace_of tail es o ->
  es = [] /\ o = None \/
  exists response es', es = mkEvent (AdapterExecute (tg_kind target) (tg_runtime_base_url target) auth request) response :: es' /\
    over called_by es' = [] /\ over refused_by es' = [] /\ follows response es' o.
Proof.
  intros Ht. unfold dispatch_prepared in Ht. next_event Ht response es1; [by left|right]. exists response, es1.
  split; [done|]. unfold follows. destruct response as [[m|c|m]|e].
  2:{ do 10 (skip_event Ht; [done|]). next_event Ht prepared es2; [done|]. destruct prepared as [prepared|e]; [|by end_trace Ht].
      next_event Ht binding es3; [done|]. next_event Ht published es4; [done|]. destruct published as [[]|e]; end_trace Ht; try done.
      split_and!; [done..|]. intros _. by exists prepared. }
  3:{ next_event Ht now es2; [done|]. next_event Ht receipt_id es3; [done|].
      rewrite observed_receipt_eq in Ht. destruct (receiptable _ _).
      - next_event Ht recorded es4; [done|]. end_trace Ht; [|done]. split_and!; [done..|]. intros r [= <-].
        split; [done|]. by exists receipt_id, now.
      - end_trace Ht; [|done]. split_and!; [done..|]. by intros r [= <-]. }
  all: next_event Ht now es2; [done|]; next_event Ht receipt_id es3; [done|];
    destruct (observed_receipt _ _ _ _ _) as [receipt|?]; [|by end_trace Ht];
    next_event Ht recorded es4; [done|]; destruct recorded; by end_trace Ht.
Qed.

End Tail.

(** ** Attempts *)

Abbreviation adapter_call target request auth :=
  (AdapterExecute (tg_kind target) (tg_runtime_base_url target) auth request).

(** C7.  Whatever the ports answer, and wherever the worker is cut off, the adapter is called at most once; it is called only after
    the attempt was found resumable and its dispatch was admitted for the planned effect of this run and step, and with exactly the
    destination, the request and the credential of that admission. *)
Theorem adapter_is_called_once es o :
  trace_of attempt es o ->
  over called_by es = [] \/
  exists before response after recovery plan q authority target request auth,
    es = before ++ mkEvent (adapter_call target request auth) response :: after /\
    over recovered_by before = [recovery] /\ resumable recovery /\ admitted before plan q authority target request auth /\
    over called_by after = [].
Proof.
  intros [[Hu _]|(asked & recovery & es1 & Hrec & -> & Ht)]%execute_traces; [by left|].
  apply resume_traces in Ht as [[Hu _]|(before & es2 & plan & q & authority & target & request & auth & -> & Hr & Had & Ht)]; [by left|].
  pose proof Had as [H1 H2 H3 H4 H5 H6 H7 (H8 & H9 & H10 & H11)].
  apply tail_traces in Ht as [[-> _]|(response & after & -> & Hc & _ & _)].
  - left. rewrite !over_app, H8. done.
  - right. eexists (_ :: _ :: before), response, after, recovery, plan, q, authority, target, request, auth.
    split; [reflexivity|]. split_and!; [|done| |done].
    + rewrite !over_cons, Hr. done.
    + split; rewrite ?over_cons, ?H1, ?H2, ?H8, ?H9, ?H10, ?H11; done.
Qed.

(** C35.  When the adapter reports a failure and the attempt comes to an end, then, for the admitted plan and authority: if a
    receipt can be made for the intent (its adapter is named, its delivery semantics and idempotency agree, its decision reference
    is the authority's), the attempt made exactly one completion call, under that authority, with a receipt that is unknown when
    the call timed out and failed otherwise, and returns the adapter's own error whatever that call answered; if no receipt can be
    made, it made no completion call at all and returns a policy error instead of the adapter's. *)
Theorem failed_attempt_is_recorded es r e :
  trace_of attempt es (Some r) -> over refused_by es = [e] ->
  exists before after plan q authority target request auth,
    es = before ++ after /\ over planned_by before = [plan] /\
    over admitted_by before = [(q, authority, target, request, auth)] /\ pr_intent q = dp_intent plan /\
    if receiptable (dp_intent plan) authority
    then r = Err (provider_failure e) /\
      exists receipt, over completed_by es = [(authority, receipt)] /\ xc_effect_id receipt = in_id (dp_intent plan) /\
        xc_outcome_status receipt =
          match e with ProviderTimeout => EffectLifecycleStatus.Unknown | _ => EffectLifecycleStatus.Failed end
    else r = Err AppPolicy /\ over completed_by es = [].
Proof.
  intros Ht Hr. apply execute_traces in Ht as [(_ & _ & Hu & _)|(asked & recovery & es1 & Hrec & -> & Ht)]; [by rewrite Hu in Hr|].
  change (over refused_by es1 = [e]) in Hr.
  apply resume_traces in Ht as [(_ & _ & Hu & _)|(before & es2 & plan & q & authority & target & request & auth & -> & _ & Had & Ht)];
    [by rewrite Hu in Hr|].
  destruct Had as [H1 H2 H3 H4 H5 H6 H7 (H8 & H9 & H10 & H11)]. rewrite over_app, H10 in Hr.
  apply tail_traces in Ht as [[-> _]|(response & after & -> & _ & Hno & Hf)]; [done|].
  rewrite over_cons, Hno in Hr. destruct response as [response|e']; [done|]. injection Hr as ->. destruct Hf as [_ Hf].
  specialize (Hf r eq_refl).
  eexists (_ :: _ :: before), _, plan, q, authority, target, request, auth. split; [reflexivity|].
  split; [by rewrite !over_cons, H1|]. split; [by rewrite !over_cons, H2|]. split; [done|].
  rewrite !over_app, H9, (over_cons _ _ after). destruct (receiptable _ _).
  - destruct Hf as (-> & id & now & Hc). split; [done|]. eexists. rewrite Hc. split; [reflexivity|split; [reflexivity|by destruct e]].
  - destruct Hf as [-> Hc]. split; [done|]. rewrite Hc. reflexivity.
Qed.

(** A step is reported published only when its attempt was found published, or when its prepared result was finalized. *)
Theorem published_means_finalized es :
  trace_of attempt es (Some (Ok Published)) ->
  over recovered_by es = [AttemptPublished] \/ exists prepared, over finalized_by es = [prepared].
Proof.
  intros [(_ & _ & _ & Hu)|(asked & recovery & es1 & Hrec & -> & Ht)]%execute_traces; [by apply Hu|right].
  apply resume_traces in Ht as [(_ & _ & _ & Hu)|(before & es2 & plan & q & authority & target & request & auth & -> & _ & Had & Ht)];
    [done|]. destruct Had as [_ _ _ _ _ _ _ (_ & _ & _ & H11)].
  apply tail_traces in Ht as [[_ ?]|(response & after & -> & _ & _ & Hf)]; [done|].
  assert (Hfin : exists prepared, over finalized_by after = [prepared]).
  { destruct response as [[m|c|m]|e]; [by destruct Hf|by apply Hf|by destruct Hf|by destruct Hf as [[] _]]. }
  destruct Hfin as [prepared Hfin]. exists prepared.
  change (over finalized_by (before ++ mkEvent (adapter_call target request auth) response :: after) = [prepared]).
  rewrite over_app, H11, over_cons, Hfin. reflexivity.
Qed.

End Attempt.
End Spec.

(** ** Two attempts: one that is answered and one that times out *)

Module StepExample.

#[local] Instance names : UuidText := fun u => [(65 + u)%Z].

Definition intent : ExternalEffectIntent :=
  mkIntent 30 (text_of "run/1") 5 9 (text_of "openai") (text_of "model.invoke") (text_of "model/1") (text_of "digest")
    (text_of "a completion") [mkPrecondition (text_of "state") (text_of "ready")] (text_of "pre") Low ReversibilityUnknown
    IdempotencyNone AtMostOnce Capability.ModelRead None None None 0.

Definition plan : RunStepDispatchPlan := mkDispatchPlan (mkAttempt 1 5 7 8 2 3 4 5 6 11 30 12) intent 13 14 None.

Definition authority : ProviderDispatchAuthority := mkAuthority 30 15 13 14 16 None 17 100.

Abbreviation Call := (StepCall (Kind := unit) (Destination := unit) (Auth := unit) (Request := text) (Chat := text) (Models := unit)
  (Embeddings := unit) (Evidence := unit)).

Definition answer (response : result ProviderError (EffectiveModelResponse (Chat := text) (Models := unit) (Embeddings := unit)))
    (R : Type) (c : Call R) : R :=
  match c in StepCall R return R with
  | StepUuid => 40%Z
  | StepNow => 50%Z
  | RecoverAttempt _ _ _ => Ok ResumeReserved
  | LoadDispatchPlan _ _ => Ok plan
  | PrepareDispatch _ => Ok (DispatchPrepared authority (mkTarget tt (text_of "https://model") tt) (text_of "prompt") tt)
  | AdapterExecute _ _ _ _ => response
  | CompletePostNetwork _ _ => Ok tt
  | PrepareAfterDispatch q _ => Ok (mkPreparedResult 60 (pp_effect_id q) (pp_run_id q) (pp_step_id q) (pp_identities q) tt)
  | RecoverResultPrepared _ => Err AppStorage
  | FinalizeResult _ _ => Ok tt
  end.

Definition step : IM Call ApplicationError StepModelOutcome := execute 1 (mkContext 1 2 5 9) 7 8.

Definition answered := run_trace (answer (Ok (ChatCompletions (text_of "hello")))) step.
Definition timed_out := run_trace (answer (Err ProviderTimeout)) step.

Example outcomes : answered.2 = Ok Published /\ timed_out.2 = Err AppUnavailable.
Proof. split; vm_compute; reflexivity. Qed.

Lemma answered_trace : trace_of step answered.1 (Some (Ok Published)).
Proof. rewrite <- (proj1 outcomes). exact (run_trace_of (answer (Ok (ChatCompletions (text_of "hello")))) step). Qed.

Lemma timed_out_trace : trace_of step timed_out.1 (Some (Err AppUnavailable)).
Proof. rewrite <- (proj2 outcomes). exact (run_trace_of (answer (Err ProviderTimeout)) step). Qed.

Lemma intent_receiptable : receiptable intent authority = true.
Proof. vm_compute. reflexivity. Qed.

(** The timeout is recorded as unknown. *)
Example timeout_recorded : (fun c => xc_outcome_status c.2) <$> over completed_by timed_out.1 = [EffectLifecycleStatus.Unknown].
Proof. vm_compute. reflexivity. Qed.

Lemma adapter_is_called_once_at :
  exists before call after, answered.1 = before ++ call :: after /\ over called_by after = [].
Proof.
  destruct (adapter_is_called_once 1 (mkContext 1 2 5 9) 7 8 answered.1 _ answered_trace)
    as [H|(before & response & after & r & p & q & a & t & req & auth & H1 & _ & _ & _ & H2)];
    [exfalso; revert H; vm_compute; discriminate|]. exists before. eexists. exists after. exact (conj H1 H2).
Defined.

Lemma failed_attempt_is_recorded_at :
  exists receipt, over completed_by timed_out.1 = [(authority, receipt)] /\ xc_outcome_status receipt = EffectLifecycleStatus.Unknown.
Proof.
  destruct (failed_attempt_is_recorded 1 (mkContext 1 2 5 9) 7 8 timed_out.1 (Err AppUnavailable) ProviderTimeout timed_out_trace)
    as (before & after & p & q & a & t & req & auth & H & Hp & Ha & Hq & Hc); [vm_compute; reflexivity|].
  destruct (receiptable _ _); [|exfalso; revert Hc; vm_compute; intros [? _]; discriminate].
  destruct Hc as (_ & receipt & Hc & _ & Ho). exists receipt. split; [|exact Ho].
  rewrite Hc. revert Hc. vm_compute. intros [= -> _]. reflexivity.
Defined.

Lemma published_means_finalized_at :
  over recovered_by answered.1 = [AttemptPublished] \/ exists prepared, over finalized_by answered.1 = [prepared].
Proof. exact (published_means_finalized 1 (mkContext 1 2 5 9) 7 8 answered.1 answered_trace). Defined.

End StepExample.
