(* ===== verification/Trust.v ===== *)
(** * Incidents, trust, classified data, keys and the audit chain

    From [crates/vestrace-domain/src/trust.rs]: the life of an incident, the trust in a scope, and the revalidation
    runs that both wait for; the classification of derived data, the policies that let data go somewhere,
    declassification, retention and holds, the verification of a deletion, export plans and bundles, the life of a key
    and the resolution of a secret; the digests of texts and the audit chain whose entries they link.

    A method on [&mut self] returns its result with the object it leaves.  Identifiers that are minted are
    arguments, as is the time a request for a secret is made.  [Sha256::digest] is the parameter of [Crypto]; UTF-8,
    the hexadecimal form and the separators are modelled.  [DateTime::to_rfc3339] is a parameter. *)

From Stdlib Require Import ZArith Lia String Strings.Byte.
From stdpp Require Import base option numbers strings pretty gmap sets list.
From S2P Require Import Prelude Codec Crypto Text RunStatus RunDecider AgentRun RunReplay RunPorts ResourceScope Capability ModelRouting.

Abbreviation IncidentId := Uuid (only parsing).
Abbreviation RevalidationRunId := Uuid (only parsing).

Definition required_text (value : text) : result DomainError text :=
  if is_empty (trim value) then Err InvalidArgument else Ok value.

Definition required_refs (values : list text) : result DomainError unit :=
  if match values with [] => true | _ => false end || any (fun v => is_empty (trim v)) values then Err InvalidArgument else Ok tt.

(** ** Incidents *)

Inductive IncidentType : Type :=
| CriticalInvariantFailure | MultiDomainImpact | RecoveryRequired | UnknownExternalEffect | TrustBoundaryViolation
| CryptoIntegrityFailure | RepairFailure | BroadCorruption.

Inductive IncidentSeverity : Type := SeverityLow | SeverityMedium | SeverityHigh | SeverityCritical.

Inductive IncidentStatus : Type :=
| IncidentOpen | IncidentContaining | IncidentContained | IncidentRecovering | IncidentRevalidating | IncidentResolved | IncidentClosed.

Inductive ContainmentState : Type := ContainmentNone | ContainmentActive | ContainmentReleased.
Inductive RecoveryState : Type := RecoveryNotStarted | RecoveryInProgress | RecoveryRecovered | RecoveryFailed.
Inductive RevalidationState : Type :=
| RevalidationNotStarted | RevalidationInProgress | RevalidationPassed | RevalidationFailed | RevalidationInconclusive.
Inductive TrustState : Type := Trusted | DegradedTrust | Untrusted | TrustRevalidating.

#[export] Instance IncidentStatus_eq_dec : EqDecision IncidentStatus.
Proof. solve_decision. Defined.
#[export] Instance ContainmentState_eq_dec : EqDecision ContainmentState.
Proof. solve_decision. Defined.
#[export] Instance RevalidationState_eq_dec : EqDecision RevalidationState.
Proof. solve_decision. Defined.
#[export] Instance TrustState_eq_dec : EqDecision TrustState.
Proof. solve_decision. Defined.

Inductive ContainmentActionKind : Type :=
| FreezeWrites | SuspendCapabilities | IsolateScope | PauseWorkers | StopExternalEffects | RevokeLeases | QuarantineResources
| ForceReadOnly.

Record ContainmentAction : Type := mkContainment {
  ct_kind : ContainmentActionKind;
  ct_scope_ref : text;
  ct_actor_id : PrincipalId;
  ct_reason : text;
  ct_policy_version : text;
  ct_at : Timestamp;
}.

Definition containment_action_new (kind : ContainmentActionKind) (scope_ref : text) (actor : PrincipalId) (reason policy_version : text)
    (at_ : Timestamp) : result DomainError ContainmentAction :=
  scope_ref ← required_text scope_ref;
  reason ← required_text reason;
  policy_version ← required_text policy_version;
  Ok (mkContainment kind scope_ref actor reason policy_version at_).

(** [HealthScope]. *)
Inductive HealthScope : Type :=
| WorkspaceScope (ws : WorkspaceId)
| ResourceHealth (ws : WorkspaceId) (resource_type resource_id : text).

#[export] Instance HealthScope_eq_dec : EqDecision HealthScope.
Proof. solve_decision. Defined.

(** ** Revalidation runs *)

Inductive RevalidationLevel : Type := LocalLevel | DomainLevel | WorkspaceLevel | InstallationLevel | FullTrust.
Inductive RevalidationResult : Type := ResultPassed | ResultPassedWithDegradation | ResultFailed | ResultInconclusive.

#[export] Instance RevalidationResult_eq_dec : EqDecision RevalidationResult.
Proof. solve_decision. Defined.

Record RevalidationCheck : Type := mkCheck { ck_name : text; ck_passed : bool; ck_evidence_refs : list text }.

Definition check_new (name : text) (passed : bool) (evidence_refs : list text) : result DomainError RevalidationCheck :=
  name ← required_text name;
  _ ← required_refs evidence_refs;
  Ok (mkCheck name passed evidence_refs).

Record RevalidationRun : Type := mkRevalidation {
  rv_id : RevalidationRunId;
  rv_incident_id : option IncidentId;
  rv_scope : HealthScope;
  rv_level : RevalidationLevel;
  rv_baseline_state_ref : text;
  rv_checks : list RevalidationCheck;
  rv_evidence_refs : list text;
  rv_result : RevalidationResult;
  rv_completed_at : Timestamp;
}.

Definition revalidation_complete (id : RevalidationRunId) (incident_id : option IncidentId) (scope : HealthScope)
    (level : RevalidationLevel) (baseline_state_ref : text) (checks : list RevalidationCheck) (evidence_refs : list text)
    (result_ : RevalidationResult) (completed_at : Timestamp) : result DomainError RevalidationRun :=
  match checks with
  | [] => Err InvalidArgument
  | _ =>
      _ ← required_refs evidence_refs;
      baseline_state_ref ← required_text baseline_state_ref;
      Ok (mkRevalidation id incident_id scope level baseline_state_ref checks evidence_refs result_ completed_at)
  end.

Definition revalidation_is_successful (r : RevalidationRun) : bool :=
  match rv_result r with ResultPassed | ResultPassedWithDegradation => true | _ => false end.

(** ** The life of an incident *)

Record Incident : Type := mkIncident {
  ic_id : IncidentId;
  ic_type : IncidentType;
  ic_severity : IncidentSeverity;
  ic_scope : HealthScope;
  ic_triggering_findings : list Uuid;
  ic_affected_resources : list text;
  ic_triggering_evidence : list text;
  ic_opened_at : Timestamp;
  ic_status : IncidentStatus;
  ic_containment_state : ContainmentState;
  ic_recovery_state : RecoveryState;
  ic_revalidation_state : RevalidationState;
  ic_containment_actions : list ContainmentAction;
  ic_revalidation_run_id : option RevalidationRunId;
  ic_disposition : option text;
  ic_closure_evidence : list text;
  ic_closed_by : option PrincipalId;
  ic_closed_at : option Timestamp;
}.

Definition incident_open (id : IncidentId) (type : IncidentType) (severity : IncidentSeverity) (scope : HealthScope)
    (findings : list Uuid) (resources evidence : list text) (opened_at : Timestamp) : result DomainError Incident :=
  if match findings, resources with [], [] => true | _, _ => false end then Err InvalidArgument else
  _ ← required_refs evidence;
  if any (fun v => is_empty (trim v)) resources then Err InvalidArgument else
  Ok (mkIncident id type severity scope findings resources evidence opened_at IncidentOpen ContainmentNone RecoveryNotStarted
        RevalidationNotStarted [] None None [] None None).

(** The fields the life of an incident changes. *)
Definition incident_set (i : Incident) (status : IncidentStatus) (containment : ContainmentState) (recovery : RecoveryState)
    (revalidation : RevalidationState) (actions : list ContainmentAction) (run : option RevalidationRunId) : Incident :=
  mkIncident (ic_id i) (ic_type i) (ic_severity i) (ic_scope i) (ic_triggering_findings i) (ic_affected_resources i)
    (ic_triggering_evidence i) (ic_opened_at i) status containment recovery revalidation actions run (ic_disposition i)
    (ic_closure_evidence i) (ic_closed_by i) (ic_closed_at i).

Definition begin_containment (i : Incident) (action : ContainmentAction) : result DomainError unit * Incident :=
  if ic_status i !== IncidentOpen then (Err PolicyViolation, i) else
  (Ok tt, incident_set i IncidentContaining ContainmentActive (ic_recovery_state i) (ic_revalidation_state i)
            (ic_containment_actions i ++ [action]) (ic_revalidation_run_id i)).

Definition mark_contained (i : Incident) : result DomainError unit * Incident :=
  if (ic_status i !== IncidentContaining) || (ic_containment_state i !== ContainmentActive) then (Err PolicyViolation, i) else
  (Ok tt, incident_set i IncidentContained (ic_containment_state i) (ic_recovery_state i) (ic_revalidation_state i)
            (ic_containment_actions i) (ic_revalidation_run_id i)).

Definition begin_recovery (i : Incident) : result DomainError unit * Incident :=
  if ic_status i !== IncidentContained then (Err PolicyViolation, i) else
  (Ok tt, incident_set i IncidentRecovering (ic_containment_state i) RecoveryInProgress (ic_revalidation_state i)
            (ic_containment_actions i) (ic_revalidation_run_id i)).

Definition incident_begin_revalidation (i : Incident) (run_id : RevalidationRunId) : result DomainError unit * Incident :=
  if ic_status i !== IncidentRecovering then (Err PolicyViolation, i) else
  (Ok tt, incident_set i IncidentRevalidating (ic_containment_state i) (ic_recovery_state i) RevalidationInProgress
            (ic_containment_actions i) (Some run_id)).

Definition state_of_result (r : RevalidationResult) : RevalidationState :=
  match r with
  | ResultPassed | ResultPassedWithDegradation => RevalidationPassed
  | ResultFailed => RevalidationFailed
  | ResultInconclusive => RevalidationInconclusive
  end.

Definition incident_apply_revalidation (i : Incident) (run : RevalidationRun) : result DomainError unit * Incident :=
  if (ic_status i !== IncidentRevalidating) || (ic_revalidation_run_id i !== Some (rv_id run)) || (ic_scope i !== rv_scope run)
  then (Err PolicyViolation, i) else
  (Ok tt, incident_set i (ic_status i) (ic_containment_state i) (ic_recovery_state i) (state_of_result (rv_result run))
            (ic_containment_actions i) (ic_revalidation_run_id i)).

Definition mark_resolved (i : Incident) : result DomainError unit * Incident :=
  if (ic_status i !== IncidentRevalidating) || (ic_revalidation_state i !== RevalidationPassed) then (Err PolicyViolation, i) else
  (Ok tt, incident_set i IncidentResolved (ic_containment_state i) RecoveryRecovered (ic_revalidation_state i)
            (ic_containment_actions i) (ic_revalidation_run_id i)).

Definition incident_close (i : Incident) (actor : PrincipalId) (disposition : text) (evidence_refs : list text) (at_ : Timestamp)
    : result DomainError unit * Incident :=
  if ic_status i !== IncidentResolved then (Err PolicyViolation, i) else
  match required_refs evidence_refs with
  | Err e => (Err e, i)
  | Ok _ =>
      match required_text disposition with
      | Err e => (Err e, i)
      | Ok disposition =>
          (Ok tt, mkIncident (ic_id i) (ic_type i) (ic_severity i) (ic_scope i) (ic_triggering_findings i) (ic_affected_resources i)
                    (ic_triggering_evidence i) (ic_opened_at i) IncidentClosed (ic_containment_state i) (ic_recovery_state i)
                    (ic_revalidation_state i) (ic_containment_actions i) (ic_revalidation_run_id i) (Some disposition) evidence_refs
                    (Some actor) (Some at_))
      end
  end.

(** ** Trust in a scope *)

Record TrustStateRecord : Type := mkTrust {
  ts_scope : HealthScope;
  ts_state : TrustState;
  ts_reason : text;
  ts_incident_id : option IncidentId;
  ts_updated_at : Timestamp;
  ts_revalidation_run_id : option RevalidationRunId;
}.

Definition trust_record_new (scope : HealthScope) (state : TrustState) (reason : text) (incident_id : option IncidentId)
    (updated_at : Timestamp) : result DomainError TrustStateRecord :=
  reason ← required_text reason;
  Ok (mkTrust scope state reason incident_id updated_at None).

Definition trust_from_incident (scope : HealthScope) (incident : IncidentId) (severity : IncidentSeverity) (at_ : Timestamp) : TrustStateRecord :=
  mkTrust scope (match severity with SeverityLow | SeverityMedium => DegradedTrust | SeverityHigh | SeverityCritical => Untrusted end)
    (text_of "incident requires explicit trust restoration") (Some incident) at_ None.

Definition trust_begin_revalidation (t : TrustStateRecord) (run_id : RevalidationRunId) (at_ : Timestamp)
    : result DomainError unit * TrustStateRecord :=
  if ts_state t == Trusted then (Err PolicyViolation, t) else
  (Ok tt, mkTrust (ts_scope t) TrustRevalidating (ts_reason t) (ts_incident_id t) at_ (Some run_id)).

Definition trust_of_result (r : RevalidationResult) : TrustState :=
  match r with
  | ResultPassed => Trusted
  | ResultPassedWithDegradation => DegradedTrust
  | ResultFailed => Untrusted
  | ResultInconclusive => TrustRevalidating
  end.

(** [Debug] of a result. *)
Definition result_debug (r : RevalidationResult) : text :=
  text_of match r with
          | ResultPassed => "Passed"
          | ResultPassedWithDegradation => "PassedWithDegradation"
          | ResultFailed => "Failed"
          | ResultInconclusive => "Inconclusive"
          end.

Definition trust_apply_revalidation (t : TrustStateRecord) (run : RevalidationRun) : result DomainError unit * TrustStateRecord :=
  if rv_scope run !== ts_scope t then (Err PolicyViolation, t) else
  if ts_revalidation_run_id t !== Some (rv_id run) then (Err PolicyViolation, t) else
  (Ok tt, mkTrust (ts_scope t) (trust_of_result (rv_result run)) (text_of "revalidation result: " ++ result_debug (rv_result run))
            (ts_incident_id t) (rv_completed_at run) (ts_revalidation_run_id t)).

(** ** Classification *)

#[export] Instance Sensitivity_eq_dec : EqDecision Sensitivity.
Proof. solve_decision. Defined.

Record DataClassification : Type := mkClassification {
  cl_sensitivity : Sensitivity;
  cl_categories : list text;
  cl_jurisdiction_tags : list text;
  cl_handling_requirements : list text;
  cl_source : text;
  cl_provenance : text;
}.

Definition classification_new (sensitivity : Sensitivity) (categories jurisdiction handling : list text) (source provenance : text)
    : result DomainError DataClassification :=
  source ← required_text source;
  provenance ← required_text provenance;
  Ok (mkClassification sensitivity categories jurisdiction handling source provenance).

Definition classification_source (sensitivity : Sensitivity) (source_ref provenance : text) : result DomainError DataClassification :=
  classification_new sensitivity [] [] [] source_ref provenance.

(** [effective.sensitivity = s]. *)
Definition with_sensitivity (c : DataClassification) (s : Sensitivity) : DataClassification :=
  mkClassification s (cl_categories c) (cl_jurisdiction_tags c) (cl_handling_requirements c) (cl_source c) (cl_provenance c).

Definition sensitivity_max (a b : Sensitivity) : Sensitivity := if (sensitivity_rank a <=? sensitivity_rank b)%Z then b else a.

(** [Iterator::max]. *)
Definition max_sensitivity (l : list Sensitivity) : option Sensitivity :=
  match l with [] => None | s :: l => Some (fold_left sensitivity_max l s) end.

Record ClassificationLineage : Type := mkLineage {
  ln_id : Uuid;
  ln_source_refs : list text;
  ln_source_classifications : list DataClassification;
  ln_effective : DataClassification;
  ln_policy_version : text;
  ln_derivation_ref : text;
}.

Definition lineage_derive (id : Uuid) (source_refs : list text) (sources : list DataClassification) (policy_version derivation_ref : text)
    : result DomainError ClassificationLineage :=
  _ ← required_refs source_refs;
  match sources with
  | [] => Err InvalidArgument
  | first :: _ =>
      let effective := with_sensitivity first (default Public (max_sensitivity (map cl_sensitivity sources))) in
      policy_version ← required_text policy_version;
      derivation_ref ← required_text derivation_ref;
      Ok (mkLineage id source_refs sources effective policy_version derivation_ref)
  end.

(** ** Policies *)

Inductive DataDestination : Type := ToLocalModel | ToRemoteProvider | ToLogOutput | ToAuditStore | ToExportBundle.

#[export] Instance DataDestination_eq_dec : EqDecision DataDestination.
Proof. solve_decision. Defined.

Definition destinations : list DataDestination := [ToLocalModel; ToRemoteProvider; ToLogOutput; ToAuditStore; ToExportBundle].

#[export] Instance DataDestination_finite : finite.Finite DataDestination.
Proof.
  refine {| finite.enum := destinations |}.
  - apply (bool_decide_unpack _). by vm_compute.
  - intros []; apply (bool_decide_unpack _); by vm_compute.
Defined.

Record DataPolicy : Type := mkDataPolicy {
  dp_id : Uuid;
  dp_version : text;
  dp_maximum_sensitivity : Sensitivity;
  dp_allowed_destinations : gset DataDestination;
  dp_required_capability : option Capability.t;
}.

Definition data_policy_new (id : Uuid) (version : text) (maximum : Sensitivity) (allowed : gset DataDestination)
    (required : option Capability.t) : result DomainError DataPolicy :=
  if bool_decide (allowed = ∅) then Err InvalidArgument else
  version ← required_text version;
  Ok (mkDataPolicy id version maximum allowed required).

Record DataPolicyDecision : Type := mkDataDecision { dd_allowed : bool; dd_policy_version : text; dd_reason : text }.

Definition decision_allowed (version : text) : DataPolicyDecision := mkDataDecision true version (text_of "allowed").
Definition decision_denied (version reason : text) : DataPolicyDecision := mkDataDecision false version reason.

Definition data_policy_evaluate (p : DataPolicy) (c : DataClassification) (destination : DataDestination) (capability_granted : bool)
    : DataPolicyDecision :=
  if (sensitivity_rank (dp_maximum_sensitivity p) <? sensitivity_rank (cl_sensitivity c))%Z
  then decision_denied (dp_version p) (text_of "classification exceeds policy ceiling") else
  if bool_decide (destination ∉ dp_allowed_destinations p) then decision_denied (dp_version p) (text_of "destination is not allowed") else
  if is_some (dp_required_capability p) && negb capability_granted
  then decision_denied (dp_version p) (text_of "required capability is absent") else
  decision_allowed (dp_version p).

Definition evaluate_model_boundary (p : DataPolicy) (c : DataClassification) (destination : DataDestination) (capability_granted : bool)
    : DataPolicyDecision :=
  data_policy_evaluate p c destination capability_granted.

Record DeclassificationDecision : Type := mkDeclassification {
  de_id : Uuid;
  de_target_ref : text;
  de_previous : Sensitivity;
  de_new : Sensitivity;
  de_transformation : text;
  de_evidence_refs : list text;
  de_policy_version : text;
  de_actor_id : PrincipalId;
  de_approver_id : PrincipalId;
  de_decided_at : Timestamp;
}.

Definition declassification_new (id : Uuid) (target_ref : text) (previous new_ : Sensitivity) (transformation : text)
    (evidence_refs : list text) (policy_version : text) (actor approver : PrincipalId) (decided_at : Timestamp)
    : result DomainError DeclassificationDecision :=
  if (sensitivity_rank previous <=? sensitivity_rank new_)%Z then Err PolicyViolation else
  _ ← required_refs evidence_refs;
  target_ref ← required_text target_ref;
  transformation ← required_text transformation;
  policy_version ← required_text policy_version;
  Ok (mkDeclassification id target_ref previous new_ transformation evidence_refs policy_version actor approver decided_at).

Definition declassification_apply `{!UuidText} (d : DeclassificationDecision) (c : DataClassification)
    : result DomainError DataClassification :=
  if cl_sensitivity c !== de_previous d then Err PolicyViolation else
  Ok (mkClassification (de_new d) (cl_categories c) (cl_jurisdiction_tags c) (cl_handling_requirements c) (cl_source c)
        (cl_provenance c ++ text_of ";declassified:" ++ uuid_text (de_id d))).

(** ** Retention and holds *)

Inductive RetentionTrigger : Type :=
| CreatedAt | LastUsedAt | ExecutionClosedAt | WorkspaceClosedAt | PolicyEvent | ExplicitDate.
Inductive DisposalMethod : Type := DisposeLogically | DisposePhysically | DisposeCrypto.
Inductive RetentionState : Type := RetentionActive | RetentionExpired | RetentionPendingDisposal | RetentionDisposed.

(** Durations in nanoseconds. *)
Record RetentionPolicy : Type := mkRetention {
  rp_minimum : option Z;
  rp_maximum : option Z;
  rp_trigger : RetentionTrigger;
  rp_disposal_method : DisposalMethod;
  rp_policy_version : text;
}.

Definition retention_new (minimum maximum : option Z) (trigger : RetentionTrigger) (disposal : DisposalMethod) (policy_version : text)
    : result DomainError RetentionPolicy :=
  if negb (is_some minimum) && negb (is_some maximum) then Err InvalidArgument else
  if match minimum, maximum with Some lo, Some hi => (hi <? lo)%Z | _, _ => false end then Err InvalidArgument else
  policy_version ← required_text policy_version;
  Ok (mkRetention minimum maximum trigger disposal policy_version).

(** [created_at + maximum] panics when it leaves the range of [chrono]: [None]. *)
Definition state_at `{!Chrono} (p : RetentionPolicy) (created_at at_ : Timestamp) : option RetentionState :=
  match rp_maximum p with
  | None => Some RetentionActive
  | Some maximum =>
      limit ← checked_add_signed created_at maximum;
      Some (if (limit <=? at_)%Z then RetentionExpired else RetentionActive)
  end.

Record DataHold : Type := mkDataHold {
  dh_id : Uuid;
  dh_scope : text;
  dh_reason : text;
  dh_authority : PrincipalId;
  dh_created_at : Timestamp;
  dh_expires_at : option Timestamp;
  dh_policy_ref : text;
}.

Definition hold_new (id : Uuid) (scope reason : text) (authority : PrincipalId) (policy_ref : text) (created_at : Timestamp)
    (expires_at : option Timestamp) : result DomainError DataHold :=
  if match expires_at with Some expires => (expires <? created_at)%Z | None => false end then Err InvalidArgument else
  scope ← required_text scope;
  reason ← required_text reason;
  policy_ref ← required_text policy_ref;
  Ok (mkDataHold id scope reason authority created_at expires_at policy_ref).

Definition hold_is_active (h : DataHold) (at_ : Timestamp) : bool :=
  (dh_created_at h <=? at_)%Z && match dh_expires_at h with None => true | Some expires => (at_ <=? expires)%Z end.

(** ** Deletion *)

Inductive DeletionSemantics : Type := LogicalDelete | PhysicalDelete | CryptoErasure.

Definition disposal_of_semantics (s : DeletionSemantics) : DisposalMethod :=
  match s with LogicalDelete => DisposeLogically | PhysicalDelete => DisposePhysically | CryptoErasure => DisposeCrypto end.

Record DeletionRequest : Type := mkDeletionRequest {
  dq_id : Uuid;
  dq_requester : PrincipalId;
  dq_authority : PrincipalId;
  dq_selector : text;
  dq_semantics : DeletionSemantics;
  dq_plan_ref : text;
  dq_execution_ref : text;
  dq_requested_at : Timestamp;
}.

Definition deletion_request_new (id : Uuid) (requester authority : PrincipalId) (selector : text) (semantics : DeletionSemantics)
    (plan_ref execution_ref : text) (requested_at : Timestamp) : result DomainError DeletionRequest :=
  selector ← required_text selector;
  plan_ref ← required_text plan_ref;
  execution_ref ← required_text execution_ref;
  Ok (mkDeletionRequest id requester authority selector semantics plan_ref execution_ref requested_at).

Record DeletionPlan : Type := mkDeletionPlan {
  dl_id : Uuid;
  dl_request_id : Uuid;
  dl_target_refs : list text;
  dl_dependency_refs : list text;
  dl_hold_ids : list Uuid;
  dl_created_at : Timestamp;
}.

Definition deletion_plan_new (id request_id : Uuid) (targets dependencies : list text) (hold_ids : list Uuid) (created_at : Timestamp)
    : result DomainError DeletionPlan :=
  _ ← required_refs targets;
  if any (fun v => is_empty (trim v)) dependencies then Err InvalidArgument else
  Ok (mkDeletionPlan id request_id targets dependencies hold_ids created_at).

Inductive DeletionVerificationOutcome : Type := DeletionVerified | DeletionIncomplete | BlockedByHold | DeletionInconclusive.

#[export] Instance DeletionVerificationOutcome_eq_dec : EqDecision DeletionVerificationOutcome.
Proof. solve_decision. Defined.

Record DeletionVerification : Type := mkDeletionVerification {
  dv_id : Uuid;
  dv_request_id : Uuid;
  dv_semantics : DeletionSemantics;
  dv_checked_refs : list text;
  dv_remaining_copies : list text;
  dv_evidence_refs : list text;
  dv_outcome : DeletionVerificationOutcome;
  dv_verified_at : Timestamp;
}.

Definition deletion_is_complete (v : DeletionVerification) : bool :=
  (dv_outcome v == DeletionVerified) && match dv_remaining_copies v with [] => true | _ => false end.

Definition verify_deletion (id : Uuid) (request : DeletionRequest) (plan : DeletionPlan) (holds : list DataHold)
    (checked_refs remaining_copies evidence_refs : list text) (verified_at : Timestamp) : result DomainError DeletionVerification :=
  if dq_id request !== dl_request_id plan then Err PolicyViolation else
  _ ← required_refs checked_refs;
  _ ← required_refs evidence_refs;
  if any (fun reference => negb (any (fun checked => checked == reference) checked_refs)) (dl_target_refs plan ++ dl_dependency_refs plan)
  then Err PolicyViolation else
  let outcome :=
    if any (fun h => hold_is_active h verified_at) holds then BlockedByHold
    else if match remaining_copies with [] => true | _ => false end then DeletionVerified else DeletionIncomplete in
  Ok (mkDeletionVerification id (dq_id request) (dq_semantics request) checked_refs remaining_copies evidence_refs outcome verified_at).

(** ** Export *)

Record DataExportPlan : Type := mkExportPlan {
  ep_id : Uuid;
  ep_workspace_id : WorkspaceId;
  ep_exact_scope : text;
  ep_purpose : text;
  ep_recipient : text;
  ep_classification : DataClassification;
  ep_object_revisions : list text;
  ep_redaction_refs : list text;
  ep_format_schema : text;
  ep_encryption_key_ref : option text;
  ep_signing_key_ref : option text;
  ep_expires_at : option Timestamp;
  ep_policy_version : text;
  ep_required_capability : Capability.t;
  ep_created_at : Timestamp;
}.

Definition export_plan_new (id : Uuid) (workspace : WorkspaceId) (exact_scope purpose recipient : text) (classification : DataClassification)
    (object_revisions redaction_refs : list text) (format_schema : text) (encryption_key_ref signing_key_ref : option text)
    (expires_at : option Timestamp) (policy_version : text) (required_capability : Capability.t) (created_at : Timestamp)
    : result DomainError DataExportPlan :=
  _ ← required_refs object_revisions;
  if any (fun reference => is_empty (trim reference)) redaction_refs then Err InvalidArgument else
  exact_scope ← required_text exact_scope;
  purpose ← required_text purpose;
  recipient ← required_text recipient;
  format_schema ← required_text format_schema;
  policy_version ← required_text policy_version;
  Ok (mkExportPlan id workspace exact_scope purpose recipient classification object_revisions redaction_refs format_schema
        encryption_key_ref signing_key_ref expires_at policy_version required_capability created_at).

Record AuthorizedDataExport : Type := mkAuthorizedExport {
  ax_plan : DataExportPlan;
  ax_authorized_at : Timestamp;
  ax_policy_version : text;
}.

Definition export_authorize (plan : DataExportPlan) (policy : DataPolicy) (capability_granted : bool) (at_ : Timestamp)
    : result DomainError AuthorizedDataExport :=
  if match ep_expires_at plan with Some expires => (expires <? at_)%Z | None => false end then Err PolicyViolation else
  if negb (dd_allowed (data_policy_evaluate policy (ep_classification plan) ToExportBundle capability_granted)) then Err PolicyViolation else
  if dp_version policy !== ep_policy_version plan then Err PolicyViolation else
  Ok (mkAuthorizedExport plan at_ (dp_version policy)).

(** ** Keys *)

Inductive KeyPurpose : Type := KeyStorage | KeyExport | KeySigning | KeyFederation | KeyBackup | KeyForProvider.
Inductive KeyLifecycleState : Type := KeyActive | KeyRotating | KeyRetired | KeyRevoked | KeyDestroyed.

#[export] Instance KeyLifecycleState_eq_dec : EqDecision KeyLifecycleState.
Proof. solve_decision. Defined.

Record KeyReference : Type := mkKey {
  ky_id : Uuid;
  ky_provider : text;
  ky_key_id : text;
  ky_version : text;
  ky_purpose : KeyPurpose;
  ky_scope : text;
  ky_algorithm_suite : text;
  ky_lifecycle_state : KeyLifecycleState;
}.

Definition key_new (id : Uuid) (provider key_id version : text) (purpose : KeyPurpose) (scope algorithm_suite : text)
    : result DomainError KeyReference :=
  provider ← required_text provider;
  key_id ← required_text key_id;
  version ← required_text version;
  scope ← required_text scope;
  algorithm_suite ← required_text algorithm_suite;
  Ok (mkKey id provider key_id version purpose scope algorithm_suite KeyActive).

Definition key_set (k : KeyReference) (s : KeyLifecycleState) : KeyReference :=
  mkKey (ky_id k) (ky_provider k) (ky_key_id k) (ky_version k) (ky_purpose k) (ky_scope k) (ky_algorithm_suite k) s.

Definition key_is_usable (k : KeyReference) : bool :=
  match ky_lifecycle_state k with KeyActive | KeyRotating => true | _ => false end.

Definition begin_rotation (k : KeyReference) : result DomainError unit * KeyReference :=
  if ky_lifecycle_state k !== KeyActive then (Err PolicyViolation, k) else (Ok tt, key_set k KeyRotating).

Definition key_retire (k : KeyReference) : result DomainError unit * KeyReference :=
  if negb match ky_lifecycle_state k with KeyActive | KeyRotating => true | _ => false end then (Err PolicyViolation, k) else
  (Ok tt, key_set k KeyRetired).

Definition key_revoke (k : KeyReference) : result DomainError unit * KeyReference :=
  if negb match ky_lifecycle_state k with KeyActive | KeyRotating | KeyRetired => true | _ => false end then (Err PolicyViolation, k) else
  (Ok tt, key_set k KeyRevoked).

Definition key_destroy (k : KeyReference) : result DomainError unit * KeyReference :=
  if ky_lifecycle_state k !== KeyRevoked then (Err PolicyViolation, k) else (Ok tt, key_set k KeyDestroyed).

(** ** Secrets *)

(** [str::starts_with] and [str::contains] of a text. *)
Definition text_starts_with (t prefix : text) : bool := bool_decide (take (length prefix) t = prefix).

Fixpoint text_contains (t needle : text) : bool :=
  text_starts_with t needle || match t with [] => false | _ :: t => text_contains t needle end.

Record SecretRef : Type := mkSecretRef {
  sr_id : Uuid;
  sr_opaque_uri : text;
  sr_provider : text;
  sr_workspace_id : WorkspaceId;
  sr_purpose : text;
  sr_metadata : gmap text text;
  sr_version : option text;
}.

Definition secret_ref_new (id : Uuid) (uri provider : text) (workspace : WorkspaceId) (purpose : text) (metadata : gmap text text)
    (version : option text) : result DomainError SecretRef :=
  uri ← required_text uri;
  if negb (text_starts_with uri (text_of "secret://")) || text_contains uri (text_of "plaintext=") then Err InvalidArgument else
  provider ← required_text provider;
  purpose ← required_text purpose;
  Ok (mkSecretRef id uri provider workspace purpose metadata version).

(** [minted] is the identifier [new] makes before it is replaced. *)
Definition secret_ref_rehydrate (minted id : Uuid) (uri provider : text) (workspace : WorkspaceId) (purpose : text)
    (metadata : gmap text text) (version : option text) : result DomainError SecretRef :=
  r ← secret_ref_new minted uri provider workspace purpose metadata version;
  Ok (mkSecretRef id (sr_opaque_uri r) (sr_provider r) (sr_workspace_id r) (sr_purpose r) (sr_metadata r) (sr_version r)).

Record SecretResolutionRequest : Type := mkResolution {
  sq_workspace_id : WorkspaceId;
  sq_purpose : text;
  sq_authorization_ref : text;
  sq_issued_at : Timestamp;
}.

Record SecretLease : Type := mkSecretLease { sl_secret_ref_id : Uuid; sl_authorization_ref : text; sl_issued_at : Timestamp }.

Definition authorize_resolution (r : SecretRef) (q : SecretResolutionRequest) : result DomainError SecretLease :=
  if (sq_workspace_id q !== sr_workspace_id r) || (sq_purpose q !== sr_purpose r) then Err PolicyViolation else
  _ ← required_text (sq_authorization_ref q);
  Ok (mkSecretLease (sr_id r) (sq_authorization_ref q) (sq_issued_at q)).

(** ** Digests *)

(** [str::as_bytes]: the UTF-8 form of a scalar value and of a text. *)
Definition utf8_char (c : Z) : list Z :=
  if (c <? 128)%Z then [c]
  else if (c <? 2048)%Z then [192 + c / 64; 128 + c mod 64]%Z
  else if (c <? 65536)%Z then [224 + c / 4096; 128 + (c / 64) mod 64; 128 + c mod 64]%Z
  else [240 + c / 262144; 128 + (c / 4096) mod 64; 128 + (c / 64) mod 64; 128 + c mod 64]%Z.

Definition utf8 (t : text) : bytes := map byte_of_Z (concat (map utf8_char t)).

(** [format!("{:x}")] of a digest. *)
Definition hex_digit (n : Z) : Z := if (n <? 10)%Z then (48 + n)%Z else (87 + n)%Z.
Definition hex (b : bytes) : text :=
  concat (map (fun x => [hex_digit (Z_of_byte x / 16); hex_digit (Z_of_byte x mod 16)]) b).

(** The texts a hasher is fed, each followed by a zero byte, as one text: the zero byte is the UTF-8 form of the NUL
    character. *)
Definition framed (parts : list text) : text := concat (map (fun p => p ++ [0%Z]) parts).

Section Hashing.
Context {SHA : Sha256}.

Definition sha256_bytes (b : bytes) : text := text_of "sha256:" ++ hex (sha256 b).

Definition sha256_digest (parts : list text) : text := sha256_bytes (utf8 (framed parts)).

End Hashing.

(** ** Export bundles *)

Fixpoint text_join (separator : text) (l : list text) : text :=
  match l with
  | [] => []
  | [t] => t
  | t :: l => t ++ separator ++ text_join separator l
  end.

Record ExportBundle : Type := mkBundle {
  eb_id : Uuid;
  eb_manifest_digest : text;
  eb_schema : text;
  eb_object_revisions : list text;
  eb_provenance_refs : list text;
  eb_classification : DataClassification;
  eb_object_hashes : gmap text text;
  eb_signature : option text;
  eb_encryption_metadata : option text;
  eb_authority_transferred : bool;
  eb_created_at : Timestamp;
}.

Definition bundle_from_authorized {SHA : Sha256} (id : Uuid) (authorized : AuthorizedDataExport) (provenance_refs : list text)
    (object_hashes : gmap text text) (signature encryption_metadata : option text) (created_at : Timestamp)
    : result DomainError ExportBundle :=
  _ ← required_refs provenance_refs;
  if bool_decide (object_hashes = ∅) then Err InvalidArgument else
  let plan := ax_plan authorized in
  let manifest_digest :=
    sha256_digest [ep_exact_scope plan; ep_purpose plan; ep_recipient plan; ep_format_schema plan; ax_policy_version authorized;
                   text_join (text_of ",") (ep_object_revisions plan); text_join (text_of ",") provenance_refs] in
  Ok (mkBundle id manifest_digest (ep_format_schema plan) (ep_object_revisions plan) provenance_refs (ep_classification plan)
        object_hashes signature encryption_metadata false created_at).

(** ** The audit chain *)

(** [DateTime::to_rfc3339], which [parse_from_rfc3339] reads back. *)
Class Rfc3339 : Type := rfc3339 : Timestamp -> text.
Class Rfc3339Ok `{!Rfc3339} : Prop := rfc3339_inj : forall t t', rfc3339 t = rfc3339 t' -> t = t'.

Record AuditIntegrityEntry : Type := mkAudit {
  ai_sequence : Z;
  ai_workspace_id : WorkspaceId;
  ai_principal_id : PrincipalId;
  ai_action : text;
  ai_resource_ref : text;
  ai_content_digest : text;
  ai_previous_digest : text;
  ai_entry_digest : text;
  ai_recorded_at : Timestamp;
}.

#[export] Instance AuditIntegrityEntry_eq_dec : EqDecision AuditIntegrityEntry.
Proof. solve_decision. Defined.

Abbreviation AuditIntegrityChain := (list AuditIntegrityEntry) (only parsing).

Definition GENESIS : text := text_of "genesis".

Section Chain.
Context {SHA : Sha256} {UT : UuidText} {RF : Rfc3339}.

(** The texts [append] and [verify] digest. *)
Definition audit_parts (sequence : Z) (workspace : WorkspaceId) (principal : PrincipalId) (action resource content previous : text)
    (recorded_at : Timestamp) : list text :=
  [text_of (pretty sequence); uuid_text workspace; uuid_text principal; action; resource; content; previous; rfc3339 recorded_at].

(** The digest the next entry links to. *)
Definition chain_head (c : AuditIntegrityChain) : text := from_option ai_entry_digest GENESIS (last c).

Definition audit_append (c : AuditIntegrityChain) (workspace : WorkspaceId) (principal : PrincipalId) (action resource content : text)
    (recorded_at : Timestamp) : AuditIntegrityChain :=
  let sequence := (Z.of_nat (length c) + 1)%Z in
  let previous := chain_head c in
  let digest := sha256_digest (audit_parts sequence workspace principal action resource content previous recorded_at) in
  c ++ [mkAudit sequence workspace principal action resource content previous digest recorded_at].

Definition entry_parts (e : AuditIntegrityEntry) : list text :=
  audit_parts (ai_sequence e) (ai_workspace_id e) (ai_principal_id e) (ai_action e) (ai_resource_ref e) (ai_content_digest e)
    (ai_previous_digest e) (ai_recorded_at e).

(** The loop of [verify] from an index, [previous] the digest of the entry before. *)
Fixpoint audit_verify_from (index : nat) (previous : text) (entries : list AuditIntegrityEntry) : result DomainError unit :=
  match entries with
  | [] => Ok tt
  | e :: rest =>
      if (ai_sequence e !== (Z.of_nat index + 1)%Z) || (ai_previous_digest e !== previous) then Err PolicyViolation else
      if ai_entry_digest e !== sha256_digest (entry_parts e) then Err PolicyViolation else
      audit_verify_from (S index) (ai_entry_digest e) rest
  end.

Definition audit_verify (c : AuditIntegrityChain) : result DomainError unit := audit_verify_from 0 GENESIS c.

End Chain.
