(* ===== verification/TrustSpec.v ===== *)
(** * Incidents, trust, classified data and the audit chain: what they guarantee

    Sequences of operations on an incident and on the trust of a scope, refused ones included: what a closed incident
    has been through, where an incident can get stuck, and what gives trust back.  What the classification of derived
    data, a verified deletion, a retention policy and the life of a key promise.  That an appended audit chain
    verifies, that the digest of its last entry fixes all of it up to a collision of SHA-256, and what the separators
    leave open. *)

From Stdlib Require Import ZArith Lia String Strings.Byte.
From stdpp Require Import base option numbers strings pretty gmap sets list.
From S2P Require Import Prelude Codec Crypto Text RunStatus RunDecider AgentRun RunReplay RunPorts ResourceScope Capability ModelRouting Trust.

Lemma required_refs_ok l u : required_refs l = Ok u -> l <> [] /\ Forall (fun v => is_empty (trim v) = false) l.
Proof.
  unfold required_refs. case_match eqn:H; [done|]. intros _. apply orb_false_elim in H as [Hn Ha]. split; [by destruct l|by apply any_false].
Qed.

Lemma required_text_ok t u : required_text t = Ok u -> u = t /\ is_empty (trim t) = false.
Proof. unfold required_text. case_match; [done|]. by intros [= <-]. Qed.

(** ** Incidents *)

Inductive IncidentOp : Type :=
| OpContain (action : ContainmentAction)
| OpContained
| OpRecover
| OpRevalidate (run_id : RevalidationRunId)
| OpApply (run : RevalidationRun)
| OpResolve
| OpClose (actor : PrincipalId) (disposition : text) (evidence : list text) (at_ : Timestamp).

Definition incident_do (i : Incident) (op : IncidentOp) : result DomainError unit * Incident :=
  match op with
  | OpContain action => begin_containment i action
  | OpContained => mark_contained i
  | OpRecover => begin_recovery i
  | OpRevalidate run_id => incident_begin_revalidation i run_id
  | OpApply run => incident_apply_revalidation i run
  | OpResolve => mark_resolved i
  | OpClose actor disposition evidence at_ => incident_close i actor disposition evidence at_
  end.

Definition incident_run (i : Incident) (ops : list IncidentOp) : Incident := fold_left (fun i op => (incident_do i op).2) ops i.

(** The run that the last operation of a sequence applied, if it was accepted. *)
Definition accepted_run (i : Incident) (op : IncidentOp) : list RevalidationRun :=
  match op, (incident_do i op).1 with OpApply run, Ok _ => [run] | _, _ => [] end.

(** The runs that a sequence of operations applied. *)
Fixpoint accepted_runs (i : Incident) (ops : list IncidentOp) : list RevalidationRun :=
  match ops with
  | [] => []
  | op :: ops => accepted_run i op ++ accepted_runs (incident_do i op).2 ops
  end.

Lemma incident_run_snoc i ops op : incident_run i (ops ++ [op]) = (incident_do (incident_run i ops) op).2.
Proof. unfold incident_run. by rewrite fold_left_app. Qed.

Lemma accepted_runs_snoc i ops op : accepted_runs i (ops ++ [op]) = accepted_runs i ops ++ accepted_run (incident_run i ops) op.
Proof.
  revert i. induction ops as [|o ops IH]; intros i; simpl; [by rewrite app_nil_r|]. by rewrite IH, app_assoc.
Qed.

(** What an incident's fields say of the operations and runs accepted so far. *)
Definition containment_inv (i : Incident) (ops : list IncidentOp) : Prop :=
  match ic_status i with
  | IncidentOpen => ic_containment_actions i = []
  | _ => exists action, ic_containment_actions i = [action] /\ OpContain action ∈ ops /\ ic_containment_state i = ContainmentActive
  end.

Definition revalidation_inv (i : Incident) (ops : list IncidentOp) (runs : list RevalidationRun) : Prop :=
  match ic_status i with
  | IncidentOpen | IncidentContaining | IncidentContained | IncidentRecovering => runs = []
  | _ =>
      exists r, ic_revalidation_run_id i = Some r /\ OpRevalidate r ∈ ops /\
        match last runs with
        | None => ic_revalidation_state i = RevalidationInProgress
        | Some run => rv_id run = r /\ rv_scope run = ic_scope i /\ ic_revalidation_state i = state_of_result (rv_result run)
        end
  end.

Definition closing_inv (i : Incident) : Prop :=
  match ic_status i with
  | IncidentResolved => ic_revalidation_state i = RevalidationPassed /\ ic_recovery_state i = RecoveryRecovered
  | IncidentClosed =>
      ic_revalidation_state i = RevalidationPassed /\ ic_recovery_state i = RecoveryRecovered /\ ic_closure_evidence i <> [] /\
      is_Some (ic_disposition i) /\ is_Some (ic_closed_by i)
  | _ => True
  end.

(** What a sequence of operations preserves. *)
Record incident_inv (scope : HealthScope) (ops : list IncidentOp) (runs : list RevalidationRun) (i : Incident) : Prop := {
  iv_scope : ic_scope i = scope;
  iv_containment : containment_inv i ops;
  iv_revalidation : revalidation_inv i ops runs;
  iv_closing : closing_inv i;
}.

Lemma incident_inv_more scope ops runs i op : incident_inv scope ops runs i -> incident_inv scope (ops ++ [op]) runs i.
Proof.
  intros [Hs Hc Hr Hcl]. split; [done|..|done]; unfold containment_inv, revalidation_inv in *; case_match; naive_solver set_solver.
Qed.

(** Split on the guard of an operation: the refusal leaves what [same] says, the acceptance leaves its conditions. *)
Ltac accepted same :=
  match goal with |- context [if ?b then (Err _, _) else _] => destruct b eqn:Hguard; [exact same|] end;
  bool_hyps;
  match goal with H : ic_status ?i = _ |- _ => unfold containment_inv, revalidation_inv, closing_inv in *; rewrite H in * end.

Ltac says := split; unfold containment_inv, revalidation_inv, closing_inv; cbn -[last app].

(** Accepting an operation preserves what the fields say; a refusal changes nothing. *)
Lemma incident_do_inv scope ops runs i op :
  incident_inv scope ops runs i -> incident_inv scope (ops ++ [op]) (runs ++ accepted_run i op) (incident_do i op).2.
Proof.
  intros Hi. assert (incident_inv scope (ops ++ [op]) (runs ++ []) i) as Hsame by (rewrite app_nil_r; by apply incident_inv_more).
  destruct Hi as [Hs Hc Hr Hcl]. unfold accepted_run. destruct op; cbn [incident_do].
  - unfold begin_containment. accepted Hsame. says; [done| |by rewrite Hr|done]. exists action. rewrite Hc. set_solver.
  - unfold mark_contained. accepted Hsame. says; [done| |by rewrite Hr|done]. naive_solver set_solver.
  - unfold begin_recovery. accepted Hsame. says; [done| |by rewrite Hr|done]. naive_solver set_solver.
  - unfold incident_begin_revalidation. accepted Hsame. says; [done|naive_solver set_solver| |done].
    exists run_id. rewrite Hr. set_solver.
  - unfold incident_apply_revalidation. accepted Hsame. destruct Hr as (r & Hr & Hin & _).
    match goal with H : ic_status i = _ |- _ => says; rewrite ?H; [done|naive_solver set_solver| |done] end.
    exists r. rewrite last_snoc. split; [done|]. split; [set_solver|]. split; [congruence|]. split; [congruence|done].
  - unfold mark_resolved. accepted Hsame. rewrite app_nil_r. says; [done|naive_solver set_solver..|done].
  - unfold incident_close. accepted Hsame.
    destruct (required_refs evidence) as [u|] eqn:He; [|exact Hsame].
    destruct (required_text disposition) as [d|] eqn:Hd; [|exact Hsame].
    apply required_refs_ok in He as [He _]. rewrite app_nil_r. says; [done|naive_solver set_solver..].
Qed.

Lemma incident_run_inv id type severity scope findings resources evidence at_ i ops :
  incident_open id type severity scope findings resources evidence at_ = Ok i ->
  incident_inv scope ops (accepted_runs i ops) (incident_run i ops).
Proof.
  intros Ho. induction ops as [|op ops IH] using rev_ind.
  - unfold incident_open in Ho. case_match; [done|]. apply bind_Ok in Ho as (u & _ & Ho). case_match; [done|].
    injection Ho as <-. by split.
  - rewrite incident_run_snoc, accepted_runs_snoc. by apply incident_do_inv.
Qed.

(** C28.  An incident that reaches [Closed] by whatever operations were tried on it, in whatever order, was contained by
    one action, had a revalidation registered, and the last run accepted for it was that registered run, in the
    incident's scope, with a passing result; it is recovered, and carries a disposition, the closing actor and closure
    evidence. *)
Theorem closed_incident_was_governed id type severity scope findings resources evidence at_ i ops :
  incident_open id type severity scope findings resources evidence at_ = Ok i ->
  ic_status (incident_run i ops) = IncidentClosed ->
  exists action run,
    ic_containment_actions (incident_run i ops) = [action] /\ OpContain action ∈ ops /\
    OpRevalidate (rv_id run) ∈ ops /\ last (accepted_runs i ops) = Some run /\
    revalidation_is_successful run = true /\ rv_scope run = scope /\
    ic_revalidation_run_id (incident_run i ops) = Some (rv_id run) /\ ic_recovery_state (incident_run i ops) = RecoveryRecovered /\
    ic_closure_evidence (incident_run i ops) <> [] /\ is_Some (ic_disposition (incident_run i ops)) /\
    is_Some (ic_closed_by (incident_run i ops)).
Proof.
  intros Ho Hclosed. destruct (incident_run_inv _ _ _ _ _ _ _ _ _ ops Ho) as [Hs Hc Hr Hcl].
  unfold containment_inv, revalidation_inv, closing_inv in *. rewrite Hclosed in *.
  destruct Hc as (action & Ha & Hin & _), Hr as (r & Hr & Hrin & Hlast), Hcl as (Hp & Hrec & Hev & Hd & Hby).
  exists action. destruct (last (accepted_runs i ops)) as [run|]; [|congruence]. exists run. destruct Hlast as (<- & Hsc & Hst).
  assert (revalidation_is_successful run = true).
  { unfold revalidation_is_successful. rewrite Hst in Hp. by destruct (rv_result run). }
  repeat split; try done; congruence.
Qed.

(** A registered revalidation that does not pass strands its incident: as long as the runs applied under the
    registered identifier are unsuccessful, the incident stays in [Revalidating] whatever else is tried, because no
    operation leaves that state but resolution and no other run can be registered. *)
Theorem failed_revalidation_strands i ops :
  ic_status i = IncidentRevalidating -> ic_revalidation_state i <> RevalidationPassed ->
  (forall run, OpApply run ∈ ops -> ic_revalidation_run_id i = Some (rv_id run) -> revalidation_is_successful run = false) ->
  ic_status (incident_run i ops) = IncidentRevalidating /\ ic_revalidation_run_id (incident_run i ops) = ic_revalidation_run_id i.
Proof.
  intros Hst Hns Hf.
  enough (ic_status (incident_run i ops) = IncidentRevalidating /\ ic_revalidation_run_id (incident_run i ops) = ic_revalidation_run_id i /\
          ic_revalidation_state (incident_run i ops) <> RevalidationPassed) by tauto.
  induction ops as [|op ops IH] using rev_ind; [done|]. rewrite incident_run_snoc.
  destruct IH as (Hs & Hr & Hp); [intros run Hrun; apply Hf; set_solver|]. set (j := incident_run i ops) in *.
  destruct op; cbn [incident_do]; unfold begin_containment, mark_contained, begin_recovery, incident_begin_revalidation, mark_resolved,
    incident_close, incident_apply_revalidation; rewrite Hs; simpl.
  5: { case_match eqn:Hg; [done|]. bool_hyps. split; [done|]. split; [done|]. simpl.
       assert (revalidation_is_successful run = false) as Hun by (apply Hf; [set_solver|congruence]).
       unfold revalidation_is_successful in Hun. by destruct (rv_result run). }
  5: { by rewrite (proj2 (eqb_false _ _) Hp). }
  all: done.
Qed.

(** What each operation of a sequence answered. *)
Fixpoint incident_results (i : Incident) (ops : list IncidentOp) : list (result DomainError unit) :=
  match ops with
  | [] => []
  | op :: ops => (incident_do i op).1 :: incident_results (incident_do i op).2 ops
  end.

(** All of a sequence is accepted, and leaves an incident in the given status. *)
Definition completes (i : Incident) (ops : list IncidentOp) (s : IncidentStatus) : Prop :=
  incident_results i ops = repeat (Ok tt) (length ops) /\ ic_status (incident_run i ops) = s.

Lemma completes_cons i j op ops s : incident_do i op = (Ok tt, j) -> completes j ops s -> completes i (op :: ops) s.
Proof. intros H [Hr Hs]. unfold completes, incident_run. simpl. rewrite H. simpl. by rewrite Hr. Qed.

(** An incident can be closed: the operations in their order are all accepted on a freshly opened incident, when
    the run that is applied is the registered one, in scope and passing, and the closing carries evidence and a
    disposition. *)
Theorem incident_lifecycle_completes id type severity scope findings resources evidence at_ i action run actor disposition refs closed_at u d :
  incident_open id type severity scope findings resources evidence at_ = Ok i ->
  rv_scope run = scope -> revalidation_is_successful run = true ->
  required_refs refs = Ok u -> required_text disposition = Ok d ->
  completes i [OpContain action; OpContained; OpRecover; OpRevalidate (rv_id run); OpApply run; OpResolve;
               OpClose actor disposition refs closed_at] IncidentClosed.
Proof.
  intros Ho Hsc Hok Hrefs Hd. unfold incident_open in Ho. case_match; [done|]. apply bind_Ok in Ho as (? & _ & Ho). case_match; [done|].
  injection Ho as <-. subst scope.
  assert (state_of_result (rv_result run) = RevalidationPassed) as Hp.
  { unfold revalidation_is_successful in Hok. by destruct (rv_result run). }
  do 4 (eapply completes_cons; [reflexivity|]).
  eapply completes_cons. { simpl. unfold incident_apply_revalidation. simpl. by rewrite !eqb_refl. }
  eapply completes_cons. { simpl. unfold mark_resolved. simpl. by rewrite Hp. }
  eapply completes_cons. { simpl. unfold incident_close. simpl. by rewrite Hrefs, Hd. }
  done.
Qed.

(** ** Trust in a scope *)

Inductive TrustOp : Type :=
| TrustBegin (run_id : RevalidationRunId) (at_ : Timestamp)
| TrustApply (run : RevalidationRun).

Definition trust_do (t : TrustStateRecord) (op : TrustOp) : result DomainError unit * TrustStateRecord :=
  match op with
  | TrustBegin run_id at_ => trust_begin_revalidation t run_id at_
  | TrustApply run => trust_apply_revalidation t run
  end.

Definition trust_run (t : TrustStateRecord) (ops : list TrustOp) : TrustStateRecord := fold_left (fun t op => (trust_do t op).2) ops t.

(** What the record of a scope says of the operations on it. *)
Definition trust_inv (t : TrustStateRecord) (ops : list TrustOp) : Prop :=
  ts_scope (trust_run t ops) = ts_scope t /\
  (forall r, ts_revalidation_run_id (trust_run t ops) = Some r -> exists at_, TrustBegin r at_ ∈ ops) /\
  (ts_state (trust_run t ops) = Trusted ->
   exists pre run post at_, ops = pre ++ TrustApply run :: post /\ TrustBegin (rv_id run) at_ ∈ pre /\
     rv_result run = ResultPassed /\ rv_scope run = ts_scope t).

Lemma trust_inv_run t ops :
  ts_state t <> Trusted -> ts_revalidation_run_id t = None -> trust_inv t ops.
Proof.
  intros Hn Hr. induction ops as [|op ops (Hs & Hrid & Ht)] using rev_ind; [by unfold trust_inv; simpl; rewrite Hr|].
  assert (trust_run t (ops ++ [op]) = trust_run t ops -> trust_inv t (ops ++ [op])) as Hsame.
  { unfold trust_inv. intros ->. split; [done|]. split; [naive_solver set_solver|]. intros (pre & run & post & at_ & -> & Hrest)%Ht.
    exists pre, run, (post ++ [op]), at_. split; [by rewrite <-app_assoc|done]. }
  unfold trust_inv, trust_run in *. rewrite fold_left_app in *. simpl in *. fold (trust_run t ops) in *.
  destruct op as [r at_|run]; simpl in *; unfold trust_begin_revalidation, trust_apply_revalidation in *.
  - case_match; [by apply Hsame|]. simpl. split; [done|]. split; [|done]. intros r' [= <-]. set_solver.
  - case_match eqn:Hsc; [by apply Hsame|]. case_match eqn:Hid; [by apply Hsame|]. bool_hyps. simpl. split; [done|].
    destruct (Hrid _ Hid) as [at_ Hin]. split; [intros r' Hr'; destruct (Hrid _ Hr'); set_solver|].
    intros Hp. exists ops, run, [], at_. split; [done|]. split; [done|]. split; [by destruct (rv_result run)|congruence].
Qed.

(** Trust comes back only through the registered run: a scope that an incident made less than trusted is [Trusted]
    again only after a revalidation was begun and the very run it registered was applied, in that scope, with the
    result [Passed]; a degraded pass, a failure or a run of another scope never suffices. *)
Theorem trust_restored_by_registered_run scope incident severity at_ ops :
  ts_state (trust_run (trust_from_incident scope incident severity at_) ops) = Trusted ->
  exists pre run post begun, ops = pre ++ TrustApply run :: post /\ TrustBegin (rv_id run) begun ∈ pre /\
    rv_result run = ResultPassed /\ rv_scope run = scope.
Proof. apply trust_inv_run; [by destruct severity|done]. Qed.

(** ** Classified data *)

Lemma sensitivity_max_rank a b :
  sensitivity_rank (sensitivity_max a b) = Z.max (sensitivity_rank a) (sensitivity_rank b).
Proof. unfold sensitivity_max. destruct (Z.leb_spec (sensitivity_rank a) (sensitivity_rank b)); lia. Qed.

Lemma fold_sensitivity_max l s x : x ∈ s :: l -> (sensitivity_rank x <= sensitivity_rank (fold_left sensitivity_max l s))%Z.
Proof.
  revert s x. induction l as [|y l IH]; intros s x Hx; simpl; [set_solver by lia|].
  apply elem_of_cons in Hx as [->|[->|Hx]%elem_of_cons].
  1,2: etrans; [|apply IH, list_elem_of_here]; rewrite sensitivity_max_rank; lia.
  apply IH. by right.
Qed.

Lemma fold_sensitivity_in l s : fold_left sensitivity_max l s ∈ s :: l.
Proof.
  revert s. induction l as [|y l IH]; intros s; simpl; [set_solver|].
  assert (sensitivity_max s y = s \/ sensitivity_max s y = y) as [->| ->] by (unfold sensitivity_max; case_match; auto).
  - destruct (proj1 (elem_of_cons _ _ _) (IH s)) as [->|?]; [by left|by do 2 right].
  - destruct (proj1 (elem_of_cons _ _ _) (IH y)) as [->|?]; [by right; left|by do 2 right].
Qed.

(** What a derivation gives: the classification of the first source at the highest sensitivity among all. *)
Lemma lineage_derive_ok id refs sources version derivation ln :
  lineage_derive id refs sources version derivation = Ok ln ->
  ln_source_classifications ln = sources /\
  cl_sensitivity (ln_effective ln) ∈ map cl_sensitivity sources /\
  (forall c, c ∈ sources -> (sensitivity_rank (cl_sensitivity c) <= sensitivity_rank (cl_sensitivity (ln_effective ln)))%Z).
Proof.
  unfold lineage_derive. intros (u & _ & H)%bind_Ok. destruct sources as [|first sources]; [done|].
  apply bind_Ok in H as (v & _ & H). apply bind_Ok in H as (d & _ & H). injection H as <-.
  split; [done|]. cbn -[fold_left]. split; [apply fold_sensitivity_in|].
  intros c Hc. apply fold_sensitivity_max. rewrite <-map_cons. by apply list_elem_of_fmap_2.
Qed.

(** [derived_from c d]: data of class [d] was made from data of class [c] in any number of derivations. *)
Inductive derived_from (c : DataClassification) : DataClassification -> Prop :=
| derived_self : derived_from c c
| derived_step d sources id refs version derivation ln :
    derived_from c d -> d ∈ sources -> lineage_derive id refs sources version derivation = Ok ln -> derived_from c (ln_effective ln).

Lemma derived_from_rank c d : derived_from c d -> (sensitivity_rank (cl_sensitivity c) <= sensitivity_rank (cl_sensitivity d))%Z.
Proof.
  induction 1 as [|d sources id refs version derivation ln _ IH Hd Hl]; [done|].
  apply lineage_derive_ok in Hl as (_ & _ & Hmax). etrans; [exact IH|by apply Hmax].
Qed.

Lemma evaluate_allows p c destination granted :
  dd_allowed (data_policy_evaluate p c destination granted) = true <->
  (sensitivity_rank (cl_sensitivity c) <= sensitivity_rank (dp_maximum_sensitivity p))%Z /\
  destination ∈ dp_allowed_destinations p /\ (is_some (dp_required_capability p) = true -> granted = true).
Proof.
  unfold data_policy_evaluate. destruct (Z.ltb_spec (sensitivity_rank (dp_maximum_sensitivity p)) (sensitivity_rank (cl_sensitivity c)));
    [simpl; split; [done|lia]|].
  case_bool_decide as Hd; [simpl; naive_solver|].
  destruct (is_some (dp_required_capability p)), granted; simpl; naive_solver.
Qed.

(** C29.  No laundering through derivation: whatever a policy lets out of derived data, it lets out of every datum that
    went into it, through any number of derivations; in particular an export authorised for derived data is one the
    same policy allows for each source. *)
Theorem derivation_never_launders c d policy granted :
  derived_from c d ->
  (forall destination, dd_allowed (data_policy_evaluate policy d destination granted) = true ->
     dd_allowed (data_policy_evaluate policy c destination granted) = true) /\
  (forall plan at_ ax, ep_classification plan = d -> export_authorize plan policy granted at_ = Ok ax ->
     dd_allowed (data_policy_evaluate policy c ToExportBundle granted) = true /\ ax_plan ax = plan /\
     ax_policy_version ax = ep_policy_version plan /\ dp_version policy = ep_policy_version plan /\
     (forall expires, ep_expires_at plan = Some expires -> (at_ <= expires)%Z)).
Proof.
  intros Hd. apply derived_from_rank in Hd.
  assert (forall destination, dd_allowed (data_policy_evaluate policy d destination granted) = true ->
     dd_allowed (data_policy_evaluate policy c destination granted) = true) as Hall.
  { intros destination. rewrite !evaluate_allows. intros (Hle & Hrest). split; [lia|done]. }
  split; [done|]. intros plan at_ ax <- H. unfold export_authorize in H.
  destruct (match ep_expires_at plan with Some e => _ | None => _ end) eqn:He; [done|].
  destruct (dd_allowed _) eqn:Ha in H; [|done]. simpl in H. case_match eqn:Hv; [done|]. bool_hyps. injection H as <-.
  split; [by apply Hall|]. split; [done|]. split; [done|]. split; [done|]. intros expires Hexp. rewrite Hexp in He. bool_hyps. lia.
Qed.

(** Only a decision lowers a classification, by what it says and from where it says, and leaves the rest. *)
Theorem declassification_is_exact `{!UuidText} id target previous new_ transformation evidence version actor approver at_ d c c' :
  declassification_new id target previous new_ transformation evidence version actor approver at_ = Ok d ->
  declassification_apply d c = Ok c' ->
  cl_sensitivity c = previous /\ cl_sensitivity c' = new_ /\ (sensitivity_rank new_ < sensitivity_rank previous)%Z /\
  cl_categories c' = cl_categories c /\ cl_jurisdiction_tags c' = cl_jurisdiction_tags c /\
  cl_handling_requirements c' = cl_handling_requirements c /\ cl_provenance c `prefix_of` cl_provenance c' /\ evidence <> [].
Proof.
  unfold declassification_new, declassification_apply. destruct (Z.leb_spec (sensitivity_rank previous) (sensitivity_rank new_)); [done|].
  intros (u & Hu & H1)%bind_Ok. apply required_refs_ok in Hu as [Hu _]. apply bind_Ok in H1 as (t & _ & H1).
  apply bind_Ok in H1 as (t' & _ & H1). apply bind_Ok in H1 as (v & _ & H1). injection H1 as <-. simpl.
  case_match eqn:He; [done|]. bool_hyps. intros [= <-]. simpl. repeat split; try done. by eexists.
Qed.

(** The plan's own capability plays no part in its authorisation: without the capability, a plan that requires one
    is authorised by a policy that requires none. *)
Theorem export_ignores_plan_capability plan policy at_ :
  ep_expires_at plan = None -> dp_version policy = ep_policy_version plan -> dp_required_capability policy = None ->
  ToExportBundle ∈ dp_allowed_destinations policy ->
  (sensitivity_rank (cl_sensitivity (ep_classification plan)) <= sensitivity_rank (dp_maximum_sensitivity policy))%Z ->
  export_authorize plan policy false at_ = Ok (mkAuthorizedExport plan at_ (ep_policy_version plan)).
Proof.
  intros He Hv Hr Hd Hs. unfold export_authorize. rewrite He.
  rewrite (proj2 (evaluate_allows policy (ep_classification plan) ToExportBundle false)) by (by rewrite Hr).
  simpl. by rewrite Hv, eqb_refl.
Qed.

(** ** Retention and deletion *)

(** Retention never expires early: what a policy that was accepted calls expired has been kept for its maximum,
    hence for its minimum too. *)
Theorem retention_never_early `{!Chrono, !ChronoOk} minimum maximum trigger disposal version p created at_ :
  retention_new minimum maximum trigger disposal version = Ok p -> state_at p created at_ = Some RetentionExpired ->
  (forall hi, maximum = Some hi -> (created + hi <= at_)%Z) /\ (forall lo, minimum = Some lo -> (created + lo <= at_)%Z) /\ is_Some maximum.
Proof.
  unfold retention_new. case_match; [done|]. destruct (match minimum with Some _ => _ | None => _ end) eqn:Hb; [done|].
  intros (v & _ & Hp)%bind_Ok. injection Hp as <-. unfold state_at. simpl. destruct maximum as [hi|]; [|done].
  destruct (checked_add_signed created hi) as [limit|] eqn:Hl; [|done]. simpl. apply checked_add_signed_spec in Hl as ->.
  destruct (Z.leb_spec (created + hi) at_); [|by intros [=]]. intros _. split; [by intros ? [= <-]|]. split; [|done].
  intros lo ->. bool_hyps. lia.
Qed.

(** A deletion verification says what it means, on every branch: it exists only for the plan of the request, with
    checked references that cover every planned target and dependency; it is [BlockedByHold] exactly when a hold is
    active at that time, complete exactly when none is and no copy remains, and otherwise [Incomplete]. *)
Theorem verify_deletion_exact id request plan holds checked remaining evidence at_ v :
  verify_deletion id request plan holds checked remaining evidence at_ = Ok v ->
  dv_request_id v = dl_request_id plan /\ dq_id request = dl_request_id plan /\ evidence <> [] /\
  (forall r, r ∈ dl_target_refs plan ++ dl_dependency_refs plan -> r ∈ dv_checked_refs v) /\
  (dv_outcome v = BlockedByHold <-> exists h, h ∈ holds /\ hold_is_active h at_ = true) /\
  (deletion_is_complete v = true <-> remaining = [] /\ forall h, h ∈ holds -> hold_is_active h at_ = false) /\
  (dv_outcome v = DeletionIncomplete <-> remaining <> [] /\ forall h, h ∈ holds -> hold_is_active h at_ = false).
Proof.
  unfold verify_deletion. case_match eqn:Hid; [done|]. bool_hyps. intros (u & _ & H)%bind_Ok. apply bind_Ok in H as (u' & Hev & H).
  apply required_refs_ok in Hev as [Hev _]. destruct (any _ (_ ++ _)) eqn:Hcov in H; [done|]. injection H as <-. simpl.
  split; [done|]. split; [done|]. split; [done|]. split.
  { intros r Hr. rewrite any_false, Forall_forall in Hcov. specialize (Hcov r Hr). bool_hyps. apply any_elem in Hcov as (x & Hx & He).
    bool_hyps. by subst. }
  unfold deletion_is_complete. simpl. destruct (any _ holds) eqn:Ha.
  - apply any_elem in Ha. destruct Ha as (h & Hh & Hact). simpl. split; [naive_solver|].
    split; split; [done|intros [_ Hn]; rewrite (Hn h Hh) in Hact; done|done|intros [_ Hn]; rewrite (Hn h Hh) in Hact; done].
  - rewrite any_false, Forall_forall in Ha. split.
    { split; [by destruct remaining|]. intros (h & Hh & Hact). rewrite (Ha h Hh) in Hact. done. }
    destruct remaining; simpl; split; split; try done; by intros [? _].
Qed.

(** ** Keys *)

Inductive KeyOp : Type := KeyRotate | KeyRetire | KeyRevoke | KeyDestroy.

Definition key_do (k : KeyReference) (op : KeyOp) : result DomainError unit * KeyReference :=
  match op with
  | KeyRotate => begin_rotation k
  | KeyRetire => key_retire k
  | KeyRevoke => key_revoke k
  | KeyDestroy => key_destroy k
  end.

Definition key_run (k : KeyReference) (ops : list KeyOp) : KeyReference := fold_left (fun k op => (key_do k op).2) ops k.

Definition key_rank (s : KeyLifecycleState) : Z :=
  match s with KeyActive => 0 | KeyRotating => 1 | KeyRetired => 2 | KeyRevoked => 3 | KeyDestroyed => 4 end.

(** The effect of one operation: accepted or refused, a key moves forward. *)
Lemma key_do_forward k op :
  (key_rank (ky_lifecycle_state k) <= key_rank (ky_lifecycle_state (key_do k op).2))%Z /\
  (ky_lifecycle_state (key_do k op).2 = KeyDestroyed -> ky_lifecycle_state k = KeyDestroyed \/ ky_lifecycle_state k = KeyRevoked).
Proof.
  destruct op; unfold key_do, begin_rotation, key_retire, key_revoke, key_destroy; destruct (ky_lifecycle_state k) eqn:E; simpl;
    rewrite ?E; simpl; split; (lia || naive_solver).
Qed.

(** A key only moves forward: no sequence of operations returns a key to an earlier state of its life, so a key
    that is not usable stays so, and a key that was not destroyed is destroyed only after it was revoked. *)
Theorem key_life_is_forward k ops :
  (key_rank (ky_lifecycle_state k) <= key_rank (ky_lifecycle_state (key_run k ops)))%Z /\
  (key_is_usable (key_run k ops) = true -> key_is_usable k = true) /\
  (ky_lifecycle_state (key_run k ops) = KeyDestroyed -> ky_lifecycle_state k <> KeyDestroyed ->
   exists pre op post, ops = pre ++ op :: post /\ ky_lifecycle_state (key_run k pre) = KeyRevoked).
Proof.
  assert (key_rank (ky_lifecycle_state k) <= key_rank (ky_lifecycle_state (key_run k ops)))%Z as Hr.
  { revert k. induction ops as [|op ops IH]; intros k; simpl; [done|]. etrans; [apply key_do_forward|apply IH]. }
  split; [done|]. split.
  { unfold key_is_usable. destruct (ky_lifecycle_state k), (ky_lifecycle_state (key_run k ops)); simpl in Hr; (lia || done). }
  clear Hr. induction ops as [|op ops IH] using rev_ind; [done|]. unfold key_run. rewrite fold_left_app. simpl. fold (key_run k ops).
  intros Hd Hk. destruct (key_do_forward (key_run k ops) op) as [_ Hf]. destruct (Hf Hd) as [H|H].
  - destruct (IH H Hk) as (pre & o & post & -> & Hrev). exists pre, o, (post ++ [op]). split; [by rewrite <-app_assoc|done].
  - by exists ops, op, [].
Qed.

(** A lease names the secret asked for, in its workspace and for its purpose, under an authorization; a reference that
    is read back is the one that was made, with its identity. *)
Theorem secret_lease_is_scoped minted id uri provider workspace purpose metadata version r q lease :
  secret_ref_rehydrate minted id uri provider workspace purpose metadata version = Ok r -> authorize_resolution r q = Ok lease ->
  sl_secret_ref_id lease = id /\ sq_workspace_id q = workspace /\ sq_purpose q = purpose /\
  is_empty (trim (sl_authorization_ref lease)) = false /\ text_starts_with uri (text_of "secret://") = true /\
  text_contains uri (text_of "plaintext=") = false.
Proof.
  unfold secret_ref_rehydrate, secret_ref_new. intros (r' & H & Hr)%bind_Ok. injection Hr as <-.
  apply bind_Ok in H as (u & [-> _]%required_text_ok & H). case_match eqn:Hu; [done|]. bool_hyps.
  apply bind_Ok in H as (p & _ & H). apply bind_Ok in H as (p' & [-> _]%required_text_ok & H). injection H as <-.
  unfold authorize_resolution. simpl. case_match eqn:Hg; [done|]. bool_hyps. intros (a & [-> Ha]%required_text_ok & Hl)%bind_Ok.
  by injection Hl as <-.
Qed.

(** ** The audit chain: UTF-8 and hexadecimal digits are readable *)

(** A Unicode scalar value (or a surrogate, which no [String] holds). *)
Definition scalar (c : Z) : Prop := (0 <= c < 1114112)%Z.

#[export] Instance scalar_dec c : Decision (scalar c).
Proof. unfold scalar. apply _. Defined.

Lemma utf8_char_range c : scalar c -> Forall (fun b => 0 <= b < 256)%Z (utf8_char c).
Proof.
  unfold scalar, utf8_char. intros Hc.
  repeat case_match; repeat (apply Forall_cons; split); try apply Forall_nil_2; Z.to_euclidean_division_equations; lia.
Qed.

Lemma utf8_char_inj c c' r r' : scalar c -> scalar c' -> utf8_char c ++ r = utf8_char c' ++ r' -> c = c' /\ r = r'.
Proof.
  unfold scalar, utf8_char. intros Hc Hc' H.
  repeat case_match; simpl in H; injection H; clear H; intros;
    first [exfalso; Z.to_euclidean_division_equations; lia | split; [Z.to_euclidean_division_equations; lia|done]].
Qed.

Lemma utf8_codes_inj t t' :
  Forall scalar t -> Forall scalar t' -> concat (map utf8_char t) = concat (map utf8_char t') -> t = t'.
Proof.
  intros Ht. revert t'. induction Ht as [|c t Hc _ IH]; intros t' Ht' H.
  - destruct Ht' as [|c' t' Hc' _]; [done|]. exfalso. simpl in H. unfold utf8_char in H. repeat case_match; done.
  - destruct Ht' as [|c' t' Hc' Ht'].
    + exfalso. simpl in H. unfold utf8_char in H. repeat case_match; done.
    + simpl in H. apply utf8_char_inj in H as [-> H]; [|done..]. f_equal. by apply IH.
Qed.

Lemma utf8_inj t t' : Forall scalar t -> Forall scalar t' -> utf8 t = utf8 t' -> t = t'.
Proof.
  intros Ht Ht' H. apply utf8_codes_inj; [done..|]. unfold utf8 in H.
  assert (forall u, Forall scalar u -> map Z_of_byte (map byte_of_Z (concat (map utf8_char u))) = concat (map utf8_char u)) as Hid.
  { intros u Hu. rewrite map_map. rewrite <-(map_id (concat _)) at 2. apply map_ext_in. intros b Hb.
    rewrite Z_of_byte_of_Z. apply Z.mod_small. apply list_elem_of_In in Hb.
    revert b Hb. apply Forall_forall, Forall_concat, Forall_map. by eapply Forall_impl; [exact Hu|apply utf8_char_range]. }
  by rewrite <-(Hid t), <-(Hid t'), H.
Qed.

Lemma hex_digit_inj n m : (0 <= n < 16)%Z -> (0 <= m < 16)%Z -> hex_digit n = hex_digit m -> n = m.
Proof. unfold hex_digit. repeat case_match; lia. Qed.

Lemma byte_nibbles b : (0 <= Z_of_byte b / 16 < 16)%Z /\ (0 <= Z_of_byte b mod 16 < 16)%Z.
Proof. pose proof (Z_of_byte_range b). Z.to_euclidean_division_equations; lia. Qed.

Lemma hex_inj b b' : hex b = hex b' -> b = b'.
Proof.
  revert b'. induction b as [|x b IH]; intros [|x' b'] H; try done. injection H as H1 H2 H3.
  destruct (byte_nibbles x), (byte_nibbles x'). apply hex_digit_inj in H1, H2; [|done..]. f_equal; [|by apply IH].
  rewrite <-(byte_of_Z_of_byte x), <-(byte_of_Z_of_byte x'). f_equal.
  rewrite (Z.div_mod (Z_of_byte x) 16), (Z.div_mod (Z_of_byte x') 16) by done. lia.
Qed.

(** A text that holds no NUL. *)
Definition plain (t : text) : Prop := Forall (fun c => scalar c /\ c <> 0%Z) t.

#[export] Instance plain_dec t : Decision (plain t).
Proof. unfold plain. apply _. Defined.

Lemma plain_scalar t : plain t -> Forall scalar t.
Proof. intros H. eapply Forall_impl; [exact H|]. by intros c [??]. Qed.

Lemma plain_no_nul t : plain t -> 0%Z ∉ t.
Proof. intros H Hin. by destruct (proj1 (Forall_forall _ _) H _ Hin). Qed.

Lemma plain_hex b : plain (hex b).
Proof.
  unfold plain, hex. apply Forall_concat, Forall_map, Forall_forall. intros x _.
  destruct (byte_nibbles x). unfold hex_digit, scalar. repeat constructor; repeat case_match; lia.
Qed.

Lemma plain_decimal (v : Z) : plain (text_of (pretty v)).
Proof. eapply Forall_impl; [apply decimal_chars|]. intros c [->|?]; unfold scalar; lia. Qed.

Section Digests.
Context {SHA : Sha256}.

Lemma sha256_bytes_inj b b' : sha256_bytes b = sha256_bytes b' -> sha256 b = sha256 b'.
Proof. unfold sha256_bytes. intros H. apply app_inv_head in H. by apply hex_inj. Qed.

Lemma plain_sha256_bytes b : plain (sha256_bytes b).
Proof. apply Forall_app. split; [|apply plain_hex]. apply (bool_decide_unpack _). by vm_compute. Qed.

Lemma sha256_not_genesis b : sha256_bytes b <> GENESIS.
Proof. unfold sha256_bytes. by intros [=]. Qed.

End Digests.

(** ** Chains *)

Section Chain.
Context {SHA : Sha256} {UT : UuidText} {RF : Rfc3339}.

Lemma audit_verify_app c c' n p :
  audit_verify_from n p (c ++ c') = Ok tt <->
  audit_verify_from n p c = Ok tt /\ audit_verify_from (n + length c) (from_option ai_entry_digest p (last c)) c' = Ok tt.
Proof.
  revert n p. induction c as [|e c IH]; intros n p; simpl; [rewrite Nat.add_0_r; tauto|].
  case_match; [split; [done|by intros [??]]|]. case_match; [split; [done|by intros [??]]|].
  rewrite IH, Nat.add_succ_r. destruct c; [done|].
  rewrite (last_cons e). by destruct (last (a :: c)) eqn:El; [|apply last_None in El].
Qed.

(** What [verify] asks of the last entry. *)
Record linked (c : AuditIntegrityChain) (e : AuditIntegrityEntry) : Prop := {
  lk_sequence : ai_sequence e = (Z.of_nat (length c) + 1)%Z;
  lk_previous : ai_previous_digest e = chain_head c;
  lk_digest : ai_entry_digest e = sha256_digest (entry_parts e);
}.

Lemma audit_verify_snoc c e : audit_verify (c ++ [e]) = Ok tt <-> audit_verify c = Ok tt /\ linked c e.
Proof.
  unfold audit_verify. rewrite audit_verify_app. apply and_iff_compat_l. simpl. fold (chain_head c). split.
  - case_match eqn:H1; [done|]. case_match eqn:H2; [done|]. intros _. bool_hyps. by split.
  - intros [-> -> ->]. by rewrite !eqb_refl.
Qed.

Lemma chain_head_snoc c e : chain_head (c ++ [e]) = ai_entry_digest e.
Proof. unfold chain_head. by rewrite last_snoc. Qed.

Lemma plain_chain_head c : audit_verify c = Ok tt -> plain (chain_head c).
Proof.
  destruct c as [|e c _] using rev_ind; intros Hc.
  - apply (bool_decide_unpack _). by vm_compute.
  - rewrite chain_head_snoc. apply audit_verify_snoc in Hc as [_ Hl]. rewrite (lk_digest _ _ Hl). apply plain_sha256_bytes.
Qed.

(** An entry whose texts are texts, and hold no NUL where [append] takes them from its caller. *)
Record entry_plain (e : AuditIntegrityEntry) : Prop := {
  ep_action : plain (ai_action e);
  ep_resource : plain (ai_resource_ref e);
  ep_content : plain (ai_content_digest e);
  ep_workspace : Forall scalar (uuid_text (ai_workspace_id e));
  ep_principal : Forall scalar (uuid_text (ai_principal_id e));
  ep_time : Forall scalar (rfc3339 (ai_recorded_at e));
}.

Lemma framed_cons p ps : framed (p :: ps) = p ++ 0%Z :: framed ps.
Proof. unfold framed. simpl. by rewrite <-app_assoc. Qed.

Lemma framed_scalar ps : Forall (Forall scalar) ps -> Forall scalar (framed ps).
Proof.
  intros H. apply Forall_concat, Forall_map. eapply Forall_impl; [exact H|]. intros p Hp. apply Forall_app. split; [done|].
  repeat constructor; done.
Qed.

Lemma entry_parts_scalar e : entry_plain e -> plain (ai_previous_digest e) -> Forall (Forall scalar) (entry_parts e).
Proof. intros [] Hp. repeat constructor; try done; apply plain_scalar; [apply plain_decimal|done..]. Qed.

Context {UTO : UuidTextOk} {RFO : Rfc3339Ok}.

(** The framed texts of an entry determine all its fields but the digest. *)
Lemma entry_parts_inj e e' :
  entry_plain e -> entry_plain e' -> plain (ai_previous_digest e) -> plain (ai_previous_digest e') ->
  ai_entry_digest e = ai_entry_digest e' -> framed (entry_parts e) = framed (entry_parts e') -> e = e'.
Proof.
  intros [Ha Hr Hc _ _ _] [Ha' Hr' Hc' _ _ _] Hp Hp' Hd H.
  apply plain_no_nul in Ha, Ha', Hr, Hr', Hc, Hc', Hp, Hp'.
  unfold entry_parts, audit_parts in H. rewrite !framed_cons in H.
  apply separated_inj in H as [Hs H]; [|apply plain_no_nul, plain_decimal..]. apply text_of_inj, (inj pretty) in Hs.
  apply app_inj_1 in H as [Hw H]; [|by rewrite !uuid_text_length]. apply uuid_text_inj in Hw. injection H as H.
  apply app_inj_1 in H as [Hq H]; [|by rewrite !uuid_text_length]. apply uuid_text_inj in Hq. injection H as H.
  apply separated_inj in H as [Ha1 H]; [|done..]. apply separated_inj in H as [Hr1 H]; [|done..].
  apply separated_inj in H as [Hc1 H]; [|done..]. apply separated_inj in H as [Hp1 H]; [|done..].
  apply app_inv_tail in H. apply rfc3339_inj in H.
  destruct e, e'; simpl in *; by subst.
Qed.

(** Two verified entries with one digest are one entry, or SHA-256 collides. *)
Lemma same_digest_same_entry c c' e e' :
  audit_verify c = Ok tt -> audit_verify c' = Ok tt -> linked c e -> linked c' e' -> entry_plain e -> entry_plain e' ->
  ai_entry_digest e = ai_entry_digest e' -> e = e' \/ exists b b', b <> b' /\ sha256 b = sha256 b'.
Proof.
  intros Hc Hc' Hl Hl' He He' Hd.
  assert (plain (ai_previous_digest e)) by (rewrite (lk_previous _ _ Hl); by apply plain_chain_head).
  assert (plain (ai_previous_digest e')) by (rewrite (lk_previous _ _ Hl'); by apply plain_chain_head).
  pose proof Hd as Hh. rewrite (lk_digest _ _ Hl), (lk_digest _ _ Hl') in Hh. apply sha256_bytes_inj in Hh.
  destruct (base.decide (utf8 (framed (entry_parts e)) = utf8 (framed (entry_parts e')))) as [Hu|Hu]; [left|right; eauto].
  apply entry_parts_inj; try done. apply utf8_inj; [by apply framed_scalar, entry_parts_scalar..|done].
Qed.

(** C27.  The digest of a verified chain's last entry fixes the whole chain: two chains that verify and end in the same
    digest, with no NUL in the texts their callers gave, are equal entry by entry, or they exhibit two byte strings with
    one SHA-256.  In particular, removing, inserting, reordering or altering entries of a chain whose head is known
    cannot go unnoticed. *)
Theorem audit_chain_tamper_evident (c c' : AuditIntegrityChain) :
  audit_verify c = Ok tt -> audit_verify c' = Ok tt -> Forall entry_plain c -> Forall entry_plain c' ->
  chain_head c = chain_head c' -> c = c' \/ exists b b', b <> b' /\ sha256 b = sha256 b'.
Proof.
  revert c'. induction c as [|e c IH] using rev_ind; intros c' Hc Hc' He He' Hh;
    destruct c' as [|e' c' _] using rev_ind; [by left|..].
  - apply audit_verify_snoc in Hc' as [_ Hl]. rewrite chain_head_snoc, (lk_digest _ _ Hl) in Hh. by apply eq_sym, sha256_not_genesis in Hh.
  - apply audit_verify_snoc in Hc as [_ Hl]. rewrite chain_head_snoc, (lk_digest _ _ Hl) in Hh. by apply sha256_not_genesis in Hh.
  - rewrite !chain_head_snoc in Hh. apply audit_verify_snoc in Hc as [Hc Hl], Hc' as [Hc' Hl'].
    apply Forall_app in He as [He [He1 _]%Forall_cons], He' as [He' [He1' _]%Forall_cons].
    destruct (same_digest_same_entry c c' e e') as [<-|?]; [done..| |by right].
    destruct (IH c') as [<-|?]; [done..| |by left|by right]. by rewrite <-(lk_previous _ _ Hl), <-(lk_previous _ _ Hl').
Qed.

End Chain.

Section Append.
Context {SHA : Sha256} {UT : UuidText} {RF : Rfc3339}.

Lemma audit_append_linked c workspace principal action resource content at_ :
  exists e, audit_append c workspace principal action resource content at_ = c ++ [e] /\ linked c e /\
    ai_workspace_id e = workspace /\ ai_principal_id e = principal /\ ai_action e = action /\ ai_resource_ref e = resource /\
    ai_content_digest e = content /\ ai_recorded_at e = at_.
Proof. unfold audit_append. eexists. split; [reflexivity|]. by repeat split. Qed.

(** What a caller records. *)
Record Recorded : Type := mkRecorded {
  rd_workspace_id : WorkspaceId;
  rd_principal_id : PrincipalId;
  rd_action : text;
  rd_resource_ref : text;
  rd_content_digest : text;
  rd_at : Timestamp;
}.

Definition append_recorded (c : AuditIntegrityChain) (r : Recorded) : AuditIntegrityChain :=
  audit_append c (rd_workspace_id r) (rd_principal_id r) (rd_action r) (rd_resource_ref r) (rd_content_digest r) (rd_at r).

Definition recorded_of (e : AuditIntegrityEntry) : Recorded :=
  mkRecorded (ai_workspace_id e) (ai_principal_id e) (ai_action e) (ai_resource_ref e) (ai_content_digest e) (ai_recorded_at e).

(** The chain that appends build from nothing verifies, holds exactly what was recorded in its order, and is the
    only verified chain that does: the links and the digests are functions of the records. *)
Theorem appended_chain_verifies (rs : list Recorded) :
  audit_verify (fold_left append_recorded rs []) = Ok tt /\ map recorded_of (fold_left append_recorded rs []) = rs /\
  forall c, audit_verify c = Ok tt -> map recorded_of c = rs -> c = fold_left append_recorded rs [].
Proof.
  induction rs as [|r rs (Hv & Hm & Hu)] using rev_ind.
  { split; [done|]. split; [done|]. intros c _ Hc. by destruct c. }
  rewrite fold_left_app. simpl. unfold append_recorded at 1 3 5.
  edestruct audit_append_linked as (e & -> & Hl & Hw & Hp & Ha & Hr & Hd & Ht).
  assert (recorded_of e = r) as He by (unfold recorded_of; destruct r; simpl in *; congruence).
  split; [by apply audit_verify_snoc|]. split; [by rewrite map_app, Hm; simpl; rewrite He|].
  intros c Hc Hmap. destruct c as [|e' c _] using rev_ind; [by destruct rs|].
  rewrite map_app in Hmap. apply app_inj_2 in Hmap as [Hmap Hr']; [|done]. injection Hr' as Hr'.
  apply audit_verify_snoc in Hc as [Hc Hl']. rewrite (Hu c Hc Hmap) in Hl' |- *. f_equal. f_equal.
  destruct Hl as [Hs1 Hp1 Hd1], Hl' as [Hs2 Hp2 Hd2]. unfold entry_parts in Hd1, Hd2. rewrite <-He in Hr'. unfold recorded_of in Hr'.
  destruct e, e'; simpl in *. by simplify_eq.
Qed.

(** The zero bytes between the digested texts do not delimit them when a text holds a NUL: an entry whose action
    continues after a NUL can be rewritten to move that continuation into its resource, and the chain around it
    verifies as before. *)
Theorem audit_separator_ambiguous (before after : AuditIntegrityChain) (sequence : Z) (workspace : WorkspaceId) (principal : PrincipalId)
    (action action' resource content previous digest : text) (at_ : Timestamp) :
  let e := mkAudit sequence workspace principal (action ++ 0%Z :: action') resource content previous digest at_ in
  let e' := mkAudit sequence workspace principal action (action' ++ 0%Z :: resource) content previous digest at_ in
  e <> e' /\ audit_verify (before ++ e' :: after) = audit_verify (before ++ e :: after).
Proof.
  intros e e'. split.
  - intros H. injection H as H _. apply (f_equal length) in H. rewrite length_app in H. simpl in H. lia.
  - assert (sha256_digest (entry_parts e') = sha256_digest (entry_parts e)) as Hd.
    { unfold sha256_digest, entry_parts, audit_parts. simpl. rewrite !framed_cons. by simplify_list_eq. }
    unfold audit_verify. generalize 0, GENESIS. induction before as [|x l IH]; intros n p; simpl; [by rewrite Hd|].
    by rewrite IH.
Qed.

End Append.

(** ** Witnesses *)

Module AuditChainWitness.
Import Toy.

#[local] Instance times : Rfc3339 := fun t => text_of (pretty t).
#[local] Instance times_ok : Rfc3339Ok.
Proof. intros t t' H. by apply text_of_inj, (inj pretty) in H. Qed.

#[local] Instance uuids : UuidText := fun u => u :: repeat 45%Z 35.
#[local] Instance uuids_ok : UuidTextOk.
Proof. split; [done|]. by intros u v [= ->]. Qed.

Definition chain : AuditIntegrityChain := Eval vm_compute in
  audit_append (audit_append [] 1 2 (text_of "read") (text_of "m:1") (text_of "d1") 10) 1 3 (text_of "purge") (text_of "m:1") (text_of "d2") 11.

Lemma audit_chain_tamper_evident_witness :
  length chain = 2 /\ (chain = chain \/ exists b b', b <> b' /\ sha256 b = sha256 b').
Proof.
  split; [done|]. apply (audit_chain_tamper_evident chain chain); [vm_compute; reflexivity..| | |reflexivity].
  all: repeat (apply Forall_cons; split); try apply Forall_nil_2; split; apply (bool_decide_unpack _); vm_compute; reflexivity.
Defined.

(** Altering an entry of the chain is noticed. *)
Example altered_chain_fails :
  audit_verify (match chain with e :: rest => mkAudit 1 1 9 (ai_action e) (ai_resource_ref e) (ai_content_digest e) (ai_previous_digest e)
                                                (ai_entry_digest e) 10 :: rest | [] => [] end) = Err PolicyViolation.
Proof. vm_compute. reflexivity. Qed.

End AuditChainWitness.

Module TrustWitness.

Definition scope : HealthScope := WorkspaceScope 1.
Definition action : ContainmentAction := mkContainment FreezeWrites (text_of "ws:1") 5 (text_of "leak") (text_of "v1") 20.
Definition run (r : RevalidationResult) : RevalidationRun :=
  mkRevalidation 7 (Some 3%Z) scope DomainLevel (text_of "base") [mkCheck (text_of "integrity") true [text_of "e:1"]] [text_of "e:1"] r 30.
Definition opened : result DomainError Incident :=
  incident_open 3 BroadCorruption SeverityHigh scope [] [text_of "m:1"] [text_of "e:0"] 10.
Definition incident : Incident := Eval vm_compute in
  match opened with
  | Ok i => i
  | Err _ => mkIncident 0 BroadCorruption SeverityLow scope [] [] [] 0 IncidentOpen ContainmentNone RecoveryNotStarted RevalidationNotStarted
               [] None None [] None None
  end.

(** The second recovery is refused, and the run is inconclusive before it passes. *)
Definition life : list IncidentOp :=
  [OpContain action; OpContained; OpRecover; OpRecover; OpRevalidate 7; OpApply (run ResultInconclusive); OpApply (run ResultPassed); OpResolve;
   OpClose 5 (text_of "restored from backup") [text_of "e:2"] 40].

Lemma closed_incident_was_governed_witness :
  exists a r, ic_containment_actions (incident_run incident life) = [a] /\ last (accepted_runs incident life) = Some r /\
    revalidation_is_successful r = true.
Proof.
  destruct (closed_incident_was_governed 3 BroadCorruption SeverityHigh scope [] [text_of "m:1"] [text_of "e:0"] 10 incident life)
    as (a & r & Ha & _ & _ & Hr & Hok & _); [vm_compute; reflexivity..|].
  exists a, r. split; [exact Ha|]. split; [exact Hr|exact Hok].
Defined.

(** A failed run leaves the incident in [Revalidating]; recovering again, registering another run, resolving and
    closing are all refused. *)
Example failed_run_strands :
  ic_status (incident_run incident [OpContain action; OpContained; OpRecover; OpRevalidate 7; OpApply (run ResultFailed); OpRecover;
    OpRevalidate 8; OpResolve; OpClose 5 (text_of "gone") [text_of "e:2"] 40]) = IncidentRevalidating.
Proof. vm_compute. reflexivity. Qed.

Definition public : DataClassification := mkClassification Public [text_of "web"] [] [] (text_of "s:1") (text_of "p").
Definition restricted : DataClassification := mkClassification Restricted [text_of "health"] [text_of "eu"] [] (text_of "s:2") (text_of "p").
Definition sources : list DataClassification := [public; restricted].
Definition lineage : ClassificationLineage :=
  mkLineage 9 [text_of "s:1"; text_of "s:2"] sources (with_sensitivity public Restricted) (text_of "v1") (text_of "d:1").
Definition policy : DataPolicy := mkDataPolicy 4 (text_of "v1") Restricted {[ ToExportBundle ]} None.
Definition plan : DataExportPlan :=
  mkExportPlan 6 1 (text_of "s") (text_of "audit") (text_of "r") (ln_effective lineage) [text_of "m:1"] [] (text_of "json") None None
    (Some 50%Z) (text_of "v1") Capability.MemoryRead 10.

Lemma derivation_never_launders_witness :
  dd_allowed (data_policy_evaluate policy restricted ToExportBundle false) = true /\
  export_authorize plan policy false 20 = Ok (mkAuthorizedExport plan 20 (text_of "v1")).
Proof.
  split; [|vm_compute; reflexivity].
  assert (derived_from restricted (ln_effective lineage)) as Hd.
  { apply (derived_step restricted restricted sources 9 [text_of "s:1"; text_of "s:2"] (text_of "v1") (text_of "d:1") lineage).
    - constructor.
    - apply list_elem_of_further, list_elem_of_here.
    - vm_compute. reflexivity. }
  destruct (derivation_never_launders restricted (ln_effective lineage) policy false Hd) as [_ H].
  apply (H plan 20%Z (mkAuthorizedExport plan 20 (text_of "v1"))); vm_compute; reflexivity.
Defined.

(** The derived classification keeps the categories and the jurisdiction of its first source only. *)
Example lineage_drops_categories :
  lineage_derive 9 [text_of "s:1"; text_of "s:2"] sources (text_of "v1") (text_of "d:1") = Ok lineage /\
  cl_categories (ln_effective lineage) = [text_of "web"] /\ cl_jurisdiction_tags (ln_effective lineage) = [].
Proof. vm_compute. done. Qed.

(** Holds that the plan names play no part unless they are passed. *)
Example planned_hold_is_ignored : exists v,
  verify_deletion 1 (mkDeletionRequest 2 5 5 (text_of "m") PhysicalDelete (text_of "p") (text_of "x") 1)
    (mkDeletionPlan 3 2 [text_of "m:1"] [] [77%Z] 1) [] [text_of "m:1"] [] [text_of "e"] 9 = Ok v /\ deletion_is_complete v = true.
Proof. eexists. split; vm_compute; reflexivity. Qed.

End TrustWitness.
